(* ===== verification/_CoqProject ===== *)
-Q . S2P
Prelude.v
PyStr.v
PyText.v
Kconst.v
Expr.v
Escape.v
Incr.v
Objects.v
ParseState.v
Preproc.v
Lexer.v
Parser.v
MenuTree.v
Printing.v
DepLoop.v
Sanity.v
Values.v
Reads.v
Session.v
Meaning.v
Effects.v
Reload.v
Check.v
Deps.v
Load.v
ConfigFile.v
ConfigSession.v
Repr.v
ConfigWrite.v
ConfigLines.v
Written.v
Restore.v
ConfigText.v
SyncDeps.v
Demo.v
Divergences.v
Client.v
Rules.v
ConfigRules.v
SyncRules.v
EditText.v
MenuView.v
MenuShown.v
MenuNav.v
MenuInfo.v
MenuKeys.v
MenuLoop.v
MenuSafe.v
MenuQuit.v
MenuDraw.v
MenuChange.v
MenuRules.v
MenuStyle.v
StyleRules.v
Merge.v
MergeChecks.v
MergeRules.v
Arith.v
ArithRules.v
DevTree.v
Functions.v
FunctionRules.v
ExprText.v
LexText.v
ParseRules.v
LoopRules.v
GuiTree.v
GuiView.v
GuiState.v
GuiBuild.v
GuiKeys.v
GuiLoop.v
MenuDivergences.v
Lint.v
Tools.v
GuiShown.v
GuiFill.v
GuiUpdate.v
GuiQuit.v
GuiRules.v
