(* ===== verification/Prelude.v ===== *)
(** * A verification of ve-root's configuration system

    ve-root is a build tool whose Python part is the Kconfig implementation under
    src/scripts/kconfig/: the library kconfiglib.py, which loads Kconfig files,
    computes the values of symbols and reads and writes .config files, and the
    programs that use it.  This development models the library from the text of a
    Kconfig file to the text of the saved configuration, and the terminal
    interface menuconfig.py from the keys typed to the windows drawn, as functions
    that evaluate inside the kernel, and proves what they promise.

    ** The program, and where it is modelled

    - The language.  PyStr.v and PyText.v hold the [str] methods, [int], [hex],
      path functions and regular expressions the code uses, on ASCII text.
      Integers are unbounded, as in Python.  Exceptions are values: [outcome] of
      this file is a result, an exception of the program or of the interpreter
      ([exn]), or exhausted fuel.
    - Constants and expressions: Kconst.v, Expr.v, Escape.v.
    - Objects: Objects.v.  Symbol, Choice, MenuNode and Kconfig are records in
      stores; a Python reference is an index, so aliasing is equality of indices.
    - Loading ([Kconfig._init]): ParseState.v (the state of the parser and the
      world outside it), Preproc.v (macros), Lexer.v (and expressions), Parser.v,
      MenuTree.v (finalisation of the tree), Sanity.v (checks), Deps.v
      ([_build_dep]), DepLoop.v (loop detection), and Load.v, which composes them
      the way [_init] does.
    - Values: Values.v has the code of every cached property ([tri_value],
      [str_value], [visibility], [assignable], [selection]) as a program that may
      read other properties; Incr.v is the theory of such programs with a cache
      and recursive invalidation; Session.v has the operations of a client
      ([set_value], [unset_value], [unset_values]).
    - Configuration files: ConfigFile.v ([load_config] and what it warns about)
      and ConfigWrite.v ([write_config], [write_autoconf], [write_min_config],
      [_write_if_changed], [sync_deps]), on a map from paths to texts.  The world
      (ParseState.v) may refuse to write or move a file, or cut a write short; such
      code is a computation [HIO], which keeps what was done before the error.
    - Printing: Printing.v ([custom_str], [referenced]).
    - menuconfig: EditText.v (text fields), MenuView.v ([_shown_nodes] and the
      text of entries), MenuNav.v (cursor and menus), MenuInfo.v (the information
      screen), MenuKeys.v (dialogs and changes of values), MenuLoop.v (search,
      main loop, start), MenuDraw.v (the windows drawn).
    - MenuStyle.v has menuconfig's style strings and colours.
    - guiconfig.py, the graphical interface: GuiTree.v (Tk's Treeview), GuiView.v
      (what is shown), GuiState.v (its globals and events), GuiBuild.v (filling the
      tree, moving), GuiKeys.v (callbacks) and GuiLoop.v (dialogs, main loop).  It
      shares with menuconfig what the two programs have word for word.
    - kconfig.py, the script that a build runs to merge configuration fragments:
      Merge.v.
    - kconfigfunctions.py, the functions that Kconfig files can call: Arith.v (text
      and arithmetic), DevTree.v (queries of the devicetree, whose nodes and tables
      are parameters) and Functions.v (the table, as the preprocessor sees it).
    - Repr.v: the rest of kconfiglib's public interface, [eval_string] and [__repr__].
    - Lint.v: lint.py; Tools.v: hardenconfig.py, diffconfig and the small scripts.
    How they interact: the loader produces a [kconfig] that no longer changes.
    The class [Loaded] (Session.v) is what it promises to the operations on
    values; Check.v decides it on a concrete configuration and Deps.v with Client.v
    derive it for what the loader builds.  Everything after loading is proved
    against [Loaded]: sessions, configuration files, the interface.

    ** What is proved

    - Client.v: a session, with its caches and invalidation, answers like a
      specification without a cache; the dependency sets cover every read;
      invalidation terminates; what each operation does.
    - Rules.v (from Reads.v, Meaning.v, Effects.v): the values.  Types and bounds
      of values, the rules for bool and tristate symbols, one y per choice, ranges,
      the meaning of expressions, and that assignments take effect.
    - ConfigRules.v (from ConfigSession.v, ConfigLines.v, ConfigText.v, Written.v,
      Reload.v, Restore.v): saving and loading a configuration that a file can
      express gives every property its value back; loading is a fold of assignments,
      which fails in one case only, and replaces what was there but for the selections
      of choices in m mode.
    - SyncRules.v (from SyncDeps.v): [sync_deps] touches the files of exactly the
      symbols that changed, and can be run again when a file could not be written;
      saving twice changes nothing; a save that fails keeps the values and the backup.
    - MenuRules.v (from MenuShown.v, MenuSafe.v, MenuChange.v, MenuQuit.v): the
      cursor stays on a node and on the screen whatever is typed, the list is what
      should be visible, changing a value keeps the cursor and takes effect, and the
      program does not end with values that are not in the file unless the user says
      so.
    - StyleRules.v: every element of the interface gets a style and colours are
      allocated once each, whatever the user's style string is; colours are the
      closest of the palette.
    - MergeRules.v (from MergeChecks.v): the merge script writes the merge of its
      fragments or exits with every file as it was, and reports exactly the
      assignments that did not take.
    - FunctionRules.v and ArithRules.v: predicates answer y or n (one can fail, for a
      value that is no integer), numeric functions return numbers that Kconfig accepts
      or fail for the reasons named, arithmetic works on the sequence of all numbers,
      and division is exact below 2^53.
    - ParseRules.v (from ExprText.v, LexText.v): expressions survive printing,
      tokenising and parsing; the expression parser always returns; [eval_string] on
      the text of an expression gives its value.
    - GuiRules.v (from GuiShown.v, GuiFill.v, GuiUpdate.v, GuiQuit.v): after updates
      and rows opened and closed, the rows of guiconfig's tree are exactly the nodes
      that should be there, in order and up to date; the window does not close with
      values that are not in the file unless the user says so.
    - Lint.v: symbols listed as constant are constant (unless they have a range).
    - LoopRules.v: the dependency loop check reports only loops and returns; what it
      accepts has no loop along the dependencies of symbols.
    - Divergences.v and MenuDivergences.v: closed runs of the model in which the
      code does not do what it means to.
    - Demo.v is the configuration on which the theorems are instantiated.

    ** Fuel

    Recursion that follows links between objects, macros or input takes fuel and
    returns [NoFuel] when it runs out, which no theorem counts as success.  For
    values the fuel is part of [Loaded]: it bounds the depth of the acyclic graph
    of reads, so that evaluation and invalidation are proved to succeed.  For the
    menu tree it bounds the length of the walk ([walk] of MenuShown.v,
    [node_iter] of MenuTree.v), and the functions over the tree are proved to
    return when the walk does.  The loops of the interface spend a unit per key and
    are given as many as there are events.  The loader takes 400 in Demo.v; its
    runs are checked by evaluation.

    ** What is not modelled

    - In guiconfig.py, the creation and layout of the widgets; where things are on
      the screen is a parameter.
    - The devicetree itself, an object of the package edtlib outside the repository.
      The text of property values other than integers, strings, Booleans and arrays
      is a parameter, and so is what [compat2okay] gives for a missing key; that a
      subscript may insert the key into it is not modelled.
    - In menuconfig.py, starting and ending curses, the modes of the keyboard and the
      visibility of the cursor; [textwrap.wrap] is a parameter.
    - Directories and symbolic links: [_touch_dep_file] creates directories as needed,
      and [_save_old] copies a link instead of moving it.  A file that exists can be
      read.
    - Text that is not ASCII; [argparse]; the packages the scripts call (CSV and
      JSON readers, version numbers, templates, git and west), which are parameters.
*)

From stdpp Require Export base tactics option list gmap strings numbers sorting.
From Stdlib Require Export ZArith Lia.
From Stdlib Require Export Ascii.
From Stdlib Require String.
From stdpp Require Import options.

(** ** Results of fallible code

    A Python call returns a value, raises an exception, or (for the recursive
    procedures of the model) exhausts the fuel it was given.  [NoFuel] is never a
    behaviour of the program: the termination theorems bound the fuel needed. *)
Inductive exn : Type :=
  | KconfigError (msg : string)
  | ValueError
  | KeyError
  | IndexError
  | AttributeError
  | TypeError
  | AssertionError
  | OSError (msg : string)
  | SystemExit (msg : string)
  | ZeroDivisionError
  | OverflowError
  | TclError.

#[global] Instance exn_eq_dec : EqDecision exn.
Proof. solve_decision. Defined.

Inductive outcome (A : Type) : Type :=
  | Ok (a : A)
  | Raise (e : exn)
  | NoFuel.
Arguments Ok {A} _.
Arguments Raise {A} _.
Arguments NoFuel {A}.

Definition obind {A B} (m : outcome A) (f : A → outcome B) : outcome B :=
  match m with
  | Ok a => f a
  | Raise e => Raise e
  | NoFuel => NoFuel
  end.

Declare Scope kc_scope.
Delimit Scope kc_scope with kc.
Notation "'let!' x ':=' m 'in' k" := (obind m (fun x => k))
  (at level 10, x pattern, m at level 100, k at level 200) : kc_scope.
#[global] Open Scope kc_scope.

Definition of_option {A} (e : exn) (o : option A) : outcome A :=
  match o with Some a => Ok a | None => Raise e end.

Lemma obind_Ok {A B} (m : outcome A) (f : A → outcome B) b :
  obind m f = Ok b ↔ ∃ a, m = Ok a ∧ f a = Ok b.
Proof.
  destruct m as [a|e|]; cbn; split.
  - eauto.
  - by intros (? & [= ->] & ?).
  - done.
  - by intros (? & ? & ?).
  - done.
  - by intros (? & ? & ?).
Qed.

Lemma obind_not_NoFuel {A B} (m : outcome A) (f : A → outcome B) :
  obind m f ≠ NoFuel → m ≠ NoFuel.
Proof. by destruct m. Qed.

(** ** Tactics of the development *)

(** Case analysis on every [match] of the goal or the context, discarding the
    contradictory branches. *)
Ltac case_all :=
  repeat (case_match; simplify_eq/=; try done).

(** Split a successful monadic sequence into its steps. *)
Ltac inv_bind :=
  repeat match goal with
  | H : obind _ _ = Ok _ |- _ =>
      apply obind_Ok in H; destruct H as (? & ? & ?)
  end.

(** ** Generic list lemmas *)

(** The first element of a list that satisfies a Boolean test. *)
Fixpoint first_such {A} (p : A → bool) (l : list A) : option A :=
  match l with
  | [] => None
  | x :: l => if p x then Some x else first_such p l
  end.

Lemma first_such_spec {A} (p : A → bool) l x :
  first_such p l = Some x ↔
  ∃ l1 l2, l = l1 ++ x :: l2 ∧ p x = true ∧ Forall (λ y, p y = false) l1.
Proof.
  split.
  - induction l as [|a l IH]; [done|]; cbn.
    destruct (p a) eqn:Hp; intros H; [simplify_eq|].
    + exists [], l; eauto.
    + destruct (IH H) as (l1 & l2 & -> & ? & ?).
      exists (a :: l1), l2; eauto.
  - intros (l1 & l2 & -> & Hx & Hl).
    induction Hl as [|a l1 Ha Hl IH]; cbn; [by rewrite Hx|by rewrite Ha].
Qed.

Lemma first_such_None {A} (p : A → bool) l :
  first_such p l = None ↔ Forall (λ y, p y = false) l.
Proof.
  split.
  - induction l as [|a l IH]; [constructor|]; cbn.
    destruct (p a) eqn:Hp; [done|]. intros. constructor; auto.
  - induction 1 as [|a l Ha Hl IH]; cbn; [done|by rewrite Ha].
Qed.

(** Membership tested with decidable equality, as Python's [in]. *)
Definition mem {A} `{EqDecision A} (x : A) (l : list A) : bool := bool_decide (x ∈ l).

Lemma mem_true {A} `{EqDecision A} (x : A) l : mem x l = true ↔ x ∈ l.
Proof. unfold mem. by rewrite bool_decide_eq_true. Qed.

Lemma mem_false {A} `{EqDecision A} (x : A) l : mem x l = false ↔ x ∉ l.
Proof. unfold mem. by rewrite bool_decide_eq_false. Qed.

(** Association lists: Python dictionaries whose insertion order matters. *)
Section Dict.
Context {K V : Type} `{EqDecision K}.

Fixpoint dict_get (k : K) (d : list (K * V)) : option V :=
  match d with
  | [] => None
  | (k', v) :: d => if decide (k = k') then Some v else dict_get k d
  end.

(** [d[k] = v]: in place when the key is present, appended otherwise. *)
Fixpoint dict_set (k : K) (v : V) (d : list (K * V)) : list (K * V) :=
  match d with
  | [] => [(k, v)]
  | (k', v') :: d =>
      if decide (k = k') then (k', v) :: d else (k', v') :: dict_set k v d
  end.

Fixpoint dict_del (k : K) (d : list (K * V)) : list (K * V) :=
  match d with
  | [] => []
  | (k', v') :: d => if decide (k = k') then d else (k', v') :: dict_del k d
  end.

Lemma dict_get_set_eq k v d : dict_get k (dict_set k v d) = Some v.
Proof.
  induction d as [|[k' v'] d IH]; cbn; [by rewrite decide_True|].
  destruct (decide (k = k')) as [->|Hne]; cbn.
  - by rewrite decide_True.
  - by rewrite decide_False.
Qed.

Lemma dict_get_set_ne k k' v d :
  k ≠ k' → dict_get k' (dict_set k v d) = dict_get k' d.
Proof.
  intros Hne. induction d as [|[k1 v1] d IH]; cbn.
  - by rewrite decide_False by congruence.
  - destruct (decide (k = k1)) as [->|]; cbn.
    + by rewrite !decide_False by congruence.
    + by rewrite IH.
Qed.

Lemma dict_get_In k v d : dict_get k d = Some v → (k, v) ∈ d.
Proof.
  induction d as [|[k' v'] d IH]; cbn; [done|].
  case_decide; intros; simplify_eq; set_solver.
Qed.

Lemma dict_get_None k d : dict_get k d = None ↔ k ∉ d.*1.
Proof.
  induction d as [|[k' v'] d IH]; cbn.
  - split; [|done]. intros _ Hin. inversion Hin.
  - rewrite not_elem_of_cons. case_decide; naive_solver.
Qed.

Lemma dict_set_keys k v d :
  NoDup d.*1 → NoDup (dict_set k v d).*1.
Proof.
  assert (Hin : ∀ x d, x ∈ (dict_set k v d).*1 → x = k ∨ x ∈ d.*1).
  { intros x l. induction l as [|[k1 v1] l IH]; cbn.
    - intros ?%list_elem_of_singleton; auto.
    - case_decide; cbn; rewrite !elem_of_cons; naive_solver. }
  induction d as [|[k' v'] d IH]; cbn; intros Hnd; [apply NoDup_singleton|].
  inversion Hnd; subst. case_decide; cbn; constructor; auto.
  intros [?|?]%Hin; congruence.
Qed.
End Dict.

(** Deleting the keys of a list, one after the other. *)
Lemma foldl_delete_lookup {K A} `{Countable K} (l : list K) (m : gmap K A) k :
  foldl (λ m k, delete k m) m l !! k = if decide (k ∈ l) then None else m !! k.
Proof.
  revert m. induction l as [|k' l IH]; intros m; cbn.
  - by rewrite decide_False by apply not_elem_of_nil.
  - rewrite IH, lookup_delete. destruct (decide (k ∈ l)) as [Hk|Hk].
    + rewrite decide_True by by apply elem_of_cons; right. done.
    + destruct (decide (k' = k)) as [->|].
      * by rewrite decide_True by by apply elem_of_cons; left.
      * by rewrite decide_False by (rewrite elem_of_cons; naive_solver).
Qed.

(** A sub-map has no more keys. *)
Lemma map_sub_None {K A} `{Countable K} (m m' : gmap K A) k :
  m' ⊆ m → m !! k = None → m' !! k = None.
Proof.
  intros Hsub Hn. destruct (m' !! k) eqn:Hc; [|done].
  apply (lookup_weaken _ _ _ _ Hc) in Hsub. congruence.
Qed.

Create HintDb kconf discriminated.
#[export] Hint Resolve first_such_spec dict_get_set_eq dict_get_set_ne : kconf.
