(* ===== verification/PyStr.v ===== *)
(** * Python strings, integers and the regular expressions of the parser

    The language level the program rests on: the [str] methods, [int(s, base)],
    [str(n)], [hex(n)] and the anchored regular expressions, on strings of ASCII
    characters.  A character is one code point below 128; [str.isspace] and
    [str.strip] treat 0x1c-0x1f as blank, [int] and the ASCII regexes do not. *)

From S2P Require Import Prelude.
From stdpp Require Import options.

(** ** Characters *)

Definition code (c : ascii) : N := Ascii.N_of_ascii c.
Definition chr (n : N) : ascii := Ascii.ascii_of_N n.

Definition nl_c : ascii := chr 10.
Definition tab_c : ascii := chr 9.
Definition dq_c : ascii := chr 34.
Definition sq_c : ascii := chr 39.
Definition bs_c : ascii := chr 92.

(** One-character strings that Rocq's literals make awkward. *)
Definition nl : string := String nl_c EmptyString.
Definition tab : string := String tab_c EmptyString.
Definition dquote : string := String dq_c EmptyString.
Definition backslash : string := String bs_c EmptyString.

Definition c_eqb (c d : ascii) : bool := Ascii.eqb c d.

Definition in_range (lo hi : N) (c : ascii) : bool :=
  N.leb lo (code c) && N.leb (code c) hi.

Definition is_digit : ascii → bool := in_range 48 57.
Definition is_upper : ascii → bool := in_range 65 90.
Definition is_lower : ascii → bool := in_range 97 122.
Definition is_alnum (c : ascii) : bool := is_digit c || is_upper c || is_lower c.

(** C's [isspace], which is also [\s] of an ASCII regex. *)
Definition is_cspace (c : ascii) : bool := in_range 9 13 c || c_eqb c (chr 32).
(** [str.isspace] on one ASCII character. *)
Definition is_pyspace (c : ascii) : bool := is_cspace c || in_range 28 31 c.

Definition to_lower (c : ascii) : ascii :=
  if is_upper c then chr (code c + 32) else c.

(** ** [str] methods *)

Definition slen (s : string) : nat := String.length s.

Fixpoint sdrop (n : nat) (s : string) : string :=
  match n, s with
  | O, _ => s
  | S n, EmptyString => EmptyString
  | S n, String _ s => sdrop n s
  end.

Fixpoint stake (n : nat) (s : string) : string :=
  match n, s with
  | O, _ => EmptyString
  | S n, EmptyString => EmptyString
  | S n, String c s => String c (stake n s)
  end.

(** [s.startswith(p)] *)
Fixpoint startswith (p s : string) : bool :=
  match p, s with
  | EmptyString, _ => true
  | String a p, String b s => c_eqb a b && startswith p s
  | String _ _, EmptyString => false
  end.

Fixpoint srev_app (s acc : string) : string :=
  match s with
  | EmptyString => acc
  | String c s => srev_app s (String c acc)
  end.
Definition srev (s : string) : string := srev_app s EmptyString.

Definition endswith (p s : string) : bool := startswith (srev p) (srev s).

Fixpoint lstrip_by (p : ascii → bool) (s : string) : string :=
  match s with
  | EmptyString => EmptyString
  | String c r => if p c then lstrip_by p r else s
  end.
Definition rstrip_by (p : ascii → bool) (s : string) : string :=
  srev (lstrip_by p (srev s)).
Definition strip_by (p : ascii → bool) (s : string) : string := rstrip_by p (lstrip_by p s).

Definition lstrip : string → string := lstrip_by is_pyspace.
Definition rstrip : string → string := rstrip_by is_pyspace.
Definition strip : string → string := strip_by is_pyspace.

Fixpoint s_all (p : ascii → bool) (s : string) : bool :=
  match s with
  | EmptyString => true
  | String c s => p c && s_all p s
  end.

(** [s.isspace()]: false for the empty string. *)
Definition isspace (s : string) : bool :=
  match s with EmptyString => false | _ => s_all is_pyspace s end.

(** [s.isupper()]: a cased character, and no lower-case one. *)
Fixpoint s_any (p : ascii → bool) (s : string) : bool :=
  match s with
  | EmptyString => false
  | String c s => p c || s_any p s
  end.
Definition isupper (s : string) : bool := s_any is_upper s && negb (s_any is_lower s).

Fixpoint smap (f : ascii → string) (s : string) : string :=
  match s with
  | EmptyString => EmptyString
  | String c s => f c +:+ smap f s
  end.

Definition one (c : ascii) : string := String c EmptyString.

(** [s.replace(c, r)] for a single character [c]. *)
Definition replace_char (c : ascii) (r : string) (s : string) : string :=
  smap (λ d, if c_eqb d c then r else one d) s.

Definition lower (s : string) : string := smap (λ c, one (to_lower c)) s.

(** [c in s] for a single character. *)
Definition has_char (c : ascii) (s : string) : bool := s_any (c_eqb c) s.

(** Characters up to the first one that satisfies [p], and the rest. *)
Fixpoint span (p : ascii → bool) (s : string) : string * string :=
  match s with
  | EmptyString => (EmptyString, EmptyString)
  | String c r =>
      if p c then let '(a, b) := span p r in (String c a, b) else (EmptyString, s)
  end.

(** [sep.join(l)] *)
Fixpoint sjoin (sep : string) (l : list string) : string :=
  match l with
  | [] => EmptyString
  | [x] => x
  | x :: l => x +:+ sep +:+ sjoin sep l
  end.

(** The concatenation of a list of chunks, ["".join(l)]. *)
Fixpoint sconcat (l : list string) : string :=
  match l with
  | [] => EmptyString
  | x :: l => x +:+ sconcat l
  end.

(** Iterating over a text file: the lines, each with its newline kept. *)
Fixpoint file_lines_aux (cur : string) (s : string) : list string :=
  match s with
  | EmptyString => match cur with EmptyString => [] | _ => [srev cur] end
  | String c r =>
      if c_eqb c nl_c then srev (String c cur) :: file_lines_aux EmptyString r
      else file_lines_aux (String c cur) r
  end.
Definition file_lines (s : string) : list string := file_lines_aux EmptyString s.

(** ** String order: code points, lexicographically *)
Fixpoint str_ltb (a b : string) : bool :=
  match a, b with
  | EmptyString, EmptyString => false
  | EmptyString, String _ _ => true
  | String _ _, EmptyString => false
  | String x a, String y b =>
      if N.ltb (code x) (code y) then true
      else if N.ltb (code y) (code x) then false
      else str_ltb a b
  end.

(** *** Concatenation *)
Lemma app_cons c s t : String c s +:+ t = String c (s +:+ t).
Proof. done. Qed.
Lemma app_empty_l s : "" +:+ s = s.
Proof. done. Qed.
Lemma app_empty_r s : s +:+ "" = s.
Proof. induction s as [|c s IH]; [done|]. by rewrite app_cons, IH. Qed.
Lemma app_one c s : one c +:+ s = String c s.
Proof. done. Qed.
Lemma app_assoc_s s t u : (s +:+ t) +:+ u = s +:+ t +:+ u.
Proof. induction s as [|c s IH]; [done|]. by rewrite !app_cons, IH. Qed.

Create Rewrite HintDb str.
#[export] Hint Rewrite app_cons app_empty_l app_empty_r app_one app_assoc_s : str.

(** ** [int(s, base)], [str(n)] and [hex(n)] *)

Definition digit_value (c : ascii) : option Z :=
  if is_digit c then Some (Z.of_N (code c) - 48)%Z
  else if is_lower c then Some (Z.of_N (code c) - 87)%Z
  else if is_upper c then Some (Z.of_N (code c) - 55)%Z
  else None.

(** The digits of a literal: [prev] says that the last character was an
    underscore, which may neither be doubled nor end the digits. *)
Fixpoint scan_digits (base acc : Z) (cnt : nat) (prev : bool) (s : string)
    : option (Z * nat * string) :=
  let stop := if prev then None else Some (acc, cnt, s) in
  match s with
  | EmptyString => stop
  | String c r =>
      if c_eqb c "_" then
        if prev then None else scan_digits base acc cnt true r
      else
        match digit_value c with
        | Some d =>
            if (d <? base)%Z then scan_digits base (acc * base + d)%Z (S cnt) false r
            else stop
        | None => stop
        end
  end.

Definition char_is (p : string) (s : string) : bool :=
  match s with EmptyString => false | String c _ => has_char c p end.

(** The base and the text after an optional base prefix; the Boolean says that
    only zero may follow ([int("010", 0)] is an error). *)
Definition int_prefix (base : Z) (s : string) : Z * bool * string :=
  let after := sdrop 1 s in
  let zero := char_is "0" s in
  let pick :=
    if (base =? 0)%Z then
      if negb zero then (10%Z, false)
      else if char_is "xX" after then (16%Z, false)
      else if char_is "oO" after then (8%Z, false)
      else if char_is "bB" after then (2%Z, false)
      else (10%Z, true)
    else (base, false) in
  let '(b, only_zero) := pick in
  let has :=
    zero && ((b =? 16)%Z && char_is "xX" after
             || (b =? 8)%Z && char_is "oO" after
             || (b =? 2)%Z && char_is "bB" after) in
  if has then
    let r := sdrop 2 s in
    (b, only_zero, if char_is "_" r then sdrop 1 r else r)
  else (b, only_zero, s).

Definition py_int (base : Z) (s : string) : option Z :=
  let s := lstrip_by is_cspace s in
  let '(neg, s) :=
    match s with
    | String c r =>
        if c_eqb c "+" then (false, r) else if c_eqb c "-" then (true, r) else (false, s)
    | EmptyString => (false, s)
    end in
  let '(b, only_zero, s) := int_prefix base s in
  if char_is "_" s then None
  else match scan_digits b 0 0 false s with
       | None => None
       | Some (v, cnt, rest) =>
           if (Nat.eqb cnt 0) then None
           else if only_zero && negb (v =? 0)%Z then None
           else if s_all is_cspace rest then Some (if neg then (- v)%Z else v)
           else None
       end.

Definition digit_char (d : Z) : ascii :=
  if (d <? 10)%Z then chr (Z.to_N (d + 48)) else chr (Z.to_N (d + 87)).

Fixpoint digits (fuel : nat) (base n : Z) (acc : string) : string :=
  match fuel with
  | O => acc
  | S fuel =>
      let acc := String (digit_char (n mod base)) acc in
      if (n <? base)%Z then acc else digits fuel base (n / base) acc
  end.

Definition num_str (base n : Z) : string := digits (S (Z.to_nat (Z.log2 n))) base n "".

(** [str(n)] *)
Definition py_str (n : Z) : string :=
  if (n <? 0)%Z then "-" +:+ num_str 10 (- n) else num_str 10 n.
(** [hex(n)] *)
Definition py_hex (n : Z) : string :=
  if (n <? 0)%Z then "-0x" +:+ num_str 16 (- n) else "0x" +:+ num_str 16 n.

(** *** Round trips between integers and their text *)

Lemma digit_char_facts d :
  (0 ≤ d < 16)%Z →
  digit_value (digit_char d) = Some d ∧ c_eqb (digit_char d) "_" = false
  ∧ is_cspace (digit_char d) = false
  ∧ c_eqb (digit_char d) "+" = false ∧ c_eqb (digit_char d) "-" = false.
Proof.
  intros [Hlo Hhi].
  assert (d = 0 ∨ d = 1 ∨ d = 2 ∨ d = 3 ∨ d = 4 ∨ d = 5 ∨ d = 6 ∨ d = 7 ∨ d = 8
    ∨ d = 9 ∨ d = 10 ∨ d = 11 ∨ d = 12 ∨ d = 13 ∨ d = 14 ∨ d = 15)%Z as Hd by lia.
  repeat (destruct Hd as [->|Hd]; [done|]). by subst.
Qed.

Lemma scan_digits_char base acc cnt d r :
  (0 ≤ d < base)%Z → (base ≤ 16)%Z →
  scan_digits base acc cnt false (String (digit_char d) r)
  = scan_digits base (acc * base + d) (S cnt) false r.
Proof.
  intros Hd Hb. destruct (digit_char_facts d) as (Hv & Hu & _); [lia|].
  cbn [scan_digits]. rewrite Hu, Hv.
  assert ((d <? base)%Z = true) as -> by (apply Z.ltb_lt; lia). done.
Qed.

Lemma scan_digits_digits fuel base n r :
  (2 ≤ base ≤ 16)%Z → (0 ≤ n < base ^ Z.of_nat fuel)%Z → fuel ≠ 0 →
  ∃ k, k ≠ 0 ∧ ∀ acc cnt,
    scan_digits base acc cnt false (digits fuel base n r)
    = scan_digits base (acc * base ^ Z.of_nat k + n) (k + cnt) false r.
Proof.
  intros Hb. revert n r. induction fuel as [|fuel IH]; [done|].
  intros n r Hn _. cbn [digits].
  destruct (n <? base)%Z eqn:Hlt.
  - apply Z.ltb_lt in Hlt. exists 1. split; [done|]. intros acc cnt.
    rewrite Z.mod_small by lia. rewrite scan_digits_char by lia.
    f_equal. lia.
  - apply Z.ltb_ge in Hlt.
    rewrite Nat2Z.inj_succ, Z.pow_succ_r in Hn by lia.
    assert (fuel ≠ 0) as Hf.
    { intros ->. cbn in Hn. lia. }
    destruct (IH (n / base)%Z (String (digit_char (n mod base)) r)) as (k & Hk & Hscan);
      [|done|].
    { split; [apply Z.div_pos; lia|]. apply Z.div_lt_upper_bound; lia. }
    exists (S k). split; [done|]. intros acc cnt. rewrite Hscan.
    rewrite scan_digits_char; [|apply Z.mod_pos_bound; lia|lia].
    f_equal. rewrite Nat2Z.inj_succ, Z.pow_succ_r by lia.
    pose proof (Z.div_mod n base). lia.
Qed.

Lemma log2_fuel base n :
  (2 ≤ base)%Z → (0 ≤ n)%Z → (n < base ^ Z.of_nat (S (Z.to_nat (Z.log2 n))))%Z.
Proof.
  intros Hb Hn. pose proof (Z.log2_nonneg n).
  rewrite Nat2Z.inj_succ, Z2Nat.id by lia.
  apply Z.lt_le_trans with (2 ^ Z.succ (Z.log2 n))%Z.
  - destruct (decide (n = 0%Z)) as [->|]; [done|]. apply Z.log2_spec; lia.
  - apply Z.pow_le_mono_l; lia.
Qed.

Lemma digits_head fuel base n r :
  (2 ≤ base ≤ 16)%Z → (0 ≤ n)%Z → fuel ≠ 0 →
  ∃ d t, (0 ≤ d < base)%Z ∧ digits fuel base n r = String (digit_char d) t.
Proof.
  intros Hb. revert n r. induction fuel as [|fuel IH]; [done|].
  intros n r Hn _. cbn [digits]. destruct (n <? base)%Z eqn:Hlt.
  - exists (n mod base)%Z, r. split; [apply Z.mod_pos_bound; lia|done].
  - destruct fuel as [|fuel].
    + exists (n mod base)%Z, r. split; [apply Z.mod_pos_bound; lia|done].
    + apply IH; [|done]. apply Z.div_pos; lia.
Qed.

Lemma scan_num_str base n :
  (2 ≤ base ≤ 16)%Z → (0 ≤ n)%Z →
  ∃ k, k ≠ 0 ∧ scan_digits base 0 0 false (num_str base n) = Some (n, k, EmptyString).
Proof.
  intros Hb Hn. unfold num_str.
  destruct (scan_digits_digits (S (Z.to_nat (Z.log2 n))) base n "") as (k & Hk & Hs);
    [done|split; [done|apply log2_fuel; lia]|done|].
  exists k. split; [done|]. rewrite Hs. cbn [scan_digits]. by rewrite Nat.add_0_r.
Qed.

(** The part of [py_int] after the sign, on text [str] and [hex] print. *)
Definition int_body (base : Z) (neg : bool) (s : string) : option Z :=
  let '(b, only_zero, s) := int_prefix base s in
  if char_is "_" s then None
  else match scan_digits b 0 0 false s with
       | None => None
       | Some (v, cnt, rest) =>
           if (Nat.eqb cnt 0) then None
           else if only_zero && negb (v =? 0)%Z then None
           else if s_all is_cspace rest then Some (if neg then (- v)%Z else v)
           else None
       end.

Lemma int_prefix_dec s : int_prefix 10 s = (10%Z, false, s).
Proof. unfold int_prefix. cbn -[char_is]. by rewrite andb_false_r. Qed.

Lemma int_prefix_hex s :
  char_is "_" s = false → int_prefix 16 ("0x" +:+ s) = (16%Z, false, s).
Proof.
  intros Hs. unfold int_prefix.
  change (sdrop 2 ("0x" +:+ s)) with s.
  change (char_is "0" ("0x" +:+ s)) with true.
  change (char_is "xX" (sdrop 1 ("0x" +:+ s))) with true.
  cbn -[char_is]. by rewrite Hs.
Qed.

Lemma num_str_head base n :
  (2 ≤ base ≤ 16)%Z → (0 ≤ n)%Z →
  ∃ d t, (0 ≤ d < base)%Z ∧ num_str base n = String (digit_char d) t.
Proof. intros. by apply digits_head. Qed.

Lemma num_str_no_underscore base n :
  (2 ≤ base ≤ 16)%Z → (0 ≤ n)%Z → char_is "_" (num_str base n) = false.
Proof.
  intros Hb Hn. destruct (num_str_head base n Hb Hn) as (d & t & Hd & ->).
  cbn. rewrite orb_false_r. apply digit_char_facts. lia.
Qed.

Lemma int_body_num base neg s n :
  (2 ≤ base ≤ 16)%Z → (0 ≤ n)%Z →
  int_prefix base s = (base, false, num_str base n) →
  int_body base neg s = Some (if neg then (- n)%Z else n).
Proof.
  intros Hb Hn Hp. unfold int_body. rewrite Hp, num_str_no_underscore by done.
  destruct (scan_num_str base n Hb Hn) as (k & Hk & ->). by destruct k.
Qed.

Lemma py_int_body base s :
  (match s with
   | String c _ => is_cspace c = false ∧ c_eqb c "+" = false ∧ c_eqb c "-" = false
   | EmptyString => True end) →
  py_int base s = int_body base false s.
Proof.
  unfold py_int, int_body. destruct s as [|c s]; [done|].
  intros (H1 & H2 & H3). cbn [lstrip_by]. by rewrite H1, H2, H3.
Qed.

Lemma py_int_neg base s : py_int base ("-" +:+ s) = int_body base true s.
Proof. done. Qed.

(** [int(str(n), 10) == n] and [int(hex(n), 16) == n]. *)
Lemma py_int_str n : py_int 10 (py_str n) = Some n.
Proof.
  unfold py_str. destruct (Z.ltb_spec n 0).
  - rewrite py_int_neg, (int_body_num 10 true _ (- n)); [f_equal; lia|lia|lia|].
    apply int_prefix_dec.
  - rewrite py_int_body.
    + rewrite (int_body_num 10 false _ n); [done|lia|lia|]. apply int_prefix_dec.
    + destruct (num_str_head 10 n) as (d & t & Hd & ->); [lia|done|].
      destruct (digit_char_facts d) as (_ & _ & ? & ? & ?); [lia|]. done.
Qed.

Lemma py_int_hex n : py_int 16 (py_hex n) = Some n.
Proof.
  unfold py_hex. destruct (Z.ltb_spec n 0).
  - change ("-0x" +:+ num_str 16 (- n)) with ("-" +:+ ("0x" +:+ num_str 16 (- n))).
    rewrite py_int_neg, (int_body_num 16 true _ (- n)); [f_equal; lia|lia|lia|].
    apply int_prefix_hex, num_str_no_underscore; lia.
  - rewrite py_int_body by done.
    rewrite (int_body_num 16 false _ n); [done|lia|lia|].
    apply int_prefix_hex, num_str_no_underscore; lia.
Qed.

#[export] Hint Resolve py_int_str py_int_hex : kconf.
