(* ===== verification/PyText.v ===== *)
(** * Indexed strings, substring search, paths, environment references

    The rest of the language level: positions in strings, [str.find],
    [str.replace], [str.expandtabs], [str.splitlines], [os.path.join],
    [os.path.dirname], [os.path.expandvars] (POSIX), and tests of a character at
    a position. *)

From S2P Require Import Prelude PyStr.
From stdpp Require Import options.

(** [s[i:]], [s[:i]] and [s[i:j]] *)
Definition s_from (i : nat) (s : string) : string := sdrop i s.
Definition s_upto (i : nat) (s : string) : string := stake i s.
Definition s_slice (i j : nat) (s : string) : string := stake (j - i) (sdrop i s).
Definition s_at (i : nat) (s : string) : option ascii :=
  match sdrop i s with String c _ => Some c | EmptyString => None end.

(** [s.startswith(p, i)] *)
Definition startswith_at (p s : string) (i : nat) : bool := startswith p (sdrop i s).

(** The length of the longest prefix of characters in a class. *)
Fixpoint span_len (p : ascii → bool) (s : string) : nat :=
  match s with
  | EmptyString => 0
  | String c r => if p c then S (span_len p r) else 0
  end.

(** The first position at or after [i] where [test] holds of the rest. *)
Fixpoint find_from (test : string → bool) (i : nat) (s : string) : option nat :=
  if test s then Some i
  else match s with
       | EmptyString => None
       | String _ r => find_from test (S i) r
       end.
Definition find_at (test : string → bool) (s : string) (i : nat) : option nat :=
  find_from test i (sdrop i s).

(** [s.find(p, i)] for a non-empty [p] *)
Definition s_find (p s : string) (i : nat) : option nat := find_at (startswith p) s i.

(** [p in s] for a non-empty [p] *)
Definition contains (p s : string) : bool := bool_decide (is_Some (s_find p s 0)).

(** [s.replace(p, r)] for a non-empty [p]: [skip] characters of a match are
    still to be dropped. *)
Fixpoint replace_aux (p r : string) (skip : nat) (s : string) : string :=
  match s with
  | EmptyString => EmptyString
  | String c s' =>
      match skip with
      | S skip => replace_aux p r skip s'
      | O => if startswith p s then r +:+ replace_aux p r (slen p - 1) s'
             else String c (replace_aux p r 0 s')
      end
  end.
Definition s_replace (p r s : string) : string := replace_aux p r 0 s.

(** [s.expandtabs()]: tab stops every eight columns. *)
Fixpoint spaces (n : nat) : string :=
  match n with O => EmptyString | S n => String " " (spaces n) end.

Fixpoint expandtabs_aux (col : nat) (s : string) : string :=
  match s with
  | EmptyString => EmptyString
  | String c r =>
      if c_eqb c tab_c then
        let n := 8 - Nat.modulo col 8 in spaces n +:+ expandtabs_aux (col + n) r
      else if c_eqb c nl_c || c_eqb c (chr 13) then String c (expandtabs_aux 0 r)
      else String c (expandtabs_aux (S col) r)
  end.
Definition expandtabs (s : string) : string := expandtabs_aux 0 s.

(** Reading a file in text mode: every line end becomes a newline. *)
Definition cr_c : ascii := chr 13.
Fixpoint universal_newlines (s : string) : string :=
  match s with
  | EmptyString => EmptyString
  | String c r =>
      if c_eqb c cr_c then
        match r with
        | String d r' =>
            String nl_c (if c_eqb d nl_c then universal_newlines r' else universal_newlines r)
        | EmptyString => nl
        end
      else String c (universal_newlines r)
  end.

(** [s.splitlines()] on ASCII text: \n, \r, \r\n, \v, \f, 0x1c-0x1e end a line. *)
Definition is_linebreak (c : ascii) : bool := in_range 10 13 c || in_range 28 30 c.

Fixpoint splitlines_aux (cur : string) (s : string) : list string :=
  match s with
  | EmptyString => match cur with EmptyString => [] | _ => [srev cur] end
  | String c r =>
      if is_linebreak c then
        srev cur ::
          match r with
          | String d r' =>
              if c_eqb c (chr 13) && c_eqb d nl_c then splitlines_aux EmptyString r'
              else splitlines_aux EmptyString r
          | EmptyString => []
          end
      else splitlines_aux (String c cur) r
  end.
Definition splitlines (s : string) : list string := splitlines_aux EmptyString s.

(** [s.split(c)] for a one-character separator *)
Fixpoint split_on_aux (sep : ascii) (cur s : string) : list string :=
  match s with
  | EmptyString => [srev cur]
  | String c r =>
      if c_eqb c sep then srev cur :: split_on_aux sep EmptyString r
      else split_on_aux sep (String c cur) r
  end.
Definition split_on (sep : ascii) (s : string) : list string := split_on_aux sep EmptyString s.

(** [s.split()]: the words between white space *)
Fixpoint words_aux (cur s : string) : list string :=
  let flush := match cur with EmptyString => [] | _ => [srev cur] end in
  match s with
  | EmptyString => flush
  | String c r => if is_pyspace c then flush ++ words_aux EmptyString r else words_aux (String c cur) r
  end.
Definition words (s : string) : list string := words_aux EmptyString s.

(** [os.path.join(a, b)] *)
Definition path_join (a b : string) : string :=
  if startswith "/" b then b
  else if bool_decide (a = "") || endswith "/" a then a +:+ b
  else a +:+ "/" +:+ b.

(** [os.path.dirname(p)] *)
Definition dirname (p : string) : string :=
  let head := srev (lstrip_by (λ c, negb (c_eqb c "/")) (srev p)) in
  if s_all (λ c, c_eqb c "/") head then head else rstrip_by (λ c, c_eqb c "/") head.

(** [\w] of an ASCII regex *)
Definition is_word (c : ascii) : bool := is_alnum c || c_eqb c "_".

(** [os.path.expandvars(s)]: references to variables that are not set stay.
    [skip] characters of a reference are still to be dropped, [copy] to be kept. *)
Definition var_reference (s : string) : option (string * nat) :=
  match s with
  | String c r =>
      if c_eqb c "$" then
        match span_len is_word r with
        | S n => Some (stake (S n) r, S (S n))
        | O =>
            match r with
            | String d r' =>
                let n := span_len (λ c, negb (c_eqb c "}")) r' in
                if c_eqb d "{" && startswith "}" (sdrop n r') then Some (stake n r', n + 3)
                else None
            | EmptyString => None
            end
        end
      else None
  | EmptyString => None
  end.

Fixpoint expandvars_aux (env : string → option string) (skip copy : nat) (s : string) : string :=
  match s with
  | EmptyString => EmptyString
  | String c r =>
      match skip, copy with
      | S skip, _ => expandvars_aux env skip 0 r
      | O, S copy => String c (expandvars_aux env 0 copy r)
      | O, O =>
          match var_reference s with
          | Some (name, len) =>
              match env name with
              | Some v => v +:+ expandvars_aux env (len - 1) 0 r
              | None => String c (expandvars_aux env 0 (len - 1) r)
              end
          | None => String c (expandvars_aux env 0 0 r)
          end
      end
  end.
Definition expandvars (env : string → option string) (s : string) : string :=
  expandvars_aux env 0 0 s.

(** [sorted(l)] *)
Fixpoint insert_sorted (x : string) (l : list string) : list string :=
  match l with
  | [] => [x]
  | y :: l' => if str_ltb y x then y :: insert_sorted x l' else x :: l
  end.
Definition py_sorted (l : list string) : list string := foldr insert_sorted [] l.

(** *** Positions *)
Lemma slen_cons c s : slen (String c s) = S (slen s).
Proof. done. Qed.

Lemma slen_app s t : slen (s +:+ t) = slen s + slen t.
Proof. induction s as [|c s IH]; [done|]. by rewrite app_cons, !slen_cons, IH. Qed.

Lemma sdrop_app s t : sdrop (slen s) (s +:+ t) = t.
Proof. induction s as [|c s IH]; [done|]. by rewrite app_cons, slen_cons. Qed.

Lemma stake_app s t : stake (slen s) (s +:+ t) = s.
Proof.
  induction s as [|c s IH]; [by destruct t|]. rewrite app_cons, slen_cons. cbn. by rewrite IH.
Qed.

Lemma sdrop_length n s : slen (sdrop n s) = slen s - n.
Proof. revert s. induction n as [|n IH]; intros [|c s]; cbn; try done; apply IH. Qed.

Lemma stake_drop n s : stake n s +:+ sdrop n s = s.
Proof. revert s. induction n as [|n IH]; intros [|c s]; cbn; try done; by rewrite app_cons, IH. Qed.

Lemma sdrop_sdrop n m s : sdrop n (sdrop m s) = sdrop (m + n) s.
Proof. revert s. induction m as [|m IH]; intros [|c s]; cbn; try done; apply IH || by destruct n. Qed.

Lemma find_from_spec test i s j :
  find_from test i s = Some j ↔
  i ≤ j ∧ j ≤ i + slen s ∧ test (sdrop (j - i) s) = true ∧ ∀ k, i ≤ k < j → test (sdrop (k - i) s) = false.
Proof.
  revert i. induction s as [|c s IH]; intros i; cbn [find_from].
  - destruct (test "") eqn:Ht.
    + split; [intros [= ->]|intros (? & ? & _)].
      * replace (j - j) with 0 by lia. split_and!; [lia|cbn; lia|done|lia].
      * f_equal. cbn in *. lia.
    + split; [done|]. intros (? & ? & Hj & _). cbn in *. replace (j - i) with 0 in Hj by lia.
      cbn in Hj. congruence.
  - destruct (test (String c s)) eqn:Ht.
    + split; [intros [= ->]|intros (? & ? & _ & Hk)].
      * replace (j - j) with 0 by lia. split_and!; [lia|cbn; lia|done|lia].
      * f_equal. destruct (decide (i = j)) as [|Hne]; [done|].
        specialize (Hk i). replace (i - i) with 0 in Hk by lia.
        change (sdrop 0 (String c s)) with (String c s) in Hk. rewrite Hk in Ht; [done|lia].
    + rewrite IH. split.
      * intros (? & ? & Hj & Hk). replace (j - i) with (S (j - S i)) by lia.
        split_and!; [lia|cbn; unfold slen in *; lia|done|]. intros k Hki.
        destruct (decide (k = i)) as [->|]; [by replace (i - i) with 0 by lia|].
        replace (k - i) with (S (k - S i)) by lia. apply Hk. lia.
      * intros (? & ? & Hj & Hk). destruct (decide (j = i)) as [->|].
        { replace (i - i) with 0 in Hj by lia. cbn in Hj. congruence. }
        split_and!; [lia|cbn in *; unfold slen in *; lia| |].
        -- replace (j - i) with (S (j - S i)) in Hj by lia. done.
        -- intros k Hki. specialize (Hk k). replace (k - i) with (S (k - S i)) in Hk by lia.
           apply Hk. lia.
Qed.

#[export] Hint Rewrite slen_app sdrop_app stake_app : str.
