(* ===== verification/Kconst.v ===== *)
(** * The constants of kconfiglib: tristate values, tokens, keywords, types

    The tables of the last part of src/scripts/kconfig/kconfiglib.py.  The token
    and type constants are Python integers there, with the types, node kinds and
    relations sharing the values of their tokens; here each is a constructor and
    the shared values are the conversion functions [type_of_token] and
    [rel_of_token]. *)

From S2P Require Import Prelude PyStr.
From stdpp Require Import options.

(** ** Tristate values: the integers 0, 1, 2 *)

(** [TRI_TO_STR[v]]: a [KeyError] outside 0..2. *)
Definition TRI_TO_STR (v : Z) : option string :=
  if (v =? 0)%Z then Some "n" else if (v =? 1)%Z then Some "m"
  else if (v =? 2)%Z then Some "y" else None.

(** [STR_TO_TRI.get(s)] *)
Definition STR_TO_TRI (s : string) : option Z :=
  if decide (s = "n") then Some 0%Z else if decide (s = "m") then Some 1%Z
  else if decide (s = "y") then Some 2%Z else None.

(** [TRI_TO_STR] on a value already known to be a tristate. *)
Definition tri_str (v : Z) : string :=
  match TRI_TO_STR v with Some s => s | None => "" end.

Definition is_tri (v : Z) : Prop := (0 ≤ v ≤ 2)%Z.

Lemma TRI_TO_STR_TO_TRI v s : TRI_TO_STR v = Some s → STR_TO_TRI s = Some v.
Proof.
  unfold TRI_TO_STR. intros H. repeat (case_match; simplify_eq);
    match goal with E : (v =? _)%Z = true |- _ => apply Z.eqb_eq in E; by subst end.
Qed.

Lemma STR_TO_TRI_is_tri s v : STR_TO_TRI s = Some v → is_tri v ∧ tri_str v = s.
Proof. unfold STR_TO_TRI, is_tri. intros. repeat (case_decide; simplify_eq); split; lia || done. Qed.

Lemma is_tri_cases v : is_tri v ↔ v = 0%Z ∨ v = 1%Z ∨ v = 2%Z.
Proof. unfold is_tri. lia. Qed.

(** ** Tokens *)
Inductive kw : Type :=
  | T_ALLNOCONFIG_Y | T_AND | T_BOOL | T_CHOICE | T_CLOSE_PAREN | T_COMMENT
  | T_CONFIG | T_CONFIGDEFAULT | T_DEFAULT | T_DEFCONFIG_LIST | T_DEF_BOOL
  | T_DEF_HEX | T_DEF_INT | T_DEF_STRING | T_DEF_TRISTATE | T_DEPENDS
  | T_ENDCHOICE | T_ENDIF | T_ENDMENU | T_ENV | T_EQUAL | T_GREATER
  | T_GREATER_EQUAL | T_HELP | T_HEX | T_IF | T_IMPLY | T_INT | T_LESS
  | T_LESS_EQUAL | T_MAINMENU | T_MENU | T_MENUCONFIG | T_MODULES | T_NOT | T_ON
  | T_OPEN_PAREN | T_OPTION | T_OPTIONAL | T_OR | T_ORSOURCE | T_OSOURCE
  | T_PROMPT | T_RANGE | T_RSOURCE | T_SELECT | T_SOURCE | T_STRING | T_TRISTATE
  | T_UNEQUAL | T_VISIBLE.

#[global] Instance kw_eq_dec : EqDecision kw.
Proof. solve_decision. Defined.

(** The keyword table, [_get_keyword]. *)
Definition keyword_table : list (string * kw) :=
  [("---help---", T_HELP); ("allnoconfig_y", T_ALLNOCONFIG_Y); ("bool", T_BOOL);
   ("boolean", T_BOOL); ("choice", T_CHOICE); ("comment", T_COMMENT);
   ("config", T_CONFIG); ("configdefault", T_CONFIGDEFAULT);
   ("def_bool", T_DEF_BOOL); ("def_hex", T_DEF_HEX); ("def_int", T_DEF_INT);
   ("def_string", T_DEF_STRING); ("def_tristate", T_DEF_TRISTATE);
   ("default", T_DEFAULT); ("defconfig_list", T_DEFCONFIG_LIST);
   ("depends", T_DEPENDS); ("endchoice", T_ENDCHOICE); ("endif", T_ENDIF);
   ("endmenu", T_ENDMENU); ("env", T_ENV); ("grsource", T_ORSOURCE);
   ("gsource", T_OSOURCE); ("help", T_HELP); ("hex", T_HEX); ("if", T_IF);
   ("imply", T_IMPLY); ("int", T_INT); ("mainmenu", T_MAINMENU); ("menu", T_MENU);
   ("menuconfig", T_MENUCONFIG); ("modules", T_MODULES); ("on", T_ON);
   ("option", T_OPTION); ("optional", T_OPTIONAL); ("orsource", T_ORSOURCE);
   ("osource", T_OSOURCE); ("prompt", T_PROMPT); ("range", T_RANGE);
   ("rsource", T_RSOURCE); ("select", T_SELECT); ("source", T_SOURCE);
   ("string", T_STRING); ("tristate", T_TRISTATE); ("visible", T_VISIBLE)].

Definition get_keyword (s : string) : option kw := dict_get s keyword_table.

(** ** Symbol and choice types *)
Inductive ktype : Type := UNKNOWN | BOOL | TRISTATE | STRING | INT | HEX.

#[global] Instance ktype_eq_dec : EqDecision ktype.
Proof. solve_decision. Defined.

Definition type_of_token (t : kw) : option ktype :=
  match t with
  | T_BOOL => Some BOOL | T_TRISTATE => Some TRISTATE | T_STRING => Some STRING
  | T_INT => Some INT | T_HEX => Some HEX | _ => None
  end.

Definition TYPE_TO_STR (t : ktype) : string :=
  match t with
  | UNKNOWN => "unknown" | BOOL => "bool" | TRISTATE => "tristate"
  | STRING => "string" | INT => "int" | HEX => "hex"
  end.

(** [_TYPE_TO_BASE], which has no entry for [BOOL] and [TRISTATE]. *)
Definition TYPE_TO_BASE (t : ktype) : option Z :=
  match t with
  | HEX => Some 16%Z | INT => Some 10%Z | STRING => Some 0%Z | UNKNOWN => Some 0%Z
  | BOOL | TRISTATE => None
  end.

Definition DEF_TOKEN_TO_TYPE (t : kw) : option ktype :=
  match t with
  | T_DEF_BOOL => Some BOOL | T_DEF_HEX => Some HEX | T_DEF_INT => Some INT
  | T_DEF_STRING => Some STRING | T_DEF_TRISTATE => Some TRISTATE | _ => None
  end.

Definition BOOL_TRISTATE (t : ktype) : bool :=
  match t with BOOL | TRISTATE => true | _ => false end.
Definition BOOL_TRISTATE_UNKNOWN (t : ktype) : bool :=
  match t with BOOL | TRISTATE | UNKNOWN => true | _ => false end.
Definition INT_HEX (t : ktype) : bool :=
  match t with INT | HEX => true | _ => false end.

(** ** Relations *)
Inductive rel : Type := EQUAL | UNEQUAL | LESS | LESS_EQUAL | GREATER | GREATER_EQUAL.

#[global] Instance rel_eq_dec : EqDecision rel.
Proof. solve_decision. Defined.

Definition rel_of_token (t : kw) : option rel :=
  match t with
  | T_EQUAL => Some EQUAL | T_UNEQUAL => Some UNEQUAL | T_LESS => Some LESS
  | T_LESS_EQUAL => Some LESS_EQUAL | T_GREATER => Some GREATER
  | T_GREATER_EQUAL => Some GREATER_EQUAL | _ => None
  end.

Definition token_of_rel (r : rel) : kw :=
  match r with
  | EQUAL => T_EQUAL | UNEQUAL => T_UNEQUAL | LESS => T_LESS
  | LESS_EQUAL => T_LESS_EQUAL | GREATER => T_GREATER | GREATER_EQUAL => T_GREATER_EQUAL
  end.

Definition REL_TO_STR (r : rel) : string :=
  match r with
  | EQUAL => "=" | UNEQUAL => "!=" | LESS => "<" | LESS_EQUAL => "<="
  | GREATER => ">" | GREATER_EQUAL => ">="
  end.

Lemma rel_of_token_of_rel r : rel_of_token (token_of_rel r) = Some r.
Proof. by destruct r. Qed.

(** ** Sets of tokens *)

(** Tokens after which strings are expected ([_STRING_LEX]). *)
Definition STRING_LEX (t : kw) : bool :=
  match t with
  | T_BOOL | T_CHOICE | T_COMMENT | T_HEX | T_INT | T_MAINMENU | T_MENU
  | T_ORSOURCE | T_OSOURCE | T_PROMPT | T_RSOURCE | T_SOURCE | T_STRING
  | T_TRISTATE => true
  | _ => false
  end.

Definition SOURCE_TOKENS (t : kw) : bool :=
  match t with T_SOURCE | T_RSOURCE | T_OSOURCE | T_ORSOURCE => true | _ => false end.
Definition REL_SOURCE_TOKENS (t : kw) : bool :=
  match t with T_RSOURCE | T_ORSOURCE => true | _ => false end.
Definition OBL_SOURCE_TOKENS (t : kw) : bool :=
  match t with T_SOURCE | T_RSOURCE => true | _ => false end.
