(* ===== verification/Expr.v ===== *)
(** * Expressions: construction, printing, splitting, dependency tests

    Expressions of kconfiglib.py are symbols, choices or tuples [(op, e1, e2)].
    Objects are referred to by identity: [ISym s] is the Symbol object number
    [s], [ICho c] the Choice object number [c].  Tuples are compared by identity
    in one place of the program only ([MenuNode._strip_dep]); structural equality
    is used for it here. *)

From S2P Require Import Prelude PyStr Kconst.
From stdpp Require Import options.

(** A reference to a Symbol or Choice object. *)
Inductive item : Type :=
  | ISym (s : nat)
  | ICho (c : nat).

#[global] Instance item_eq_dec : EqDecision item.
Proof. solve_decision. Defined.

#[global] Instance item_countable : Countable item.
Proof.
  refine (inj_countable'
    (λ i, match i with ISym s => inl s | ICho c => inr c end)
    (λ x, match x with inl s => ISym s | inr c => ICho c end) _).
  by intros [].
Defined.

(** Operands of relations are always symbols. *)
Inductive expr : Type :=
  | EItem (i : item)
  | EAnd (e1 e2 : expr)
  | EOr (e1 e2 : expr)
  | ENot (e : expr)
  | ERel (r : rel) (s1 s2 : nat).

#[global] Instance expr_eq_dec : EqDecision expr.
Proof. solve_decision. Defined.

Abbreviation ESym s := (EItem (ISym s)).

(** [AND]/[OR] as arguments of [split_expr]. *)
Inductive bop : Type := OpAnd | OpOr.

(** [expr_items] *)
Fixpoint expr_items (e : expr) : gset item :=
  match e with
  | EItem i => {[i]}
  | EAnd e1 e2 | EOr e1 e2 => expr_items e1 ∪ expr_items e2
  | ENot e => expr_items e
  | ERel _ s1 s2 => {[ISym s1]} ∪ {[ISym s2]}
  end.

(** [split_expr] *)
Fixpoint split_expr (e : expr) (op : bop) : list expr :=
  match e, op with
  | EAnd e1 e2, OpAnd => split_expr e1 op ++ split_expr e2 op
  | EOr e1 e2, OpOr => split_expr e1 op ++ split_expr e2 op
  | _, _ => [e]
  end.

Definition is_op (e : expr) (op : bop) : bool :=
  match e, op with EAnd _ _, OpAnd => true | EOr _ _, OpOr => true | _, _ => false end.

(** ** Construction, relative to the constant symbols n, m and y *)
Section Constants.
Variables sym_n sym_m sym_y : nat.

Definition is_sym (s : nat) (e : expr) : bool := bool_decide (e = ESym s).

(** [Kconfig._make_and] *)
Definition make_and (e1 e2 : expr) : expr :=
  if is_sym sym_y e1 then e2
  else if is_sym sym_y e2 then e1
  else if is_sym sym_n e1 || is_sym sym_n e2 then ESym sym_n
  else EAnd e1 e2.

(** [Kconfig._make_or] *)
Definition make_or (e1 e2 : expr) : expr :=
  if is_sym sym_n e1 then e2
  else if is_sym sym_n e2 then e1
  else if is_sym sym_y e1 || is_sym sym_y e2 then ESym sym_y
  else EOr e1 e2.

(** [MenuNode._strip_dep] for a node with dependencies [dep]. *)
Definition strip_dep (dep e : expr) : expr :=
  if decide (dep = e) then ESym sym_y
  else match e with
       | EAnd e1 e2 => if decide (e2 = dep) then e1 else e
       | _ => e
       end.

(** [_expr_depends_on], with Python's grouping of [and] and [or]. *)
Fixpoint expr_depends_on (e : expr) (sym : nat) : bool :=
  match e with
  | EItem i => bool_decide (i = ISym sym)
  | ERel r s1 s2 =>
      let test (right : nat) :=
        (bool_decide (r = EQUAL) && Nat.eqb right sym_m || Nat.eqb right sym_y)
        || (bool_decide (r = UNEQUAL) && Nat.eqb right sym_n) in
      match r with
      | EQUAL | UNEQUAL =>
          if Nat.eqb s2 sym then test s1
          else if Nat.eqb s1 sym then test s2
          else false
      | _ => false
      end
  | EAnd e1 e2 => expr_depends_on e1 sym || expr_depends_on e2 sym
  | _ => false
  end.
End Constants.

(** ** Printing *)
Section Printing.
(** [sc_expr_str_fn]: how a symbol or choice is shown. *)
Variable sc_expr_str_fn : item → string.

Fixpoint expr_str (e : expr) : string :=
  let parenthesize (e : expr) (op : bop) :=
    if is_op e op then "(" +:+ expr_str e +:+ ")" else expr_str e in
  match e with
  | EItem i => sc_expr_str_fn i
  | EAnd e1 e2 => parenthesize e1 OpOr +:+ " && " +:+ parenthesize e2 OpOr
  | EOr e1 e2 => parenthesize e1 OpAnd +:+ " || " +:+ parenthesize e2 OpAnd
  | ENot (EItem i) => "!" +:+ sc_expr_str_fn i
  | ENot e => "!(" +:+ expr_str e +:+ ")"
  | ERel r s1 s2 =>
      sc_expr_str_fn (ISym s1) +:+ " " +:+ REL_TO_STR r +:+ " " +:+ sc_expr_str_fn (ISym s2)
  end.
End Printing.

(** ** Meaning: the value rules of the module documentation

    [value τ ρ e] is the tristate value of [e] when [τ] gives the tristate value
    of every symbol and choice and [ρ] decides every relation. *)
Section Meaning.
Variables (τ : item → Z) (ρ : rel → nat → nat → bool).

Fixpoint value (e : expr) : Z :=
  match e with
  | EItem i => τ i
  | EAnd e1 e2 => Z.min (value e1) (value e2)
  | EOr e1 e2 => Z.max (value e1) (value e2)
  | ENot e => 2 - value e
  | ERel r s1 s2 => if ρ r s1 s2 then 2 else 0
  end%Z.

Hypothesis τ_tri : ∀ i, is_tri (τ i).

Lemma value_tri e : is_tri (value e).
Proof using τ_tri.
  unfold is_tri in *. induction e; cbn; [apply τ_tri|lia..|].
  case_match; lia.
Qed.

Variables sym_n sym_y : nat.
Hypothesis τ_n : τ (ISym sym_n) = 0%Z.
Hypothesis τ_y : τ (ISym sym_y) = 2%Z.

Lemma is_sym_value s e : is_sym s e = true → value e = τ (ISym s).
Proof using Type. unfold is_sym. rewrite bool_decide_eq_true. by intros ->. Qed.

Ltac solve_make :=
  repeat match goal with
  | H : is_sym _ _ = true |- _ => apply is_sym_value in H
  | H : _ || _ = true |- _ => apply orb_true_iff in H; destruct H
  end.

(** [_make_and] and [_make_or] simplify without changing the value. *)
Lemma make_and_value e1 e2 :
  value (make_and sym_n sym_y e1 e2) = Z.min (value e1) (value e2).
Proof using τ_tri τ_n τ_y.
  pose proof (value_tri e1). pose proof (value_tri e2). unfold is_tri in *.
  unfold make_and.
  destruct (is_sym sym_y e1) eqn:?; [solve_make; lia|].
  destruct (is_sym sym_y e2) eqn:?; [solve_make; lia|].
  destruct (is_sym sym_n e1 || is_sym sym_n e2) eqn:?; [|done].
  solve_make; cbn; lia.
Qed.

Lemma make_or_value e1 e2 :
  value (make_or sym_n sym_y e1 e2) = Z.max (value e1) (value e2).
Proof using τ_tri τ_n τ_y.
  pose proof (value_tri e1). pose proof (value_tri e2). unfold is_tri in *.
  unfold make_or.
  destruct (is_sym sym_n e1) eqn:?; [solve_make; lia|].
  destruct (is_sym sym_n e2) eqn:?; [solve_make; lia|].
  destruct (is_sym sym_y e1 || is_sym sym_y e2) eqn:?; [|done].
  solve_make; cbn; lia.
Qed.

(** Splitting an expression keeps its value: the value is the minimum (for
    [AND]) or maximum (for [OR]) of the operands. *)
Definition fold_values (op : bop) (l : list expr) : Z :=
  match op with
  | OpAnd => foldr (λ e v, Z.min (value e) v) 2%Z l
  | OpOr => foldr (λ e v, Z.max (value e) v) 0%Z l
  end.

Lemma fold_values_app op l1 l2 :
  fold_values op (l1 ++ l2)
  = match op with
    | OpAnd => Z.min (fold_values op l1) (fold_values op l2)
    | OpOr => Z.max (fold_values op l1) (fold_values op l2)
    end.
Proof using τ_tri.
  assert (∀ op l, is_tri (fold_values op l)) as Hb.
  { unfold is_tri. intros op' l.
    induction l as [|e l IH]; [by destruct op'|].
    pose proof (value_tri e). unfold is_tri in *. destruct op'; cbn in *; lia. }
  unfold is_tri in Hb. pose proof (Hb op l2).
  induction l1 as [|e l1 IH]; destruct op; cbn in *; lia.
Qed.

Lemma split_expr_value e op : fold_values op (split_expr e op) = value e.
Proof using τ_tri.
  assert (∀ e op, fold_values op [e] = value e) as H1.
  { intros e' op'. pose proof (value_tri e') as Hv. unfold is_tri in Hv.
    destruct op'; cbn; lia. }
  induction e as [i|e1 IH1 e2 IH2|e1 IH1 e2 IH2|e IH|r s1 s2]; destruct op;
    cbn [split_expr]; try apply H1;
    rewrite fold_values_app; cbn in *; by rewrite IH1, IH2.
Qed.

Lemma strip_dep_value dep e :
  Z.min (value (strip_dep sym_y dep e)) (value dep) = Z.min (value e) (value dep).
Proof using τ_tri τ_y.
  pose proof (value_tri dep). unfold is_tri in *. unfold strip_dep.
  case_decide; [subst; cbn; lia|].
  destruct e; try done. case_decide; [subst; cbn; lia|done].
Qed.
End Meaning.

(** No part of a split is itself an [op] node, and the parts in order are the
    leaves of the [op] tree. *)
Lemma split_expr_leaves e op : Forall (λ e', is_op e' op = false) (split_expr e op).
Proof.
  induction e; destruct op; cbn; try (by repeat constructor); by apply Forall_app.
Qed.

Lemma split_expr_nonempty e op : split_expr e op ≠ [].
Proof.
  induction e; destruct op; cbn; try done; intros [??]%app_nil; done.
Qed.

(** The items of an expression are those of its parts. *)
Lemma split_expr_items e op :
  expr_items e = ⋃ (expr_items <$> split_expr e op).
Proof.
  assert (∀ e' : expr, expr_items e' = ⋃ (expr_items <$> [e'])) as H1.
  { intros e'. cbn. set_solver. }
  induction e; destruct op; cbn [split_expr]; try apply H1;
    rewrite fmap_app, union_list_app_L; cbn; congruence.
Qed.

Lemma make_and_items n y e1 e2 :
  expr_items (make_and n y e1 e2) ⊆ {[ISym n]} ∪ expr_items e1 ∪ expr_items e2.
Proof. unfold make_and. repeat case_match; cbn; set_solver. Qed.

Lemma make_or_items n y e1 e2 :
  expr_items (make_or n y e1 e2) ⊆ {[ISym y]} ∪ expr_items e1 ∪ expr_items e2.
Proof. unfold make_or. repeat case_match; cbn; set_solver. Qed.
