(* ===== verification/Escape.v ===== *)
(** * String literals of .config files: escape, unescape, the literal's regex

    [escape] and [unescape] of kconfiglib.py and the regular expression
    [_conf_string_match] with which .config readers take a literal apart. *)

From S2P Require Import Prelude PyStr.
From stdpp Require Import options.

(** [s.replace('\\', '\\\\').replace('"', '\\"')] *)
Definition escape (s : string) : string :=
  replace_char dq_c (String bs_c (one dq_c)) (replace_char bs_c (String bs_c (one bs_c)) s).

(** A backslash followed by any character but a newline becomes that character. *)
Fixpoint unescape (s : string) : string :=
  match s with
  | EmptyString => EmptyString
  | String c r =>
      if c_eqb c bs_c then
        match r with
        | String d r' =>
            if c_eqb d nl_c then String c (unescape r) else String d (unescape r')
        | EmptyString => String c EmptyString
        end
      else String c (unescape r)
  end.

(** The contents of a literal up to its closing quote, and the text after it. *)
Fixpoint literal_body (s : string) : option (string * string) :=
  match s with
  | EmptyString => None
  | String c r =>
      if c_eqb c dq_c then Some (EmptyString, r)
      else if c_eqb c bs_c then
        match r with
        | String d r' =>
            if c_eqb d nl_c then None
            else '(b, t) ← literal_body r'; Some (String c (String d b), t)
        | EmptyString => None
        end
      else '(b, t) ← literal_body r; Some (String c b, t)
  end.

(** [_conf_string_match(s)]: group 1 of the match, at the start of [s]. *)
Definition conf_string_match (s : string) : option string :=
  match s with
  | String c r => if c_eqb c dq_c then fst <$> literal_body r else None
  | EmptyString => None
  end.

(** ** Round trips *)

Lemma c_eqb_eq c d : c_eqb c d = true ↔ c = d.
Proof. apply Ascii.eqb_eq. Qed.

Lemma c_eqb_refl c : c_eqb c c = true.
Proof. by apply c_eqb_eq. Qed.

Lemma escape_cons c s :
  escape (String c s)
  = (if c_eqb c bs_c then String bs_c (one bs_c)
     else if c_eqb c dq_c then String bs_c (one dq_c) else one c) +:+ escape s.
Proof.
  unfold escape, replace_char. cbn [smap].
  destruct (c_eqb c bs_c) eqn:Hb; [by apply c_eqb_eq in Hb as ->|].
  change (one c +:+ ?t) with (String c t). cbn [smap].
  by destruct (c_eqb c dq_c).
Qed.

Lemma unescape_escape s : unescape (escape s) = s.
Proof.
  induction s as [|c s IH]; [done|]. rewrite escape_cons.
  destruct (c_eqb c bs_c) eqn:Hb.
  { apply c_eqb_eq in Hb as ->. autorewrite with str. cbn. by rewrite IH. }
  destruct (c_eqb c dq_c) eqn:Hq.
  { apply c_eqb_eq in Hq as ->. autorewrite with str. cbn. by rewrite IH. }
  autorewrite with str. cbn -[c_eqb bs_c dq_c nl_c]. by rewrite Hb, IH.
Qed.

Lemma literal_body_escape s t :
  literal_body (escape s +:+ String dq_c t) = Some (escape s, t).
Proof.
  induction s as [|c s IH]; [done|]. rewrite escape_cons.
  destruct (c_eqb c bs_c) eqn:Hb.
  { autorewrite with str. cbn -[dq_c]. by rewrite IH. }
  destruct (c_eqb c dq_c) eqn:Hq.
  { autorewrite with str. cbn -[dq_c]. by rewrite IH. }
  autorewrite with str. cbn -[c_eqb bs_c dq_c nl_c]. by rewrite Hq, Hb, IH.
Qed.

Lemma conf_string_match_escape s t :
  conf_string_match (dquote +:+ escape s +:+ dquote +:+ t) = Some (escape s).
Proof. autorewrite with str. unfold dquote. autorewrite with str. cbn -[dq_c]. by rewrite literal_body_escape. Qed.

(** Escaping loses nothing, so distinct strings get distinct literals. *)
Lemma escape_inj s s' : escape s = escape s' → s = s'.
Proof. intros H. by rewrite <- (unescape_escape s), H, unescape_escape. Qed.

#[export] Hint Rewrite unescape_escape conf_string_match_escape : str.
