(* ===== verification/Incr.v ===== *)
(** * Memoised evaluation with invalidation

    Symbol and choice properties of kconfiglib ([tri_value], [visibility], ...)
    are computed on demand from each other, cached in [_cached_*] attributes, and
    forgotten when a user value changes.  This file is the theory of that
    scheme, independent of what the properties are: a query is the evaluation of
    one attribute of one object, its code is a [prog] whose only access to other
    queries is [Get], and

    - [eval] is the evaluation with the cache, [pure] the one without;
    - [coherent] is the invariant of the cache;
    - [rec_invalidate] is the recursive invalidation along [_dependents].

    The instance for kconfiglib is in Values.v and Session.v.  Code also emits
    warnings, whose log ([Kconfig._warn]) comes first. *)


From S2P Require Import Prelude PyStr.
From stdpp Require Import options.

(** ** Warnings *)

(** The warning settings of a Kconfig object, its [warnings] list, and what has
    been written to stderr. *)
Record wlog : Type := WLog {
  warn : bool;
  warn_to_stderr : bool;
  warnings : list string;
  stderr : list string
}.

(** [Kconfig._warn(msg, filename, linenr)] *)
Definition log_warn (msg : string) (loc : option (string * Z)) (l : wlog) : wlog :=
  if warn l then
    let msg := "warning: " +:+ msg in
    let msg := match loc with
               | Some (filename, linenr) => filename +:+ ":" +:+ py_str linenr +:+ ": " +:+ msg
               | None => msg
               end in
    WLog (warn l) (warn_to_stderr l) (warnings l ++ [msg])
      (if warn_to_stderr l then stderr l ++ [msg +:+ nl] else stderr l)
  else l.

(** Warnings are only ever added. *)
Lemma log_warn_prefix msg loc l : warnings l `prefix_of` warnings (log_warn msg loc l).
Proof. unfold log_warn. case_match; [apply prefix_app_r; reflexivity|reflexivity]. Qed.

Lemma log_warn_off msg loc l : warn l = false → log_warn msg loc l = l.
Proof. unfold log_warn. by intros ->. Qed.

(** ** Code of a property *)

(** [Get] reads another property; [SetW] assigns [_write_to_conf] of an object;
    [Warn] computes the text of a warning (which may evaluate properties) and
    emits it; [Fail] raises. *)
Inductive prog (It Q V : Type) (A : Type) : Type :=
  | Ret (a : A)
  | Get (q : Q) (k : V → prog It Q V A)
  | SetW (i : It) (b : bool) (k : prog It Q V A)
  | Warn (msg : prog It Q V string) (k : prog It Q V A)
  | Fail (e : exn).
Arguments Ret {It Q V A} _.
Arguments Get {It Q V A} _ _.
Arguments SetW {It Q V A} _ _ _.
Arguments Warn {It Q V A} _ _.
Arguments Fail {It Q V A} _.

Fixpoint prog_bind {It Q V : Type} {A B : Type} (p : prog It Q V A) (f : A → prog It Q V B)
    : prog It Q V B :=
  match p with
  | Ret a => f a
  | Get q k => Get q (λ v, prog_bind (k v) f)
  | SetW i b k => SetW i b (prog_bind k f)
  | Warn m k => Warn m (prog_bind k f)
  | Fail e => Fail e
  end.

Notation "x <- p ;; k" := (prog_bind p (fun x => k))
  (at level 100, p at next level, right associativity) : kc_scope.
Notation "p ;;; k" := (prog_bind p (fun _ => k))
  (at level 100, right associativity) : kc_scope.

Section Programs.
Context {It Q V : Type} {eq_It : EqDecision It} {cnt_It : Countable It}
  {eq_Q : EqDecision Q} {cnt_Q : Countable Q}.
Implicit Types (q : Q) (v : V) (i : It).
Abbreviation pr := (prog It Q V).

Record istate : Type := IState {
  cache : gmap Q V;
  wtc : gmap It bool;
  log : wlog
}.
Definition set_cache (f : gmap Q V → gmap Q V) (st : istate) : istate :=
  IState (f (cache st)) (wtc st) (log st).
Definition set_wtc (i : It) (b : bool) (st : istate) : istate :=
  IState (cache st) (<[i:=b]> (wtc st)) (log st).

(** [Kconfig._warn(msg)] *)
Definition do_warn (msg : string) (st : istate) : istate :=
  IState (cache st) (wtc st) (log_warn msg None (log st)).

Fixpoint exec {A : Type} (get : Q → istate → outcome (V * istate)) (p : pr A) (st : istate)
    : outcome (A * istate) :=
  match p with
  | Ret a => Ok (a, st)
  | Get q k => let! (v, st) := get q st in exec get (k v) st
  | SetW i b k => exec get k (set_wtc i b st)
  | Warn m k => let! (m, st) := exec get m st in exec get k (do_warn m st)
  | Fail e => Raise e
  end.

(** Evaluation without a cache. *)
Fixpoint run {A : Type} (get : Q → outcome V) (p : pr A) : outcome A :=
  match p with
  | Ret a => Ok a
  | Get q k => let! v := get q in run get (k v)
  | SetW _ _ k => run get k
  | Warn _ k => run get k
  | Fail e => Raise e
  end.

(** Runs of a program against a table of answers, with the queries read and
    the [_write_to_conf] assignments made. *)
Inductive runs {A : Type} (R : Q → V → Prop) : pr A → A → list Q → list (It * bool) → Prop :=
  | runs_ret a : runs R (Ret a) a [] []
  | runs_get q k v a rs es :
      R q v → runs R (k v) a rs es → runs R (Get q k) a (q :: rs) es
  | runs_setw i b k a rs es : runs R k a rs es → runs R (SetW i b k) a rs ((i, b) :: es)
  | runs_warn m k a rs es : runs R k a rs es → runs R (Warn m k) a rs es.

Lemma run_runs {A} get (p : pr A) a :
  run get p = Ok a ↔ ∃ rs es, runs (λ q v, get q = Ok v) p a rs es.
Proof.
  split.
  - revert a. induction p as [A a'|A q k IH|A i b k IH|A m _ k IH|A e];
      cbn; intros a Hrun.
    + simplify_eq. eexists _, _. constructor.
    + apply obind_Ok in Hrun as (v & Hq & Hrun).
      destruct (IH _ _ Hrun) as (rs & es & ?).
      eexists _, _. by econstructor.
    + destruct (IH _ Hrun) as (rs & es & ?). eexists _, _. by constructor.
    + destruct (IH _ Hrun) as (rs & es & ?). eexists _, _. by constructor.
    + done.
  - intros (rs & es & Hr). induction Hr as [|q k v a rs es Hq| |]; cbn; try done.
    by rewrite Hq.
Qed.

Lemma runs_mono {A} (R R' : Q → V → Prop) (p : pr A) a rs es :
  runs R p a rs es → (∀ q v, q ∈ rs → R q v → R' q v) → runs R' p a rs es.
Proof.
  induction 1 as [a|q k v a rs es Hq Hr IH|i b k a rs es Hr IH|m k a rs es Hr IH];
    intros HR.
  - apply runs_ret.
  - apply (runs_get _ _ _ v); [apply HR; [set_solver|done]|].
    apply IH. set_solver.
  - apply runs_setw, IH. set_solver.
  - apply runs_warn, IH. set_solver.
Qed.

Lemma runs_reads {A} R (p : pr A) a rs es q :
  runs R p a rs es → q ∈ rs → ∃ v, R q v.
Proof. induction 1; rewrite ?elem_of_nil, ?elem_of_cons; naive_solver. Qed.

Lemma runs_det {A} (R R' : Q → V → Prop) (p : pr A) a rs es a' rs' es' :
  (∀ q v v', R q v → R' q v' → v = v') →
  runs R p a rs es → runs R' p a' rs' es' → a = a' ∧ rs = rs' ∧ es = es'.
Proof.
  intros HR Hr. revert a' rs' es'. induction Hr; intros a' rs' es' Hr'.
  - by inversion Hr'.
  - inversion Hr'; subst. assert (v = v0) as -> by eauto.
    edestruct IHHr as (-> & -> & ->); eauto.
  - inversion Hr'; subst. edestruct IHHr as (-> & -> & ->); eauto.
  - inversion Hr'; subst. edestruct IHHr as (-> & -> & ->); eauto.
Qed.

Lemma run_mono {A} (get get' : Q → outcome V) (p : pr A) a :
  (∀ q v, get q = Ok v → get' q = Ok v) → run get p = Ok a → run get' p = Ok a.
Proof.
  rewrite !run_runs. intros Hg (rs & es & Hr). exists rs, es.
  eapply runs_mono; eauto.
Qed.

(** The last assignment made to [_write_to_conf] of [i]. *)
Fixpoint last_set (i : It) (es : list (It * bool)) : option bool :=
  match es with
  | [] => None
  | (j, b) :: es =>
      match last_set i es with
      | Some b => Some b
      | None => if decide (i = j) then Some b else None
      end
  end.

(** [safe P W T Φ p]: when every query answers within [T], the program reads
    only queries in [P], for the text of warnings queries in [W], never fails
    and returns within [Φ]. *)
Fixpoint safe {A : Type} (P W : Q → Prop) (T : Q → V → Prop) (Φ : A → Prop) (p : pr A)
    : Prop :=
  match p with
  | Ret a => Φ a
  | Get q k => P q ∧ ∀ v, T q v → safe P W T Φ (k v)
  | SetW _ _ k => safe P W T Φ k
  | Warn m k => safe W W T (λ _, True) m ∧ safe P W T Φ k
  | Fail _ => False
  end.

Lemma safe_bind {A B} P W T (Ψ : A → Prop) (Φ : B → Prop) (p : pr A) (f : A → pr B) :
  safe P W T Ψ p → (∀ a, Ψ a → safe P W T Φ (f a)) → safe P W T Φ (prog_bind p f).
Proof.
  intros Hp Hf. revert f Hf Hp.
  induction p as [A a|A q k IH|A i b k IH|A m IHm k IH|A e]; cbn; intros f Hf.
  - auto.
  - intros [? Hk]; eauto.
  - eauto.
  - intros [? ?]; eauto.
  - done.
Qed.

Lemma safe_SetW {A} P W T (Φ : A → Prop) i b (p : pr A) :
  safe P W T Φ p → safe P W T Φ (SetW i b p).
Proof. done. Qed.

Lemma safe_mono {A} (P P' W W' : Q → Prop) T (Φ Φ' : A → Prop) (p : pr A) :
  (∀ q, P q → P' q) → (∀ q, W q → W' q) → (∀ a, Φ a → Φ' a) →
  safe P W T Φ p → safe P' W' T Φ' p.
Proof.
  intros HP HW. revert P P' HP Φ Φ'.
  induction p as [A a|A q k IH|A i b k IH|A m IHm k IH|A e]; cbn; intros P P' HP Φ Φ' HΦ.
  - auto.
  - intros [? Hk]; split; [auto|]. intros v Hv. apply (IH v P P' HP Φ); auto.
  - apply (IH P P' HP Φ); auto.
  - intros [Hm Hk]; split; [|by apply (IH P P' HP Φ); auto].
    by apply (IHm W W' HW (λ _, True)).
  - done.
Qed.

(** The reads of a run against well-typed answers. *)
Lemma safe_reads {A} P W T (Φ : A → Prop) (R : Q → V → Prop) (p : pr A) a rs es :
  (∀ q v, R q v → T q v) → safe P W T Φ p → runs R p a rs es → Forall P rs.
Proof.
  intros HR Hs Hr. revert Hs.
  induction Hr as [a|q k v a rs es Hq Hr IH|i b k a rs es Hr IH|m k a rs es Hr IH];
    cbn; intros Hs.
  - constructor.
  - destruct Hs as [? Hs]. constructor; auto.
  - auto.
  - destruct Hs. auto.
Qed.

Lemma runs_bind_inv {A B} R (p : pr A) (f : A → pr B) b rs es :
  runs R (prog_bind p f) b rs es →
  ∃ a rs1 es1 rs2 es2, runs R p a rs1 es1 ∧ runs R (f a) b rs2 es2 ∧
    rs = rs1 ++ rs2 ∧ es = es1 ++ es2.
Proof.
  revert b rs es. induction p as [A a|A q k IH|A i b0 k IH|A m _ k IH|A e]; cbn; intros b rs es Hr.
  - exists a, [], [], rs, es. split_and!; [constructor|done..].
  - inversion Hr; subst. 
    match goal with H : runs _ (prog_bind _ _) _ _ _ |- _ => apply IH in H end.
    match goal with H : ∃ _, _ |- _ => destruct H as (a & rs1 & es1 & rs2 & es2 & Hp1 & Hf1 & -> & ->) end.
    exists a, (q :: rs1), es1, rs2, es2. split_and!; [by econstructor|done..].
  - inversion Hr; subst. 
    match goal with H : runs _ (prog_bind _ _) _ _ _ |- _ => apply IH in H end.
    match goal with H : ∃ _, _ |- _ => destruct H as (a & rs1 & es1 & rs2 & es2 & Hp1 & Hf1 & -> & ->) end.
    exists a, rs1, ((i, b0) :: es1), rs2, es2. split_and!; [by constructor|done..].
  - inversion Hr; subst. 
    match goal with H : runs _ (prog_bind _ _) _ _ _ |- _ => apply IH in H end.
    match goal with H : ∃ _, _ |- _ => destruct H as (a & rs1 & es1 & rs2 & es2 & Hp1 & Hf1 & -> & ->) end.
    exists a, rs1, es1, rs2, es2. split_and!; [by constructor|done..].
  - inversion Hr.
Qed.

(** [post R Φ p]: every run of [p] against the answers [R] returns within [Φ]. *)
Fixpoint post {A : Type} (R : Q → V → Prop) (Φ : A → Prop) (p : pr A) : Prop :=
  match p with
  | Ret a => Φ a
  | Get q k => ∀ v, R q v → post R Φ (k v)
  | SetW _ _ k => post R Φ k
  | Warn _ k => post R Φ k
  | Fail _ => True
  end.

Lemma post_runs {A} R (Φ : A → Prop) (p : pr A) a rs es :
  post R Φ p → runs R p a rs es → Φ a.
Proof. intros Hp Hr. induction Hr; cbn in Hp; auto. Qed.

Lemma post_bind {A B} R (Ψ : A → Prop) (Φ : B → Prop) (p : pr A) (f : A → pr B) :
  post R Ψ p → (∀ a, Ψ a → post R Φ (f a)) → post R Φ (prog_bind p f).
Proof.
  intros Hp Hf. revert f Hf Hp.
  induction p as [A a|A q k IH|A i b k IH|A m _ k IH|A e]; cbn; intros f Hf Hp; eauto.
Qed.

Lemma post_mono {A} R (Φ Φ' : A → Prop) (p : pr A) :
  (∀ a, Φ a → Φ' a) → post R Φ p → post R Φ' p.
Proof.
  revert Φ Φ'. induction p as [A a|A q k IH|A i b k IH|A m _ k IH|A e]; cbn; intros Φ Φ' HΦ; eauto.
Qed.

(** Sequencing is associative; no extensionality is needed to use it under
    [post]. *)
Lemma post_bind_assoc {A B C} R (Φ : C → Prop) (p : pr A) (f : A → pr B) (g : B → pr C) :
  post R Φ (prog_bind p (λ a, prog_bind (f a) g)) → post R Φ (prog_bind (prog_bind p f) g).
Proof.
  revert f. induction p as [A a|A q k IH|A i b k IH|A m _ k IH|A e]; cbn; intros f; auto.
Qed.

Lemma post_SetW {A} R (Φ : A → Prop) i b (p : pr A) : post R Φ p → post R Φ (SetW i b p).
Proof. done. Qed.
Lemma post_Warn {A} R (Φ : A → Prop) m (p : pr A) : post R Φ p → post R Φ (Warn m p).
Proof. done. Qed.

(** [post_w i w R Φ p]: like [post], with the last value assigned to
    [_write_to_conf] of [i], which is [w] before the program. *)
Fixpoint post_w {A : Type} (R : Q → V → Prop) (i : It) (Φ : A → option bool → Prop)
    (w : option bool) (p : pr A) : Prop :=
  match p with
  | Ret a => Φ a w
  | Get q k => ∀ v, R q v → post_w R i Φ w (k v)
  | SetW j b k => post_w R i Φ (if decide (i = j) then Some b else w) k
  | Warn _ k => post_w R i Φ w k
  | Fail _ => True
  end.

Lemma post_w_runs {A} R i (Φ : A → option bool → Prop) w (p : pr A) a rs es :
  post_w R i Φ w p → runs R p a rs es →
  Φ a (match last_set i es with Some b => Some b | None => w end).
Proof.
  intros Hp Hr. revert w Hp.
  induction Hr as [a|q k v a rs es Hq _ IH|j b k a rs es _ IH|m k a rs es _ IH]; cbn; intros w Hp; auto.
  apply IH in Hp. destruct (last_set i es); [done|]. by case_decide.
Qed.

Lemma post_w_bind {A B} R i (Ψ : A → option bool → Prop) (Φ : B → option bool → Prop) w
    (p : pr A) (f : A → pr B) :
  post_w R i Ψ w p → (∀ a w', Ψ a w' → post_w R i Φ w' (f a)) → post_w R i Φ w (prog_bind p f).
Proof.
  intros Hp Hf. revert w Hp.
  induction p as [A a|A q k IHk|A j b k IHk|A m IHm k IHk|A e]; cbn; intros w Hp; eauto.
Qed.


(** Assignments to [_write_to_conf] come only from the writer of the object. *)
Fixpoint writes_only {A : Type} (P : It → Prop) (p : pr A) : Prop :=
  match p with
  | Ret _ => True
  | Get _ k => ∀ v, writes_only P (k v)
  | SetW i _ k => P i ∧ writes_only P k
  | Warn m k => writes_only (λ _, False) m ∧ writes_only P k
  | Fail _ => True
  end.

Lemma post_w_mono {A} R i (Φ Φ' : A → option bool → Prop) w (p : pr A) :
  (∀ a w', Φ a w' → Φ' a w') → post_w R i Φ w p → post_w R i Φ' w p.
Proof.
  intros HΦ. revert w.
  induction p as [A a|A q k IHk|A j b k IHk|A m IHm k IHk|A e]; cbn; intros w; eauto.
Qed.

(** A program that assigns nothing. *)
Lemma post_w_frame {A} R i (Φ : A → Prop) w (p : pr A) :
  writes_only (λ _, False) p → post R Φ p → post_w R i (λ a w', Φ a ∧ w' = w) w p.
Proof.
  induction p as [A a|A q k IHk|A j b k IHk|A m IHm k IHk|A e]; cbn; auto.
  - by intros [[] _].
  - intros [_ Hw]. auto.
Qed.

Lemma writes_only_bind {A B} P (p : pr A) (f : A → pr B) :
  writes_only P p → (∀ a, writes_only P (f a)) → writes_only P (prog_bind p f).
Proof.
  intros Hp Hf. revert f Hf Hp.
  induction p as [A a|A q k IH|A i b k IH|A m IHm k IH|A e]; cbn; intros f Hf.
  - auto.
  - intros Hk v; eauto.
  - intros [? ?]; eauto.
  - intros [? ?]; eauto.
  - done.
Qed.

Lemma writes_only_mono {A} (P P' : It → Prop) (p : pr A) :
  (∀ i, P i → P' i) → writes_only P p → writes_only P' p.
Proof.
  intros HP. induction p as [A a|A q k IH|A i b k IH|A m IHm k IH|A e]; cbn.
  - done.
  - eauto.
  - intros [? ?]; eauto.
  - intros [? ?]; split; [done|eauto].
  - done.
Qed.

Lemma runs_writes {A} P R (p : pr A) a rs es i b :
  writes_only P p → runs R p a rs es → (i, b) ∈ es → P i.
Proof.
  intros Hw Hr. revert Hw.
  induction Hr; cbn; intros Hw; rewrite ?elem_of_nil, ?elem_of_cons; naive_solver.
Qed.

Lemma last_set_In i es b : last_set i es = Some b → (i, b) ∈ es.
Proof.
  induction es as [|[j b'] es IH]; cbn; [done|]. rewrite elem_of_cons.
  destruct (last_set i es); [naive_solver|]. case_decide; naive_solver.
Qed.
Definition cached (st : istate) (q : Q) (v : V) : Prop := cache st !! q = Some v.

End Programs.
Arguments istate It Q V {_ _ _ _}.

Section Incr.
Context {It Q V U : Type} {eq_It : EqDecision It} {cnt_It : Countable It}
  {eq_Q : EqDecision Q} {cnt_Q : Countable Q}.
Implicit Types (q : Q) (v : V) (u : U) (i : It).
Abbreviation pr := (prog It Q V).
Abbreviation state := (istate It Q V).
Implicit Types (st : state).

(** The object a query belongs to, and the query that computes its
    [_write_to_conf]. *)
Variable owner : Q → It.
Variable writer : It → Q.
(** Values that are in the cache from the start and never leave it. *)
Variable const : Q → option V.
(** The code of a query, given the user values. *)
Variable body : U → Q → pr V.

(** Evaluation with the cache. *)
Fixpoint eval (u : U) (fuel : nat) (q : Q) (st : state) : outcome (V * state) :=
  match fuel with
  | O => NoFuel
  | S n =>
      match cache st !! q with
      | Some v => Ok (v, st)
      | None =>
          let! (v, st) := exec (eval u n) (body u q) st in
          Ok (v, set_cache (<[q:=v]>) st)
      end
  end.

Fixpoint pure (u : U) (fuel : nat) (q : Q) : outcome V :=
  match fuel with
  | O => NoFuel
  | S n => match const q with Some v => Ok v | None => run (pure u n) (body u q) end
  end.

(** [evals u q v]: computed from scratch, [q] is [v]. *)
Definition evals (u : U) (q : Q) (v : V) : Prop := ∃ n, pure u n q = Ok v.

Lemma pure_mono u n m q v : n ≤ m → pure u n q = Ok v → pure u m q = Ok v.
Proof.
  revert m q v. induction n as [|n IH]; intros [|m] q v Hle; try done; [lia|].
  cbn. case_match; [done|]. apply run_mono. intros q' v'. apply IH. lia.
Qed.

Lemma evals_fun u q v v' : evals u q v → evals u q v' → v = v'.
Proof.
  intros [n Hn] [m Hm].
  apply (pure_mono u n (n + m)) in Hn; [|lia].
  apply (pure_mono u m (n + m)) in Hm; [|lia]. congruence.
Qed.

Lemma evals_const u q v : const q = Some v → evals u q v.
Proof. intros Hc. exists 1. cbn. by rewrite Hc. Qed.

Lemma runs_evals_fuel {A} u (p : pr A) a rs es :
  runs (evals u) p a rs es → ∃ n, runs (λ q v, pure u n q = Ok v) p a rs es.
Proof.
  induction 1 as [a|q k v a rs es [n Hn] _ [m Hm]|i b k a rs es _ [m Hm]|m k a rs es _ [n Hn]].
  - exists 0. constructor.
  - exists (n + m). econstructor; [apply (pure_mono u n); [lia|done]|].
    eapply runs_mono; [done|]. intros q' v' _. apply pure_mono. lia.
  - exists m. by constructor.
  - exists n. by constructor.
Qed.

Lemma evals_step u q v rs es :
  const q = None → runs (evals u) (body u q) v rs es → evals u q v.
Proof.
  intros Hc [n Hn]%runs_evals_fuel. exists (S n). cbn. rewrite Hc.
  apply run_runs. eauto.
Qed.

Lemma evals_inv u q v :
  evals u q v → const q = None → ∃ rs es, runs (evals u) (body u q) v rs es.
Proof.
  intros [[|n] Hn] Hc; [done|]. cbn in Hn. rewrite Hc in Hn.
  apply run_runs in Hn as (rs & es & Hr). exists rs, es.
  eapply runs_mono; [exact Hr|]. intros q' v' _ Hq. by exists n.
Qed.

(** What holds of every run of the code holds of the value. *)
Lemma evals_post u q v Φ :
  evals u q v → const q = None → post (evals u) Φ (body u q) → Φ v.
Proof.
  intros Hq Hc Hp. destruct (evals_inv _ _ _ Hq Hc) as (rs & es & Hr). by eapply post_runs.
Qed.

(** ** The invariant of the cache *)

Definition wtc_ok (st : state) (es : list (It * bool)) : Prop :=
  ∀ i b, last_set i es = Some b → wtc st !! i = Some b.

Record coherent (u : U) (st : state) : Prop := {
  coh_const q v : const q = Some v → cached st q v;
  coh_evals q v : cached st q v → evals u q v;
  coh_just q v :
    cached st q v → const q = None →
    ∃ rs es, runs (cached st) (body u q) v rs es ∧ wtc_ok st es
}.


(** ** Correctness of the evaluation with the cache

    [rank] witnesses that there is no dependency loop between queries, [T] is
    the type of the answers. *)
Section Correctness.
Variable rank : Q → nat.
Variable T : Q → V → Prop.
Hypothesis const_typed : ∀ q v, const q = Some v → T q v.
Variable uok : U → Prop.
Hypothesis body_safe :
  ∀ u q, uok u → const q = None →
    safe (λ q', rank q' < rank q) (λ q', rank q' < rank q) T (T q) (body u q).
Hypothesis body_writes : ∀ u q, writes_only (λ i, writer i = q) (body u q).

Lemma run_safe {A} P W Φ (get : Q → outcome V) (p : pr A) a :
  (∀ q v, P q → get q = Ok v → T q v) → safe P W T Φ p → run get p = Ok a → Φ a.
Proof using Type.
  intros Hg. revert Φ a. induction p as [A a|A q k IH|A i b k IH|A m IHm k IH|A e];
    cbn; intros Φ a' Hs Hr.
  - by simplify_eq.
  - apply obind_Ok in Hr as (v & Hq & Hr). destruct Hs as [HP Hs].
    apply (IH v Φ); auto.
  - apply (IH Φ); auto.
  - destruct Hs as [_ Hs]. apply (IH Φ); auto.
  - done.
Qed.

Lemma evals_typed u q v : uok u → evals u q v → T q v.
Proof using const_typed body_safe.
  intros Hu [n Hn]. revert q v Hn. induction n as [|n IH]; [done|].
  cbn. intros q v. destruct (const q) eqn:Hc; [intros; simplify_eq; eauto|].
  intros Hr. refine (run_safe (λ q', rank q' < rank q) (λ q', rank q' < rank q) (T q) (pure u n) (body u q) v _ _ Hr);
    [|by apply body_safe]. intros q' v' _. apply IH.
Qed.

(** What an evaluation of [q] may change. *)
Definition ext (q : Q) (st st' : state) : Prop :=
  cache st ⊆ cache st' ∧
  (∀ q' v, cache st !! q' = None → cached st' q' v → q' = q ∨ rank q' < rank q) ∧
  (∀ i, is_Some (cache st !! writer i) ∨ (writer i ≠ q ∧ rank q ≤ rank (writer i)) →
        wtc st' !! i = wtc st !! i).

Lemma ext_refl q st : ext q st st.
Proof using Type.
  split_and!; [done| |done]. unfold cached. intros; congruence.
Qed.

Lemma ext_trans q st1 st2 st3 : ext q st1 st2 → ext q st2 st3 → ext q st1 st3.
Proof using Type.
  intros (H1 & H2 & H3) (H1' & H2' & H3'). split_and!.
  - by etrans.
  - intros q' v Hn Hc. destruct (cache st2 !! q') eqn:?; eauto.
  - intros i Hi. rewrite H3', H3; [done|done|].
    destruct Hi as [[v Hv]|?]; [left|by right]. eexists. by eapply lookup_weaken.
Qed.

Lemma ext_weaken q q0 st st' : rank q < rank q0 → ext q st st' → ext q0 st st'.
Proof using Type.
  intros Hr (H1 & H2 & H3). split_and!; [done| |].
  - intros q' v Hn Hc. right. destruct (H2 _ _ Hn Hc) as [->|]; lia.
  - intros i [?|[? ?]]; apply H3; [by left|right]. split; [|lia].
    intros <-. lia.
Qed.

Definition eval_post (u : U) (q : Q) (st : state) (v : V) (st' : state) : Prop :=
  coherent u st' ∧ cached st' q v ∧ ext q st st'.

Lemma set_wtc_coherent u q0 i b st :
  writer i = q0 → cache st !! q0 = None → coherent u st → coherent u (set_wtc i b st).
Proof using body_writes.
  intros Hw Hn [Hc He Hj]. split; [done..|].
  intros q v Hq Hcq. destruct (Hj _ _ Hq Hcq) as (rs & es & Hr & Hok).
  exists rs, es. split; [done|]. intros j b' Hl. cbn.
  rewrite lookup_insert_ne; [by apply Hok|]. intros ->.
  apply last_set_In in Hl.
  assert (writer j = q) as Hwj.
  { eapply (runs_writes (λ i, writer i = q)); [apply body_writes|done|done]. }
  unfold cached in Hq. cbn in Hq. rewrite <- Hwj, Hw, Hn in Hq. done.
Qed.

Lemma do_warn_coherent u m st : coherent u st → coherent u (do_warn m st).
Proof using Type.
  intros [Hc He Hj]. by split.
Qed.

Lemma do_warn_ext q m st : ext q st (do_warn m st).
Proof using Type.
  split_and!; [done| |done]. unfold cached; cbn. intros; congruence.
Qed.

Lemma do_warn_cache m st : cache (do_warn m st) = cache st.
Proof using Type. done. Qed.
Lemma do_warn_wtc m st : wtc (do_warn m st) = wtc st.
Proof using Type. done. Qed.

Lemma set_wtc_ext q i b st :
  writer i = q → cache st !! q = None → ext q st (set_wtc i b st).
Proof using Type.
  intros Hw Hn. split_and!; [done| |].
  - unfold cached; cbn. intros; congruence.
  - intros j Hj. cbn. rewrite lookup_insert_ne; [done|]. intros ->.
    rewrite Hw, Hn in Hj. destruct Hj as [[? ?]|[? ?]]; done.
Qed.

(** Running the code of [q0] when the queries it reads evaluate correctly. *)
Lemma exec_correct {A} u n q0 (p : pr A) Φ st :
  (∀ q st, rank q < rank q0 → coherent u st →
     ∃ v st', eval u n q st = Ok (v, st') ∧ eval_post u q st v st') →
  safe (λ q, rank q < rank q0) (λ q, rank q < rank q0) T Φ p →
  writes_only (λ i, writer i = q0) p → uok u → coherent u st → cache st !! q0 = None →
  ∃ a st' rs es,
    exec (eval u n) p st = Ok (a, st') ∧ Φ a ∧ coherent u st' ∧ cache st' !! q0 = None ∧
    runs (cached st') p a rs es ∧ ext q0 st st' ∧ wtc_ok st' es ∧
    (∀ i, writer i = q0 → last_set i es = None → wtc st' !! i = wtc st !! i).
Proof using const_typed body_safe body_writes.
  intros IH. revert Φ st.
  induction p as [A a|A q k IHk|A i b k IHk|A m IHm k IHk|A e]; cbn;
    intros Φ st Hs Hw Hu Hcoh Hn.
  - exists a, st, [], []. split_and!; try done; [constructor|apply ext_refl].
  - destruct Hs as [Hq Hs].
    destruct (IH q st Hq Hcoh) as (v & st1 & Hev & Hcoh1 & Hv & Hext).
    assert (T q v) as HT by (eapply evals_typed, coh_evals; eauto).
    assert (cache st1 !! q0 = None) as Hn1.
    { destruct (cache st1 !! q0) eqn:Hq0; [|done]. exfalso.
      destruct Hext as (_ & Hx & _).
      destruct (Hx q0 _ Hn Hq0) as [->|]; lia. }
    destruct (IHk v Φ st1) as (a & st2 & rs & es & He & ? & ? & ? & Hr & Hx & Hok & Hun);
      [by apply Hs|by apply Hw|done|done|done|].
    exists a, st2, (q :: rs), es. rewrite Hev; cbn. split_and!; try done.
    + econstructor; [|done]. destruct Hx as (Hx & _). by eapply lookup_weaken.
    + eapply ext_trans; [|done]. by eapply ext_weaken.
    + intros i Hi Hl. rewrite Hun by done.
      destruct Hext as (_ & _ & Hx'). apply Hx'. right.
      rewrite Hi. split; [|lia]. intros ->. lia.
  - destruct Hw as [Hi Hw].
    destruct (IHk Φ (set_wtc i b st)) as (a & st2 & rs & es & He & ? & ? & ? & Hr & Hx & Hok & Hun);
      [done|done|done|by eapply set_wtc_coherent|done|].
    exists a, st2, rs, ((i, b) :: es). rewrite He. split_and!; try done.
    + by constructor.
    + eapply ext_trans; [|done]. by apply set_wtc_ext.
    + intros j c. cbn. destruct (last_set j es) eqn:Hl.
      * intros; simplify_eq. by apply Hok.
      * case_decide; [|done]. intros; simplify_eq.
        rewrite Hun by done. cbn. by rewrite lookup_insert_eq.
    + intros j Hj. cbn. destruct (last_set j es) eqn:Hl; [done|].
      case_decide; [done|]. intros _. rewrite Hun by done. cbn.
      by rewrite lookup_insert_ne by congruence.
  - destruct Hs as [Hsm Hs], Hw as [Hwm Hw].
    destruct (IHm (λ _, True) st) as (msg & st1 & rs1 & es1 & He1 & _ & Hc1 & Hn1 & Hr1 & Hx1 & _ & Hu1);
      [done| |done|done|done|].
    { eapply writes_only_mono; [|done]. done. }
    destruct (IHk Φ (do_warn msg st1)) as (a & st2 & rs & es & He & ? & ? & ? & Hr & Hx & Hok & Hun);
      [done|done|done|by apply do_warn_coherent|by rewrite do_warn_cache|].
    exists a, st2, rs, es. rewrite He1; cbn. split_and!; try done.
    + by constructor.
    + eapply ext_trans; [done|]. eapply ext_trans; [apply do_warn_ext|done].
    + intros i Hi Hl. rewrite Hun, do_warn_wtc by done. apply Hu1; [done|].
      destruct (last_set i es1) eqn:Hl1; [|done]. exfalso.
      eapply (runs_writes (λ _, False)); [exact Hwm|exact Hr1|].
      by eapply last_set_In.
  - done.
Qed.

Lemma cached_step u q v st :
  coherent u st → cache st !! q = None →
  (∃ rs es, runs (cached st) (body u q) v rs es ∧ wtc_ok st es) → const q = None →
  coherent u (set_cache (<[q:=v]>) st).
Proof using Type.
  intros [Hc He Hj] Hn (rs & es & Hr & Hok) Hq.
  assert (∀ q' v', cached st q' v' → cached (set_cache (<[q:=v]>) st) q' v') as Hmono.
  { intros q' v' Hq'. unfold cached in *; cbn.
    rewrite lookup_insert_ne; [done|]. intros ->. congruence. }
  assert (evals u q v) as Hev.
  { eapply evals_step; [done|]. eapply runs_mono; [done|]. eauto. }
  split.
  - eauto.
  - intros q' v'. unfold cached; cbn. destruct (decide (q = q')) as [->|].
    + rewrite lookup_insert_eq. by intros [= <-].
    + rewrite lookup_insert_ne by done. apply He.
  - intros q' v' Hq' Hc'. destruct (decide (q = q')) as [->|].
    + unfold cached in Hq'; cbn in Hq'. rewrite lookup_insert_eq in Hq'. simplify_eq.
      exists rs, es. split; [|done]. eapply runs_mono; eauto.
    + unfold cached in Hq'; cbn in Hq'. rewrite lookup_insert_ne in Hq' by done.
      destruct (Hj q' v' Hq' Hc') as (rs' & es' & Hr' & Hok').
      exists rs', es'. split; [|done]. eapply runs_mono; eauto.
Qed.

(** Evaluation with the cache terminates, agrees with evaluation without it
    and keeps the cache coherent. *)
Lemma eval_correct u n q st :
  uok u → coherent u st → rank q < n →
  ∃ v st', eval u n q st = Ok (v, st') ∧ T q v ∧ evals u q v ∧ eval_post u q st v st'.
Proof using const_typed body_safe body_writes.
  intros Hu. revert q st. induction n as [|n IH]; intros q st Hcoh Hn; [lia|]. cbn.
  destruct (cache st !! q) as [v|] eqn:Hq.
  { assert (evals u q v) by (by eapply coh_evals).
    exists v, st. split_and!; [done|by eapply evals_typed|done|].
    split_and!; [done|done|apply ext_refl]. }
  assert (const q = None) as Hc.
  { destruct (const q) eqn:Hc; [|done]. apply (coh_const _ _ Hcoh) in Hc.
    unfold cached in Hc. congruence. }
  destruct (exec_correct u n q (body u q) (T q) st) as
    (v & st1 & rs & es & He & HT & Hcoh1 & Hn1 & Hr & Hx & Hok & _);
    [|by apply body_safe|apply body_writes|done|done|done|].
  { intros q' st' Hlt Hcoh'. destruct (IH q' st' Hcoh') as (v & st1 & ? & ? & ? & ?); [lia|].
    eauto. }
  exists v, (set_cache (<[q:=v]>) st1). rewrite He; cbn.
  assert (coherent u (set_cache (<[q:=v]>) st1)) as Hcoh2 by (apply cached_step; eauto).
  assert (cached (set_cache (<[q:=v]>) st1) q v) as Hq2.
  { unfold cached; cbn. by rewrite lookup_insert_eq. }
  split_and!; [done|done|by eapply coh_evals|].
  split_and!; [done|done|]. destruct Hx as (H1 & H2 & H3). split_and!.
  - cbn. etrans; [done|]. by apply insert_subseteq.
  - intros q' v' Hn'. unfold cached; cbn. destruct (decide (q = q')) as [->|]; [by left|].
    rewrite lookup_insert_ne by done. by apply H2.
  - done.
Qed.

(** Running client code: any program whose queries rank below the fuel. *)
Lemma exec_client {A} u n (p : pr A) Φ st :
  uok u → coherent u st → safe (λ q, rank q < n) (λ q, rank q < n) T Φ p →
  writes_only (λ _, False) p →
  ∃ a st', exec (eval u n) p st = Ok (a, st') ∧ Φ a ∧ coherent u st' ∧
    (∃ rs es, runs (evals u) p a rs es) ∧ cache st ⊆ cache st'.
Proof using const_typed body_safe body_writes.
  intros Hu. revert Φ st.
  induction p as [A a|A q k IHk|A i b k IHk|A m IHm k IHk|A e]; cbn;
    intros Φ st Hcoh Hs Hw.
  - exists a, st. split_and!; try done. exists [], []. constructor.
  - destruct Hs as [Hq Hs].
    destruct (eval_correct u n q st Hu Hcoh Hq) as (v & st1 & He & HT & Hev & Hc1 & Hq1 & Hx).
    destruct (IHk v Φ st1 Hc1 (Hs v HT) (Hw v)) as (a & st2 & He2 & ? & ? & (rs & es & Hr) & ?).
    exists a, st2. rewrite He; cbn. split_and!; try done.
    + exists (q :: rs), es. by econstructor.
    + destruct Hx as [? _]. by etrans.
  - naive_solver.
  - destruct Hs as [Hsm Hs], Hw as [Hwm Hw].
    destruct (IHm _ st Hcoh Hsm Hwm) as (msg & st1 & He1 & _ & Hc1 & _ & Hsub).
    destruct (IHk Φ (do_warn msg st1)) as (a & st2 & He2 & ? & ? & (rs & es & Hr) & Hsub2);
      [by apply do_warn_coherent|done|done|].
    exists a, st2. rewrite He1; cbn. split_and!; try done.
    + exists rs, es. by constructor.
    + rewrite do_warn_cache in Hsub2. by etrans.
  - done.
Qed.

(** Without a cache the evaluation terminates with the same fuel. *)
Lemma pure_total u n q : uok u → rank q < n → ∃ v, pure u n q = Ok v ∧ T q v.
Proof using const_typed body_safe.
  intros Hu. revert q. induction n as [|n IH]; intros q Hn; [lia|]. cbn.
  destruct (const q) eqn:Hc; [eauto|].
  assert (∀ A (Φ : A → Prop) (p : pr A),
    safe (λ q', rank q' < rank q) (λ q', rank q' < rank q) T Φ p → ∃ a, run (pure u n) p = Ok a ∧ Φ a) as Hrun.
  { intros A Φ p. revert Φ.
    induction p as [A a|A q' k IHk|A i b k IHk|A m IHm k IHk|A e]; cbn; intros Φ Hs.
    - eauto.
    - destruct Hs as [Hq' Hs]. destruct (IH q') as (v & -> & HT); [lia|]. cbn. eauto.
    - eauto.
    - destruct Hs. eauto.
    - done. }
  apply Hrun. by apply body_safe.
Qed.
End Correctness.

(** ** Invalidation *)
Section Invalidation.
(** [slots i]: the cached attributes of an object; [vq i]: the attribute
    whose presence says that the object holds cached values; [deps]: the
    [_dependents] sets; [wide i]: invalidating [i] clears all of
    [all_items]. *)
Variable slots : It → list Q.
Variable vq : It → Q.
Variable deps : It → list It.
Variable wide : It → bool.
Variable all_items : list It.

(** [_invalidate] *)
Definition invalidate (i : It) (C : gmap Q V) : gmap Q V :=
  foldl (λ C q, delete q C) C (slots i).

(** [_invalidate_all] *)
Definition invalidate_all (C : gmap Q V) : gmap Q V :=
  foldl (λ C i, invalidate i C) C all_items.

(** [_rec_invalidate]; the loop is over the dependents. *)
Fixpoint rec_invalidate (fuel : nat) (i : It) (C : gmap Q V) : outcome (gmap Q V) :=
  match fuel with
  | O => NoFuel
  | S n =>
      if wide i then Ok (invalidate_all C)
      else
        (fix loop (l : list It) (C : gmap Q V) : outcome (gmap Q V) :=
           match l with
           | [] => Ok C
           | d :: l =>
               match C !! vq d with
               | Some _ => let! C := rec_invalidate n d C in loop l C
               | None => loop l C
               end
           end) (deps i) (invalidate i C)
  end.

Definition rec_loop (n : nat) : list It → gmap Q V → outcome (gmap Q V) :=
  fix loop (l : list It) (C : gmap Q V) : outcome (gmap Q V) :=
    match l with
    | [] => Ok C
    | d :: l =>
        match C !! vq d with
        | Some _ => let! C := rec_invalidate n d C in loop l C
        | None => loop l C
        end
    end.

Lemma rec_invalidate_S n i C :
  rec_invalidate (S n) i C
  = if wide i then Ok (invalidate_all C) else rec_loop n (deps i) (invalidate i C).
Proof using Type. done. Qed.

Hypothesis slots_owner : ∀ i q, q ∈ slots i ↔ owner q = i.
Hypothesis vq_owner : ∀ i, owner (vq i) = i.
Hypothesis deps_in : ∀ i d, d ∈ deps i → d ∈ all_items.

Lemma invalidate_lookup i C q :
  invalidate i C !! q = if decide (owner q = i) then None else C !! q.
Proof using eq_It slots_owner.
  unfold invalidate. rewrite foldl_delete_lookup.
  by rewrite (decide_ext (q ∈ slots i) (owner q = i)).
Qed.

Lemma invalidate_all_lookup C q :
  invalidate_all C !! q = if decide (owner q ∈ all_items) then None else C !! q.
Proof using eq_It slots_owner.
  unfold invalidate_all. generalize all_items as l. intros l. revert C.
  induction l as [|i l IH]; intros C; cbn.
  - by rewrite decide_False by apply not_elem_of_nil.
  - rewrite IH, invalidate_lookup.
    rewrite (decide_ext (owner q ∈ i :: l) (owner q = i ∨ owner q ∈ l))
      by apply elem_of_cons.
    destruct (decide (owner q ∈ l)) as [Hl|Hl].
    + by rewrite decide_True by by right.
    + destruct (decide (owner q = i)) as [Hi|Hi].
      * by rewrite decide_True by by left.
      * by rewrite decide_False by by intros [?|?].
Qed.

(** What a call leaves behind: nothing is added, the object itself is
    cleared, and every object that was cleared has either no dependent with
    cached values left, or everything was cleared. *)
Definition cleared (C C' : gmap Q V) (j : It) : Prop :=
  ∃ q, owner q = j ∧ is_Some (C !! q) ∧ C' !! q = None.

Definition all_clear (C : gmap Q V) : Prop :=
  ∀ q, owner q ∈ all_items → C !! q = None.

Definition inv_step (C C' : gmap Q V) : Prop :=
  C' ⊆ C ∧
  (∀ j, cleared C C' j → ∀ q, owner q = j → C' !! q = None) ∧
  (∀ j, cleared C C' j →
     all_clear C' ∨ (wide j = false ∧ ∀ d, d ∈ deps j → C' !! vq d = None)).

Lemma all_clear_mono C C' : C' ⊆ C → all_clear C → all_clear C'.
Proof using Type.
  intros Hsub Ha q Hq. destruct (C' !! q) eqn:Hc; [|done].
  apply (lookup_weaken _ _ _ _ Hc) in Hsub. rewrite Ha in Hsub; done.
Qed.

Lemma inv_step_refl C : inv_step C C.
Proof using Type.
  split_and!; [done|..]; intros j (q & _ & [v Hv] & Hn); congruence.
Qed.

Lemma inv_step_trans C1 C2 C3 : inv_step C1 C2 → inv_step C2 C3 → inv_step C1 C3.
Proof using Type.
  intros (Hs & Hc & Hd) (Hs' & Hc' & Hd').
  assert (∀ j, cleared C1 C3 j → cleared C1 C2 j ∨ cleared C2 C3 j) as Hcl.
  { intros j (q & Ho & Hq & Hn). destruct (C2 !! q) eqn:Hq2.
    - right. exists q. rewrite Hq2. eauto.
    - left. by exists q. }
  split_and!; [by etrans| |].
  - intros j [Hj|Hj]%Hcl q Ho; [|by eapply Hc'].
    eapply map_sub_None; [done|]. by eapply Hc.
  - intros j [Hj|Hj]%Hcl; [|by apply Hd'].
    destruct (Hd j Hj) as [Ha|[Hw Ha]].
    + left. by eapply all_clear_mono.
    + right. split; [done|]. intros d Hd1. eapply map_sub_None; eauto.
Qed.

Lemma rec_invalidate_spec n i C C' :
  i ∈ all_items → rec_invalidate n i C = Ok C' →
  inv_step C C' ∧ (∀ q, owner q = i → C' !! q = None) ∧
  (all_clear C' ∨ (wide i = false ∧ ∀ d, d ∈ deps i → C' !! vq d = None)).
Proof using eq_It slots_owner vq_owner deps_in.
  revert i C C'. induction n as [|n IH]; [done|]. intros i C C' Hall.
  rewrite rec_invalidate_S. destruct (wide i) eqn:Hwide.
  { intros [= <-]. assert (all_clear (invalidate_all C)) as Ha.
    { intros q Hq. by rewrite invalidate_all_lookup, decide_True. }
    split_and!; [split_and!| |by left].
    - apply map_subseteq_spec. intros q v. rewrite invalidate_all_lookup.
      by case_decide.
    - intros j (q & Ho & [v Hv] & Hn) q' Ho'. apply Ha.
      rewrite invalidate_all_lookup in Hn. case_decide; [|congruence]. congruence.
    - by left.
    - intros q <-. by apply Ha. }
  (* the loop over the dependents *)
  assert (∀ l D D', (∀ d, d ∈ l → d ∈ all_items) → rec_loop n l D = Ok D' →
    inv_step D D' ∧ ∀ d, d ∈ l → D' !! vq d = None) as Hloop.
  { induction l as [|d l IHl]; cbn; intros D D' Hin.
    - intros [= <-]. split; [apply inv_step_refl|]. by intros d ?%elem_of_nil.
    - assert (∀ d, d ∈ l → d ∈ all_items) as Hinl.
      { intros d' Hd'. apply Hin. by apply elem_of_cons; right. }
      assert (d ∈ all_items) as Hind by (apply Hin; by apply elem_of_cons; left).
      destruct (D !! vq d) as [v|] eqn:Hv.
      + rewrite obind_Ok. intros (D1 & HD1 & HD').
        destruct (IH _ _ _ Hind HD1) as (Hs1 & Hi1 & _).
        destruct (IHl _ _ Hinl HD') as (Hs2 & Hd2).
        split; [by eapply inv_step_trans|]. intros d' [->|?]%elem_of_cons; [|by apply Hd2].
        eapply map_sub_None; [apply Hs2|]. apply Hi1, vq_owner.
      + intros HD'. destruct (IHl _ _ Hinl HD') as (Hs2 & Hd2). split; [done|].
        intros d' [->|?]%elem_of_cons; [|by apply Hd2].
        eapply map_sub_None; [apply Hs2|done]. }
  intros [Hs Hd]%Hloop; [|apply deps_in].
  assert (∀ q, owner q = i → C' !! q = None) as Hi.
  { intros q Hq. eapply map_sub_None; [apply Hs|].
    by rewrite invalidate_lookup, decide_True. }
  split_and!; [|done|by right].
  destruct Hs as (Hsub & Hc & Hdd).
  assert (invalidate i C ⊆ C) as Hsub1.
  { apply map_subseteq_spec. intros q v. rewrite invalidate_lookup. by case_decide. }
  assert (∀ j, cleared C C' j → j = i ∨ cleared (invalidate i C) C' j) as Hcl.
  { intros j (q & Ho & Hq & Hn). destruct (decide (j = i)); [by left|]. right.
    exists q. rewrite invalidate_lookup, decide_False by congruence. done. }
  split_and!; [by etrans| |].
  - intros j [->|Hj]%Hcl q Ho; [by apply Hi|by eapply Hc].
  - intros j [->|Hj]%Hcl; [by right|by apply Hdd].
Qed.

(** Only the object itself, dependents and the items of [invalidate_all] are
    ever cleared. *)
Lemma rec_invalidate_frame n i C C' q :
  rec_invalidate n i C = Ok C' → owner q ≠ i → owner q ∉ all_items →
  C' !! q = C !! q.
Proof using eq_It slots_owner deps_in.
  revert i C C'. induction n as [|n IH]; [done|]. intros i C C'.
  rewrite rec_invalidate_S. intros Hr Hi Ha. destruct (wide i).
  { injection Hr as <-. by rewrite invalidate_all_lookup, decide_False. }
  trans (invalidate i C !! q); [|by rewrite invalidate_lookup, decide_False].
  assert (∀ d, d ∈ deps i → d ∈ all_items) as Hdeps by (intros d; apply deps_in).
  revert Hr. generalize (invalidate i C) as D. revert Hdeps.
  generalize (deps i) as l. induction l as [|d l IHl]; cbn; intros Hdeps D.
  { by intros [= <-]. }
  assert (∀ d, d ∈ l → d ∈ all_items) as Hl.
  { intros d' Hd'. apply Hdeps. by apply elem_of_cons; right. }
  destruct (D !! vq d).
  - rewrite obind_Ok. intros (D1 & HD1 & HD').
    rewrite (IHl Hl D1 HD'). eapply IH; [done| |done].
    intros Heq. apply Ha. rewrite Heq. apply Hdeps. by apply elem_of_cons; left.
  - by apply IHl.
Qed.

(** The recursion terminates: every nested call is made on an object with
    cached values, which it forgets at once. *)
Lemma invalidate_sub i C : invalidate i C ⊆ C.
Proof using eq_It slots_owner.
  apply map_subseteq_spec. intros q v. rewrite invalidate_lookup. by case_decide.
Qed.

Lemma invalidate_size i C v :
  C !! vq i = Some v → size (invalidate i C) < size C.
Proof using eq_It slots_owner vq_owner.
  intros Hv. assert (invalidate i C ⊆ delete (vq i) C) as Hsub%map_subseteq_size.
  { apply map_subseteq_spec. intros q v'. rewrite invalidate_lookup.
    case_decide as Hi; [done|]. rewrite lookup_delete_ne; [done|].
    intros <-. by rewrite vq_owner in Hi. }
  rewrite (map_size_delete_Some _ _ (mk_is_Some _ _ Hv)) in Hsub.
  assert (size C ≠ 0); [|lia]. rewrite map_size_ne_0_lookup. eauto.
Qed.

Lemma rec_invalidate_total n i C :
  i ∈ all_items → size (invalidate i C) < n → ∃ C', rec_invalidate n i C = Ok C'.
Proof using eq_It slots_owner vq_owner deps_in.
  revert i C. induction n as [|n IH]; [lia|]. intros i C Hall Hn.
  rewrite rec_invalidate_S. destruct (wide i); [eauto|].
  assert (∀ l D, (∀ d, d ∈ l → d ∈ all_items) → size D ≤ n →
    ∃ D', rec_loop n l D = Ok D') as Hloop; [|apply Hloop; [apply deps_in|lia]].
  intros l. induction l as [|d l IHl]; cbn; intros D Hin HD; [eauto|].
  assert (∀ d, d ∈ l → d ∈ all_items) as Hinl.
  { intros d' Hd'. apply Hin. by apply elem_of_cons; right. }
  assert (d ∈ all_items) as Hind by (apply Hin; by apply elem_of_cons; left).
  destruct (D !! vq d) as [v|] eqn:Hv; [|by apply IHl].
  destruct (IH d D Hind) as (D1 & HD1).
  { apply invalidate_size in Hv. lia. }
  rewrite HD1; cbn. apply IHl; [done|].
  apply rec_invalidate_spec in HD1 as ((Hsub%map_subseteq_size & _) & _); [lia|done].
Qed.

(** *** Invalidation keeps the cache coherent *)

(** The [_cached_vis] flag: an object that holds a value computed from one
    that may be invalidated has [vq] cached. *)
Definition flagged (u : U) (st : state) : Prop :=
  ∀ q v rs es, cached st q v → const q = None →
    runs (cached st) (body u q) v rs es → (∃ q', q' ∈ rs ∧ owner q' ∈ all_items) →
    is_Some (cache st !! vq (owner q)).

(** [_dependents] is complete for the object of [q]: every object it reads
    has it as a dependent, apart from the object itself, objects that never
    change, and objects whose change clears everything. *)
Definition reads_tracked (q : Q) (rs : list Q) : Prop :=
  ∀ q', q' ∈ rs →
    owner q' = owner q ∨ owner q ∈ deps (owner q') ∨
    (wide (owner q') = true ∧ owner q ∈ all_items) ∨ owner q' ∉ all_items.

Lemma invalidate_coherent u st n i C' :
  coherent u st → flagged u st →
  (∀ q v rs es, cached st q v → const q = None →
     runs (cached st) (body u q) v rs es → reads_tracked q rs) →
  (∀ q v, const q = Some v → owner q ∉ all_items) → i ∈ all_items →
  rec_invalidate n i (cache st) = Ok C' →
  coherent u (set_cache (λ _, C') st).
Proof using eq_It slots_owner vq_owner deps_in.
  intros [Hc He Hj] Hflag Htrack Hconst Hi Hrec.
  pose proof (rec_invalidate_spec _ _ _ _ Hi Hrec) as ((Hsub & Hcl & Hdep) & _ & _).
  assert (∀ q v, C' !! q = Some v → cached st q v) as Hold.
  { intros q v Hq. by eapply lookup_weaken. }
  split.
  - intros q v Hq. unfold cached; cbn.
    rewrite (rec_invalidate_frame _ _ _ _ q Hrec); [by apply Hc| |by eapply Hconst].
    intros Ho. apply (Hconst _ _ Hq). by rewrite Ho.
  - intros q v Hq. by apply He, Hold.
  - intros q v Hq Hcq. pose proof (Hold _ _ Hq) as Hq0.
    destruct (Hj q v Hq0 Hcq) as (rs & es & Hr & Hok).
    exists rs, es. split; [|done].
    eapply runs_mono; [done|]. intros q' v' Hin Hq'. unfold cached in *; cbn in *.
    destruct (C' !! q') as [v''|] eqn:Hn; [by apply Hold in Hn; congruence|]. exfalso.
    assert (cleared (cache st) C' (owner q')) as Hcl' by (exists q'; eauto).
    assert (owner q' ∈ all_items) as Hrs.
    { destruct (decide (owner q' ∈ all_items)) as [Ho|Ho]; [done|].
      rewrite (rec_invalidate_frame _ _ _ _ q' Hrec) in Hn; [congruence| |done]. by intros <-. }
    (* the object of [q] was not cleared *)
    assert (∀ q1 v1, owner q1 = owner q → cache st !! q1 = Some v1 → is_Some (C' !! q1)) as Hkeep.
    { intros q1 v1 Ho Hq1. destruct (C' !! q1) eqn:Hn1; [done|]. exfalso.
      assert (cleared (cache st) C' (owner q)) as Hx by (exists q1; eauto).
      rewrite (Hcl _ Hx q eq_refl) in Hq. done. }
    destruct (Hflag _ _ _ _ Hq0 Hcq Hr) as [w Hw]; [by exists q'|].
    destruct (Hkeep (vq (owner q)) w (vq_owner _) Hw) as [w' Hw'].
    destruct (Htrack _ _ _ _ Hq0 Hcq Hr q' Hin) as [Ho|[Ho|[[Ho Ha]|Ho]]].
    + rewrite (Hcl _ Hcl' q) in Hq; done.
    + destruct (Hdep _ Hcl') as [Hall|[_ Hall]].
      * specialize (Hall q (deps_in _ _ Ho)). congruence.
      * specialize (Hall _ Ho). congruence.
    + destruct (Hdep _ Hcl') as [Hall|[Hw1 _]]; [|congruence].
      specialize (Hall q Ha). congruence.
    + rewrite (rec_invalidate_frame _ _ _ _ q' Hrec) in Hn; [congruence| |done].
      intros Ho'. by rewrite Ho' in Ho.
Qed.
End Invalidation.

(** ** Changing the user values under a cache *)

(** Programs that behave alike on the answers of [R]. *)
Inductive sim {A : Type} (R : Q → V → Prop) : pr A → pr A → Prop :=
  | sim_ret a : sim R (Ret a) (Ret a)
  | sim_get q k k' : (∀ v, R q v → sim R (k v) (k' v)) → sim R (Get q k) (Get q k')
  | sim_setw i b k k' : sim R k k' → sim R (SetW i b k) (SetW i b k')
  | sim_warn m m' k k' : sim R k k' → sim R (Warn m k) (Warn m' k')
  | sim_fail e e' : sim R (Fail e) (Fail e').

Lemma sim_runs {A} R (p p' : pr A) a rs es : sim R p p' → runs R p a rs es → runs R p' a rs es.
Proof.
  intros Hs Hr. revert p' Hs.
  induction Hr as [a|q k v a rs es Hq Hr IH|i b k a rs es Hr IH|m k a rs es Hr IH];
    intros p' Hs; inversion Hs; subst.
  - apply runs_ret.
  - eapply runs_get; [done|]. auto.
  - apply runs_setw. auto.
  - apply runs_warn. auto.
Qed.

Lemma sim_refl {A} R (p : pr A) : sim R p p.
Proof.
  induction p as [A a|A q k IH|A i b k IH|A m IHm k IH|A e]; constructor; auto.
Qed.

Lemma sim_bind {A B} R (p p' : pr A) (f f' : A → pr B) :
  sim R p p' → (∀ a, sim R (f a) (f' a)) → sim R (prog_bind p f) (prog_bind p' f').
Proof. intros Hp Hf. induction Hp; cbn; try constructor; auto. Qed.

(** If the new user values change no run of a cached query, the cache stays
    coherent for them. *)
Lemma switch_coherent u u' st :
  coherent u st →
  (∀ q v, cached st q v → const q = None → sim (cached st) (body u q) (body u' q)) →
  coherent u' st.
Proof.
  intros [Hc He Hj] Hsim.
  assert (∀ n q v, pure u n q = Ok v → cached st q v → evals u' q v) as Hpure.
  { induction n as [|n IH]; [done|]. intros q v. cbn.
    destruct (const q) as [w|] eqn:Hq.
    { intros [= ->] _. exists 1. cbn. by rewrite Hq. }
    rewrite run_runs. intros (rs & es & Hr) Hcq.
    destruct (Hj q v Hcq Hq) as (rs' & es' & Hr' & _).
    assert (∀ q v v', pure u n q = Ok v → cached st q v' → v = v') as Hfun.
    { intros q' v1 v2 H1 H2. apply (evals_fun u q'); [by exists n|by apply He]. }
    destruct (runs_det _ _ _ _ _ _ _ _ _ Hfun Hr Hr') as (_ & <- & <-).
    eapply evals_step; [done|].
    eapply runs_mono; [eapply sim_runs; [by apply (Hsim q v)|done]|].
    intros q' v' Hin Hq'.
    destruct (runs_reads _ _ _ _ _ _ Hr Hin) as [v1 Hv1].
    rewrite <- (Hfun _ _ _ Hv1 Hq'). apply IH; [done|].
    by rewrite (Hfun _ _ _ Hv1 Hq'). }
  split.
  - done.
  - intros q v Hq. destruct (He _ _ Hq) as [n Hn]. eauto.
  - intros q v Hq Hcq. destruct (Hj q v Hq Hcq) as (rs & es & Hr & Hok).
    exists rs, es. split; [|done]. eapply sim_runs; eauto.
Qed.
End Incr.
