(* ===== verification/Objects.v ===== *)
(** * The objects of a configuration: Symbol, Choice, MenuNode, Kconfig

    Objects live in stores indexed by identity (a number); a reference held by
    an attribute is such a number.  The attributes that no longer change once the
    Kconfig files are loaded are fields of the records below.  The attributes
    that change afterwards are maps from objects: the user values here
    ([ustate]), the [_cached_*] attributes and [_write_to_conf] in the [istate]
    of Incr.v.  [_visited] and [_was_set] are arguments of the algorithms that
    use them. *)

From S2P Require Import Prelude PyStr Kconst Expr Escape.
From stdpp Require Import options.

(** [MenuNode.item]: a symbol, a choice, [MENU], [COMMENT], or [None] for an
    'if' node. *)
Inductive nitem : Type :=
  | NSym (s : nat)
  | NCho (c : nat)
  | NMenu
  | NComment
  | NIf.

#[global] Instance nitem_eq_dec : EqDecision nitem.
Proof. solve_decision. Defined.

(** class Symbol *)
Record symbol : Type := Symbol {
  s_name : string;
  s_is_constant : bool;
  s_orig_type : ktype;
  s_nodes : list nat;
  s_defaults : list (expr * expr);
  s_selects : list (nat * expr);
  s_implies : list (nat * expr);
  s_ranges : list (nat * nat * expr);
  s_configdefaults : list (nat * list (expr * expr));
  s_rev_dep : expr;
  s_weak_rev_dep : expr;
  s_direct_dep : expr;
  s_choice : option nat;
  s_env_var : option string;
  s_is_allnoconfig_y : bool;
  s_dependents : list item
}.

(** class Choice *)
Record choice : Type := Choice {
  c_name : option string;
  c_orig_type : ktype;
  c_nodes : list nat;
  c_syms : list nat;
  c_defaults : list (expr * expr);
  c_direct_dep : expr;
  c_is_optional : bool;
  c_dependents : list item
}.

(** class MenuNode: [next], [list] and [parent] are the links of the menu tree *)
Record menu_node : Type := MenuNode {
  n_item : nitem;
  n_next : option nat;
  n_list : option nat;
  n_parent : option nat;
  n_prompt : option (string * expr);
  n_dep : expr;
  n_visibility : expr;
  n_help : option string;
  n_is_menuconfig : bool;
  n_is_configdefault : bool;
  n_filename : string;
  n_linenr : Z;
  n_include_path : list (string * Z);
  n_defaults : list (expr * expr);
  n_selects : list (nat * expr);
  n_implies : list (nat * expr);
  n_ranges : list (nat * nat * expr)
}.

(** Dummies for references outside the stores, which the program never has. *)
Definition dummy_symbol : symbol :=
  Symbol "" true UNKNOWN [] [] [] [] [] [] (ESym 0) (ESym 0) (ESym 0) None None false [].
Definition dummy_choice : choice := Choice None UNKNOWN [] [] [] (ESym 0) false [].
Definition dummy_node : menu_node :=
  MenuNode NIf None None None None (ESym 0) (ESym 0) None false false "" 0 [] [] [] [] [].

#[global] Instance symbol_inhabited : Inhabited symbol := populate dummy_symbol.
#[global] Instance choice_inhabited : Inhabited choice := populate dummy_choice.
#[global] Instance node_inhabited : Inhabited menu_node := populate dummy_node.

(** ** Attribute assignment *)
Definition set_s_orig_type (x : ktype) (s : symbol) : symbol :=
  Symbol (s_name s) (s_is_constant s) x (s_nodes s) (s_defaults s) (s_selects s)
    (s_implies s) (s_ranges s) (s_configdefaults s) (s_rev_dep s) (s_weak_rev_dep s)
    (s_direct_dep s) (s_choice s) (s_env_var s) (s_is_allnoconfig_y s) (s_dependents s).
Definition set_s_nodes (x : list nat) (s : symbol) : symbol :=
  Symbol (s_name s) (s_is_constant s) (s_orig_type s) x (s_defaults s) (s_selects s)
    (s_implies s) (s_ranges s) (s_configdefaults s) (s_rev_dep s) (s_weak_rev_dep s)
    (s_direct_dep s) (s_choice s) (s_env_var s) (s_is_allnoconfig_y s) (s_dependents s).
Definition set_s_defaults (x : list (expr * expr)) (s : symbol) : symbol :=
  Symbol (s_name s) (s_is_constant s) (s_orig_type s) (s_nodes s) x (s_selects s)
    (s_implies s) (s_ranges s) (s_configdefaults s) (s_rev_dep s) (s_weak_rev_dep s)
    (s_direct_dep s) (s_choice s) (s_env_var s) (s_is_allnoconfig_y s) (s_dependents s).
Definition set_s_selects (x : list (nat * expr)) (s : symbol) : symbol :=
  Symbol (s_name s) (s_is_constant s) (s_orig_type s) (s_nodes s) (s_defaults s) x
    (s_implies s) (s_ranges s) (s_configdefaults s) (s_rev_dep s) (s_weak_rev_dep s)
    (s_direct_dep s) (s_choice s) (s_env_var s) (s_is_allnoconfig_y s) (s_dependents s).
Definition set_s_implies (x : list (nat * expr)) (s : symbol) : symbol :=
  Symbol (s_name s) (s_is_constant s) (s_orig_type s) (s_nodes s) (s_defaults s)
    (s_selects s) x (s_ranges s) (s_configdefaults s) (s_rev_dep s) (s_weak_rev_dep s)
    (s_direct_dep s) (s_choice s) (s_env_var s) (s_is_allnoconfig_y s) (s_dependents s).
Definition set_s_ranges (x : list (nat * nat * expr)) (s : symbol) : symbol :=
  Symbol (s_name s) (s_is_constant s) (s_orig_type s) (s_nodes s) (s_defaults s)
    (s_selects s) (s_implies s) x (s_configdefaults s) (s_rev_dep s) (s_weak_rev_dep s)
    (s_direct_dep s) (s_choice s) (s_env_var s) (s_is_allnoconfig_y s) (s_dependents s).
Definition set_s_configdefaults (x : list (nat * list (expr * expr))) (s : symbol) : symbol :=
  Symbol (s_name s) (s_is_constant s) (s_orig_type s) (s_nodes s) (s_defaults s)
    (s_selects s) (s_implies s) (s_ranges s) x (s_rev_dep s) (s_weak_rev_dep s)
    (s_direct_dep s) (s_choice s) (s_env_var s) (s_is_allnoconfig_y s) (s_dependents s).
Definition set_s_rev_dep (x : expr) (s : symbol) : symbol :=
  Symbol (s_name s) (s_is_constant s) (s_orig_type s) (s_nodes s) (s_defaults s)
    (s_selects s) (s_implies s) (s_ranges s) (s_configdefaults s) x (s_weak_rev_dep s)
    (s_direct_dep s) (s_choice s) (s_env_var s) (s_is_allnoconfig_y s) (s_dependents s).
Definition set_s_weak_rev_dep (x : expr) (s : symbol) : symbol :=
  Symbol (s_name s) (s_is_constant s) (s_orig_type s) (s_nodes s) (s_defaults s)
    (s_selects s) (s_implies s) (s_ranges s) (s_configdefaults s) (s_rev_dep s) x
    (s_direct_dep s) (s_choice s) (s_env_var s) (s_is_allnoconfig_y s) (s_dependents s).
Definition set_s_direct_dep (x : expr) (s : symbol) : symbol :=
  Symbol (s_name s) (s_is_constant s) (s_orig_type s) (s_nodes s) (s_defaults s)
    (s_selects s) (s_implies s) (s_ranges s) (s_configdefaults s) (s_rev_dep s)
    (s_weak_rev_dep s) x (s_choice s) (s_env_var s) (s_is_allnoconfig_y s)
    (s_dependents s).
Definition set_s_choice (x : option nat) (s : symbol) : symbol :=
  Symbol (s_name s) (s_is_constant s) (s_orig_type s) (s_nodes s) (s_defaults s)
    (s_selects s) (s_implies s) (s_ranges s) (s_configdefaults s) (s_rev_dep s)
    (s_weak_rev_dep s) (s_direct_dep s) x (s_env_var s) (s_is_allnoconfig_y s)
    (s_dependents s).
Definition set_s_env_var (x : option string) (s : symbol) : symbol :=
  Symbol (s_name s) (s_is_constant s) (s_orig_type s) (s_nodes s) (s_defaults s)
    (s_selects s) (s_implies s) (s_ranges s) (s_configdefaults s) (s_rev_dep s)
    (s_weak_rev_dep s) (s_direct_dep s) (s_choice s) x (s_is_allnoconfig_y s)
    (s_dependents s).
Definition set_s_is_allnoconfig_y (x : bool) (s : symbol) : symbol :=
  Symbol (s_name s) (s_is_constant s) (s_orig_type s) (s_nodes s) (s_defaults s)
    (s_selects s) (s_implies s) (s_ranges s) (s_configdefaults s) (s_rev_dep s)
    (s_weak_rev_dep s) (s_direct_dep s) (s_choice s) (s_env_var s) x (s_dependents s).
Definition set_s_dependents (x : list item) (s : symbol) : symbol :=
  Symbol (s_name s) (s_is_constant s) (s_orig_type s) (s_nodes s) (s_defaults s)
    (s_selects s) (s_implies s) (s_ranges s) (s_configdefaults s) (s_rev_dep s)
    (s_weak_rev_dep s) (s_direct_dep s) (s_choice s) (s_env_var s)
    (s_is_allnoconfig_y s) x.

Definition set_c_orig_type (x : ktype) (c : choice) : choice :=
  Choice (c_name c) x (c_nodes c) (c_syms c) (c_defaults c) (c_direct_dep c)
    (c_is_optional c) (c_dependents c).
Definition set_c_nodes (x : list nat) (c : choice) : choice :=
  Choice (c_name c) (c_orig_type c) x (c_syms c) (c_defaults c) (c_direct_dep c)
    (c_is_optional c) (c_dependents c).
Definition set_c_syms (x : list nat) (c : choice) : choice :=
  Choice (c_name c) (c_orig_type c) (c_nodes c) x (c_defaults c) (c_direct_dep c)
    (c_is_optional c) (c_dependents c).
Definition set_c_defaults (x : list (expr * expr)) (c : choice) : choice :=
  Choice (c_name c) (c_orig_type c) (c_nodes c) (c_syms c) x (c_direct_dep c)
    (c_is_optional c) (c_dependents c).
Definition set_c_direct_dep (x : expr) (c : choice) : choice :=
  Choice (c_name c) (c_orig_type c) (c_nodes c) (c_syms c) (c_defaults c) x
    (c_is_optional c) (c_dependents c).
Definition set_c_is_optional (x : bool) (c : choice) : choice :=
  Choice (c_name c) (c_orig_type c) (c_nodes c) (c_syms c) (c_defaults c)
    (c_direct_dep c) x (c_dependents c).
Definition set_c_dependents (x : list item) (c : choice) : choice :=
  Choice (c_name c) (c_orig_type c) (c_nodes c) (c_syms c) (c_defaults c)
    (c_direct_dep c) (c_is_optional c) x.

Definition set_n_next (x : option nat) (n : menu_node) : menu_node :=
  MenuNode (n_item n) x (n_list n) (n_parent n) (n_prompt n) (n_dep n) (n_visibility n)
    (n_help n) (n_is_menuconfig n) (n_is_configdefault n) (n_filename n) (n_linenr n)
    (n_include_path n) (n_defaults n) (n_selects n) (n_implies n) (n_ranges n).
Definition set_n_list (x : option nat) (n : menu_node) : menu_node :=
  MenuNode (n_item n) (n_next n) x (n_parent n) (n_prompt n) (n_dep n) (n_visibility n)
    (n_help n) (n_is_menuconfig n) (n_is_configdefault n) (n_filename n) (n_linenr n)
    (n_include_path n) (n_defaults n) (n_selects n) (n_implies n) (n_ranges n).
Definition set_n_parent (x : option nat) (n : menu_node) : menu_node :=
  MenuNode (n_item n) (n_next n) (n_list n) x (n_prompt n) (n_dep n) (n_visibility n)
    (n_help n) (n_is_menuconfig n) (n_is_configdefault n) (n_filename n) (n_linenr n)
    (n_include_path n) (n_defaults n) (n_selects n) (n_implies n) (n_ranges n).
Definition set_n_prompt (x : option (string * expr)) (n : menu_node) : menu_node :=
  MenuNode (n_item n) (n_next n) (n_list n) (n_parent n) x (n_dep n) (n_visibility n)
    (n_help n) (n_is_menuconfig n) (n_is_configdefault n) (n_filename n) (n_linenr n)
    (n_include_path n) (n_defaults n) (n_selects n) (n_implies n) (n_ranges n).
Definition set_n_dep (x : expr) (n : menu_node) : menu_node :=
  MenuNode (n_item n) (n_next n) (n_list n) (n_parent n) (n_prompt n) x (n_visibility n)
    (n_help n) (n_is_menuconfig n) (n_is_configdefault n) (n_filename n) (n_linenr n)
    (n_include_path n) (n_defaults n) (n_selects n) (n_implies n) (n_ranges n).
Definition set_n_visibility (x : expr) (n : menu_node) : menu_node :=
  MenuNode (n_item n) (n_next n) (n_list n) (n_parent n) (n_prompt n) (n_dep n) x
    (n_help n) (n_is_menuconfig n) (n_is_configdefault n) (n_filename n) (n_linenr n)
    (n_include_path n) (n_defaults n) (n_selects n) (n_implies n) (n_ranges n).
Definition set_n_help (x : option string) (n : menu_node) : menu_node :=
  MenuNode (n_item n) (n_next n) (n_list n) (n_parent n) (n_prompt n) (n_dep n)
    (n_visibility n) x (n_is_menuconfig n) (n_is_configdefault n) (n_filename n)
    (n_linenr n) (n_include_path n) (n_defaults n) (n_selects n) (n_implies n)
    (n_ranges n).
Definition set_n_defaults (x : list (expr * expr)) (n : menu_node) : menu_node :=
  MenuNode (n_item n) (n_next n) (n_list n) (n_parent n) (n_prompt n) (n_dep n)
    (n_visibility n) (n_help n) (n_is_menuconfig n) (n_is_configdefault n)
    (n_filename n) (n_linenr n) (n_include_path n) x (n_selects n) (n_implies n)
    (n_ranges n).
Definition set_n_selects (x : list (nat * expr)) (n : menu_node) : menu_node :=
  MenuNode (n_item n) (n_next n) (n_list n) (n_parent n) (n_prompt n) (n_dep n)
    (n_visibility n) (n_help n) (n_is_menuconfig n) (n_is_configdefault n)
    (n_filename n) (n_linenr n) (n_include_path n) (n_defaults n) x (n_implies n)
    (n_ranges n).
Definition set_n_implies (x : list (nat * expr)) (n : menu_node) : menu_node :=
  MenuNode (n_item n) (n_next n) (n_list n) (n_parent n) (n_prompt n) (n_dep n)
    (n_visibility n) (n_help n) (n_is_menuconfig n) (n_is_configdefault n)
    (n_filename n) (n_linenr n) (n_include_path n) (n_defaults n) (n_selects n) x
    (n_ranges n).
Definition set_n_ranges (x : list (nat * nat * expr)) (n : menu_node) : menu_node :=
  MenuNode (n_item n) (n_next n) (n_list n) (n_parent n) (n_prompt n) (n_dep n)
    (n_visibility n) (n_help n) (n_is_menuconfig n) (n_is_configdefault n)
    (n_filename n) (n_linenr n) (n_include_path n) (n_defaults n) (n_selects n)
    (n_implies n) x.

(** class Kconfig, without the parsing state (Parser.v) and the warning state ([wlog]) *)
Record kconfig : Type := Kconfig {
  k_syms_store : gmap nat symbol;
  k_choices_store : gmap nat choice;
  k_nodes_store : gmap nat menu_node;
  k_syms : list (string * nat);
  k_const_syms : list (string * nat);
  k_named_choices : list (string * nat);
  k_defined_syms : list nat;
  k_unique_defined_syms : list nat;
  k_choices : list nat;
  k_unique_choices : list nat;
  k_menus : list nat;
  k_comments : list nat;
  k_sym_n : nat;
  k_sym_m : nat;
  k_sym_y : nat;
  k_modules : nat;
  k_defconfig_list : option nitem;
  k_top_node : nat;
  k_config_prefix : string;
  k_config_header : string;
  k_header_header : string;
  k_srctree : string
}.

Definition set_k_syms_store (x : gmap nat symbol) (k : kconfig) : kconfig :=
  Kconfig x (k_choices_store k) (k_nodes_store k) (k_syms k) (k_const_syms k)
    (k_named_choices k) (k_defined_syms k) (k_unique_defined_syms k) (k_choices k)
    (k_unique_choices k) (k_menus k) (k_comments k) (k_sym_n k) (k_sym_m k) (k_sym_y k)
    (k_modules k) (k_defconfig_list k) (k_top_node k) (k_config_prefix k)
    (k_config_header k) (k_header_header k) (k_srctree k).
Definition set_k_choices_store (x : gmap nat choice) (k : kconfig) : kconfig :=
  Kconfig (k_syms_store k) x (k_nodes_store k) (k_syms k) (k_const_syms k)
    (k_named_choices k) (k_defined_syms k) (k_unique_defined_syms k) (k_choices k)
    (k_unique_choices k) (k_menus k) (k_comments k) (k_sym_n k) (k_sym_m k) (k_sym_y k)
    (k_modules k) (k_defconfig_list k) (k_top_node k) (k_config_prefix k)
    (k_config_header k) (k_header_header k) (k_srctree k).
Definition set_k_nodes_store (x : gmap nat menu_node) (k : kconfig) : kconfig :=
  Kconfig (k_syms_store k) (k_choices_store k) x (k_syms k) (k_const_syms k)
    (k_named_choices k) (k_defined_syms k) (k_unique_defined_syms k) (k_choices k)
    (k_unique_choices k) (k_menus k) (k_comments k) (k_sym_n k) (k_sym_m k) (k_sym_y k)
    (k_modules k) (k_defconfig_list k) (k_top_node k) (k_config_prefix k)
    (k_config_header k) (k_header_header k) (k_srctree k).
Definition set_k_syms (x : list (string * nat)) (k : kconfig) : kconfig :=
  Kconfig (k_syms_store k) (k_choices_store k) (k_nodes_store k) x (k_const_syms k)
    (k_named_choices k) (k_defined_syms k) (k_unique_defined_syms k) (k_choices k)
    (k_unique_choices k) (k_menus k) (k_comments k) (k_sym_n k) (k_sym_m k) (k_sym_y k)
    (k_modules k) (k_defconfig_list k) (k_top_node k) (k_config_prefix k)
    (k_config_header k) (k_header_header k) (k_srctree k).
Definition set_k_const_syms (x : list (string * nat)) (k : kconfig) : kconfig :=
  Kconfig (k_syms_store k) (k_choices_store k) (k_nodes_store k) (k_syms k) x
    (k_named_choices k) (k_defined_syms k) (k_unique_defined_syms k) (k_choices k)
    (k_unique_choices k) (k_menus k) (k_comments k) (k_sym_n k) (k_sym_m k) (k_sym_y k)
    (k_modules k) (k_defconfig_list k) (k_top_node k) (k_config_prefix k)
    (k_config_header k) (k_header_header k) (k_srctree k).
Definition set_k_named_choices (x : list (string * nat)) (k : kconfig) : kconfig :=
  Kconfig (k_syms_store k) (k_choices_store k) (k_nodes_store k) (k_syms k)
    (k_const_syms k) x (k_defined_syms k) (k_unique_defined_syms k) (k_choices k)
    (k_unique_choices k) (k_menus k) (k_comments k) (k_sym_n k) (k_sym_m k) (k_sym_y k)
    (k_modules k) (k_defconfig_list k) (k_top_node k) (k_config_prefix k)
    (k_config_header k) (k_header_header k) (k_srctree k).
Definition set_k_defined_syms (x : list nat) (k : kconfig) : kconfig :=
  Kconfig (k_syms_store k) (k_choices_store k) (k_nodes_store k) (k_syms k)
    (k_const_syms k) (k_named_choices k) x (k_unique_defined_syms k) (k_choices k)
    (k_unique_choices k) (k_menus k) (k_comments k) (k_sym_n k) (k_sym_m k) (k_sym_y k)
    (k_modules k) (k_defconfig_list k) (k_top_node k) (k_config_prefix k)
    (k_config_header k) (k_header_header k) (k_srctree k).
Definition set_k_unique_defined_syms (x : list nat) (k : kconfig) : kconfig :=
  Kconfig (k_syms_store k) (k_choices_store k) (k_nodes_store k) (k_syms k)
    (k_const_syms k) (k_named_choices k) (k_defined_syms k) x (k_choices k)
    (k_unique_choices k) (k_menus k) (k_comments k) (k_sym_n k) (k_sym_m k) (k_sym_y k)
    (k_modules k) (k_defconfig_list k) (k_top_node k) (k_config_prefix k)
    (k_config_header k) (k_header_header k) (k_srctree k).
Definition set_k_choices (x : list nat) (k : kconfig) : kconfig :=
  Kconfig (k_syms_store k) (k_choices_store k) (k_nodes_store k) (k_syms k)
    (k_const_syms k) (k_named_choices k) (k_defined_syms k) (k_unique_defined_syms k) x
    (k_unique_choices k) (k_menus k) (k_comments k) (k_sym_n k) (k_sym_m k) (k_sym_y k)
    (k_modules k) (k_defconfig_list k) (k_top_node k) (k_config_prefix k)
    (k_config_header k) (k_header_header k) (k_srctree k).
Definition set_k_unique_choices (x : list nat) (k : kconfig) : kconfig :=
  Kconfig (k_syms_store k) (k_choices_store k) (k_nodes_store k) (k_syms k)
    (k_const_syms k) (k_named_choices k) (k_defined_syms k) (k_unique_defined_syms k)
    (k_choices k) x (k_menus k) (k_comments k) (k_sym_n k) (k_sym_m k) (k_sym_y k)
    (k_modules k) (k_defconfig_list k) (k_top_node k) (k_config_prefix k)
    (k_config_header k) (k_header_header k) (k_srctree k).
Definition set_k_menus (x : list nat) (k : kconfig) : kconfig :=
  Kconfig (k_syms_store k) (k_choices_store k) (k_nodes_store k) (k_syms k)
    (k_const_syms k) (k_named_choices k) (k_defined_syms k) (k_unique_defined_syms k)
    (k_choices k) (k_unique_choices k) x (k_comments k) (k_sym_n k) (k_sym_m k)
    (k_sym_y k) (k_modules k) (k_defconfig_list k) (k_top_node k) (k_config_prefix k)
    (k_config_header k) (k_header_header k) (k_srctree k).
Definition set_k_comments (x : list nat) (k : kconfig) : kconfig :=
  Kconfig (k_syms_store k) (k_choices_store k) (k_nodes_store k) (k_syms k)
    (k_const_syms k) (k_named_choices k) (k_defined_syms k) (k_unique_defined_syms k)
    (k_choices k) (k_unique_choices k) (k_menus k) x (k_sym_n k) (k_sym_m k) (k_sym_y k)
    (k_modules k) (k_defconfig_list k) (k_top_node k) (k_config_prefix k)
    (k_config_header k) (k_header_header k) (k_srctree k).
Definition set_k_defconfig_list (x : option nitem) (k : kconfig) : kconfig :=
  Kconfig (k_syms_store k) (k_choices_store k) (k_nodes_store k) (k_syms k)
    (k_const_syms k) (k_named_choices k) (k_defined_syms k) (k_unique_defined_syms k)
    (k_choices k) (k_unique_choices k) (k_menus k) (k_comments k) (k_sym_n k)
    (k_sym_m k) (k_sym_y k) (k_modules k) x (k_top_node k) (k_config_prefix k)
    (k_config_header k) (k_header_header k) (k_srctree k).

(** ** Access by identity *)
Section Access.
Variable K : kconfig.

Definition sym (s : nat) : symbol := k_syms_store K !!! s.
Definition cho (c : nat) : choice := k_choices_store K !!! c.
Definition nod (n : nat) : menu_node := k_nodes_store K !!! n.

(** Attributes Symbol and Choice have in common. *)
Definition orig_type (i : item) : ktype :=
  match i with ISym s => s_orig_type (sym s) | ICho c => c_orig_type (cho c) end.
Definition nodes (i : item) : list nat :=
  match i with ISym s => s_nodes (sym s) | ICho c => c_nodes (cho c) end.
Definition dependents (i : item) : list item :=
  match i with ISym s => s_dependents (sym s) | ICho c => c_dependents (cho c) end.
Definition direct_dep (i : item) : expr :=
  match i with ISym s => s_direct_dep (sym s) | ICho c => c_direct_dep (cho c) end.
(** Choices carry [is_constant = False]. *)
Definition is_constant (i : item) : bool :=
  match i with ISym s => s_is_constant (sym s) | ICho c => false end.

(** The conditions of the prompts of a symbol or choice, in node order. *)
Definition prompt_conds (i : item) : list expr :=
  omap (λ n, snd <$> n_prompt (nod n)) (nodes i).

(** [standard_sc_expr_str] *)
Definition standard_sc_expr_str (i : item) : string :=
  match i with
  | ISym s =>
      if s_is_constant (sym s) && negb (bool_decide (is_Some (STR_TO_TRI (s_name (sym s)))))
      then dquote +:+ escape (s_name (sym s)) +:+ dquote
      else s_name (sym s)
  | ICho c =>
      match c_name (cho c) with
      | Some n => if bool_decide (n = "") then "<choice>" else "<choice " +:+ n +:+ ">"
      | None => "<choice>"
      end
  end.

(** [_locs] *)
Definition locs (i : item) : string :=
  match nodes i with
  | [] => "(undefined)"
  | ns => "(defined at "
            +:+ sjoin ", " ((λ n, n_filename (nod n) +:+ ":" +:+ py_str (n_linenr (nod n))) <$> ns)
            +:+ ")"
  end.

(** [Symbol.name_and_loc] and [Choice.name_and_loc] *)
Definition name_and_loc (i : item) : string :=
  match i with
  | ISym s => s_name (sym s) +:+ " " +:+ locs i
  | ICho c => standard_sc_expr_str i +:+ " " +:+ locs i
  end.

(** The symbols and choices [_invalidate_all] goes through. *)
Definition all_items : list item :=
  (ISym <$> k_unique_defined_syms K) ++ (ICho <$> k_unique_choices K).
End Access.

(** ** User values *)

(** A user value is a tristate for bool/tristate symbols, a string otherwise. *)
Inductive uval : Type := UTri (v : Z) | UStr (s : string).

#[global] Instance uval_eq_dec : EqDecision uval.
Proof. solve_decision. Defined.

(** [Symbol.user_value], [Choice.user_value] and [Choice.user_selection]; no
    entry stands for [None]. *)
Record ustate : Type := UState {
  user_value : gmap nat uval;
  choice_user_value : gmap nat Z;
  user_selection : gmap nat nat
}.
Definition no_user_values : ustate := UState ∅ ∅ ∅.
