(* ===== verification/ParseState.v ===== *)
(** * The state of a Kconfig object while it reads Kconfig files

    The attributes of class Kconfig that the tokenizer, the preprocessor and the
    parser use, the monad their methods run in, and the world they run in: files,
    environment, the shell, and the preprocessor functions that kconfiglib
    imports from a module named by the environment. *)

From S2P Require Import Prelude PyStr PyText Kconst Expr Incr Objects.
From stdpp Require Import options.

(** class Variable; [value] is not set while the first assignment to the variable
    is being expanded, and [_n_expansions] counts the expansions in progress. *)
Record variable : Type := PVariable {
  v_value : option string;
  v_is_recursive : bool;
  v_n_expansions : nat
}.

(** A token is a keyword or operator, a Symbol, a string, or [None]. *)
Inductive token : Type :=
  | TKw (k : kw)
  | TSymbol (s : nat)
  | TStr (s : string)
  | TNone.

#[global] Instance token_eq_dec : EqDecision token.
Proof. solve_decision. Defined.

(** What can go wrong when a text is written to a file: the file cannot be opened,
    or it is emptied and only the beginning of the text gets into it. *)
Inductive fault : Type := Refused (strerror : string) | Cut_short (n : nat) (strerror : string).

(** What the program asks the operating system.  [w_file] gives the text of a
    file that can be opened and [w_errno] the error text otherwise; [w_glob] is
    the list [iglob] yields; [w_shell] the output and error streams of a command;
    [w_functions] the user-defined preprocessor functions, with the bounds on the
    number of arguments.  [w_write] says what happens when a text is written to a
    path and [w_replace] whether a file can be moved to another name, given the
    files there are. *)
Record world : Type := World {
  w_env : string → option string;
  w_file : string → option string;
  w_errno : string → string;
  w_glob : string → list string;
  w_shell : string → string * string;
  w_realpath : string → string;
  w_uname_release : string;
  w_functions : string → option (nat * option nat * (list string → outcome string));
  w_write : gmap string string → string → string → option fault;
  w_replace : gmap string string → string → string → bool
}.

Record pstate : Type := PState {
  p_k : kconfig;
  p_fresh : nat;
  p_parsing : bool;
  p_line : string;
  p_tokens : list token;
  p_tokens_i : nat;
  p_reuse : bool;
  p_filename : option string;
  p_linenr : Z;
  p_include_path : list (string * Z);
  p_readline : list string;
  p_filestack : list (list (string * Z) * list string);
  p_filenames : list string;
  p_env_vars : list string;
  p_variables : list (string * variable);
  p_log : wlog;
  p_stdout : list string
}.

Definition set_p_k (x : kconfig) (p : pstate) : pstate :=
  PState
    x (p_fresh p) (p_parsing p) (p_line p) (p_tokens p) (p_tokens_i p) (p_reuse
    p) (p_filename p) (p_linenr p) (p_include_path p) (p_readline p)
    (p_filestack p) (p_filenames p) (p_env_vars p) (p_variables p) (p_log p)
    (p_stdout p).
Definition set_p_fresh (x : nat) (p : pstate) : pstate :=
  PState
    (p_k p) x (p_parsing p) (p_line p) (p_tokens p) (p_tokens_i p) (p_reuse p)
    (p_filename p) (p_linenr p) (p_include_path p) (p_readline p) (p_filestack
    p) (p_filenames p) (p_env_vars p) (p_variables p) (p_log p) (p_stdout p).
Definition set_p_parsing (x : bool) (p : pstate) : pstate :=
  PState
    (p_k p) (p_fresh p) x (p_line p) (p_tokens p) (p_tokens_i p) (p_reuse p)
    (p_filename p) (p_linenr p) (p_include_path p) (p_readline p) (p_filestack
    p) (p_filenames p) (p_env_vars p) (p_variables p) (p_log p) (p_stdout p).
Definition set_p_line (x : string) (p : pstate) : pstate :=
  PState
    (p_k p) (p_fresh p) (p_parsing p) x (p_tokens p) (p_tokens_i p) (p_reuse p)
    (p_filename p) (p_linenr p) (p_include_path p) (p_readline p) (p_filestack
    p) (p_filenames p) (p_env_vars p) (p_variables p) (p_log p) (p_stdout p).
Definition set_p_tokens (x : list token) (p : pstate) : pstate :=
  PState
    (p_k p) (p_fresh p) (p_parsing p) (p_line p) x (p_tokens_i p) (p_reuse p)
    (p_filename p) (p_linenr p) (p_include_path p) (p_readline p) (p_filestack
    p) (p_filenames p) (p_env_vars p) (p_variables p) (p_log p) (p_stdout p).
Definition set_p_tokens_i (x : nat) (p : pstate) : pstate :=
  PState
    (p_k p) (p_fresh p) (p_parsing p) (p_line p) (p_tokens p) x (p_reuse p)
    (p_filename p) (p_linenr p) (p_include_path p) (p_readline p) (p_filestack
    p) (p_filenames p) (p_env_vars p) (p_variables p) (p_log p) (p_stdout p).
Definition set_p_reuse (x : bool) (p : pstate) : pstate :=
  PState
    (p_k p) (p_fresh p) (p_parsing p) (p_line p) (p_tokens p) (p_tokens_i p) x
    (p_filename p) (p_linenr p) (p_include_path p) (p_readline p) (p_filestack
    p) (p_filenames p) (p_env_vars p) (p_variables p) (p_log p) (p_stdout p).
Definition set_p_filename (x : option string) (p : pstate) : pstate :=
  PState
    (p_k p) (p_fresh p) (p_parsing p) (p_line p) (p_tokens p) (p_tokens_i p)
    (p_reuse p) x (p_linenr p) (p_include_path p) (p_readline p) (p_filestack p)
    (p_filenames p) (p_env_vars p) (p_variables p) (p_log p) (p_stdout p).
Definition set_p_linenr (x : Z) (p : pstate) : pstate :=
  PState
    (p_k p) (p_fresh p) (p_parsing p) (p_line p) (p_tokens p) (p_tokens_i p)
    (p_reuse p) (p_filename p) x (p_include_path p) (p_readline p) (p_filestack
    p) (p_filenames p) (p_env_vars p) (p_variables p) (p_log p) (p_stdout p).
Definition set_p_include_path (x : list (string * Z)) (p : pstate) : pstate :=
  PState
    (p_k p) (p_fresh p) (p_parsing p) (p_line p) (p_tokens p) (p_tokens_i p)
    (p_reuse p) (p_filename p) (p_linenr p) x (p_readline p) (p_filestack p)
    (p_filenames p) (p_env_vars p) (p_variables p) (p_log p) (p_stdout p).
Definition set_p_readline (x : list string) (p : pstate) : pstate :=
  PState
    (p_k p) (p_fresh p) (p_parsing p) (p_line p) (p_tokens p) (p_tokens_i p)
    (p_reuse p) (p_filename p) (p_linenr p) (p_include_path p) x (p_filestack p)
    (p_filenames p) (p_env_vars p) (p_variables p) (p_log p) (p_stdout p).
Definition set_p_filestack (x : list (list (string * Z) * list string)) (p : pstate) : pstate :=
  PState
    (p_k p) (p_fresh p) (p_parsing p) (p_line p) (p_tokens p) (p_tokens_i p)
    (p_reuse p) (p_filename p) (p_linenr p) (p_include_path p) (p_readline p) x
    (p_filenames p) (p_env_vars p) (p_variables p) (p_log p) (p_stdout p).
Definition set_p_filenames (x : list string) (p : pstate) : pstate :=
  PState
    (p_k p) (p_fresh p) (p_parsing p) (p_line p) (p_tokens p) (p_tokens_i p)
    (p_reuse p) (p_filename p) (p_linenr p) (p_include_path p) (p_readline p)
    (p_filestack p) x (p_env_vars p) (p_variables p) (p_log p) (p_stdout p).
Definition set_p_env_vars (x : list string) (p : pstate) : pstate :=
  PState
    (p_k p) (p_fresh p) (p_parsing p) (p_line p) (p_tokens p) (p_tokens_i p)
    (p_reuse p) (p_filename p) (p_linenr p) (p_include_path p) (p_readline p)
    (p_filestack p) (p_filenames p) x (p_variables p) (p_log p) (p_stdout p).
Definition set_p_variables (x : list (string * variable)) (p : pstate) : pstate :=
  PState
    (p_k p) (p_fresh p) (p_parsing p) (p_line p) (p_tokens p) (p_tokens_i p)
    (p_reuse p) (p_filename p) (p_linenr p) (p_include_path p) (p_readline p)
    (p_filestack p) (p_filenames p) (p_env_vars p) x (p_log p) (p_stdout p).
Definition set_p_log (x : wlog) (p : pstate) : pstate :=
  PState
    (p_k p) (p_fresh p) (p_parsing p) (p_line p) (p_tokens p) (p_tokens_i p)
    (p_reuse p) (p_filename p) (p_linenr p) (p_include_path p) (p_readline p)
    (p_filestack p) (p_filenames p) (p_env_vars p) (p_variables p) x (p_stdout
    p).
Definition set_p_stdout (x : list string) (p : pstate) : pstate :=
  PState
    (p_k p) (p_fresh p) (p_parsing p) (p_line p) (p_tokens p) (p_tokens_i p)
    (p_reuse p) (p_filename p) (p_linenr p) (p_include_path p) (p_readline p)
    (p_filestack p) (p_filenames p) (p_env_vars p) (p_variables p) (p_log p) x.

(** ** The monad: methods read and change the object, and may raise *)
Definition M (A : Type) : Type := pstate → outcome (A * pstate).

#[global] Instance M_ret : MRet M := λ A a p, Ok (a, p).
#[global] Instance M_bind : MBind M := λ A B f m p, let! (a, p) := m p in f a p.

Definition gets {A} (f : pstate → A) : M A := λ p, Ok (f p, p).
Definition modify (f : pstate → pstate) : M () := λ p, Ok ((), f p).
Definition throw {A} (e : exn) : M A := λ _, Raise e.
Definition out_of_fuel {A} : M A := λ _, NoFuel.
Definition lift {A} (o : outcome A) : M A := λ p, let! a := o in Ok (a, p).

Lemma M_bind_Ok {A B} (m : M A) (f : A → M B) p r :
  (m ≫= f) p = Ok r ↔ ∃ a p', m p = Ok (a, p') ∧ f a p' = Ok r.
Proof.
  unfold mbind, M_bind. rewrite obind_Ok. split.
  - intros ([a p'] & ? & ?). eauto.
  - intros (a & p' & ? & ?). by exists (a, p').
Qed.

(** Changing objects. *)
Definition upd_k (f : kconfig → kconfig) : M () := modify (λ p, set_p_k (f (p_k p)) p).

Definition upd_sym (s : nat) (f : symbol → symbol) (K : kconfig) : kconfig :=
  set_k_syms_store (<[s := f (sym K s)]> (k_syms_store K)) K.
Definition upd_cho (c : nat) (f : choice → choice) (K : kconfig) : kconfig :=
  set_k_choices_store (<[c := f (cho K c)]> (k_choices_store K)) K.
Definition upd_nod (n : nat) (f : menu_node → menu_node) (K : kconfig) : kconfig :=
  set_k_nodes_store (<[n := f (nod K n)]> (k_nodes_store K)) K.

(** The identity of a new object. *)
Definition fresh : M nat := λ p, Ok (p_fresh p, set_p_fresh (S (p_fresh p)) p).

(** ** Errors and warnings with the current location *)
Definition location (p : pstate) : option (string * Z) :=
  (λ f, (f, p_linenr p)) <$> p_filename p.

(** [_parse_error] *)
Definition parse_error {A} (msg : string) : M A := λ p,
  Raise (KconfigError
    (match p_filename p with
     | Some f => f +:+ ":" +:+ py_str (p_linenr p) +:+ ": "
     | None => ""
     end +:+ "error: couldn't parse '" +:+ strip (p_line p) +:+ "': " +:+ msg)).

(** [_trailing_tokens_error] *)
Definition trailing_tokens_error {A} : M A := parse_error "extra tokens at end of line".

(** [_warn(msg)] and [_warn(msg, self.filename, self.linenr)] *)
Definition pwarn (msg : string) : M () := modify (λ p, set_p_log (log_warn msg None (p_log p)) p).
Definition pwarn_here (msg : string) : M () :=
  modify (λ p, set_p_log (log_warn msg (location p) (p_log p)) p).

(** ** Token access *)

(** [self._tokens[i]] *)
Definition token_at (i : nat) : M token := λ p,
  match nth_error (p_tokens p) i with
  | Some t => Ok (t, p)
  | None => Raise IndexError
  end.

(** [self._tokens[self._tokens_i]] *)
Definition peek : M token := λ p, token_at (p_tokens_i p) p.

Definition advance : M () := modify (λ p, set_p_tokens_i (S (p_tokens_i p)) p).

(** [token = self._tokens[self._tokens_i]; self._tokens_i += 1] *)
Definition next_token : M token := t ← peek; advance;; mret t.
