(* ===== verification/Preproc.v ===== *)
(** * The preprocessor: macro expansion and variable assignments

    [_expand_macro], [_expand_whole], [_expand_name], [_expand_str], [_fn_val],
    [_parse_assignment] and the predefined functions of kconfiglib.py.  As in the
    program a string being expanded is a pair of the string and a position, and
    an expansion replaces a part of the string and moves the position behind it.

    The mutually recursive methods take fuel, spent by every loop iteration and
    call: macros make the language Turing complete but for the limits on nested
    expansions that [_fn_val] enforces. *)

From S2P Require Import Prelude PyStr PyText Kconst Expr Incr Objects ParseState.
From stdpp Require Import options.

(** Characters of a symbol name with macros, [A-Za-z0-9_$/.-]. *)
Definition is_name_char (c : ascii) : bool :=
  is_word c || c_eqb c "$" || c_eqb c "/" || c_eqb c "." || c_eqb c "-".

(** The searches for special characters; [None] of the second component means
    "$(". *)
Definition macro_special (r : string) : bool :=
  match r with
  | String c _ => c_eqb c "(" || c_eqb c ")" || c_eqb c "," || startswith "$(" r
  | EmptyString => false
  end.

Definition string_special (r : string) : bool :=
  match r with
  | String c _ => c_eqb c dq_c || c_eqb c sq_c || c_eqb c bs_c || startswith "$(" r
  | EmptyString => false
  end.

Definition name_special (r : string) : bool :=
  match r with
  | String c _ => negb (is_name_char c) || startswith "$(" r
  | EmptyString => true
  end.

(** [list[i]] of a Python sequence, negative indices included. *)
Definition py_index {A} (l : list A) (i : Z) : option A :=
  if (0 <=? i)%Z then nth_error l (Z.to_nat i)
  else if (0 <=? Z.of_nat (length l) + i)%Z then nth_error l (Z.to_nat (Z.of_nat (length l) + i))
  else None.

Section Preproc.
Variable w : world.

(** *** Variables *)
Definition get_variable (name : string) : M (option variable) :=
  gets (λ p, dict_get name (p_variables p)).
Definition put_variable (name : string) (v : variable) : M () :=
  modify (λ p, set_p_variables (dict_set name v (p_variables p)) p).

(** [var.value] *)
Definition variable_value (v : variable) : M string :=
  match v_value v with Some s => mret s | None => throw AttributeError end.

Definition add_expansions (name : string) (f : nat → nat) : M () :=
  modify (λ p,
    match dict_get name (p_variables p) with
    | Some v =>
        set_p_variables
          (dict_set name (PVariable (v_value v) (v_is_recursive v) (f (v_n_expansions v)))
             (p_variables p)) p
    | None => p
    end).

(** *** Predefined functions: [_functions] with their argument bounds *)
Inductive builtin : Type :=
  | fn_info | fn_error_if | fn_filename | fn_lineno | fn_shell | fn_warning_if.

Definition builtin_of (name : string) : option builtin :=
  dict_get name
    [("info", fn_info); ("error-if", fn_error_if); ("filename", fn_filename);
     ("lineno", fn_lineno); ("shell", fn_shell); ("warning-if", fn_warning_if)].

Definition builtin_args (f : builtin) : nat :=
  match f with
  | fn_info | fn_shell => 1
  | fn_error_if | fn_warning_if => 2
  | fn_filename | fn_lineno => 0
  end.

Definition here (p : pstate) : string :=
  default "None" (p_filename p) +:+ ":" +:+ py_str (p_linenr p).

(** [_shell_fn]: newlines of the output become spaces. *)
Definition shell_fn (command : string) : M string :=
  let '(stdout, stderr) := w_shell w command in
  (if decide (stderr = "") then mret ()
   else pwarn_here ("'" +:+ command +:+ "' wrote to stderr: "
                      +:+ sjoin nl (splitlines stderr)));;
  mret (replace_char nl_c " " (rstrip_by (λ c, c_eqb c nl_c) (sjoin nl (splitlines stdout)))).

Definition call_builtin (f : builtin) (args : list string) : M string :=
  match f, args with
  | fn_filename, [_] => gets (λ p, default "None" (p_filename p))
  | fn_lineno, [_] => gets (λ p, py_str (p_linenr p))
  | fn_info, [_; msg] =>
      modify (λ p, set_p_stdout (p_stdout p ++ [here p +:+ ": " +:+ msg +:+ nl]) p);;
      mret ""
  | fn_warning_if, [_; cond; msg] =>
      (if decide (cond = "y") then pwarn_here msg else mret ());; mret ""
  | fn_error_if, [_; cond; msg] =>
      if decide (cond = "y")
      then λ p, Raise (KconfigError (here p +:+ ": " +:+ msg))
      else mret ""
  | fn_shell, [_; command] => shell_fn command
  | _, _ => throw TypeError
  end.

(** The test on the number of arguments, and the call. *)
Definition bad_arg_count {A} (fn : string) (min_arg : nat) (max_arg : option nat) (n : nat) : M A :=
  λ p, Raise (KconfigError
    (here p +:+ ": bad number of arguments in call to " +:+ fn +:+ ", expected "
       +:+ (if decide (max_arg = Some min_arg) then py_str (Z.of_nat min_arg)
            else match max_arg with
                 | None => py_str (Z.of_nat min_arg) +:+ " or more"
                 | Some m => py_str (Z.of_nat min_arg) +:+ "-" +:+ py_str (Z.of_nat m)
                 end)
       +:+ ", got " +:+ py_str (Z.of_nat n))).

Definition args_ok (min_arg : nat) (max_arg : option nat) (n : nat) : bool :=
  (min_arg <=? n) && match max_arg with Some m => n <=? m | None => true end.

(** Functions, then environment variables; undefined names expand to nothing. *)
Definition call_function (fn : string) (args : list string) : M string :=
  let n := length args - 1 in
  match w_functions w fn with
  | Some (min_arg, max_arg, f) =>
      if args_ok min_arg max_arg n then lift (f args) else bad_arg_count fn min_arg max_arg n
  | None =>
      match builtin_of fn with
      | Some f =>
          if args_ok (builtin_args f) (Some (builtin_args f)) n then call_builtin f args
          else bad_arg_count fn (builtin_args f) (Some (builtin_args f)) n
      | None =>
          match w_env w fn with
          | Some v =>
              modify (λ p, set_p_env_vars
                             (if mem fn (p_env_vars p) then p_env_vars p else p_env_vars p ++ [fn]) p);;
              mret v
          | None => mret ""
          end
      end
  end.

(** *** Expansion *)

(** [_expand_whole] from position [i], the loop of [_expand_macro] with its
    local variables, and [_fn_val]. *)
Fixpoint expand_whole (fuel : nat) (s : string) (i : nat) (args : list string) : M string :=
  match fuel with
  | O => out_of_fuel
  | S n =>
      match s_find "$(" s i with
      | None => mret s
      | Some i =>
          '(s, i) ← macro_loop n (s_upto i s) s (i + 2) (i + 2) [] 0 args;
          expand_whole n s i args
      end
  end
with macro_loop (fuel : nat) (res s : string) (i arg_start : nat) (new_args : list string)
       (nesting : nat) (args : list string) : M (string * nat) :=
  match fuel with
  | O => out_of_fuel
  | S n =>
      match find_at macro_special s i with
      | None => parse_error "missing end parenthesis in macro expansion"
      | Some j =>
          match s_at j s with
          | Some "("%char => macro_loop n res s (S j) arg_start new_args (S nesting) args
          | Some ")"%char =>
              match nesting with
              | S nesting => macro_loop n res s (S j) arg_start new_args nesting args
              | O =>
                  let new_args := new_args ++ [s_slice arg_start j s] in
                  v ← match py_int 10 (default "" (head new_args)) ≫= py_index args with
                      | Some a => mret a
                      | None => fn_val n new_args
                      end;
                  let res := res +:+ v in
                  mret (res +:+ s_from (S j) s, slen res)
              end
          | Some ","%char =>
              match nesting with
              | S _ => macro_loop n res s (S j) arg_start new_args nesting args
              | O => macro_loop n res s (S j) (S j) (new_args ++ [s_slice arg_start j s]) 0 args
              end
          | _ =>
              (* a nested macro call *)
              '(s, i) ← macro_loop n (s_upto j s) s (j + 2) (j + 2) [] 0 args;
              macro_loop n res s i arg_start new_args nesting args
          end
      end
  end
with fn_val (fuel : nat) (args : list string) : M string :=
  match fuel with
  | O => out_of_fuel
  | S n =>
      let fn := default "" (head args) in
      o ← get_variable fn;
      match o with
      | Some var =>
          if bool_decide (length args = 1) && negb (Nat.eqb (v_n_expansions var) 0)
          then parse_error ("Preprocessor variable " +:+ fn +:+ " recursively references itself")
          else if negb (bool_decide (length args = 1)) && (100 <? v_n_expansions var)
          then parse_error ("Preprocessor function " +:+ fn +:+ " seems stuck in infinite recursion")
          else
            add_expansions fn S;;
            value ← variable_value var;
            res ← expand_whole n value 0 args;
            add_expansions fn pred;;
            mret res
      | None => call_function fn args
      end
  end.

(** [_expand_macro] *)
Definition expand_macro (fuel : nat) (s : string) (i : nat) (args : list string)
    : M (string * nat) :=
  macro_loop fuel (s_upto i s) s (i + 2) (i + 2) [] 0 args.

(** [_expand_name_iter] *)
Fixpoint expand_name_iter (fuel : nat) (s : string) (i : nat) : M (string * nat) :=
  match fuel with
  | O => out_of_fuel
  | S n =>
      match find_at name_special s i with
      | None => throw AttributeError
      | Some j =>
          if startswith_at "$(" s j then
            '(s, i) ← expand_macro n s j [];
            expand_name_iter n s i
          else mret (s, j)
      end
  end.

(** [_expand_name] *)
Definition expand_name (fuel : nat) (s : string) (i : nat) : M (string * string * nat) :=
  '(s, end_i) ← expand_name_iter fuel s i;
  let name := s_slice i end_i s in
  if decide (strip name = "") then parse_error "macro expanded to blank string"
  else mret (name, s, end_i + span_len is_pyspace (s_from end_i s)).

(** [_expand_str]: the loop after the opening quote. *)
Fixpoint expand_str_loop (fuel : nat) (quote : ascii) (s : string) (i : nat) : M (string * nat) :=
  match fuel with
  | O => out_of_fuel
  | S n =>
      match find_at string_special s i with
      | None => parse_error "unterminated string"
      | Some j =>
          match s_at j s with
          | None => parse_error "unterminated string"
          | Some c =>
              if c_eqb c quote then mret (s, S j)
              else if c_eqb c bs_c then
                (* the character after the backslash is kept *)
                expand_str_loop n quote (s_upto j s +:+ s_from (S j) s) (S j)
              else if c_eqb c "$" then
                '(s, i) ← expand_macro n s j [];
                expand_str_loop n quote s i
              else expand_str_loop n quote s (S i)
          end
      end
  end.

Definition expand_str (fuel : nat) (s : string) (i : nat) : M (string * nat) :=
  match s_at i s with
  | Some quote => expand_str_loop fuel quote s (S i)
  | None => throw IndexError
  end.

(** *** Assignments *)
Definition is_lhs_char (c : ascii) : bool := is_word c || c_eqb c "-".

(** The variable name with its macros expanded: the final string and the
    position after the name. *)
Fixpoint expand_lhs (fuel : nat) (s : string) (i : nat) : M (string * nat) :=
  match fuel with
  | O => out_of_fuel
  | S n =>
      let i := i + span_len is_lhs_char (s_from i s) in
      if startswith_at "$(" s i then
        '(s, i) ← expand_macro n s i [];
        expand_lhs n s i
      else mret (s, i)
  end.

(** [_assignment_rhs_match]: the operator and the value. *)
Definition assignment_rhs (r : string) : option (string * string) :=
  let r := lstrip_by is_cspace r in
  let value n := stake (span_len (λ c, negb (c_eqb c nl_c)) (lstrip_by is_cspace (sdrop n r)))
                   (lstrip_by is_cspace (sdrop n r)) in
  if startswith "=" r then Some ("=", value 1)
  else if startswith ":=" r then Some (":=", value 2)
  else if startswith "+=" r then Some ("+=", value 2)
  else None.

(** [_parse_assignment] *)
Definition parse_assignment (fuel : nat) (s : string) : M () :=
  '(s, i) ← expand_lhs fuel (lstrip s) 0;
  if isspace s then mret ()
  else
    let name := s_upto i s in
    match assignment_rhs (s_from i s) with
    | None => parse_error "syntax error"
    | Some (op, val) =>
        old ← get_variable name;
        let var := default (PVariable None false 0) old in
        (match old with Some _ => mret () | None => put_variable name var end);;
        (* += acts like = on undefined variables *)
        let op := match old with None => if decide (op = "+=") then "=" else op | Some _ => op end in
        if decide (op = "=") then put_variable name (PVariable (Some val) true (v_n_expansions var))
        else if decide (op = ":=") then
          v ← expand_whole fuel val 0 [];
          put_variable name (PVariable (Some v) false (v_n_expansions var))
        else
          v ← (if v_is_recursive var then mret val else expand_whole fuel val 0 []);
          old_value ← variable_value var;
          put_variable name
            (PVariable (Some (old_value +:+ " " +:+ v)) (v_is_recursive var) (v_n_expansions var))
    end.
End Preproc.
