(* ===== verification/Lexer.v ===== *)
(** * Tokens and expressions

    [_tokenize], the checks on tokens, and the recursive-descent parser
    [_parse_expr] for the tokens of a line. *)

From S2P Require Import Prelude PyStr PyText Kconst Expr Incr Objects ParseState Preproc.
From stdpp Require Import options.

(** [Symbol()] as [_lookup_sym] and [_lookup_const_sym] set it up. *)
Definition new_symbol (K : kconfig) (name : string) (const : bool) : symbol :=
  let n := ESym (k_sym_n K) in
  Symbol name const UNKNOWN [] [] [] [] [] [] n n n None None false [].

Definition alloc_symbol (name : string) (const : bool) : M nat :=
  s ← fresh;
  upd_k (λ K, upd_sym s (λ _, new_symbol K name const) K);;
  mret s.

Definition lookup_sym (name : string) : M nat :=
  o ← gets (λ p, dict_get name (k_syms (p_k p)));
  match o with
  | Some s => mret s
  | None =>
      s ← alloc_symbol name false;
      parsing ← gets p_parsing;
      (if (parsing : bool) then upd_k (λ K, set_k_syms (dict_set name s (k_syms K)) K)
       else pwarn ("no symbol " +:+ name +:+ " in configuration"));;
      mret s
  end.

Definition lookup_const_sym (name : string) : M nat :=
  o ← gets (λ p, dict_get name (k_const_syms (p_k p)));
  match o with
  | Some s => mret s
  | None =>
      s ← alloc_symbol name true;
      parsing ← gets p_parsing;
      (if (parsing : bool) then upd_k (λ K, set_k_const_syms (dict_set name s (k_const_syms K)) K)
       else mret ());;
      mret s
  end.

(** [self.const_syms[name]] *)
Definition const_sym_of (name : string) : M nat :=
  o ← gets (λ p, dict_get name (k_const_syms (p_k p)));
  match o with Some s => mret s | None => throw KeyError end.

(** [_command_match]: the first word of a line and the position after it. *)
Definition is_command_char (c : ascii) : bool := is_word c || c_eqb c "$" || c_eqb c "-".

Definition command_match (s : string) : option (string * nat) :=
  let i := span_len is_cspace s in
  match span_len is_command_char (s_from i s) with
  | O => None
  | n => Some (s_slice i (i + n) s, i + n + span_len is_cspace (s_from (i + n) s))
  end.

(** [_id_keyword_match] at position [i]. *)
Definition id_keyword_match (s : string) (i : nat) : option (string * nat) :=
  match span_len is_name_char (s_from i s) with
  | O => None
  | n => Some (s_slice i (i + n) s, i + n + span_len is_cspace (s_from (i + n) s))
  end.

Definition in_string_lex (t : token) : bool :=
  match t with TKw k => STRING_LEX k | _ => false end.

(** Operators, in the order they are tried. *)
Definition operator_at (s : string) (i : nat) : option (kw * nat) :=
  let r := s_from i s in
  if startswith "&&" r then Some (T_AND, 2)
  else if startswith "||" r then Some (T_OR, 2)
  else if startswith "=" r then Some (T_EQUAL, 1)
  else if startswith "!=" r then Some (T_UNEQUAL, 2)
  else if startswith "!" r then Some (T_NOT, 1)
  else if startswith "(" r then Some (T_OPEN_PAREN, 1)
  else if startswith ")" r then Some (T_CLOSE_PAREN, 1)
  else None.

Definition rare_operator_at (s : string) (i : nat) : option (kw * nat) :=
  let r := s_from i s in
  if startswith "<=" r then Some (T_LESS_EQUAL, 2)
  else if startswith "<" r then Some (T_LESS, 1)
  else if startswith ">=" r then Some (T_GREATER_EQUAL, 2)
  else if startswith ">" r then Some (T_GREATER, 1)
  else None.

Section Lexer.
Variable w : world.

(** The contents of a quoted string at [i], the string with its macros
    expanded, and the position after the closing quote. *)
Definition string_token (fuel : nat) (s : string) (i : nat) (c : ascii)
    : M (string * string * nat) :=
  if negb (has_char "$" s) && negb (has_char bs_c s) then
    match s_find (one c) s (S i) with
    | None => parse_error "unterminated string"
    | Some j => mret (s_slice (S i) j s, s, S j)
    end
  else
    '(s, end_i) ← expand_str w fuel s i;
    mret (expandvars (w_env w)
            (s_replace "$UNAME_RELEASE" (w_uname_release w) (s_slice (S i) (end_i - 1) s)),
          s, end_i).

(** An identifier after the first token, which is not a keyword. *)
Definition name_token (fuel : nat) (prev : token) (name s : string) (i next : nat)
    : M (token * string * nat) :=
  if negb (in_string_lex prev) then
    '(name, s, i) ← (if has_char "$" name then expand_name w fuel s i
                     else mret (name, s, next));
    sym ← (if bool_decide (is_Some (STR_TO_TRI name)) then const_sym_of name
           else lookup_sym name);
    mret (TSymbol sym, s, i)
  else
    line ← gets p_line;
    (if decide (prev = TKw T_CHOICE) then mret ()
     else pwarn_here ("style: quotes recommended around '" +:+ name +:+ "' in '"
                        +:+ strip line +:+ "'"));;
    mret (TStr name, s, next).

(** Anything else: [None] at a comment. *)
Definition other_token (fuel : nat) (prev : token) (is_option : bool) (s : string) (i : nat)
    : M (option (token * string * nat)) :=
  match s_at i s with
  | None => throw IndexError
  | Some c =>
      if c_eqb c dq_c || c_eqb c sq_c then
        '(val, s, i) ← string_token fuel s i c;
        t ← (if in_string_lex prev || is_option then mret (TStr val)
             else sym ← lookup_const_sym val; mret (TSymbol sym));
        mret (Some (t, s, i))
      else
        match operator_at s i with
        | Some (k, n) => mret (Some (TKw k, s, i + n))
        | None =>
            if c_eqb c "#" then mret None
            else
              match rare_operator_at s i with
              | Some (k, n) => mret (Some (TKw k, s, i + n))
              | None => parse_error "unknown tokens in line"
              end
        end
  end.

(** The main loop: [prev] is the previous token, [acc] the tokens so far, last
    first. *)
Fixpoint tokenize_loop (fuel : nat) (is_option : bool) (s : string) (i : nat) (prev : token)
    (acc : list token) : M (list token) :=
  match fuel with
  | O => out_of_fuel
  | S n =>
      if slen s <=? i then mret (rev (TNone :: acc))
      else
        match id_keyword_match s i with
        | Some (name, next) =>
            match get_keyword name with
            | Some k => tokenize_loop n is_option s next (TKw k) (TKw k :: acc)
            | None =>
                '(t, s, i) ← name_token n prev name s i next;
                tokenize_loop n is_option s i t (t :: acc)
            end
        | None =>
            o ← other_token n prev is_option s i;
            match o with
            | None => mret (rev (TNone :: acc))
            | Some (t, s, i) =>
                let i := i + span_len is_pyspace (s_from i s) in
                tokenize_loop n is_option s i t (t :: acc)
            end
        end
  end.

(** [_tokenize] *)
Definition tokenize (fuel : nat) (s : string) : M (list token) :=
  modify (set_p_line s);;
  match command_match s with
  | None =>
      if isspace s || startswith "#" (lstrip s) then mret [TNone]
      else parse_error "unknown token at start of line"
  | Some (name, i) =>
      match get_keyword name with
      | Some k => tokenize_loop fuel (bool_decide (k = T_OPTION)) s i (TKw k) [TKw k]
      | None =>
          if decide (strip_by (λ c, c_eqb c " " || c_eqb c tab_c || c_eqb c nl_c || c_eqb c "-") s
                     = "help")
          then mret [TKw T_HELP; TNone]
          else parse_assignment w fuel s;; mret [TNone]
      end
  end.
End Lexer.

(** ** Syntax checking helpers *)

(** [_expect_sym] *)
Definition expect_sym : M nat :=
  t ← next_token;
  match t with TSymbol s => mret s | _ => parse_error "expected symbol" end.

(** [_expect_nonconst_sym] *)
Definition expect_nonconst_sym : M nat :=
  t ← token_at 1;
  modify (set_p_tokens_i 2);;
  match t with
  | TSymbol s =>
      const ← gets (λ p, s_is_constant (sym (p_k p) s));
      if (const : bool) then parse_error "expected nonconstant symbol" else mret s
  | _ => parse_error "expected nonconstant symbol"
  end.

(** A line may not go on. *)
Definition expect_eol : M () :=
  t ← peek; if decide (t = TNone) then mret () else trailing_tokens_error.

(** [_expect_str_and_eol] *)
Definition expect_str_and_eol : M string :=
  t ← next_token;
  match t with
  | TStr s => expect_eol;; mret s
  | _ => parse_error "expected string"
  end.

(** [_check_token] *)
Definition check_token (k : kw) : M bool :=
  t ← peek;
  if decide (t = TKw k) then advance;; mret true else mret false.

(** [transform_m] rewrites m to m && MODULES. *)
Definition plain_symbol (s : nat) (transform_m : bool) : M expr :=
  K ← gets p_k;
  mret (if transform_m && Nat.eqb s (k_sym_m K) then EAnd (ESym s) (ESym (k_modules K))
        else ESym s).

(** The fuel is spent by every call. *)
Fixpoint parse_expr (fuel : nat) (transform_m : bool) : M expr :=
  match fuel with
  | O => out_of_fuel
  | S n =>
      and_expr ← parse_and_expr n transform_m;
      b ← check_token T_OR;
      if (b : bool) then e ← parse_expr n transform_m; mret (EOr and_expr e) else mret and_expr
  end
with parse_and_expr (fuel : nat) (transform_m : bool) : M expr :=
  match fuel with
  | O => out_of_fuel
  | S n =>
      factor ← parse_factor n transform_m;
      b ← check_token T_AND;
      if (b : bool) then e ← parse_and_expr n transform_m; mret (EAnd factor e) else mret factor
  end
with parse_factor (fuel : nat) (transform_m : bool) : M expr :=
  match fuel with
  | O => out_of_fuel
  | S n =>
      token ← next_token;
      match token with
      | TSymbol s =>
          next ← peek;
          match next with
          | TKw k =>
              match rel_of_token k with
              | Some r => advance;; s2 ← expect_sym; mret (ERel r s s2)
              | None => plain_symbol s transform_m
              end
          | _ => plain_symbol s transform_m
          end
      | TKw T_NOT => e ← parse_factor n transform_m; mret (ENot e)
      | TKw T_OPEN_PAREN =>
          e ← parse_expr n transform_m;
          b ← check_token T_CLOSE_PAREN;
          if (b : bool) then mret e else parse_error "malformed expression"
      | _ => parse_error "malformed expression"
      end
  end.
