(* ===== verification/Parser.v ===== *)
(** * The Kconfig parser: lines, properties, blocks

    [_next_line], [_enter_file], [_leave_file], [_parse_props], [_parse_help],
    [_parse_block] and their helpers.  Parsing builds the menu nodes with their
    links, registers symbols and choices, and leaves properties on the nodes
    where they were found; MenuTree.v finishes the tree.

    Fuel is spent by every line of a block or property list and by every nested
    block. *)

From S2P Require Import Prelude PyStr PyText Kconst Expr Incr Objects ParseState Preproc.
From S2P Require Import Lexer.
From stdpp Require Import options.

Section Parser.
Variable w : world.

(** ** Lines *)

(** [self._readline()] *)
Definition readline : M string := λ p,
  match p_readline p with
  | [] => Ok ("", p)
  | l :: ls => Ok (l, set_p_readline ls p)
  end.

Definition add_linenr (n : Z) : M () := modify (λ p, set_p_linenr (p_linenr p + n)%Z p).

Definition line_continues (line : string) : bool := endswith (backslash +:+ nl) line.

(** Line joining: the joined line, the lines left and how many were taken. *)
Fixpoint join_lines (line : string) (rest : list string) (taken : Z) : string * list string * Z :=
  if line_continues line then
    let line := s_upto (slen line - 2) line in
    match rest with
    | [] => (line, [], taken + 1)%Z
    | l :: rest => join_lines (line +:+ l) rest (taken + 1)
    end
  else (line, rest, taken).

Definition joined (line : string) : M string := λ p,
  let '(line, rest, taken) := join_lines line (p_readline p) 0 in
  Ok (line, set_p_linenr (p_linenr p + taken)%Z (set_p_readline rest p)).

Definition tokenize_line (fuel : nat) (line : string) : M () :=
  line ← joined line;
  tokens ← tokenize w fuel line;
  modify (set_p_tokens tokens).

(** [_next_line] *)
Definition next_line (fuel : nat) : M bool :=
  reuse ← gets p_reuse;
  if (reuse : bool) then modify (set_p_reuse false);; mret true
  else
    line ← readline;
    if decide (line = "") then mret false
    else
      add_linenr 1;;
      tokenize_line fuel line;;
      modify (set_p_tokens_i 1);;
      mret true.

(** [_line_after_help] *)
Definition line_after_help (fuel : nat) (line : string) : M () :=
  tokenize_line fuel line;; modify (set_p_reuse true).

(** ** Sourced files *)

Definition srctree_prefix (p : pstate) : string := w_realpath w (k_srctree (p_k p)) +:+ "/".

Definition show_path (path : list (string * Z)) : list string :=
  (λ x, x.1 +:+ ":" +:+ py_str x.2) <$> path.

(** [_enter_file] *)
Definition enter_file (filename : string) : M () := λ p,
  let prefix := srctree_prefix p in
  let rel := if startswith prefix filename then s_from (slen prefix) filename else filename in
  let cur := default "None" (p_filename p) in
  let path := p_include_path p ++ [(cur, p_linenr p)] in
  let at_line := cur +:+ ":" +:+ py_str (p_linenr p) +:+ ": " in
  if bool_decide (rel ∈ path.*1) then
    Raise (KconfigError
      (nl +:+ at_line +:+ "recursive 'source' of '" +:+ rel
         +:+ "' detected. Check that environment variables are set correctly." +:+ nl
         +:+ "Include path:" +:+ nl +:+ sjoin nl (show_path path)))
  else
    match w_file w filename with
    | None =>
        Raise (OSError
          (at_line +:+ "Could not open '" +:+ filename +:+ "' (in '" +:+ strip (p_line p)
             +:+ "') (" +:+ w_errno w filename +:+ ")"))
    | Some text =>
        Ok ((),
            set_p_filename (Some rel) (set_p_linenr 0
              (set_p_filenames (p_filenames p ++ [rel])
                 (set_p_filestack ((p_include_path p, p_readline p) :: p_filestack p)
                    (set_p_include_path path (set_p_readline (file_lines text) p))))))
    end.

(** [_leave_file] *)
Definition leave_file : M () := λ p,
  match last (p_include_path p), p_filestack p with
  | Some (filename, linenr), (path, lines) :: stack =>
      Ok ((),
          set_p_filename (Some filename) (set_p_linenr linenr
            (set_p_include_path path (set_p_readline lines (set_p_filestack stack p)))))
  | _, _ => Raise IndexError
  end.

(** ** Objects *)
Definition get_node (n : nat) : M menu_node := gets (λ p, nod (p_k p) n).
Definition change_node (n : nat) (f : menu_node → menu_node) : M () := upd_k (upd_nod n f).
Definition sym_y : M expr := gets (λ p, ESym (k_sym_y (p_k p))).

(** [self._make_and] *)
Definition pmake_and (e1 e2 : expr) : M expr :=
  gets (λ p, make_and (k_sym_n (p_k p)) (k_sym_y (p_k p)) e1 e2).

(** The symbol or choice of a node; an attribute access on [MENU] or [COMMENT]
    fails. *)
Definition node_item (n : nat) : M item :=
  node ← get_node n;
  match n_item node with
  | NSym s => mret (ISym s)
  | NCho c => mret (ICho c)
  | _ => throw AttributeError
  end.

Definition item_name_and_loc (i : item) : M string := gets (λ p, name_and_loc (p_k p) i).

Definition item_orig_type (i : item) : M ktype := gets (λ p, orig_type (p_k p) i).

(** [_set_type] *)
Definition set_type (n : nat) (new_type : ktype) : M () :=
  sc ← node_item n;
  old ← item_orig_type sc;
  (if negb (bool_decide (old = UNKNOWN)) && negb (bool_decide (old = new_type))
   then name ← item_name_and_loc sc;
        pwarn (name +:+ " defined with multiple types, " +:+ TYPE_TO_STR new_type
                 +:+ " will be used")
   else mret ());;
  match sc with
  | ISym s => upd_k (upd_sym s (set_s_orig_type new_type))
  | ICho c => upd_k (upd_cho c (set_c_orig_type new_type))
  end.

(** ** Properties *)

(** The expression parser needs as much fuel as there are tokens. *)
Definition parse_line_expr (transform_m : bool) : M expr := λ p,
  parse_expr (3 * length (p_tokens p) + 3) transform_m p.

(** [_expect_expr_and_eol] *)
Definition expect_expr_and_eol : M expr :=
  e ← parse_line_expr true; expect_eol;; mret e.

(** [_parse_cond] *)
Definition parse_cond : M expr :=
  b ← check_token T_IF;
  e ← (if (b : bool) then parse_line_expr true else sym_y);
  expect_eol;;
  mret e.

(** [_parse_prompt] *)
Definition parse_prompt (n : nat) : M () :=
  node ← get_node n;
  (match n_prompt node with
   | Some _ => sc ← node_item n; name ← item_name_and_loc sc;
               pwarn (name +:+ " defined with multiple prompts in single location")
   | None => mret ()
   end);;
  t ← token_at 1;
  modify (set_p_tokens_i 2);;
  match t with
  | TStr prompt =>
      (if decide (prompt = strip prompt) then mret ()
       else sc ← node_item n; name ← item_name_and_loc sc;
            pwarn (name +:+ " has leading or trailing whitespace in its prompt"));;
      cond ← parse_cond;
      change_node n (set_n_prompt (Some (strip prompt, cond)))
  | _ => parse_error "expected prompt string"
  end.

(** Blank lines before a help text: the first other line, the lines left, and
    how many were read (the end of the file counts). *)
Fixpoint first_help_line (lines : list string) (count : Z) : string * list string * Z :=
  match lines with
  | [] => ("", [], count + 1)%Z
  | line :: lines =>
      if isspace line then first_help_line lines (count + 1) else (line, lines, count + 1)%Z
  end.

Definition indentation (expline : string) : nat := slen expline - slen (lstrip expline).

(** The further lines of a help text: the text lines, the line that ends it and
    the lines left. *)
Fixpoint help_lines (indent : nat) (lines : list string) : list string * string * list string :=
  match lines with
  | [] => ([], "", [])
  | line :: lines' =>
      if isspace line then
        let '(l, e, r) := help_lines indent lines' in (nl :: l, e, r)
      else
        let expline := expandtabs line in
        if indentation expline <? indent then ([], line, lines')
        else let '(l, e, r) := help_lines indent lines' in (s_from indent expline :: l, e, r)
  end.

(** [_empty_help] *)
Definition empty_help (fuel n : nat) (line : string) : M () :=
  sc ← node_item n;
  name ← item_name_and_loc sc;
  pwarn (name +:+ " has 'help' but empty help text");;
  change_node n (set_n_help (Some ""));;
  if decide (line = "") then mret () else line_after_help fuel line.

(** [_parse_help] *)
Definition parse_help (fuel n : nat) : M () :=
  sc ← node_item n;
  node ← get_node n;
  (match n_help node with
   | Some _ => name ← item_name_and_loc sc;
               pwarn (name +:+ " defined with more than one help text -- only the last one will be used")
   | None => mret ()
   end);;
  rest ← gets p_readline;
  let '(line, rest, count) := first_help_line rest 0 in
  modify (set_p_readline rest);;
  add_linenr count;;
  let expline := expandtabs line in
  let indent := indentation expline in
  if bool_decide (line = "") || Nat.eqb indent 0 then empty_help fuel n line
  else
    let '(more, last, rest) := help_lines indent rest in
    let lines := s_from indent expline :: more in
    modify (set_p_readline rest);;
    add_linenr (Z.of_nat (length lines));;
    change_node n (set_n_help (Some (rstrip (sconcat lines))));;
    if decide (last = "") then mret () else line_after_help fuel last.

(** [option env="..."] *)
Definition option_env (n : nat) : M () :=
  b ← check_token T_EQUAL;
  (if (b : bool) then mret () else parse_error "expected '=' after 'env'");;
  env_var ← expect_str_and_eol;
  node ← get_node n;
  match n_item node with
  | NSym s =>
      upd_k (upd_sym s (set_s_env_var (Some env_var)));;
      name ← gets (λ p, s_name (sym (p_k p) s));
      (match w_env w env_var with
       | Some value =>
           c ← lookup_const_sym value;
           y ← sym_y;
           change_node n (λ nd, set_n_defaults (n_defaults nd ++ [(ESym c, y)]) nd)
       | None =>
           pwarn_here (env_var +:+ " has 'option env=" +:+ dquote +:+ name +:+ dquote
                         +:+ "', but the environment variable " +:+ name +:+ " is not set")
       end);;
      if decide (env_var = name) then mret ()
      else pwarn_here
             ("Kconfiglib expands environment variables in strings directly, meaning you do not "
                +:+ "need 'option env=...' " +:+ dquote +:+ "bounce" +:+ dquote
                +:+ " symbols. For compatibility with the C tools, rename " +:+ name +:+ " to "
                +:+ env_var +:+ " (so that the symbol name matches the environment variable name).")
  | _ => throw AttributeError
  end.

(** [item.name] in a warning about 'option defconfig_list' *)
Definition nitem_name (i : nitem) : M string :=
  match i with
  | NSym s => gets (λ p, s_name (sym (p_k p) s))
  | NCho c => gets (λ p, default "None" (c_name (cho (p_k p) c)))
  | _ => throw AttributeError
  end.

Definition option_defconfig_list (n : nat) : M () :=
  node ← get_node n;
  old ← gets (λ p, k_defconfig_list (p_k p));
  match old with
  | None => upd_k (set_k_defconfig_list (Some (n_item node)))
  | Some i =>
      a ← nitem_name i;
      b ← nitem_name (n_item node);
      pwarn_here ("'option defconfig_list' set on multiple symbols (" +:+ a +:+ " and " +:+ b
                    +:+ "). Only " +:+ a +:+ " will be used.")
  end.

Definition option_modules (n : nat) : M () :=
  node ← get_node n;
  K ← gets p_k;
  if decide (n_item node = NSym (k_modules K)) then mret ()
  else pwarn_here
         ("the 'modules' option is not supported. Let me know if this is a problem for you, "
            +:+ "as it wouldn't be that hard to implement. Note that modules are supported -- "
            +:+ "Kconfiglib just assumes the symbol name MODULES, like older versions of the C "
            +:+ "implementation did when 'option modules' wasn't used.").

Definition option_allnoconfig_y (n : nat) : M () :=
  node ← get_node n;
  match n_item node with
  | NSym s => upd_k (upd_sym s (set_s_is_allnoconfig_y true))
  | _ => parse_error "the 'allnoconfig_y' option is only valid for symbols"
  end.

(** The 'option' property. *)
Definition parse_option (n : nat) : M () :=
  b ← check_token T_ENV;
  if (b : bool) then option_env n else
  b ← check_token T_DEFCONFIG_LIST;
  if (b : bool) then option_defconfig_list n else
  b ← check_token T_MODULES;
  if (b : bool) then option_modules n else
  b ← check_token T_ALLNOCONFIG_Y;
  if (b : bool) then option_allnoconfig_y n else parse_error "unrecognized option".

Definition add_default (n : nat) : M () :=
  value ← parse_line_expr false;
  cond ← parse_cond;
  change_node n (λ nd, set_n_defaults (n_defaults nd ++ [(value, cond)]) nd).

Definition is_symbol_node (n : nat) : M bool :=
  node ← get_node n;
  mret (match n_item node with NSym _ => true | _ => false end).

(** 'select' and 'imply'. *)
Definition parse_select (n : nat) (what : string)
    (add : nat * expr → menu_node → menu_node) : M () :=
  b ← is_symbol_node n;
  (if (b : bool) then mret () else parse_error ("only symbols can " +:+ what));;
  target ← expect_nonconst_sym;
  cond ← parse_cond;
  change_node n (add (target, cond)).

(** One property line with first token [k]: whether it is one. *)
Definition parse_prop (fuel n : nat) (k : kw) : M bool :=
  match type_of_token k, DEF_TOKEN_TO_TYPE k with
  | Some t, _ =>
      set_type n t;;
      t1 ← token_at 1;
      (if decide (t1 = TNone) then mret () else parse_prompt n);;
      mret true
  | None, Some t => set_type n t;; add_default n;; mret true
  | None, None =>
      match k with
      | T_DEPENDS =>
          b ← check_token T_ON;
          (if (b : bool) then mret () else parse_error "expected 'on' after 'depends'");;
          node ← get_node n;
          e ← expect_expr_and_eol;
          dep ← pmake_and (n_dep node) e;
          change_node n (set_n_dep dep);;
          mret true
      | T_HELP => parse_help fuel n;; mret true
      | T_SELECT =>
          parse_select n "select" (λ x nd, set_n_selects (n_selects nd ++ [x]) nd);; mret true
      | T_DEFAULT => add_default n;; mret true
      | T_PROMPT => parse_prompt n;; mret true
      | T_RANGE =>
          low ← expect_sym;
          high ← expect_sym;
          cond ← parse_cond;
          change_node n (λ nd, set_n_ranges (n_ranges nd ++ [(low, high, cond)]) nd);;
          mret true
      | T_IMPLY =>
          parse_select n "imply" (λ x nd, set_n_implies (n_implies nd ++ [x]) nd);; mret true
      | T_VISIBLE =>
          b ← check_token T_IF;
          (if (b : bool) then mret () else parse_error "expected 'if' after 'visible'");;
          node ← get_node n;
          match n_item node with
          | NMenu =>
              e ← expect_expr_and_eol;
              vis ← pmake_and (n_visibility node) e;
              change_node n (set_n_visibility vis);;
              mret true
          | _ => throw AttributeError
          end
      | T_OPTION => parse_option n;; mret true
      | T_OPTIONAL =>
          node ← get_node n;
          match n_item node with
          | NCho c => upd_k (upd_cho c (set_c_is_optional true));; mret true
          | _ => parse_error (dquote +:+ "optional" +:+ dquote +:+ " is only valid for choices")
          end
      | _ => modify (set_p_reuse true);; mret false
      end
  end.

(** [_parse_props] *)
Fixpoint parse_props_loop (fuel n : nat) : M () :=
  match fuel with
  | O => out_of_fuel
  | S f =>
      more ← next_line f;
      if (more : bool) then
        t0 ← token_at 0;
        match t0 with
        | TKw k =>
            b ← parse_prop f n k;
            if (b : bool) then parse_props_loop f n else mret ()
        | _ => parse_props_loop f n
        end
      else mret ()
  end.

Definition parse_props (fuel n : nat) : M () :=
  y ← sym_y; change_node n (set_n_dep y);; parse_props_loop fuel n.

(** ** Blocks *)

(** A new menu node at the current location. *)
Definition new_node (item : nitem) (parent : nat) (prompt : option (string * expr))
    (menuconfig configdefault : bool) : M nat :=
  n ← fresh;
  filename ← gets (λ p, default "None" (p_filename p));
  linenr ← gets p_linenr;
  path ← gets p_include_path;
  y ← sym_y;
  change_node n (λ _, MenuNode item None None (Some parent) prompt y y None menuconfig
                        configdefault filename linenr path [] [] [] []);;
  mret n.

(** [prev.next = node] *)
Definition link (prev n : nat) : M () := change_node prev (set_n_next (Some n)).

(** [node.list = node.next], before the node itself is linked. *)
Definition tilt (n : nat) : M () := change_node n (λ nd, set_n_list (n_next nd) nd).

(** 'config', 'menuconfig' and 'configdefault' *)
Definition parse_config (fuel : nat) (k : kw) (parent : nat) : M nat :=
  t1 ← token_at 1;
  match t1 with
  | TSymbol s =>
      const ← gets (λ p, s_is_constant (sym (p_k p) s));
      (if (const : bool) then parse_error "missing or bad symbol name" else mret ());;
      t2 ← token_at 2;
      (if decide (t2 = TNone) then mret () else trailing_tokens_error);;
      upd_k (λ K, set_k_defined_syms (k_defined_syms K ++ [s]) K);;
      n ← new_node (NSym s) parent None (bool_decide (k = T_MENUCONFIG))
            (bool_decide (k = T_CONFIGDEFAULT));
      upd_k (upd_sym s (λ S, set_s_nodes (s_nodes S ++ [n]) S));;
      parse_props fuel n;;
      node ← get_node n;
      y ← sym_y;
      (if n_is_configdefault node
          && (bool_decide (is_Some (n_prompt node)) || negb (bool_decide (n_dep node = y))
              || negb (bool_decide (n_ranges node = [])) || negb (bool_decide (n_selects node = []))
              || negb (bool_decide (n_implies node = [])))
       then parse_error "configdefault can only contain `default`" else mret ());;
      (if n_is_menuconfig node && negb (bool_decide (is_Some (n_prompt node)))
       then name ← item_name_and_loc (ISym s);
            pwarn ("the menuconfig symbol " +:+ name +:+ " has no prompt")
       else mret ());;
      mret n
  | _ => parse_error "missing or bad symbol name"
  end.

(** The Choice object of a 'choice' line. *)
Definition new_choice (name : option string) : M nat :=
  c ← fresh;
  upd_k (λ K, upd_cho c (λ _, Choice name UNKNOWN [] [] [] (ESym (k_sym_n K)) false []) K);;
  mret c.

Definition choice_of_line : M nat :=
  t1 ← token_at 1;
  if decide (t1 = TNone) then new_choice None
  else
    name ← expect_str_and_eol;
    o ← gets (λ p, dict_get name (k_named_choices (p_k p)));
    match o with
    | Some c => mret c
    | None =>
        c ← new_choice (Some name);
        upd_k (λ K, set_k_named_choices (dict_set name c (k_named_choices K)) K);;
        mret c
    end.

(** The files of a 'source' line. *)
Definition source_files (k : kw) : M (list string) :=
  pattern ← expect_str_and_eol;
  filename ← gets (λ p, default "None" (p_filename p));
  prefix ← gets srctree_prefix;
  srctree ← gets (λ p, k_srctree (p_k p));
  linenr ← gets p_linenr;
  line ← gets p_line;
  let pattern := if REL_SOURCE_TOKENS k then path_join (dirname filename) pattern else pattern in
  let filenames := py_sorted (w_glob w (path_join prefix pattern)) in
  if bool_decide (filenames = []) && OBL_SOURCE_TOKENS k then
    throw (KconfigError
      (filename +:+ ":" +:+ py_str linenr +:+ ": '" +:+ pattern +:+ "' not found (in '"
         +:+ strip line +:+ "'). Check that environment variables are set correctly (e.g. "
         +:+ "$srctree, which is "
         +:+ (if decide (srctree = "") then "unset or blank" else "set to '" +:+ srctree +:+ "'")
         +:+ "). Also note that unset environment variables expand to the empty string."))
  else mret filenames.

Definition unexpected_token {A} (k : kw) : M A :=
  parse_error (match k with
               | T_ENDCHOICE => "no corresponding 'choice'"
               | T_ENDIF => "no corresponding 'if'"
               | T_ENDMENU => "no corresponding 'menu'"
               | _ => "unrecognized construct"
               end).

Definition missing_end {A} (end_token : kw) : M A := λ p,
  Raise (KconfigError
    ("error: expected '"
       +:+ match end_token with T_ENDCHOICE => "endchoice" | T_ENDIF => "endif" | _ => "endmenu" end
       +:+ "' at end of '" +:+ default "None" (p_filename p) +:+ "'")).

(** [_parse_block]: [end_token] is [None] for files; the result is the last node
    of the block. *)
Fixpoint parse_block (fuel : nat) (end_token : option kw) (parent prev : nat) : M nat :=
  match fuel with
  | O => out_of_fuel
  | S f =>
      more ← next_line f;
      if negb more then
        match end_token with Some k => missing_end k | None => mret prev end
      else
        t0 ← token_at 0;
        match t0 with
        | TKw k =>
            if bool_decide (k ∈ [T_CONFIG; T_MENUCONFIG; T_CONFIGDEFAULT]) then
              n ← parse_config f k parent;
              link prev n;; parse_block f end_token parent n
            else if SOURCE_TOKENS k then
              filenames ← source_files k;
              prev ← source_loop f filenames parent prev;
              parse_block f end_token parent prev
            else if bool_decide (Some k = end_token) then
              t1 ← token_at 1;
              (if decide (t1 = TNone) then mret () else trailing_tokens_error);;
              change_node prev (set_n_next None);;
              mret prev
            else
              match k with
              | T_IF =>
                  n ← new_node NIf parent None false false;
                  e ← expect_expr_and_eol;
                  change_node n (set_n_dep e);;
                  parse_block f (Some T_ENDIF) n n;;
                  tilt n;; link prev n;; parse_block f end_token parent n
              | T_MENU =>
                  s ← expect_str_and_eol;
                  y ← sym_y;
                  n ← new_node NMenu parent (Some (s, y)) true false;
                  upd_k (λ K, set_k_menus (k_menus K ++ [n]) K);;
                  parse_props f n;;
                  parse_block f (Some T_ENDMENU) n n;;
                  tilt n;; link prev n;; parse_block f end_token parent n
              | T_COMMENT =>
                  s ← expect_str_and_eol;
                  y ← sym_y;
                  n ← new_node NComment parent (Some (s, y)) false false;
                  upd_k (λ K, set_k_comments (k_comments K ++ [n]) K);;
                  parse_props f n;;
                  link prev n;; parse_block f end_token parent n
              | T_CHOICE =>
                  c ← choice_of_line;
                  upd_k (λ K, set_k_choices (k_choices K ++ [c]) K);;
                  n ← new_node (NCho c) parent None true false;
                  upd_k (upd_cho c (λ C, set_c_nodes (c_nodes C ++ [n]) C));;
                  parse_props f n;;
                  parse_block f (Some T_ENDCHOICE) n n;;
                  tilt n;; link prev n;; parse_block f end_token parent n
              | T_MAINMENU =>
                  s ← expect_str_and_eol;
                  y ← sym_y;
                  top ← gets (λ p, k_top_node (p_k p));
                  change_node top (set_n_prompt (Some (s, y)));;
                  parse_block f end_token parent prev
              | _ => unexpected_token k
              end
        | _ => parse_block f end_token parent prev
        end
  end
with source_loop (fuel : nat) (filenames : list string) (parent prev : nat) : M nat :=
  match fuel with
  | O => out_of_fuel
  | S f =>
      match filenames with
      | [] => mret prev
      | name :: names =>
          enter_file name;;
          prev ← parse_block f None parent prev;
          leave_file;;
          source_loop f names parent prev
      end
  end.
End Parser.
