(* ===== verification/MenuTree.v ===== *)
(** * The menu tree: finalisation and iteration

    What kconfiglib does with the parsed nodes: [_propagate_deps],
    [_add_props_to_sym], implicit submenus ([_auto_menu_dep]), [_flatten],
    [_remove_ifs], [_finalize_choice], [_finalize_node], [_finalize_sym], and the
    walk [node_iter].  The tree is the graph of [next], [list] and [parent] links
    between menu nodes, changed in place; loops along links take fuel. *)

From S2P Require Import Prelude PyStr Kconst Expr Incr Objects ParseState.
From stdpp Require Import options.

Definition kmake_and (K : kconfig) : expr → expr → expr := make_and (k_sym_n K) (k_sym_y K).
Definition kmake_or (K : kconfig) : expr → expr → expr := make_or (k_sym_n K) (k_sym_y K).

(** ** Propagation of dependencies *)

Definition is_sym_or_choice (i : nitem) : bool :=
  match i with NSym _ | NCho _ => true | _ => false end.

(** What [_propagate_deps] does to one child, given the parent's dependency. *)
Definition propagate_to (K : kconfig) (basedep visible_if : expr) (cur : menu_node) : menu_node :=
  let dep := kmake_and K (n_dep cur) basedep in
  let under (cond : expr) := kmake_and K cond dep in
  let cur := set_n_dep dep cur in
  if is_sym_or_choice (n_item cur) then
    let cur := match n_prompt cur with
               | Some (text, cond) =>
                   set_n_prompt (Some (text, kmake_and K cond (kmake_and K visible_if dep))) cur
               | None => cur
               end in
    let cur := set_n_defaults ((λ p, (p.1, under p.2)) <$> n_defaults cur) cur in
    let cur := set_n_ranges ((λ p, (p.1, under p.2)) <$> n_ranges cur) cur in
    let cur := set_n_selects ((λ p, (p.1, under p.2)) <$> n_selects cur) cur in
    set_n_implies ((λ p, (p.1, under p.2)) <$> n_implies cur) cur
  else
    match n_prompt cur with
    | Some (text, cond) => set_n_prompt (Some (text, under cond)) cur
    | None => cur
    end.

Fixpoint propagate_loop (fuel : nat) (basedep visible_if : expr) (cur : option nat) (K : kconfig)
    : outcome kconfig :=
  match fuel, cur with
  | _, None => Ok K
  | O, Some _ => NoFuel
  | S f, Some n =>
      let K := upd_nod n (propagate_to K basedep visible_if) K in
      propagate_loop f basedep visible_if (n_next (nod K n)) K
  end.

(** [_propagate_deps]; a choice is itself the dependency of its symbols. *)
Definition propagate_deps (fuel n : nat) (visible_if : expr) (K : kconfig) : outcome kconfig :=
  let node := nod K n in
  let basedep := match n_item node with NCho c => EItem (ICho c) | _ => n_dep node end in
  propagate_loop fuel basedep visible_if (n_list node) K.

(** ** Properties move from nodes to symbols *)

(** [target.rev_dep = _make_or(target.rev_dep, _make_and(sym, cond))] for every
    select of a node, likewise for implies. *)
Definition add_rev_deps (s : nat) (l : list (nat * expr)) (K : kconfig) : kconfig :=
  foldl (λ K p,
    upd_sym p.1 (λ T, set_s_rev_dep (kmake_or K (s_rev_dep T) (kmake_and K (ESym s) p.2)) T) K) K l.
Definition add_weak_rev_deps (s : nat) (l : list (nat * expr)) (K : kconfig) : kconfig :=
  foldl (λ K p,
    upd_sym p.1
      (λ T, set_s_weak_rev_dep (kmake_or K (s_weak_rev_dep T) (kmake_and K (ESym s) p.2)) T) K) K l.

(** [_add_props_to_sym] *)
Definition add_props_to_sym (n s : nat) (K : kconfig) : kconfig :=
  let node := nod K n in
  if n_is_configdefault node then
    upd_sym s (λ S, set_s_configdefaults
                      (s_configdefaults S ++ [(length (s_defaults S), n_defaults node)]) S) K
  else
    let K := upd_sym s (λ S,
      set_s_implies (s_implies S ++ n_implies node)
        (set_s_selects (s_selects S ++ n_selects node)
           (set_s_ranges (s_ranges S ++ n_ranges node)
              (set_s_defaults (s_defaults S ++ n_defaults node)
                 (set_s_direct_dep (kmake_or K (s_direct_dep S) (n_dep node)) S))))) K in
    add_weak_rev_deps s (n_implies node) (add_rev_deps s (n_selects node) K).

(** [l.insert(i, x)] *)
Definition list_insert {A} (i : nat) (x : A) (l : list A) : list A := take i l ++ x :: drop i l.

(** The loops of [_finalize_sym], with the count of inserted defaults. *)
Definition insert_configdefaults (K : kconfig) (direct_dep : expr)
    (cds : list (nat * list (expr * expr))) (defaults : list (expr * expr)) : list (expr * expr) :=
  (foldl (λ st cd,
     foldl (λ st d,
       let '(inserted, defaults) := st in
       (S inserted, list_insert (inserted + cd.1) (d.1, kmake_and K direct_dep d.2) defaults))
       st cd.2)
     (0, defaults) cds).2.

(** [_finalize_sym] *)
Definition finalize_sym (s : nat) (K : kconfig) : kconfig :=
  upd_sym s (λ S, set_s_defaults
    (insert_configdefaults K (s_direct_dep S) (s_configdefaults S) (s_defaults S)) S) K.

(** ** The shape of the tree *)

(** [_auto_menu_dep] *)
Definition auto_menu_dep (K : kconfig) (s : nat) (node2 : menu_node) : bool :=
  expr_depends_on (k_sym_n K) (k_sym_m K) (k_sym_y K)
    (match n_prompt node2 with Some (_, cond) => cond | None => n_dep node2 end) s.

(** Children of a flattened node get its parent; returns the last child. *)
Fixpoint reparent (fuel : nat) (parent : option nat) (n : nat) (K : kconfig)
    : outcome (nat * kconfig) :=
  match fuel with
  | O => NoFuel
  | S f =>
      let K := upd_nod n (set_n_parent parent) K in
      match n_next (nod K n) with
      | None => Ok (n, K)
      | Some m => reparent f parent m K
      end
  end.

(** [_flatten] *)
Definition is_choice_node (node : menu_node) : bool :=
  match n_item node with NCho _ => true | _ => false end.

Fixpoint flatten (fuel : nat) (n : option nat) (K : kconfig) : outcome kconfig :=
  match fuel, n with
  | _, None => Ok K
  | O, Some _ => NoFuel
  | S f, Some n =>
      let node := nod K n in
      let! K :=
        match n_list node, n_prompt node, is_choice_node node with
        | Some first, None, false =>
            let! (last, K) := reparent f (n_parent node) first K in
            let K := upd_nod last (set_n_next (n_next node)) K in
            Ok (upd_nod n (λ nd, set_n_list None (set_n_next (Some first) nd)) K)
        | _, _, _ => Ok K
        end in
      flatten f (n_next (nod K n)) K
  end.

(** [_remove_ifs]: the first node from [n] on that is not an 'if'. *)
Fixpoint skip_ifs (fuel : nat) (n : option nat) (K : kconfig) : outcome (option nat) :=
  match fuel, n with
  | _, None => Ok None
  | O, Some _ => NoFuel
  | S f, Some n =>
      if decide (n_item (nod K n) = NIf) then skip_ifs f (n_next (nod K n)) K else Ok (Some n)
  end.

Fixpoint unlink_ifs (fuel : nat) (cur : option nat) (K : kconfig) : outcome kconfig :=
  match fuel, cur with
  | _, None => Ok K
  | O, Some _ => NoFuel
  | S f, Some n =>
      let! next := skip_ifs f (n_next (nod K n)) K in
      unlink_ifs f next (upd_nod n (set_n_next next) K)
  end.

Definition remove_ifs (fuel n : nat) (K : kconfig) : outcome kconfig :=
  let! cur := skip_ifs fuel (n_list (nod K n)) K in
  unlink_ifs fuel cur (upd_nod n (set_n_list cur) K).

(** ** Choices *)

(** The nodes of a child list, in order. *)
Fixpoint siblings (fuel : nat) (n : option nat) (K : kconfig) : outcome (list nat) :=
  match fuel, n with
  | _, None => Ok []
  | O, Some _ => NoFuel
  | S f, Some n => let! l := siblings f (n_next (nod K n)) K in Ok (n :: l)
  end.

Definition node_symbol (K : kconfig) (n : nat) : option nat :=
  match n_item (nod K n) with NSym s => Some s | _ => None end.

Definition add_choice_symbol (c s : nat) (K : kconfig) : kconfig :=
  upd_cho c (λ C, set_c_syms (c_syms C ++ [s]) C) (upd_sym s (set_s_choice (Some c)) K).

(** The type of the first typed choice symbol. *)
Definition choice_type_of (K : kconfig) (c : nat) : ktype :=
  match c_orig_type (cho K c) with
  | UNKNOWN =>
      match first_such (λ s, negb (bool_decide (s_orig_type (sym K s) = UNKNOWN))) (c_syms (cho K c)) with
      | Some s => s_orig_type (sym K s)
      | None => UNKNOWN
      end
  | t => t
  end.

Definition type_choice_symbol (t : ktype) (s : nat) (K : kconfig) : kconfig :=
  if decide (s_orig_type (sym K s) = UNKNOWN) then upd_sym s (set_s_orig_type t) K else K.

(** [_finalize_choice] *)
Definition finalize_choice (fuel n c : nat) (K : kconfig) : outcome kconfig :=
  let! l := siblings fuel (n_list (nod K n)) K in
  let K := foldl (λ K s, add_choice_symbol c s K) K (omap (node_symbol K) l) in
  let t := choice_type_of K c in
  let K := upd_cho c (set_c_orig_type t) K in
  Ok (foldl (λ K s, type_choice_symbol t s K) K (c_syms (cho K c))).

(** ** [_finalize_node] *)
Fixpoint finalize_node (fuel n : nat) (visible_if : expr) (K : kconfig) : outcome kconfig :=
  match fuel with
  | O => NoFuel
  | S f =>
      let! K :=
        match n_item (nod K n) with
        | NSym s =>
            let K := add_props_to_sym n s K in
            let! (cur, K) := submenu_loop f n s n visible_if K in
            if decide (cur = n) then Ok K
            else
              let K := upd_nod n (λ nd, set_n_list (n_next nd) nd) K in
              let K := upd_nod n (set_n_next (n_next (nod K cur))) K in
              Ok (upd_nod cur (set_n_next None) K)
        | i =>
            match n_list (nod K n) with
            | None => Ok K
            | Some first =>
                let visible_if :=
                  if decide (i = NMenu) then kmake_and K visible_if (n_visibility (nod K n))
                  else visible_if in
                let! K := propagate_deps f n visible_if K in
                children_loop f (Some first) visible_if K
            end
        end in
      let! K :=
        match n_list (nod K n) with
        | Some first => let! K := flatten f (Some first) K in remove_ifs f n K
        | None => Ok K
        end in
      match n_item (nod K n) with
      | NCho c =>
          let node := nod K n in
          let K := upd_cho c (λ C,
            set_c_defaults (c_defaults C ++ n_defaults node)
              (set_c_direct_dep (kmake_or K (c_direct_dep C) (n_dep node)) C)) K in
          finalize_choice f n c K
      | _ => Ok K
      end
  end
with submenu_loop (fuel n s cur : nat) (visible_if : expr) (K : kconfig) : outcome (nat * kconfig) :=
  match fuel with
  | O => NoFuel
  | S f =>
      match n_next (nod K cur) with
      | Some next =>
          if auto_menu_dep K s (nod K next) then
            let! K := finalize_node f next visible_if K in
            submenu_loop f n s next visible_if (upd_nod next (set_n_parent (Some n)) K)
          else Ok (cur, K)
      | None => Ok (cur, K)
      end
  end
with children_loop (fuel : nat) (cur : option nat) (visible_if : expr) (K : kconfig)
    : outcome kconfig :=
  match fuel, cur with
  | _, None => Ok K
  | O, Some _ => NoFuel
  | S f, Some n =>
      let! K := finalize_node f n visible_if K in
      children_loop f (n_next (nod K n)) visible_if K
  end.

(** ** [node_iter] *)

(** The next node of the walk: a child, else a sibling, else a sibling of the
    closest ancestor that has one. *)
Fixpoint climb (fuel n : nat) (K : kconfig) : outcome (option nat) :=
  match fuel with
  | O => NoFuel
  | S f =>
      match n_parent (nod K n) with
      | None => Ok None
      | Some p =>
          match n_next (nod K p) with
          | Some m => Ok (Some m)
          | None => climb f p K
          end
      end
  end.

Definition next_node (fuel n : nat) (K : kconfig) : outcome (option nat) :=
  match n_list (nod K n), n_next (nod K n) with
  | Some m, _ => Ok (Some m)
  | None, Some m => Ok (Some m)
  | None, None => climb fuel n K
  end.

Fixpoint node_iter_from (fuel n : nat) (K : kconfig) : outcome (list nat) :=
  match fuel with
  | O => NoFuel
  | S f =>
      let! o := next_node f n K in
      match o with
      | None => Ok []
      | Some m => let! l := node_iter_from f m K in Ok (m :: l)
      end
  end.

(** [node_iter(unique_syms)]: with [unique_syms], a symbol's later nodes are left
    out; the set is of the symbols marked [_visited]. *)
Fixpoint unique_nodes (K : kconfig) (visited : gset nat) (l : list nat) : list nat :=
  match l with
  | [] => []
  | n :: l =>
      match node_symbol K n with
      | Some s =>
          if decide (s ∈ visited) then unique_nodes K visited l
          else n :: unique_nodes K ({[s]} ∪ visited) l
      | None => n :: unique_nodes K visited l
      end
  end.

Definition node_iter (fuel : nat) (unique_syms : bool) (K : kconfig) : outcome (list nat) :=
  let! l := node_iter_from fuel (k_top_node K) K in
  Ok (if unique_syms then unique_nodes K ∅ l else l).

(** [_ordered_unique] *)
Fixpoint ordered_unique_aux {A} `{Countable A} (seen : gset A) (l : list A) : list A :=
  match l with
  | [] => []
  | x :: l =>
      if decide (x ∈ seen) then ordered_unique_aux seen l
      else x :: ordered_unique_aux ({[x]} ∪ seen) l
  end.
Definition ordered_unique {A} `{Countable A} (l : list A) : list A := ordered_unique_aux ∅ l.
