(* ===== verification/Printing.v ===== *)
(** * Kconfig text of menu nodes, symbols and choices; references

    [MenuNode._strip_dep], the [orig_*] properties, [MenuNode.custom_str],
    [Symbol.custom_str], [Choice.custom_str] and [MenuNode.referenced].
    [_strip_dep] compares expressions by identity; the dependencies of a node are
    never structurally equal to another expression with them at its end, so
    structural equality decides the same. *)

From S2P Require Import Prelude PyStr PyText Kconst Expr Escape Incr Objects.
From stdpp Require Import options.

Section Printing.
Variable K : kconfig.
Variable sc_expr_str_fn : item → string.

Definition node_strip_dep (node : menu_node) (e : expr) : expr :=
  strip_dep (k_sym_y K) (n_dep node) e.

Definition orig_prompt (node : menu_node) : option (string * expr) :=
  (λ p, (p.1, node_strip_dep node p.2)) <$> n_prompt node.
Definition orig_conds {A} (node : menu_node) (l : list (A * expr)) : list (A * expr) :=
  (λ p, (p.1, node_strip_dep node p.2)) <$> l.
Definition orig_defaults (node : menu_node) := orig_conds node (n_defaults node).
Definition orig_selects (node : menu_node) := orig_conds node (n_selects node).
Definition orig_implies (node : menu_node) := orig_conds node (n_implies node).
Definition orig_ranges (node : menu_node) := orig_conds node (n_ranges node).

Definition is_y (e : expr) : bool := bool_decide (e = ESym (k_sym_y K)).
Definition estr (e : expr) : string := expr_str sc_expr_str_fn e.

(** [_menu_comment_node_str] *)
Definition menu_comment_node_str (node : menu_node) : string :=
  let is_menu := bool_decide (n_item node = NMenu) in
  (if is_menu then "menu" else "comment") +:+ " " +:+ dquote
    +:+ match n_prompt node with Some (text, _) => text | None => "" end +:+ dquote
    +:+ (if is_y (n_dep node) then "" else nl +:+ tab +:+ "depends on " +:+ estr (n_dep node))
    +:+ (if is_menu && negb (is_y (n_visibility node))
         then nl +:+ tab +:+ "visible if " +:+ estr (n_visibility node) else "").

(** [indent_add] and [indent_add_cond] *)
Definition indent_line (s : string) : string := tab +:+ s.
Definition cond_line (s : string) (cond : expr) : string :=
  indent_line (if is_y cond then s else s +:+ " if " +:+ estr cond).

Definition when {A} (b : bool) (l : list A) : list A := if b then l else [].

Definition header_line (node : menu_node) (i : item) : string :=
  match i with
  | ISym s =>
      (if n_is_menuconfig node then "menuconfig "
       else if n_is_configdefault node then "configdefault " else "config ") +:+ s_name (sym K s)
  | ICho c =>
      match c_name (cho K c) with
      | Some name => if decide (name = "") then "choice" else "choice " +:+ name
      | None => "choice"
      end
  end.

(** Lines for the type and the prompt. *)
Definition type_lines (node : menu_node) (t : ktype) : list string :=
  match orig_prompt node with
  | None => when (negb (bool_decide (t = UNKNOWN))) [indent_line (TYPE_TO_STR t)]
  | Some (text, cond) =>
      [cond_line ((if decide (t = UNKNOWN) then "prompt" else TYPE_TO_STR t)
                    +:+ " " +:+ dquote +:+ escape text +:+ dquote) cond]
  end.

Definition option_lines (s : nat) : list string :=
  let S := sym K s in
  when (s_is_allnoconfig_y S) [indent_line "option allnoconfig_y"]
    ++ when (bool_decide (k_defconfig_list K = Some (NSym s))) [indent_line "option defconfig_list"]
    ++ match s_env_var S with
       | Some v => [indent_line ("option env=" +:+ dquote +:+ v +:+ dquote)]
       | None => []
       end
    ++ when (bool_decide (s = k_modules K)) [indent_line "option modules"].

Definition range_lines (node : menu_node) : list string :=
  (λ p : nat * nat * expr,
     cond_line ("range " +:+ sc_expr_str_fn (ISym p.1.1) +:+ " " +:+ sc_expr_str_fn (ISym p.1.2)) p.2)
    <$> orig_ranges node.

Definition target_lines (what : string) (l : list (nat * expr)) : list string :=
  (λ p, cond_line (what +:+ " " +:+ sc_expr_str_fn (ISym p.1)) p.2) <$> l.

Definition help_text_lines (node : menu_node) : list string :=
  match n_help node with
  | Some h => indent_line "help" :: ((λ l, indent_line ("  " +:+ l)) <$> splitlines h)
  | None => []
  end.

(** [_sym_choice_node_str] *)
Definition sym_choice_node_str (node : menu_node) (i : item) : string :=
  let sym_only {A} (l : list A) := match i with ISym _ => l | ICho _ => [] end in
  sjoin nl
    (header_line node i :: type_lines node (orig_type K i)
       ++ match i with ISym s => option_lines s ++ range_lines node | ICho _ => [] end
       ++ ((λ p, cond_line ("default " +:+ estr p.1) p.2) <$> orig_defaults node)
       ++ match i with ICho c => when (c_is_optional (cho K c)) [indent_line "optional"] | _ => [] end
       ++ sym_only (target_lines "select" (orig_selects node) ++ target_lines "imply" (orig_implies node))
       ++ when (negb (is_y (n_dep node))) [indent_line ("depends on " +:+ estr (n_dep node))]
       ++ help_text_lines node).

(** [MenuNode.custom_str] *)
Definition node_custom_str (node : menu_node) : string :=
  match n_item node with
  | NSym s => sym_choice_node_str node (ISym s)
  | NCho c => sym_choice_node_str node (ICho c)
  | _ => menu_comment_node_str node
  end.

(** [Symbol.custom_str] and [Choice.custom_str] *)
Definition custom_str (i : item) : string :=
  sjoin (nl +:+ nl) ((λ n, node_custom_str (nod K n)) <$> nodes K i).

(** [MenuNode.referenced] *)
Definition conds_items {A} (f : A → gset item) (l : list (A * expr)) : gset item :=
  ⋃ ((λ p, f p.1 ∪ expr_items p.2) <$> l).

Definition referenced (node : menu_node) : gset item :=
  expr_items (n_dep node)
    ∪ match n_prompt node with Some (_, cond) => expr_items cond | None => ∅ end
    ∪ (if decide (n_item node = NMenu) then expr_items (n_visibility node) else ∅)
    ∪ conds_items expr_items (n_defaults node)
    ∪ conds_items (λ s, {[ISym s]}) (n_selects node)
    ∪ conds_items (λ s, {[ISym s]}) (n_implies node)
    ∪ conds_items (λ p : nat * nat, {[ISym p.1; ISym p.2]}) (n_ranges node).

(** [Symbol.referenced] and [Choice.referenced] *)
Definition item_referenced (i : item) : gset item :=
  ⋃ ((λ n, referenced (nod K n)) <$> nodes K i).
End Printing.
