(* ===== verification/DepLoop.v ===== *)
(** * Dependency loop detection

    The depth-first search of [_check_dep_loop_sym] and [_check_dep_loop_choice]
    over the [_dependents] sets.  [_visited] is the map of marks: 0 (no entry)
    unvisited, 1 on the stack, 2 done.  A loop is reported by [_found_dep_loop]
    with an exception. *)

From S2P Require Import Prelude PyStr PyText Kconst Expr Incr Objects Printing.
From stdpp Require Import options.

Section DepLoop.
Variable K : kconfig.

Abbreviation marks := (gmap item nat).

Definition mark_of (V : marks) (i : item) : nat := default 0 (V !! i).

(** Whether an item is a symbol in a choice. *)
Definition in_choice (i : item) : bool :=
  match i with ISym s => bool_decide (is_Some (s_choice (sym K s))) | ICho _ => false end.

Definition loop_item_text (first i : item) : string :=
  (if decide (i = first) then ""
   else "...depends on " +:+ (if in_choice i then "the choice symbol " else ""))
    +:+ name_and_loc K i +:+ ", with definition..." +:+ nl +:+ nl
    +:+ custom_str K (standard_sc_expr_str K) i +:+ nl +:+ nl
    +:+ match i with
        | ISym s =>
            let S := sym K s in
            let rev := expr_str (standard_sc_expr_str K) (s_rev_dep S) in
            (if decide (s_rev_dep S = ESym (k_sym_n K)) then ""
             else "(select-related dependencies: " +:+ rev +:+ ")" +:+ nl +:+ nl)
              +:+ (if decide (s_weak_rev_dep S = ESym (k_sym_n K)) then ""
                   else "(imply-related dependencies: " +:+ rev +:+ ")" +:+ nl +:+ nl)
        | ICho _ => ""
        end.

Definition dep_loop_message (loop : list item) (first : item) : string :=
  nl +:+ "Dependency loop" +:+ nl +:+ "===============" +:+ nl +:+ nl
    +:+ sconcat (loop_item_text first <$> loop)
    +:+ "...depends again on " +:+ name_and_loc K first.

(** [_found_dep_loop] *)
Definition found_dep_loop (loop : list item) (cur : item) : outcome (list item) :=
  match loop with
  | [] => Raise IndexError
  | first :: _ =>
      if decide (cur = first) then Raise (KconfigError (dep_loop_message loop first))
      else Ok (loop ++ [cur])
  end.

(** The searches return the part of a loop found so far, or [None]. *)
Fixpoint check_dep_loop_sym (fuel s : nat) (ignore_choice : bool) (V : marks)
    : outcome (option (list item) * marks) :=
  match fuel with
  | O => NoFuel
  | S f =>
      match mark_of V (ISym s) with
      | 0 =>
          let! (loop, V) := check_dependents f (dependents K (ISym s)) (<[ISym s := 1]> V) in
          let! (loop, V) :=
            match loop, s_choice (sym K s) with
            | None, Some c =>
                if ignore_choice then Ok (None, V) else check_dep_loop_choice f c (Some s) V
            | _, _ => Ok (loop, V)
            end in
          match loop with
          | Some loop => let! loop := found_dep_loop loop (ISym s) in Ok (Some loop, V)
          | None => Ok (None, <[ISym s := 2]> V)
          end
      | 1 => Ok (Some [ISym s], V)
      | _ => Ok (None, V)
      end
  end
with check_dependents (fuel : nat) (deps : list item) (V : marks)
    : outcome (option (list item) * marks) :=
  match fuel with
  | O => NoFuel
  | S f =>
      match deps with
      | [] => Ok (None, V)
      | dep :: deps =>
          let! (loop, V) :=
            match dep with
            | ICho c => check_dep_loop_choice f c None V
            | ISym s => check_dep_loop_sym f s false V
            end in
          match loop with
          | Some _ => Ok (loop, V)
          | None => check_dependents f deps V
          end
      end
  end
with check_dep_loop_choice (fuel c : nat) (skip : option nat) (V : marks)
    : outcome (option (list item) * marks) :=
  match fuel with
  | O => NoFuel
  | S f =>
      match mark_of V (ICho c) with
      | 0 =>
          let! (loop, V) := check_choice_syms f skip (c_syms (cho K c)) (<[ICho c := 1]> V) in
          match loop with
          | Some loop => let! loop := found_dep_loop loop (ICho c) in Ok (Some loop, V)
          | None => Ok (None, <[ICho c := 2]> V)
          end
      | 1 => Ok (Some [ICho c], V)
      | _ => Ok (None, V)
      end
  end
with check_choice_syms (fuel : nat) (skip : option nat) (syms : list nat) (V : marks)
    : outcome (option (list item) * marks) :=
  match fuel with
  | O => NoFuel
  | S f =>
      match syms with
      | [] => Ok (None, V)
      | s :: syms =>
          if decide (Some s = skip) then check_choice_syms f skip syms V
          else
            let! (loop, V) := check_dep_loop_sym f s true V in
            match loop with
            | Some _ => Ok (loop, V)
            | None => check_choice_syms f skip syms V
            end
      end
  end.

(** The loop over all symbols in [_init]; a loop it does not close is ignored. *)
Fixpoint check_dep_loops (fuel : nat) (syms : list nat) (V : marks) : outcome marks :=
  match syms with
  | [] => Ok V
  | s :: syms =>
      let! (_, V) := check_dep_loop_sym fuel s false V in
      check_dep_loops fuel syms V
  end.
End DepLoop.
