(* ===== verification/Sanity.v ===== *)
(** * Sanity checks after finalisation

    [_check_sym_sanity], [_check_choice_sanity] and [_check_undef_syms] of
    kconfiglib.py, in the order in which they warn or raise. *)

From S2P Require Import Prelude PyStr PyText Kconst Expr Incr Objects ParseState Printing.
From S2P Require Import MenuTree.
From stdpp Require Import options.

(** [_is_base_n] *)
Definition is_base_n (s : string) (n : Z) : bool := bool_decide (is_Some (py_int n s)).

(** Running a check on each element. *)
Fixpoint for_all_do {A} (f : A → M ()) (l : list A) : M () :=
  match l with
  | [] => mret ()
  | x :: l => f x;; for_all_do f l
  end.

Definition warn_if (b : bool) (msg : string) : M () := if b then pwarn msg else mret ().

Section Sanity.
Variable K : kconfig.

Abbreviation nal i := (name_and_loc K i).
Abbreviation show := (expr_str (standard_sc_expr_str K)).

(** [num_ok] *)
Definition num_ok (i : item) (t : ktype) : bool :=
  match nodes K i with
  | [] => match i with
          | ISym s => is_base_n (s_name (sym K s)) (default 10%Z (TYPE_TO_BASE t))
          | ICho _ => false
          end
  | _ => bool_decide (orig_type K i = t)
  end.

Definition check_targets (s : nat) (verb : string) (l : list (nat * expr)) : M () :=
  for_all_do (λ p,
    let T := sym K p.1 in
    warn_if (negb (BOOL_TRISTATE_UNKNOWN (s_orig_type T)))
      (nal (ISym s) +:+ " " +:+ verb +:+ " the " +:+ TYPE_TO_STR (s_orig_type T) +:+ " symbol "
         +:+ nal (ISym p.1) +:+ ", which is not bool or tristate")) l.

Definition check_default (s : nat) (default : expr) : M () :=
  let S := sym K s in
  let t := TYPE_TO_STR (s_orig_type S) in
  match default with
  | ESym d =>
      let D := sym K d in
      if decide (s_orig_type S = STRING) then
        warn_if (negb (s_is_constant D) && bool_decide (s_nodes D = []) && negb (isupper (s_name D)))
          ("style: quotes recommended around default value for string symbol " +:+ nal (ISym s))
      else
        warn_if (negb (num_ok (ISym d) (s_orig_type S)))
          ("the " +:+ t +:+ " symbol " +:+ nal (ISym s) +:+ " has a non-" +:+ t +:+ " default "
             +:+ nal (ISym d))
  | _ => throw (KconfigError
           ("the " +:+ t +:+ " symbol " +:+ nal (ISym s) +:+ " has a malformed default "
              +:+ show default +:+ " -- expected a single symbol"))
  end.

Definition check_ranges (s : nat) : M () :=
  let S := sym K s in
  let t := TYPE_TO_STR (s_orig_type S) in
  if decide (s_ranges S = []) then mret ()
  else if negb (INT_HEX (s_orig_type S)) then
    pwarn ("the " +:+ t +:+ " symbol " +:+ nal (ISym s) +:+ " has ranges, but is not int or hex")
  else
    for_all_do (λ p : nat * nat * expr,
      warn_if (negb (num_ok (ISym p.1.1) (s_orig_type S)) || negb (num_ok (ISym p.1.2) (s_orig_type S)))
        ("the " +:+ t +:+ " symbol " +:+ nal (ISym s) +:+ " has a non-" +:+ t +:+ " range ["
           +:+ nal (ISym p.1.1) +:+ ", " +:+ nal (ISym p.1.2) +:+ "]")) (s_ranges S).

Definition check_symbol (s : nat) : M () :=
  let S := sym K s in
  (if BOOL_TRISTATE (s_orig_type S) then
     check_targets s "selects" (s_selects S);; check_targets s "implies" (s_implies S)
   else if decide (s_orig_type S = UNKNOWN) then
     pwarn (nal (ISym s) +:+ " defined without a type")
   else
     for_all_do (λ p, check_default s p.1) (s_defaults S);;
     warn_if (negb (bool_decide (s_selects S = []) && bool_decide (s_implies S = [])))
       ("the " +:+ TYPE_TO_STR (s_orig_type S) +:+ " symbol " +:+ nal (ISym s)
          +:+ " has selects or implies"));;
  check_ranges s.

(** [_check_sym_sanity] *)
Definition check_sym_sanity : M () := for_all_do check_symbol (k_unique_defined_syms K).

(** [warn_select_imply] *)
Definition first_name (si : expr) : string :=
  match split_expr si OpAnd with EItem i :: _ => nal i | _ => "" end.

Definition warn_select_imply (s : nat) (e : expr) (expr_type : string) : M () :=
  pwarn ("the choice symbol " +:+ nal (ISym s) +:+ " is " +:+ expr_type
           +:+ " by the following symbols, but select/imply has no effect on choice symbols"
           +:+ sconcat ((λ si, nl +:+ " - " +:+ first_name si) <$> split_expr e OpOr)).

Definition parent_is (c : nat) (node : menu_node) : bool :=
  match n_parent node with
  | Some p => bool_decide (n_item (nod K p) = NCho c)
  | None => false
  end.

Definition check_choice_symbol (c s : nat) : M () :=
  let S := sym K s in
  let n := ESym (k_sym_n K) in
  warn_if (negb (bool_decide (s_defaults S = [])))
    ("default on the choice symbol " +:+ nal (ISym s)
       +:+ " will have no effect, as defaults do not affect choice symbols");;
  (if decide (s_rev_dep S = n) then mret () else warn_select_imply s (s_rev_dep S) "selected");;
  (if decide (s_weak_rev_dep S = n) then mret ()
   else warn_select_imply s (s_weak_rev_dep S) "implied");;
  for_all_do (λ m,
    let node := nod K m in
    let prompt := bool_decide (is_Some (n_prompt node)) in
    if parent_is c node then
      warn_if (negb prompt) ("the choice symbol " +:+ nal (ISym s) +:+ " has no prompt")
    else
      warn_if prompt ("the choice symbol " +:+ nal (ISym s)
                        +:+ " is defined with a prompt outside the choice")) (s_nodes S).

Definition check_choice_default (c : nat) (default : expr) : M () :=
  match default with
  | ESym d =>
      warn_if (negb (bool_decide (s_choice (sym K d) = Some c)))
        ("the default selection " +:+ nal (ISym d) +:+ " of " +:+ nal (ICho c)
           +:+ " is not contained in the choice")
  | _ => throw (KconfigError (nal (ICho c) +:+ " has a malformed default " +:+ show default))
  end.

Definition check_choice (c : nat) : M () :=
  let C := cho K c in
  warn_if (negb (BOOL_TRISTATE (c_orig_type C)))
    (nal (ICho c) +:+ " defined with type " +:+ TYPE_TO_STR (c_orig_type C));;
  warn_if (bool_decide (prompt_conds K (ICho c) = [])) (nal (ICho c) +:+ " defined without a prompt");;
  for_all_do (λ p, check_choice_default c p.1) (c_defaults C);;
  for_all_do (check_choice_symbol c) (c_syms C).

(** [_check_choice_sanity] *)
Definition check_choice_sanity : M () := for_all_do check_choice (k_unique_choices K).

(** [is_num] *)
Definition is_num (s : string) : bool :=
  bool_decide (is_Some (py_int 10 s))
  || ((startswith "0x" s || startswith "0X" s) && bool_decide (is_Some (py_int 16 s))).

(** [_check_undef_syms], given the nodes of [node_iter]. *)
Definition undef_references (s : nat) (ns : list nat) : string :=
  sconcat ((λ n,
    let node := nod K n in
    nl +:+ nl +:+ "- Referenced at " +:+ n_filename node +:+ ":" +:+ py_str (n_linenr node) +:+ ":"
      +:+ nl +:+ nl +:+ node_custom_str K (standard_sc_expr_str K) node)
    <$> filter (λ n, ISym s ∈ referenced (nod K n)) ns).

Definition check_undef_syms (ns : list nat) : M () :=
  for_all_do (λ p : string * nat,
    let S := sym K p.2 in
    warn_if (bool_decide (s_nodes S = []) && negb (is_num (s_name S))
             && negb (bool_decide (s_name S = "MODULES")))
      ("undefined symbol " +:+ s_name S +:+ ":" +:+ undef_references p.2 ns)) (k_syms K).
End Sanity.
