(* ===== verification/Values.v ===== *)
(** * Evaluation of symbols, choices and expressions

    The properties of kconfiglib.py that are computed on demand: [expr_value],
    [_visibility], and the [tri_value], [str_value], [assignable], [selection]
    and [type] properties of Symbol and Choice.  Each cached property is a query
    of Incr.v; its code below is the code of the Python property after the test
    of the cache, so reading another cached property is a [Get].  The properties
    without a cache ([type], [Choice.tri_value]) are plain procedures. *)

From S2P Require Import Prelude PyStr Kconst Expr Incr Objects.
From stdpp Require Import options.

(** The cached attributes: [_cached_tri_val], [_cached_str_val], [_cached_vis],
    [_cached_selection] and [_cached_assignable]. *)
Inductive query : Type :=
  | QTri (s : nat)
  | QStr (s : nat)
  | QVis (i : item)
  | QSel (c : nat)
  | QAsg (i : item).

#[global] Instance query_eq_dec : EqDecision query.
Proof. solve_decision. Defined.

#[global] Instance query_countable : Countable query.
Proof.
  refine (inj_countable'
    (λ q, match q with
          | QTri s => (0, ISym s) | QStr s => (1, ISym s) | QVis i => (2, i)
          | QSel c => (3, ICho c) | QAsg i => (4, i) end)
    (λ x, match x with
          | (0, ISym s) => QTri s | (1, ISym s) => QStr s | (2, i) => QVis i
          | (3, ICho c) => QSel c | (_, i) => QAsg i end) _).
  by intros [].
Defined.

Inductive val : Type :=
  | VTri (v : Z)
  | VStr (s : string)
  | VSel (o : option nat)
  | VAsg (l : list Z).

Definition owner (q : query) : item :=
  match q with
  | QTri s | QStr s => ISym s
  | QVis i | QAsg i => i
  | QSel c => ICho c
  end.

(** The type of the answers; the visibility of an item without a prompt is n. *)
Definition answer_ok (K : kconfig) (q : query) (v : val) : Prop :=
  match q, v with
  | QTri _, VTri z => is_tri z
  | QVis i, VTri z => is_tri z ∧ (prompt_conds K i = [] → z = 0%Z)
  | QStr _, VStr _ | QSel _, VSel _ | QAsg _, VAsg _ => True
  | _, _ => False
  end.

Abbreviation code A := (prog item query val A).

(** Reading a cached property. *)
Definition get_tri (s : nat) : code Z :=
  Get (QTri s) (λ v, match v with VTri z => Ret z | _ => Fail AttributeError end).
Definition get_str (s : nat) : code string :=
  Get (QStr s) (λ v, match v with VStr t => Ret t | _ => Fail AttributeError end).
Definition get_vis (i : item) : code Z :=
  Get (QVis i) (λ v, match v with VTri z => Ret z | _ => Fail AttributeError end).
Definition get_sel (c : nat) : code (option nat) :=
  Get (QSel c) (λ v, match v with VSel o => Ret o | _ => Fail AttributeError end).

Definition tri_to_str (v : Z) : code string :=
  match TRI_TO_STR v with Some s => Ret s | None => Fail KeyError end.

(** [_strcmp] *)
Definition strcmp (a b : string) : Z :=
  (if str_ltb b a then 1 else 0) - (if str_ltb a b then 1 else 0).

(** Whether a relation holds for a comparison result. *)
Definition rel_holds (r : rel) (comp : Z) : bool :=
  match r with
  | EQUAL => comp =? 0 | UNEQUAL => negb (comp =? 0)
  | LESS => comp <? 0 | LESS_EQUAL => comp <=? 0
  | GREATER => 0 <? comp | GREATER_EQUAL => 0 <=? comp
  end%Z.

Section Values.
Variable K : kconfig.
Variable u : ustate.

(** ** [type] and [Choice.tri_value]: properties without a cache *)

(** [Choice.type] *)
Definition choice_type (c : nat) : code ktype :=
  if decide (c_orig_type (cho K c) = TRISTATE) then
    m <- get_tri (k_modules K) ;;
    Ret (if (m =? 0)%Z then BOOL else TRISTATE)
  else Ret (c_orig_type (cho K c)).

(** [Choice.tri_value] *)
Definition choice_tri_value (c : nat) : code Z :=
  let val := if c_is_optional (cho K c) then 0%Z else 1%Z in
  let val := match choice_user_value u !! c with
             | Some uv => Z.max val uv | None => val end in
  vis <- get_vis (ICho c) ;;
  let val := Z.min val vis in
  if (val =? 1)%Z then
    t <- choice_type c ;; Ret (if decide (t = BOOL) then 2%Z else val)
  else Ret val.

(** [tri_value] of a Symbol or Choice. *)
Definition item_tri_value (i : item) : code Z :=
  match i with ISym s => get_tri s | ICho c => choice_tri_value c end.

(** [Symbol.type] *)
Definition symbol_type (s : nat) : code ktype :=
  let S := sym K s in
  if decide (s_orig_type S = TRISTATE) then
    in_y_choice <- (match s_choice S with
                    | Some c => t <- choice_tri_value c ;; Ret (t =? 2)%Z
                    | None => Ret false
                    end) ;;
    if (in_y_choice : bool) then Ret BOOL
    else m <- get_tri (k_modules K) ;; Ret (if (m =? 0)%Z then BOOL else TRISTATE)
  else Ret (s_orig_type S).

Definition item_type (i : item) : code ktype :=
  match i with ISym s => symbol_type s | ICho c => choice_type c end.

(** ** [expr_value] *)

(** [_sym_to_num]: [None] stands for the [ValueError] of [int]. *)
Definition sym_to_num (s : nat) : code (option Z) :=
  let t := s_orig_type (sym K s) in
  if BOOL_TRISTATE t then v <- get_tri s ;; Ret (Some v)
  else
    v <- get_str s ;;
    match TYPE_TO_BASE t with
    | Some base => Ret (py_int base v)
    | None => Fail KeyError
    end.

Definition sym_strcmp (s1 s2 : nat) : code Z :=
  a <- get_str s1 ;; b <- get_str s2 ;; Ret (strcmp a b).

Definition rel_value (r : rel) (s1 s2 : nat) : code Z :=
  comp <- (if decide (s_orig_type (sym K s1) = STRING ∧ s_orig_type (sym K s2) = STRING)
           then sym_strcmp s1 s2
           else
             n1 <- sym_to_num s1 ;;
             match n1 with
             | None => sym_strcmp s1 s2
             | Some n1 =>
                 n2 <- sym_to_num s2 ;;
                 match n2 with
                 | None => sym_strcmp s1 s2
                 | Some n2 => Ret (n1 - n2)%Z
                 end
             end) ;;
  Ret (if rel_holds r comp then 2%Z else 0%Z).

Fixpoint expr_value (e : expr) : code Z :=
  match e with
  | EItem i => item_tri_value i
  | EAnd e1 e2 =>
      v1 <- expr_value e1 ;;
      if (v1 =? 0)%Z then Ret 0%Z else v2 <- expr_value e2 ;; Ret (Z.min v1 v2)
  | EOr e1 e2 =>
      v1 <- expr_value e1 ;;
      if (v1 =? 2)%Z then Ret 2%Z else v2 <- expr_value e2 ;; Ret (Z.max v1 v2)
  | ENot e => v <- expr_value e ;; Ret (2 - v)%Z
  | ERel r s1 s2 => rel_value r s1 s2
  end.

(** ** [_visibility] *)
Fixpoint max_value (vis : Z) (conds : list expr) : code Z :=
  match conds with
  | [] => Ret vis
  | e :: conds => v <- expr_value e ;; max_value (Z.max vis v) conds
  end.

(** Whether the choice of a choice symbol hides it. *)
Definition hidden_by_choice (i : item) (vis : Z) : code bool :=
  match i with
  | ISym s =>
      match s_choice (sym K s) with
      | Some c =>
          let tristate := bool_decide (s_orig_type (sym K s) = TRISTATE) in
          h <- (if bool_decide (c_orig_type (cho K c) = TRISTATE) && negb tristate
                then t <- choice_tri_value c ;; Ret (negb (t =? 2)%Z)
                else Ret false) ;;
          if (h : bool) then Ret true
          else if tristate && (vis =? 1)%Z
               then t <- choice_tri_value c ;; Ret (t =? 2)%Z
               else Ret false
      | None => Ret false
      end
  | ICho _ => Ret false
  end.

Definition visibility (i : item) : code Z :=
  vis <- max_value 0 (prompt_conds K i) ;;
  h <- hidden_by_choice i vis ;;
  if (h : bool) then Ret 0%Z
  else if (vis =? 1)%Z then
    t <- item_type i ;; Ret (if decide (t = TRISTATE) then vis else 2%Z)
  else Ret vis.

(** The first pair of a list whose condition is not n, with the condition's
    value: the loops over [defaults] and [ranges]. *)
Fixpoint first_active {A} (l : list (A * expr)) : code (option (A * Z)) :=
  match l with
  | [] => Ret None
  | (x, cond) :: l =>
      v <- expr_value cond ;;
      if (v =? 0)%Z then first_active l else Ret (Some (x, v))
  end.

(** ** [Symbol._warn_select_unsatisfied_deps]: the text of the warning *)
Definition show_expr (e : expr) : string := expr_str (standard_sc_expr_str K) e.

Definition value_str (e : expr) : code string := v <- expr_value e ;; tri_to_str v.

Fixpoint select_lines (direct : expr) (selects : list expr) (msg : string) : code string :=
  match selects with
  | [] => Ret msg
  | sel :: selects =>
      v <- expr_value sel ;;
      d <- expr_value direct ;;
      if (v <=? d)%Z then select_lines direct selects msg
      else
        match split_expr sel OpAnd with
        | ESym s :: _ =>
            str <- get_str s ;;
            dv <- value_str (s_direct_dep (sym K s)) ;;
            let msg := msg +:+ nl +:+ " - " +:+ name_and_loc K (ISym s) +:+ ", with value "
              +:+ str +:+ ", direct dependencies " +:+ show_expr (s_direct_dep (sym K s))
              +:+ " (value: " +:+ dv +:+ ")" in
            match sel with
            | EItem _ => select_lines direct selects msg
            | EAnd _ cond =>
                cv <- value_str cond ;;
                select_lines direct selects
                  (msg +:+ ", and select condition " +:+ show_expr cond +:+ " (value: "
                     +:+ cv +:+ ")")
            | _ => Fail IndexError
            end
        | _ => Fail AttributeError
        end
  end.

Definition unsatisfied_deps_warning (s : nat) : code string :=
  let S := sym K s in
  dv <- value_str (s_direct_dep S) ;;
  rv <- value_str (s_rev_dep S) ;;
  select_lines (s_direct_dep S) (split_expr (s_rev_dep S) OpOr)
    (name_and_loc K (ISym s) +:+ " has direct dependencies " +:+ show_expr (s_direct_dep S)
       +:+ " with value " +:+ dv +:+ ", but is currently being " +:+ rv
       +:+ "-selected by the following symbols:").

(** ** [Symbol.tri_value] *)

(** Defaults and weak reverse dependencies. *)
Definition tri_defaults (s : nat) : code Z :=
  let S := sym K s in
  d <- first_active (s_defaults S) ;;
  val <- (match d with
          | Some (default, dep_val) =>
              v <- expr_value default ;;
              let val := Z.min v dep_val in
              if (val =? 0)%Z then Ret val else SetW (ISym s) true (Ret val)
          | None => Ret 0%Z
          end) ;;
  weak <- expr_value (s_weak_rev_dep S) ;;
  if (weak =? 0)%Z then Ret val
  else
    direct <- expr_value (s_direct_dep S) ;;
    if (direct =? 0)%Z then Ret val else SetW (ISym s) true (Ret (Z.max weak val)).

(** The value of a non-choice symbol before selects: its user value if it is
    visible and has one, else defaults and implies. *)
Definition tri_own (s : nat) (vis : Z) : code Z :=
  match user_value u !! s with
  | Some uv =>
      if (vis =? 0)%Z then tri_defaults s
      else match uv with UTri v => Ret (Z.min v vis) | UStr _ => Fail TypeError end
  | None => tri_defaults s
  end.

(** Reverse dependencies take precedence. *)
Definition tri_select (s : nat) (val : Z) : code Z :=
  let S := sym K s in
  dep_val <- expr_value (s_rev_dep S) ;;
  if (dep_val =? 0)%Z then Ret val
  else
    direct <- expr_value (s_direct_dep S) ;;
    let selected := SetW (ISym s) true (Ret (Z.max dep_val val)) in
    if (direct <? dep_val)%Z then Warn (unsatisfied_deps_warning s) selected
    else selected.

(** m is promoted to y for bool symbols and for symbols implied to y. *)
Definition tri_promote (s : nat) (val : Z) : code Z :=
  if (val =? 1)%Z then
    t <- symbol_type s ;;
    if decide (t = BOOL) then Ret 2%Z
    else
      weak <- expr_value (s_weak_rev_dep (sym K s)) ;;
      Ret (if (weak =? 2)%Z then 2%Z else val)
  else Ret val.

Definition truthy (o : option uval) : bool :=
  match o with
  | None => false
  | Some (UTri v) => negb (v =? 0)%Z
  | Some (UStr s) => negb (bool_decide (s = ""))
  end.

Definition tri_body (s : nat) : code Z :=
  let S := sym K s in
  if BOOL_TRISTATE (s_orig_type S) then
    vis <- get_vis (ISym s) ;;
    SetW (ISym s) (negb (vis =? 0)%Z)
      (match s_choice S with
       | None =>
           val <- tri_own s vis ;;
           val <- tri_select s val ;;
           tri_promote s val
       | Some c =>
           if (vis =? 2)%Z then
             sel <- get_sel c ;; Ret (if decide (sel = Some s) then 2%Z else 0%Z)
           else if negb (vis =? 0)%Z && truthy (user_value u !! s) then Ret 1%Z
           else Ret 0%Z
       end)
  else if decide (s_orig_type S = UNKNOWN) then Ret 0%Z
  else
    Warn (Ret ("The " +:+ TYPE_TO_STR (s_orig_type S) +:+ " symbol "
                 +:+ name_and_loc K (ISym s)
                 +:+ " is being evaluated in a logical context somewhere. "
                 +:+ "It will always evaluate to n."))
      (Ret 0%Z).

(** ** [Symbol.str_value] *)

(** [default.str_value] for a default of a string, int or hex symbol. *)
Definition default_str (e : expr) : code string :=
  match e with
  | ESym s => get_str s
  | EItem (ICho c) => v <- choice_tri_value c ;; tri_to_str v
  | _ => Fail AttributeError
  end.

(** [int(s, base) if _is_base_n(s, base) else 0] *)
Definition num_or_0 (base : Z) (s : string) : Z := default 0%Z (py_int base s).

(** The bounds of the active range, if any. *)
Definition active_range (base : Z) (s : nat) : code (option (Z * Z)) :=
  r <- first_active (s_ranges (sym K s)) ;;
  match r with
  | Some ((low, high), _) =>
      l <- get_str low ;;
      h <- get_str high ;;
      Ret (Some (num_or_0 base l, num_or_0 base h))
  | None => Ret None
  end.

Definition out_of_range (range : option (Z * Z)) (v : Z) : bool :=
  match range with
  | Some (low, high) => negb ((low <=? v) && (v <=? high))%Z
  | None => false
  end.

Definition num2str (base n : Z) : string := if (base =? 10)%Z then py_str n else py_hex n.

Definition range_str (base : Z) (range : option (Z * Z)) : string :=
  match range with
  | Some (low, high) => "[" +:+ num2str base low +:+ ", " +:+ num2str base high +:+ "]"
  | None => ""
  end.

(** The clamped value of a default, when the active range excludes it. *)
Definition clamp (range : option (Z * Z)) (v : Z) : option Z :=
  match range with
  | Some (low, high) =>
      if (v <? low)%Z then Some low else if (high <? v)%Z then Some high else None
  | None => None
  end.

(** Defaults of an int or hex symbol, clamped to the active range. *)
Definition num_defaults (base : Z) (s : nat) (range : option (Z * Z)) : code string :=
  let S := sym K s in
  d <- first_active (s_defaults S) ;;
  p <- (match d with
        | Some (default, _) =>
            SetW (ISym s) true
              (v <- default_str default ;; Ret (true, v, num_or_0 base v))
        | None => Ret (false, "", 0%Z)
        end) ;;
  let '(has_default, val, val_num) := p in
  match clamp range val_num with
  | None => Ret val
  | Some v =>
      let new := if decide (s_orig_type S = INT) then py_str v else py_hex v in
      if (has_default : bool) then
        Warn (Ret ("default value " +:+ py_str val_num +:+ " on " +:+ name_and_loc K (ISym s)
                     +:+ " clamped to " +:+ num2str base v
                     +:+ " due to being outside the active range ("
                     +:+ range_str base range +:+ ")"))
          (Ret new)
      else Ret new
  end.

Definition num_value (base : Z) (s : nat) (vis : Z) : code string :=
  let S := sym K s in
  range <- active_range base s ;;
  match user_value u !! s with
  | Some uv =>
      if (vis =? 0)%Z || negb (truthy (Some uv)) then num_defaults base s range
      else
        match uv with
        | UTri _ => Fail TypeError
        | UStr user =>
            match py_int base user with
            | None => Fail ValueError
            | Some user_val =>
                if out_of_range range user_val then
                  Warn (Ret ("user value " +:+ num2str base user_val +:+ " on the "
                               +:+ TYPE_TO_STR (s_orig_type S) +:+ " symbol "
                               +:+ name_and_loc K (ISym s)
                               +:+ " ignored due to being outside the active range ("
                               +:+ range_str base range +:+ ") -- falling back on defaults"))
                    (num_defaults base s range)
                else Ret user
            end
        end
  | None => num_defaults base s range
  end.

Definition string_defaults (s : nat) : code string :=
  d <- first_active (s_defaults (sym K s)) ;;
  match d with
  | Some (default, _) =>
      v <- default_str default ;; SetW (ISym s) true (Ret v)
  | None => Ret ""
  end.

Definition string_value (s : nat) (vis : Z) : code string :=
  match user_value u !! s with
  | Some uv =>
      if (vis =? 0)%Z then string_defaults s
      else match uv with UStr v => Ret v | UTri _ => Fail TypeError end
  | None => string_defaults s
  end.

Definition str_body (s : nat) : code string :=
  let S := sym K s in
  if BOOL_TRISTATE (s_orig_type S) then v <- get_tri s ;; tri_to_str v
  else if decide (s_orig_type S = UNKNOWN) then Ret (s_name S)
  else
    vis <- get_vis (ISym s) ;;
    SetW (ISym s) (negb (vis =? 0)%Z)
      (val <- (match s_orig_type S with
               | INT => num_value 10 s vis
               | HEX => num_value 16 s vis
               | _ => string_value s vis
               end) ;;
       if bool_decide (is_Some (s_env_var S))
          || bool_decide (k_defconfig_list K = Some (NSym s))
       then SetW (ISym s) false (Ret val)
       else Ret val).

(** ** [Choice.selection] *)
Fixpoint default_selection (l : list (expr * expr)) : code (option nat) :=
  match l with
  | [] => Ret None
  | (default, cond) :: l =>
      v <- expr_value cond ;;
      if (v =? 0)%Z then default_selection l
      else
        match default with
        | ESym s =>
            vis <- get_vis (ISym s) ;;
            if (vis =? 0)%Z then default_selection l else Ret (Some s)
        | _ => Fail AttributeError
        end
  end.

Fixpoint first_visible (l : list nat) : code (option nat) :=
  match l with
  | [] => Ret None
  | s :: l =>
      vis <- get_vis (ISym s) ;;
      if (vis =? 0)%Z then first_visible l else Ret (Some s)
  end.

(** [Choice._selection_from_defaults] *)
Definition selection_from_defaults (c : nat) : code (option nat) :=
  d <- default_selection (c_defaults (cho K c)) ;;
  match d with
  | Some s => Ret (Some s)
  | None => first_visible (c_syms (cho K c))
  end.

(** [Choice._selection] *)
Definition sel_body (c : nat) : code (option nat) :=
  t <- choice_tri_value c ;;
  if (t =? 2)%Z then
    match user_selection u !! c with
    | Some s =>
        vis <- get_vis (ISym s) ;;
        if (vis =? 0)%Z then selection_from_defaults c else Ret (Some s)
    | None => selection_from_defaults c
    end
  else Ret None.

(** ** [assignable] *)

(** Whether a symbol cannot be m: [self.type is BOOL or
    expr_value(self.weak_rev_dep) == 2]. *)
Definition no_m (s : nat) : code bool :=
  t <- symbol_type s ;;
  if decide (t = BOOL) then Ret true
  else w <- expr_value (s_weak_rev_dep (sym K s)) ;; Ret (w =? 2)%Z.

(** [Symbol._assignable] *)
Definition symbol_assignable (s : nat) : code (list Z) :=
  let S := sym K s in
  if BOOL_TRISTATE (s_orig_type S) then
    vis <- get_vis (ISym s) ;;
    if (vis =? 0)%Z then Ret []
    else
      rev <- expr_value (s_rev_dep S) ;;
      if (vis =? 2)%Z then
        match s_choice S with
        | Some _ => Ret [2%Z]
        | None =>
            if (rev =? 0)%Z then
              b <- no_m s ;; Ret (if (b : bool) then [0; 2]%Z else [0; 1; 2]%Z)
            else if (rev =? 2)%Z then Ret [2%Z]
            else b <- no_m s ;; Ret (if (b : bool) then [2]%Z else [1; 2]%Z)
        end
      else if (rev =? 0)%Z then
        w <- expr_value (s_weak_rev_dep S) ;;
        Ret (if (w =? 2)%Z then [0; 2]%Z else [0; 1]%Z)
      else if (rev =? 2)%Z then Ret [2%Z]
      else Ret [1%Z]
  else Ret [].

(** [Choice._assignable] *)
Definition choice_assignable (c : nat) : code (list Z) :=
  vis <- get_vis (ICho c) ;;
  if (vis =? 0)%Z then Ret []
  else if (vis =? 2)%Z then
    t <- choice_type c ;;
    let bool := bool_decide (t = BOOL) in
    if c_is_optional (cho K c)
    then Ret (if bool then [0; 2]%Z else [0; 1; 2]%Z)
    else Ret (if bool then [2]%Z else [1; 2]%Z)
  else if c_is_optional (cho K c) then Ret [0; 1]%Z
  else Ret [1%Z].

Definition assignable (i : item) : code (list Z) :=
  match i with ISym s => symbol_assignable s | ICho c => choice_assignable c end.

(** ** The code of every query *)
Definition body (q : query) : code val :=
  match q with
  | QTri s => v <- tri_body s ;; Ret (VTri v)
  | QStr s => v <- str_body s ;; Ret (VStr v)
  | QVis i => v <- visibility i ;; Ret (VTri v)
  | QSel c => o <- sel_body c ;; Ret (VSel o)
  | QAsg i => l <- assignable i ;; Ret (VAsg l)
  end.
End Values.

(** The constants n, m and y are created with [_cached_tri_val] set. *)
Definition preset (K : kconfig) (q : query) : option val :=
  match q with
  | QTri s =>
      if decide (s = k_sym_n K) then Some (VTri 0)
      else if decide (s = k_sym_m K) then Some (VTri 1)
      else if decide (s = k_sym_y K) then Some (VTri 2)
      else None
  | _ => None
  end.

(** Where [_write_to_conf] of an object is set. *)
Definition writer (K : kconfig) (i : item) : query :=
  match i with
  | ISym s => if BOOL_TRISTATE (s_orig_type (sym K s)) then QTri s else QStr s
  | ICho c => QVis (ICho c)
  end.

(** [self._cached_x = None] for the cached attributes of an object. *)
Definition slots (i : item) : list query :=
  match i with
  | ISym s => [QStr s; QTri s; QVis i; QAsg i]
  | ICho c => [QVis i; QAsg i; QSel c]
  end.

Abbreviation kstate := (istate item query val).

(** A freshly loaded configuration: only n, m and y hold a value, and
    [_write_to_conf] is [False] everywhere. *)
Definition initial_state (K : kconfig) (l : wlog) : kstate :=
  IState {[QTri (k_sym_n K) := VTri 0; QTri (k_sym_m K) := VTri 1;
           QTri (k_sym_y K) := VTri 2]} ∅ l.
