(* ===== verification/Reads.v ===== *)
(** * What the code of a property may read

    [static_reads q] bounds the cached properties the code of [q] evaluates for
    its value and [warn_reads q] those it evaluates only for the text of a
    warning.  On well-formed configurations and user values ([wf], [uok]) the
    code of every property stays within them, never raises, and returns an
    answer of the right type. *)

From S2P Require Import Prelude PyStr Kconst Expr Incr Objects Values.
From stdpp Require Import options.

Section Reads.
Variable K : kconfig.

Definition choice_type_reads (c : nat) : list query :=
  if decide (c_orig_type (cho K c) = TRISTATE) then [QTri (k_modules K)] else [].

(** [tri_value] of a symbol or choice. *)
Definition item_reads (i : item) : list query :=
  match i with
  | ISym s => [QTri s]
  | ICho c => QVis (ICho c) :: choice_type_reads c
  end.

Definition choice_reads (o : option nat) : list query :=
  match o with Some c => item_reads (ICho c) | None => [] end.

Definition type_reads (i : item) : list query :=
  match i with
  | ISym s =>
      if decide (s_orig_type (sym K s) = TRISTATE)
      then choice_reads (s_choice (sym K s)) ++ [QTri (k_modules K)] else []
  | ICho c => choice_type_reads c
  end.

Fixpoint expr_reads (e : expr) : list query :=
  match e with
  | EItem i => item_reads i
  | EAnd e1 e2 | EOr e1 e2 => expr_reads e1 ++ expr_reads e2
  | ENot e => expr_reads e
  | ERel _ s1 s2 => [QTri s1; QStr s1; QTri s2; QStr s2]
  end.

Definition conds_reads {A} (l : list (A * expr)) : list query :=
  flat_map (λ p, expr_reads p.2) l.

Definition default_str_reads (e : expr) : list query :=
  match e with ESym s => [QStr s] | EItem (ICho c) => item_reads (ICho c) | _ => [] end.

Definition default_vis_reads (e : expr) : list query :=
  match e with ESym s => [QVis (ISym s)] | _ => [] end.

(** Reads that happen only for items with a prompt. *)
Definition prompted (i : item) (l : list query) : list query :=
  match prompt_conds K i with [] => [] | _ => l end.

Definition static_reads (q : query) : list query :=
  match q with
  | QVis i =>
      flat_map expr_reads (prompt_conds K i)
        ++ match i with ISym s => choice_reads (s_choice (sym K s)) | ICho _ => [] end
        ++ prompted i (type_reads i)
  | QTri s =>
      let S := sym K s in
      if BOOL_TRISTATE (s_orig_type S) then
        QVis (ISym s) ::
          match s_choice S with
          | Some c => [QSel c]
          | None =>
              conds_reads (s_defaults S) ++ flat_map (λ p, expr_reads p.1) (s_defaults S)
                ++ expr_reads (s_weak_rev_dep S) ++ expr_reads (s_direct_dep S)
                ++ expr_reads (s_rev_dep S) ++ type_reads (ISym s)
          end
      else []
  | QStr s =>
      let S := sym K s in
      if BOOL_TRISTATE (s_orig_type S) then [QTri s]
      else if decide (s_orig_type S = UNKNOWN) then []
      else
        QVis (ISym s) :: conds_reads (s_defaults S)
          ++ flat_map (λ p, default_str_reads p.1) (s_defaults S)
          ++ (if INT_HEX (s_orig_type S) then
                conds_reads (s_ranges S)
                  ++ flat_map (λ p, [QStr p.1.1; QStr p.1.2]) (s_ranges S)
              else [])
  | QSel c =>
      let C := cho K c in
      item_reads (ICho c) ++ conds_reads (c_defaults C)
        ++ flat_map (λ p, default_vis_reads p.1) (c_defaults C)
        ++ ((λ s, QVis (ISym s)) <$> c_syms C)
  | QAsg (ISym s) =>
      let S := sym K s in
      if BOOL_TRISTATE (s_orig_type S) then
        QVis (ISym s) ::
          prompted (ISym s) (expr_reads (s_rev_dep S) ++ expr_reads (s_weak_rev_dep S)
                               ++ type_reads (ISym s))
      else []
  | QAsg (ICho c) => QVis (ICho c) :: type_reads (ICho c)
  end.

(** The symbol a select in a reverse dependency comes from. *)
Definition selecting (sel : expr) : option nat :=
  match split_expr sel OpAnd with ESym s :: _ => Some s | _ => None end.

Definition select_reads (sel : expr) : list query :=
  expr_reads sel ++
    match selecting sel with
    | Some s => QStr s :: expr_reads (s_direct_dep (sym K s))
    | None => []
    end.

Definition warn_reads (q : query) : list query :=
  match q with
  | QTri s =>
      let S := sym K s in
      match s_choice S with
      | Some _ => []
      | None =>
          if BOOL_TRISTATE (s_orig_type S) then
            expr_reads (s_direct_dep S) ++ expr_reads (s_rev_dep S)
              ++ flat_map select_reads (split_expr (s_rev_dep S) OpOr)
          else []
      end
  | _ => []
  end.

(** ** Well-formed configurations *)

Definition select_ok (sel : expr) : bool :=
  match selecting sel with
  | Some _ => match sel with EItem _ | EAnd _ _ => true | _ => false end
  | None => false
  end.

Definition is_item (e : expr) : bool := match e with EItem _ => true | _ => false end.
Definition is_symbol (e : expr) : bool := match e with ESym _ => true | _ => false end.

(** Defaults of string, int and hex symbols are symbols (checked by
    [_check_sym_sanity]); reverse dependencies have the shape
    [_add_props_to_sym] gives them; choice symbols are listed by their choice. *)
Definition symbol_ok (s : nat) (S : symbol) : bool :=
  (BOOL_TRISTATE_UNKNOWN (s_orig_type S) || forallb (λ p, is_item p.1) (s_defaults S))
  && forallb select_ok (split_expr (s_rev_dep S) OpOr)
  && match s_choice S with
     | Some c => mem s (c_syms (cho K c))
     | None => true
     end.

(** Defaults of choices are symbols (checked by [_check_choice_sanity]). *)
Definition choice_ok (c : nat) (C : choice) : bool :=
  forallb (λ p, is_symbol p.1) (c_defaults C).

Definition wfb : bool :=
  bool_decide (map_Forall (λ s S, symbol_ok s S = true) (k_syms_store K))
  && bool_decide (map_Forall (λ c C, choice_ok c C = true) (k_choices_store K)).

Definition wf : Prop :=
  (∀ s, symbol_ok s (sym K s) = true) ∧ (∀ c, choice_ok c (cho K c) = true).

Lemma wfb_wf : wfb = true → wf.
Proof.
  unfold wfb. rewrite andb_true_iff, !bool_decide_eq_true. intros [Hs Hc]. split.
  - intros s. unfold sym, lookup_total, map_lookup_total.
    destruct (k_syms_store K !! s) eqn:Hl; cbn; [by apply Hs|done].
  - intros c. unfold cho, lookup_total, map_lookup_total.
    destruct (k_choices_store K !! c) eqn:Hl; cbn; [by apply Hc|done].
Qed.

(** ** Well-typed user values *)
Definition uval_ok (t : ktype) (v : uval) : Prop :=
  match t, v with
  | BOOL, UTri z => z = 0%Z ∨ z = 2%Z
  | TRISTATE, UTri z => is_tri z
  | STRING, UStr _ => True
  | INT, UStr s => is_Some (py_int 10 s)
  | HEX, UStr s => ∃ n, py_int 16 s = Some n ∧ (0 ≤ n)%Z
  | _, _ => False
  end.

Record uok (u : ustate) : Prop := {
  uok_sym s v : user_value u !! s = Some v → uval_ok (s_orig_type (sym K s)) v;
  uok_choice c v : choice_user_value u !! c = Some v → uval_ok (c_orig_type (cho K c)) (UTri v);
  uok_sel c s : user_selection u !! c = Some s → s_choice (sym K s) = Some c
}.

Lemma uok_none : uok no_user_values.
Proof. split; cbn; intros *; by rewrite lookup_empty. Qed.
End Reads.

(** ** The code of a property stays within its reads *)

Lemma tri_str_ok v : is_tri v → ∃ s, TRI_TO_STR v = Some s.
Proof. intros [->|[->| ->]]%is_tri_cases; cbn; eauto. Qed.

Section Safe.
Variable K : kconfig.
Variable u : ustate.
Hypothesis Hwf : wf K.
Hypothesis Hu : uok K u.
Variables P W : query → Prop.

Abbreviation safe' := (safe P W (answer_ok K)).

Lemma safe_get_tri s (Φ : Z → Prop) :
  P (QTri s) → (∀ z, is_tri z → Φ z) → safe' Φ (get_tri s).
Proof using Type. intros HP HΦ. split; [done|]. intros [] Hv; cbn in *; try done; auto. Qed.
Lemma safe_get_vis i (Φ : Z → Prop) :
  P (QVis i) → (∀ z, is_tri z → (prompt_conds K i = [] → z = 0%Z) → Φ z) → safe' Φ (get_vis i).
Proof using Type. intros HP HΦ. split; [done|]. intros [] Hv; cbn in *; try done. destruct Hv. by apply HΦ. Qed.
Lemma safe_get_str s (Φ : string → Prop) :
  P (QStr s) → (∀ t, Φ t) → safe' Φ (get_str s).
Proof using Type. intros HP HΦ. split; [done|]. intros [] Hv; cbn in *; try done; auto. Qed.
Lemma safe_get_sel c (Φ : option nat → Prop) :
  P (QSel c) → (∀ o, Φ o) → safe' Φ (get_sel c).
Proof using Type. intros HP HΦ. split; [done|]. intros [] Hv; cbn in *; try done; auto. Qed.
Lemma safe_tri_to_str v (Φ : string → Prop) :
  is_tri v → (∀ t, Φ t) → safe' Φ (tri_to_str v).
Proof using Type. intros [s Hs]%tri_str_ok HΦ. unfold tri_to_str. rewrite Hs. cbn. auto. Qed.

Lemma safe_choice_type c :
  Forall P (choice_type_reads K c) → safe' (λ _, True) (choice_type K c).
Proof using Type.
  unfold choice_type_reads, choice_type. case_decide; [|done]. rewrite Forall_singleton; intros HP.
  apply (safe_bind _ _ _ is_tri); [by apply safe_get_tri|done].
Qed.

Lemma safe_choice_tri_value c :
  Forall P (item_reads K (ICho c)) → safe' is_tri (choice_tri_value K u c).
Proof using Hu.
  cbn [item_reads]. intros [Hv Ht]%Forall_cons. unfold choice_tri_value.
  apply (safe_bind _ _ _ is_tri); [by apply safe_get_vis|]. intros vis Hvis.
  set (val := match choice_user_value u !! c with Some _ => _ | None => _ end).
  assert (is_tri val).
  { assert (is_tri (if c_is_optional (cho K c) then 0%Z else 1%Z)) by (unfold is_tri; case_match; lia).
    subst val. destruct (choice_user_value u !! c) as [v|] eqn:Huv; [|done].
    pose proof (uok_choice _ _ Hu _ _ Huv) as Hok.
    assert (is_tri v); [|unfold is_tri in *; lia].
    unfold uval_ok, is_tri in *. case_match; try done; lia. }
  case_match eqn:He.
  - apply (safe_bind _ _ _ (λ _, True)); [by apply safe_choice_type|]. intros t _. cbn.
    apply Z.eqb_eq in He. case_decide; unfold is_tri in *; lia.
  - cbn. unfold is_tri in *; lia.
Qed.

Lemma safe_item_tri_value i :
  Forall P (item_reads K i) → safe' is_tri (item_tri_value K u i).
Proof using Hu.
  destruct i as [s|c]; [|apply safe_choice_tri_value].
  cbn [item_reads]. rewrite Forall_singleton; intros HP. by apply safe_get_tri.
Qed.

Lemma safe_symbol_type s :
  Forall P (type_reads K (ISym s)) → safe' (λ _, True) (symbol_type K u s).
Proof using Hu.
  cbn [type_reads]. unfold symbol_type. case_decide; [|done].
  rewrite Forall_app, Forall_singleton. intros [Hc Hm].
  apply (safe_bind _ _ _ (λ _, True)).
  - destruct (s_choice (sym K s)) as [c|]; [|done].
    apply (safe_bind _ _ _ is_tri); [by apply safe_choice_tri_value|done].
  - intros [] _; [done|]. apply (safe_bind _ _ _ is_tri); [by apply safe_get_tri|done].
Qed.

Lemma safe_item_type i :
  Forall P (type_reads K i) → safe' (λ _, True) (item_type K u i).
Proof using Hu. destruct i; [apply safe_symbol_type|apply safe_choice_type]. Qed.

Lemma safe_sym_strcmp s1 s2 :
  P (QStr s1) → P (QStr s2) → safe' (λ _, True) (sym_strcmp s1 s2).
Proof using Type.
  intros. apply (safe_bind _ _ _ (λ _, True)); [by apply safe_get_str|]. intros a _.
  apply (safe_bind _ _ _ (λ _, True)); [by apply safe_get_str|done].
Qed.

Lemma safe_sym_to_num s :
  P (QTri s) → P (QStr s) → safe' (λ _, True) (sym_to_num K s).
Proof using Type.
  intros. unfold sym_to_num. case_match eqn:Hb.
  - apply (safe_bind _ _ _ is_tri); [by apply safe_get_tri|done].
  - apply (safe_bind _ _ _ (λ _, True)); [by apply safe_get_str|]. intros a _.
    by destruct (s_orig_type (sym K s)).
Qed.

Lemma safe_rel_value r s1 s2 :
  Forall P [QTri s1; QStr s1; QTri s2; QStr s2] → safe' is_tri (rel_value K r s1 s2).
Proof using Type.
  rewrite !Forall_cons. intros (? & ? & ? & ? & _). unfold rel_value.
  apply (safe_bind _ _ _ (λ _, True)).
  - case_decide; [by apply safe_sym_strcmp|].
    apply (safe_bind _ _ _ (λ _, True)); [by apply safe_sym_to_num|].
    intros [n1|] _; [|by apply safe_sym_strcmp].
    apply (safe_bind _ _ _ (λ _, True)); [by apply safe_sym_to_num|].
    intros [n2|] _; [done|by apply safe_sym_strcmp].
  - intros comp _. cbn. unfold is_tri. case_match; lia.
Qed.

Lemma safe_expr_value e : Forall P (expr_reads K e) → safe' is_tri (expr_value K u e).
Proof using Hu.
  induction e as [i|e1 IH1 e2 IH2|e1 IH1 e2 IH2|e IH|r s1 s2]; cbn [expr_reads expr_value].
  - apply safe_item_tri_value.
  - intros [H1 H2]%Forall_app. apply (safe_bind _ _ _ is_tri); [auto|]. intros v1 Hv1.
    case_match; [done|]. apply (safe_bind _ _ _ is_tri); [auto|]. intros v2 Hv2. cbn.
    unfold is_tri in *; lia.
  - intros [H1 H2]%Forall_app. apply (safe_bind _ _ _ is_tri); [auto|]. intros v1 Hv1.
    case_match; [done|]. apply (safe_bind _ _ _ is_tri); [auto|]. intros v2 Hv2. cbn.
    unfold is_tri in *; lia.
  - intros H1. apply (safe_bind _ _ _ is_tri); [auto|]. intros v1 Hv1. cbn.
    unfold is_tri in *; lia.
  - apply safe_rel_value.
Qed.

Lemma safe_max_value vis conds :
  is_tri vis → Forall P (flat_map (expr_reads K) conds) →
  safe' is_tri (max_value K u vis conds).
Proof using Hu.
  revert vis. induction conds as [|e conds IH]; intros vis Hvis; cbn [max_value flat_map]; [done|].
  intros [H1 H2]%Forall_app. apply (safe_bind _ _ _ is_tri); [by apply safe_expr_value|].
  intros v Hv. apply IH; [|done]. unfold is_tri in *; lia.
Qed.

Lemma safe_hidden_by_choice i vis :
  Forall P (match i with ISym s => choice_reads K (s_choice (sym K s)) | ICho _ => [] end) →
  safe' (λ _, True) (hidden_by_choice K u i vis).
Proof using Hu.
  destruct i as [s|c]; cbn [hidden_by_choice]; [|done].
  destruct (s_choice (sym K s)) as [c|]; [|done]. intros Hc.
  apply (safe_bind _ _ _ (λ _, True)).
  - case_match; [|done].
    apply (safe_bind _ _ _ is_tri); [by apply safe_choice_tri_value|done].
  - intros [] _; [done|]. case_match; [|done].
    apply (safe_bind _ _ _ is_tri); [by apply safe_choice_tri_value|done].
Qed.

Lemma safe_visibility i :
  Forall P (static_reads K (QVis i)) →
  safe' (λ z, is_tri z ∧ (prompt_conds K i = [] → z = 0%Z)) (visibility K u i).
Proof using Hu.
  cbn [static_reads]. rewrite !Forall_app. unfold prompted. intros (H1 & H2 & H3).
  assert (safe' (λ z, is_tri z ∧ (prompt_conds K i = [] → z = 0%Z))
    (max_value K u 0 (prompt_conds K i))) as Hmax.
  { destruct (prompt_conds K i) as [|e l] eqn:Hp.
    - cbn; unfold is_tri; split; [lia|done].
    - eapply safe_mono; [done|done| |by apply safe_max_value].
      intros z Hz. by split. }
  eapply safe_bind; [exact Hmax|]. cbv beta. intros vis [Hvis Hp0].
  apply (safe_bind _ _ _ (λ _, True)); [by apply safe_hidden_by_choice|]. intros [] _.
  { by split. }
  destruct (vis =? 1)%Z eqn:Hv1; [|by split]. apply Z.eqb_eq in Hv1.
  destruct (prompt_conds K i) as [|e l]; [by specialize (Hp0 eq_refl); lia|].
  apply (safe_bind _ _ _ (λ _, True)); [by apply safe_item_type|].
  intros t _. cbn. split; [|done]. case_decide; [exact Hvis|unfold is_tri; lia].
Qed.

Lemma safe_first_active {A} (l : list (A * expr)) :
  Forall P (conds_reads K l) →
  safe' (λ o, match o with
              | Some (x, v) => (∃ cond, (x, cond) ∈ l) ∧ is_tri v ∧ v ≠ 0%Z
              | None => True end) (first_active K u l).
Proof using Hu.
  induction l as [|[x cond] l IH]; cbn [first_active conds_reads flat_map]; [done|]. intros [H1 H2]%Forall_app.
  apply (safe_bind _ _ _ is_tri); [by apply safe_expr_value|]. intros v Hv.
  case_match eqn:He.
  - eapply safe_mono; [done|done| |by apply IH].
    intros [[y w]|]; [|done]. intros [[cond' ?] ?]. split; [|done].
    exists cond'. by apply elem_of_cons; right.
  - cbn. split_and!; [|done|by apply Z.eqb_neq]. exists cond. by apply elem_of_cons; left.
Qed.

Lemma safe_symbol_default s :
  symbol_ok K s (sym K s) = true → BOOL_TRISTATE_UNKNOWN (s_orig_type (sym K s)) = false →
  ∀ d, d ∈ (s_defaults (sym K s)).*1 → is_item d = true.
Proof using Type.
  unfold symbol_ok. rewrite !andb_true_iff, orb_true_iff. intros [[[H|H] _] _] Hb d; [congruence|].
  rewrite forallb_forall in H. intros ([x c] & -> & Hin)%list_elem_of_fmap.
  apply (H (x, c)). by apply list_elem_of_In.
Qed.

(** Text of the warning about unsatisfied dependencies, read through [W]. *)
Lemma safe_value_str e : Forall P (expr_reads K e) → safe' (λ _, True) (value_str K u e).
Proof using Hu.
  intros. apply (safe_bind _ _ _ is_tri); [by apply safe_expr_value|].
  intros v Hv. by apply safe_tri_to_str.
Qed.

Lemma safe_select_lines direct sels msg :
  Forall P (expr_reads K direct) → Forall P (flat_map (select_reads K) sels) →
  Forall (λ sel, select_ok sel = true) sels →
  safe' (λ _, True) (select_lines K u direct sels msg).
Proof using Hu.
  intros Hd. revert msg. induction sels as [|sel sels IH]; intros msg; cbn [flat_map select_lines];
    [done|]. intros [Hsel Hsels]%Forall_app [Hok Hoks]%Forall_cons.
  unfold select_reads in Hsel. apply Forall_app in Hsel as [Hsel Hs].
  apply (safe_bind _ _ _ is_tri); [by apply safe_expr_value|]. intros v _.
  apply (safe_bind _ _ _ is_tri); [by apply safe_expr_value|]. intros d _.
  destruct (v <=? d)%Z; [by apply IH|].
  unfold select_ok, selecting in *. destruct (split_expr sel OpAnd) as [|[[s|c]| | | |] ?]; try done.
  apply Forall_cons in Hs as [Hstr Hdir].
  apply (safe_bind _ _ _ (λ _, True)); [by apply safe_get_str|]. intros str _.
  apply (safe_bind _ _ _ (λ _, True)); [by apply safe_value_str|]. intros dv _.
  destruct sel as [i|e1 cond| | |]; try done; [by apply IH|].
  cbn [expr_reads] in Hsel. apply Forall_app in Hsel as [_ Hcond].
  apply (safe_bind _ _ _ (λ _, True)); [by apply safe_value_str|]. intros cv _. by apply IH.
Qed.

Lemma safe_unsatisfied s :
  s_choice (sym K s) = None → BOOL_TRISTATE (s_orig_type (sym K s)) = true →
  Forall P (warn_reads K (QTri s)) →
  safe' (λ _, True) (unsatisfied_deps_warning K u s).
Proof using Hu Hwf.
  cbn [warn_reads]. intros -> ->. rewrite !Forall_app. intros (H1 & H2 & H3).
  unfold unsatisfied_deps_warning.
  apply (safe_bind _ _ _ (λ _, True)); [by apply safe_value_str|]. intros dv _.
  apply (safe_bind _ _ _ (λ _, True)); [by apply safe_value_str|]. intros rv _.
  apply safe_select_lines; [done|done|].
  destruct Hwf as [Hs _]. specialize (Hs s). unfold symbol_ok in Hs.
  rewrite !andb_true_iff in Hs. destruct Hs as [[_ Hs] _].
  apply Forall_forall. intros sel Hin. rewrite forallb_forall in Hs.
  by apply Hs, list_elem_of_In.
Qed.
End Safe.

Section SafeBody.
Variable K : kconfig.
Variable u : ustate.
Hypothesis Hwf : wf K.
Hypothesis Hu : uok K u.
Variables P W : query → Prop.

Abbreviation safe' := (safe P W (answer_ok K)).

Lemma conds_default_reads (f : expr → list query) (l : list (expr * expr)) d cond :
  (d, cond) ∈ l → Forall P (flat_map (λ p, f p.1) l) → Forall P (f d).
Proof using Type.
  intros Hin. rewrite !Forall_forall. intros HP q Hq. apply HP.
  apply list_elem_of_In, in_flat_map. exists (d, cond). split; by apply list_elem_of_In.
Qed.

Lemma safe_tri_defaults s :
  s_choice (sym K s) = None → BOOL_TRISTATE (s_orig_type (sym K s)) = true →
  Forall P (static_reads K (QTri s)) →
  safe' is_tri (tri_defaults K u s).
Proof using Hu.
  cbn [static_reads]. intros -> ->. rewrite Forall_cons, !Forall_app.
  intros (_ & Hc & Hd & Hw & Hdir & _). unfold tri_defaults.
  eapply safe_bind; [by apply (safe_first_active K u Hu P W)|]. intros d Hd1.
  apply (safe_bind _ _ _ is_tri).
  { destruct d as [[d dv]|]; [|cbn; unfold is_tri; lia].
    destruct Hd1 as ((cond & Hin) & Hdv & Hdv0).
    apply (safe_bind _ _ _ is_tri).
    - apply (safe_expr_value K u Hu). eapply (conds_default_reads (expr_reads K)); done.
    - intros v Hv. unfold is_tri in *. destruct (Z.min v dv =? 0)%Z; cbn; lia. }
  intros val Hval. apply (safe_bind _ _ _ is_tri); [by apply (safe_expr_value K u Hu)|].
  intros weak Hweak. destruct (weak =? 0)%Z; [exact Hval|].
  apply (safe_bind _ _ _ is_tri); [by apply (safe_expr_value K u Hu)|].
  intros dir _. destruct (dir =? 0)%Z; cbn; unfold is_tri in *; lia.
Qed.

Lemma uok_bool_tristate s v :
  BOOL_TRISTATE (s_orig_type (sym K s)) = true → user_value u !! s = Some v →
  ∃ z, v = UTri z ∧ is_tri z.
Proof using Hu.
  intros Hb Hv. pose proof (uok_sym _ _ Hu _ _ Hv) as Hok. unfold is_tri.
  destruct (s_orig_type (sym K s)), v; cbn in *; try done; exists v; unfold is_tri in *; (split; [done|lia]).
Qed.

Lemma safe_tri_own s vis :
  s_choice (sym K s) = None → BOOL_TRISTATE (s_orig_type (sym K s)) = true →
  is_tri vis → Forall P (static_reads K (QTri s)) →
  safe' is_tri (tri_own K u s vis).
Proof using Hu.
  intros Hc Hb Hvis HP. unfold tri_own.
  destruct (user_value u !! s) as [uv|] eqn:Huv; [|by apply safe_tri_defaults].
  destruct (vis =? 0)%Z; [by apply safe_tri_defaults|].
  destruct (uok_bool_tristate _ _ Hb Huv) as (z & -> & Hz).
  cbn. unfold is_tri in *; lia.
Qed.

Lemma safe_tri_body s :
  Forall P (static_reads K (QTri s)) → Forall W (warn_reads K (QTri s)) →
  safe' is_tri (tri_body K u s).
Proof using Hu Hwf.
  intros HP HW. unfold tri_body. destruct (BOOL_TRISTATE (s_orig_type (sym K s))) eqn:Hb.
  2: { case_decide; [|split]; cbn; done. }
  pose proof HP as HP'. cbn [static_reads] in HP'. rewrite Hb in HP'.
  apply Forall_cons in HP' as [Hv HP'].
  apply (safe_bind _ _ _ is_tri); [by apply safe_get_vis|]. intros vis Hvis. apply safe_SetW.
  destruct (s_choice (sym K s)) as [c|] eqn:Hc.
  - rewrite Forall_singleton in HP'.
    destruct (vis =? 2)%Z.
    + apply (safe_bind _ _ _ (λ _, True)); [by apply safe_get_sel|]. intros sel _. cbn.
      unfold is_tri. case_decide; lia.
    + case_match; cbn; unfold is_tri; lia.
  - rewrite !Forall_app in HP'. destruct HP' as (Hc1 & Hd1 & Hw1 & Hdir & Hrev & Ht).
    apply (safe_bind _ _ _ is_tri); [by apply safe_tri_own|]. intros val Hval.
    apply (safe_bind _ _ _ is_tri).
    { apply (safe_bind _ _ _ is_tri); [by apply (safe_expr_value K u Hu)|]. intros dep Hdep.
      destruct (dep =? 0)%Z; [exact Hval|].
      apply (safe_bind _ _ _ is_tri); [by apply (safe_expr_value K u Hu)|]. intros dir _.
      assert (is_tri (Z.max dep val)) by (unfold is_tri in *; lia).
      destruct (dir <? dep)%Z; [|done]. split; [|done].
      by apply (safe_unsatisfied K u Hwf Hu). }
    clear val Hval. intros val Hval. unfold tri_promote. destruct (val =? 1)%Z; [|exact Hval].
    apply (safe_bind _ _ _ (λ _, True)); [by apply (safe_symbol_type K u Hu)|]. intros t _.
    case_decide; [cbn; unfold is_tri; lia|].
    apply (safe_bind _ _ _ is_tri); [by apply (safe_expr_value K u Hu)|]. intros weak _. cbn.
    destruct (weak =? 2)%Z; unfold is_tri in *; lia.
Qed.

Lemma safe_default_str e (Φ : string → Prop) :
  is_item e = true → Forall P (default_str_reads K e) → (∀ t, Φ t) →
  safe' Φ (default_str K u e).
Proof using Hu.
  destruct e as [[s|c]| | | |]; cbn [is_item default_str_reads default_str]; try done.
  - rewrite Forall_singleton. intros _ ? ?. by apply safe_get_str.
  - intros _ HP HΦ. apply (safe_bind _ _ _ is_tri); [by apply (safe_choice_tri_value K u Hu)|].
    intros v Hv. by apply safe_tri_to_str.
Qed.

Lemma safe_active_range base s :
  Forall P (conds_reads K (s_ranges (sym K s))) →
  Forall P (flat_map (λ p : nat * nat * expr, [QStr p.1.1; QStr p.1.2]) (s_ranges (sym K s))) →
  safe' (λ _, True) (active_range K u base s).
Proof using Hu.
  intros Hc Hr. unfold active_range.
  eapply safe_bind; [by apply (safe_first_active K u Hu P W)|].
  intros [[[low high] v]|]; [|done]. intros [[cond Hin] _].
  assert (P (QStr low) ∧ P (QStr high)) as [? ?].
  { rewrite Forall_forall in Hr. split; apply Hr, list_elem_of_In, in_flat_map;
      exists (low, high, cond); (split; [by apply list_elem_of_In|cbn; auto]). }
  apply (safe_bind _ _ _ (λ _, True)); [by apply safe_get_str|]. intros l _.
  by apply (safe_bind _ _ _ (λ _, True)); [by apply safe_get_str|].
Qed.

(** The default of a string, int or hex symbol. *)
Lemma safe_str_default s d cond (Φ : string → Prop) :
  BOOL_TRISTATE_UNKNOWN (s_orig_type (sym K s)) = false →
  (d, cond) ∈ s_defaults (sym K s) →
  Forall P (flat_map (λ p, default_str_reads K p.1) (s_defaults (sym K s))) → (∀ t, Φ t) →
  safe' Φ (default_str K u d).
Proof using Hu Hwf.
  intros Hb Hin HP HΦ. apply safe_default_str; [| |done].
  - apply (safe_symbol_default K s); [by apply Hwf|done|].
    apply list_elem_of_fmap. by exists (d, cond).
  - by eapply (conds_default_reads (default_str_reads K)).
Qed.

Lemma safe_num_defaults base s range :
  BOOL_TRISTATE_UNKNOWN (s_orig_type (sym K s)) = false →
  Forall P (conds_reads K (s_defaults (sym K s))) →
  Forall P (flat_map (λ p, default_str_reads K p.1) (s_defaults (sym K s))) →
  safe' (λ _, True) (num_defaults K u base s range).
Proof using Hu Hwf.
  intros Hb Hc Hd. unfold num_defaults.
  eapply safe_bind; [by apply (safe_first_active K u Hu P W)|]. intros d Hd1.
  apply (safe_bind _ _ _ (λ _, True)).
  { destruct d as [[d dv]|]; [|done]. destruct Hd1 as ((cond & Hin) & _).
    apply safe_SetW.
    by apply (safe_bind _ _ _ (λ _, True)); [by eapply safe_str_default|]. }
  intros [[hd val] num] _. destruct (clamp range num); [|done].
  destruct hd; [|done]. split; done.
Qed.

Lemma safe_string_defaults s :
  BOOL_TRISTATE_UNKNOWN (s_orig_type (sym K s)) = false →
  Forall P (conds_reads K (s_defaults (sym K s))) →
  Forall P (flat_map (λ p, default_str_reads K p.1) (s_defaults (sym K s))) →
  safe' (λ _, True) (string_defaults K u s).
Proof using Hu Hwf.
  intros Hb Hc Hd. unfold string_defaults.
  eapply safe_bind; [by apply (safe_first_active K u Hu P W)|].
  intros [[d dv]|]; [|done]. intros ((cond & Hin) & _).
  by apply (safe_bind _ _ _ (λ _, True)); [by eapply safe_str_default|].
Qed.

Lemma safe_string_value s vis :
  s_orig_type (sym K s) = STRING →
  Forall P (conds_reads K (s_defaults (sym K s))) →
  Forall P (flat_map (λ p, default_str_reads K p.1) (s_defaults (sym K s))) →
  safe' (λ _, True) (string_value K u s vis).
Proof using Hu Hwf.
  intros Ht Hc Hd.
  assert (safe' (λ _, True) (string_defaults K u s)) by (apply safe_string_defaults; by rewrite ?Ht).
  unfold string_value. destruct (user_value u !! s) as [uv|] eqn:Huv; [|done].
  destruct (vis =? 0)%Z; [done|].
  pose proof (uok_sym _ _ Hu _ _ Huv) as Hok. rewrite Ht in Hok. by destruct uv.
Qed.

Lemma safe_num_value base s vis :
  (s_orig_type (sym K s) = INT ∧ base = 10%Z) ∨ (s_orig_type (sym K s) = HEX ∧ base = 16%Z) →
  Forall P (static_reads K (QStr s)) →
  safe' (λ _, True) (num_value K u base s vis).
Proof using Hu Hwf.
  intros Ht HP.
  assert (INT_HEX (s_orig_type (sym K s)) = true) as Hih by (by destruct Ht as [[-> _]|[-> _]]).
  assert (BOOL_TRISTATE_UNKNOWN (s_orig_type (sym K s)) = false) as Hb
    by (by destruct Ht as [[-> _]|[-> _]]).
  assert (Forall P (conds_reads K (s_defaults (sym K s))) ∧
    Forall P (flat_map (λ p, default_str_reads K p.1) (s_defaults (sym K s))) ∧
    Forall P (conds_reads K (s_ranges (sym K s))) ∧
    Forall P (flat_map (λ p : nat * nat * expr, [QStr p.1.1; QStr p.1.2]) (s_ranges (sym K s))))
    as (Hc & Hd & Hr & Hr').
  { cbn [static_reads] in HP. rewrite Hih in HP.
    destruct (s_orig_type (sym K s)); cbn in Hih; try done; cbn [BOOL_TRISTATE] in HP;
      rewrite decide_False, Forall_cons, !Forall_app in HP by done; tauto. }
  unfold num_value.
  apply (safe_bind _ _ _ (λ _, True)); [by apply safe_active_range|]. intros range _.
  assert (safe' (λ _, True) (num_defaults K u base s range)) as Hdef by by apply safe_num_defaults.
  destruct (user_value u !! s) as [uv|] eqn:Huv; [|done].
  destruct ((vis =? 0)%Z || negb (truthy (Some uv))); [done|].
  pose proof (uok_sym _ _ Hu _ _ Huv) as Hok.
  assert (∃ v n, uv = UStr v ∧ py_int base v = Some n) as (v & n & -> & Hn).
  { destruct Ht as [[Ht ->]|[Ht ->]]; rewrite Ht in Hok; destruct uv as [z|v]; try done;
      cbn in Hok.
    - destruct Hok as [n Hn]. eauto.
    - destruct Hok as (n & Hn & _). eauto. }
  rewrite Hn. destruct (out_of_range range n); [|done]. by split.
Qed.

Lemma safe_str_body s :
  Forall P (static_reads K (QStr s)) → safe' (λ _, True) (str_body K u s).
Proof using Hu Hwf.
  intros HP. unfold str_body. pose proof HP as HP'. cbn [static_reads] in HP'.
  destruct (BOOL_TRISTATE (s_orig_type (sym K s))) eqn:Hb.
  { rewrite Forall_singleton in HP'.
    apply (safe_bind _ _ _ is_tri); [by apply safe_get_tri|]. intros v Hv.
    by apply safe_tri_to_str. }
  case_decide as Hunk; [done|]. rewrite Forall_cons, !Forall_app in HP'.
  destruct HP' as (Hv & Hc & Hd & _).
  apply (safe_bind _ _ _ is_tri); [by apply safe_get_vis|]. intros vis Hvis. apply safe_SetW.
  apply (safe_bind _ _ _ (λ _, True)).
  - destruct (s_orig_type (sym K s)) eqn:Ht; try done.
    + by apply safe_string_value.
    + apply safe_num_value; [by left|done].
    + apply safe_num_value; [by right|done].
  - intros val _. by case_match.
Qed.

Lemma safe_default_selection l :
  Forall P (conds_reads K l) → Forall P (flat_map (λ p, default_vis_reads p.1) l) →
  Forall (λ p, is_symbol p.1 = true) l →
  safe' (λ _, True) (default_selection K u l).
Proof using Hu.
  induction l as [|[d cond] l IH]; cbn [conds_reads flat_map default_selection]; [done|].
  intros [Hc Hcs]%Forall_app [Hd Hds]%Forall_app [Hs Hss]%Forall_cons.
  apply (safe_bind _ _ _ is_tri); [by apply (safe_expr_value K u Hu)|]. intros v _.
  destruct (v =? 0)%Z; [by apply IH|].
  destruct d as [[s|c]| | | |]; try done. cbn [default_vis_reads fst] in Hd.
  rewrite Forall_singleton in Hd.
  apply (safe_bind _ _ _ is_tri); [by apply safe_get_vis|]. intros vis _.
  destruct (vis =? 0)%Z; [by apply IH|done].
Qed.

Lemma safe_first_visible l :
  Forall P ((λ s, QVis (ISym s)) <$> l) → safe' (λ _, True) (first_visible l).
Proof using Type.
  induction l as [|s l IH]; cbn [first_visible fmap list_fmap]; [done|].
  intros [Hs Hl]%Forall_cons.
  apply (safe_bind _ _ _ is_tri); [by apply safe_get_vis|]. intros vis _.
  destruct (vis =? 0)%Z; [by apply IH|done].
Qed.

Lemma safe_sel_body c :
  Forall P (static_reads K (QSel c)) → safe' (λ _, True) (sel_body K u c).
Proof using Hu Hwf.
  cbn [static_reads]. rewrite !Forall_app. intros (Ht & Hc & Hd & Hs).
  assert (safe' (λ _, True) (selection_from_defaults K u c)) as Hdef.
  { apply (safe_bind _ _ _ (λ _, True)).
    - apply safe_default_selection; [done|done|]. apply Forall_forall. intros p Hp.
      destruct Hwf as [_ Hwc]. specialize (Hwc c). unfold choice_ok in Hwc.
      rewrite forallb_forall in Hwc. by apply Hwc, list_elem_of_In.
    - intros [s|] _; [done|]. by apply safe_first_visible. }
  unfold sel_body.
  apply (safe_bind _ _ _ is_tri); [by apply (safe_choice_tri_value K u Hu)|]. intros t _.
  destruct (t =? 2)%Z; [|done]. destruct (user_selection u !! c) as [s|] eqn:Hus; [|done].
  assert (P (QVis (ISym s))).
  { rewrite Forall_forall in Hs. apply Hs, list_elem_of_fmap. exists s. split; [done|].
    destruct Hwf as [Hws _]. specialize (Hws s). unfold symbol_ok in Hws.
    rewrite (uok_sel _ _ Hu _ _ Hus), !andb_true_iff in Hws. destruct Hws as [_ Hws].
    by apply mem_true. }
  apply (safe_bind _ _ _ is_tri); [by apply safe_get_vis|]. intros vis _.
  by destruct (vis =? 0)%Z.
Qed.

Lemma safe_no_m s :
  Forall P (expr_reads K (s_weak_rev_dep (sym K s))) → Forall P (type_reads K (ISym s)) →
  safe' (λ _, True) (no_m K u s).
Proof using Hu.
  intros Hw Ht. apply (safe_bind _ _ _ (λ _, True)); [by apply (safe_symbol_type K u Hu)|].
  intros t _. case_decide; [done|].
  by apply (safe_bind _ _ _ is_tri); [by apply (safe_expr_value K u Hu)|].
Qed.

Lemma safe_assignable i :
  Forall P (static_reads K (QAsg i)) → safe' (λ _, True) (assignable K u i).
Proof using Hu.
  destruct i as [s|c]; cbn [static_reads assignable].
  - unfold symbol_assignable. destruct (BOOL_TRISTATE (s_orig_type (sym K s))); [|done].
    rewrite Forall_cons. unfold prompted. intros (Hv & HP').
    apply (safe_bind _ _ _ (λ z, prompt_conds K (ISym s) = [] → z = 0%Z));
      [by apply safe_get_vis|]. intros vis Hvis.
    destruct (vis =? 0)%Z eqn:Hv0; [done|]. apply Z.eqb_neq in Hv0.
    destruct (prompt_conds K (ISym s)) as [|e l]; [by specialize (Hvis eq_refl)|].
    rewrite !Forall_app in HP'. destruct HP' as (Hr & Hw & Ht).
    apply (safe_bind _ _ _ is_tri); [by apply (safe_expr_value K u Hu)|]. intros rev _.
    destruct (vis =? 2)%Z.
    + destruct (s_choice (sym K s)); [done|]. destruct (rev =? 0)%Z; [|destruct (rev =? 2)%Z; [done|]];
        by apply (safe_bind _ _ _ (λ _, True)); [by apply safe_no_m|].
    + destruct (rev =? 0)%Z; [|by destruct (rev =? 2)%Z].
      by apply (safe_bind _ _ _ is_tri); [by apply (safe_expr_value K u Hu)|].
  - unfold choice_assignable. rewrite Forall_cons. intros (Hv & Ht).
    apply (safe_bind _ _ _ is_tri); [by apply safe_get_vis|]. intros vis _.
    destruct (vis =? 0)%Z; [done|].
    destruct (vis =? 2)%Z; [|by destruct (c_is_optional (cho K c))].
    apply (safe_bind _ _ _ (λ _, True)); [by apply (safe_choice_type K)|]. intros t _.
    by destruct (c_is_optional (cho K c)).
Qed.

Lemma safe_body q :
  Forall P (static_reads K q) → Forall W (warn_reads K q) →
  safe' (answer_ok K q) (body K u q).
Proof using Hu Hwf.
  destruct q as [s|s|i|c|i]; cbn [body]; intros HP HW.
  - by apply (safe_bind _ _ _ is_tri); [by apply safe_tri_body|].
  - by apply (safe_bind _ _ _ (λ _, True)); [by apply safe_str_body|].
  - by eapply safe_bind; [by apply (safe_visibility K u Hu)|].
  - by apply (safe_bind _ _ _ (λ _, True)); [by apply safe_sel_body|].
  - by apply (safe_bind _ _ _ (λ _, True)); [by apply safe_assignable|].
Qed.
End SafeBody.

(** ** [_write_to_conf] is only assigned by the property that computes the value *)
Section Writes.
Variable K : kconfig.
Variable u : ustate.

Abbreviation nowrites := (writes_only (λ _, False)).

Lemma writes_none {A} W (p : code A) : nowrites p → writes_only W p.
Proof using Type. by apply writes_only_mono. Qed.

Ltac wr :=
  repeat first
    [ exact I
    | progress intros
    | match goal with
      | |- writes_only _ (prog_bind _ _) => apply writes_only_bind
      | |- writes_only _ (Ret _) => exact I
      | |- writes_only _ (Fail _) => exact I
      | |- writes_only _ (Get _ _) => cbn
      | |- writes_only _ (Warn _ _) => split
      | |- writes_only _ (SetW _ _ _) => split
      | |- writes_only _ (get_tri _) => cbn
      | |- writes_only _ (get_str _) => cbn
      | |- writes_only _ (get_vis _) => cbn
      | |- writes_only _ (get_sel _) => cbn
      | |- writes_only _ (match ?x with _ => _ end) => destruct x
      end
    | solve [eauto with kwrites] ].

Create HintDb kwrites.

Lemma writes_choice_type W c : writes_only W (choice_type K c).
Proof using Type. unfold choice_type. wr. Qed.
Hint Resolve writes_choice_type : kwrites.
Lemma writes_choice_tri_value W c : writes_only W (choice_tri_value K u c).
Proof using Type. unfold choice_tri_value. wr. Qed.
Hint Resolve writes_choice_tri_value : kwrites.
Lemma writes_symbol_type W s : writes_only W (symbol_type K u s).
Proof using Type. unfold symbol_type. wr. Qed.
Hint Resolve writes_symbol_type : kwrites.
Lemma writes_item_type W i : writes_only W (item_type K u i).
Proof using Type. unfold item_type. wr. Qed.
Lemma writes_item_tri W i : writes_only W (item_tri_value K u i).
Proof using Type. unfold item_tri_value. wr. Qed.
Hint Resolve writes_item_type writes_item_tri : kwrites.
Lemma writes_sym_strcmp W s1 s2 : writes_only W (sym_strcmp s1 s2).
Proof using Type. unfold sym_strcmp. wr. Qed.
Lemma writes_sym_to_num W s : writes_only W (sym_to_num K s).
Proof using Type. unfold sym_to_num. wr. Qed.
Hint Resolve writes_sym_strcmp writes_sym_to_num : kwrites.
Lemma writes_expr_value W e : writes_only W (expr_value K u e).
Proof using Type. induction e; cbn [expr_value]; unfold rel_value; wr. Qed.
Hint Resolve writes_expr_value : kwrites.
Lemma writes_max_value W vis conds : writes_only W (max_value K u vis conds).
Proof using Type. revert vis. induction conds; cbn [max_value]; wr. Qed.
Lemma writes_first_active {A} W (l : list (A * expr)) : writes_only W (first_active K u l).
Proof using Type. induction l; cbn [first_active]; wr. Qed.
Lemma writes_tri_to_str W v : writes_only W (tri_to_str v).
Proof using Type. unfold tri_to_str. wr. Qed.
Hint Resolve writes_max_value writes_first_active writes_tri_to_str : kwrites.
Lemma writes_value_str W e : writes_only W (value_str K u e).
Proof using Type. unfold value_str. wr. Qed.
Hint Resolve writes_value_str : kwrites.
Lemma writes_select_lines W d l msg : writes_only W (select_lines K u d l msg).
Proof using Type. revert msg. induction l; cbn [select_lines]; wr. Qed.
Hint Resolve writes_select_lines : kwrites.
Lemma writes_default_str W e : writes_only W (default_str K u e).
Proof using Type. unfold default_str. wr. Qed.
Lemma writes_active_range W b s : writes_only W (active_range K u b s).
Proof using Type. unfold active_range. wr. Qed.
Lemma writes_no_m W s : writes_only W (no_m K u s).
Proof using Type. unfold no_m. wr. Qed.
Lemma writes_first_visible W l : writes_only W (first_visible l).
Proof using Type. induction l; cbn [first_visible]; wr. Qed.
Lemma writes_default_selection W l : writes_only W (default_selection K u l).
Proof using Type. induction l; cbn [default_selection]; wr. Qed.
Hint Resolve writes_default_str writes_active_range writes_no_m writes_first_visible
  writes_default_selection : kwrites.

Lemma writes_tri_body s :
  writes_only (λ i, i = ISym s ∧ BOOL_TRISTATE (s_orig_type (sym K s)) = true) (tri_body K u s).
Proof using Type.
  unfold tri_body. destruct (BOOL_TRISTATE (s_orig_type (sym K s))) eqn:Hb; [|wr].
  unfold tri_own, tri_defaults, tri_select, unsatisfied_deps_warning, tri_promote. wr.
Qed.

Lemma writes_str_body s :
  writes_only (λ i, i = ISym s ∧ BOOL_TRISTATE (s_orig_type (sym K s)) = false) (str_body K u s).
Proof using Type.
  unfold str_body. destruct (BOOL_TRISTATE (s_orig_type (sym K s))) eqn:Hb; [wr|].
  unfold num_value, num_defaults, string_value, string_defaults.
  destruct (s_orig_type (sym K s)); wr.
Qed.

Lemma body_writes q : writes_only (λ i, writer K i = q) (body K u q).
Proof using Type.
  destruct q as [s|s|i|c|i]; cbn [body]; apply writes_only_bind; try done.
  - eapply writes_only_mono; [|apply writes_tri_body]. intros i [-> Hb]. cbn. by rewrite Hb.
  - eapply writes_only_mono; [|apply writes_str_body]. intros i [-> Hb]. cbn. by rewrite Hb.
  - unfold visibility, hidden_by_choice. wr.
  - unfold sel_body, selection_from_defaults. wr.
  - unfold assignable, symbol_assignable, choice_assignable. wr.
Qed.
End Writes.
