(* ===== verification/Session.v ===== *)
(** * User values: set_value, unset_value, unset_values, and their invalidation

    The operations of a client on a loaded configuration: reading properties of
    symbols and choices (through the cache), and setting and removing user
    values (Symbol.set_value, Symbol.unset_value, Choice.set_value,
    Choice.unset_value, Kconfig.unset_values), with the recursive invalidation of
    cached values.  [Loaded] is what the loader promises about a configuration;
    the simulation at the end of the file states that under it a client can not
    tell the cached implementation from recomputation from scratch. *)

From S2P Require Import Prelude PyStr Kconst Expr Incr Objects Values Reads.
From stdpp Require Import options.

(** What the loader promises: the dependencies between properties have no loop
    and a bounded depth, [_dependents] covers every property that a property
    reads, and every symbol and choice that can have a user value is among those
    that [_invalidate_all] clears. *)
Class Loaded (K : kconfig) (fuel : nat) : Type := {
  ld_wf : wf K;
  ld_rank : query → nat;
  ld_rank_reads q q' :
    preset K q = None → q' ∈ static_reads K q ++ warn_reads K q → ld_rank q' < ld_rank q;
  ld_rank_fuel q : ld_rank q < fuel;
  ld_tracked q q' :
    preset K q = None → q' ∈ static_reads K q →
    owner q' = owner q ∨ owner q ∈ dependents K (owner q') ∨
    (owner q' = ISym (k_modules K) ∧ owner q ∈ all_items K) ∨ owner q' ∉ all_items K;
  ld_deps i d : d ∈ dependents K i → d ∈ all_items K;
  ld_const q v : preset K q = Some v → owner q ∉ all_items K;
  ld_prompt i : prompt_conds K i ≠ [] → i ∈ all_items K;
  ld_choice s c : s_choice (sym K s) = Some c → ICho c ∈ all_items K;
  ld_choice_typed c : c_orig_type (cho K c) ≠ UNKNOWN → ICho c ∈ all_items K
}.

(** The state of a Kconfig object that clients change: user values, caches and
    warnings, the [_was_set] flags, and [_warn_assign_no_prompt]. *)
Record session : Type := Session {
  uvals : ustate;
  vals : kstate;
  sym_was_set : gset nat;
  choice_was_set : gset nat;
  warn_assign_no_prompt : bool
}.

Section Operations.
Variable K : kconfig.

Definition set_uvals (f : ustate → ustate) (σ : session) : session :=
  Session (f (uvals σ)) (vals σ) (sym_was_set σ) (choice_was_set σ) (warn_assign_no_prompt σ).
Definition set_vals (f : kstate → kstate) (σ : session) : session :=
  Session (uvals σ) (f (vals σ)) (sym_was_set σ) (choice_was_set σ) (warn_assign_no_prompt σ).
Definition mark_sym (s : nat) (σ : session) : session :=
  Session (uvals σ) (vals σ) ({[s]} ∪ sym_was_set σ) (choice_was_set σ) (warn_assign_no_prompt σ).
Definition mark_choice (c : nat) (σ : session) : session :=
  Session (uvals σ) (vals σ) (sym_was_set σ) ({[c]} ∪ choice_was_set σ) (warn_assign_no_prompt σ).
Definition set_no_prompt_warning (b : bool) (σ : session) : session :=
  Session (uvals σ) (vals σ) (sym_was_set σ) (choice_was_set σ) b.

Definition put_user_value (s : nat) (v : uval) (u : ustate) : ustate :=
  UState (<[s := v]> (user_value u)) (choice_user_value u) (user_selection u).
Definition del_user_value (s : nat) (u : ustate) : ustate :=
  UState (delete s (user_value u)) (choice_user_value u) (user_selection u).
Definition put_choice_value (c : nat) (v : Z) (u : ustate) : ustate :=
  UState (user_value u) (<[c := v]> (choice_user_value u)) (user_selection u).
Definition put_selection (c s : nat) (u : ustate) : ustate :=
  UState (user_value u) (choice_user_value u) (<[c := s]> (user_selection u)).
Definition del_choice_values (c : nat) (u : ustate) : ustate :=
  UState (user_value u) (delete c (choice_user_value u)) (delete c (user_selection u)).

Definition kwarn (msg : string) : session → session := set_vals (do_warn msg).

(** Reading a cached property. *)
Definition get_prop (fuel : nat) (q : query) (σ : session) : outcome (val * session) :=
  let! (v, st) := eval (body K) (uvals σ) fuel q (vals σ) in
  Ok (v, set_vals (λ _, st) σ).

(** Running the code of a client, such as a property without a cache. *)
Definition run_code {A} (fuel : nat) (p : ustate → code A) (σ : session)
    : outcome (A * session) :=
  let! (a, st) := exec (eval (body K) (uvals σ) fuel) (p (uvals σ)) (vals σ) in
  Ok (a, set_vals (λ _, st) σ).

(** [_rec_invalidate]; every nested call forgets a cached value, so the number
    of cached values bounds the depth of the recursion. *)
Definition is_modules (i : item) : bool := bool_decide (i = ISym (k_modules K)).

Definition invalidate_rec (i : item) (C : gmap query val) : outcome (gmap query val) :=
  rec_invalidate slots (λ i, QVis i) (dependents K) is_modules (all_items K) (S (size C)) i C.

Definition inval (i : item) (σ : session) : outcome session :=
  let! C := invalidate_rec i (cache (vals σ)) in
  Ok (set_vals (set_cache (λ _, C)) σ).

Definition has_prompt (i : item) : bool :=
  existsb (λ n, bool_decide (is_Some (n_prompt (nod K n)))) (nodes K i).

Definition rec_invalidate_if_has_prompt (s : nat) (σ : session) : outcome session :=
  if has_prompt (ISym s) then inval (ISym s) σ
  else Ok (if warn_assign_no_prompt σ
           then kwarn (name_and_loc K (ISym s)
                         +:+ " has no prompt, meaning user values have no effect on it") σ
           else σ).

(** n, m and y given as strings. *)
Definition as_tri (value : uval) : uval :=
  match value with
  | UStr t => match STR_TO_TRI t with Some v => UTri v | None => value end
  | _ => value
  end.

(** Whether a value has the form of the type. *)
Definition valid_for (t : ktype) (value : uval) : bool :=
  match t, value with
  | BOOL, UTri v => (v =? 2)%Z || (v =? 0)%Z
  | TRISTATE, UTri v => bool_decide (is_Some (TRI_TO_STR v))
  | STRING, UStr _ => true
  | INT, UStr v => bool_decide (is_Some (py_int 10 v))
  | HEX, UStr v => match py_int 16 v with Some n => (0 <=? n)%Z | None => false end
  | _, _ => false
  end.

Definition show_value (value : uval) : string :=
  match value with
  | UTri v => match TRI_TO_STR v with Some t => t | None => "'" +:+ py_str v +:+ "'" end
  | UStr t => "'" +:+ t +:+ "'"
  end.

Definition invalid_value_warning (value : uval) (i : item) : string :=
  "the value " +:+ show_value value +:+ " is invalid for " +:+ name_and_loc K i
    +:+ ", which has type " +:+ TYPE_TO_STR (orig_type K i) +:+ " -- assignment ignored".

(** [Symbol.set_value] *)
Definition set_value (s : nat) (value : uval) (σ : session) : outcome (bool * session) :=
  let S := sym K s in
  let value := if BOOL_TRISTATE (s_orig_type S) then as_tri value else value in
  if bool_decide (user_value (uvals σ) !! s = Some value) && bool_decide (s_choice S = None)
  then Ok (true, mark_sym s σ)
  else if negb (valid_for (s_orig_type S) value)
  then Ok (false, kwarn (invalid_value_warning value (ISym s)) σ)
  else
    let σ := mark_sym s (set_uvals (put_user_value s value) σ) in
    let! σ :=
      match s_choice S with
      | Some c =>
          if decide (value = UTri 2)
          then inval (ICho c) (mark_choice c (set_uvals (put_selection c s) σ))
          else rec_invalidate_if_has_prompt s σ
      | None => rec_invalidate_if_has_prompt s σ
      end in
    Ok (true, σ).

(** [Symbol.unset_value] *)
Definition unset_value (s : nat) (σ : session) : outcome session :=
  match user_value (uvals σ) !! s with
  | Some _ => rec_invalidate_if_has_prompt s (set_uvals (del_user_value s) σ)
  | None => Ok σ
  end.

(** [Choice.set_value] *)
Definition choice_set_value (c : nat) (value : uval) (σ : session)
    : outcome (bool * session) :=
  let t := c_orig_type (cho K c) in
  let value := as_tri value in
  if decide (UTri <$> choice_user_value (uvals σ) !! c = Some value)
  then Ok (true, mark_choice c σ)
  else
    match value with
    | UTri v =>
        if (bool_decide (t = BOOL) && ((v =? 2)%Z || (v =? 0)%Z))
           || (bool_decide (t = TRISTATE) && bool_decide (is_Some (TRI_TO_STR v)))
        then
          let! σ := inval (ICho c) (mark_choice c (set_uvals (put_choice_value c v) σ)) in
          Ok (true, σ)
        else Ok (false, kwarn (invalid_value_warning value (ICho c)) σ)
    | UStr _ => Ok (false, kwarn (invalid_value_warning value (ICho c)) σ)
    end.

(** [Choice.unset_value] *)
Definition choice_unset_value (c : nat) (σ : session) : outcome session :=
  if bool_decide (is_Some (choice_user_value (uvals σ) !! c))
     || bool_decide (is_Some (user_selection (uvals σ) !! c))
  then inval (ICho c) (set_uvals (del_choice_values c) σ)
  else Ok σ.

Fixpoint for_each {A} (f : A → session → outcome session) (l : list A) (σ : session)
    : outcome session :=
  match l with
  | [] => Ok σ
  | x :: l => let! σ := f x σ in for_each f l σ
  end.

(** [Kconfig.unset_values] *)
Definition unset_values (σ : session) : outcome session :=
  let σ := set_no_prompt_warning false σ in
  let! σ := for_each unset_value (k_unique_defined_syms K) σ in
  let! σ := for_each choice_unset_value (k_unique_choices K) σ in
  Ok (set_no_prompt_warning true σ).

(** A freshly loaded configuration. *)
Definition initial_session (l : wlog) : session :=
  Session no_user_values (initial_state K l) ∅ ∅ true.
End Operations.

(** ** Which changes of user values a cached value survives

    The code of a property looks at the user value of a symbol only after its
    visibility, and at the user value and selection of a choice only after the
    visibility of the choice. *)

(** The object whose user value or selection the code of a property looks at,
    besides the user values of choices. *)
Definition looks_at (K : kconfig) (q : query) : option item :=
  match q with
  | QTri s => if BOOL_TRISTATE (s_orig_type (sym K s)) then Some (ISym s) else None
  | QStr s => if BOOL_TRISTATE_UNKNOWN (s_orig_type (sym K s)) then None else Some (ISym s)
  | QSel c => Some (ICho c)
  | QVis _ | QAsg _ => None
  end.

Section Agreement.
Variable K : kconfig.
Variable R : query → val → Prop.
Variables u u' : ustate.

(** The objects whose own properties are considered. *)
Variable P : item → Prop.

Record agree_on : Prop := {
  ag_user s :
    P (ISym s) → user_value u !! s = user_value u' !! s ∨ ∀ v, R (QVis (ISym s)) v → v = VTri 0;
  ag_choice c :
    choice_user_value u !! c = choice_user_value u' !! c ∨ ∀ v, ¬ R (QVis (ICho c)) v;
  ag_selection c :
    P (ICho c) → user_selection u !! c = user_selection u' !! c ∨ ∀ v, ¬ R (QVis (ICho c)) v
}.

Hypothesis Hagree : agree_on.

Abbreviation sim' := (sim R).

Create HintDb ksim.
Hint Resolve sim_refl : ksim.

Ltac sm :=
  repeat first
    [ apply sim_refl
    | progress intros
    | match goal with
      | |- sim _ (prog_bind _ _) (prog_bind _ _) => apply sim_bind
      | |- sim _ (Ret _) _ => apply sim_refl
      | |- sim _ (Warn _ _) _ => apply sim_warn
      | |- sim _ (SetW _ _ _) _ => apply sim_setw
      | |- sim _ (match ?x with _ => _ end) _ => destruct x
      end
    | solve [eauto with ksim] ].

Lemma sim_choice_tri_value c : sim' (choice_tri_value K u c) (choice_tri_value K u' c).
Proof using Hagree.
  unfold choice_tri_value. destruct (ag_choice Hagree c) as [->|Hn]; [apply sim_refl|].
  cbn. apply sim_get. intros v Hv. by apply Hn in Hv.
Qed.
Hint Resolve sim_choice_tri_value : ksim.
Lemma sim_symbol_type s : sim' (symbol_type K u s) (symbol_type K u' s).
Proof using Hagree. unfold symbol_type. sm. Qed.
Hint Resolve sim_symbol_type : ksim.
Lemma sim_item_type i : sim' (item_type K u i) (item_type K u' i).
Proof using Hagree. unfold item_type. sm. Qed.
Hint Resolve sim_item_type : ksim.
Lemma sim_expr_value e : sim' (expr_value K u e) (expr_value K u' e).
Proof using Hagree. induction e; cbn [expr_value]; unfold item_tri_value; sm. Qed.
Hint Resolve sim_expr_value : ksim.
Lemma sim_max_value vis conds : sim' (max_value K u vis conds) (max_value K u' vis conds).
Proof using Hagree. revert vis. induction conds; cbn [max_value]; sm. Qed.
Lemma sim_first_active {A} (l : list (A * expr)) : sim' (first_active K u l) (first_active K u' l).
Proof using Hagree. induction l; cbn [first_active]; sm. Qed.
Hint Resolve sim_max_value sim_first_active : ksim.
Lemma sim_default_str e : sim' (default_str K u e) (default_str K u' e).
Proof using Hagree. unfold default_str. sm. Qed.
Hint Resolve sim_default_str : ksim.
Lemma sim_no_m s : sim' (no_m K u s) (no_m K u' s).
Proof using Hagree. unfold no_m. sm. Qed.
Lemma sim_num_defaults b s r : sim' (num_defaults K u b s r) (num_defaults K u' b s r).
Proof using Hagree. unfold num_defaults. sm. Qed.
Lemma sim_string_defaults s : sim' (string_defaults K u s) (string_defaults K u' s).
Proof using Hagree. unfold string_defaults. sm. Qed.
Lemma sim_tri_defaults s : sim' (tri_defaults K u s) (tri_defaults K u' s).
Proof using Hagree. unfold tri_defaults. sm. Qed.
Lemma sim_default_selection l : sim' (default_selection K u l) (default_selection K u' l).
Proof using Hagree. induction l; cbn [default_selection]; sm. Qed.
Hint Resolve sim_no_m sim_num_defaults sim_string_defaults sim_tri_defaults
  sim_default_selection : ksim.

Lemma sim_get_vis i {A} (f f' : Z → code A) :
  (∀ z, R (QVis i) (VTri z) → sim' (f z) (f' z)) →
  sim' (prog_bind (get_vis i) f) (prog_bind (get_vis i) f').
Proof using Type. intros Hf. apply sim_get. intros [] Hv; cbn; auto using sim_refl. Qed.

Lemma user_value_cases s z :
  P (ISym s) → R (QVis (ISym s)) (VTri z) → user_value u !! s = user_value u' !! s ∨ z = 0%Z.
Proof using Hagree.
  intros HP. destruct (ag_user Hagree s HP) as [|H]; [auto|]. intros [= ->]%H. auto.
Qed.

Lemma sim_tri_own s z :
  P (ISym s) → R (QVis (ISym s)) (VTri z) → sim' (tri_own K u s z) (tri_own K u' s z).
Proof using Hagree.
  unfold tri_own. intros HP [->| ->]%(user_value_cases _ _ HP); [sm|].
  cbn. destruct (user_value u !! s), (user_value u' !! s); apply sim_tri_defaults.
Qed.

Lemma sim_num_value b s z :
  P (ISym s) → R (QVis (ISym s)) (VTri z) → sim' (num_value K u b s z) (num_value K u' b s z).
Proof using Hagree.
  unfold num_value, active_range. intros HP [->| ->]%(user_value_cases _ _ HP); [sm|].
  apply sim_bind; [sm|]. intros r. cbn.
  destruct (user_value u !! s), (user_value u' !! s); apply sim_num_defaults.
Qed.

Lemma sim_string_value s z :
  P (ISym s) → R (QVis (ISym s)) (VTri z) → sim' (string_value K u s z) (string_value K u' s z).
Proof using Hagree.
  unfold string_value. intros HP [->| ->]%(user_value_cases _ _ HP); [sm|].
  cbn. destruct (user_value u !! s), (user_value u' !! s); apply sim_string_defaults.
Qed.
Hint Resolve sim_tri_own sim_num_value sim_string_value : ksim.

Lemma body_sim q :
  (∀ i, looks_at K q = Some i → P i) → sim' (body K u q) (body K u' q).
Proof using Hagree.
  intros HP. destruct q as [s|s|i|c|i]; cbn [body looks_at] in *; apply sim_bind; intros;
    try apply sim_refl.
  - unfold tri_body. destruct (BOOL_TRISTATE (s_orig_type (sym K s))); [|apply sim_refl].
    specialize (HP _ eq_refl). apply sim_get_vis. intros z Hz. apply sim_setw.
    destruct (s_choice (sym K s)) as [c|].
    + destruct (z =? 2)%Z; [apply sim_refl|].
      destruct (user_value_cases _ _ HP Hz) as [->| ->]; apply sim_refl.
    + unfold tri_select, tri_promote. sm.
  - unfold str_body. destruct (BOOL_TRISTATE (s_orig_type (sym K s))) eqn:Hb; [apply sim_refl|].
    destruct (decide _) as [|Hd]; [apply sim_refl|].
    assert (P (ISym s)) by (apply HP; by destruct (s_orig_type (sym K s))).
    apply sim_get_vis. intros z Hz. apply sim_setw. sm.
  - unfold visibility, hidden_by_choice. sm.
  - unfold sel_body, selection_from_defaults.
    destruct (ag_selection Hagree c (HP _ eq_refl)) as [->|Hn]; [sm|].
    cbn. apply sim_get. intros v Hv. by apply Hn in Hv.
  - unfold assignable, symbol_assignable, choice_assignable. sm.
Qed.
End Agreement.

(** Agreement for the properties of every object. *)
Definition agree (R : query → val → Prop) (u u' : ustate) : Prop := agree_on R u u' (λ _, True).

(** ** Invalidation is sound *)
Section Soundness.
Context {K : kconfig} {fuel : nat} {HK : Loaded K fuel}.
Implicit Types (u : ustate) (σ : session) (st : kstate).

Abbreviation Coherent := (coherent (preset K) (body K)).
Abbreviation Evals := (evals (preset K) (body K)).

Lemma preset_typed q v : preset K q = Some v → answer_ok K q v.
Proof using Type.
  destruct q as [s| | | |]; cbn; try done. unfold is_tri.
  repeat (case_decide; [intros; simplify_eq; cbn; lia|]). done.
Qed.

Lemma body_safe u q :
  uok K u → preset K q = None →
  safe (λ q', ld_rank q' < ld_rank q) (λ q', ld_rank q' < ld_rank q) (answer_ok K)
    (answer_ok K q) (body K u q).
Proof using Type.
  intros Hu Hq. apply safe_body; [apply (ld_wf (K := K) (fuel := fuel))|done|..]; apply Forall_forall;
    intros q' Hq'; apply ld_rank_reads; [done|apply elem_of_app; by left|done|
      apply elem_of_app; by right].
Qed.

Lemma evals_ok u q v : uok K u → Evals u q v → answer_ok K q v.
Proof using HK.
  intros Hu. eapply (evals_typed _ _ ld_rank); [apply preset_typed|apply body_safe|done].
Qed.

(** Reading a property: it terminates, returns the value computed from
    scratch, and keeps the cache coherent. *)
Lemma eval_ok u q st :
  uok K u → Coherent u st →
  ∃ v st', eval (body K) u fuel q st = Ok (v, st') ∧ Evals u q v ∧ Coherent u st'.
Proof using HK.
  intros Hu Hc.
  destruct (eval_correct (writer K) (preset K) (body K) ld_rank (answer_ok K) preset_typed
              (uok K) body_safe (body_writes K) u fuel q st Hu Hc (ld_rank_fuel q))
    as (v & st' & He & _ & Hv & Hc' & _).
  eauto.
Qed.

Lemma cached_reads u st q v rs es q' :
  uok K u → Coherent u st → preset K q = None →
  runs (cached st) (body K u q) v rs es → q' ∈ rs → q' ∈ static_reads K q.
Proof using HK.
  intros Hu Hc Hq Hr Hin.
  assert (Forall (λ q', q' ∈ static_reads K q) rs) as Hall.
  { eapply (safe_reads _ (λ q', q' ∈ warn_reads K q) (answer_ok K));
      [|apply safe_body|exact Hr]; [|apply ld_wf|done|by apply Forall_forall..].
    intros q1 v1 Hv1. eapply evals_ok; [done|]. by eapply coh_evals. }
  rewrite Forall_forall in Hall. auto.
Qed.

Lemma slots_owner i q : q ∈ slots i ↔ owner q = i.
Proof using Type.
  destruct i, q as [| |[]| |[]]; cbn; rewrite !elem_of_cons, elem_of_nil; naive_solver.
Qed.

Lemma deps_in i d : d ∈ dependents K i → d ∈ all_items K.
Proof using HK. apply ld_deps. Qed.

(** The first thing a property reads. *)
Definition first_read {A} (q : query) (p : code A) : Prop :=
  match p with Get q' _ => q' = q | _ => False end.

Lemma first_read_bind {A B} q (p : code A) (f : A → code B) :
  first_read q p → first_read q (prog_bind p f).
Proof using Type. by destruct p. Qed.

Lemma first_read_runs {A} R q (p : code A) a rs es :
  first_read q p → runs R p a rs es → ∃ v, R q v.
Proof using Type. intros Hf Hr. destruct p; try done. cbn in Hf; subst. inversion Hr; eauto. Qed.

Lemma body_first_read u q :
  match q with
  | QTri s => BOOL_TRISTATE (s_orig_type (sym K s)) = true → first_read (QVis (ISym s)) (body K u q)
  | QStr s =>
      BOOL_TRISTATE_UNKNOWN (s_orig_type (sym K s)) = false →
      first_read (QVis (ISym s)) (body K u q)
  | QVis i => True
  | QSel c => first_read (QVis (ICho c)) (body K u q)
  | QAsg i => match i with ISym s => BOOL_TRISTATE (s_orig_type (sym K s)) = true | _ => True end →
              first_read (QVis i) (body K u q)
  end.
Proof using Type.
  destruct q as [s|s|i|c|[s|c]]; cbn [body]; try done.
  - intros Hb. unfold tri_body. by rewrite Hb.
  - intros Hb. unfold str_body. by destruct (s_orig_type (sym K s)).
  - intros Hb. unfold assignable, symbol_assignable. by rewrite Hb.
Qed.

(** [_cached_vis] tells whether an object holds cached values. *)
Lemma coherent_flagged u st :
  uok K u → Coherent u st → flagged owner (preset K) (body K) (λ i, QVis i) (all_items K) u st.
Proof using HK.
  intros Hu Hc q v rs es Hq Hpre Hr (q' & Hq' & Hall).
  pose proof (cached_reads u st q v rs es q' Hu Hc Hpre Hr Hq') as Hin.
  assert (∀ q v rs es, first_read (QVis (owner q)) (body K u q) →
    runs (cached st) (body K u q) v rs es → is_Some (cache st !! QVis (owner q))) as Hfst.
  { intros q1 v1 rs1 es1 Hf Hr1. destruct (first_read_runs _ _ _ _ _ _ Hf Hr1) as [w Hw].
    by exists w. }
  pose proof (body_first_read u q) as Hfirst.
  destruct q as [s|s|i|c|[s|c]]; cbn [static_reads] in Hin.
  - destruct (BOOL_TRISTATE (s_orig_type (sym K s))) eqn:Hb; [|by apply elem_of_nil in Hin].
    eapply (Hfst (QTri s)); eauto.
  - destruct (BOOL_TRISTATE (s_orig_type (sym K s))) eqn:Hb.
    + apply list_elem_of_singleton in Hin as ->.
      assert (preset K (QTri s) = None) as Hpre'.
      { destruct (preset K (QTri s)) eqn:Hp; [|done]. by apply (ld_const (fuel := fuel)) in Hp. }
      destruct (runs_reads _ _ _ _ _ _ Hr Hq') as [w Hw].
      destruct (coh_just _ _ _ _ Hc _ _ Hw Hpre') as (rs1 & es1 & Hr1 & _).
      eapply (Hfst (QTri s)); [|done]. by apply (body_first_read u (QTri s)).
    + case_decide as Hunk; [by apply elem_of_nil in Hin|].
      eapply (Hfst (QStr s)); [|done]. apply Hfirst. by destruct (s_orig_type (sym K s)).
  - by exists v.
  - by eapply (Hfst (QSel c)).
  - destruct (BOOL_TRISTATE (s_orig_type (sym K s))) eqn:Hb; [|by apply elem_of_nil in Hin].
    eapply (Hfst (QAsg (ISym s))); eauto.
  - eapply (Hfst (QAsg (ICho c))); eauto.
Qed.

(** Invalidation terminates and keeps the cache coherent; what it clears. *)
Lemma inval_ok u st i :
  uok K u → Coherent u st → i ∈ all_items K →
  ∃ C, invalidate_rec K i (cache st) = Ok C ∧ Coherent u (set_cache (λ _, C) st) ∧
    (∀ q, owner q = i → C !! q = None) ∧
    (∀ d, d ∈ dependents K i → C !! QVis d = None).
Proof using HK.
  intros Hu Hc Hi.
  destruct (rec_invalidate_total owner slots (λ i, QVis i) (dependents K) (is_modules K)
    (all_items K) slots_owner (λ _, eq_refl) deps_in (S (size (cache st))) i (cache st) Hi) as [C HC].
  { pose proof (map_subseteq_size _ _ (invalidate_sub owner slots slots_owner i (cache st))). lia. }
  exists C. split; [done|]. split_and!.
  - eapply (invalidate_coherent owner _ _ slots (λ i, QVis i) (dependents K) (is_modules K)
      (all_items K) slots_owner (λ _, eq_refl) deps_in); try done.
    + by apply coherent_flagged.
    + intros q v rs es Hq Hpre Hr q' Hq'.
      pose proof (cached_reads u st q v rs es q' Hu Hc Hpre Hr Hq') as Hin.
      destruct (ld_tracked (fuel := fuel) q q' Hpre Hin) as [?|[?|[[Hm ?]|?]]]; auto.
      right; right; left. split; [|done]. unfold is_modules. by apply bool_decide_eq_true.
    + apply ld_const.
  - eapply (rec_invalidate_spec owner slots (λ i, QVis i)) in HC as (_ & ? & _);
      [done|apply slots_owner|done|apply deps_in|done].
  - eapply (rec_invalidate_spec owner slots (λ i, QVis i)) in HC as (_ & _ & HC);
      [|apply slots_owner|done|apply deps_in|done].
    intros d Hd. destruct HC as [Ha|[_ Ha]]; [|by apply Ha].
    apply Ha. by eapply deps_in.
Qed.

Lemma switch_ok u u' st :
  Coherent u st → agree (cached st) u u' → Coherent u' st.
Proof using Type.
  intros Hc Ha. eapply switch_coherent; [exact Hc|]. intros q v _ _. by apply (body_sim _ _ _ _ _ Ha).
Qed.

Lemma agree_refl R u : agree R u u.
Proof using Type. split; by left. Qed.

(** The invariant of a session. *)
Definition session_ok σ : Prop := uok K (uvals σ) ∧ Coherent (uvals σ) (vals σ).

Lemma mark_sym_ok s σ : session_ok (mark_sym s σ) ↔ session_ok σ.
Proof using Type. done. Qed.
Lemma mark_choice_ok c σ : session_ok (mark_choice c σ) ↔ session_ok σ.
Proof using Type. done. Qed.
Lemma no_prompt_warning_ok b σ : session_ok (set_no_prompt_warning b σ) ↔ session_ok σ.
Proof using Type. done. Qed.

Lemma kwarn_ok msg σ : session_ok σ → session_ok (kwarn msg σ).
Proof using Type. intros [? ?]. split; [done|]. cbn. by apply do_warn_coherent. Qed.

Lemma has_prompt_spec i : has_prompt K i = false ↔ prompt_conds K i = [].
Proof using Type.
  unfold has_prompt, prompt_conds. induction (nodes K i) as [|n l IH]; [done|].
  cbn. by destruct (n_prompt (nod K n)).
Qed.

Lemma has_prompt_all s : has_prompt K (ISym s) = true → ISym s ∈ all_items K.
Proof using HK.
  intros Hp. apply (ld_prompt (fuel := fuel)). intros Hn. by rewrite (proj2 (has_prompt_spec _) Hn) in Hp.
Qed.

(** Changing user values, then invalidating [i]. *)
Lemma inval_change i u σ :
  uok K u → Coherent u (vals σ) → uok K (uvals σ) → i ∈ all_items K →
  (∀ R : query → val → Prop, (∀ v, ¬ R (QVis i) v) →
     (∀ d v, d ∈ dependents K i → ¬ R (QVis d) v) → agree R u (uvals σ)) →
  ∃ σ', inval K i σ = Ok σ' ∧ session_ok σ' ∧ uvals σ' = uvals σ ∧
    sym_was_set σ' = sym_was_set σ ∧ choice_was_set σ' = choice_was_set σ ∧
    warn_assign_no_prompt σ' = warn_assign_no_prompt σ.
Proof using HK.
  intros Hu Hc Hu' Hi Hag. destruct (inval_ok u (vals σ) i Hu Hc Hi) as (C & HC & Hc' & Hown & Hdep).
  exists (set_vals (set_cache (λ _, C)) σ). unfold inval. rewrite HC. split_and!; try done.
  split; [done|]. cbn. eapply switch_ok; [done|]. apply Hag.
  - intros v. unfold cached; cbn. by rewrite Hown.
  - intros d v Hd. unfold cached; cbn. by rewrite Hdep.
Qed.

Lemma promptless_agree st u u' s :
  uok K u → Coherent u st → prompt_conds K (ISym s) = [] →
  (∀ t, t ≠ s → user_value u !! t = user_value u' !! t) →
  choice_user_value u = choice_user_value u' → user_selection u = user_selection u' →
  agree (cached st) u u'.
Proof using HK.
  intros Hu Hc Hp Hs H1 H2. split; [|intros c; left; congruence..].
  intros t. destruct (decide (t = s)) as [->|]; [right|left; auto].
  intros v Hv. apply (coh_evals _ _ _ _ Hc) in Hv. apply (evals_ok _ _ _ Hu) in Hv.
  destruct v as [z| | |]; try done. destruct Hv as [_ Hv]. by rewrite Hv.
Qed.

(** [_rec_invalidate_if_has_prompt] after a change of the user value of [s]. *)
Lemma rec_invalidate_if_has_prompt_ok s u σ :
  uok K u → Coherent u (vals σ) → uok K (uvals σ) →
  (∀ t, t ≠ s → user_value u !! t = user_value (uvals σ) !! t) →
  choice_user_value u = choice_user_value (uvals σ) →
  user_selection u = user_selection (uvals σ) →
  ∃ σ', rec_invalidate_if_has_prompt K s σ = Ok σ' ∧ session_ok σ' ∧ uvals σ' = uvals σ ∧
    sym_was_set σ' = sym_was_set σ ∧ choice_was_set σ' = choice_was_set σ ∧
    warn_assign_no_prompt σ' = warn_assign_no_prompt σ.
Proof using HK.
  intros Hu Hc Hu' Hs H1 H2. unfold rec_invalidate_if_has_prompt.
  destruct (has_prompt K (ISym s)) eqn:Hp.
  - apply (inval_change _ u); try done; [by apply has_prompt_all|].
    intros R HR _. split; [|intros c; left; congruence..].
    intros t. destruct (decide (t = s)) as [->|]; [right|left; auto].
    intros v Hv. by apply HR in Hv.
  - apply has_prompt_spec in Hp.
    assert (session_ok σ) as Hok.
    { split; [done|]. eapply switch_ok; [exact Hc|]. by eapply promptless_agree. }
    eexists. split; [done|]. case_match; split_and!; try done. by apply kwarn_ok.
Qed.

(** ** What the operations do to the user values *)

Definition norm_value (s : nat) (value : uval) : uval :=
  if BOOL_TRISTATE (s_orig_type (sym K s)) then as_tri value else value.

Definition spec_set_value (s : nat) (value : uval) (u : ustate) : bool * ustate :=
  let value := norm_value s value in
  if valid_for (s_orig_type (sym K s)) value then
    (true,
     match s_choice (sym K s) with
     | Some c => if decide (value = UTri 2) then put_selection c s (put_user_value s value u)
                 else put_user_value s value u
     | None => put_user_value s value u
     end)
  else (false, u).

Definition spec_choice_set_value (c : nat) (value : uval) (u : ustate) : bool * ustate :=
  let value := as_tri value in
  match value with
  | UTri v => if valid_for (c_orig_type (cho K c)) value then (true, put_choice_value c v u)
              else (false, u)
  | UStr _ => (false, u)
  end.

Lemma valid_for_ok t v : valid_for t v = true ↔ uval_ok t v.
Proof using Type.
  unfold valid_for, uval_ok. destruct t, v; try done.
  - rewrite orb_true_iff, !Z.eqb_eq. tauto.
  - rewrite bool_decide_eq_true. split.
    + intros [x Hx]. apply TRI_TO_STR_TO_TRI, STR_TO_TRI_is_tri in Hx. tauto.
    + intros Hv. by apply tri_str_ok.
  - by rewrite bool_decide_eq_true.
  - destruct (py_int 16 s) as [n|]; [rewrite Z.leb_le; naive_solver|naive_solver].
Qed.

Lemma uok_put_user s v u :
  uok K u → uval_ok (s_orig_type (sym K s)) v → uok K (put_user_value s v u).
Proof using Type.
  intros [H1 H2 H3] Hv. split; [|done|done]. intros t w. cbn.
  rewrite lookup_insert_Some. intros [[<- <-]|[_ ?]]; [done|by apply H1].
Qed.

Lemma uok_put_selection s c u :
  uok K u → s_choice (sym K s) = Some c → uok K (put_selection c s u).
Proof using Type.
  intros [H1 H2 H3] Hv. split; [done|done|]. intros d t. cbn.
  rewrite lookup_insert_Some. intros [[<- <-]|[_ ?]]; [done|by apply H3].
Qed.

Lemma uok_put_choice c v u :
  uok K u → uval_ok (c_orig_type (cho K c)) (UTri v) → uok K (put_choice_value c v u).
Proof using Type.
  intros [H1 H2 H3] Hv. split; [done| |done]. intros d w. cbn.
  rewrite lookup_insert_Some. intros [[<- <-]|[_ ?]]; [done|by apply H2].
Qed.

Lemma uok_del_user s u : uok K u → uok K (del_user_value s u).
Proof using Type.
  intros [H1 H2 H3]. split; [|done|done]. intros t w. cbn.
  rewrite lookup_delete_Some. intros [_ ?]. by apply H1.
Qed.

Lemma uok_del_choice c u : uok K u → uok K (del_choice_values c u).
Proof using Type.
  intros [H1 H2 H3]. split; [done|..]; intros d w; cbn;
    rewrite lookup_delete_Some; intros [_ ?]; [by apply H2|by apply H3].
Qed.

Lemma put_user_value_id s v u : user_value u !! s = Some v → put_user_value s v u = u.
Proof using Type. destruct u; cbn. intros Hv. unfold put_user_value; cbn. by rewrite insert_id. Qed.

Lemma put_choice_value_id c v u :
  choice_user_value u !! c = Some v → put_choice_value c v u = u.
Proof using Type. destruct u; cbn. intros Hv. unfold put_choice_value; cbn. by rewrite insert_id. Qed.

(** A choice invalidates its symbols. *)
Lemma choice_dependents s c :
  s_choice (sym K s) = Some c → preset K (QVis (ISym s)) = None →
  ISym s ∈ dependents K (ICho c).
Proof using HK.
  intros Hc Hp. pose proof (ld_choice (fuel := fuel) _ _ Hc) as Hall.
  destruct (ld_tracked (fuel := fuel) (QVis (ISym s)) (QVis (ICho c)) Hp) as [Ho|[Ho|[[Ho _]|Ho]]];
    [|done..].
  cbn [static_reads]. rewrite Hc. apply elem_of_app; right. apply elem_of_app; left.
  cbn. by apply elem_of_cons; left.
Qed.

Lemma set_value_session s value σ :
  session_ok σ →
  ∃ σ', set_value K s value σ = Ok ((spec_set_value s value (uvals σ)).1, σ') ∧
    session_ok σ' ∧ uvals σ' = (spec_set_value s value (uvals σ)).2 ∧
    warn_assign_no_prompt σ' = warn_assign_no_prompt σ.
Proof using HK.
  intros [Hu Hc]. unfold set_value, spec_set_value, norm_value.
  set (v := if BOOL_TRISTATE (s_orig_type (sym K s)) then as_tri value else value).
  destruct (bool_decide (user_value (uvals σ) !! s = Some v) && _) eqn:Hsame.
  { rewrite andb_true_iff, !bool_decide_eq_true in Hsame. destruct Hsame as [Hsame ->].
    assert (valid_for (s_orig_type (sym K s)) v = true) as ->.
    { apply valid_for_ok. by apply Hu. }
    eexists; split_and!; [done|by split|by rewrite put_user_value_id|done]. }
  destruct (valid_for (s_orig_type (sym K s)) v) eqn:Hv; cbn [negb].
  2: { eexists; split_and!; [done|by apply kwarn_ok; split|done|done]. }
  apply valid_for_ok in Hv.
  set (σ1 := mark_sym s (set_uvals (put_user_value s v) σ)).
  assert (uok K (uvals σ1)) as Hu1 by by apply uok_put_user.
  assert (∀ t, t ≠ s → user_value (uvals σ) !! t = user_value (uvals σ1) !! t) as Hne.
  { intros t Ht. cbn. by rewrite lookup_insert_ne. }
  assert (∃ σ', rec_invalidate_if_has_prompt K s σ1 = Ok σ' ∧ session_ok σ' ∧ uvals σ' = uvals σ1 ∧
    warn_assign_no_prompt σ' = warn_assign_no_prompt σ) as (σ2 & H2 & Hok2 & Hu2 & Hw2).
  { destruct (rec_invalidate_if_has_prompt_ok s (uvals σ) σ1) as (σ2 & ? & ? & ? & _ & _ & ?);
      try done. by exists σ2. }
  destruct (s_choice (sym K s)) as [c|] eqn:Hch.
  2: { exists σ2. by rewrite H2. }
  destruct (decide (v = UTri 2)) as [Hv2|]; [|exists σ2; by rewrite H2].
  set (σ3 := mark_choice c (set_uvals (put_selection c s) σ1)).
  destruct (inval_change (ICho c) (uvals σ) σ3) as (σ4 & H4 & Hok4 & Hu4 & _ & _ & Hw4);
    [done|done|by apply uok_put_selection|by eapply ld_choice| |].
  - intros R HR Hdep. split.
    + intros t. destruct (decide (t = s)) as [->|Ht]; [right|left; by apply Hne].
      intros w Hw. exfalso. eapply Hdep; [|exact Hw]. by eapply choice_dependents.
    + by left.
    + intros d. destruct (decide (d = c)) as [->|Hd]; [by right|left].
      cbn. by rewrite lookup_insert_ne.
  - exists σ4. cbn. rewrite H4. split_and!; [done|done|by rewrite Hu4|by rewrite Hw4].
Qed.

Lemma unset_value_session s σ :
  session_ok σ →
  ∃ σ', unset_value K s σ = Ok σ' ∧ session_ok σ' ∧ uvals σ' = del_user_value s (uvals σ).
Proof using HK.
  intros [Hu Hc]. unfold unset_value.
  destruct (user_value (uvals σ) !! s) eqn:Hv.
  - destruct (rec_invalidate_if_has_prompt_ok s (uvals σ) (set_uvals (del_user_value s) σ))
      as (σ2 & H2 & Hok & Hu2 & _); try done.
    + by apply uok_del_user.
    + intros t Ht. cbn. by rewrite lookup_delete_ne.
    + exists σ2. by rewrite Hu2.
  - exists σ. split_and!; [done|by split|].
    unfold del_user_value. rewrite delete_id by done. by destruct (uvals σ).
Qed.

Lemma choice_in_items c u :
  uok K u → is_Some (choice_user_value u !! c) ∨ is_Some (user_selection u !! c) →
  ICho c ∈ all_items K.
Proof using HK.
  intros Hu [[v Hv]|[s Hs]].
  - apply (ld_choice_typed (fuel := fuel)). intros Ht.
    pose proof (uok_choice _ _ Hu _ _ Hv) as Hok. by rewrite Ht in Hok.
  - eapply (ld_choice (fuel := fuel)). by apply Hu.
Qed.

Lemma choice_unset_session c σ :
  session_ok σ →
  ∃ σ', choice_unset_value K c σ = Ok σ' ∧ session_ok σ' ∧
    uvals σ' = del_choice_values c (uvals σ).
Proof using HK.
  intros [Hu Hc]. unfold choice_unset_value.
  destruct (_ || _) eqn:Hd.
  - rewrite orb_true_iff, !bool_decide_eq_true in Hd.
    destruct (inval_change (ICho c) (uvals σ) (set_uvals (del_choice_values c) σ))
      as (σ2 & H2 & Hok & Hu2 & _); [done|done|by apply uok_del_choice|by eapply choice_in_items| |].
    + intros R HR _. split; [by left|..]; intros d;
        (destruct (decide (d = c)) as [->|]; [by right|left; cbn; by rewrite lookup_delete_ne]).
    + exists σ2. by rewrite Hu2.
  - rewrite orb_false_iff, !bool_decide_eq_false, <- !eq_None_not_Some in Hd. destruct Hd as [H1 H2].
    exists σ. split_and!; [done|by split|].
    unfold del_choice_values. rewrite !delete_id by done. by destruct (uvals σ).
Qed.

Lemma choice_set_value_session c value σ :
  session_ok σ →
  ∃ σ', choice_set_value K c value σ = Ok ((spec_choice_set_value c value (uvals σ)).1, σ') ∧
    session_ok σ' ∧ uvals σ' = (spec_choice_set_value c value (uvals σ)).2.
Proof using HK.
  intros [Hu Hc]. unfold choice_set_value, spec_choice_set_value.
  case_decide as Hsame.
  { destruct (choice_user_value (uvals σ) !! c) as [v|] eqn:Hv; [|done].
    injection Hsame as <-. pose proof (uok_choice _ _ Hu _ _ Hv) as Hok.
    apply valid_for_ok in Hok. rewrite Hok.
    eexists; split_and!; [done|by split|by rewrite put_choice_value_id]. }
  destruct (as_tri value) as [v|t].
  2: { eexists; split_and!; [done|by apply kwarn_ok; split|done]. }
  assert ((bool_decide (c_orig_type (cho K c) = BOOL) && ((v =? 2)%Z || (v =? 0)%Z))
    || (bool_decide (c_orig_type (cho K c) = TRISTATE) && bool_decide (is_Some (TRI_TO_STR v)))
    = valid_for (c_orig_type (cho K c)) (UTri v)) as ->.
  { unfold valid_for. destruct (c_orig_type (cho K c)); cbn; by rewrite ?orb_false_r. }
  destruct (valid_for (c_orig_type (cho K c)) (UTri v)) eqn:Hv.
  2: { eexists; split_and!; [done|by apply kwarn_ok; split|done]. }
  apply valid_for_ok in Hv.
  destruct (inval_change (ICho c) (uvals σ) (mark_choice c (set_uvals (put_choice_value c v) σ)))
    as (σ2 & H2 & Hok & Hu2 & _); [done|done|by apply uok_put_choice| | |].
  - apply (ld_choice_typed (fuel := fuel)). intros Ht. by rewrite Ht in Hv.
  - intros R HR _. split; [by left|..]; intros d;
      (destruct (decide (d = c)) as [->|]; [by right|left; cbn; by rewrite ?lookup_insert_ne]).
  - exists σ2. rewrite H2. cbn. by rewrite Hu2.
Qed.

Lemma for_each_session {A} (f : A → session → outcome session) (g : A → ustate → ustate) l σ :
  (∀ x σ, session_ok σ →
     ∃ σ', f x σ = Ok σ' ∧ session_ok σ' ∧ uvals σ' = g x (uvals σ)) →
  session_ok σ →
  ∃ σ', for_each f l σ = Ok σ' ∧ session_ok σ' ∧ uvals σ' = foldl (λ u x, g x u) (uvals σ) l.
Proof using Type.
  intros Hf. revert σ. induction l as [|x l IH]; intros σ Hσ; cbn; [eauto|].
  destruct (Hf x σ Hσ) as (σ1 & -> & Hσ1 & <-). cbn. by apply IH.
Qed.

Definition spec_unset_values (u : ustate) : ustate :=
  foldl (λ u c, del_choice_values c u)
    (foldl (λ u s, del_user_value s u) u (k_unique_defined_syms K)) (k_unique_choices K).

Lemma unset_values_session σ :
  session_ok σ →
  ∃ σ', unset_values K σ = Ok σ' ∧ session_ok σ' ∧ uvals σ' = spec_unset_values (uvals σ) ∧
    warn_assign_no_prompt σ' = true.
Proof using HK.
  intros Hσ. unfold unset_values.
  destruct (for_each_session (unset_value K) del_user_value (k_unique_defined_syms K)
    (set_no_prompt_warning false σ)) as (σ1 & -> & Hσ1 & Hu1); [apply unset_value_session|done|].
  destruct (for_each_session (choice_unset_value K) del_choice_values (k_unique_choices K) σ1)
    as (σ2 & H2 & Hσ2 & Hu2); [apply choice_unset_session|done|].
  cbn. rewrite H2. cbn. eexists. split_and!; [done|done| |done].
  cbn. by rewrite Hu2, Hu1.
Qed.

Lemma spec_unset_values_spec u :
  user_value (spec_unset_values u)
    = foldl (λ m s, delete s m) (user_value u) (k_unique_defined_syms K) ∧
  choice_user_value (spec_unset_values u)
    = foldl (λ m c, delete c m) (choice_user_value u) (k_unique_choices K) ∧
  user_selection (spec_unset_values u)
    = foldl (λ m c, delete c m) (user_selection u) (k_unique_choices K).
Proof using Type.
  unfold spec_unset_values.
  assert (∀ l u, user_value (foldl (λ u c, del_choice_values c u) u l) = user_value u ∧
    choice_user_value (foldl (λ u c, del_choice_values c u) u l)
      = foldl (λ m c, delete c m) (choice_user_value u) l ∧
    user_selection (foldl (λ u c, del_choice_values c u) u l)
      = foldl (λ m c, delete c m) (user_selection u) l) as Hc.
  { induction l as [|c l IH]; intros v; cbn; [done|]. destruct (IH (del_choice_values c v)) as (-> & -> & ->). done. }
  assert (∀ l u, user_value (foldl (λ u c, del_user_value c u) u l)
      = foldl (λ m c, delete c m) (user_value u) l ∧
    choice_user_value (foldl (λ u c, del_user_value c u) u l) = choice_user_value u ∧
    user_selection (foldl (λ u c, del_user_value c u) u l) = user_selection u) as Hs.
  { induction l as [|c l IH]; intros v; cbn; [done|]. destruct (IH (del_user_value c v)) as (-> & -> & ->). done. }
  destruct (Hc (k_unique_choices K) (foldl (λ u s, del_user_value s u) u (k_unique_defined_syms K)))
    as (-> & -> & ->).
  destruct (Hs (k_unique_defined_syms K) u) as (-> & -> & ->). done.
Qed.

(** ** Sessions *)

Lemma initial_coherent l : Coherent no_user_values (initial_state K l).
Proof using HK.
  assert (∀ q v, cached (initial_state K l) q v → preset K q = Some v) as Hpre.
  { intros q v. unfold cached, initial_state, preset; cbn.
    rewrite !lookup_insert_Some, lookup_singleton_Some.
    intros [[<- <-]|[Hn [[<- <-]|[Hm [<- <-]]]]]; repeat case_decide; congruence. }
  split.
  - intros q v. unfold cached, initial_state, preset; cbn. destruct q as [s| | | |]; try done.
    repeat case_decide; intros; simplify_eq.
    + by rewrite lookup_insert_eq.
    + rewrite lookup_insert_ne, lookup_insert_eq by congruence. done.
    + rewrite !lookup_insert_ne, lookup_singleton_eq by congruence. done.
  - intros q v Hq. by apply evals_const, Hpre.
  - intros q v Hq Hn. apply Hpre in Hq. congruence.
Qed.

Lemma initial_session_ok l : session_ok (initial_session K l).
Proof using HK. split; [apply uok_none|]. apply initial_coherent. Qed.
End Soundness.

Arguments spec_set_value : clear implicits.
Arguments spec_choice_set_value : clear implicits.
Arguments spec_unset_values : clear implicits.

(** Client operations and their answers. *)
Inductive op : Type :=
  | Read (q : query)
  | SetValue (s : nat) (value : uval)
  | ChoiceSetValue (c : nat) (value : uval)
  | UnsetValue (s : nat)
  | ChoiceUnsetValue (c : nat)
  | UnsetValues.

Inductive answer : Type := AVal (v : val) | ABool (b : bool) | ANone.

Section Sessions.
Variable K : kconfig.
Variable fuel : nat.

Definition do_op (o : op) (σ : session) : outcome (answer * session) :=
  match o with
  | Read q => let! (v, σ) := get_prop K fuel q σ in Ok (AVal v, σ)
  | SetValue s v => let! (b, σ) := set_value K s v σ in Ok (ABool b, σ)
  | ChoiceSetValue c v => let! (b, σ) := choice_set_value K c v σ in Ok (ABool b, σ)
  | UnsetValue s => let! σ := unset_value K s σ in Ok (ANone, σ)
  | ChoiceUnsetValue c => let! σ := choice_unset_value K c σ in Ok (ANone, σ)
  | UnsetValues => let! σ := unset_values K σ in Ok (ANone, σ)
  end.

Fixpoint do_ops (l : list op) (σ : session) : outcome (list answer * session) :=
  match l with
  | [] => Ok ([], σ)
  | o :: l =>
      let! (a, σ) := do_op o σ in
      let! (r, σ) := do_ops l σ in
      Ok (a :: r, σ)
  end.

(** The specification has no cache: its state is the user values alone, and
    reading a property computes it from scratch. *)
Definition spec_op (o : op) (u : ustate) : outcome (answer * ustate) :=
  match o with
  | Read q => let! v := pure (preset K) (body K) u fuel q in Ok (AVal v, u)
  | SetValue s v => let '(b, u) := spec_set_value K s v u in Ok (ABool b, u)
  | ChoiceSetValue c v => let '(b, u) := spec_choice_set_value K c v u in Ok (ABool b, u)
  | UnsetValue s => Ok (ANone, del_user_value s u)
  | ChoiceUnsetValue c => Ok (ANone, del_choice_values c u)
  | UnsetValues => Ok (ANone, spec_unset_values K u)
  end.

Fixpoint spec_ops (l : list op) (u : ustate) : outcome (list answer * ustate) :=
  match l with
  | [] => Ok ([], u)
  | o :: l =>
      let! (a, u) := spec_op o u in
      let! (r, u) := spec_ops l u in
      Ok (a :: r, u)
  end.

Context {HK : Loaded K fuel}.

Lemma evals_pure u q v :
  uok K u → evals (preset K) (body K) u q v → pure (preset K) (body K) u fuel q = Ok v.
Proof using HK.
  intros Hu [n Hn].
  destruct (pure_total (preset K) (body K) ld_rank (answer_ok K) (preset_typed (K := K)) (uok K)
    (body_safe (K := K)) u fuel q Hu (ld_rank_fuel q)) as (w & Hw & _).
  rewrite Hw. f_equal. eapply (evals_fun (preset K) (body K)); [by exists fuel|by exists n].
Qed.

Lemma do_op_refines o σ :
  session_ok (K := K) σ →
  ∃ a σ', do_op o σ = Ok (a, σ') ∧ session_ok (K := K) σ' ∧ spec_op o (uvals σ) = Ok (a, uvals σ').
Proof using HK.
  intros Hσ. destruct o as [q|s v|c v|s|c|]; cbn [do_op spec_op].
  - destruct Hσ as [Hu Hc]. destruct (eval_ok (uvals σ) q (vals σ) Hu Hc) as (v & st & He & Hv & Hc').
    unfold get_prop. rewrite He. cbn. rewrite (evals_pure _ _ _ Hu Hv). cbn.
    eexists _, _. split_and!; [done|by split|done].
  - destruct (set_value_session s v σ Hσ) as (σ' & -> & Hok & Hu & _).
    destruct (spec_set_value K s v (uvals σ)) as [b u]. cbn in *. subst. eauto.
  - destruct (choice_set_value_session c v σ Hσ) as (σ' & -> & Hok & Hu).
    destruct (spec_choice_set_value K c v (uvals σ)) as [b u]. cbn in *. subst. eauto.
  - destruct (unset_value_session s σ Hσ) as (σ' & -> & Hok & Hu). cbn. rewrite <- Hu. eauto.
  - destruct (choice_unset_session c σ Hσ) as (σ' & -> & Hok & Hu). cbn. rewrite <- Hu. eauto.
  - destruct (unset_values_session σ Hσ) as (σ' & -> & Hok & Hu & _). cbn. rewrite <- Hu. eauto.
Qed.

Lemma do_ops_refines l σ :
  session_ok (K := K) σ →
  ∃ r σ', do_ops l σ = Ok (r, σ') ∧ session_ok (K := K) σ' ∧ spec_ops l (uvals σ) = Ok (r, uvals σ').
Proof using HK.
  revert σ. induction l as [|o l IH]; intros σ Hσ; cbn; [eauto|].
  destruct (do_op_refines o σ Hσ) as (a & σ1 & -> & Hσ1 & ->). cbn.
  destruct (IH σ1 Hσ1) as (r & σ2 & -> & Hσ2 & ->). cbn. eauto.
Qed.
End Sessions.
