(* ===== verification/Meaning.v ===== *)
(** * What the properties of a loaded configuration mean

    Under [Loaded], every property has exactly one value for given user values.
    The functions [tri_of], [str_of], [vis_of] and [sel_of] name these values, and
    the theorems say how they are determined: the rules of the module
    documentation and of Kconfig, written with minima and maxima of expression
    values ([value] of Expr.v) instead of the program's control flow. *)

From S2P Require Import Prelude PyStr Kconst Expr Incr Objects Values Reads Session.
From stdpp Require Import options.

Section Meaning.
Context {K : kconfig} {fuel : nat} {HK : Loaded K fuel}.
Variable u : ustate.

Abbreviation Evals := (evals (preset K) (body K)).
Abbreviation Post := (post (Evals u)).

Definition prop_of (q : query) : outcome val := pure (preset K) (body K) u fuel q.

Definition tri_of (s : nat) : Z := match prop_of (QTri s) with Ok (VTri z) => z | _ => 0%Z end.
Definition str_of (s : nat) : string := match prop_of (QStr s) with Ok (VStr t) => t | _ => "" end.
Definition vis_of (i : item) : Z := match prop_of (QVis i) with Ok (VTri z) => z | _ => 0%Z end.
Definition sel_of (c : nat) : option nat := match prop_of (QSel c) with Ok (VSel o) => o | _ => None end.
Definition asg_of (i : item) : list Z := match prop_of (QAsg i) with Ok (VAsg l) => l | _ => [] end.

(** The module rule for types: tristate is bool while modules are disabled. *)
Definition mod_type (t : ktype) : ktype :=
  if decide (t = TRISTATE) then if (tri_of (k_modules K) =? 0)%Z then BOOL else TRISTATE else t.

(** [Choice.tri_value]: the mode of a choice. *)
Definition choice_of (c : nat) : Z :=
  let low := if c_is_optional (cho K c) then 0%Z else 1%Z in
  let val := Z.min (Z.max low (default 0%Z (choice_user_value u !! c))) (vis_of (ICho c)) in
  if (val =? 1)%Z && bool_decide (mod_type (c_orig_type (cho K c)) = BOOL) then 2%Z else val.

Definition item_of (i : item) : Z := match i with ISym s => tri_of s | ICho c => choice_of c end.

Definition type_of (s : nat) : ktype :=
  let t := s_orig_type (sym K s) in
  if bool_decide (t = TRISTATE)
     && match s_choice (sym K s) with Some c => (choice_of c =? 2)%Z | None => false end
  then BOOL else mod_type t.

(** The number a symbol compares as, if any. *)
Definition num_of (s : nat) : option Z :=
  let t := s_orig_type (sym K s) in
  if BOOL_TRISTATE t then Some (tri_of s)
  else base ← TYPE_TO_BASE t; py_int base (str_of s).

(** Relations: numbers if both sides are numbers and not both are strings, else
    the order of strings. *)
Definition rel_of (r : rel) (s1 s2 : nat) : bool :=
  rel_holds r
    (match num_of s1, num_of s2 with
     | Some n1, Some n2 =>
         if decide (s_orig_type (sym K s1) = STRING ∧ s_orig_type (sym K s2) = STRING)
         then strcmp (str_of s1) (str_of s2) else n1 - n2
     | _, _ => strcmp (str_of s1) (str_of s2)
     end)%Z.

(** The value of an expression. *)
Definition ev (e : expr) : Z := value item_of rel_of e.

Hypothesis Hu : uok K u.

Lemma prop_of_total q : ∃ v, prop_of q = Ok v ∧ answer_ok K q v.
Proof using Hu HK.
  apply (pure_total (preset K) (body K) ld_rank (answer_ok K) preset_typed (uok K)
    (body_safe (K := K)) u fuel q Hu (ld_rank_fuel q)).
Qed.

Lemma evals_prop_of q v : Evals u q v ↔ prop_of q = Ok v.
Proof using Hu HK.
  split; [by apply evals_pure|]. intros Hq. by exists fuel.
Qed.

Lemma evals_tri s z : Evals u (QTri s) (VTri z) → z = tri_of s.
Proof using Hu HK. rewrite evals_prop_of. unfold tri_of. by intros ->. Qed.
Lemma evals_str s t : Evals u (QStr s) (VStr t) → t = str_of s.
Proof using Hu HK. rewrite evals_prop_of. unfold str_of. by intros ->. Qed.
Lemma evals_vis i z : Evals u (QVis i) (VTri z) → z = vis_of i.
Proof using Hu HK. rewrite evals_prop_of. unfold vis_of. by intros ->. Qed.
Lemma evals_sel c o : Evals u (QSel c) (VSel o) → o = sel_of c.
Proof using Hu HK. rewrite evals_prop_of. unfold sel_of. by intros ->. Qed.

Lemma tri_of_tri s : is_tri (tri_of s).
Proof using Hu HK.
  destruct (prop_of_total (QTri s)) as (v & Hv & Hok). unfold tri_of. rewrite Hv. by destruct v.
Qed.
Lemma vis_of_tri i : is_tri (vis_of i).
Proof using Hu HK.
  destruct (prop_of_total (QVis i)) as (v & Hv & Hok). unfold vis_of. rewrite Hv. destruct v; try done.
  apply Hok.
Qed.

Lemma choice_user_tri c : is_tri (default 0%Z (choice_user_value u !! c)).
Proof using Hu.
  unfold is_tri. destruct (choice_user_value u !! c) as [z|] eqn:Hz; cbn; [|lia].
  pose proof (uok_choice _ _ Hu _ _ Hz) as Hok. unfold uval_ok, is_tri in Hok.
  destruct (c_orig_type (cho K c)); try done; lia.
Qed.

Lemma choice_of_tri c : is_tri (choice_of c).
Proof using Hu HK.
  pose proof (vis_of_tri (ICho c)). pose proof (choice_user_tri c).
  unfold choice_of, is_tri in *. case_match; [lia|]. destruct (c_is_optional (cho K c)); lia.
Qed.

Lemma item_of_tri i : is_tri (item_of i).
Proof using Hu HK. destruct i; [apply tri_of_tri|apply choice_of_tri]. Qed.

Lemma ev_tri e : is_tri (ev e).
Proof using Hu HK. apply value_tri, item_of_tri. Qed.

(** *** Reading properties *)
Lemma post_get_tri s (Φ : Z → Prop) : Φ (tri_of s) → Post Φ (get_tri s).
Proof using Hu HK. cbn. intros HΦ [z|t|o|l] Hv; cbn; try done. by rewrite (evals_tri _ _ Hv). Qed.
Lemma post_get_str s (Φ : string → Prop) : Φ (str_of s) → Post Φ (get_str s).
Proof using Hu HK. cbn. intros HΦ [z|t|o|l] Hv; cbn; try done. by rewrite (evals_str _ _ Hv). Qed.
Lemma post_get_vis i (Φ : Z → Prop) : Φ (vis_of i) → Post Φ (get_vis i).
Proof using Hu HK. cbn. intros HΦ [z|t|o|l] Hv; cbn; try done. by rewrite (evals_vis _ _ Hv). Qed.
Lemma post_get_sel c (Φ : option nat → Prop) : Φ (sel_of c) → Post Φ (get_sel c).
Proof using Hu HK. cbn. intros HΦ [z|t|o|l] Hv; cbn; try done. by rewrite (evals_sel _ _ Hv). Qed.

(** [p] computes [a]. *)
Definition computes {A} (p : prog item query val A) (a : A) : Prop := Post (λ b, b = a) p.

Lemma computes_bind {A B} (p : prog item query val A) a (f : A → prog item query val B) (Φ : B → Prop) :
  computes p a → Post Φ (f a) → Post Φ (prog_bind p f).
Proof using Type. intros Hp Hf. eapply post_bind; [exact Hp|]. by intros b ->. Qed.

Lemma computes_choice_type c : computes (choice_type K c) (mod_type (c_orig_type (cho K c))).
Proof using Hu HK.
  unfold choice_type, mod_type, computes. case_decide; [|done].
  eapply computes_bind; [by apply post_get_tri|]. done.
Qed.

Lemma computes_choice_tri c : computes (choice_tri_value K u c) (choice_of c).
Proof using Hu HK.
  unfold choice_tri_value, computes. eapply computes_bind; [by apply post_get_vis|].
  unfold choice_of. set (low := if c_is_optional (cho K c) then 0%Z else 1%Z).
  assert (match choice_user_value u !! c with Some uv => Z.max low uv | None => low end
    = Z.max low (default 0%Z (choice_user_value u !! c))) as ->.
  { destruct (choice_user_value u !! c); cbn; [done|]. unfold low. case_match; lia. }
  set (val := Z.min _ _). destruct (val =? 1)%Z; [|done].
  eapply computes_bind; [apply computes_choice_type|]. cbn.
  destruct (decide (mod_type (c_orig_type (cho K c)) = BOOL)) as [Hb|Hb].
  - by rewrite bool_decide_true.
  - by rewrite bool_decide_false.
Qed.

Lemma computes_item_tri i : computes (item_tri_value K u i) (item_of i).
Proof using Hu HK. destruct i; [by apply post_get_tri|apply computes_choice_tri]. Qed.

Lemma computes_symbol_type s : computes (symbol_type K u s) (type_of s).
Proof using Hu HK.
  unfold symbol_type, computes, type_of, mod_type.
  destruct (decide (s_orig_type (sym K s) = TRISTATE)) as [Ht|Ht].
  2: { rewrite bool_decide_false by done. cbn. done. }
  rewrite bool_decide_true by done. cbn [andb].
  eapply (computes_bind _ (match s_choice (sym K s) with Some c => (choice_of c =? 2)%Z | None => false end)).
  - destruct (s_choice (sym K s)) as [c|]; [|done].
    eapply computes_bind; [apply computes_choice_tri|done].
  - case_match; [done|]. by eapply computes_bind; [by apply post_get_tri|].
Qed.

Lemma computes_sym_to_num s : computes (sym_to_num K s) (num_of s).
Proof using Hu HK.
  unfold sym_to_num, computes, num_of. destruct (BOOL_TRISTATE _).
  - by eapply computes_bind; [by apply post_get_tri|].
  - eapply computes_bind; [by apply post_get_str|]. by destruct (TYPE_TO_BASE _).
Qed.

Lemma computes_strcmp s1 s2 : computes (sym_strcmp s1 s2) (strcmp (str_of s1) (str_of s2)).
Proof using Hu HK.
  eapply computes_bind; [by apply post_get_str|]. by eapply computes_bind; [by apply post_get_str|].
Qed.

Lemma computes_rel r s1 s2 :
  computes (rel_value K r s1 s2) (if rel_of r s1 s2 then 2%Z else 0%Z).
Proof using Hu HK.
  unfold rel_value, computes, rel_of. eapply computes_bind; [|done].
  case_decide as Hs.
  - assert (match num_of s1, num_of s2 with
      | Some n1, Some n2 => strcmp (str_of s1) (str_of s2)
      | _, _ => strcmp (str_of s1) (str_of s2) end = strcmp (str_of s1) (str_of s2)) as ->
      by (by repeat case_match).
    apply computes_strcmp.
  - eapply computes_bind; [apply computes_sym_to_num|].
    destruct (num_of s1) as [n1|]; [|apply computes_strcmp].
    eapply computes_bind; [apply computes_sym_to_num|].
    destruct (num_of s2) as [n2|]; [done|apply computes_strcmp].
Qed.

(** Short-circuit evaluation computes the value of the expression. *)
Lemma computes_expr e : computes (expr_value K u e) (ev e).
Proof using Hu HK.
  unfold ev. induction e as [i|e1 IH1 e2 IH2|e1 IH1 e2 IH2|e IH|r s1 s2]; cbn [expr_value value].
  - apply computes_item_tri.
  - eapply computes_bind; [exact IH1|].
    pose proof (ev_tri e1) as H1. pose proof (ev_tri e2) as H2. unfold ev, is_tri in *.
    destruct (value item_of rel_of e1 =? 0)%Z eqn:He.
    + apply Z.eqb_eq in He. cbn. lia.
    + by eapply computes_bind; [exact IH2|].
  - eapply computes_bind; [exact IH1|].
    pose proof (ev_tri e1) as H1. pose proof (ev_tri e2) as H2. unfold ev, is_tri in *.
    destruct (value item_of rel_of e1 =? 2)%Z eqn:He.
    + apply Z.eqb_eq in He. cbn. lia.
    + by eapply computes_bind; [exact IH2|].
  - by eapply computes_bind; [exact IH|].
  - apply computes_rel.
Qed.

(** What the code of a property computes is the property. *)
Lemma prop_of_post q Φ : preset K q = None → Post Φ (body K u q) → ∃ v, prop_of q = Ok v ∧ Φ v.
Proof using Hu HK.
  intros Hp Hpost. destruct (prop_of_total q) as (v & Hv & _). exists v. split; [done|].
  eapply evals_post; [by apply evals_prop_of|done|done].
Qed.

(** ** Visibility *)

Definition max_of (l : list expr) : Z := foldr (λ e m, Z.max (ev e) m) 0%Z l.

Lemma max_of_tri l : is_tri (max_of l).
Proof using Hu HK.
  induction l as [|e l IH]; [unfold is_tri; cbn; lia|].
  change (max_of (e :: l)) with (Z.max (ev e) (max_of l)).
  pose proof (ev_tri e). unfold is_tri in *. lia.
Qed.

Lemma computes_max vis l : is_tri vis → computes (max_value K u vis l) (Z.max vis (max_of l)).
Proof using Hu HK.
  revert vis. induction l as [|e l IH]; intros vis Hvis; cbn [max_value max_of foldr].
  - unfold computes. cbn [post]. unfold is_tri in Hvis. lia.
  - eapply computes_bind; [apply computes_expr|].
    pose proof (ev_tri e) as He.
    replace (Z.max vis (Z.max (ev e) (foldr (λ e m, Z.max (ev e) m) 0%Z l)))
      with (Z.max (Z.max vis (ev e)) (max_of l)) by (unfold max_of; lia).
    apply IH. unfold is_tri in *. lia.
Qed.

(** A choice hides its non-tristate symbols outside y mode, and in y mode its
    tristate symbols that are only m visible. *)
Definition hidden_of (s : nat) (vis : Z) : bool :=
  match s_choice (sym K s) with
  | Some c =>
      if bool_decide (s_orig_type (sym K s) = TRISTATE)
      then (vis =? 1)%Z && (choice_of c =? 2)%Z
      else bool_decide (c_orig_type (cho K c) = TRISTATE) && negb (choice_of c =? 2)%Z
  | None => false
  end.

Definition promote (t : ktype) (vis : Z) : Z :=
  if (vis =? 1)%Z && negb (bool_decide (t = TRISTATE)) then 2%Z else vis.

Lemma computes_visibility i :
  computes (visibility K u i)
    (let vis := max_of (prompt_conds K i) in
     match i with
     | ISym s => if hidden_of s vis then 0%Z else promote (type_of s) vis
     | ICho c => promote (mod_type (c_orig_type (cho K c))) vis
     end).
Proof using Hu HK.
  unfold visibility. eapply computes_bind.
  { apply computes_max. unfold is_tri; lia. }
  pose proof (max_of_tri (prompt_conds K i)) as Ht.
  replace (Z.max 0 (max_of (prompt_conds K i))) with (max_of (prompt_conds K i))
    by (unfold is_tri in Ht; lia).
  set (vis := max_of (prompt_conds K i)) in *. cbv zeta.
  assert (∀ t : ktype, Post (λ b, b = promote t vis)
    (if (vis =? 1)%Z then Ret (if decide (t = TRISTATE) then vis else 2%Z) else Ret vis
     : prog item query val Z)) as Hpro.
  { intros t. unfold promote. destruct (vis =? 1)%Z; [|done]. cbn.
    destruct (decide (t = TRISTATE)); [by rewrite bool_decide_true|by rewrite bool_decide_false]. }
  destruct i as [s|c]; cbn [hidden_by_choice].
  - eapply (computes_bind _ (hidden_of s vis)).
    { unfold hidden_of. destruct (s_choice (sym K s)) as [c|]; [|done].
      destruct (bool_decide (s_orig_type (sym K s) = TRISTATE)); cbn [negb andb].
      - rewrite andb_false_r. cbn [prog_bind].
        destruct (vis =? 1)%Z; cbn [andb]; [|done].
        by eapply computes_bind; [apply computes_choice_tri|].
      - rewrite andb_true_r. destruct (bool_decide (c_orig_type (cho K c) = TRISTATE)); [|done].
        apply post_bind_assoc. eapply computes_bind; [apply computes_choice_tri|]. cbn.
        by destruct (choice_of c =? 2)%Z. }
    destruct (hidden_of s vis); [done|]. specialize (Hpro (type_of s)).
    destruct (vis =? 1)%Z; [|exact Hpro].
    eapply computes_bind; [apply computes_symbol_type|exact Hpro].
  - specialize (Hpro (mod_type (c_orig_type (cho K c)))). cbn [prog_bind].
    destruct (vis =? 1)%Z; [|exact Hpro].
    eapply computes_bind; [apply computes_choice_type|exact Hpro].
Qed.

Lemma vis_of_sym s :
  vis_of (ISym s)
  = (let vis := max_of (prompt_conds K (ISym s)) in
     if hidden_of s vis then 0%Z else promote (type_of s) vis).
Proof using Hu HK.
  destruct (prop_of_post (QVis (ISym s)) (λ v, v = VTri
    (let vis := max_of (prompt_conds K (ISym s)) in
     if hidden_of s vis then 0%Z else promote (type_of s) vis))) as (v & Hv & ->); [done| |].
  - cbn [body]. by eapply computes_bind; [apply (computes_visibility (ISym s))|].
  - unfold vis_of. by rewrite Hv.
Qed.

Lemma vis_of_choice c :
  vis_of (ICho c) = promote (mod_type (c_orig_type (cho K c))) (max_of (prompt_conds K (ICho c))).
Proof using Hu HK.
  destruct (prop_of_post (QVis (ICho c)) (λ v, v = VTri
    (promote (mod_type (c_orig_type (cho K c))) (max_of (prompt_conds K (ICho c))))))
    as (v & Hv & ->); [done| |].
  - cbn [body]. by eapply computes_bind; [apply (computes_visibility (ICho c))|].
  - unfold vis_of. by rewrite Hv.
Qed.

(** ** The first property whose condition holds *)

Definition active {A} (l : list (A * expr)) : option (A * Z) :=
  (λ p : A * expr, (p.1, ev p.2)) <$> first_such (λ p, negb (ev p.2 =? 0)%Z) l.

Lemma computes_active {A} (l : list (A * expr)) : computes (first_active K u l) (active l).
Proof using Hu HK.
  unfold active. induction l as [|[x cond] l IH]; cbn [first_active first_such]; [done|].
  eapply computes_bind; [apply computes_expr|]. cbn [snd].
  by destruct (ev cond =? 0)%Z.
Qed.

Lemma active_spec {A} (l : list (A * expr)) x z :
  active l = Some (x, z) →
  ∃ cond l1 l2, l = l1 ++ (x, cond) :: l2 ∧ z = ev cond ∧ z ≠ 0%Z ∧
    Forall (λ p, ev p.2 = 0%Z) l1.
Proof using Type.
  unfold active. rewrite fmap_Some. intros ([y cond] & Hf & Hz). cbn in Hz. simplify_eq.
  apply first_such_spec in Hf as (l1 & l2 & -> & Hc & Hl). cbn in Hc.
  exists cond, l1, l2. split_and!; [done|done| |].
  - apply negb_true_iff, Z.eqb_neq in Hc. done.
  - eapply Forall_impl; [exact Hl|]. cbn. intros p Hp. apply negb_false_iff, Z.eqb_eq in Hp. done.
Qed.

(** ** Values of bool and tristate symbols *)

(** The default: the first one whose condition is not n, limited by it. *)
Definition default_of (s : nat) : Z :=
  match active (s_defaults (sym K s)) with Some (d, z) => Z.min (ev d) z | None => 0%Z end.

(** Implies raise it, if the direct dependencies are met. *)
Definition implied_of (s : nat) : Z :=
  if (ev (s_direct_dep (sym K s)) =? 0)%Z then default_of s
  else Z.max (ev (s_weak_rev_dep (sym K s))) (default_of s).

(** A visible symbol takes its user value, limited by the visibility. *)
Definition own_of (s : nat) : Z :=
  match user_value u !! s with
  | Some (UTri v) => if (vis_of (ISym s) =? 0)%Z then implied_of s else Z.min v (vis_of (ISym s))
  | _ => implied_of s
  end.

(** Selects raise the value regardless; m becomes y for bool symbols and for
    symbols implied to y. *)
Definition raise_of (s : nat) (val : Z) : Z :=
  let val := Z.max (ev (s_rev_dep (sym K s))) val in
  if (val =? 1)%Z && (bool_decide (type_of s = BOOL) || (ev (s_weak_rev_dep (sym K s)) =? 2)%Z)
  then 2%Z else val.

Definition choice_symbol_of (s c : nat) : Z :=
  let vis := vis_of (ISym s) in
  if (vis =? 2)%Z then if decide (sel_of c = Some s) then 2%Z else 0%Z
  else if negb (vis =? 0)%Z && truthy (user_value u !! s) then 1%Z else 0%Z.

Lemma default_of_tri s : is_tri (default_of s).
Proof using Hu HK.
  unfold default_of. destruct (active (s_defaults (sym K s))) as [[d z]|] eqn:Ha;
    [|unfold is_tri; lia].
  apply active_spec in Ha as (cond & _ & _ & _ & -> & _).
  pose proof (ev_tri d). pose proof (ev_tri cond). unfold is_tri in *. lia.
Qed.

Lemma implied_of_tri s : is_tri (implied_of s).
Proof using Hu HK.
  unfold implied_of. pose proof (default_of_tri s). pose proof (ev_tri (s_weak_rev_dep (sym K s))).
  case_match; [done|]. unfold is_tri in *. lia.
Qed.

Lemma computes_defaults s : computes (tri_defaults K u s) (implied_of s).
Proof using Hu HK.
  unfold tri_defaults. eapply computes_bind; [apply computes_active|].
  eapply (computes_bind _ (default_of s)).
  { unfold default_of. destruct (active (s_defaults (sym K s))) as [[d z]|]; [|done].
    eapply computes_bind; [apply computes_expr|]. cbv zeta. by destruct (Z.min (ev d) z =? 0)%Z. }
  unfold implied_of. pose proof (default_of_tri s) as Hd. unfold is_tri in Hd.
  eapply computes_bind; [apply computes_expr|].
  destruct (ev (s_weak_rev_dep (sym K s)) =? 0)%Z eqn:Hw.
  - apply Z.eqb_eq in Hw. rewrite Hw. cbn [post]. destruct (_ =? 0)%Z; lia.
  - eapply computes_bind; [apply computes_expr|].
    by destruct (ev (s_direct_dep (sym K s)) =? 0)%Z.
Qed.

Lemma computes_own s :
  BOOL_TRISTATE (s_orig_type (sym K s)) = true →
  computes (tri_own K u s (vis_of (ISym s))) (own_of s).
Proof using Hu HK.
  intros Hb. unfold tri_own, own_of.
  destruct (user_value u !! s) as [v|] eqn:Hv; [|apply computes_defaults].
  destruct (uok_bool_tristate K u Hu _ _ Hb Hv) as (z & -> & _).
  destruct (vis_of (ISym s) =? 0)%Z; [apply computes_defaults|done].
Qed.

Lemma own_of_tri s : BOOL_TRISTATE (s_orig_type (sym K s)) = true → is_tri (own_of s).
Proof using Hu HK.
  intros Hb. unfold own_of. pose proof (implied_of_tri s). pose proof (vis_of_tri (ISym s)).
  destruct (user_value u !! s) as [v|] eqn:Hv; [|done].
  destruct (uok_bool_tristate K u Hu _ _ Hb Hv) as (z & -> & Hz).
  destruct (vis_of (ISym s) =? 0)%Z; [done|]. unfold is_tri in *. lia.
Qed.

Lemma computes_select s val : is_tri val →
  computes (tri_select K u s val) (Z.max (ev (s_rev_dep (sym K s))) val).
Proof using Hu HK.
  intros Hval. unfold tri_select. eapply computes_bind; [apply computes_expr|].
  pose proof (ev_tri (s_rev_dep (sym K s))) as Hr. unfold is_tri in *.
  destruct (ev (s_rev_dep (sym K s)) =? 0)%Z eqn:He.
  - apply Z.eqb_eq in He. cbn [post]. lia.
  - eapply computes_bind; [apply computes_expr|]. cbv zeta. by case_match.
Qed.

Lemma computes_tri s : BOOL_TRISTATE (s_orig_type (sym K s)) = true →
  computes (tri_body K u s)
    (match s_choice (sym K s) with
     | None => raise_of s (own_of s)
     | Some c => choice_symbol_of s c
     end).
Proof using Hu HK.
  intros Hb. unfold tri_body. rewrite Hb.
  eapply computes_bind; [by apply post_get_vis|]. apply post_SetW.
  destruct (s_choice (sym K s)) as [c|].
  - unfold choice_symbol_of. destruct (vis_of (ISym s) =? 2)%Z.
    + by eapply computes_bind; [by apply post_get_sel|].
    + by destruct (negb _ && _).
  - eapply computes_bind; [by apply computes_own|].
    eapply computes_bind; [by apply computes_select, own_of_tri|].
    unfold raise_of, tri_promote. cbv zeta.
    destruct (Z.max _ _ =? 1)%Z; [|done]. cbn [andb].
    eapply computes_bind; [apply computes_symbol_type|].
    destruct (decide (type_of s = BOOL)) as [Ht|Ht].
    + by rewrite bool_decide_true.
    + rewrite bool_decide_false by done. cbn [orb].
      by eapply computes_bind; [apply computes_expr|].
Qed.

Lemma tri_of_eq s :
  preset K (QTri s) = None → BOOL_TRISTATE (s_orig_type (sym K s)) = true →
  tri_of s = match s_choice (sym K s) with
             | None => raise_of s (own_of s)
             | Some c => choice_symbol_of s c
             end.
Proof using Hu HK.
  intros Hp Hb. destruct (prop_of_post (QTri s) (λ v, v = VTri
    (match s_choice (sym K s) with
     | None => raise_of s (own_of s) | Some c => choice_symbol_of s c end))) as (v & Hv & ->); [done| |].
  - cbn [body]. by eapply computes_bind; [by apply computes_tri|].
  - unfold tri_of. by rewrite Hv.
Qed.

Lemma tri_of_other s :
  preset K (QTri s) = None → BOOL_TRISTATE (s_orig_type (sym K s)) = false → tri_of s = 0%Z.
Proof using Hu HK.
  intros Hp Hb. destruct (prop_of_post (QTri s) (λ v, v = VTri 0)) as (v & Hv & ->); [done| |].
  - cbn [body]. eapply (computes_bind _ 0%Z); [|done]. unfold tri_body. rewrite Hb. by case_decide.
  - unfold tri_of. by rewrite Hv.
Qed.

(** ** The selection of a choice *)

Definition visible (s : nat) : bool := negb (vis_of (ISym s) =? 0)%Z.

Definition default_selects (p : expr * expr) : bool :=
  negb (ev p.2 =? 0)%Z && match p.1 with ESym s => visible s | _ => false end.

Definition default_selection_of (c : nat) : option nat :=
  match first_such default_selects (c_defaults (cho K c)) with
  | Some (ESym s, _) => Some s
  | _ => first_such visible (c_syms (cho K c))
  end.

Lemma computes_default_selection l :
  forallb (λ p, is_symbol p.1) l = true →
  computes (default_selection K u l)
    (match first_such default_selects l with Some (ESym s, _) => Some s | _ => None end).
Proof using Hu HK.
  induction l as [|[d cond] l IH]; cbn [default_selection first_such forallb]; [done|].
  rewrite andb_true_iff. intros [Hd Hl].
  eapply computes_bind; [apply computes_expr|]. unfold default_selects at 1. cbn [fst snd] in *.
  destruct (ev cond =? 0)%Z; cbn [negb andb]; [by apply IH|].
  destruct d as [[s|?]| | | |]; try done.
  eapply computes_bind; [by apply post_get_vis|]. unfold visible.
  destruct (vis_of (ISym s) =? 0)%Z; cbn [negb]; [by apply IH|done].
Qed.

Lemma computes_first_visible l : computes (first_visible l) (first_such visible l).
Proof using Hu HK.
  induction l as [|s l IH]; cbn [first_visible first_such]; [done|].
  eapply computes_bind; [by apply post_get_vis|]. unfold visible at 1.
  by destruct (vis_of (ISym s) =? 0)%Z.
Qed.

Lemma first_default_symbol l :
  match first_such default_selects l with Some (ESym s, _) => True | Some _ => False | None => True end.
Proof using Type.
  destruct (first_such default_selects l) as [[d cond]|] eqn:Hf; [|done].
  apply first_such_spec in Hf as (_ & _ & _ & Hd & _). unfold default_selects in Hd. cbn in Hd.
  apply andb_true_iff in Hd as [_ Hd]. by destruct d as [[]| | | |].
Qed.

Lemma computes_defaults_selection c :
  computes (selection_from_defaults K u c) (default_selection_of c).
Proof using Hu HK.
  unfold selection_from_defaults, default_selection_of.
  destruct (ld_wf (K := K) (fuel := fuel)) as [_ Hwf].
  eapply computes_bind; [by apply computes_default_selection, Hwf|].
  pose proof (first_default_symbol (c_defaults (cho K c))) as Hf.
  destruct (first_such default_selects (c_defaults (cho K c))) as [[[[s|?]| | | |] cond]|]; try done.
  apply computes_first_visible.
Qed.

Lemma sel_of_eq c :
  sel_of c =
    (if (choice_of c =? 2)%Z then
       match user_selection u !! c with
       | Some s => if visible s then Some s else default_selection_of c
       | None => default_selection_of c
       end
     else None).
Proof using Hu HK.
  destruct (prop_of_post (QSel c) (λ v, v = VSel
    (if (choice_of c =? 2)%Z then
       match user_selection u !! c with
       | Some s => if visible s then Some s else default_selection_of c
       | None => default_selection_of c
       end
     else None))) as (v & Hv & ->); [done| |].
  - cbn [body]. eapply computes_bind; [|done]. unfold sel_body.
    eapply computes_bind; [apply computes_choice_tri|].
    destruct (choice_of c =? 2)%Z; [|done].
    destruct (user_selection u !! c) as [s|]; [|apply computes_defaults_selection].
    eapply computes_bind; [by apply post_get_vis|]. unfold visible.
    destruct (vis_of (ISym s) =? 0)%Z; cbn [negb]; [apply computes_defaults_selection|done].
  - unfold sel_of. by rewrite Hv.
Qed.

(** ** Values of int, hex and string symbols *)

Definition range_of (base : Z) (s : nat) : option (Z * Z) :=
  match active (s_ranges (sym K s)) with
  | Some ((low, high), _) => Some (num_or_0 base (str_of low), num_or_0 base (str_of high))
  | None => None
  end.

(** The text of a default; the value of a choice is that of its mode. *)
Definition default_text_of (e : expr) : string :=
  match e with
  | ESym s => str_of s
  | EItem (ICho c) => default "" (TRI_TO_STR (choice_of c))
  | _ => ""
  end.

Definition string_default_of (s : nat) : string :=
  match active (s_defaults (sym K s)) with Some (d, _) => default_text_of d | None => "" end.

(** A default outside the active range is replaced by the bound it exceeds. *)
Definition num_default_of (base : Z) (s : nat) (range : option (Z * Z)) : string :=
  let val := string_default_of s in
  match clamp range (num_or_0 base val) with
  | Some v => if decide (s_orig_type (sym K s) = INT) then py_str v else py_hex v
  | None => val
  end.

(** A visible symbol takes a nonempty user value that is in range. *)
Definition num_value_of (base : Z) (s : nat) : string :=
  let range := range_of base s in
  match user_value u !! s with
  | Some (UStr t) =>
      if negb (vis_of (ISym s) =? 0)%Z && negb (bool_decide (t = ""))
         && negb (out_of_range range (num_or_0 base t))
      then t else num_default_of base s range
  | _ => num_default_of base s range
  end.

Definition string_value_of (s : nat) : string :=
  match user_value u !! s with
  | Some (UStr t) => if (vis_of (ISym s) =? 0)%Z then string_default_of s else t
  | _ => string_default_of s
  end.

Lemma computes_range base s : computes (active_range K u base s) (range_of base s).
Proof using Hu HK.
  unfold active_range, range_of. eapply computes_bind; [apply computes_active|].
  destruct (active (s_ranges (sym K s))) as [[[low high] z]|]; [|done].
  eapply computes_bind; [by apply post_get_str|]. by eapply computes_bind; [by apply post_get_str|].
Qed.

Lemma post_tri_to_str v (Φ : string → Prop) :
  is_tri v → Φ (default "" (TRI_TO_STR v)) → Post Φ (tri_to_str v).
Proof using Type.
  intros [t Ht]%tri_str_ok. unfold tri_to_str. by rewrite Ht.
Qed.

Lemma computes_default_text e :
  is_item e = true → computes (default_str K u e) (default_text_of e).
Proof using Hu HK.
  destruct e as [[s|c]| | | |]; try done; intros _; cbn [default_str default_text_of].
  - by apply post_get_str.
  - eapply computes_bind; [apply computes_choice_tri|]. by apply post_tri_to_str; [apply choice_of_tri|].
Qed.

(** The loader rejects other defaults of int, hex and string symbols. *)
Lemma defaults_item s d z :
  BOOL_TRISTATE_UNKNOWN (s_orig_type (sym K s)) = false →
  active (s_defaults (sym K s)) = Some (d, z) → is_item d = true.
Proof using HK.
  intros Hb (cond & l1 & l2 & Hl & _)%active_spec.
  destruct (ld_wf (K := K) (fuel := fuel)) as [Hwf _].
  apply (safe_symbol_default K s (Hwf s) Hb).
  rewrite Hl, fmap_app. apply elem_of_app. right. by left.
Qed.

Lemma computes_string_defaults s :
  BOOL_TRISTATE_UNKNOWN (s_orig_type (sym K s)) = false →
  computes (string_defaults K u s) (string_default_of s).
Proof using Hu HK.
  intros Hb. unfold string_defaults, string_default_of.
  eapply computes_bind; [apply computes_active|].
  destruct (active (s_defaults (sym K s))) as [[d z]|] eqn:Ha; [|done].
  eapply computes_bind; [|by apply post_SetW].
  eapply computes_default_text, defaults_item; eassumption.
Qed.

Lemma num_or_0_empty base : num_or_0 base "" = 0%Z.
Proof using Type.
  unfold num_or_0. rewrite py_int_body by done. unfold int_body, int_prefix. cbn.
  by destruct (base =? 0)%Z.
Qed.

Lemma computes_num_defaults base s :
  BOOL_TRISTATE_UNKNOWN (s_orig_type (sym K s)) = false →
  computes (num_defaults K u base s (range_of base s)) (num_default_of base s (range_of base s)).
Proof using Hu HK.
  intros Hb. unfold num_defaults, num_default_of, string_default_of.
  eapply computes_bind; [apply computes_active|].
  assert (∀ (has : bool) (txt : string), Post (λ b, b =
      match clamp (range_of base s) (num_or_0 base txt) with
      | Some v => if decide (s_orig_type (sym K s) = INT) then py_str v else py_hex v
      | None => txt end)
    (match clamp (range_of base s) (num_or_0 base txt) with
     | None => Ret txt
     | Some v =>
         let new := if decide (s_orig_type (sym K s) = INT) then py_str v else py_hex v in
         if (has : bool) then
           Warn (Ret ("default value " +:+ py_str (num_or_0 base txt) +:+ " on "
                        +:+ name_and_loc K (ISym s) +:+ " clamped to " +:+ num2str base v
                        +:+ " due to being outside the active range ("
                        +:+ range_str base (range_of base s) +:+ ")"))
             (Ret new)
         else Ret new
     end : prog item query val string)) as Hclamp.
  { intros has txt. destruct (clamp _ _); [|done]. by destruct has. }
  destruct (active (s_defaults (sym K s))) as [[d z]|] eqn:Ha.
  - eapply (computes_bind _ (true, default_text_of d, num_or_0 base (default_text_of d)));
      [|apply (Hclamp true)].
    apply post_SetW. eapply computes_bind; [|done].
    eapply computes_default_text, defaults_item; eassumption.
  - cbn [prog_bind]. rewrite <- (num_or_0_empty base). apply (Hclamp false "").
Qed.

Lemma computes_num base s :
  TYPE_TO_BASE (s_orig_type (sym K s)) = Some base →
  INT_HEX (s_orig_type (sym K s)) = true →
  computes (num_value K u base s (vis_of (ISym s))) (num_value_of base s).
Proof using Hu HK.
  intros Hbase Hih.
  assert (BOOL_TRISTATE_UNKNOWN (s_orig_type (sym K s)) = false) as Hb
    by (by destruct (s_orig_type (sym K s))).
  unfold num_value, num_value_of. eapply computes_bind; [apply computes_range|].
  destruct (user_value u !! s) as [v|] eqn:Hv; [|by apply computes_num_defaults].
  pose proof (uok_sym _ _ Hu _ _ Hv) as Hok.
  assert (∃ t n, v = UStr t ∧ py_int base t = Some n) as (t & n & -> & Hn).
  { unfold uval_ok in Hok. destruct (s_orig_type (sym K s)), v; try done; cbn in Hbase; simplify_eq.
    - destruct Hok as [n Hn]. by exists s0, n.
    - destruct Hok as (n & Hn & _). by exists s0, n. }
  assert (num_or_0 base t = n) as Hnum by (unfold num_or_0; by rewrite Hn).
  cbn [truthy]. rewrite Hnum, negb_involutive.
  destruct (vis_of (ISym s) =? 0)%Z; cbn [negb orb andb]; [by apply computes_num_defaults|].
  destruct (bool_decide (t = "")); cbn [negb andb]; [by apply computes_num_defaults|].
  rewrite Hn. destruct (out_of_range (range_of base s) n); cbn [negb]; [|done].
  apply post_Warn. by apply computes_num_defaults.
Qed.

Lemma computes_string s :
  s_orig_type (sym K s) = STRING →
  computes (string_value K u s (vis_of (ISym s))) (string_value_of s).
Proof using Hu HK.
  intros Ht. assert (BOOL_TRISTATE_UNKNOWN (s_orig_type (sym K s)) = false) as Hb by (by rewrite Ht).
  unfold string_value, string_value_of.
  destruct (user_value u !! s) as [v|] eqn:Hv; [|by apply computes_string_defaults].
  pose proof (uok_sym _ _ Hu _ _ Hv) as Hok. rewrite Ht in Hok. destruct v as [|t]; [done|].
  destruct (vis_of (ISym s) =? 0)%Z; [by apply computes_string_defaults|done].
Qed.

(** [Symbol.str_value], by type. *)
Lemma str_of_eq s :
  str_of s =
    match s_orig_type (sym K s) with
    | BOOL | TRISTATE => tri_str (tri_of s)
    | UNKNOWN => s_name (sym K s)
    | INT => num_value_of 10 s
    | HEX => num_value_of 16 s
    | STRING => string_value_of s
    end.
Proof using Hu HK.
  set (r := match s_orig_type (sym K s) with BOOL | TRISTATE => _ | _ => _ end).
  destruct (prop_of_post (QStr s) (λ v, v = VStr r)) as (v & Hv & ->); [done| |].
  2: { unfold str_of. by rewrite Hv. }
  cbn [body]. eapply (computes_bind _ r); [|done]. unfold str_body, r.
  destruct (BOOL_TRISTATE (s_orig_type (sym K s))) eqn:Hb.
  - eapply (computes_bind _ (tri_of s)); [by apply post_get_tri|].
    apply post_tri_to_str; [apply tri_of_tri|].
    pose proof (tri_of_tri s) as Ht. apply is_tri_cases in Ht.
    assert (default "" (TRI_TO_STR (tri_of s)) = tri_str (tri_of s)) as ->
      by (by destruct Ht as [->|[->| ->]]).
    by destruct (s_orig_type (sym K s)).
  - case_decide as Hunk; [by rewrite Hunk|].
    eapply computes_bind; [by apply post_get_vis|]. apply post_SetW.
    eapply (computes_bind _ r); [|by destruct (bool_decide (is_Some (s_env_var _)) || _); [apply post_SetW|]].
    unfold r. destruct (s_orig_type (sym K s)) eqn:Ht; rewrite ?Ht in Hb; try done.
    + by apply computes_string.
    + by apply computes_num; rewrite ?Ht.
    + by apply computes_num; rewrite ?Ht.
Qed.

(** ** Assignable values *)

Definition no_m_of (s : nat) : bool :=
  bool_decide (type_of s = BOOL) || (ev (s_weak_rev_dep (sym K s)) =? 2)%Z.

Definition assignable_of (s : nat) : list Z :=
  if BOOL_TRISTATE (s_orig_type (sym K s)) then
    match vis_of (ISym s) with
    | 0 => []
    | 1 =>
        match ev (s_rev_dep (sym K s)) with
        | 0 => if (ev (s_weak_rev_dep (sym K s)) =? 2) then [0; 2] else [0; 1]
        | 1 => [1]
        | _ => [2]
        end
    | _ =>
        if s_choice (sym K s) is Some _ then [2]
        else
          match ev (s_rev_dep (sym K s)) with
          | 0 => if no_m_of s then [0; 2] else [0; 1; 2]
          | 1 => if no_m_of s then [2] else [1; 2]
          | _ => [2]
          end
    end%Z
  else [].

Lemma computes_no_m s : computes (no_m K u s) (no_m_of s).
Proof using Hu HK.
  unfold no_m, no_m_of. eapply computes_bind; [apply computes_symbol_type|].
  destruct (decide (type_of s = BOOL)); [by rewrite bool_decide_true|].
  rewrite bool_decide_false by done. by eapply computes_bind; [apply computes_expr|].
Qed.

Lemma asg_of_eq s : asg_of (ISym s) = assignable_of s.
Proof using Hu HK.
  destruct (prop_of_post (QAsg (ISym s)) (λ v, v = VAsg (assignable_of s))) as (v & Hv & ->); [done| |].
  2: { unfold asg_of. by rewrite Hv. }
  cbn [body assignable]. eapply (computes_bind _ (assignable_of s)); [|done].
  unfold symbol_assignable, assignable_of.
  destruct (BOOL_TRISTATE (s_orig_type (sym K s))); [|done].
  eapply computes_bind; [by apply post_get_vis|].
  pose proof (vis_of_tri (ISym s)) as Hv. apply is_tri_cases in Hv.
  pose proof (ev_tri (s_rev_dep (sym K s))) as Hr. apply is_tri_cases in Hr.
  destruct Hv as [->|[->| ->]]; cbn [Z.eqb]; [done|..];
    (eapply computes_bind; [apply computes_expr|]).
  - destruct Hr as [->|[->| ->]]; cbn; [|done..]. by eapply computes_bind; [apply computes_expr|].
  - destruct (s_choice (sym K s)); [done|].
    destruct Hr as [->|[->| ->]]; cbn; [..|done]; by eapply computes_bind; [apply computes_no_m|].
Qed.

(** The modes that can be given to a choice. *)
Definition choice_assignable_of (c : nat) : list Z :=
  let low := if c_is_optional (cho K c) then [0]%Z else [] in
  match vis_of (ICho c) with
  | 0 => []
  | 1 => low ++ [1]
  | _ => low ++ (if bool_decide (mod_type (c_orig_type (cho K c)) = BOOL) then [2] else [1; 2])
  end%Z.

Lemma asg_of_choice_eq c : asg_of (ICho c) = choice_assignable_of c.
Proof using Hu HK.
  destruct (prop_of_post (QAsg (ICho c)) (λ v, v = VAsg (choice_assignable_of c))) as (v & Hv & ->); [done| |].
  2: { unfold asg_of. by rewrite Hv. }
  cbn [body assignable]. eapply (computes_bind _ (choice_assignable_of c)); [|done].
  unfold choice_assignable, choice_assignable_of, computes. eapply computes_bind; [by apply post_get_vis|].
  pose proof (vis_of_tri (ICho c)) as Hv. apply is_tri_cases in Hv.
  destruct Hv as [->|[->| ->]]; cbn [Z.eqb]; [done|by destruct (c_is_optional _)|].
  eapply computes_bind; [apply computes_choice_type|]. cbv zeta.
  by destruct (c_is_optional _), (bool_decide _).
Qed.
End Meaning.

Section Choices.
Context {K : kconfig} {fuel : nat} {HK : Loaded K fuel}.

Abbreviation tri_in u s := (tri_of (K := K) (fuel := fuel) u s).
Abbreviation vis_in u i := (vis_of (K := K) (fuel := fuel) u i).
Abbreviation sel_in u c := (sel_of (K := K) (fuel := fuel) u c).
Abbreviation mode_in u c := (choice_of (K := K) (fuel := fuel) u c).
Abbreviation type_in u s := (type_of (K := K) (fuel := fuel) u s).

(** ** Choice symbols *)

(** m is no visibility of a choice symbol in a choice that is y. *)
Lemma choice_symbol_not_m u s c :
  uok K u → s_choice (sym K s) = Some c → mode_in u c = 2%Z → vis_in u (ISym s) ≠ 1%Z.
Proof using HK.
  intros Hu Hc Hm. rewrite (vis_of_sym u Hu s). cbv zeta. unfold hidden_of. rewrite Hc, Hm.
  unfold promote, type_of. rewrite Hc, Hm, !Z.eqb_refl, andb_true_r.
  destruct (bool_decide (s_orig_type (sym K s) = TRISTATE)) eqn:Ht; cbn [andb negb].
  - destruct (max_of u (prompt_conds K (ISym s)) =? 1)%Z eqn:Hv; [done|]. cbn [andb].
    by apply Z.eqb_neq in Hv.
  - rewrite andb_false_r.
    destruct (max_of u (prompt_conds K (ISym s)) =? 1)%Z eqn:Hv; cbn [andb].
    + rewrite bool_decide_false; [done|]. apply bool_decide_eq_false in Ht.
      unfold mod_type. by rewrite decide_False.
    + by apply Z.eqb_neq in Hv.
Qed.

Lemma vis_m_tristate u s : uok K u → vis_in u (ISym s) = 1%Z → type_in u s = TRISTATE.
Proof using HK.
  intros Hu. rewrite (vis_of_sym u Hu s). cbv zeta. destruct (hidden_of _ _ _); [done|].
  unfold promote. set (v := max_of _ _). destruct (v =? 1)%Z eqn:Hv; cbn [andb].
  - destruct (bool_decide (type_of u s = TRISTATE)) eqn:Ht; cbn [negb]; [|done].
    intros _. by apply bool_decide_eq_true in Ht.
  - intros ->. done.
Qed.

(** The selection of a choice is y, every other symbol of the choice is n. *)
Lemma choice_symbol_value u s c :
  uok K u → s_choice (sym K s) = Some c → preset K (QTri s) = None →
  BOOL_TRISTATE (s_orig_type (sym K s)) = true → mode_in u c = 2%Z →
  tri_in u s = if decide (sel_in u c = Some s ∧ vis_in u (ISym s) ≠ 0%Z) then 2%Z else 0%Z.
Proof using HK.
  intros Hu Hc Hp Hb Hm. rewrite (tri_of_eq u Hu s Hp Hb), Hc. unfold choice_symbol_of.
  pose proof (choice_symbol_not_m u s c Hu Hc Hm) as Hn1.
  pose proof (vis_of_tri u Hu (ISym s)) as Hv. apply is_tri_cases in Hv.
  destruct Hv as [Hv|[Hv|Hv]]; rewrite Hv in *; [|done|]; cbn [Z.eqb negb andb].
  - rewrite decide_False; [done|]. by intros [_ ?].
  - destruct (decide (sel_in u c = Some s)); [by rewrite decide_True|].
    rewrite decide_False; [done|]. by intros [? _].
Qed.

Lemma selected_visible u c s : uok K u → sel_in u c = Some s →
  mode_in u c = 2%Z ∧ vis_in u (ISym s) ≠ 0%Z.
Proof using HK.
  intros Hu. rewrite (sel_of_eq u Hu c). destruct (mode_in u c =? 2)%Z eqn:Hm; [|done].
  apply Z.eqb_eq in Hm. intros Hs. split; [done|].
  assert (visible (K := K) (fuel := fuel) u s = true) as Hvis.
  { assert (∀ o, o = Some s → o = default_selection_of (K := K) (fuel := fuel) u c → visible (K := K) (fuel := fuel) u s = true) as Hdef.
    { intros o -> Hd. unfold default_selection_of in Hd.
      destruct (first_such (default_selects u) (c_defaults (cho K c))) as [[d cond]|] eqn:Hf.
      - apply first_such_spec in Hf as (_ & _ & _ & Hf & _). unfold default_selects in Hf.
        apply andb_true_iff in Hf as [_ Hf]. cbn in Hf. destruct d as [[t|]| | | |]; try done.
        by injection Hd as ->.
      - symmetry in Hd. by apply first_such_spec in Hd as (_ & _ & _ & ? & _). }
    destruct (user_selection u !! c) as [t|]; [|by eapply Hdef].
    destruct (visible u t) eqn:Hv; [by injection Hs as ->|by eapply Hdef]. }
  unfold visible in Hvis. by apply negb_true_iff, Z.eqb_neq in Hvis.
Qed.

(** A symbol whose type is bool is never m. *)
Lemma tri_of_bool u s :
  uok K u → preset K (QTri s) = None → type_in u s = BOOL → tri_in u s ≠ 1%Z.
Proof using HK.
  intros Hu Hp Ht. destruct (BOOL_TRISTATE (s_orig_type (sym K s))) eqn:Hb;
    [|by rewrite (tri_of_other _ Hu)].
  rewrite (tri_of_eq _ Hu s Hp Hb). destruct (s_choice (sym K s)) as [c|].
  - unfold choice_symbol_of. pose proof (vis_of_tri _ Hu (ISym s)) as Hv. apply is_tri_cases in Hv.
    destruct Hv as [Hv|[Hv|Hv]]; rewrite ?Hv; cbn [Z.eqb negb andb]; [done| |by case_decide].
    apply (vis_m_tristate _ _ Hu) in Hv. congruence.
  - unfold raise_of. rewrite bool_decide_true by done. cbn [orb]. rewrite andb_true_r.
    destruct (_ =? 1)%Z eqn:H1; [done|]. by apply Z.eqb_neq in H1.
Qed.

(** An expression is at most each of its conjuncts. *)
Lemma conjunct_le u e x :
  x ∈ split_expr e OpAnd → (ev (K := K) (fuel := fuel) u e ≤ ev (K := K) (fuel := fuel) u x)%Z.
Proof.
  unfold ev. induction e as [i|e1 IH1 e2 IH2|e1 IH1 e2 IH2|e IH|r s1 s2]; cbn [split_expr value].
  2: { rewrite elem_of_app. intros [Hx%IH1|Hx%IH2]; lia. }
  all: intros Hx%list_elem_of_singleton; subst x; cbn [value]; lia.
Qed.
End Choices.
