(* ===== verification/Effects.v ===== *)
(** * What a change of user values can affect

    The dependencies between properties are acyclic, so setting the user value of
    a symbol leaves alone every property below the symbol's own value.  With the
    rules of Meaning.v this gives the effect of [set_value]. *)

From S2P Require Import Prelude PyStr Kconst Expr Incr Objects Values Reads Session.
From S2P Require Import Meaning.
From stdpp Require Import options.

(** ** Equal properties give equal values *)
Section Congruence.
Context {K : kconfig} {fuel : nat} {HK : Loaded K fuel}.
Variables u u' : ustate.

Abbreviation prop_at w := (prop_of (K := K) (fuel := fuel) w).
Abbreviation cho_at w := (choice_of (K := K) (fuel := fuel) w).
Abbreviation evl w := (ev (K := K) (fuel := fuel) w).

(** Properties that are equal under [u] and [u'], and choices whose modes are
    equal as far as they depend on such properties. *)
Variable L : query → Prop.
Hypothesis Hsame : ∀ q, L q → prop_at u q = prop_at u' q.
Hypothesis Hmode : ∀ c, Forall L (item_reads K (ICho c)) → cho_at u c = cho_at u' c.

Lemma tri_eq s : L (QTri s) → tri_of (K := K) (fuel := fuel) u s = tri_of (K := K) (fuel := fuel) u' s.
Proof using Hsame. intros Hq. unfold tri_of. by rewrite Hsame. Qed.
Lemma str_eq s : L (QStr s) → str_of (K := K) (fuel := fuel) u s = str_of (K := K) (fuel := fuel) u' s.
Proof using Hsame. intros Hq. unfold str_of. by rewrite Hsame. Qed.
Lemma vis_eq i : L (QVis i) → vis_of (K := K) (fuel := fuel) u i = vis_of (K := K) (fuel := fuel) u' i.
Proof using Hsame. intros Hq. unfold vis_of. by rewrite Hsame. Qed.
Lemma sel_eq c : L (QSel c) → sel_of (K := K) (fuel := fuel) u c = sel_of (K := K) (fuel := fuel) u' c.
Proof using Hsame. intros Hq. unfold sel_of. by rewrite Hsame. Qed.

Lemma mod_type_eq t : Forall L (if decide (t = TRISTATE) then [QTri (k_modules K)] else []) →
  mod_type (K := K) (fuel := fuel) u t = mod_type (K := K) (fuel := fuel) u' t.
Proof using Hsame.
  intros Ht. unfold mod_type. case_decide as Hd; [|done].
  apply Forall_cons in Ht as [Hq _]. by rewrite tri_eq.
Qed.

Lemma num_eq s : (if BOOL_TRISTATE (s_orig_type (sym K s)) then L (QTri s) else L (QStr s)) →
  num_of (K := K) (fuel := fuel) u s = num_of (K := K) (fuel := fuel) u' s.
Proof using Hsame.
  unfold num_of. destruct (BOOL_TRISTATE _); intros Hq; [by rewrite tri_eq|by rewrite str_eq].
Qed.

Lemma item_eq i : Forall L (item_reads K i) →
  item_of (K := K) (fuel := fuel) u i = item_of (K := K) (fuel := fuel) u' i.
Proof using Hsame Hmode.
  destruct i as [s|c]; cbn [item_of]; [|apply Hmode]. intros [Hq _]%Forall_cons. by apply tri_eq.
Qed.

Lemma ev_eq e : Forall L (expr_reads K e) → evl u e = evl u' e.
Proof using Hsame Hmode.
  unfold ev. induction e as [i|e1 IH1 e2 IH2|e1 IH1 e2 IH2|e IH|r s1 s2]; cbn [expr_reads value].
  - apply item_eq.
  - intros [H1 H2]%Forall_app. by rewrite IH1, IH2.
  - intros [H1 H2]%Forall_app. by rewrite IH1, IH2.
  - intros Hq. by rewrite IH.
  - intros Hq. repeat match goal with H : Forall _ (_ :: _) |- _ => apply Forall_cons in H as [? H] end.
    unfold rel_of. rewrite !(str_eq s1), !(str_eq s2) by done.
    rewrite (num_eq s1), (num_eq s2); [done|by case_match..].
Qed.
End Congruence.

Section Effects.
Context {K : kconfig} {fuel : nat} {HK : Loaded K fuel}.
Variables u u' : ustate.
Hypothesis Hu : uok K u.
Hypothesis Hu' : uok K u'.

Abbreviation prop_at w := (prop_of (K := K) (fuel := fuel) w).
Abbreviation Evals w := (evals (preset K) (body K) w).

(** A set of properties, closed under reading, that do not look at the user
    values and selections that differ. *)
Variable L : query → Prop.
Hypothesis HL : ∀ q q', L q → preset K q = None → q' ∈ static_reads K q → L q'.
Hypothesis Hcho : choice_user_value u = choice_user_value u'.
Hypothesis Hlook : ∀ q i,
  L q → looks_at K q = Some i →
  match i with
  | ISym s => user_value u !! s = user_value u' !! s
              ∨ vis_of (K := K) (fuel := fuel) u (ISym s) = 0%Z
  | ICho c => user_selection u !! c = user_selection u' !! c
  end.

Lemma unaffected_evals q v : L q → Evals u q v → Evals u' q v.
Proof using Hu HK HL Hcho Hlook.
  remember (ld_rank (fuel := fuel) q) as n eqn:Hn. revert q v Hn.
  induction n as [n IH] using lt_wf_ind. intros q v -> Hq Hv.
  destruct (preset K q) as [w|] eqn:Hp.
  { pose proof (evals_const _ (body K) u q w Hp) as Hw.
    rewrite (evals_fun _ _ _ _ _ _ Hv Hw). by apply evals_const. }
  destruct (evals_inv _ _ _ _ _ Hv Hp) as (rs & es & Hr).
  assert (Forall (λ q', q' ∈ static_reads K q) rs) as Hall.
  { eapply (safe_reads _ (λ q', q' ∈ warn_reads K q) (answer_ok K));
      [|apply safe_body|exact Hr]; [|apply ld_wf|done|by apply Forall_forall..].
    intros q1 v1. by apply evals_ok. }
  rewrite Forall_forall in Hall.
  eapply evals_step; [done|]. eapply runs_mono; [|].
  { eapply sim_runs; [|exact Hr].
    eapply (body_sim K (Evals u) u u' (λ i, looks_at K q = Some i)); [|done].
    split; [|intros c; left; by rewrite Hcho|].
    - intros x Hx. destruct (Hlook q _ Hq Hx) as [?|H0]; [by left|right].
      intros w Hw. pose proof (evals_ok u (QVis (ISym x)) w Hu Hw) as Hok.
      destruct w as [z| | |]; try done. apply (evals_vis u Hu) in Hw. by rewrite Hw, H0.
    - intros x Hx. left. exact (Hlook q _ Hq Hx). }
  intros q' v' Hin Hq'. specialize (Hall q' Hin).
  eapply IH; [|reflexivity|by eapply HL|exact Hq'].
  apply ld_rank_reads; [done|]. apply elem_of_app. by left.
Qed.

Lemma unaffected q : L q → prop_at u q = prop_at u' q.
Proof using Hu Hu' HK HL Hcho Hlook.
  intros Hq. destruct (prop_of_total u Hu q) as (v & Hv & _). rewrite Hv. symmetry.
  apply (evals_prop_of u' Hu'), unaffected_evals; [done|]. by apply (evals_prop_of u Hu).
Qed.

Abbreviation tri w := (tri_of (K := K) (fuel := fuel) w).
Abbreviation cho_at w := (choice_of (K := K) (fuel := fuel) w).
Abbreviation evl w := (ev (K := K) (fuel := fuel) w).

Lemma choice_same c : Forall L (item_reads K (ICho c)) → cho_at u c = cho_at u' c.
Proof using Hu Hu' HK HL Hcho Hlook.
  intros [Hv Ht]%Forall_cons. unfold choice_of.
  by rewrite Hcho, (vis_eq u u' L unaffected), (mod_type_eq u u' L unaffected).
Qed.

Lemma vis_same i : L (QVis i) → vis_of (K := K) (fuel := fuel) u i = vis_of (K := K) (fuel := fuel) u' i.
Proof using Hu Hu' HK HL Hcho Hlook. apply vis_eq, unaffected. Qed.

Lemma ev_same e : Forall L (expr_reads K e) → evl u e = evl u' e.
Proof using Hu Hu' HK HL Hcho Hlook. apply ev_eq; [apply unaffected|apply choice_same]. Qed.
End Effects.

(** ** Reading a session *)
Section Reading.
Context {K : kconfig} {fuel : nat} {HK : Loaded K fuel}.
Implicit Types σ : session.

(** [σ] answers [v] when property [q] is read. *)
Definition reads σ (q : query) (v : val) : Prop := ∃ σ', get_prop K fuel q σ = Ok (v, σ').

Lemma get_prop_spec σ q :
  session_ok (K := K) σ →
  ∃ v σ', get_prop K fuel q σ = Ok (v, σ') ∧ prop_of (K := K) (fuel := fuel) (uvals σ) q = Ok v ∧
    session_ok (K := K) σ' ∧ uvals σ' = uvals σ.
Proof using HK.
  intros [Hu Hc]. destruct (eval_ok (uvals σ) q (vals σ) Hu Hc) as (v & st & He & Hv & Hc').
  exists v, (set_vals (λ _, st) σ). unfold get_prop. rewrite He. split_and!; [done| |by split|done].
  by apply (evals_prop_of _ Hu).
Qed.

Lemma reads_prop_of σ q v :
  session_ok (K := K) σ → reads σ q v ↔ prop_of (K := K) (fuel := fuel) (uvals σ) q = Ok v.
Proof using HK.
  intros Hσ. destruct (get_prop_spec σ q Hσ) as (w & σ' & Hg & Hw & _). unfold reads. rewrite Hg, Hw.
  split; [intros [? [= ->]]; done|intros [= ->]; eauto].
Qed.

Lemma reads_tri σ s z :
  session_ok (K := K) σ → reads σ (QTri s) (VTri z) ↔ z = tri_of (K := K) (fuel := fuel) (uvals σ) s.
Proof using HK.
  intros Hσ. rewrite reads_prop_of by done. destruct Hσ as [Hu _].
  destruct (prop_of_total (uvals σ) Hu (QTri s)) as (v & Hv & Hok). unfold tri_of. rewrite Hv.
  destruct v; try done. naive_solver.
Qed.

Lemma reads_str σ s t :
  session_ok (K := K) σ → reads σ (QStr s) (VStr t) ↔ t = str_of (K := K) (fuel := fuel) (uvals σ) s.
Proof using HK.
  intros Hσ. rewrite reads_prop_of by done. destruct Hσ as [Hu _].
  destruct (prop_of_total (uvals σ) Hu (QStr s)) as (v & Hv & Hok). unfold str_of. rewrite Hv.
  destruct v; try done. naive_solver.
Qed.

Lemma reads_vis σ i z :
  session_ok (K := K) σ → reads σ (QVis i) (VTri z) ↔ z = vis_of (K := K) (fuel := fuel) (uvals σ) i.
Proof using HK.
  intros Hσ. rewrite reads_prop_of by done. destruct Hσ as [Hu _].
  destruct (prop_of_total (uvals σ) Hu (QVis i)) as (v & Hv & Hok). unfold vis_of. rewrite Hv.
  destruct v; try done. naive_solver.
Qed.

Lemma reads_sel σ c o :
  session_ok (K := K) σ → reads σ (QSel c) (VSel o) ↔ o = sel_of (K := K) (fuel := fuel) (uvals σ) c.
Proof using HK.
  intros Hσ. rewrite reads_prop_of by done. destruct Hσ as [Hu _].
  destruct (prop_of_total (uvals σ) Hu (QSel c)) as (v & Hv & Hok). unfold sel_of. rewrite Hv.
  destruct v; try done. naive_solver.
Qed.

Lemma reads_asg σ i l :
  session_ok (K := K) σ → reads σ (QAsg i) (VAsg l) ↔ l = asg_of (K := K) (fuel := fuel) (uvals σ) i.
Proof using HK.
  intros Hσ. rewrite reads_prop_of by done. destruct Hσ as [Hu _].
  destruct (prop_of_total (uvals σ) Hu (QAsg i)) as (v & Hv & Hok). unfold asg_of. rewrite Hv.
  destruct v; try done. naive_solver.
Qed.

(** Client code that only reads gives the value it computes from scratch. *)
Lemma run_code_spec {A} (p : ustate → code A) a Φ σ :
  session_ok (K := K) σ →
  safe (λ q, ld_rank q < fuel) (λ q, ld_rank q < fuel) (answer_ok K) Φ (p (uvals σ)) →
  writes_only (λ _, False) (p (uvals σ)) →
  computes (K := K) (uvals σ) (p (uvals σ)) a →
  ∃ σ', run_code K fuel p σ = Ok (a, σ') ∧ session_ok (K := K) σ' ∧ uvals σ' = uvals σ.
Proof using HK.
  intros [Hu Hc] Hs Hw Hp.
  destruct (exec_client (writer K) (preset K) (body K) ld_rank (answer_ok K) preset_typed (uok K)
    body_safe (body_writes K) (uvals σ) fuel (p (uvals σ)) Φ (vals σ) Hu Hc Hs Hw)
    as (b & st & He & _ & Hc' & (rs & es & Hr) & _).
  assert (b = a) as -> by (by apply (post_runs _ (λ b, b = a) _ _ _ _ Hp Hr)).
  exists (set_vals (λ _, st) σ). unfold run_code. rewrite He. split_and!; [done|by split|done].
Qed.

Lemma rank_all (l : list query) : Forall (λ q, ld_rank q < fuel) l.
Proof using Type. apply Forall_forall. intros q _. apply ld_rank_fuel. Qed.

(** [expr_value] and [Symbol.type]. *)
Lemma run_expr σ e :
  session_ok (K := K) σ →
  ∃ σ', run_code K fuel (λ u, expr_value K u e) σ = Ok (ev (K := K) (fuel := fuel) (uvals σ) e, σ') ∧
    session_ok (K := K) σ' ∧ uvals σ' = uvals σ.
Proof using HK.
  intros Hσ. eapply run_code_spec; [done| |apply writes_expr_value|].
  - destruct Hσ. by apply safe_expr_value, rank_all.
  - destruct Hσ. by apply computes_expr.
Qed.

Lemma run_type σ s :
  session_ok (K := K) σ →
  ∃ σ', run_code K fuel (λ u, symbol_type K u s) σ
      = Ok (type_of (K := K) (fuel := fuel) (uvals σ) s, σ') ∧
    session_ok (K := K) σ' ∧ uvals σ' = uvals σ.
Proof using HK.
  intros Hσ. eapply run_code_spec; [done| |apply writes_symbol_type|].
  - destruct Hσ. by apply safe_symbol_type, rank_all.
  - destruct Hσ. by apply computes_symbol_type.
Qed.
End Reading.

(** ** What a property can read *)
Section Below.
Context {K : kconfig} {fuel : nat} {HK : Loaded K fuel}.

(** The properties of lower rank than another. *)
Definition below (q : query) (q' : query) : Prop := ld_rank (fuel := fuel) q' < ld_rank (fuel := fuel) q.

Lemma below_closed q q1 q2 :
  below q q1 → preset K q1 = None → q2 ∈ static_reads K q1 → below q q2.
Proof using Type.
  unfold below. intros H1 Hp H2.
  assert (ld_rank (fuel := fuel) q2 < ld_rank (fuel := fuel) q1); [|lia].
  apply ld_rank_reads; [done|]. apply elem_of_app. by left.
Qed.

Lemma reads_below q q' : preset K q = None → q' ∈ static_reads K q → below q q'.
Proof using Type. intros Hp Hq. apply ld_rank_reads; [done|]. apply elem_of_app. by left. Qed.

Lemma str_above_tri s :
  BOOL_TRISTATE (s_orig_type (sym K s)) = true → below (QStr s) (QTri s).
Proof using Type. intros Hb. apply reads_below; [done|]. cbn. rewrite Hb. by left. Qed.

End Below.
