(* ===== verification/Reload.v ===== *)
(** * User values that restate the configuration

    When the user values are replaced by the values that the symbols have -- as
    happens when a saved configuration is loaded again -- every property keeps its
    value.  [restates] says what such user values look like. *)

From S2P Require Import Prelude PyStr Kconst Expr Incr Objects Values Reads Session.
From S2P Require Import Meaning Effects.
From stdpp Require Import options.

Lemma first_such_ext {A} (p q : A → bool) l :
  (∀ x, x ∈ l → p x = q x) → first_such p l = first_such q l.
Proof.
  induction l as [|x l IH]; intros H; [done|]. cbn. rewrite (H x) by by apply elem_of_cons; left.
  rewrite IH; [done|]. intros y Hy. apply H. by apply elem_of_cons; right.
Qed.

Lemma Forall_flat_map {A B} (P : B → Prop) (f : A → list B) l x :
  Forall P (flat_map f l) → x ∈ l → Forall P (f x).
Proof.
  intros H Hx. rewrite Forall_forall in H. apply Forall_forall. intros y Hy. apply H.
  apply list_elem_of_In, in_flat_map. exists x. by rewrite <- !list_elem_of_In.
Qed.

Section Reload.
Context {K : kconfig} {fuel : nat} {HK : Loaded K fuel}.

Abbreviation tri w := (tri_of (K := K) (fuel := fuel) w).
Abbreviation str w := (str_of (K := K) (fuel := fuel) w).
Abbreviation vis w := (vis_of (K := K) (fuel := fuel) w).
Abbreviation sel w := (sel_of (K := K) (fuel := fuel) w).
Abbreviation mode w := (choice_of (K := K) (fuel := fuel) w).
Abbreviation typ w := (mod_type (K := K) (fuel := fuel) w).
Abbreviation evl w := (ev (K := K) (fuel := fuel) w).

(** The mode of a choice with visibility [v] and type [t]. *)
Definition mode_with (c : nat) (o : option Z) (v : Z) (t : ktype) : Z :=
  let low := if c_is_optional (cho K c) then 0%Z else 1%Z in
  let val := Z.min (Z.max low (default 0%Z o)) v in
  if (val =? 1)%Z && bool_decide (t = BOOL) then 2%Z else val.

Lemma mode_with_eq w c :
  mode w c = mode_with c (choice_user_value w !! c) (vis w (ICho c)) (typ w (c_orig_type (cho K c))).
Proof. done. Qed.

(** Setting the mode that a choice has keeps it. *)
Lemma mode_with_own c o v t :
  is_tri v → is_tri (default 0%Z o) → mode_with c o v t ≠ 0%Z →
  mode_with c (Some (mode_with c o v t)) v t = mode_with c o v t.
Proof.
  intros Hv Ho. apply is_tri_cases in Hv. apply is_tri_cases in Ho. unfold mode_with.
  destruct (c_is_optional (cho K c)), (bool_decide (t = BOOL)) eqn:Ht;
    destruct Hv as [->|[->| ->]], Ho as [->|[->| ->]]; cbn; try done; by rewrite Ht.
Qed.

Lemma active_in {A} w (l : list (A * expr)) x z :
  active (K := K) (fuel := fuel) w l = Some (x, z) → ∃ cond, (x, cond) ∈ l.
Proof.
  intros (cond & l1 & l2 & -> & _)%active_spec. exists cond. apply elem_of_app. right.
  by apply elem_of_cons; left.
Qed.

(** Restating the value of a symbol: selects and promotion give it again. *)
Lemma raise_restated (r v own : Z) (b : bool) :
  is_tri r → is_tri v → is_tri own → (own ≤ v)%Z →
  let prom x := if (x =? 1)%Z && b then 2%Z else x in
  let z := prom (Z.max r own) in
  prom (Z.max r (Z.min z v)) = z.
Proof.
  intros Hr Hv Ho Hle. apply is_tri_cases in Hr, Hv, Ho. cbv zeta.
  destruct b, Hr as [->|[->| ->]], Hv as [->|[->| ->]], Ho as [->|[->| ->]]; cbn in *; done || lia.
Qed.

Section Same.
Variables u u' : ustate.
Hypothesis Hu : uok K u.
Hypothesis Hu' : uok K u'.

(** [u'] restates the values that [u] gives.  A default above the visibility of
    its symbol cannot be restated. *)
Record restates : Prop := {
  rs_tri s :
    BOOL_TRISTATE (s_orig_type (sym K s)) = true →
    user_value u' !! s = user_value u !! s ∨ vis u (ISym s) = 0%Z ∨
    (user_value u' !! s = Some (UTri (tri u s)) ∧
     (s_choice (sym K s) = None → is_Some (user_value u !! s) ∨
      (implied_of (K := K) (fuel := fuel) u s ≤ vis u (ISym s))%Z));
  rs_str s :
    BOOL_TRISTATE_UNKNOWN (s_orig_type (sym K s)) = false →
    user_value u' !! s = user_value u !! s ∨ vis u (ISym s) = 0%Z ∨
    user_value u' !! s = if valid_for (s_orig_type (sym K s)) (UStr (str u s))
                         then Some (UStr (str u s)) else None;
  rs_mode c :
    choice_user_value u' !! c = choice_user_value u !! c ∨
    (mode u c ≠ 0%Z ∧ choice_user_value u' !! c = Some (mode u c)) ∨
    mode_with c (choice_user_value u' !! c) (vis u (ICho c)) (typ u (c_orig_type (cho K c))) = mode u c;
  rs_sel c :
    mode u c = 2%Z →
    user_selection u' !! c = user_selection u !! c ∨
    (is_Some (user_selection u' !! c) ∧ user_selection u' !! c = sel u c) ∨
    (∀ s, user_selection u !! c = Some s ∨ user_selection u' !! c = Some s → vis u (ISym s) = 0%Z)
}.
Hypothesis Hre : restates.

(** The value of a property. *)
Definition answer_of (w : ustate) (q : query) : val :=
  match q with
  | QTri s => VTri (tri w s)
  | QStr s => VStr (str w s)
  | QVis i => VTri (vis w i)
  | QSel c => VSel (sel w c)
  | QAsg i => VAsg (asg_of (K := K) (fuel := fuel) w i)
  end.

Lemma prop_of_answer w q : uok K w → prop_of (K := K) (fuel := fuel) w q = Ok (answer_of w q).
Proof using HK.
  intros Hw. destruct (prop_of_total w Hw q) as (x & Hx & Hok).
  destruct q; cbn; unfold tri_of, str_of, vis_of, sel_of, asg_of; rewrite Hx; by destruct x.
Qed.

Section Step.
Variable q : query.
Hypothesis IH : ∀ q', q' ∈ static_reads K q → prop_of (K := K) (fuel := fuel) u q' = prop_of (K := K) (fuel := fuel) u' q'.

Definition below_q (q' : query) : Prop := q' ∈ static_reads K q.

Lemma mode_kept c : Forall below_q (item_reads K (ICho c)) → mode u c = mode u' c.
Proof using HK Hu Hu' Hre IH.
  intros [Hv Ht]%Forall_cons. rewrite (mode_with_eq u').
  rewrite <- (vis_eq u u' below_q IH), <- (mod_type_eq u u' below_q IH) by done.
  destruct (rs_mode Hre c) as [Hc|[[Hm Hc]|Hc]]; rewrite ?Hc; [by rewrite mode_with_eq| |done].
  rewrite (mode_with_eq u) in Hm |- *. symmetry. apply mode_with_own; [by apply vis_of_tri|by apply (choice_user_tri (K := K) u Hu)|done].
Qed.

Abbreviation Ev := (ev_eq u u' below_q IH mode_kept).

Lemma evs_kept l : Forall below_q (flat_map (expr_reads K) l) → ∀ e, e ∈ l → evl u e = evl u' e.
Proof using HK Hu Hu' Hre IH. intros H e He. apply Ev. by eapply Forall_flat_map. Qed.

Lemma max_kept l : Forall below_q (flat_map (expr_reads K) l) →
  max_of (K := K) (fuel := fuel) u l = max_of (K := K) (fuel := fuel) u' l.
Proof using HK Hu Hu' Hre IH.
  unfold max_of. induction l as [|e l IHl]; [done|]. cbn. intros [He Hl]%Forall_app.
  by rewrite (Ev _ He), IHl.
Qed.

Lemma active_kept {A} (l : list (A * expr)) : Forall below_q (conds_reads K l) →
  active (K := K) (fuel := fuel) u l = active (K := K) (fuel := fuel) u' l.
Proof using HK Hu Hu' Hre IH.
  intros H. assert (∀ p, p ∈ l → evl u p.2 = evl u' p.2) as Heq.
  { intros p Hp. apply Ev. by apply (Forall_flat_map _ _ _ _ H). }
  unfold active. rewrite (first_such_ext _ (λ p, negb (evl u' p.2 =? 0)%Z)) by (intros p Hp; by rewrite Heq).
  destruct (first_such _ l) as [p|] eqn:Hf; [|done]. apply first_such_spec in Hf as (l1 & l2 & -> & _).
  cbn. rewrite Heq; [done|]. apply elem_of_app. right. by apply elem_of_cons; left.
Qed.

Lemma type_kept s : Forall below_q (type_reads K (ISym s)) →
  type_of (K := K) (fuel := fuel) u s = type_of (K := K) (fuel := fuel) u' s.
Proof using HK Hu Hu' Hre IH.
  unfold type_of. cbn [type_reads]. destruct (decide (s_orig_type (sym K s) = TRISTATE)) as [Ht|Ht].
  - rewrite Ht. intros [Hc Hm]%Forall_app. rewrite (mod_type_eq u u' below_q IH).
    + destruct (s_choice (sym K s)) as [c|]; [|done]. by rewrite mode_kept.
    + by rewrite decide_True.
  - intros _. rewrite (mod_type_eq u u' below_q IH); [|by rewrite decide_False].
    by rewrite bool_decide_false.
Qed.

(** Reads of the property at hand. *)
Lemma read_all l : (∀ q', q' ∈ l → below_q q') → Forall below_q l.
Proof using Type. apply Forall_forall. Qed.
End Step.

Ltac part := apply read_all; intros ? ?; unfold below_q; cbn [static_reads]; set_solver.

Lemma vis_kept i :
  (∀ q', q' ∈ static_reads K (QVis i) → prop_of (K := K) (fuel := fuel) u q' = prop_of (K := K) (fuel := fuel) u' q') →
  vis u i = vis u' i.
Proof using HK Hu Hu' Hre.
  intros IH.
  assert (max_of (K := K) (fuel := fuel) u (prompt_conds K i) = max_of (K := K) (fuel := fuel) u' (prompt_conds K i)) as Hm.
  { apply (max_kept (QVis i) IH). part. }
  destruct i as [s|c]; rewrite ?(vis_of_sym u Hu), ?(vis_of_sym u' Hu'), ?(vis_of_choice u Hu), ?(vis_of_choice u' Hu').
  - cbv zeta. rewrite <- Hm. set (m := max_of u _) in *.
    assert (hidden_of (K := K) (fuel := fuel) u s m = hidden_of (K := K) (fuel := fuel) u' s m) as <-.
    { unfold hidden_of. destruct (s_choice (sym K s)) as [c|] eqn:Hc; [|done].
      rewrite (mode_kept (QVis (ISym s)) IH); [done|]. apply read_all. intros q' Hq.
      unfold below_q. cbn [static_reads]. rewrite Hc. set_solver. }
    destruct (hidden_of u s m); [done|].
    destruct (prompt_conds K (ISym s)) as [|e l] eqn:Hp; [done|].
    rewrite <- (type_kept (QVis (ISym s)) IH); [done|]. apply read_all. intros q' Hq.
    unfold below_q. cbn [static_reads]. unfold prompted. rewrite Hp. set_solver.
  - rewrite <- Hm. destruct (prompt_conds K (ICho c)) as [|e l] eqn:Hp; [done|].
    rewrite (mod_type_eq u u' (below_q (QVis (ICho c))) IH); [done|]. apply read_all. intros q' Hq.
    unfold below_q. cbn [static_reads]. unfold prompted. rewrite Hp. cbn [type_reads]. unfold choice_type_reads.
    set_solver.
Qed.

Lemma implied_kept s :
  BOOL_TRISTATE (s_orig_type (sym K s)) = true → s_choice (sym K s) = None →
  (∀ q', q' ∈ static_reads K (QTri s) → prop_of (K := K) (fuel := fuel) u q' = prop_of (K := K) (fuel := fuel) u' q') →
  implied_of (K := K) (fuel := fuel) u s = implied_of (K := K) (fuel := fuel) u' s.
Proof using HK Hu Hu' Hre.
  intros Hb Hc IH.
  assert (∀ q', q' ∈ conds_reads K (s_defaults (sym K s))
      ++ flat_map (λ p, expr_reads K p.1) (s_defaults (sym K s))
      ++ expr_reads K (s_weak_rev_dep (sym K s)) ++ expr_reads K (s_direct_dep (sym K s)) →
    below_q (QTri s) q') as Hin.
  { intros q' Hq. unfold below_q. cbn [static_reads]. rewrite Hb, Hc. set_solver. }
  assert (default_of (K := K) (fuel := fuel) u s = default_of (K := K) (fuel := fuel) u' s) as Hd.
  { unfold default_of. rewrite <- (active_kept (QTri s) IH) by (apply read_all; set_solver).
    destruct (active u (s_defaults (sym K s))) as [[d z]|] eqn:Ha; [|done].
    apply active_in in Ha as [cond Hd].
    rewrite (ev_eq u u' _ IH (mode_kept (QTri s) IH)); [done|].
    apply (Forall_flat_map _ (λ p, expr_reads K p.1) (s_defaults (sym K s)) (d, cond)); [|done].
    apply read_all. set_solver. }
  unfold implied_of. rewrite Hd, !(ev_eq u u' _ IH (mode_kept (QTri s) IH)); [done|..]; apply read_all; set_solver.
Qed.

Lemma tri_kept s :
  preset K (QTri s) = None →
  (∀ q', q' ∈ static_reads K (QTri s) → prop_of (K := K) (fuel := fuel) u q' = prop_of (K := K) (fuel := fuel) u' q') →
  tri u s = tri u' s.
Proof using HK Hu Hu' Hre.
  intros Hp IH. destruct (BOOL_TRISTATE (s_orig_type (sym K s))) eqn:Hb.
  2: { by rewrite !tri_of_other. }
  assert (vis u (ISym s) = vis u' (ISym s)) as Hv.
  { apply (vis_eq u u' (below_q (QTri s)) IH). unfold below_q. cbn [static_reads]. rewrite Hb. by left. }
  pose proof (rs_tri Hre s Hb) as Hs. rewrite (tri_of_eq u Hu s Hp Hb) in Hs |- *.
  rewrite (tri_of_eq u' Hu' s Hp Hb).
  destruct (s_choice (sym K s)) as [c|] eqn:Hc.
  - unfold choice_symbol_of in *. rewrite <- Hv.
    rewrite <- (sel_eq u u' (below_q (QTri s)) IH) by (unfold below_q; cbn [static_reads]; rewrite Hb, Hc; set_solver).
    destruct (vis u (ISym s) =? 2)%Z; [done|].
    destruct (Z.eqb_spec (vis u (ISym s)) 0) as [H0|H0]; [done|]. cbn [negb andb] in *.
    destruct Hs as [->|[?|[-> _]]]; [done..|]. by destruct (truthy (user_value u !! s)).
  - pose proof (implied_kept s Hb Hc IH) as Him.
    assert (∀ q', q' ∈ expr_reads K (s_weak_rev_dep (sym K s)) ++ expr_reads K (s_rev_dep (sym K s))
      ++ type_reads K (ISym s) → below_q (QTri s) q') as Hin.
    { intros q' Hq. unfold below_q. cbn [static_reads]. rewrite Hb, Hc. set_solver. }
    assert (∀ x, raise_of (K := K) (fuel := fuel) u s x = raise_of (K := K) (fuel := fuel) u' s x) as Hr.
    { intros x. unfold raise_of. rewrite !(ev_eq u u' _ IH (mode_kept (QTri s) IH)) by (apply read_all; set_solver).
      by rewrite (type_kept (QTri s) IH) by (apply read_all; set_solver). }
    rewrite <- Hr. destruct Hs as [Hs|[H0|[Hs Hd]]].
    + unfold own_of. by rewrite Hs, Hv, Him.
    + unfold own_of. rewrite <- Hv, <- Him, H0. by destruct (user_value u !! s) as [[]|], (user_value u' !! s) as [[]|].
    + destruct (Z.eqb_spec (vis u (ISym s)) 0) as [H0|H0].
      { unfold own_of. rewrite <- Hv, <- Him, H0. by destruct (user_value u !! s) as [[]|], (user_value u' !! s) as [[]|]. }
      unfold own_of at 2. rewrite Hs, <- Hv, (proj2 (Z.eqb_neq _ _) H0).
      symmetry. unfold raise_of. apply raise_restated.
      * by apply ev_tri.
      * by apply vis_of_tri.
      * by apply own_of_tri.
      * specialize (Hd eq_refl). unfold own_of. destruct (user_value u !! s) as [v|] eqn:Huv.
        -- destruct (uok_bool_tristate K u Hu _ _ Hb Huv) as (z & -> & _).
           rewrite (proj2 (Z.eqb_neq _ _) H0). lia.
        -- destruct Hd as [[? ?]|Hd]; done.
Qed.

Section Text.
Variable s : nat.
Hypothesis Ht : BOOL_TRISTATE_UNKNOWN (s_orig_type (sym K s)) = false.
Hypothesis IH : ∀ q', q' ∈ static_reads K (QStr s) →
  prop_of (K := K) (fuel := fuel) u q' = prop_of (K := K) (fuel := fuel) u' q'.

Lemma text_reads q' :
  q' ∈ QVis (ISym s) :: conds_reads K (s_defaults (sym K s))
    ++ flat_map (λ p, default_str_reads K p.1) (s_defaults (sym K s))
    ++ (if INT_HEX (s_orig_type (sym K s)) then
          conds_reads K (s_ranges (sym K s)) ++ flat_map (λ p, [QStr p.1.1; QStr p.1.2]) (s_ranges (sym K s))
        else []) → below_q (QStr s) q'.
Proof using Ht. unfold below_q. cbn [static_reads]. by destruct (s_orig_type (sym K s)). Qed.

Lemma text_vis : vis u (ISym s) = vis u' (ISym s).
Proof using Ht IH. apply (vis_eq u u' _ IH), text_reads. by apply elem_of_cons; left. Qed.

Lemma text_default : string_default_of (K := K) (fuel := fuel) u s = string_default_of (K := K) (fuel := fuel) u' s.
Proof using HK Hu Hu' Hre Ht IH.
  pose proof text_reads as Hin. unfold string_default_of.
  rewrite <- (active_kept (QStr s) IH) by (apply read_all; set_solver).
  destruct (active u (s_defaults (sym K s))) as [[d z]|] eqn:Ha; [|done].
  apply active_in in Ha as [cond Hd].
  assert (Forall (below_q (QStr s)) (default_str_reads K d)) as Hr.
  { apply (Forall_flat_map _ (λ p, default_str_reads K p.1) (s_defaults (sym K s)) (d, cond)); [|done].
    apply read_all. set_solver. }
  unfold default_text_of. destruct d as [[t|c]| | | |]; try done; cbn in Hr.
  - apply Forall_cons in Hr as [Hr _]. by apply (str_eq u u' _ IH).
  - by rewrite (mode_kept (QStr s) IH).
Qed.

Lemma text_range base : INT_HEX (s_orig_type (sym K s)) = true →
  range_of (K := K) (fuel := fuel) u base s = range_of (K := K) (fuel := fuel) u' base s.
Proof using HK Hu Hu' Hre Ht IH.
  intros Hi. pose proof text_reads as Hin. rewrite Hi in Hin. unfold range_of.
  rewrite <- (active_kept (QStr s) IH) by (apply read_all; set_solver).
  destruct (active u (s_ranges (sym K s))) as [[[lo hi] z]|] eqn:Ha; [|done].
  apply active_in in Ha as [cond Hd].
  assert (Forall (below_q (QStr s)) [QStr lo; QStr hi]) as Hr.
  { apply (Forall_flat_map _ (λ p, [QStr p.1.1; QStr p.1.2]) (s_ranges (sym K s)) ((lo, hi), cond)); [|done].
    apply read_all. set_solver. }
  apply Forall_cons in Hr as [H1 Hr]. apply Forall_cons in Hr as [H2 _].
  by rewrite (str_eq u u' _ IH lo), (str_eq u u' _ IH hi).
Qed.

Lemma string_kept : s_orig_type (sym K s) = STRING →
  string_value_of (K := K) (fuel := fuel) u s = string_value_of (K := K) (fuel := fuel) u' s.
Proof using HK Hu Hu' Hre Ht IH.
  intros Hty. pose proof (rs_str Hre s Ht) as Hs. rewrite (str_of_eq u Hu), Hty in Hs. cbn [valid_for] in Hs.
  set (t := string_value_of u s) in *. unfold string_value_of. rewrite <- text_vis, <- text_default.
  assert (t = match user_value u !! s with
    | Some (UStr x) => if (vis u (ISym s) =? 0)%Z then string_default_of (K := K) (fuel := fuel) u s else x
    | _ => string_default_of (K := K) (fuel := fuel) u s end) as Hteq by done.
  destruct Hs as [->|[H0| ->]]; [done| |].
  - rewrite Hteq, H0. by destruct (user_value u !! s) as [[]|], (user_value u' !! s) as [[]|].
  - destruct (vis u (ISym s) =? 0)%Z; [|done]. rewrite Hteq. by destruct (user_value u !! s) as [[]|].
Qed.

Lemma num_kept base :
  INT_HEX (s_orig_type (sym K s)) = true → TYPE_TO_BASE (s_orig_type (sym K s)) = Some base →
  str u s = num_value_of (K := K) (fuel := fuel) u base s →
  num_value_of (K := K) (fuel := fuel) u base s = num_value_of (K := K) (fuel := fuel) u' base s.
Proof using HK Hu Hu' Hre Ht IH.
  intros Hi Hbase Hstr. pose proof (rs_str Hre s Ht) as Hs. rewrite Hstr in Hs.
  set (t := num_value_of u base s) in *. unfold num_value_of, num_default_of.
  rewrite <- text_vis, <- text_default, <- (text_range base Hi).
  fold (num_default_of (K := K) (fuel := fuel) u base s (range_of (K := K) (fuel := fuel) u base s)).
  set (r := range_of u base s). set (d := num_default_of u base s r).
  set (used x := negb (vis u (ISym s) =? 0)%Z && negb (bool_decide (x = "")) && negb (out_of_range r (num_or_0 base x))).
  assert (t = match user_value u !! s with Some (UStr x) => if used x then x else d | _ => d end) as Hteq by done.
  change (t = match user_value u' !! s with Some (UStr x) => if used x then x else d | _ => d end).
  assert (t = d ∨ (used t = true ∧ user_value u !! s = Some (UStr t))) as Hor.
  { rewrite Hteq. destruct (user_value u !! s) as [[|x]|]; [by left| |by left].
    destruct (used x) eqn:Hx; [by right|by left]. }
  destruct Hs as [->|[H0| ->]]; [done| |].
  - assert (∀ x, used x = false) as Hno by (intros x; unfold used; by rewrite H0).
    rewrite Hteq. destruct (user_value u !! s) as [[]|], (user_value u' !! s) as [[]|]; by rewrite ?Hno.
  - destruct (valid_for _ _) eqn:Hv.
    + destruct (used t) eqn:Hx; [done|]. by destruct Hor as [|[? _]].
    + destruct Hor as [|[_ Huv]]; [done|]. apply (uok_sym _ _ Hu), valid_for_ok in Huv. congruence.
Qed.
End Text.

Lemma str_kept s :
  (∀ q', q' ∈ static_reads K (QStr s) → prop_of (K := K) (fuel := fuel) u q' = prop_of (K := K) (fuel := fuel) u' q') →
  str u s = str u' s.
Proof using HK Hu Hu' Hre.
  intros IH. pose proof (str_of_eq u Hu s) as H1. rewrite (str_of_eq u' Hu' s).
  destruct (s_orig_type (sym K s)) eqn:Hty; rewrite H1; [done|..].
  1,2: rewrite (tri_eq u u' (below_q (QStr s)) IH); [done|]; unfold below_q; cbn [static_reads]; rewrite Hty; by left.
  1: apply string_kept; rewrite ?Hty; done.
  all: apply num_kept; rewrite ?Hty; done.
Qed.

Lemma sel_kept c :
  (∀ q', q' ∈ static_reads K (QSel c) → prop_of (K := K) (fuel := fuel) u q' = prop_of (K := K) (fuel := fuel) u' q') →
  sel u c = sel u' c.
Proof using HK Hu Hu' Hre.
  intros IH.
  assert (∀ w, uok K w → ∀ s, user_selection w !! c = Some s → s ∈ c_syms (cho K c)) as Hmem.
  { intros w Hw s Hs. apply (uok_sel _ _ Hw) in Hs. destruct (ld_wf (K := K) (fuel := fuel)) as [Hwf _].
    specialize (Hwf s). unfold symbol_ok in Hwf. rewrite Hs in Hwf.
    apply andb_true_iff in Hwf as [_ Hwf]. by apply mem_true in Hwf. }
  assert (∀ s, s ∈ c_syms (cho K c) → vis u (ISym s) = vis u' (ISym s)) as Hvis.
  { intros s Hs. apply (vis_eq u u' (below_q (QSel c)) IH). unfold below_q. cbn [static_reads].
    rewrite !elem_of_app. do 3 right. apply list_elem_of_fmap. eauto. }
  assert (default_selection_of (K := K) (fuel := fuel) u c = default_selection_of (K := K) (fuel := fuel) u' c) as Hd.
  { unfold default_selection_of.
    rewrite (first_such_ext (default_selects (K := K) (fuel := fuel) u) (default_selects (K := K) (fuel := fuel) u')).
    - rewrite (first_such_ext (visible (K := K) (fuel := fuel) u) (visible (K := K) (fuel := fuel) u')); [done|].
      intros s Hs. unfold visible. by rewrite Hvis.
    - intros [d cond] Hin. unfold default_selects. cbn [fst snd].
      rewrite (ev_eq u u' _ IH (mode_kept (QSel c) IH)).
      + destruct d as [[s|]| | | | ]; [|done..]. unfold visible.
        rewrite (vis_eq u u' (below_q (QSel c)) IH); [done|]. unfold below_q. cbn [static_reads].
        rewrite !elem_of_app. right; right; left. apply list_elem_of_In, in_flat_map. exists (ESym s, cond).
        split; [by apply list_elem_of_In|by left].
      + apply (Forall_flat_map _ (λ p, expr_reads K p.2) (c_defaults (cho K c)) (d, cond)); [|done].
        apply read_all. intros q' Hq. unfold below_q. cbn [static_reads]. set_solver. }
  rewrite (sel_of_eq u' Hu'), <- Hd, <- (mode_kept (QSel c) IH)
    by (apply read_all; intros q' Hq; unfold below_q; cbn [static_reads]; set_solver).
  pose proof (sel_of_eq u Hu c) as Hsel. rewrite Hsel.
  destruct (Z.eqb_spec (mode u c) 2) as [Hm|Hm]; [|done].
  assert (∀ s, user_selection u' !! c = Some s → visible (K := K) (fuel := fuel) u' s = visible (K := K) (fuel := fuel) u s) as Hv'.
  { intros s Hs. unfold visible. by rewrite Hvis by by eapply (Hmem u'). }
  destruct (rs_sel Hre c Hm) as [Hs|[[[s Hs] Heq]|Hnone]].
  - rewrite Hs. destruct (user_selection u !! c) as [s|]; [|done]. by rewrite Hv'.
  - rewrite Hs in Heq |- *. rewrite Hv' by done. rewrite Hsel in Heq.
    assert (visible (K := K) (fuel := fuel) u s = true) as ->; [|done].
    assert (∀ x, default_selection_of (K := K) (fuel := fuel) u c = Some x → visible (K := K) (fuel := fuel) u x = true) as Hdv.
    { unfold default_selection_of. intros x. destruct (first_such _ (c_defaults _)) as [[d cond]|] eqn:Hf.
      - apply first_such_spec in Hf as (l1 & l2 & _ & Hds & _). unfold default_selects in Hds. cbn in Hds.
        apply andb_true_iff in Hds as [_ Hds]. destruct d as [[y|]| | | | ]; try done. by intros [= <-].
      - intros Hf2. by apply first_such_spec in Hf2 as (l1 & l2 & _ & ? & _). }
    destruct (user_selection u !! c) as [y|]; [|by apply Hdv].
    destruct (visible u y) eqn:Hy; [by injection Heq as ->|by apply Hdv].
  - assert (∀ s, user_selection u !! c = Some s ∨ user_selection u' !! c = Some s →
      visible (K := K) (fuel := fuel) u s = false) as Hno.
    { intros s Hs. unfold visible. by rewrite Hnone. }
    destruct (user_selection u !! c) as [s|] eqn:Hs; [rewrite (Hno s) by by left|];
      (destruct (user_selection u' !! c) as [s'|] eqn:Hs'; [|done]);
      by rewrite (Hv' s' eq_refl), (Hno s') by by right.
Qed.

Lemma asg_kept i :
  (∀ q', q' ∈ static_reads K (QAsg i) → prop_of (K := K) (fuel := fuel) u q' = prop_of (K := K) (fuel := fuel) u' q') →
  asg_of (K := K) (fuel := fuel) u i = asg_of (K := K) (fuel := fuel) u' i.
Proof using HK Hu Hu' Hre.
  intros IH. destruct i as [s|c].
  - rewrite (asg_of_eq u Hu), (asg_of_eq u' Hu'). unfold assignable_of.
    destruct (BOOL_TRISTATE (s_orig_type (sym K s))) eqn:Hb; [|done].
    assert (∀ q', q' ∈ QVis (ISym s) :: prompted K (ISym s) (expr_reads K (s_rev_dep (sym K s))
      ++ expr_reads K (s_weak_rev_dep (sym K s)) ++ type_reads K (ISym s)) → below_q (QAsg (ISym s)) q') as Hin.
    { intros q' Hq. unfold below_q. cbn [static_reads]. by rewrite Hb. }
    rewrite <- (vis_eq u u' (below_q (QAsg (ISym s))) IH) by (apply Hin; by apply elem_of_cons; left).
    destruct (prompt_conds K (ISym s)) as [|e l] eqn:Hp.
    { assert (vis u (ISym s) = 0%Z) as ->; [|done]. rewrite (vis_of_sym u Hu), Hp. cbn. by case_match. }
    unfold prompted in Hin. rewrite Hp in Hin. unfold no_m_of.
    rewrite !(ev_eq u u' _ IH (mode_kept (QAsg (ISym s)) IH)) by (apply read_all; set_solver).
    by rewrite (type_kept (QAsg (ISym s)) IH) by (apply read_all; set_solver).
  - rewrite (asg_of_choice_eq u Hu), (asg_of_choice_eq u' Hu'). unfold choice_assignable_of.
    rewrite <- (vis_eq u u' (below_q (QAsg (ICho c))) IH) by (unfold below_q; cbn [static_reads]; set_solver).
    by rewrite (mod_type_eq u u' (below_q (QAsg (ICho c))) IH) by part.
Qed.

(** Every property keeps its value. *)
Theorem restates_same q : prop_of (K := K) (fuel := fuel) u q = prop_of (K := K) (fuel := fuel) u' q.
Proof using HK Hu Hu' Hre.
  remember (ld_rank (fuel := fuel) q) as n eqn:Hn. revert q Hn.
  induction n as [n IHn] using lt_wf_ind. intros q ->.
  rewrite !prop_of_answer by done. f_equal.
  destruct (preset K q) as [w|] eqn:Hp.
  { assert (∀ x, uok K x → answer_of x q = w) as H; [|by rewrite !H].
    intros x Hx. assert (prop_of (K := K) (fuel := fuel) x q = Ok w) as Hq.
    { apply (evals_prop_of x Hx). by apply evals_const. }
    rewrite prop_of_answer in Hq by done. congruence. }
  assert (∀ q', q' ∈ static_reads K q → prop_of (K := K) (fuel := fuel) u q' = prop_of (K := K) (fuel := fuel) u' q') as IH.
  { intros q' Hq'. eapply IHn; [|reflexivity]. apply ld_rank_reads; [done|]. apply elem_of_app. by left. }
  destruct q as [s|s|i|c|i]; cbn [answer_of]; f_equal.
  - by apply tri_kept.
  - by apply str_kept.
  - by apply vis_kept.
  - by apply sel_kept.
  - by apply asg_kept.
Qed.
End Same.
End Reload.
