(* ===== verification/Check.v ===== *)
(** * Deciding [Loaded]

    [loadedb K fuel] decides the promises of [Loaded] on a concrete
    configuration: it ranks the properties of all stored objects by iterating
    "one more than the largest rank read" and then checks every condition. *)

From S2P Require Import Prelude PyStr Kconst Expr Incr Objects Values Reads Session.
From stdpp Require Import options.

Section Check.
Variable K : kconfig.
Variable fuel : nat.

Definition stored (i : item) : bool :=
  match i with
  | ISym s => bool_decide (is_Some (k_syms_store K !! s))
  | ICho c => bool_decide (is_Some (k_choices_store K !! c))
  end.

Definition stored_items : list item :=
  (ISym <$> (map_to_list (k_syms_store K)).*1) ++ (ICho <$> (map_to_list (k_choices_store K)).*1).

Definition stored_queries : list query := flat_map slots stored_items.

Definition is_preset (q : query) : bool := bool_decide (is_Some (preset K q)).

Definition read_graph : list (query * list query) :=
  (λ q, (q, if is_preset q then [] else static_reads K q ++ warn_reads K q)) <$> stored_queries.

Definition rank_step (g : list (query * list query)) (T : gmap query nat) : gmap query nat :=
  foldl (λ T p, <[p.1 := foldr (λ q m, Nat.max (S (default 0 (T !! q))) m) 0 p.2]> T) T g.

Definition rank_table (g : list (query * list query)) : gmap query nat :=
  Nat.iter fuel (rank_step g) ∅.

(** Objects outside the stores have no properties but those of a choice that
    reads its own visibility. *)
Definition rank_of (T : gmap query nat) (q : query) : nat :=
  if stored (owner q) then default 0 (T !! q)
  else match q with QSel _ | QAsg (ICho _) => 1 | _ => 0 end.

Definition tracked_read (q q' : query) : bool :=
  bool_decide (owner q' = owner q) || bool_decide (owner q ∈ dependents K (owner q'))
  || (bool_decide (owner q' = ISym (k_modules K)) && bool_decide (owner q ∈ all_items K))
  || bool_decide (owner q' ∉ all_items K).

Definition item_checks (i : item) : bool :=
  forallb (λ d, bool_decide (d ∈ all_items K)) (dependents K i)
  && (bool_decide (prompt_conds K i = []) || bool_decide (i ∈ all_items K))
  && match i with
     | ISym s =>
         match s_choice (sym K s) with
         | Some c => bool_decide (ICho c ∈ all_items K)
         | None => true
         end
     | ICho c =>
         bool_decide (c_orig_type (cho K c) = UNKNOWN) || bool_decide (ICho c ∈ all_items K)
     end.

Definition loadedb : bool :=
  let g := read_graph in
  let T := rank_table g in
  wfb K && (2 <=? fuel)
  && forallb (λ p, (rank_of T p.1 <? fuel)
                   && forallb (λ q', rank_of T q' <? rank_of T p.1) p.2) g
  && forallb (λ q, is_preset q || forallb (tracked_read q) (static_reads K q)) stored_queries
  && forallb item_checks stored_items
  && forallb (λ s, bool_decide (ISym s ∉ all_items K)) [k_sym_n K; k_sym_m K; k_sym_y K].

Lemma stored_items_spec i : stored i = true → i ∈ stored_items.
Proof using Type.
  unfold stored, stored_items. rewrite elem_of_app. destruct i as [s|c];
    rewrite bool_decide_eq_true; intros [x Hx]; [left|right];
    apply list_elem_of_fmap; (eexists; split; [done|]);
    apply list_elem_of_fmap; (eexists; split; [|by apply elem_of_map_to_list]); done.
Qed.

Lemma stored_queries_spec q : stored (owner q) = true → q ∈ stored_queries.
Proof using Type.
  intros Hs%stored_items_spec. unfold stored_queries.
  apply list_elem_of_In, in_flat_map. exists (owner q).
  split; apply list_elem_of_In; [done|]. by apply slots_owner.
Qed.

Lemma forallb_elem {A} (f : A → bool) l x : forallb f l = true → x ∈ l → f x = true.
Proof using Type. rewrite forallb_forall. intros H ?%list_elem_of_In. auto. Qed.

Lemma not_stored_sym s : stored (ISym s) = false → sym K s = dummy_symbol.
Proof using Type.
  cbn. rewrite bool_decide_eq_false, <- eq_None_not_Some. intros Hn.
  unfold sym, lookup_total, map_lookup_total. by rewrite Hn.
Qed.

Lemma not_stored_cho c : stored (ICho c) = false → cho K c = dummy_choice.
Proof using Type.
  cbn. rewrite bool_decide_eq_false, <- eq_None_not_Some. intros Hn.
  unfold cho, lookup_total, map_lookup_total. by rewrite Hn.
Qed.

Lemma not_stored_nodes i : stored i = false → nodes K i = [] ∧ dependents K i = [].
Proof using Type.
  destruct i as [s|c]; [intros Hs%not_stored_sym|intros Hs%not_stored_cho]; cbn; by rewrite Hs.
Qed.

Lemma not_stored_reads q q' :
  stored (owner q) = false → q' ∈ static_reads K q ++ warn_reads K q →
  q' = QVis (owner q) ∧ match q with QSel _ | QAsg (ICho _) => True | _ => False end.
Proof using Type.
  intros Hs. destruct q as [s|s|[s|c]|c|[s|c]]; cbn [owner] in Hs;
    [pose proof (not_stored_sym _ Hs) as Hd..|pose proof (not_stored_cho _ Hs) as Hd
    |pose proof (not_stored_cho _ Hs) as Hd|pose proof (not_stored_sym _ Hs) as Hd
    |pose proof (not_stored_cho _ Hs) as Hd];
    destruct (not_stored_nodes _ Hs) as [Hn _]; cbn [owner static_reads warn_reads];
    unfold prompt_conds, prompted, prompt_conds; rewrite ?Hn, ?Hd; cbn;
    unfold choice_type_reads; rewrite ?Hd; cbn; rewrite ?elem_of_nil, ?list_elem_of_singleton; done.
Qed.

Definition checked_rank : query → nat := rank_of (rank_table read_graph).

Hypothesis Hb : loadedb = true.

Lemma loadedb_spec :
  wf K ∧ 2 ≤ fuel ∧
  (∀ p, p ∈ read_graph → checked_rank p.1 < fuel ∧ ∀ q', q' ∈ p.2 → checked_rank q' < checked_rank p.1) ∧
  (∀ q, q ∈ stored_queries → preset K q = None → ∀ q', q' ∈ static_reads K q → tracked_read q q' = true) ∧
  (∀ i, i ∈ stored_items → item_checks i = true) ∧
  (∀ s, s ∈ [k_sym_n K; k_sym_m K; k_sym_y K] → ISym s ∉ all_items K).
Proof using Hb.
  unfold loadedb in Hb. fold checked_rank in Hb. rewrite !andb_true_iff in Hb.
  destruct Hb as [[[[[H1 H2] H3] H4] H5] H6]. split_and!.
  - by apply wfb_wf.
  - by apply Nat.leb_le.
  - intros p Hp. apply (forallb_elem _ _ _ H3) in Hp. rewrite andb_true_iff in Hp.
    destruct Hp as [Hp1 Hp2]. split; [by apply Nat.ltb_lt|].
    intros q' Hq'. apply (forallb_elem _ _ _ Hp2) in Hq'. by apply Nat.ltb_lt.
  - intros q Hq Hp q' Hq'. apply (forallb_elem _ _ _ H4) in Hq.
    rewrite orb_true_iff in Hq. destruct Hq as [Hq|Hq].
    + unfold is_preset in Hq. rewrite Hp in Hq. done.
    + by apply (forallb_elem _ _ _ Hq).
  - intros i. apply (forallb_elem _ _ _ H5).
  - intros s Hs. apply (forallb_elem _ _ _ H6) in Hs. by apply bool_decide_eq_true in Hs.
Qed.

Lemma checked_rank_not_stored q :
  stored (owner q) = false →
  checked_rank q = match q with QSel _ | QAsg (ICho _) => 1 | _ => 0 end.
Proof using Type. unfold checked_rank, rank_of. by intros ->. Qed.

Lemma checked_rank_reads q q' :
  preset K q = None → q' ∈ static_reads K q ++ warn_reads K q → checked_rank q' < checked_rank q.
Proof using Hb.
  intros Hp Hq'. destruct loadedb_spec as (_ & _ & H3 & _).
  destruct (stored (owner q)) eqn:Hs.
  - apply stored_queries_spec in Hs.
    apply (H3 (q, static_reads K q ++ warn_reads K q)); [|done].
    unfold read_graph. apply list_elem_of_fmap. exists q. split; [|done].
    unfold is_preset. by rewrite Hp.
  - destruct (not_stored_reads q q' Hs Hq') as [-> Hq].
    rewrite !checked_rank_not_stored by done. destruct q as [| | |c|[s|c]]; try done; cbn; lia.
Qed.

Lemma checked_rank_fuel q : checked_rank q < fuel.
Proof using Hb.
  destruct loadedb_spec as (_ & H2 & H3 & _). destruct (stored (owner q)) eqn:Hs.
  - apply stored_queries_spec in Hs.
    apply (H3 (q, if is_preset q then [] else static_reads K q ++ warn_reads K q)).
    unfold read_graph. apply list_elem_of_fmap. by exists q.
  - rewrite checked_rank_not_stored by done. destruct q as [| | | |[]]; lia.
Qed.

Lemma checked_tracked q q' :
  preset K q = None → q' ∈ static_reads K q →
  owner q' = owner q ∨ owner q ∈ dependents K (owner q') ∨
  (owner q' = ISym (k_modules K) ∧ owner q ∈ all_items K) ∨ owner q' ∉ all_items K.
Proof using Hb.
  intros Hp Hq'. destruct loadedb_spec as (_ & _ & _ & H4 & _).
  destruct (stored (owner q)) eqn:Hs.
  - apply stored_queries_spec in Hs. specialize (H4 q Hs Hp q' Hq').
    unfold tracked_read in H4. rewrite !orb_true_iff, andb_true_iff, !bool_decide_eq_true in H4. tauto.
  - left. destruct (not_stored_reads q q' Hs) as [-> Hq]; [apply elem_of_app; by left|done].
Qed.

Lemma checked_item i :
  (∀ d, d ∈ dependents K i → d ∈ all_items K) ∧
  (prompt_conds K i ≠ [] → i ∈ all_items K) ∧
  match i with
  | ISym s => ∀ c, s_choice (sym K s) = Some c → ICho c ∈ all_items K
  | ICho c => c_orig_type (cho K c) ≠ UNKNOWN → ICho c ∈ all_items K
  end.
Proof using Hb.
  destruct loadedb_spec as (_ & _ & _ & _ & H5 & _). destruct (stored i) eqn:Hs.
  - apply stored_items_spec in Hs. apply H5 in Hs. unfold item_checks in Hs.
    rewrite !andb_true_iff in Hs. destruct Hs as [[Hd Hp] Hi]. split_and!.
    + intros d Hd'. apply (forallb_elem _ _ _ Hd) in Hd'. by apply bool_decide_eq_true in Hd'.
    + rewrite orb_true_iff, !bool_decide_eq_true in Hp. naive_solver.
    + destruct i as [s|c].
      * intros c Hc. rewrite Hc in Hi. by apply bool_decide_eq_true in Hi.
      * rewrite orb_true_iff, !bool_decide_eq_true in Hi. naive_solver.
  - destruct (not_stored_nodes i Hs) as [Hn Hd]. split_and!.
    + intros d. rewrite Hd. by intros ?%elem_of_nil.
    + unfold prompt_conds. by rewrite Hn.
    + destruct i as [s|c].
      * apply not_stored_sym in Hs. by rewrite Hs.
      * apply not_stored_cho in Hs. by rewrite Hs.
Qed.

Lemma checked_const q v : preset K q = Some v → owner q ∉ all_items K.
Proof using Hb.
  destruct loadedb_spec as (_ & _ & _ & _ & _ & H6). destruct q as [s| | | |]; cbn; try done.
  intros Hs. apply H6. repeat case_decide; subst; cbn; set_solver.
Qed.

(** A configuration that passes the check keeps the promises of [Loaded]. *)
Definition checked_Loaded : Loaded K fuel := {|
  ld_wf := proj1 loadedb_spec;
  ld_rank := checked_rank;
  ld_rank_reads := checked_rank_reads;
  ld_rank_fuel := checked_rank_fuel;
  ld_tracked := checked_tracked;
  ld_deps i d := proj1 (checked_item i) d;
  ld_const := checked_const;
  ld_prompt i := proj1 (proj2 (checked_item i));
  ld_choice s := proj2 (proj2 (checked_item (ISym s)));
  ld_choice_typed c := proj2 (proj2 (checked_item (ICho c)))
|}.
End Check.
