(* ===== verification/Deps.v ===== *)
(** * Dependency tracking: _depend_on, _build_dep, _add_choice_deps

    The loader fills the [_dependents] sets once the configuration is final.
    The theorem of this file is the promise that makes caching sound: with the
    sets it builds, every property that the code of a property reads belongs to
    an object that has the reader's object as a dependent -- provided each choice
    symbol has the choice among its conditions and choice defaults are contained
    in their choice, for which the loader only warns. *)

From S2P Require Import Prelude PyStr Kconst Expr Incr Objects Values Reads Session.
From S2P Require Import Check.
From stdpp Require Import options.

(** [set.add], with the set as a list without duplicates. *)
Definition add_new {A} `{EqDecision A} (x : A) (l : list A) : list A :=
  if decide (x ∈ l) then l else l ++ [x].

Lemma elem_of_add_new {A} `{EqDecision A} (x y : A) l : y ∈ add_new x l ↔ y = x ∨ y ∈ l.
Proof.
  unfold add_new. case_decide; [naive_solver|].
  rewrite elem_of_app, list_elem_of_singleton. tauto.
Qed.

Section Deps.
(** [item._dependents.add(sc)] *)
Definition add_dependent (i sc : item) (K : kconfig) : kconfig :=
  match i with
  | ISym s =>
      set_k_syms_store
        (<[s := set_s_dependents (add_new sc (s_dependents (sym K s))) (sym K s)]> (k_syms_store K)) K
  | ICho c =>
      set_k_choices_store
        (<[c := set_c_dependents (add_new sc (c_dependents (cho K c))) (cho K c)]>
           (k_choices_store K)) K
  end.

(** [_depend_on] *)
Definition depend_on_item (sc i : item) (K : kconfig) : kconfig :=
  if is_constant K i then K else add_dependent i sc K.

Fixpoint depend_on (sc : item) (e : expr) (K : kconfig) : kconfig :=
  match e with
  | EItem i => depend_on_item sc i K
  | EAnd e1 e2 | EOr e1 e2 => depend_on sc e2 (depend_on sc e1 K)
  | ENot e => depend_on sc e K
  | ERel _ s1 s2 => depend_on_item sc (ISym s2) (depend_on_item sc (ISym s1) K)
  end.

Definition depend_on_all (sc : item) (l : list expr) (K : kconfig) : kconfig :=
  foldl (λ K e, depend_on sc e K) K l.

(** What a symbol or choice depends on, in the order of [_build_dep]. *)
Definition symbol_exprs (K : kconfig) (s : nat) : list expr :=
  let S := sym K s in
  prompt_conds K (ISym s)
    ++ flat_map (λ p, [p.1; p.2]) (s_defaults S)
    ++ [s_rev_dep S; s_weak_rev_dep S]
    ++ flat_map (λ p, [ESym p.1.1; ESym p.1.2; p.2]) (s_ranges S)
    ++ [s_direct_dep S].

Definition choice_exprs (K : kconfig) (c : nat) : list expr :=
  prompt_conds K (ICho c) ++ ((λ p, p.2) <$> c_defaults (cho K c)).

Definition item_exprs (K : kconfig) (i : item) : list expr :=
  match i with ISym s => symbol_exprs K s | ICho c => choice_exprs K c end.

(** [Kconfig._build_dep] *)
Definition build_dep (K : kconfig) : kconfig :=
  foldl (λ K c, depend_on_all (ICho c) (choice_exprs K c) K)
    (foldl (λ K s, depend_on_all (ISym s) (symbol_exprs K s) K) K (k_unique_defined_syms K))
    (k_unique_choices K).

(** [Kconfig._add_choice_deps] *)
Definition add_choice_deps (K : kconfig) : kconfig :=
  foldl (λ K c, foldl (λ K s, add_dependent (ISym s) (ICho c) K) K (c_syms (cho K c)))
    K (k_unique_choices K).

(** ** Only [_dependents] changes *)
Definition sym_like (S S' : symbol) : Prop := ∃ d, S' = set_s_dependents d S.
Definition cho_like (C C' : choice) : Prop := ∃ d, C' = set_c_dependents d C.

Record same_but_deps (K K' : kconfig) : Prop := {
  sd_sym s : sym_like (sym K s) (sym K' s);
  sd_cho c : cho_like (cho K c) (cho K' c);
  sd_rest : set_k_syms_store ∅ (set_k_choices_store ∅ K)
            = set_k_syms_store ∅ (set_k_choices_store ∅ K')
}.

Lemma sym_like_refl S : sym_like S S.
Proof. exists (s_dependents S). by destruct S. Qed.
Lemma cho_like_refl C : cho_like C C.
Proof. exists (c_dependents C). by destruct C. Qed.

#[global] Instance same_but_deps_preorder : PreOrder same_but_deps.
Proof.
  split.
  - intros K. split; [| |done]; intros i; [apply sym_like_refl|apply cho_like_refl].
  - intros K1 K2 K3 [H1 H2 H3] [G1 G2 G3]. split; [| |congruence].
    + intros s. destruct (H1 s) as [d Hd], (G1 s) as [d' Hd']. exists d'.
      rewrite Hd', Hd. by destruct (sym K1 s).
    + intros c. destruct (H2 c) as [d Hd], (G2 c) as [d' Hd']. exists d'.
      rewrite Hd', Hd. by destruct (cho K1 c).
Qed.

Lemma sym_insert K s S t :
  sym (set_k_syms_store (<[s := S]> (k_syms_store K)) K) t = if decide (s = t) then S else sym K t.
Proof.
  unfold sym; cbn. unfold lookup_total, map_lookup_total.
  case_decide; [subst; by rewrite lookup_insert_eq|by rewrite lookup_insert_ne].
Qed.

Lemma cho_insert K s S t :
  cho (set_k_choices_store (<[s := S]> (k_choices_store K)) K) t = if decide (s = t) then S else cho K t.
Proof.
  unfold cho; cbn. unfold lookup_total, map_lookup_total.
  case_decide; [subst; by rewrite lookup_insert_eq|by rewrite lookup_insert_ne].
Qed.

Lemma add_dependent_like i sc K : same_but_deps K (add_dependent i sc K).
Proof.
  destruct i as [s|c]; split; try done; intros t; cbn [add_dependent].
  - rewrite sym_insert. case_decide; [subst; by eexists|apply sym_like_refl].
  - apply cho_like_refl.
  - apply sym_like_refl.
  - rewrite cho_insert. case_decide; [subst; by eexists|apply cho_like_refl].
Qed.

Lemma add_dependent_spec i sc K j d :
  d ∈ dependents (add_dependent i sc K) j ↔ (j = i ∧ d = sc) ∨ d ∈ dependents K j.
Proof.
  destruct i as [s|c], j as [t|t]; cbn [add_dependent dependents]; rewrite ?sym_insert, ?cho_insert.
  - case_decide; [subst; cbn; rewrite elem_of_add_new|]; naive_solver.
  - change (cho (set_k_syms_store ?x K) t) with (cho K t). naive_solver.
  - change (sym (set_k_choices_store ?x K) t) with (sym K t). naive_solver.
  - case_decide; [subst; cbn; rewrite elem_of_add_new|]; naive_solver.
Qed.

(** [f] adds the dependents described by [P], and nothing else. *)
Definition stable (P : kconfig → item → item → Prop) : Prop :=
  ∀ K K' j d, same_but_deps K K' → P K j d ↔ P K' j d.

Definition adds (f : kconfig → kconfig) (P : kconfig → item → item → Prop) : Prop :=
  stable P ∧
  ∀ K, same_but_deps K (f K) ∧ ∀ j d, d ∈ dependents (f K) j ↔ P K j d ∨ d ∈ dependents K j.

Lemma adds_comp f g P Q :
  adds f P → adds g Q → adds (λ K, g (f K)) (λ K j d, P K j d ∨ Q K j d).
Proof.
  intros [HP Hf] [HQ Hg]. split.
  - intros K K' j d HK. rewrite (HP K K'), (HQ K K') by done. done.
  - intros K. destruct (Hf K) as [Hs Hd], (Hg (f K)) as [Hs' Hd']. split; [by etrans|].
    intros j d. rewrite Hd', Hd, (HQ K (f K)) by done. tauto.
Qed.

Lemma adds_ext f P Q :
  (∀ K j d, P K j d ↔ Q K j d) → adds f P → adds f Q.
Proof.
  intros HPQ [HP Hf]. split.
  - intros K K' j d HK. rewrite <- !HPQ. by apply HP.
  - intros K. destruct (Hf K) as [Hs Hd]. split; [done|]. intros j d. by rewrite Hd, HPQ.
Qed.

Lemma adds_foldl {A} (f : A → kconfig → kconfig) P (l : list A) :
  (∀ x, adds (f x) (P x)) →
  adds (λ K, foldl (λ K x, f x K) K l) (λ K j d, ∃ x, x ∈ l ∧ P x K j d).
Proof.
  intros Hf. induction l as [|x l IH]; cbn.
  - split; [intros K K' j d _; split; intros (x & Hx & _); by apply elem_of_nil in Hx|].
    intros K. split; [reflexivity|]. intros j d. split; [by right|].
    intros [(x & Hx & _)|?]; [by apply elem_of_nil in Hx|done].
  - eapply adds_ext; [|apply (adds_comp _ _ _ _ (Hf x) IH)].
    intros K j d. cbn. setoid_rewrite elem_of_cons. naive_solver.
Qed.

Lemma is_constant_same K K' i : same_but_deps K K' → is_constant K' i = is_constant K i.
Proof. intros [Hs _ _]. destruct i as [s|c]; [|done]. cbn. by destruct (Hs s) as [d ->]. Qed.

Lemma adds_item sc i :
  adds (depend_on_item sc i) (λ K j d, d = sc ∧ j = i ∧ is_constant K i = false).
Proof.
  split.
  - intros K K' j d HK. by rewrite (is_constant_same K K').
  - intros K. unfold depend_on_item. destruct (is_constant K i).
    + split; [reflexivity|]. naive_solver.
    + split; [apply add_dependent_like|]. intros j d. rewrite add_dependent_spec. naive_solver.
Qed.

Lemma adds_depend_on sc e :
  adds (depend_on sc e) (λ K j d, d = sc ∧ j ∈ expr_items e ∧ is_constant K j = false).
Proof.
  induction e as [i|e1 IH1 e2 IH2|e1 IH1 e2 IH2|e IH|r s1 s2]; cbn [depend_on expr_items].
  - eapply adds_ext; [|apply adds_item]. intros K j d. rewrite elem_of_singleton. naive_solver.
  - eapply adds_ext; [|apply (adds_comp _ _ _ _ IH1 IH2)]. intros K j d. cbn.
    rewrite elem_of_union. tauto.
  - eapply adds_ext; [|apply (adds_comp _ _ _ _ IH1 IH2)]. intros K j d. cbn.
    rewrite elem_of_union. tauto.
  - done.
  - eapply adds_ext; [|apply (adds_comp _ _ _ _ (adds_item sc (ISym s1)) (adds_item sc (ISym s2)))].
    intros K j d. cbn. rewrite elem_of_union, !elem_of_singleton. naive_solver.
Qed.

Lemma adds_depend_on_all sc l :
  adds (depend_on_all sc l)
    (λ K j d, d = sc ∧ is_constant K j = false ∧ ∃ e, e ∈ l ∧ j ∈ expr_items e).
Proof.
  eapply adds_ext; [|apply (adds_foldl (depend_on sc)), adds_depend_on].
  intros K j d. naive_solver.
Qed.

Lemma prompt_conds_same K K' i : same_but_deps K K' → prompt_conds K' i = prompt_conds K i.
Proof.
  intros [Hs Hc Hr]. unfold prompt_conds.
  assert (∀ n, nod K' n = nod K n) as Hn.
  { intros n. unfold nod. by injection Hr as <-. }
  assert (nodes K' i = nodes K i) as ->.
  { destruct i as [s|c]; cbn; [by destruct (Hs s) as [d ->]|by destruct (Hc c) as [d ->]]. }
  induction (nodes K i) as [|n l IH]; cbn; [done|]. by rewrite Hn, IH.
Qed.

Lemma item_exprs_same K K' i : same_but_deps K K' → item_exprs K' i = item_exprs K i.
Proof.
  intros HK. destruct i as [s|c]; cbn [item_exprs]; unfold symbol_exprs, choice_exprs;
    rewrite (prompt_conds_same K K') by done; destruct HK as [Hs Hc _].
  - by destruct (Hs s) as [d ->].
  - by destruct (Hc c) as [d ->].
Qed.

(** The expressions a symbol or choice is made to depend on do not change while
    the sets are filled. *)
Lemma adds_item_exprs i :
  adds (λ K, depend_on_all i (item_exprs K i) K)
    (λ K j d, d = i ∧ is_constant K j = false ∧ ∃ e, e ∈ item_exprs K i ∧ j ∈ expr_items e).
Proof.
  split.
  - intros K K' j d HK. by rewrite (is_constant_same K K'), (item_exprs_same K K').
  - intros K. destruct (adds_depend_on_all i (item_exprs K i)) as [_ Ha]. apply Ha.
Qed.

(** [_build_dep] adds an item as a dependent of exactly the non-constant items
    its properties mention. *)
Lemma build_dep_same K : same_but_deps K (build_dep K).
Proof.
  unfold build_dep.
  destruct (adds_foldl (λ s K, depend_on_all (ISym s) (symbol_exprs K s) K) _ (k_unique_defined_syms K)
    (λ s, adds_item_exprs (ISym s))) as [_ H1].
  destruct (adds_foldl (λ c K, depend_on_all (ICho c) (choice_exprs K c) K) _ (k_unique_choices K)
    (λ c, adds_item_exprs (ICho c))) as [_ H2].
  etrans; [apply H1|apply H2].
Qed.

Lemma build_dep_dependents K j d :
  d ∈ dependents (build_dep K) j ↔
  (d ∈ all_items K ∧ is_constant K j = false ∧ ∃ e, e ∈ item_exprs K d ∧ j ∈ expr_items e)
  ∨ d ∈ dependents K j.
Proof.
  destruct (adds_foldl (λ s K, depend_on_all (ISym s) (symbol_exprs K s) K) _ (k_unique_defined_syms K)
    (λ s, adds_item_exprs (ISym s))) as [_ H1].
  destruct (adds_foldl (λ c K, depend_on_all (ICho c) (choice_exprs K c) K) _ (k_unique_choices K)
    (λ c, adds_item_exprs (ICho c))) as [Hst H2].
  unfold build_dep. destruct (H2 (foldl (λ K s, depend_on_all (ISym s) (symbol_exprs K s) K) K
    (k_unique_defined_syms K))) as [_ ->].
  destruct (H1 K) as [Hs ->].
  rewrite <- (Hst K _ j d Hs). unfold all_items. rewrite elem_of_app, !list_elem_of_fmap.
  naive_solver.
Qed.

Lemma c_syms_same K K' c : same_but_deps K K' → c_syms (cho K' c) = c_syms (cho K c).
Proof. intros [_ Hc _]. by destruct (Hc c) as [d ->]. Qed.

Lemma adds_choice_syms c l :
  adds (λ K, foldl (λ K s, add_dependent (ISym s) (ICho c) K) K l)
    (λ K j d, ∃ s, s ∈ l ∧ j = ISym s ∧ d = ICho c).
Proof.
  apply (adds_foldl (λ s, add_dependent (ISym s) (ICho c)) (λ s K j d, j = ISym s ∧ d = ICho c)).
  intros s. split; [done|]. intros K. split; [apply add_dependent_like|]. apply add_dependent_spec.
Qed.

Lemma adds_choice_deps l :
  adds (λ K, foldl (λ K c, foldl (λ K s, add_dependent (ISym s) (ICho c) K) K (c_syms (cho K c))) K l)
    (λ K j d, ∃ c, c ∈ l ∧ ∃ s, s ∈ c_syms (cho K c) ∧ j = ISym s ∧ d = ICho c).
Proof.
  apply (adds_foldl
    (λ c K, foldl (λ K s, add_dependent (ISym s) (ICho c) K) K (c_syms (cho K c)))
    (λ c K j d, ∃ s, s ∈ c_syms (cho K c) ∧ j = ISym s ∧ d = ICho c)).
  intros c. split.
  - intros K K' j d HK. by rewrite (c_syms_same K K').
  - intros K. destruct (adds_choice_syms c (c_syms (cho K c))) as [_ Ha]. apply Ha.
Qed.

(** The sets as the loader leaves them. *)
Definition track_deps (K : kconfig) : kconfig := add_choice_deps (build_dep K).

Lemma track_deps_same K : same_but_deps K (track_deps K).
Proof.
  etrans; [apply build_dep_same|]. unfold track_deps, add_choice_deps.
  apply (adds_choice_deps (k_unique_choices (build_dep K))).
Qed.

Lemma same_unique K K' :
  same_but_deps K K' →
  all_items K' = all_items K ∧ k_unique_choices K' = k_unique_choices K ∧
  k_modules K' = k_modules K ∧ (∀ q, preset K' q = preset K q).
Proof.
  intros [_ _ Hr]. unfold all_items, preset. destruct K, K'. cbn in *. injection Hr as; subst. done.
Qed.

Lemma track_deps_dependents K j d :
  d ∈ dependents (track_deps K) j ↔
  (∃ c s, c ∈ k_unique_choices K ∧ s ∈ c_syms (cho K c) ∧ j = ISym s ∧ d = ICho c)
  ∨ (d ∈ all_items K ∧ is_constant K j = false ∧ ∃ e, e ∈ item_exprs K d ∧ j ∈ expr_items e)
  ∨ d ∈ dependents K j.
Proof.
  unfold track_deps, add_choice_deps.
  destruct (adds_choice_deps (k_unique_choices (build_dep K))) as [_ Ha].
  destruct (Ha (build_dep K)) as [_ ->]. rewrite build_dep_dependents.
  pose proof (build_dep_same K) as Hs. destruct (same_unique _ _ Hs) as (_ & -> & _).
  setoid_rewrite (c_syms_same _ _ _ Hs). naive_solver.
Qed.
End Deps.

(** ** The sets cover every read *)

(** What the sanity checks warn about, and the shape of undefined symbols. *)
Record sane (K : kconfig) : Prop := {
  sn_constant i : is_constant K i = true → i ∉ all_items K;
  sn_fresh i : dependents K i = [];
  sn_undefined i :
    i ∉ all_items K →
    nodes K i = [] ∧
    match i with
    | ISym s => s_choice (sym K s) = None ∧
                (s_orig_type (sym K s) = UNKNOWN
                 ∨ (BOOL_TRISTATE (s_orig_type (sym K s)) = true ∧ is_Some (preset K (QTri s))))
    | ICho c => c_orig_type (cho K c) = UNKNOWN ∧ c_syms (cho K c) = [] ∧ c_defaults (cho K c) = []
    end;
  sn_choice s c :
    s_choice (sym K s) = Some c →
    ICho c ∈ all_items K ∧ ∃ e, e ∈ symbol_exprs K s ∧ ICho c ∈ expr_items e;
  sn_default c s cond : (ESym s, cond) ∈ c_defaults (cho K c) → s ∈ c_syms (cho K c)
}.

(** [sane] is decidable. *)
Section DecideSane.
Variable K : kconfig.

Definition undefined_ok (i : item) : bool :=
  bool_decide (nodes K i = []) &&
  match i with
  | ISym s =>
      bool_decide (s_choice (sym K s) = None)
      && (bool_decide (s_orig_type (sym K s) = UNKNOWN)
          || (BOOL_TRISTATE (s_orig_type (sym K s)) && is_preset K (QTri s)))
  | ICho c =>
      bool_decide (c_orig_type (cho K c) = UNKNOWN) && bool_decide (c_syms (cho K c) = [])
      && bool_decide (c_defaults (cho K c) = [])
  end.

Definition links_ok (i : item) : bool :=
  match i with
  | ISym s =>
      match s_choice (sym K s) with
      | Some c => bool_decide (ICho c ∈ all_items K)
                  && existsb (λ e, bool_decide (ICho c ∈ expr_items e)) (symbol_exprs K s)
      | None => true
      end
  | ICho c =>
      forallb (λ p, match p.1 with ESym s => mem s (c_syms (cho K c)) | _ => true end)
        (c_defaults (cho K c))
  end.

Definition saneb : bool :=
  forallb (stored K) (all_items K)
  && forallb (λ i,
    (negb (is_constant K i) || bool_decide (i ∉ all_items K))
    && bool_decide (dependents K i = [])
    && (bool_decide (i ∈ all_items K) || undefined_ok i)
    && links_ok i) (stored_items K).

Lemma saneb_sane : saneb = true → sane K.
Proof using Type.
  unfold saneb. rewrite andb_true_iff. intros [Hall Hb].
  assert (∀ i, stored K i = true →
    (is_constant K i = true → i ∉ all_items K) ∧ dependents K i = [] ∧
    (i ∉ all_items K → undefined_ok i = true) ∧ links_ok i = true) as Hst.
  { intros i Hi%stored_items_spec. apply (forallb_elem _ _ _ Hb) in Hi.
    rewrite !andb_true_iff, !orb_true_iff, !bool_decide_eq_true, negb_true_iff in Hi.
    destruct Hi as [[[H1 H2] H3] H4]. split_and!; [|done| |done].
    - intros Hc. destruct H1; [congruence|done].
    - by intros; destruct H3. }
  split.
  - intros i. destruct (stored K i) eqn:Hs; [by apply Hst|].
    intros _ Hi. apply (forallb_elem _ _ _ Hall) in Hi. congruence.
  - intros i. destruct (stored K i) eqn:Hs; [by apply Hst|]. by apply not_stored_nodes in Hs as [_ ?].
  - intros i Hi. destruct (stored K i) eqn:Hs.
    + apply Hst in Hs as (_ & _ & Hu & _). specialize (Hu Hi). unfold undefined_ok in Hu.
      rewrite andb_true_iff, bool_decide_eq_true in Hu. destruct Hu as [Hn Hu]. split; [done|].
      destruct i as [s|c]; repeat rewrite ?andb_true_iff, ?orb_true_iff, ?bool_decide_eq_true in Hu.
      * destruct Hu as [Hc [?|[? Hp]]]; [auto|]. split; [done|right]. split; [done|].
        unfold is_preset in Hp. by apply bool_decide_eq_true in Hp.
      * tauto.
    + split; [by apply not_stored_nodes in Hs as [? _]|].
      destruct i as [s|c]; [apply not_stored_sym in Hs|apply not_stored_cho in Hs]; rewrite Hs; auto.
  - intros s c Hc. destruct (stored K (ISym s)) eqn:Hs.
    + apply Hst in Hs as (_ & _ & _ & Hl). cbn in Hl. rewrite Hc in Hl.
      rewrite andb_true_iff, bool_decide_eq_true, existsb_exists in Hl.
      destruct Hl as [? (e & He & Hie)]. split; [done|]. exists e. split; [by apply list_elem_of_In|].
      by apply bool_decide_eq_true in Hie.
    + apply not_stored_sym in Hs. by rewrite Hs in Hc.
  - intros c s cond Hin. destruct (stored K (ICho c)) eqn:Hs.
    + apply Hst in Hs as (_ & _ & _ & Hl). cbn in Hl.
      apply (forallb_elem _ _ _ Hl) in Hin. cbn in Hin. by apply mem_true in Hin.
    + apply not_stored_cho in Hs. rewrite Hs in Hin. by apply elem_of_nil in Hin.
Qed.
End DecideSane.

Section Covered.
Variable K : kconfig.

Lemma choice_type_reads_owner c q : q ∈ choice_type_reads K c → owner q = ISym (k_modules K).
Proof using Type.
  unfold choice_type_reads. case_decide; [by intros ->%list_elem_of_singleton|].
  by intros ?%elem_of_nil.
Qed.

Lemma item_reads_owner i q :
  q ∈ item_reads K i → owner q = i ∨ owner q = ISym (k_modules K).
Proof using Type.
  destruct i as [s|c]; cbn.
  - intros ->%list_elem_of_singleton. by left.
  - intros [->|?%choice_type_reads_owner]%elem_of_cons; auto.
Qed.

Lemma expr_reads_owner e q :
  q ∈ expr_reads K e → owner q ∈ expr_items e ∨ owner q = ISym (k_modules K).
Proof using Type.
  induction e as [i|e1 IH1 e2 IH2|e1 IH1 e2 IH2|e IH|r s1 s2]; cbn [expr_reads expr_items].
  - intros [->|?]%item_reads_owner; [left; by apply elem_of_singleton|auto].
  - rewrite elem_of_app, elem_of_union. tauto.
  - rewrite elem_of_app, elem_of_union. tauto.
  - done.
  - rewrite !elem_of_cons, elem_of_nil, elem_of_union, !elem_of_singleton.
    intros [->|[->|[->|[->|[]]]]]; cbn; auto.
Qed.

(** The expressions of [l] cover what an object reads. *)
Definition covered (l : list expr) (q : query) : Prop :=
  (∃ e, e ∈ l ∧ owner q ∈ expr_items e) ∨ owner q = ISym (k_modules K).

Lemma expr_covered l e q : e ∈ l → q ∈ expr_reads K e → covered l q.
Proof using Type. intros He [?|?]%expr_reads_owner; [left; eauto|by right]. Qed.

Lemma covered_mono l l' q : (∀ e, e ∈ l → e ∈ l') → covered l q → covered l' q.
Proof using Type. intros Hl [(e & He & Hq)|?]; [left; eauto|by right]. Qed.

Lemma flat_covered {A} (f : A → list query) (g : A → list expr) (l : list A) q :
  (∀ x, q ∈ f x → covered (g x) q) → q ∈ flat_map f l → covered (flat_map g l) q.
Proof using Type.
  intros Hf Hq. apply list_elem_of_In, in_flat_map in Hq as (x & Hx & Hq).
  apply list_elem_of_In in Hq. eapply covered_mono; [|by apply Hf].
  intros e He. apply list_elem_of_In, in_flat_map. exists x. split; [done|by apply list_elem_of_In].
Qed.

Lemma exprs_covered l q : q ∈ flat_map (expr_reads K) l → covered l q.
Proof using Type.
  intros Hq. assert (l = flat_map (λ e, [e]) l) as ->.
  { clear. induction l; cbn; congruence. }
  eapply flat_covered; [|exact Hq]. intros e. apply expr_covered. by apply list_elem_of_singleton.
Qed.

Lemma default_str_covered e q : q ∈ default_str_reads K e → covered [e] q.
Proof using Type.
  destruct e as [[s|c]| | | |]; cbn [default_str_reads]; try by intros ?%elem_of_nil.
  - intros ->%list_elem_of_singleton. left. exists (ESym s).
    split; [by apply list_elem_of_singleton|cbn [owner expr_items]; by apply elem_of_singleton].
  - apply (expr_covered _ (EItem (ICho c))). by apply list_elem_of_singleton.
Qed.

Hypothesis Hsane : sane K.

Lemma choice_reads_covered s q :
  q ∈ choice_reads K (s_choice (sym K s)) → covered (symbol_exprs K s) q.
Proof using Hsane.
  destruct (s_choice (sym K s)) as [c|] eqn:Hc; [|by intros ?%elem_of_nil].
  destruct (sn_choice _ Hsane _ _ Hc) as (_ & e & He & Hin).
  cbn [choice_reads]. intros [Ho|?]%item_reads_owner; [left|by right].
  exists e. by rewrite Ho.
Qed.

Lemma type_reads_covered s q :
  q ∈ type_reads K (ISym s) → covered (symbol_exprs K s) q.
Proof using Hsane.
  cbn [type_reads]. case_decide; [|by intros ?%elem_of_nil].
  rewrite elem_of_app, list_elem_of_singleton.
  intros [Hq| ->]; [by apply choice_reads_covered|by right].
Qed.

(** Parts of [symbol_exprs]. *)
Lemma sym_prompt_in s e : e ∈ prompt_conds K (ISym s) → e ∈ symbol_exprs K s.
Proof using Type. intros. unfold symbol_exprs. rewrite !elem_of_app. auto. Qed.
Lemma sym_default_in s e :
  e ∈ flat_map (λ p, [p.1; p.2]) (s_defaults (sym K s)) → e ∈ symbol_exprs K s.
Proof using Type. intros. unfold symbol_exprs. rewrite !elem_of_app. auto. Qed.
Lemma sym_range_in s e :
  e ∈ flat_map (λ p, [ESym p.1.1; ESym p.1.2; p.2]) (s_ranges (sym K s)) → e ∈ symbol_exprs K s.
Proof using Type. intros. unfold symbol_exprs. rewrite !elem_of_app. auto. Qed.
Lemma sym_dep_in s e :
  e = s_rev_dep (sym K s) ∨ e = s_weak_rev_dep (sym K s) ∨ e = s_direct_dep (sym K s) →
  e ∈ symbol_exprs K s.
Proof using Type.
  intros. unfold symbol_exprs. rewrite !elem_of_app, !elem_of_cons, elem_of_nil. tauto.
Qed.

Lemma defaults_covered s (f : expr → list query) q :
  (∀ e, q ∈ f e → covered [e] q) →
  q ∈ conds_reads K (s_defaults (sym K s)) ++ flat_map (λ p, f p.1) (s_defaults (sym K s)) →
  covered (symbol_exprs K s) q.
Proof using Type.
  intros Hf. rewrite elem_of_app. intros Hq.
  eapply covered_mono; [apply sym_default_in|].
  destruct Hq as [Hq|Hq]; (eapply flat_covered; [|exact Hq]); intros p Hp.
  - eapply expr_covered; [|exact Hp]. cbn. rewrite !elem_of_cons. auto.
  - eapply covered_mono; [|apply Hf; exact Hp]. intros e ->%list_elem_of_singleton.
    cbn. rewrite !elem_of_cons. auto.
Qed.

Lemma ranges_covered s q :
  q ∈ conds_reads K (s_ranges (sym K s))
    ++ flat_map (λ p : nat * nat * expr, [QStr p.1.1; QStr p.1.2]) (s_ranges (sym K s)) →
  covered (symbol_exprs K s) q.
Proof using Type.
  rewrite elem_of_app. intros Hq. eapply covered_mono; [apply sym_range_in|].
  destruct Hq as [Hq|Hq]; (eapply flat_covered; [|exact Hq]); intros [[lo hi] c] Hp; cbn in *.
  - eapply expr_covered; [|exact Hp]. rewrite !elem_of_cons. auto.
  - left. rewrite !elem_of_cons, elem_of_nil in Hp. destruct Hp as [->|[->|[]]]; cbn [owner].
    + exists (ESym lo). rewrite elem_of_cons. cbn [expr_items]. split; [auto|by apply elem_of_singleton].
    + exists (ESym hi). rewrite !elem_of_cons. cbn [expr_items]. split; [auto|by apply elem_of_singleton].
Qed.

Lemma expr_covered_single e q : q ∈ expr_reads K e → covered [e] q.
Proof using Type. apply expr_covered. by apply list_elem_of_singleton. Qed.

Lemma dep_covered s e q :
  e = s_rev_dep (sym K s) ∨ e = s_weak_rev_dep (sym K s) ∨ e = s_direct_dep (sym K s) →
  q ∈ expr_reads K e → covered (symbol_exprs K s) q.
Proof using Type. intros He. apply expr_covered. by apply sym_dep_in. Qed.

Lemma prompted_in i l q : q ∈ prompted K i l → q ∈ l.
Proof using Type. unfold prompted. destruct (prompt_conds K i); [by intros ?%elem_of_nil|done]. Qed.

Lemma symbol_reads_covered s q q' :
  q ∈ [QTri s; QStr s; QVis (ISym s); QAsg (ISym s)] → q' ∈ static_reads K q →
  owner q' = ISym s ∨ covered (symbol_exprs K s) q' ∨
  ∃ c, s_choice (sym K s) = Some c ∧ q' = QSel c.
Proof using Hsane.
  rewrite !elem_of_cons, elem_of_nil.
  intros [->|[->|[->|[->|[]]]]]; cbn [static_reads].
  - destruct (BOOL_TRISTATE _); [|by intros ?%elem_of_nil].
    intros [->|Hq]%elem_of_cons; [by left|]. right.
    destruct (s_choice (sym K s)) as [c|] eqn:Hc.
    + apply list_elem_of_singleton in Hq as ->. right. eauto.
    + left. rewrite !elem_of_app in Hq. destruct Hq as [Hq|[Hq|[Hq|[Hq|[Hq|Hq]]]]].
      * eapply (defaults_covered s (expr_reads K)); [intros e; apply expr_covered_single|].
        apply elem_of_app. by left.
      * eapply (defaults_covered s (expr_reads K)); [intros e; apply expr_covered_single|].
        apply elem_of_app. by right.
      * eapply dep_covered; [|exact Hq]; auto.
      * eapply dep_covered; [|exact Hq]; auto.
      * eapply dep_covered; [|exact Hq]; auto.
      * by apply type_reads_covered.
  - destruct (BOOL_TRISTATE _); [intros ->%list_elem_of_singleton; by left|].
    case_decide; [by intros ?%elem_of_nil|]. rewrite elem_of_cons, !elem_of_app.
    intros [->|[Hq|[Hq|Hq]]]; [by left|..]; right; left.
    + eapply (defaults_covered s (default_str_reads K)); [intros e; apply default_str_covered|].
      apply elem_of_app. by left.
    + eapply (defaults_covered s (default_str_reads K)); [intros e; apply default_str_covered|].
      apply elem_of_app. by right.
    + destruct (INT_HEX _); [by apply ranges_covered|by apply elem_of_nil in Hq].
  - rewrite !elem_of_app. intros [Hq|[Hq|Hq%prompted_in]]; right; left.
    + eapply covered_mono; [apply sym_prompt_in|]. by apply exprs_covered.
    + by apply choice_reads_covered.
    + by apply type_reads_covered.
  - destruct (BOOL_TRISTATE _); [|by intros ?%elem_of_nil].
    rewrite elem_of_cons. intros [->|Hq%prompted_in]; [by left|]. right; left.
    rewrite !elem_of_app in Hq. destruct Hq as [Hq|[Hq|Hq]].
    + eapply dep_covered; [|exact Hq]; auto.
    + eapply dep_covered; [|exact Hq]; auto.
    + by apply type_reads_covered.
Qed.

Lemma choice_reads_all_covered c q q' :
  wf K → q ∈ [QSel c; QVis (ICho c); QAsg (ICho c)] → q' ∈ static_reads K q →
  owner q' = ICho c ∨ covered (choice_exprs K c) q' ∨
  ∃ s, s ∈ c_syms (cho K c) ∧ owner q' = ISym s.
Proof using Hsane.
  intros Hwf. rewrite !elem_of_cons, elem_of_nil.
  intros [->|[->|[->|[]]]]; cbn [static_reads].
  - rewrite !elem_of_app. intros [Hq|[Hq|[Hq|Hq]]].
    + apply item_reads_owner in Hq as [?|?]; [by left|right; left; by right].
    + right; left. unfold choice_exprs. eapply covered_mono.
      { intros e He. apply elem_of_app. right. exact He. }
      unfold conds_reads in Hq. apply list_elem_of_In, in_flat_map in Hq as (p & Hp & Hq).
      apply list_elem_of_In in Hp, Hq. eapply expr_covered; [|exact Hq].
      apply list_elem_of_fmap. by exists p.
    + right; right. apply list_elem_of_In, in_flat_map in Hq as ([d cond] & Hd & Hq).
      apply list_elem_of_In in Hd, Hq. destruct d as [[s|?]| | | |]; cbn in Hq;
        try by apply elem_of_nil in Hq.
      apply list_elem_of_singleton in Hq as ->. exists s. split; [|done].
      by eapply (sn_default _ Hsane).
    + right; right. apply list_elem_of_fmap in Hq as (s & -> & Hs). eauto.
  - rewrite !elem_of_app. intros [Hq|[Hq|Hq%prompted_in]].
    + right; left. eapply covered_mono; [|by apply exprs_covered].
      intros e He. apply elem_of_app. by left.
    + by apply elem_of_nil in Hq.
    + right; left; right. by eapply choice_type_reads_owner.
  - intros [->|Hq]%elem_of_cons; [by left|]. right; left; right. by eapply choice_type_reads_owner.
Qed.
End Covered.

(** ** [static_reads] does not look at [_dependents] *)
Section SameReads.
Variables K K' : kconfig.
Hypothesis Hsame : same_but_deps K K'.

Lemma modules_same : k_modules K' = k_modules K.
Proof using Hsame. apply same_unique in Hsame. tauto. Qed.

Lemma choice_type_reads_same c : choice_type_reads K' c = choice_type_reads K c.
Proof using Hsame.
  unfold choice_type_reads. rewrite modules_same. by destruct (sd_cho _ _ Hsame c) as [d ->].
Qed.

Lemma item_reads_same i : item_reads K' i = item_reads K i.
Proof using Hsame. destruct i; cbn; by rewrite ?choice_type_reads_same. Qed.

Lemma expr_reads_same e : expr_reads K' e = expr_reads K e.
Proof using Hsame. induction e; cbn; rewrite ?item_reads_same; congruence. Qed.

Lemma flat_expr_reads_same {A} (f : A → expr) l :
  flat_map (λ x, expr_reads K' (f x)) l = flat_map (λ x, expr_reads K (f x)) l.
Proof using Hsame. apply flat_map_ext. intros x. apply expr_reads_same. Qed.

Lemma exprs_reads_same l : flat_map (expr_reads K') l = flat_map (expr_reads K) l.
Proof using Hsame. apply flat_map_ext. intros x. apply expr_reads_same. Qed.

Lemma conds_reads_same {A} (l : list (A * expr)) : conds_reads K' l = conds_reads K l.
Proof using Hsame. apply flat_expr_reads_same. Qed.

Lemma default_str_reads_same {A} (l : list (expr * A)) :
  flat_map (λ p, default_str_reads K' p.1) l = flat_map (λ p, default_str_reads K p.1) l.
Proof using Hsame.
  apply flat_map_ext. intros [e ?]. cbn. destruct e as [[]| | | |]; cbn; by rewrite ?choice_type_reads_same.
Qed.

Lemma choice_reads_same o : choice_reads K' o = choice_reads K o.
Proof using Hsame. destruct o; cbn; by rewrite ?choice_type_reads_same. Qed.

Lemma type_reads_same i : type_reads K' i = type_reads K i.
Proof using Hsame.
  destruct i as [s|c]; cbn; [|apply choice_type_reads_same].
  rewrite modules_same, choice_reads_same. by destruct (sd_sym _ _ Hsame s) as [d ->].
Qed.

Lemma prompted_same i l : prompted K' i l = prompted K i l.
Proof using Hsame. unfold prompted. by rewrite (prompt_conds_same K K'). Qed.

Lemma static_reads_same q : static_reads K' q = static_reads K q.
Proof using Hsame.
  destruct q as [s|s|i|c|[s|c]]; cbn [static_reads];
    rewrite ?exprs_reads_same, ?type_reads_same, ?prompted_same, ?(prompt_conds_same K K'),
      ?item_reads_same by done.
  - destruct (sd_sym _ _ Hsame s) as [d ->]. cbn.
    destruct (BOOL_TRISTATE _); [|done]. destruct (s_choice (sym K s)); [done|].
    unfold conds_reads. by rewrite !flat_expr_reads_same, !expr_reads_same.
  - destruct (sd_sym _ _ Hsame s) as [d ->]. cbn. destruct (BOOL_TRISTATE _); [done|].
    unfold conds_reads. by rewrite !flat_expr_reads_same, default_str_reads_same.
  - destruct i as [s|c]; [|done].
    destruct (sd_sym _ _ Hsame s) as [d ->]. cbn. by rewrite choice_reads_same.
  - destruct (sd_cho _ _ Hsame c) as [d ->]. cbn. unfold conds_reads.
    by rewrite !flat_expr_reads_same.
  - destruct (sd_sym _ _ Hsame s) as [d ->]. cbn. by rewrite !expr_reads_same.
  - done.
Qed.
End SameReads.

(** An undefined or constant symbol, and an undefined choice, reads only itself. *)
Lemma undefined_reads K q q' :
  sane K → owner q ∉ all_items K → preset K q = None → q' ∈ static_reads K q → owner q' = owner q.
Proof.
  intros Hsane Hout Hpre Hq. destruct (sn_undefined _ Hsane _ Hout) as [Hn Hp].
  assert (prompt_conds K (owner q) = []) as Hpr by (unfold prompt_conds; by rewrite Hn).
  assert (∀ l, prompted K (owner q) l = []) as Hpd by (intros l; unfold prompted; by rewrite Hpr).
  destruct q as [s|s|[s|c]|c|[s|c]]; cbn [owner] in *; cbn [static_reads] in Hq;
    rewrite ?Hpr, ?Hpd in Hq; cbn [flat_map app] in Hq.
  - destruct Hp as [_ [Ht|[_ [v Hv]]]]; [|congruence]. rewrite Ht in Hq. by apply elem_of_nil in Hq.
  - destruct Hp as [_ [Ht|[Ht _]]]; rewrite Ht in Hq; [by apply elem_of_nil in Hq|].
    by apply list_elem_of_singleton in Hq as ->.
  - destruct Hp as [Hc _]. rewrite Hc in Hq. by apply elem_of_nil in Hq.
  - by apply elem_of_nil in Hq.
  - destruct Hp as (Ht & Hs & Hd). rewrite Hs, Hd in Hq. cbn in Hq. unfold choice_type_reads in Hq.
    rewrite decide_False in Hq by (by rewrite Ht). by apply list_elem_of_singleton in Hq as ->.
  - destruct (BOOL_TRISTATE _); [|by apply elem_of_nil in Hq].
    by apply list_elem_of_singleton in Hq as ->.
  - destruct Hp as (Ht & _ & _). cbn in Hq. unfold choice_type_reads in Hq.
    rewrite decide_False in Hq by (by rewrite Ht). by apply list_elem_of_singleton in Hq as ->.
Qed.

(** The loader's sets cover every read of every property. *)
Lemma track_deps_covers K q q' :
  wf K → sane K → preset K q = None → q' ∈ static_reads K q →
  owner q' = owner q ∨ owner q ∈ dependents (track_deps K) (owner q') ∨
  (owner q' = ISym (k_modules K) ∧ owner q ∈ all_items K) ∨ owner q' ∉ all_items K.
Proof.
  intros Hwf Hsane Hpre Hq.
  destruct (decide (owner q' ∈ all_items K)) as [Hin'|]; [|auto].
  destruct (decide (owner q ∈ all_items K)) as [Hin|Hout].
  2: { left. by eapply undefined_reads. }
  assert (is_constant K (owner q') = false) as Hnc.
  { destruct (is_constant K (owner q')) eqn:Hc; [|done]. by apply (sn_constant _ Hsane) in Hc. }
  rewrite track_deps_dependents.
  assert (covered K (item_exprs K (owner q)) q' →
    (∃ c s, c ∈ k_unique_choices K ∧ s ∈ c_syms (cho K c) ∧ owner q' = ISym s ∧ owner q = ICho c)
    ∨ (owner q ∈ all_items K ∧ is_constant K (owner q') = false ∧
       ∃ e, e ∈ item_exprs K (owner q) ∧ owner q' ∈ expr_items e)
    ∨ owner q ∈ dependents K (owner q')
    ∨ (owner q' = ISym (k_modules K) ∧ owner q ∈ all_items K)) as Hcov.
  { intros [?|?]; [right; left; done|do 3 right; done]. }
  destruct (owner q) as [s|c] eqn:Ho.
  - assert (q ∈ [QTri s; QStr s; QVis (ISym s); QAsg (ISym s)]) as Hqs.
    { destruct q; cbn in Ho; simplify_eq; rewrite !elem_of_cons; auto 10. }
    destruct (symbol_reads_covered K Hsane s q q' Hqs Hq) as [?|[?|(c & Hc & ->)]]; [auto|tauto|].
    destruct (sn_choice _ Hsane _ _ Hc) as (_ & e & He & Hie).
    right; left; right; left. eauto.
  - assert (q ∈ [QSel c; QVis (ICho c); QAsg (ICho c)]) as Hqs.
    { destruct q; cbn in Ho; simplify_eq; rewrite !elem_of_cons; auto 10. }
    destruct (choice_reads_all_covered K Hsane c q q' Hwf Hqs Hq) as [?|[?|(s & Hs & Hos)]];
      [auto|tauto|].
    right; left; left. exists c, s. split_and!; try done.
    unfold all_items in Hin. rewrite elem_of_app, !list_elem_of_fmap in Hin. naive_solver.
Qed.

Lemma wf_same K K' : same_but_deps K K' → wf K → wf K'.
Proof.
  intros Hs [H1 H2]. split.
  - intros s. specialize (H1 s). destruct (sd_sym _ _ Hs s) as [d ->].
    unfold symbol_ok in *. cbn. destruct (s_choice (sym K s)) as [c|]; [|done].
    by rewrite (c_syms_same K K').
  - intros c. specialize (H2 c). by destruct (sd_cho _ _ Hs c) as [d ->].
Qed.

Lemma owner_preset_constant K q v :
  sane K → (∀ s, s ∈ [k_sym_n K; k_sym_m K; k_sym_y K] → s_is_constant (sym K s) = true) →
  preset K q = Some v → owner q ∉ all_items K.
Proof.
  intros Hsane Hc Hq. apply (sn_constant _ Hsane). destruct q as [s| | | |]; try done. cbn in *.
  apply Hc. repeat case_decide; subst; rewrite !elem_of_cons; naive_solver.
Qed.

(** What the loader establishes, for configurations without dependency loops. *)
Section Loader.
Variable K : kconfig.
Variable fuel : nat.
Abbreviation K' := (track_deps K).
Hypothesis Hwf : wf K.
Hypothesis Hsane : sane K.
Hypothesis Hnmy : ∀ s, s ∈ [k_sym_n K; k_sym_m K; k_sym_y K] → s_is_constant (sym K s) = true.
Variable rank : query → nat.
Hypothesis Hrank :
  ∀ q q', preset K q = None → q' ∈ static_reads K' q ++ warn_reads K' q → rank q' < rank q.
Hypothesis Hfuel : ∀ q, rank q < fuel.

Lemma loader_all : all_items K' = all_items K ∧ k_modules K' = k_modules K ∧
  ∀ q, preset K' q = preset K q.
Proof using Type. destruct (same_unique _ _ (track_deps_same K)) as (? & ? & ? & ?). done. Qed.

Lemma loader_undefined i : i ∉ all_items K' → prompt_conds K' i = [].
Proof using Hsane.
  rewrite (proj1 loader_all). intros [Hn _]%(sn_undefined _ Hsane).
  rewrite (prompt_conds_same K) by apply track_deps_same. unfold prompt_conds. by rewrite Hn.
Qed.

Definition loader_Loaded : Loaded K' fuel.
Proof using Hwf Hsane Hnmy rank Hrank Hfuel.
  pose proof loader_all as (Hall & Hmod & Hpre). pose proof (track_deps_same K) as Hs.
  refine {| ld_rank := rank |}.
  - by eapply wf_same.
  - intros q q'. rewrite Hpre. apply Hrank.
  - apply Hfuel.
  - intros q q'. rewrite Hpre, (static_reads_same K), Hall, Hmod by done.
    by apply track_deps_covers.
  - intros i d. rewrite Hall, track_deps_dependents, (sn_fresh _ Hsane), elem_of_nil.
    intros [(c & s & Hc & _ & _ & ->)|[[? _]|[]]]; [|done].
    unfold all_items. apply elem_of_app. right. by apply list_elem_of_fmap_2.
  - intros q v. rewrite Hpre, Hall. by apply owner_preset_constant.
  - intros i Hp. destruct (decide (i ∈ all_items K')) as [|Hn]; [done|].
    by apply loader_undefined in Hn.
  - intros s c. destruct (sd_sym _ _ Hs s) as [d ->]. rewrite Hall.
    intros Hc. by apply (sn_choice _ Hsane s).
  - intros c. destruct (sd_cho _ _ Hs c) as [d ->]. rewrite Hall. intros Ht.
    destruct (decide (ICho c ∈ all_items K)) as [|Hn]; [done|].
    apply (sn_undefined _ Hsane) in Hn as (_ & Ht' & _). done.
Defined.
End Loader.
