(* ===== verification/Load.v ===== *)
(** * Loading a configuration: Kconfig._init

    The whole loader: setting up the constant symbols and the top node, parsing
    the Kconfig files, finalising the menu tree and the symbols, the sanity
    checks, and the dependency sets with the loop check. *)

From S2P Require Import Prelude PyStr PyText Kconst Expr Incr Objects ParseState Preproc.
From S2P Require Import Lexer Parser Printing DepLoop MenuTree Sanity.
From S2P Require Import Values Reads Session Deps.
From stdpp Require Import options.

Section Load.
Variable w : world.

Definition getenv (name dflt : string) : string := default dflt (w_env w name).

(** The identities of the first objects. *)
Definition id_n : nat := 0.
Definition id_m : nat := 1.
Definition id_y : nat := 2.
Definition id_modules : nat := 3.
Definition id_top : nat := 4.

Definition constant_symbol (name : string) : symbol :=
  let n := ESym id_n in
  Symbol name true TRISTATE [] [] [] [] [] [] n n n None None false [].

(** The top node, a menu that holds the items of the top-level file. *)
Definition top_menu_node (filename : string) : menu_node :=
  let y := ESym id_y in
  MenuNode NMenu None None None (Some ("Main menu", y)) y y None true false filename 1
    [] [] [] [] [].

Definition initial_kconfig (filename : string) : kconfig :=
  let y := ESym id_y in
  let modules := Symbol "MODULES" false UNKNOWN [] [] [] [] [] []
                   (ESym id_n) (ESym id_n) (ESym id_n) None None false [] in
  Kconfig
    {[id_n := constant_symbol "n"; id_m := constant_symbol "m"; id_y := constant_symbol "y";
      id_modules := modules]}
    ∅ {[id_top := top_menu_node filename]}
    [("MODULES", id_modules)]
    [("n", id_n); ("m", id_m); ("y", id_y)]
    [] [] [] [] [] [] [] id_n id_m id_y id_modules None id_top
    (getenv "CONFIG_" "CONFIG_") (getenv "KCONFIG_CONFIG_HEADER" "")
    (getenv "KCONFIG_AUTOHEADER_HEADER" "") (getenv "srctree" "").

Definition initial_pstate (filename : string) (lines : list string) (log : wlog) : pstate :=
  PState (initial_kconfig filename) 5 true "" [] 0 false (Some filename) 0 [] lines [] [filename]
    [] [] log [].

(** Parsing: the block of the top-level file becomes the list of the top node. *)
Definition parse_files (fuel : nat) : M () :=
  last ← parse_block w fuel None id_top id_top;
  change_node last (set_n_next None);;
  tilt id_top;;
  change_node id_top (set_n_next None);;
  modify (set_p_parsing false).

Definition on_k (f : kconfig → outcome kconfig) : M () := λ p,
  let! K := f (p_k p) in Ok ((), set_p_k K p).

(** Post-processing of the tree and the symbols. *)
Definition finalize (fuel : nat) : M () :=
  on_k (finalize_node fuel id_top (ESym id_y));;
  upd_k (λ K, foldl (λ K p, finalize_sym p.2 K) K (k_syms K));;
  upd_k (λ K, set_k_unique_choices (ordered_unique (k_choices K))
                (set_k_unique_defined_syms (ordered_unique (k_defined_syms K)) K)).

Definition warn_undef : bool :=
  bool_decide (w_env w "KCONFIG_WARN_UNDEF" = Some "y")
  || bool_decide (w_env w "KCONFIG_STRICT" = Some "y").

Definition sanity_checks (fuel : nat) : M () :=
  K ← gets p_k;
  check_sym_sanity K;;
  check_choice_sanity K;;
  if warn_undef then
    ns ← lift (node_iter fuel false K);
    check_undef_syms K ns
  else mret ().

(** [_build_dep], the loop check, [_add_choice_deps]. *)
Definition dependencies (fuel : nat) : M () :=
  upd_k build_dep;;
  K ← gets p_k;
  lift (check_dep_loops K fuel (k_unique_defined_syms K) ∅);;
  upd_k add_choice_deps.

(** [Kconfig._init] *)
Definition load (fuel : nat) (filename : string) (warn warn_to_stderr : bool) : outcome pstate :=
  let path := path_join (getenv "srctree" "") filename in
  match w_file w path with
  | None => Raise (OSError (w_errno w path))
  | Some text =>
      let! (_, p) :=
        (parse_files fuel;; finalize fuel;; sanity_checks fuel;; dependencies fuel)
          (initial_pstate filename (file_lines text) (WLog warn warn_to_stderr [] [])) in
      Ok p
  end.
End Load.
