(* ===== verification/ConfigFile.v ===== *)
(** * Configuration files: load_config and the line formats

    Reading .config files ([load_config], [_load_config], [_undef_assign],
    [_assigned_twice], [load_allconfig], [defconfig_filename]) and the state these
    methods keep: the session, the files, [missing_syms], the warning settings and
    the [_old_val] attributes.

    Files are a map from paths to texts, which are read in text mode; a path
    without a text cannot be opened, with the operating system's error text given
    by the world.  The configuration
    prefix is matched literally: the program puts it into a regular expression
    unescaped, so this is right for prefixes without special characters. *)

From S2P Require Import Prelude PyStr PyText Kconst Expr Escape Incr Objects ParseState.
From S2P Require Import Values Reads Session.
From stdpp Require Import options.

Record host : Type := Host {
  h_session : session;
  h_files : gmap string string;
  h_missing : list (string * string);
  h_warn_undef : bool;
  h_warn_override : bool;
  h_warn_redun : bool;
  h_old_vals : gmap nat string;
  h_touched : list string;
  h_stdout : list string
}.

Definition set_h_session (x : session) (h : host) : host :=
  Host x (h_files h) (h_missing h) (h_warn_undef h) (h_warn_override h) (h_warn_redun h)
    (h_old_vals h) (h_touched h) (h_stdout h).
Definition set_h_files (x : gmap string string) (h : host) : host :=
  Host (h_session h) x (h_missing h) (h_warn_undef h) (h_warn_override h) (h_warn_redun h)
    (h_old_vals h) (h_touched h) (h_stdout h).
Definition set_h_missing (x : list (string * string)) (h : host) : host :=
  Host (h_session h) (h_files h) x (h_warn_undef h) (h_warn_override h) (h_warn_redun h)
    (h_old_vals h) (h_touched h) (h_stdout h).
Definition set_h_warn_dup (override redun : bool) (h : host) : host :=
  Host (h_session h) (h_files h) (h_missing h) (h_warn_undef h) override redun
    (h_old_vals h) (h_touched h) (h_stdout h).
Definition set_h_old_vals (x : gmap nat string) (h : host) : host :=
  Host (h_session h) (h_files h) (h_missing h) (h_warn_undef h) (h_warn_override h)
    (h_warn_redun h) x (h_touched h) (h_stdout h).
Definition set_h_touched (x : list string) (h : host) : host :=
  Host (h_session h) (h_files h) (h_missing h) (h_warn_undef h) (h_warn_override h)
    (h_warn_redun h) (h_old_vals h) x (h_stdout h).
Definition set_h_stdout (x : list string) (h : host) : host :=
  Host (h_session h) (h_files h) (h_missing h) (h_warn_undef h) (h_warn_override h)
    (h_warn_redun h) (h_old_vals h) (h_touched h) x.

(** ** Line formats *)

(** Up to the first character that fails a test, and the rest. *)
Definition not_c (c d : ascii) : bool := negb (c_eqb d c).

(** [_set_match(line)]: the prefix, a name without '=', '=', the rest of the line. *)
Definition set_match (prefix line : string) : option (string * string) :=
  if startswith prefix line then
    match span (not_c "=") (sdrop (slen prefix) line) with
    | (EmptyString, _) | (_, EmptyString) => None
    | (name, String _ rest) => Some (name, (span (not_c nl_c) rest).1)
    end
  else None.

(** [_unset_match(line)]; text after "is not set" is allowed. *)
Definition unset_match (prefix line : string) : option string :=
  let start := "# " +:+ prefix in
  if startswith start line then
    match span (not_c " ") (sdrop (slen start) line) with
    | (EmptyString, _) => None
    | (name, rest) => if startswith " is not set" rest then Some name else None
    end
  else None.

(** ** Computations that write files

    An exception leaves the files as they are when it is raised. *)

Definition HIO (A : Type) : Type := host → outcome A * host.

#[global] Instance HIO_ret : MRet HIO := λ A a h, (Ok a, h).
#[global] Instance HIO_bind : MBind HIO := λ A B f m h,
  match m h with
  | (Ok a, h) => f a h
  | (Raise e, h) => (Raise e, h)
  | (NoFuel, h) => (NoFuel, h)
  end.

Definition io_get {A} (f : host → A) : HIO A := λ h, (Ok (f h), h).
Definition io_modify (f : host → host) : HIO () := λ h, (Ok (), f h).
Definition io_raise {A} (e : exn) : HIO A := λ h, (Raise e, h).
(** Computations that leave the files alone. *)
Definition io_lift {A} (f : host → outcome (A * host)) : HIO A := λ h,
  match f h with
  | Ok (a, h) => (Ok a, h)
  | Raise e => (Raise e, h)
  | NoFuel => (NoFuel, h)
  end.
Fixpoint io_each {A} (f : A → HIO ()) (l : list A) : HIO () :=
  match l with
  | [] => mret ()
  | x :: l => f x;; io_each f l
  end.

(** [with open(path, "w") as f: f.write(text)] *)
Definition write_file (w : world) (path text : string) : HIO () := λ h,
  match w_write w (h_files h) path text with
  | None => (Ok (), set_h_files (<[path := text]> (h_files h)) h)
  | Some (Refused e) => (Raise (OSError e), h)
  | Some (Cut_short n e) => (Raise (OSError e), set_h_files (<[path := stake n text]> (h_files h)) h)
  end.

Section Load.
Variable w : world.
Variable K : kconfig.
Variable fuel : nat.

(** [self._warn(msg, filename, linenr)] *)
Definition hwarn (msg : string) (loc : option (string * Z)) (h : host) : host :=
  set_h_session
    (set_vals (λ st, IState (cache st) (wtc st) (log_warn msg loc (log st))) (h_session h)) h.

Definition on_session {A} (f : session → outcome (A * session)) (h : host) : outcome (A * host) :=
  let! (a, σ) := f (h_session h) in Ok (a, set_h_session σ h).
Definition on_session_ (f : session → outcome session) (h : host) : outcome host :=
  let! σ := f (h_session h) in Ok (set_h_session σ h).

(** ** Opening files *)

Definition open_read (filename : string) (h : host) : option string :=
  universal_newlines <$> h_files h !! filename.

(** [_open_config]: the name that was opened and the text. *)
Definition open_config (filename : string) (h : host) : outcome (string * string) :=
  match open_read filename h with
  | Some text => Ok (filename, text)
  | None =>
      let other := path_join (k_srctree K) filename in
      match open_read other h with
      | Some text => Ok (other, text)
      | None =>
          Raise (OSError ("Could not open '" +:+ filename +:+ "' (" +:+ w_errno w other
            +:+ "). Check that the $srctree environment variable ("
            +:+ (if bool_decide (k_srctree K = "") then "unset or blank"
                 else "set to '" +:+ k_srctree K +:+ "'")
            +:+ ") is set correctly."))
      end
  end.

(** ** Assignments *)

(** [_undef_assign] *)
Definition undef_assign (name val filename : string) (linenr : Z) (h : host) : host :=
  let h := set_h_missing (h_missing h ++ [(name, val)]) h in
  if h_warn_undef h then
    hwarn ("attempt to assign the value '" +:+ val +:+ "' to the undefined symbol " +:+ name)
      (Some (filename, linenr)) h
  else h.

(** The user value of a symbol as [_assigned_twice] sees it; [None] for a
    missing value of a string, int or hex symbol. *)
Definition old_user_value (s : nat) (h : host) : outcome (option string) :=
  let v := user_value (uvals (h_session h)) !! s in
  if BOOL_TRISTATE (s_orig_type (sym K s)) then
    match v with
    | Some (UTri z) => match TRI_TO_STR z with Some t => Ok (Some t) | None => Raise KeyError end
    | _ => Raise KeyError
    end
  else
    match v with
    | Some (UStr t) => Ok (Some t)
    | Some (UTri _) => Raise TypeError
    | None => Ok None
    end.

(** [_assigned_twice] *)
Definition assigned_twice (s : nat) (new_val filename : string) (linenr : Z) (h : host)
    : outcome host :=
  let! old := old_user_value s h in
  let msg := name_and_loc K (ISym s) +:+ " set more than once. Old value "
    +:+ dquote +:+ default "None" old +:+ dquote +:+ ", new value "
    +:+ dquote +:+ new_val +:+ dquote +:+ "." in
  Ok (if bool_decide (old = Some new_val)
      then if h_warn_redun h then hwarn msg (Some (filename, linenr)) h else h
      else if h_warn_override h then hwarn msg (Some (filename, linenr)) h else h).

(** The end of an iteration of [_load_config]: the assignment itself. *)
Definition assign (s : nat) (val filename : string) (linenr : Z) (h : host) : outcome host :=
  let! h := if decide (s ∈ sym_was_set (h_session h)) then assigned_twice s val filename linenr h
            else Ok h in
  let! (_, h) := on_session (set_value K s (UStr val)) h in
  Ok h.

(** Whether a value given to a bool or tristate symbol is well-formed. *)
Definition tri_val_ok (t : ktype) (val : string) : bool :=
  (bool_decide (t = BOOL) && (startswith "y" val || startswith "n" val))
  || (bool_decide (t = TRISTATE)
      && (startswith "y" val || startswith "m" val || startswith "n" val)).

(** The mode that an m or y choice symbol gives its choice. *)
Definition assign_mode (s : nat) (val filename : string) (linenr : Z) (h : host) : outcome host :=
  match s_choice (sym K s) with
  | Some c =>
      if decide (val = "n") then Ok h
      else
        let h := match choice_user_value (uvals (h_session h)) !! c with
                 | Some prev =>
                     if bool_decide (TRI_TO_STR prev = Some val) then h
                     else hwarn "both m and y assigned to symbols within the same choice"
                            (Some (filename, linenr)) h
                 | None => h
                 end in
        let! (_, h) := on_session (choice_set_value K c (UStr val)) h in
        Ok h
  | None => Ok h
  end.

(** The symbol of that name, if it has a definition. *)
Definition defined_sym (name : string) : option nat :=
  match dict_get name (k_syms K) with
  | Some s => if bool_decide (s_nodes (sym K s) = []) then None else Some s
  | None => None
  end.

(** One line of a .config file. *)
Definition load_line (filename : string) (linenr : Z) (line : string) (h : host) : outcome host :=
  let line := rstrip line in
  let here := Some (filename, linenr) in
  match set_match (k_config_prefix K) line with
  | Some (name, val) =>
      match defined_sym name with
      | None => Ok (undef_assign name val filename linenr h)
      | Some s =>
          let t := s_orig_type (sym K s) in
          if BOOL_TRISTATE t then
            if tri_val_ok t val then
              let val := s_upto 1 val in
              let! h := assign_mode s val filename linenr h in
              assign s val filename linenr h
            else
              Ok (hwarn ("'" +:+ val +:+ "' is not a valid value for the " +:+ TYPE_TO_STR t
                           +:+ " symbol " +:+ name_and_loc K (ISym s) +:+ ". Assignment ignored.")
                    here h)
          else if decide (t = STRING) then
            match conf_string_match val with
            | Some body => assign s (unescape body) filename linenr h
            | None =>
                Ok (hwarn ("malformed string literal in assignment to " +:+ name_and_loc K (ISym s)
                             +:+ ". Assignment ignored.") here h)
            end
          else assign s val filename linenr h
      end
  | None =>
      match unset_match (k_config_prefix K) line with
      | Some name =>
          match defined_sym name with
          | None => Ok (undef_assign name "n" filename linenr h)
          | Some s =>
              if BOOL_TRISTATE (s_orig_type (sym K s)) then assign s "n" filename linenr h else Ok h
          end
      | None =>
          Ok (if bool_decide (line = "") || startswith "#" (lstrip line) then h
              else hwarn ("ignoring malformed line '" +:+ line +:+ "'") here h)
      end
  end.

Fixpoint load_lines (filename : string) (linenr : Z) (lines : list string) (h : host)
    : outcome host :=
  match lines with
  | [] => Ok h
  | line :: lines =>
      let! h := load_line filename linenr line h in
      load_lines filename (linenr + 1) lines h
  end.

(** The loops at the end of [_load_config], for symbols and choices that no
    line set. *)
Definition unset_others (σ : session) : outcome session :=
  let! σ := for_each (λ s σ, if decide (s ∈ sym_was_set σ) then Ok σ else unset_value K s σ)
              (k_unique_defined_syms K) σ in
  for_each (λ c σ, if decide (c ∈ choice_was_set σ) then Ok σ else choice_unset_value K c σ)
    (k_unique_choices K) σ.

Definition clear_was_set (σ : session) : session :=
  Session (uvals σ) (vals σ) (sym_was_set σ ∖ list_to_set (k_unique_defined_syms K))
    (choice_was_set σ ∖ list_to_set (k_unique_choices K)) (warn_assign_no_prompt σ).

(** [_load_config] *)
Definition load_config_file (filename : string) (replace : bool) (h : host) : outcome host :=
  let! (_, text) := open_config filename h in
  let h := if replace then set_h_session (clear_was_set (h_session h)) (set_h_missing [] h)
           else h in
  let! h := load_lines filename 1 (file_lines text) h in
  if replace then on_session_ unset_others h else Ok h.

(** [standard_config_filename] *)
Definition standard_config_filename : string := default ".config" (w_env w "KCONFIG_CONFIG").

(** [defconfig_filename]: the first file of the defaults with a condition that can
    be opened. *)
Fixpoint first_defconfig (l : list (expr * expr)) (h : host) : outcome (option string * host) :=
  match l with
  | [] => Ok (None, h)
  | (filename, cond) :: l =>
      let! (v, h) := on_session (run_code K fuel (λ u, expr_value K u cond)) h in
      if (v =? 0)%Z then first_defconfig l h
      else
        let! (name, h) := on_session (run_code K fuel (λ u, default_str K u filename)) h in
        match open_config name h with
        | Ok (opened, _) => Ok (Some opened, h)
        | _ => first_defconfig l h
        end
  end.

Definition defconfig_filename (h : host) : outcome (option string * host) :=
  match k_defconfig_list K with
  | Some (NSym s) => first_defconfig (s_defaults (sym K s)) h
  | Some (NCho c) => first_defconfig (c_defaults (cho K c)) h
  | _ => Ok (None, h)
  end.

Definition exists_file (filename : string) (h : host) : bool :=
  bool_decide (is_Some (h_files h !! filename)).

(** [load_config], which returns a message. *)
Definition load_named (filename msg : string) (replace : bool) (h : host)
    : outcome (string * host) :=
  let! h := load_config_file filename replace
              (set_h_session (set_no_prompt_warning false (h_session h)) h) in
  Ok ((if replace then "Loaded" else "Merged") +:+ msg,
      set_h_session (set_no_prompt_warning true (h_session h)) h).

Definition configuration_msg (filename : string) : string :=
  " configuration '" +:+ filename +:+ "'".

Definition load_config (filename : option string) (replace : bool) (h : host)
    : outcome (string * host) :=
  match filename with
  | Some filename => load_named filename (configuration_msg filename) replace h
  | None =>
      let filename := standard_config_filename in
      if exists_file filename h || exists_file (path_join (k_srctree K) filename) h
      then load_named filename (configuration_msg filename) replace h
      else
        let! (o, h) := defconfig_filename h in
        match o with
        | None => Ok ("Using default symbol values (no '" +:+ filename +:+ "')", h)
        | Some defconfig =>
            load_named defconfig
              (" default configuration '" +:+ defconfig +:+ "' (no '" +:+ filename +:+ "')")
              replace h
        end
  end.

Definition print (msg : string) (h : host) : host := set_h_stdout (h_stdout h ++ [msg]) h.

(** [load_allconfig]: merges a file, restoring the warning settings. *)
Definition load_allconfig (filename : string) (h : host) : outcome host :=
  match w_env w "KCONFIG_ALLCONFIG" with
  | None => Ok h
  | Some allconfig =>
      let override := h_warn_override h in
      let redun := h_warn_redun h in
      let h := set_h_warn_dup false false h in
      let merge name h := let! (msg, h) := load_config (Some name) false h in Ok (print msg h) in
      let std name := w_errno w (path_join (k_srctree K) name) in
      let! h :=
        if bool_decide (allconfig = "") || bool_decide (allconfig = "1") then
          match merge filename h with
          | Raise (OSError _) =>
              match merge "all.config" h with
              | Raise (OSError _) =>
                  Raise (SystemExit ("error: KCONFIG_ALLCONFIG is set, but neither " +:+ filename
                    +:+ " nor all.config could be opened: " +:+ std filename +:+ ", "
                    +:+ std "all.config"))
              | r => r
              end
          | r => r
          end
        else
          match merge allconfig h with
          | Raise (OSError _) =>
              Raise (SystemExit ("error: KCONFIG_ALLCONFIG is set to '" +:+ allconfig
                +:+ "', which could not be opened: " +:+ std allconfig))
          | r => r
          end in
      Ok (set_h_warn_dup override redun h)
  end.
End Load.
