(* ===== verification/ConfigSession.v ===== *)
(** * Loading a .config file as assignments to user values

    [load_config] on a session with its caches, warnings and marks is a fold of
    the assignments that the lines of the file stand for over the user values
    and the [_was_set] marks.  The fold is the specification; from it follow that
    loading raises nothing and that a loaded file replaces earlier values. *)

From S2P Require Import Prelude PyStr PyText Kconst Expr Escape Incr Objects ParseState.
From S2P Require Import Values Reads Session ConfigFile.
From stdpp Require Import options.

(** What a line of a .config file stands for; [Assign s val infer] also sets the
    mode of the choice of [s] if [infer]. *)
Inductive assignment : Type :=
  | Assign (s : nat) (val : string) (infer : bool)
  | Undefined (name val : string)
  | Ignored.

(** The user values and the objects that have been set. *)
Record settings : Type := Settings {
  st_u : ustate;
  st_syms : gset nat;
  st_chos : gset nat
}.

Definition settings_of (σ : session) : settings :=
  Settings (uvals σ) (sym_was_set σ) (choice_was_set σ).

(** Two hosts that differ in their sessions only. *)
Definition frame (h h' : host) : Prop := set_h_session (h_session h) h' = h.

Lemma frame_refl h : frame h h.
Proof. by destruct h. Qed.
Lemma frame_trans h1 h2 h3 : frame h1 h2 → frame h2 h3 → frame h1 h3.
Proof. unfold frame. intros H1 H2. rewrite <- H1, <- H2. by destruct h1, h2, h3. Qed.
Lemma frame_session σ h : frame h (set_h_session σ h).
Proof. by destruct h. Qed.
Lemma frame_missing h h' : frame h h' → h_missing h' = h_missing h.
Proof. intros H. unfold frame in H. by rewrite <- H. Qed.
Lemma frame_files h h' : frame h h' → h_files h' = h_files h.
Proof. intros H. unfold frame in H. by rewrite <- H. Qed.
Lemma frame_warn h h' : frame h h' → h_warn_undef h' = h_warn_undef h.
Proof. intros H. unfold frame in H. by rewrite <- H. Qed.

Section Spec.
Variable K : kconfig.

Definition line_assignment (line : string) : assignment :=
  let line := rstrip line in
  match set_match (k_config_prefix K) line with
  | Some (name, val) =>
      match defined_sym K name with
      | None => Undefined name val
      | Some s =>
          let t := s_orig_type (sym K s) in
          if BOOL_TRISTATE t then
            if tri_val_ok t val then Assign s (s_upto 1 val) true else Ignored
          else if decide (t = STRING) then
            match conf_string_match val with
            | Some body => Assign s (unescape body) false
            | None => Ignored
            end
          else Assign s val false
      end
  | None =>
      match unset_match (k_config_prefix K) line with
      | Some name =>
          match defined_sym K name with
          | None => Undefined name "n"
          | Some s => if BOOL_TRISTATE (s_orig_type (sym K s)) then Assign s "n" false else Ignored
          end
      | None => Ignored
      end
  end.

(** Adding an object to the marked ones if its value was accepted. *)
Definition mark_if (b : bool) (x : nat) (X : gset nat) : gset nat := if b then {[x]} ∪ X else X.

Definition spec_mode (s : nat) (val : string) (l : settings) : settings :=
  match s_choice (sym K s) with
  | Some c =>
      if decide (val = "n") then l
      else
        let '(b, u) := spec_choice_set_value K c (UStr val) (st_u l) in
        Settings u (st_syms l) (mark_if b c (st_chos l))
  | None => l
  end.

Definition spec_set (s : nat) (v : uval) (l : settings) : settings :=
  let '(b, u) := spec_set_value K s v (st_u l) in
  Settings u (mark_if b s (st_syms l))
    (match s_choice (sym K s) with
     | Some c => mark_if (b && bool_decide (norm_value (K := K) s v = UTri 2)) c (st_chos l)
     | None => st_chos l
     end).

Definition spec_assignment (a : assignment) (l : settings) : settings :=
  match a with
  | Assign s val infer => spec_set s (UStr val) (if infer then spec_mode s val l else l)
  | Undefined _ _ | Ignored => l
  end.

(** The symbol that an assignment selects in a choice, and the last one of a file *)
Definition selects (c : nat) (a : assignment) : option nat :=
  match a with
  | Assign s val _ =>
      if valid_for (s_orig_type (sym K s)) (norm_value (K := K) s (UStr val))
         && bool_decide (norm_value (K := K) s (UStr val) = UTri 2) && bool_decide (s_choice (sym K s) = Some c)
      then Some s else None
  | Undefined _ _ | Ignored => None
  end.
Definition file_selection (c : nat) (l : list assignment) : option nat := last (omap (selects c) l).

Definition missing_of (a : assignment) : list (string * string) :=
  match a with Undefined name val => [(name, val)] | _ => [] end.

Definition file_assignments (text : string) : list assignment :=
  line_assignment <$> file_lines text.

Definition spec_assignments (l : list assignment) (x : settings) : settings :=
  foldl (λ x a, spec_assignment a x) x l.

Definition spec_clear (l : settings) : settings :=
  Settings (st_u l) (st_syms l ∖ list_to_set (k_unique_defined_syms K))
    (st_chos l ∖ list_to_set (k_unique_choices K)).

Definition spec_unset_others (l : settings) : settings :=
  Settings
    (foldl (λ u c, if decide (c ∈ st_chos l) then u else del_choice_values c u)
      (foldl (λ u s, if decide (s ∈ st_syms l) then u else del_user_value s u)
        (st_u l) (k_unique_defined_syms K))
      (k_unique_choices K))
    (st_syms l) (st_chos l).

Definition spec_load (replace : bool) (text : string) (l : settings) : settings :=
  if replace then spec_unset_others (spec_assignments (file_assignments text) (spec_clear l))
  else spec_assignments (file_assignments text) l.

(** Every bool or tristate symbol that is marked as set has a value. *)
Definition marked_ok (l : settings) : Prop :=
  ∀ s, s ∈ st_syms l → s ∈ k_unique_defined_syms K → is_Some (user_value (st_u l) !! s).

(** A bool or tristate symbol that is marked as set and has no value, which
    [_assigned_twice] does not expect. *)
Definition forgotten (l : settings) (s : nat) : bool :=
  bool_decide (s ∈ st_syms l) && BOOL_TRISTATE (s_orig_type (sym K s)) && bool_decide (user_value (st_u l) !! s = None).
Definition assigns_forgotten (l : settings) (a : assignment) : bool :=
  match a with Assign s _ _ => forgotten l s | _ => false end.
End Spec.

Section Loading.
Context {K : kconfig} {fuel : nat} {HK : Loaded K fuel}.
Implicit Types (σ : session) (h : host).

Abbreviation ok σ := (session_ok (K := K) σ).

(** ** Marks *)

Lemma inval_marks i σ σ' : inval K i σ = Ok σ' → sym_was_set σ' = sym_was_set σ ∧ choice_was_set σ' = choice_was_set σ.
Proof using Type. unfold inval. destruct (invalidate_rec _ _ _); [|done..]. by intros [= <-]. Qed.

Lemma rec_invalidate_marks s σ σ' :
  rec_invalidate_if_has_prompt K s σ = Ok σ' →
  sym_was_set σ' = sym_was_set σ ∧ choice_was_set σ' = choice_was_set σ.
Proof using Type.
  unfold rec_invalidate_if_has_prompt. case_match; [apply inval_marks|].
  intros [= <-]. by case_match.
Qed.

Lemma set_value_marks s v σ b σ' :
  set_value K s v σ = Ok (b, σ') →
  sym_was_set σ' = mark_if b s (sym_was_set σ) ∧
  choice_was_set σ' =
    match s_choice (sym K s) with
    | Some c => mark_if (b && bool_decide (norm_value (K := K) s v = UTri 2)) c (choice_was_set σ)
    | None => choice_was_set σ
    end.
Proof using Type.
  unfold set_value. fold (norm_value (K := K) s v). set (w := norm_value s v).
  destruct (bool_decide (user_value (uvals σ) !! s = Some w) && _) eqn:Hsame.
  { rewrite andb_true_iff, !bool_decide_eq_true in Hsame. destruct Hsame as [_ ->].
    by intros [= <- <-]. }
  destruct (valid_for _ _); cbn [negb].
  2: { intros [= <- <-]. split; [done|]. by destruct (s_choice _). }
  destruct (s_choice (sym K s)) as [c|].
  - destruct (decide (w = UTri 2)) as [Hw|Hw].
    + destruct (inval _ _ _) as [σ2| |] eqn:Hi; [|done..]. intros [= <- <-].
      apply inval_marks in Hi as [-> ->]. by rewrite bool_decide_true.
    + destruct (rec_invalidate_if_has_prompt _ _ _) as [σ2| |] eqn:Hi; [|done..]. intros [= <- <-].
      apply rec_invalidate_marks in Hi as [-> ->]. by rewrite bool_decide_false.
  - destruct (rec_invalidate_if_has_prompt _ _ _) as [σ2| |] eqn:Hi; [|done..]. intros [= <- <-].
    by apply rec_invalidate_marks in Hi as [-> ->].
Qed.

Lemma set_value_settings s v σ :
  ok σ → ∃ b σ', set_value K s v σ = Ok (b, σ') ∧ ok σ' ∧ settings_of σ' = spec_set K s v (settings_of σ).
Proof using HK.
  intros Hσ. destruct (set_value_session s v σ Hσ) as (σ' & Hs & Hσ' & Hu & _).
  exists (spec_set_value K s v (uvals σ)).1, σ'. split_and!; [done|done|].
  apply set_value_marks in Hs as [H1 H2]. unfold settings_of, spec_set. cbn [st_u st_syms st_chos].
  rewrite Hu, H1, H2. by destruct (spec_set_value K s v (uvals σ)).
Qed.

Lemma choice_set_value_settings c v σ :
  ok σ → ∃ b σ', choice_set_value K c v σ = Ok (b, σ') ∧ ok σ' ∧
    settings_of σ' = Settings (spec_choice_set_value K c v (uvals σ)).2 (sym_was_set σ)
      (mark_if (spec_choice_set_value K c v (uvals σ)).1 c (choice_was_set σ)).
Proof using HK.
  intros Hσ. destruct (choice_set_value_session c v σ Hσ) as (σ' & Hs & Hσ' & Hu).
  eexists _, σ'. split_and!; [done|done|]. unfold settings_of. rewrite Hu.
  assert (sym_was_set σ' = sym_was_set σ ∧
    choice_was_set σ' = mark_if (spec_choice_set_value K c v (uvals σ)).1 c (choice_was_set σ)) as [-> ->]; [|done].
  revert Hs. unfold choice_set_value. set (b := (spec_choice_set_value K c v (uvals σ)).1). clearbody b.
  case_decide; [by intros [= <- <-]|]. destruct (as_tri v); [|by intros [= <- <-]].
  case_match; [|by intros [= <- <-]].
  destruct (inval _ _ _) as [σ2| |] eqn:Hi; [|done..]. intros [= <- <-].
  by apply inval_marks in Hi as [-> ->].
Qed.

Lemma unset_value_settings s σ :
  ok σ → ∃ σ', unset_value K s σ = Ok σ' ∧ ok σ' ∧
    settings_of σ' = Settings (del_user_value s (uvals σ)) (sym_was_set σ) (choice_was_set σ).
Proof using HK.
  intros Hσ. destruct (unset_value_session s σ Hσ) as (σ' & Hs & Hσ' & Hu).
  exists σ'. split_and!; [done|done|]. unfold settings_of. rewrite Hu. revert Hs. unfold unset_value.
  case_match; [|by intros [= <-]]. intros Hs. by apply rec_invalidate_marks in Hs as [-> ->].
Qed.

Lemma choice_unset_settings c σ :
  ok σ → ∃ σ', choice_unset_value K c σ = Ok σ' ∧ ok σ' ∧
    settings_of σ' = Settings (del_choice_values c (uvals σ)) (sym_was_set σ) (choice_was_set σ).
Proof using HK.
  intros Hσ. destruct (choice_unset_session c σ Hσ) as (σ' & Hs & Hσ' & Hu).
  exists σ'. split_and!; [done|done|]. unfold settings_of. rewrite Hu. revert Hs.
  unfold choice_unset_value. case_match; [|by intros [= <-]]. intros Hs.
  by apply inval_marks in Hs as [-> ->].
Qed.

(** ** Lines *)

(** [h'] is [h] after a step that changes the session only, to [l]. *)
Definition steps_to h h' (l : settings) : Prop :=
  frame h h' ∧ ok (h_session h') ∧ settings_of (h_session h') = l.

Lemma hwarn_steps msg loc h :
  ok (h_session h) → steps_to h (hwarn msg loc h) (settings_of (h_session h)).
Proof using Type.
  intros Hok. split; [apply frame_session|]. split; [|done]. destruct Hok as [Hu [H1 H2]].
  by split.
Qed.

Lemma stays h : ok (h_session h) → steps_to h h (settings_of (h_session h)).
Proof using Type. intros Hok. split; [apply frame_refl|done]. Qed.

Lemma steps_trans h1 h2 h3 l2 l3 : steps_to h1 h2 l2 → steps_to h2 h3 l3 → steps_to h1 h3 l3.
Proof using Type. intros [H1 _] [H2 ?]. split; [by eapply frame_trans|done]. Qed.

Lemma steps_session h σ l : ok σ → settings_of σ = l → steps_to h (set_h_session σ h) l.
Proof using Type. intros ??. split; [apply frame_session|done]. Qed.

Lemma old_user_value_ok s h :
  ok (h_session h) → (BOOL_TRISTATE (s_orig_type (sym K s)) = true → is_Some (user_value (uvals (h_session h)) !! s)) →
  ∃ o, old_user_value K s h = Ok o.
Proof using Type.
  intros [Hu _] Hs. unfold old_user_value. destruct (user_value (uvals (h_session h)) !! s) as [v|] eqn:Hv.
  - pose proof (uok_sym _ _ Hu _ _ Hv) as Ht.
    destruct (s_orig_type (sym K s)), v as [z|t]; cbn in Ht |- *; try done; eauto.
    + destruct Ht as [->| ->]; eauto.
    + apply tri_str_ok in Ht as [x ->]. eauto.
  - destruct (BOOL_TRISTATE _); [|eauto]. by destruct (Hs eq_refl).
Qed.

Lemma assigned_twice_ok s val filename linenr h :
  ok (h_session h) → (BOOL_TRISTATE (s_orig_type (sym K s)) = true → is_Some (user_value (uvals (h_session h)) !! s)) →
  ∃ h', assigned_twice K s val filename linenr h = Ok h' ∧
    steps_to h h' (settings_of (h_session h)).
Proof using Type.
  intros Hok Hv. destruct (old_user_value_ok s h Hok Hv) as [o Ho].
  unfold assigned_twice. rewrite Ho. cbn. eexists. split; [done|].
  repeat case_match; by (apply hwarn_steps || apply stays).
Qed.

Lemma assign_ok s val filename linenr h :
  ok (h_session h) → forgotten K (settings_of (h_session h)) s = false →
  ∃ h', assign K s val filename linenr h = Ok h' ∧
    steps_to h h' (spec_set K s (UStr val) (settings_of (h_session h))).
Proof using HK.
  intros Hok Hset.
  assert (∃ h1, (if decide (s ∈ sym_was_set (h_session h)) then assigned_twice K s val filename linenr h
                 else Ok h) = Ok h1 ∧ steps_to h h1 (settings_of (h_session h))) as (h1 & H1 & Hs1).
  { case_decide as Hin; [|exists h; split; [done|by apply stays]].
    apply assigned_twice_ok; [done|]. intros Hb. unfold forgotten in Hset. cbn in Hset.
    rewrite bool_decide_true, Hb in Hset by done. apply bool_decide_eq_false in Hset.
    by apply not_eq_None_Some. }
  unfold assign. rewrite H1. cbn [obind]. destruct Hs1 as (Hf1 & Hok1 & Hl1).
  destruct (set_value_settings s (UStr val) (h_session h1) Hok1) as (b & σ' & Hset' & Hok' & Hl').
  unfold on_session. rewrite Hset'. cbn. eexists. split; [done|].
  eapply steps_trans; [by split|]. apply steps_session; [done|]. by rewrite Hl', Hl1.
Qed.

(** An assignment to a forgotten symbol *)
Lemma assign_forgotten s val filename linenr h :
  forgotten K (settings_of (h_session h)) s = true → assign K s val filename linenr h = Raise KeyError.
Proof using Type.
  unfold forgotten. cbn. intros [[Hin Hb]%andb_true_iff Hv]%andb_true_iff.
  apply bool_decide_eq_true in Hin, Hv. unfold assign. rewrite decide_True by done.
  unfold assigned_twice, old_user_value. by rewrite Hb, Hv.
Qed.

Lemma assign_mode_ok s val filename linenr h :
  ok (h_session h) →
  ∃ h', assign_mode K s val filename linenr h = Ok h' ∧
    steps_to h h' (spec_mode K s val (settings_of (h_session h))).
Proof using HK.
  intros Hok. unfold assign_mode, spec_mode. destruct (s_choice (sym K s)) as [c|].
  2: { exists h. split; [done|by apply stays]. }
  case_decide; [exists h; split; [done|by apply stays]|].
  match goal with |- context [on_session _ ?x] => set (h1 := x) end.
  assert (steps_to h h1 (settings_of (h_session h))) as (Hf1 & Hok1 & Hl1).
  { unfold h1. destruct (choice_user_value _ !! c) as [prev|]; [|by apply stays].
    destruct (bool_decide _); [by apply stays|by apply hwarn_steps]. }
  destruct (choice_set_value_settings c (UStr val) (h_session h1) Hok1) as (b & σ' & Hset' & Hok' & Hl').
  unfold on_session. rewrite Hset'. cbn. eexists. split; [done|].
  eapply steps_trans; [by split|]. apply steps_session; [done|]. rewrite Hl'.
  injection Hl1 as -> -> ->. unfold settings_of. cbn [st_u st_syms st_chos].
  clear Hl'. by destruct (spec_choice_set_value _ _ _ _).
Qed.

(** The symbols that lines name are defined. *)
Definition names_defined : Prop :=
  ∀ name s, defined_sym K name = Some s → s ∈ k_unique_defined_syms K.

Hypothesis Hdef : names_defined.

Lemma marked_assign s v l :
  marked_ok K l → marked_ok K (spec_set K s v l).
Proof using Type.
  intros Hm t. unfold spec_set, spec_set_value.
  destruct (valid_for _ _); cbn [st_u st_syms mark_if]; [|by apply Hm].
  assert (user_value (match s_choice (sym K s) with
    | Some c => if decide (norm_value (K := K) s v = UTri 2)
                then put_selection c s (put_user_value s (norm_value (K := K) s v) (st_u l))
                else put_user_value s (norm_value (K := K) s v) (st_u l)
    | None => put_user_value s (norm_value (K := K) s v) (st_u l) end)
    = <[s := norm_value (K := K) s v]> (user_value (st_u l))) as ->.
  { destruct (s_choice (sym K s)); [by case_decide|done]. }
  rewrite elem_of_union, elem_of_singleton. destruct (decide (t = s)) as [->|Hts].
  - rewrite lookup_insert_eq. by eexists.
  - rewrite lookup_insert_ne by done. intros [?|Ht] Hd; [done|]. by apply Hm.
Qed.

Lemma spec_mode_syms s val l :
  user_value (st_u (spec_mode K s val l)) = user_value (st_u l) ∧ st_syms (spec_mode K s val l) = st_syms l.
Proof using Type.
  unfold spec_mode. destruct (s_choice _); [|done]. case_decide; [done|].
  unfold spec_choice_set_value. destruct (as_tri _); [|done]. by destruct (valid_for _ _).
Qed.

(** Assignments do not change which symbols are forgotten, unless they fail. *)
Lemma forgotten_mode s val l t : forgotten K (spec_mode K s val l) t = forgotten K l t.
Proof using Type. unfold forgotten. by destruct (spec_mode_syms s val l) as [-> ->]. Qed.

Lemma forgotten_set s v l t : forgotten K l s = false → forgotten K (spec_set K s v l) t = forgotten K l t.
Proof using Type.
  intros Hs. unfold spec_set, spec_set_value. destruct (valid_for _ _); [|done].
  assert (user_value (match s_choice (sym K s) with
    | Some c => if decide (norm_value (K := K) s v = UTri 2)
                then put_selection c s (put_user_value s (norm_value (K := K) s v) (st_u l))
                else put_user_value s (norm_value (K := K) s v) (st_u l)
    | None => put_user_value s (norm_value (K := K) s v) (st_u l) end)
    = <[s := norm_value (K := K) s v]> (user_value (st_u l))) as E.
  { destruct (s_choice (sym K s)); [by case_decide|done]. }
  unfold forgotten. cbn [st_u st_syms mark_if]. rewrite E. destruct (decide (t = s)) as [->|Hts].
  - rewrite lookup_insert_eq. unfold forgotten in Hs. rewrite Hs. by rewrite (bool_decide_false (Some _ = None)), andb_false_r.
  - rewrite lookup_insert_ne by done. do 2 f_equal. apply bool_decide_ext. clear -Hts. set_solver.
Qed.

Lemma forgotten_assignment a b l :
  assigns_forgotten K l a = false → assigns_forgotten K (spec_assignment K a l) b = assigns_forgotten K l b.
Proof using Type.
  destruct a as [s val infer| |]; [|done..]. cbn [assigns_forgotten spec_assignment]. intros Hs.
  destruct b as [t ? ?| |]; [|done..]. cbn [assigns_forgotten].
  destruct infer; rewrite forgotten_set; rewrite ?forgotten_mode; done.
Qed.

Lemma marked_not_forgotten l la : marked_ok K l → (∀ s v i, Assign s v i ∈ la → s ∈ k_unique_defined_syms K) →
  existsb (assigns_forgotten K l) la = false.
Proof using Type.
  intros Hm Hin. apply not_true_iff_false. intros (a & Ha & Hf)%existsb_exists. destruct a as [s v i| |]; [|done..].
  apply list_elem_of_In, Hin in Ha. unfold assigns_forgotten, forgotten in Hf.
  apply andb_true_iff in Hf as [[H1 _]%andb_true_iff H2]. apply bool_decide_eq_true in H1, H2.
  destruct (Hm s H1 Ha) as [x Hx]. congruence.
Qed.

(** The symbols that lines assign are defined. *)
Lemma assigned_defined text s v i : Assign s v i ∈ file_assignments K text → s ∈ k_unique_defined_syms K.
Proof using Hdef.
  unfold file_assignments. intros (line & Hl & _)%list_elem_of_fmap. symmetry in Hl. revert Hl.
  unfold line_assignment. cbv zeta. repeat case_match; intros [= <- _ _]; by eapply Hdef.
Qed.

Lemma marked_assignment a l : marked_ok K l → marked_ok K (spec_assignment K a l).
Proof using Type.
  intros Hm. destruct a as [s val infer| |]; [|done..]. cbn. apply marked_assign.
  destruct infer; [|done]. intros t. by destruct (spec_mode_syms s val l) as [-> ->]; apply Hm.
Qed.

(** [h'] is [h] after a line that stands for [a]. *)
Definition line_done (a : assignment) h h' : Prop :=
  ok (h_session h') ∧ settings_of (h_session h') = spec_assignment K a (settings_of (h_session h)) ∧
  frame (set_h_missing (h_missing h ++ missing_of a) h) h'.

Lemma line_steps a h h' :
  steps_to h h' (spec_assignment K a (settings_of (h_session h))) → missing_of a = [] → line_done a h h'.
Proof using Type.
  intros (Hf & Hok & Hl) Ha. split_and!; [done|done|]. rewrite Ha, app_nil_r.
  replace (set_h_missing (h_missing h) h) with h by (by destruct h). done.
Qed.

Lemma line_ignored h : ok (h_session h) → ∃ h', Ok h = Ok h' ∧ line_done Ignored h h'.
Proof using Type. intros Hok. exists h. split; [done|]. apply line_steps; [by apply stays|done]. Qed.

Lemma line_warned msg loc h :
  ok (h_session h) → ∃ h', Ok (hwarn msg loc h) = Ok h' ∧ line_done Ignored h h'.
Proof using Type. intros Hok. eexists. split; [done|]. apply line_steps; [by apply hwarn_steps|done]. Qed.

Lemma line_undefined name val filename linenr h :
  ok (h_session h) →
  ∃ h', Ok (undef_assign name val filename linenr h) = Ok h' ∧ line_done (Undefined name val) h h'.
Proof using Type.
  intros Hok. eexists. split; [done|]. unfold undef_assign, line_done. cbn [missing_of spec_assignment].
  destruct (h_warn_undef _); [|split_and!; [done|done|apply frame_refl]].
  destruct (hwarn_steps ("attempt to assign the value '" +:+ val +:+ "' to the undefined symbol " +:+ name)
    (Some (filename, linenr)) (set_h_missing (h_missing h ++ [(name, val)]) h)) as (H1 & H2 & H3); done.
Qed.

Lemma line_mode (infer : bool) s val filename linenr h :
  ok (h_session h) →
  ∃ h1, (if infer then assign_mode K s val filename linenr h else Ok h) = Ok h1 ∧
    steps_to h h1 (if infer then spec_mode K s val (settings_of (h_session h)) else settings_of (h_session h)).
Proof using HK. intros Hok. destruct infer; [by apply assign_mode_ok|exists h; split; [done|by apply stays]]. Qed.

Lemma line_assigned (infer : bool) s val filename linenr h :
  ok (h_session h) → forgotten K (settings_of (h_session h)) s = false →
  ∃ h', (let! h := if infer then assign_mode K s val filename linenr h else Ok h in
         assign K s val filename linenr h) = Ok h' ∧ line_done (Assign s val infer) h h'.
Proof using HK.
  intros Hok Hs. destruct (line_mode infer s val filename linenr h Hok) as (h1 & H1 & Hf1 & Hok1 & Hl1).
  rewrite H1. cbn [obind].
  destruct (assign_ok s val filename linenr h1) as (h2 & H2 & Hf2 & Hok2 & Hl2); [done| |].
  - rewrite Hl1. destruct infer; [by rewrite forgotten_mode|done].
  - exists h2. split; [done|]. apply line_steps; [|done].
    split_and!; [by eapply frame_trans|done|]. by rewrite Hl2, Hl1.
Qed.

Lemma line_forgotten (infer : bool) s val filename linenr h :
  ok (h_session h) → forgotten K (settings_of (h_session h)) s = true →
  (let! h := if infer then assign_mode K s val filename linenr h else Ok h in
   assign K s val filename linenr h) = Raise KeyError.
Proof using HK.
  intros Hok Hs. destruct (line_mode infer s val filename linenr h Hok) as (h1 & H1 & Hf1 & Hok1 & Hl1).
  rewrite H1. cbn [obind]. apply assign_forgotten. rewrite Hl1. destruct infer; [by rewrite forgotten_mode|done].
Qed.

(** One line. *)
Lemma load_line_cases filename linenr line h :
  ok (h_session h) →
  if assigns_forgotten K (settings_of (h_session h)) (line_assignment K line)
  then load_line K filename linenr line h = Raise KeyError
  else ∃ h', load_line K filename linenr line h = Ok h' ∧ line_done (line_assignment K line) h h'.
Proof using HK.
  intros Hok. unfold load_line, line_assignment. cbv zeta.
  assert (∀ (infer : bool) s val,
    if forgotten K (settings_of (h_session h)) s
    then (let! h := if infer then assign_mode K s val filename linenr h else Ok h in
          assign K s val filename linenr h) = Raise KeyError
    else ∃ h', (let! h := if infer then assign_mode K s val filename linenr h else Ok h in
          assign K s val filename linenr h) = Ok h' ∧ line_done (Assign s val infer) h h') as Hline.
  { intros infer s val. destruct (forgotten _ _ s) eqn:Hs; [by apply line_forgotten|by apply line_assigned]. }
  destruct (set_match (k_config_prefix K) (rstrip line)) as [[name val]|].
  - destruct (defined_sym K name) as [s|] eqn:Hs; [|by apply line_undefined].
    destruct (BOOL_TRISTATE (s_orig_type (sym K s))).
    + destruct (tri_val_ok _ val); [apply (Hline true)|by apply line_warned].
    + case_decide; [|apply (Hline false)].
      destruct (conf_string_match val); [apply (Hline false)|by apply line_warned].
  - destruct (unset_match (k_config_prefix K) (rstrip line)) as [name|].
    + destruct (defined_sym K name) as [s|] eqn:Hs; [|by apply line_undefined].
      destruct (BOOL_TRISTATE (s_orig_type (sym K s))); [apply (Hline false)|by apply line_ignored].
    + destruct (_ || _); [by apply line_ignored|by apply line_warned].
Qed.

Lemma load_line_ok filename linenr line h :
  ok (h_session h) → marked_ok K (settings_of (h_session h)) →
  (∀ s v i, line_assignment K line = Assign s v i → s ∈ k_unique_defined_syms K) →
  ∃ h', load_line K filename linenr line h = Ok h' ∧ line_done (line_assignment K line) h h'.
Proof using HK.
  intros Hok Hm Hin. pose proof (load_line_cases filename linenr line h Hok) as H.
  pose proof (marked_not_forgotten _ [line_assignment K line] Hm) as Hf. cbn in Hf. rewrite orb_false_r in Hf.
  rewrite Hf in H; [done|]. intros s v i Ha%list_elem_of_singleton. by eapply Hin.
Qed.

Lemma load_lines_cases filename lines linenr h :
  ok (h_session h) →
  let l := line_assignment K <$> lines in
  if existsb (assigns_forgotten K (settings_of (h_session h))) l
  then load_lines K filename linenr lines h = Raise KeyError
  else ∃ h', load_lines K filename linenr lines h = Ok h' ∧ ok (h_session h') ∧
    settings_of (h_session h') = spec_assignments K l (settings_of (h_session h)) ∧
    frame (set_h_missing (h_missing h ++ concat (missing_of <$> l)) h) h'.
Proof using HK.
  revert linenr h. induction lines as [|line lines IH]; intros linenr h Hok l.
  - exists h. split_and!; [done|done|done|]. cbn. rewrite app_nil_r.
    destruct h; apply frame_refl.
  - pose proof (load_line_cases filename linenr line h Hok) as H. cbn [existsb l fmap list_fmap load_lines].
    destruct (assigns_forgotten K _ _) eqn:Ha; [by rewrite H|]. cbn [orb]. destruct H as (h1 & H1 & Hok1 & Hl1 & Hf1).
    rewrite H1. cbn [obind]. specialize (IH (linenr + 1)%Z h1 Hok1). cbv zeta in IH.
    assert (existsb (assigns_forgotten K (settings_of (h_session h1))) (line_assignment K <$> lines)
      = existsb (assigns_forgotten K (settings_of (h_session h))) (line_assignment K <$> lines)) as Heq.
    { rewrite Hl1. clear -Ha. induction (line_assignment K <$> lines) as [|b la IHla]; [done|]. cbn [existsb].
      by rewrite forgotten_assignment, IHla. }
    rewrite Heq in IH. destruct (existsb _ _); [done|].
    destruct IH as (h2 & H2 & Hok2 & Hl2 & Hf2).
    exists h2. split_and!; [done|done|by rewrite Hl2, Hl1|].
    clear -Hf1 Hf2. unfold frame, set_h_session, set_h_missing in *. destruct h, h1, h2. cbn in *. injection Hf1; injection Hf2.
    intros; subst. by rewrite <- app_assoc.
Qed.

(** ** Whole files *)

Lemma for_each_settings (f : nat → session → outcome session) (g : nat → ustate → ustate)
    (X : settings → gset nat) l σ :
  (∀ x σ, ok σ → ∃ σ', f x σ = Ok σ' ∧ ok σ' ∧
     settings_of σ' = Settings (g x (uvals σ)) (sym_was_set σ) (choice_was_set σ)) →
  (∀ u u' A B, X (Settings u A B) = X (Settings u' A B)) → ok σ →
  ∃ σ', for_each (λ x σ, if decide (x ∈ X (settings_of σ)) then Ok σ else f x σ) l σ = Ok σ' ∧ ok σ' ∧
    settings_of σ' = Settings
      (foldl (λ u x, if decide (x ∈ X (settings_of σ)) then u else g x u) (uvals σ) l)
      (sym_was_set σ) (choice_was_set σ).
Proof using Type.
  intros Hf HX. revert σ. induction l as [|x l IH]; intros σ Hok; cbn [for_each foldl]; [by exists σ|].
  destruct (decide (x ∈ X (settings_of σ))) as [Hx|Hx]; cbn [obind]; [by apply IH|].
  destruct (Hf x σ Hok) as (σ1 & -> & Hok1 & Hl1). cbn [obind].
  destruct (IH σ1 Hok1) as (σ2 & H2 & Hok2 & Hl2). exists σ2. split_and!; [done|done|].
  rewrite Hl2. injection Hl1 as Hu Ha Hb. rewrite Ha, Hb, Hu. f_equal.
  assert (X (settings_of σ1) = X (settings_of σ)) as -> by (unfold settings_of; rewrite Ha, Hb; apply HX).
  done.
Qed.

Lemma unset_others_ok σ :
  ok σ → ∃ σ', unset_others K σ = Ok σ' ∧ ok σ' ∧ settings_of σ' = spec_unset_others K (settings_of σ).
Proof using HK.
  intros Hok. unfold unset_others.
  destruct (for_each_settings (unset_value K) del_user_value st_syms (k_unique_defined_syms K) σ)
    as (σ1 & H1 & Hok1 & Hl1); [apply unset_value_settings|done|done|].
  cbn [settings_of st_syms] in H1. rewrite H1. cbn [obind].
  destruct (for_each_settings (choice_unset_value K) del_choice_values st_chos (k_unique_choices K) σ1)
    as (σ2 & H2 & Hok2 & Hl2); [apply choice_unset_settings|done|done|].
  exists σ2. split_and!; [exact H2|done|]. rewrite Hl2. injection Hl1 as Hu Ha Hb.
  unfold spec_unset_others, settings_of. cbn [st_u st_syms st_chos]. by rewrite Hu, Ha, Hb.
Qed.

(** [_load_config] is [spec_load] on the settings, unless a line assigns a forgotten
    symbol. *)
Definition load_fails (replace : bool) (text : string) (l : settings) : bool :=
  negb replace && existsb (assigns_forgotten K l) (file_assignments K text).

Lemma load_config_file_cases w filename opened text replace h :
  ok (h_session h) → open_config w K filename h = Ok (opened, text) →
  if load_fails replace text (settings_of (h_session h))
  then load_config_file w K filename replace h = Raise KeyError
  else ∃ h', load_config_file w K filename replace h = Ok h' ∧ ok (h_session h') ∧
    settings_of (h_session h') = spec_load K replace text (settings_of (h_session h)) ∧
    h_missing h' = (if replace then [] else h_missing h)
      ++ concat (missing_of <$> file_assignments K text) ∧
    h_files h' = h_files h.
Proof using Hdef HK.
  intros Hok Hopen. unfold load_config_file. rewrite Hopen. cbn [obind].
  set (h0 := if replace then _ else h).
  assert (ok (h_session h0) ∧ settings_of (h_session h0)
    = (if replace then spec_clear K (settings_of (h_session h)) else settings_of (h_session h)) ∧
    h_missing h0 = (if replace then [] else h_missing h) ∧ h_files h0 = h_files h) as (Hok0 & Hl0 & Hm0 & Hf0).
  { unfold h0. destruct replace; [|done]. split_and!; [|done..]. by destruct Hok. }
  assert (existsb (assigns_forgotten K (settings_of (h_session h0))) (file_assignments K text)
    = load_fails replace text (settings_of (h_session h))) as Hfails.
  { rewrite Hl0. unfold load_fails. destruct replace; [|done]. apply marked_not_forgotten; [|apply assigned_defined].
    intros s. cbn. intros Hs Hd. exfalso.
    apply elem_of_difference in Hs as [_ Hs]. apply Hs. by apply elem_of_list_to_set. }
  pose proof (load_lines_cases filename (file_lines text) 1 h0 Hok0) as H. cbv zeta in H.
  change (line_assignment K <$> file_lines text) with (file_assignments K text) in H. rewrite Hfails in H.
  destruct (load_fails _ _ _); [by rewrite H|]. destruct H as (h1 & H1 & Hok1 & Hl1 & Hf1).
  rewrite H1. cbn [obind].
  assert (h_missing h1 = (if replace then [] else h_missing h) ++ concat (missing_of <$> file_assignments K text)
    ∧ h_files h1 = h_files h) as [Hm1 Hf1'].
  { split; [rewrite (frame_missing _ _ Hf1); cbn; by rewrite Hm0|by rewrite (frame_files _ _ Hf1)]. }
  destruct replace.
  - destruct (unset_others_ok (h_session h1) Hok1) as (σ' & H2 & Hok2 & Hl2).
    unfold on_session_. rewrite H2. cbn [obind]. eexists. split; [done|].
    split_and!; [done| |done|done]. change (settings_of σ' = spec_load K true text (settings_of (h_session h))).
    rewrite Hl2, Hl1, Hl0. done.
  - exists h1. split_and!; [done|done| |done|done]. by rewrite Hl1, Hl0.
Qed.

Lemma load_config_file_ok w filename opened text replace h :
  ok (h_session h) → (replace = false → marked_ok K (settings_of (h_session h))) →
  open_config w K filename h = Ok (opened, text) →
  ∃ h', load_config_file w K filename replace h = Ok h' ∧ ok (h_session h') ∧
    settings_of (h_session h') = spec_load K replace text (settings_of (h_session h)) ∧
    h_missing h' = (if replace then [] else h_missing h)
      ++ concat (missing_of <$> file_assignments K text) ∧
    h_files h' = h_files h.
Proof using Hdef HK.
  intros Hok Hm Hopen. pose proof (load_config_file_cases w filename opened text replace h Hok Hopen) as H.
  replace (load_fails replace text (settings_of (h_session h))) with false in H; [done|].
  unfold load_fails. destruct replace; [done|]. symmetry. apply marked_not_forgotten; [by apply Hm|apply assigned_defined].
Qed.
End Loading.

(** ** A loaded file replaces earlier values *)
Section Replacing.
Context {K : kconfig}.
Implicit Types l : settings.

(** Settings that agree on what has been set.  The selection of a choice in m
    mode is left out, since no assignment touches it, and that of a choice in [E]. *)
Record agreed (E : gset nat) l1 l2 : Prop := {
  ar_syms : st_syms l1 = st_syms l2;
  ar_chos : st_chos l1 = st_chos l2;
  ar_user s : s ∈ st_syms l1 → user_value (st_u l1) !! s = user_value (st_u l2) !! s;
  ar_mode c : c ∈ st_chos l1 → choice_user_value (st_u l1) !! c = choice_user_value (st_u l2) !! c;
  ar_sel c : c ∈ st_chos l1 → c ∉ E → choice_user_value (st_u l1) !! c ≠ Some 1%Z →
    user_selection (st_u l1) !! c = user_selection (st_u l2) !! c
}.

(** The assignments that lines stand for. *)
Definition assignment_ok (a : assignment) : Prop :=
  match a with
  | Assign s val true =>
      BOOL_TRISTATE (s_orig_type (sym K s)) = true ∧
      tri_val_ok (s_orig_type (sym K s)) val = true ∧ (val = "y" ∨ val = "m" ∨ val = "n")
  | Assign s val false => val = "n" ∨ BOOL_TRISTATE (s_orig_type (sym K s)) = false
  | _ => True
  end.

Lemma tri_val_first t val :
  tri_val_ok t val = true →
  tri_val_ok t (s_upto 1 val) = true ∧ (s_upto 1 val = "y" ∨ s_upto 1 val = "m" ∨ s_upto 1 val = "n").
Proof.
  unfold tri_val_ok, s_upto. destruct val as [|c r]; [by destruct t|]. cbn [startswith stake].
  assert (∀ d, startswith "" r = true ∧ startswith (String d "") (String c "") = c_eqb d c) as Hs by (split; [by destruct r|cbn; by destruct (c_eqb d c)]).
  destruct t; cbn -[c_eqb]; rewrite ?orb_false_r; try done; intros Hv;
    repeat match goal with
    | |- context [c_eqb ?a c] => destruct (c_eqb a c) eqn:?
    | H : c_eqb ?a c = true |- _ => apply Escape.c_eqb_eq in H as <-
    end; try done; tauto.
Qed.

Lemma line_assignment_ok line : assignment_ok (line_assignment K line).
Proof.
  unfold line_assignment. cbv zeta. destruct (set_match _ _) as [[name val]|].
  - destruct (defined_sym K name) as [s|]; [|done].
    destruct (BOOL_TRISTATE (s_orig_type (sym K s))) eqn:Hb.
    + destruct (tri_val_ok _ val) eqn:Hv; [|done]. split; [done|]. by apply tri_val_first.
    + case_decide; [|by right]. destruct (conf_string_match val); [by right|done].
  - destruct (unset_match _ _) as [name|]; [|done].
    destruct (defined_sym K name) as [s|]; [|done]. case_match; [by left|done].
Qed.

Lemma uok_spec_mode s val l : uok K (st_u l) → uok K (st_u (spec_mode K s val l)).
Proof.
  intros Hu. unfold spec_mode. destruct (s_choice _) as [c|]; [|done]. case_decide; [done|].
  unfold spec_choice_set_value. destruct (as_tri _) as [z|]; [|done].
  destruct (valid_for _ _) eqn:Hv; [|done]. apply uok_put_choice; [done|]. by apply valid_for_ok.
Qed.

Lemma uok_spec_set s v l : uok K (st_u l) → uok K (st_u (spec_set K s v l)).
Proof.
  intros Hu. unfold spec_set, spec_set_value. destruct (valid_for _ _) eqn:Hv; [|done].
  apply valid_for_ok in Hv. cbn [st_u].
  destruct (s_choice (sym K s)) as [c|] eqn:Hc; [|by apply uok_put_user].
  case_decide; [apply uok_put_selection; [by apply uok_put_user|done]|by apply uok_put_user].
Qed.

Lemma uok_assignment a l : uok K (st_u l) → uok K (st_u (spec_assignment K a l)).
Proof.
  intros Hu. destruct a as [s val infer| |]; [|done..]. cbn. apply uok_spec_set.
  destruct infer; [by apply uok_spec_mode|done].
Qed.

Lemma agreed_weaken E E' l1 l2 : E ⊆ E' → agreed E l1 l2 → agreed E' l1 l2.
Proof. intros HE [H1 H2 H3 H4 H5]. split; auto. Qed.

(** Setting a symbol; y also sets the selection of its choice. *)
Lemma agreed_set E s v l1 l2 :
  agreed E l1 l2 →
  (∀ c, s_choice (sym K s) = Some c → norm_value (K := K) s v = UTri 2 →
     choice_user_value (st_u l1) !! c = choice_user_value (st_u l2) !! c) →
  (∀ c, c ∈ E → s_choice (sym K s) = Some c ∧ norm_value (K := K) s v = UTri 2 ∧
     valid_for (s_orig_type (sym K s)) (UTri 2) = true) →
  agreed ∅ (spec_set K s v l1) (spec_set K s v l2).
Proof.
  intros [H1 H2 H3 H4 H5] Hc HE. unfold spec_set, spec_set_value. set (w := norm_value s v) in *.
  destruct (valid_for (s_orig_type (sym K s)) w) eqn:Hv; cbn [mark_if andb].
  2: { assert (E = ∅) as ->.
       { apply set_eq. intros c. split; [|set_solver]. intros Hin. exfalso.
         destruct (HE c Hin) as (_ & Hw & Hv'). congruence. }
       destruct (s_choice (sym K s)); by split. }
  assert (∀ X : gset nat, ∀ u1 u2 : gmap nat uval, (∀ t, t ∈ X → u1 !! t = u2 !! t) →
    ∀ t, t ∈ {[s]} ∪ X → <[s := w]> u1 !! t = <[s := w]> u2 !! t) as Hins.
  { intros X u1 u2 Hu t. destruct (decide (t = s)) as [->|]; [by rewrite !lookup_insert_eq|].
    rewrite !lookup_insert_ne by done. set_solver. }
  assert (E = ∅ ∨ ∃ c, s_choice (sym K s) = Some c ∧ w = UTri 2 ∧ E ⊆ {[c]}) as HE'.
  { destruct (decide (E = ∅)) as [|Hne]; [by left|right].
    apply set_choose_L in Hne as [c Hin]. exists c. destruct (HE c Hin) as (Hch & Hw & _).
    split_and!; [done|done|]. intros d Hd. destruct (HE d Hd) as (Hd' & _). set_solver. }
  destruct (s_choice (sym K s)) as [c|].
  - destruct (decide (w = UTri 2)) as [Hw|Hw].
    + rewrite bool_decide_true by done. cbn.
      assert (E ⊆ {[c]}) as HE2 by (destruct HE' as [->|(d & [= <-] & _ & ?)]; set_solver).
      split; cbn; [set_solver|set_solver|by apply Hins|..].
      * intros d Hd. destruct (decide (d = c)) as [->|]; [by apply Hc|apply H4; set_solver].
      * intros d Hd _ Hm. destruct (decide (d = c)) as [->|]; [by rewrite !lookup_insert_eq|].
        rewrite !lookup_insert_ne by done. apply H5; set_solver.
    + rewrite bool_decide_false by done. cbn.
      destruct HE' as [->|(d & _ & ? & _)]; [|done].
      split; cbn; [set_solver|done|by apply Hins|done|done].
  - destruct HE' as [->|(d & ? & _)]; [|done]. split; cbn; [set_solver|done|by apply Hins|done|done].
Qed.

(** Setting the mode of the choice of [s]. *)
Lemma agreed_mode s c (z : Z) val l1 l2 :
  agreed ∅ l1 l2 → s_choice (sym K s) = Some c → val ≠ "n" → as_tri (UStr val) = UTri z →
  agreed (if decide (z = 1%Z) then ∅ else {[c]}) (spec_mode K s val l1) (spec_mode K s val l2).
Proof.
  intros Hl Hc Hn Hz. unfold spec_mode, spec_choice_set_value. rewrite Hc, Hz, !(decide_False (P := val = "n")) by done.
  destruct (valid_for _ _); cbn [mark_if].
  2: { apply (agreed_weaken ∅); [set_solver|]. by destruct l1, l2. }
  destruct Hl as [H1 H2 H3 H4 H5]. split; cbn; [done|set_solver|done|..].
  - intros d Hd. destruct (decide (d = c)) as [->|]; [by rewrite !lookup_insert_eq|].
    rewrite !lookup_insert_ne by done. apply H4. set_solver.
  - intros d Hd HE. destruct (decide (d = c)) as [->|Hdc].
    + rewrite lookup_insert_eq. case_decide; [congruence|set_solver].
    + rewrite lookup_insert_ne by done. apply H5; set_solver.
Qed.

(** After y the choice has the same mode in both settings: the mode is set, or
    the choice takes no value at all. *)
Lemma mode_same s c l1 l2 :
  uok K (st_u l1) → uok K (st_u l2) → s_choice (sym K s) = Some c →
  choice_user_value (st_u (spec_mode K s "y" l1)) !! c
  = choice_user_value (st_u (spec_mode K s "y" l2)) !! c.
Proof.
  intros Hu1 Hu2 Hc. unfold spec_mode, spec_choice_set_value. rewrite Hc, !(decide_False (P := "y" = "n")) by done.
  change (as_tri (UStr "y")) with (UTri 2).
  assert (∀ u, uok K u → valid_for (c_orig_type (cho K c)) (UTri 2) = false → choice_user_value u !! c = None) as Hnone.
  { intros u Hu Hv. destruct (choice_user_value u !! c) as [z|] eqn:Hz; [|done].
    apply (uok_choice _ _ Hu) in Hz. by destruct (c_orig_type (cho K c)). }
  destruct (valid_for _ _) eqn:Hv; cbn; [by rewrite !lookup_insert_eq|by rewrite !Hnone].
Qed.

Lemma agreed_assignment a l1 l2 :
  uok K (st_u l1) → uok K (st_u l2) → assignment_ok a → agreed ∅ l1 l2 →
  agreed ∅ (spec_assignment K a l1) (spec_assignment K a l2).
Proof.
  intros Hu1 Hu2 Ha Hl. destruct a as [s val infer| |]; [|done..]. cbn [spec_assignment].
  destruct infer; cbn [assignment_ok] in Ha.
  2: { apply (agreed_set ∅); [done| |set_solver]. intros c _ Hn. exfalso. unfold norm_value in Hn.
       destruct Ha as [->|Hb]; [|by rewrite Hb in Hn]. by destruct (BOOL_TRISTATE _). }
  destruct Ha as (Hb & Hv & Ha).
  assert (norm_value (K := K) s (UStr val) = as_tri (UStr val)) as Hn by (unfold norm_value; by rewrite Hb).
  destruct (s_choice (sym K s)) as [c|] eqn:Hc.
  2: { unfold spec_mode. rewrite Hc. apply (agreed_set ∅); [done| |set_solver].
       intros c Hc'. by rewrite Hc in Hc'. }
  destruct Ha as [->|[->| ->]].
  - apply (agreed_set {[c]}).
    + by apply (agreed_mode s c 2).
    + intros d Hd _. rewrite Hc in Hd. injection Hd as <-. by apply mode_same.
    + intros d Hd. apply elem_of_singleton in Hd as ->. rewrite Hn. split_and!; [done|done|].
      by destruct (s_orig_type (sym K s)).
  - apply (agreed_set ∅); [by apply (agreed_mode s c 1)| |set_solver]. rewrite Hn. done.
  - unfold spec_mode. rewrite Hc, decide_True by done.
    apply (agreed_set ∅); [done| |set_solver]. rewrite Hn. done.
Qed.

Lemma agreed_assignments la l1 l2 :
  Forall assignment_ok la → uok K (st_u l1) → uok K (st_u l2) → agreed ∅ l1 l2 →
  agreed ∅ (spec_assignments K la l1) (spec_assignments K la l2).
Proof.
  intros Ha. revert l1 l2. induction Ha as [|a la Ha _ IH]; intros l1 l2 Hu1 Hu2 Hl; [done|].
  cbn. apply IH; [by apply uok_assignment..|by apply agreed_assignment].
Qed.

(** Assignments change nothing that they do not mark. *)
Record unmarked_same l l' : Prop := {
  um_syms s : s ∉ st_syms l' → (s ∉ st_syms l) ∧ (user_value (st_u l') !! s = user_value (st_u l) !! s);
  um_chos c : c ∉ st_chos l' → (c ∉ st_chos l) ∧
    choice_user_value (st_u l') !! c = choice_user_value (st_u l) !! c ∧
    user_selection (st_u l') !! c = user_selection (st_u l) !! c
}.

Lemma unmarked_refl l : unmarked_same l l.
Proof. by split. Qed.

Lemma unmarked_trans l1 l2 l3 : unmarked_same l1 l2 → unmarked_same l2 l3 → unmarked_same l1 l3.
Proof.
  intros [H1 H2] [H3 H4]. split.
  - intros s Hs. destruct (H3 s Hs) as [Hs' ->]. by apply H1.
  - intros c Hc. destruct (H4 c Hc) as (Hc' & -> & ->). by apply H2.
Qed.

Lemma unmarked_set s v l : unmarked_same l (spec_set K s v l).
Proof.
  unfold spec_set, spec_set_value. destruct (valid_for _ _); cbn [mark_if andb].
  2: { destruct (s_choice (sym K s)); by destruct l. }
  destruct (s_choice (sym K s)) as [c|]; [|split; cbn; [|done]].
  - case_decide as Hv; [rewrite bool_decide_true by done|rewrite bool_decide_false by done].
    + split; cbn; intros x Hx; rewrite ?lookup_insert_ne by set_solver; set_solver.
    + split; cbn; [|done]. intros x Hx; rewrite ?lookup_insert_ne by set_solver; set_solver.
  - intros x Hx; rewrite ?lookup_insert_ne by set_solver; set_solver.
Qed.

Lemma unmarked_mode s val l : unmarked_same l (spec_mode K s val l).
Proof.
  unfold spec_mode, spec_choice_set_value. destruct (s_choice (sym K s)) as [c|]; [|apply unmarked_refl].
  case_decide; [apply unmarked_refl|]. destruct (as_tri _); [|by destruct l].
  destruct (valid_for _ _); [|by destruct l].
  split; cbn; [done|]. intros x Hx. rewrite ?lookup_insert_ne by set_solver. set_solver.
Qed.

Lemma unmarked_assignments la l : unmarked_same l (spec_assignments K la l).
Proof.
  revert l. induction la as [|a la IH]; intros l; [apply unmarked_refl|]. cbn.
  eapply unmarked_trans; [|apply IH]. destruct a as [s val infer| |]; [|apply unmarked_refl..].
  cbn. eapply unmarked_trans; [|apply unmarked_set]. destruct infer; [apply unmarked_mode|apply unmarked_refl].
Qed.

Lemma foldl_keep_lookup {A} (X : gset nat) (D : list nat) (m : gmap nat A) x :
  foldl (λ m y, if decide (y ∈ X) then m else delete y m) m D !! x
  = if decide (x ∈ D ∧ x ∉ X) then None else m !! x.
Proof.
  revert m. induction D as [|y D IH]; intros m; cbn [foldl].
  - rewrite decide_False; [done|]. intros [Hx _]. by apply elem_of_nil in Hx.
  - rewrite IH. destruct (decide (y ∈ X)) as [Hy|Hy].
    + apply decide_ext. rewrite elem_of_cons. naive_solver.
    + destruct (decide (x ∈ D ∧ x ∉ X)) as [Hx|Hx].
      * rewrite decide_True; [done|]. rewrite elem_of_cons. naive_solver.
      * destruct (decide (x = y)) as [->|Hxy].
        -- rewrite lookup_delete_eq, decide_True; [done|]. rewrite elem_of_cons. naive_solver.
        -- rewrite lookup_delete_ne by done. rewrite decide_False; [done|]. rewrite elem_of_cons. naive_solver.
Qed.

Lemma spec_unset_lookup l :
  (∀ s, user_value (st_u (spec_unset_others K l)) !! s
    = if decide (s ∈ k_unique_defined_syms K ∧ s ∉ st_syms l) then None else user_value (st_u l) !! s) ∧
  (∀ c, choice_user_value (st_u (spec_unset_others K l)) !! c
    = if decide (c ∈ k_unique_choices K ∧ c ∉ st_chos l) then None else choice_user_value (st_u l) !! c) ∧
  (∀ c, user_selection (st_u (spec_unset_others K l)) !! c
    = if decide (c ∈ k_unique_choices K ∧ c ∉ st_chos l) then None else user_selection (st_u l) !! c).
Proof.
  assert (∀ (X : gset nat) (cs : list nat) (u : ustate),
    let u' := foldl (λ u c, if decide (c ∈ X) then u else del_choice_values c u) u cs in
    user_value u' = user_value u ∧
    choice_user_value u' = foldl (λ m c, if decide (c ∈ X) then m else delete c m) (choice_user_value u) cs ∧
    user_selection u' = foldl (λ m c, if decide (c ∈ X) then m else delete c m) (user_selection u) cs) as Hc.
  { intros X. induction cs as [|c cs IH]; intros u; cbn; [done|].
    destruct (IH (if decide (c ∈ X) then u else del_choice_values c u)) as (-> & -> & ->). by case_decide. }
  assert (∀ (X : gset nat) (cs : list nat) (u : ustate),
    let u' := foldl (λ u c, if decide (c ∈ X) then u else del_user_value c u) u cs in
    user_value u' = foldl (λ m c, if decide (c ∈ X) then m else delete c m) (user_value u) cs ∧
    choice_user_value u' = choice_user_value u ∧ user_selection u' = user_selection u) as Hs.
  { intros X. induction cs as [|c cs IH]; intros u; cbn; [done|].
    destruct (IH (if decide (c ∈ X) then u else del_user_value c u)) as (-> & -> & ->). by case_decide. }
  unfold spec_unset_others. cbn [st_u].
  destruct (Hc (st_chos l) (k_unique_choices K)
    (foldl (λ u s, if decide (s ∈ st_syms l) then u else del_user_value s u) (st_u l) (k_unique_defined_syms K)))
    as (-> & -> & ->).
  destruct (Hs (st_syms l) (k_unique_defined_syms K) (st_u l)) as (-> & -> & ->).
  split_and!; intros x; apply foldl_keep_lookup.
Qed.

(** Every value and mark belongs to an object that [load_config] unsets. *)
Record keys_defined l : Prop := {
  kd_user s : is_Some (user_value (st_u l) !! s) ∨ s ∈ st_syms l → s ∈ k_unique_defined_syms K;
  kd_choice c : is_Some (choice_user_value (st_u l) !! c) ∨ is_Some (user_selection (st_u l) !! c) ∨
    c ∈ st_chos l → c ∈ k_unique_choices K
}.

Lemma spec_clear_marks l :
  keys_defined l → st_syms (spec_clear K l) = ∅ ∧ st_chos (spec_clear K l) = ∅.
Proof.
  intros [H1 H2]. cbn.
  split; apply set_eq; intros x; rewrite elem_of_difference, elem_of_list_to_set; set_solver.
Qed.

(** Unsetting what is not marked removes all that differed. *)
Lemma unset_rest_eq {A} (m1 m2 r1 r2 : gmap nat A) (X : gset nat) (D : list nat) x :
  (x ∈ X → r1 !! x = r2 !! x) → (x ∉ X → r1 !! x = m1 !! x) → (x ∉ X → r2 !! x = m2 !! x) →
  (is_Some (m1 !! x) → x ∈ D) → (is_Some (m2 !! x) → x ∈ D) →
  (if decide (x ∈ D ∧ x ∉ X) then None else r1 !! x) = (if decide (x ∈ D ∧ x ∉ X) then None else r2 !! x).
Proof.
  intros H1 H2 H3 H4 H5. case_decide as Hd; [done|]. destruct (decide (x ∈ X)) as [Hx|Hx]; [auto|].
  rewrite H2, H3 by done. destruct (decide (x ∈ D)) as [HD|HD]; [by destruct Hd|].
  destruct (m1 !! x); [exfalso; eauto|]. destruct (m2 !! x); [exfalso; eauto|done].
Qed.

(** The selections of a choice: the last one of the file, or the one there was *)
Lemma mode_selection s val l : user_selection (st_u (spec_mode K s val l)) = user_selection (st_u l).
Proof.
  unfold spec_mode. destruct (s_choice _); [|done]. case_decide; [done|].
  unfold spec_choice_set_value. destruct (as_tri _); [|done]. by destruct (valid_for _ _).
Qed.

Lemma assignment_selection a l c :
  user_selection (st_u (spec_assignment K a l)) !! c
    = match selects K c a with Some s => Some s | None => user_selection (st_u l) !! c end.
Proof.
  destruct a as [s val infer| |]; [|done..]. cbn [spec_assignment selects].
  set (l0 := if infer then _ else _). replace (user_selection (st_u l)) with (user_selection (st_u l0))
    by (unfold l0; destruct infer; [apply mode_selection|done]).
  unfold spec_set, spec_set_value. destruct (valid_for _ _); cbn [st_u andb]; [|done].
  destruct (s_choice (sym K s)) as [d|]; [|by rewrite andb_false_r].
  case_decide as Hn; [rewrite (bool_decide_true (_ = UTri 2)) by done|by rewrite (bool_decide_false (_ = UTri 2))].
  cbn. destruct (decide (d = c)) as [->|Hd]; [rewrite bool_decide_true by done; apply lookup_insert_eq|].
  rewrite bool_decide_false by congruence. by apply lookup_insert_ne.
Qed.

Lemma assignments_selection la l c :
  user_selection (st_u (spec_assignments K la l)) !! c
    = match file_selection K c la with Some s => Some s | None => user_selection (st_u l) !! c end.
Proof.
  revert l. unfold file_selection. induction la as [|a la IH]; intros l; [done|]. cbn [spec_assignments foldl].
  change (foldl _ _ la) with (spec_assignments K la (spec_assignment K a l)). rewrite IH, assignment_selection.
  cbn [omap list_omap]. destruct (selects K c a); [|done]. rewrite last_cons. by destruct (last _).
Qed.

(** The selection of a choice that has a mode after loading *)
Lemma spec_load_selection text l c :
  is_Some (choice_user_value (st_u (spec_load K true text l)) !! c) →
  user_selection (st_u (spec_load K true text l)) !! c
    = match file_selection K c (file_assignments K text) with
      | Some s => Some s | None => user_selection (st_u l) !! c end.
Proof.
  unfold spec_load. destruct (spec_unset_lookup (spec_assignments K (file_assignments K text) (spec_clear K l)))
    as (_ & X2 & X3). rewrite X2, X3. case_decide; [by intros [??]|]. intros _. by rewrite assignments_selection.
Qed.

(** Nothing is left of the values that were set before. *)
Lemma spec_load_replaces text l1 l2 :
  uok K (st_u l1) → uok K (st_u l2) → keys_defined l1 → keys_defined l2 →
  let u1 := st_u (spec_load K true text l1) in
  let u2 := st_u (spec_load K true text l2) in
  user_value u1 = user_value u2 ∧ choice_user_value u1 = choice_user_value u2 ∧
  ∀ c, choice_user_value u1 !! c ≠ Some 1%Z → user_selection u1 !! c = user_selection u2 !! c.
Proof.
  intros Hu1 Hu2 Hk1 Hk2 u1 u2. unfold u1, u2, spec_load. set (la := file_assignments K text).
  destruct (spec_clear_marks l1 Hk1) as [Hs1 Hc1]. destruct (spec_clear_marks l2 Hk2) as [Hs2 Hc2].
  destruct (agreed_assignments la (spec_clear K l1) (spec_clear K l2)) as [H1 H2 H3 H4 H5]; [|exact Hu1|exact Hu2| |].
  { apply Forall_fmap, Forall_forall. intros line _. apply line_assignment_ok. }
  { split; rewrite ?Hs1, ?Hc1, ?Hs2, ?Hc2; set_solver. }
  pose proof (unmarked_assignments la (spec_clear K l1)) as [M1 M2].
  pose proof (unmarked_assignments la (spec_clear K l2)) as [N1 N2].
  cbn [spec_clear st_u] in M1, M2, N1, N2.
  set (r1 := spec_assignments K la (spec_clear K l1)) in *.
  set (r2 := spec_assignments K la (spec_clear K l2)) in *.
  destruct (spec_unset_lookup r1) as (X1 & X2 & X3). destruct (spec_unset_lookup r2) as (Y1 & Y2 & Y3).
  split_and!.
  - apply map_eq. intros s. rewrite X1, Y1, <- H1.
    apply (unset_rest_eq (user_value (st_u l1)) (user_value (st_u l2))); [apply H3|..].
    + by intros Hs; destruct (M1 s Hs) as [_ ->].
    + rewrite H1. by intros Hs; destruct (N1 s Hs) as [_ ->].
    + intros Hs. apply (kd_user _ Hk1). by left.
    + intros Hs. apply (kd_user _ Hk2). by left.
  - apply map_eq. intros c. rewrite X2, Y2, <- H2.
    apply (unset_rest_eq (choice_user_value (st_u l1)) (choice_user_value (st_u l2))); [apply H4|..].
    + by intros Hs; destruct (M2 c Hs) as (_ & -> & _).
    + rewrite H2. by intros Hs; destruct (N2 c Hs) as (_ & -> & _).
    + intros Hs. apply (kd_choice _ Hk1). by left.
    + intros Hs. apply (kd_choice _ Hk2). by left.
  - intros c. rewrite X2, X3, Y3, <- H2. case_decide as Hd; [done|]. intros Hm.
    pose proof (unset_rest_eq (user_selection (st_u l1)) (user_selection (st_u l2))
      (user_selection (st_u r1)) (user_selection (st_u r2)) (st_chos r1) (k_unique_choices K) c) as H.
    rewrite !decide_False in H by done. apply H.
    + intros Hc. apply H5; [done|set_solver|done].
    + by intros Hs; destruct (M2 c Hs) as (_ & _ & ->).
    + rewrite H2. by intros Hs; destruct (N2 c Hs) as (_ & _ & ->).
    + intros Hs. apply (kd_choice _ Hk1). right; by left.
    + intros Hs. apply (kd_choice _ Hk2). right; by left.
Qed.
End Replacing.
