(* ===== verification/Repr.v ===== *)
(** * What a script sees of a configuration

    The rest of the public interface of kconfiglib.py: the [__repr__] and [__str__]
    methods, the properties that put the definitions of an object together,
    [eval_string], the switches for warnings, and [Kconfig.__init__] as tools call
    it. *)

From S2P Require Import Prelude PyStr PyText Kconst Expr Escape Incr Objects ParseState Preproc.
From S2P Require Import Lexer Parser Printing Values Reads Session Deps Load ConfigFile.
From stdpp Require Import options.

Section Repr.
Variable K : kconfig.
Variable u : ustate.

(** ** Properties of objects with several definitions *)

(** [Symbol.orig_defaults] and [Choice.orig_defaults], [Symbol.orig_selects],
    [Symbol.orig_implies], [Symbol.orig_ranges] *)
Definition item_orig_defaults (i : item) : list (expr * expr) := nodes K i ≫= λ n, orig_defaults K (nod K n).
Definition sym_orig_selects (s : nat) : list (nat * expr) := s_nodes (sym K s) ≫= λ n, orig_selects K (nod K n).
Definition sym_orig_implies (s : nat) : list (nat * expr) := s_nodes (sym K s) ≫= λ n, orig_implies K (nod K n).
Definition sym_orig_ranges (s : nat) : list (nat * nat * expr) := s_nodes (sym K s) ≫= λ n, orig_ranges K (nod K n).

(** [Kconfig.mainmenu_text] *)
Definition mainmenu_text : outcome string :=
  match n_prompt (nod K (k_top_node K)) with Some (text, _) => Ok text | None => Raise TypeError end.

(** [Choice.str_value] *)
Definition choice_str_value (c : nat) : code string := v <- choice_tri_value K u c ;; tri_to_str v.

(** ** [__repr__] *)

Definition quoted (s : string) : string := dquote +:+ s +:+ dquote.
Definition repr_of (fields : list string) : string := "<" +:+ sjoin ", " fields +:+ ">".

Definition prompt_fields (i : item) : list string :=
  nodes K i ≫= λ n, match n_prompt (nod K n) with Some (text, _) => [quoted text] | None => [] end.
Definition location_of (n : nat) : string := n_filename (nod K n) +:+ ":" +:+ py_str (n_linenr (nod K n)).

Definition tri_field (what : string) (p : code Z) : code string :=
  v <- p ;; s <- tri_to_str v ;; Ret (what +:+ s).

(** The fields of a symbol that is not constant. *)
Definition user_value_field (s : nat) : code (list string) :=
  match user_value u !! s with
  | None => Ret []
  | Some (UTri v) =>
      if BOOL_TRISTATE (s_orig_type (sym K s)) then t <- tri_to_str v ;; Ret ["user value " +:+ t]
      else Ret ["user value " +:+ quoted (py_str v)]
  | Some (UStr t) =>
      if BOOL_TRISTATE (s_orig_type (sym K s)) then Fail KeyError else Ret ["user value " +:+ quoted t]
  end.

Definition variable_fields (s : nat) : code (list string) :=
  let S := sym K s in
  user <- user_value_field s ;;
  vis <- tri_field "visibility " (get_vis (ISym s)) ;;
  deps <- tri_field "direct deps " (expr_value K u (s_direct_dep S)) ;;
  Ret (user ++ [vis]
    ++ when (bool_decide (is_Some (s_choice S))) ["choice symbol"]
    ++ when (s_is_allnoconfig_y S) ["allnoconfig_y"]
    ++ when (bool_decide (k_defconfig_list K = Some (NSym s))) ["is the defconfig_list symbol"]
    ++ match s_env_var S with Some v => ["from environment variable " +:+ v] | None => [] end
    ++ when (bool_decide (s = k_modules K)) ["is the modules symbol"]
    ++ [deps]).

(** [Symbol.__repr__] *)
Definition symbol_repr (s : nat) : code string :=
  let S := sym K s in
  t <- symbol_type K u s ;;
  val <- get_str s ;;
  rest <- (if s_is_constant S then Ret [] else variable_fields s) ;;
  Ret (repr_of (["symbol " +:+ s_name S; TYPE_TO_STR t] ++ prompt_fields (ISym s)
    ++ ["value " +:+ (if BOOL_TRISTATE (s_orig_type S) then val else quoted val)] ++ rest
    ++ match s_nodes S with
       | [] => [if s_is_constant S then "constant" else "undefined"]
       | l => location_of <$> l
       end)).

(** [Choice.__repr__] *)
Definition choice_repr (c : nat) : code string :=
  let C := cho K c in
  t <- choice_type K c ;;
  mode <- choice_str_value c ;;
  user <- (match choice_user_value u !! c with
           | Some v => t <- tri_to_str v ;; Ret ["user mode " +:+ t]
           | None => Ret []
           end) ;;
  sel <- get_sel c ;;
  vis <- tri_field "visibility " (get_vis (ICho c)) ;;
  Ret (repr_of ([match c_name C with
                 | Some n => if bool_decide (n = "") then "choice" else "choice " +:+ n
                 | None => "choice"
                 end; TYPE_TO_STR t] ++ prompt_fields (ICho c) ++ ["mode " +:+ mode] ++ user
    ++ match sel with Some s => [s_name (sym K s) +:+ " selected"] | None => [] end
    ++ match user_selection u !! c with
       | Some s => [s_name (sym K s) +:+ " selected by user"
                      +:+ (if bool_decide (sel = Some s) then "" else " (overridden)")]
       | None => []
       end
    ++ [vis] ++ when (c_is_optional C) ["optional"] ++ (location_of <$> c_nodes C))).

(** [MenuNode.__repr__]; the item of an 'if' node is [None] and counts as a comment. *)
Definition node_repr (n : nat) : code string :=
  let N := nod K n in
  prompt <- (match n_prompt N with
             | Some (text, cond) =>
                 v <- expr_value K u cond ;; t <- tri_to_str v ;;
                 Ret ["prompt " +:+ quoted text +:+ " (visibility " +:+ t +:+ ")"]
             | None => Ret []
             end) ;;
  deps <- tri_field "deps " (expr_value K u (n_dep N)) ;;
  vis <- (match n_item N with
          | NMenu => v <- tri_field "'visible if' deps " (expr_value K u (n_visibility N)) ;; Ret [v]
          | _ => Ret []
          end) ;;
  let has_help := match n_item N with NSym _ | NCho _ => bool_decide (is_Some (n_help N)) | _ => false end in
  Ret (repr_of ([match n_item N with
                 | NSym s => "menu node for symbol " +:+ s_name (sym K s)
                 | NCho c => "menu node for choice" +:+ match c_name (cho K c) with Some m => " " +:+ m | None => "" end
                 | NMenu => "menu node for menu"
                 | NComment | NIf => "menu node for comment"
                 end]
    ++ prompt
    ++ when (match n_item N with NSym _ => n_is_menuconfig N | _ => false end) ["is menuconfig"]
    ++ [deps] ++ vis ++ when has_help ["has help"]
    ++ when (bool_decide (is_Some (n_list N))) ["has child"]
    ++ when (bool_decide (is_Some (n_next N))) ["has next"] ++ [location_of n])).

(** [Kconfig.__repr__] *)
Definition status (flag : bool) : string := if flag then "enabled" else "disabled".

Definition kconfig_repr (h : host) : outcome string :=
  let! mainmenu := mainmenu_text in
  let l := log (vals (h_session h)) in
  Ok (repr_of
    ["configuration with " +:+ py_str (Z.of_nat (length (k_syms K))) +:+ " symbols";
     "main menu prompt " +:+ quoted mainmenu;
     (if bool_decide (k_srctree K = "") then "srctree is current directory" else "srctree " +:+ quoted (k_srctree K));
     "config symbol prefix " +:+ quoted (k_config_prefix K);
     "warnings " +:+ status (warn l);
     "printing of warnings to stderr " +:+ status (warn_to_stderr l);
     "undef. symbol assignment warnings " +:+ status (h_warn_undef h);
     "overriding symbol assignment warnings " +:+ status (h_warn_override h);
     "redundant symbol assignment warnings " +:+ status (h_warn_redun h)]).

(** ** [__str__] *)

(** [Symbol.__str__] and [Choice.__str__], [MenuNode.__str__] *)
Definition item_str (i : item) : string := custom_str K (standard_sc_expr_str K) i.
Definition node_to_str (n : nat) : string := node_custom_str K (standard_sc_expr_str K) (nod K n).
End Repr.

(** ** Expressions given as text *)
Section Eval.
Variable w : world.
Variables fuel vfuel : nat.

(** [eval_string]; the warnings go to the log of the session. *)
Definition eval_string (s : string) (p : pstate) (σ : session) : outcome (Z * pstate * session) :=
  let p := set_p_filename None (set_p_log (log (vals σ)) p) in
  let! (tokens, p) := tokenize w fuel ("if " +:+ s) p in
  let p := set_p_tokens_i 1 (set_p_line s (set_p_tokens tokens p)) in
  let! (e, p) := expect_expr_and_eol p in
  let σ := set_vals (λ st, IState (cache st) (wtc st) (p_log p)) σ in
  let! (v, σ) := run_code (p_k p) vfuel (λ u, expr_value (p_k p) u e) σ in
  Ok (v, p, σ).
End Eval.

(** ** Switches for warnings *)

Definition set_warn (warn : bool) (h : host) : host :=
  set_h_session (set_vals (λ st, let l := log st in
    IState (cache st) (wtc st) (WLog warn (warn_to_stderr l) (warnings l) (stderr l))) (h_session h)) h.
Definition set_warn_to_stderr (to_stderr : bool) (h : host) : host :=
  set_h_session (set_vals (λ st, let l := log st in
    IState (cache st) (wtc st) (WLog (warn l) to_stderr (warnings l) (stderr l))) (h_session h)) h.
Definition set_warn_undef (b : bool) (h : host) : host :=
  Host (h_session h) (h_files h) (h_missing h) b (h_warn_override h) (h_warn_redun h)
    (h_old_vals h) (h_touched h) (h_stdout h).

Definition enable_warnings : host → host := set_warn true.
Definition disable_warnings : host → host := set_warn false.
Definition enable_stderr_warnings : host → host := set_warn_to_stderr true.
Definition disable_stderr_warnings : host → host := set_warn_to_stderr false.
Definition enable_undef_warnings : host → host := set_warn_undef true.
Definition disable_undef_warnings : host → host := set_warn_undef false.
Definition enable_override_warnings (h : host) : host := set_h_warn_dup true (h_warn_redun h) h.
Definition disable_override_warnings (h : host) : host := set_h_warn_dup false (h_warn_redun h) h.
Definition enable_redun_warnings (h : host) : host := set_h_warn_dup (h_warn_override h) true h.
Definition disable_redun_warnings (h : host) : host := set_h_warn_dup (h_warn_override h) false h.

(** ** Tools *)
Section Tools.
Variable w : world.

(** [Kconfig.__init__]; [argv0] is the name of the command, [sys.argv[0]]. *)
Definition kconfig_init (argv0 : string) (fuel : nat) (filename : string) (warn warn_to_stderr suppress_traceback : bool)
    : outcome pstate :=
  let cmd := if bool_decide (argv0 = "") then "" else argv0 +:+ ": " in
  match load w fuel filename warn warn_to_stderr with
  | (Raise (OSError msg) | Raise (KconfigError msg)) as r =>
      if suppress_traceback then Raise (SystemExit (cmd +:+ strip msg)) else r
  | r => r
  end.

(** [standard_kconfig]; [argument] is the positional argument, if given. *)
Definition standard_kconfig (argv0 : string) (fuel : nat) (argument : option string) : outcome pstate :=
  kconfig_init argv0 fuel (default "Kconfig" argument) true true true.

(** [Kconfig.load_allconfig] *)
Definition kconfig_load_allconfig (K : kconfig) (fuel : nat) (filename : string) : host → outcome host :=
  load_allconfig w K fuel filename.
End Tools.

(** [_decoding_error] on the fields of the exception; Python prints the data as a
    [bytes] literal, by [show_bytes]. *)
Definition decoding_error {A} (show_bytes : string → string) (encoding object : string) (start stop : nat)
    (reason filename : string) (macro_linenr : option Z) : outcome A :=
  Raise (KconfigError (nl +:+ "Malformed " +:+ encoding +:+ " in "
    +:+ match macro_linenr with
        | None => "'" +:+ filename +:+ "'"
        | Some n => "output from macro at " +:+ filename +:+ ":" +:+ py_str n
        end +:+ nl
    +:+ "Context: " +:+ show_bytes (s_slice (start - 40) (stop + 40) object) +:+ nl
    +:+ "Problematic data: " +:+ show_bytes (s_slice start stop object) +:+ nl
    +:+ "Reason: " +:+ reason)).

(** [_warn_verbose_deprecated]: what goes to stderr *)
Definition warn_verbose_deprecated (fn_name : string) : string :=
  "Deprecation warning: " +:+ fn_name +:+ "()'s 'verbose' argument has no effect. Since "
    +:+ "Kconfiglib 12.0.0, the message is returned from " +:+ fn_name +:+ "() instead, "
    +:+ "and is always generated. Do e.g. print(kconf." +:+ fn_name +:+ "()) if you want to "
    +:+ "want to show a message like " +:+ dquote +:+ "Loaded configuration '.config'" +:+ dquote +:+ " on "
    +:+ "stdout. The old API required ugly hacks to reuse messages in "
    +:+ "configuration interfaces." +:+ nl.
