(* ===== verification/ConfigWrite.v ===== *)
(** * Writing configurations: .config, autoconf.h, minimal configurations, sync_deps

    [config_string], [_config_contents], [_autoconf_contents],
    [_min_config_contents], [_str_default], [_write_if_changed], [_save_old] and
    [sync_deps] with its helpers.  [_write_to_conf] is part of the cached state of
    a session: it is read right after the value that determines it. *)

From S2P Require Import Prelude PyStr PyText Kconst Expr Escape Incr Objects ParseState.
From S2P Require Import Values Reads Session ConfigFile.
From stdpp Require Import options.

Section Write.
Variable w : world.
Variable K : kconfig.
Variable fuel : nat.

(** ** Values of symbols, with the session threaded through *)

Definition str_value (s : nat) (σ : session) : outcome (string * session) :=
  let! (v, σ) := get_prop K fuel (QStr s) σ in
  match v with VStr t => Ok (t, σ) | _ => Raise AttributeError end.

Definition tri_value (s : nat) (σ : session) : outcome (Z * session) :=
  let! (v, σ) := get_prop K fuel (QTri s) σ in
  match v with VTri z => Ok (z, σ) | _ => Raise AttributeError end.

Definition visibility_of (i : item) (σ : session) : outcome (Z * session) :=
  let! (v, σ) := get_prop K fuel (QVis i) σ in
  match v with VTri z => Ok (z, σ) | _ => Raise AttributeError end.

Definition eval_expr (e : expr) (σ : session) : outcome (Z * session) :=
  run_code K fuel (λ u, expr_value K u e) σ.

(** [sym._write_to_conf] *)
Definition write_to_conf (s : nat) (σ : session) : bool := default false (wtc (vals σ) !! ISym s).

(** ** [config_string] *)

Definition config_line (s : nat) (val : string) : string :=
  let S := sym K s in
  let lhs := k_config_prefix K +:+ s_name S in
  if BOOL_TRISTATE (s_orig_type S) then
    if bool_decide (val = "n") then "# " +:+ lhs +:+ " is not set" +:+ nl
    else lhs +:+ "=" +:+ val +:+ nl
  else if INT_HEX (s_orig_type S) then lhs +:+ "=" +:+ val +:+ nl
  else lhs +:+ "=" +:+ dquote +:+ escape val +:+ dquote +:+ nl.

Definition config_string (s : nat) (σ : session) : outcome (string * session) :=
  let! (val, σ) := str_value s σ in
  Ok (if write_to_conf s σ then config_line s val else "", σ).

(** ** [_config_contents] *)

(** Leaving menus, up to a node with a successor. *)
Fixpoint leave_menus (f n : nat) (after : bool) (acc : string) (σ : session)
    : outcome (option nat * bool * string * session) :=
  match f with
  | O => NoFuel
  | S f =>
      match n_parent (nod K n) with
      | None => Ok (None, after, acc, σ)
      | Some p =>
          let N := nod K p in
          let! (ends, σ) :=
            (if bool_decide (n_item N = NMenu) then
               let! (d, σ) := eval_expr (n_dep N) σ in
               if (d =? 0)%Z then Ok (false, σ)
               else
                 let! (v, σ) := eval_expr (n_visibility N) σ in
                 Ok (negb (v =? 0)%Z && negb (bool_decide (p = k_top_node K)), σ)
             else Ok (false, σ)) in
          let acc := if (ends : bool)
                     then acc +:+ "# end of " +:+ default "" (fst <$> n_prompt N) +:+ nl else acc in
          let after := ends || after in
          match n_next N with
          | Some m => Ok (Some m, after, acc, σ)
          | None => leave_menus f p after acc σ
          end
      end
  end.

(** The text for one node, with the set of visited symbols. *)
Definition node_contents (n : nat) (visited : gset nat) (after : bool) (acc : string) (σ : session)
    : outcome (gset nat * bool * string * session) :=
  let N := nod K n in
  match n_item N with
  | NSym s =>
      if decide (s ∈ visited) then Ok (visited, after, acc, σ)
      else
        let visited := {[s]} ∪ visited in
        let! (str, σ) := config_string s σ in
        if bool_decide (str = "") then Ok (visited, after, acc, σ)
        else Ok (visited, false, acc +:+ (if after then nl else "") +:+ str, σ)
  | item =>
      let! (d, σ) := eval_expr (n_dep N) σ in
      if (d =? 0)%Z then Ok (visited, after, acc, σ)
      else
        let! (shown, σ) :=
          (if bool_decide (item = NMenu) then
             let! (v, σ) := eval_expr (n_visibility N) σ in Ok (negb (v =? 0)%Z, σ)
           else Ok (bool_decide (item = NComment), σ)) in
        if (shown : bool) then
          Ok (visited, false,
              acc +:+ nl +:+ "#" +:+ nl +:+ "# " +:+ default "" (fst <$> n_prompt N) +:+ nl +:+ "#" +:+ nl,
              σ)
        else Ok (visited, after, acc, σ)
  end.

Fixpoint config_loop (f n : nat) (visited : gset nat) (after : bool) (acc : string) (σ : session)
    : outcome (string * session) :=
  match f with
  | O => NoFuel
  | S f =>
      let! (o, after, acc, σ) :=
        match n_list (nod K n), n_next (nod K n) with
        | Some m, _ | None, Some m => Ok (Some m, after, acc, σ)
        | None, None => leave_menus f n after acc σ
        end in
      match o with
      | None => Ok (acc, σ)
      | Some m =>
          let! (visited, after, acc, σ) := node_contents m visited after acc σ in
          config_loop f m visited after acc σ
      end
  end.

Definition config_contents (header : option string) (σ : session) : outcome (string * session) :=
  config_loop fuel (k_top_node K) ∅ false (default (k_config_header K) header) σ.

(** ** Concatenations over the defined symbols *)
Fixpoint concat_symbols (f : nat → session → outcome (string * session)) (l : list nat)
    (σ : session) : outcome (string * session) :=
  match l with
  | [] => Ok ("", σ)
  | s :: l =>
      let! (t, σ) := f s σ in
      let! (r, σ) := concat_symbols f l σ in
      Ok (t +:+ r, σ)
  end.

(** ** [_autoconf_contents] *)
Definition autoconf_line (s : nat) (val : string) : string :=
  let S := sym K s in
  let define := "#define " +:+ k_config_prefix K +:+ s_name S in
  if BOOL_TRISTATE (s_orig_type S) then
    if bool_decide (val = "y") then define +:+ " 1" +:+ nl
    else if bool_decide (val = "m") then define +:+ "_MODULE 1" +:+ nl
    else ""
  else if decide (s_orig_type S = STRING) then
    define +:+ " " +:+ dquote +:+ escape val +:+ dquote +:+ nl
  else
    let val := if bool_decide (s_orig_type S = HEX)
                  && negb (startswith "0x" val || startswith "0X" val) then "0x" +:+ val else val in
    define +:+ " " +:+ val +:+ nl.

Definition autoconf_string (s : nat) (σ : session) : outcome (string * session) :=
  let! (val, σ) := str_value s σ in
  Ok (if write_to_conf s σ then autoconf_line s val else "", σ).

Definition autoconf_contents (header : option string) (σ : session) : outcome (string * session) :=
  let! (t, σ) := concat_symbols autoconf_string (k_unique_defined_syms K) σ in
  Ok (default (k_header_header K) header +:+ t, σ).

(** ** Minimal configurations *)

(** [_str_default] *)
Definition str_default (s : nat) (u : ustate) : code string :=
  let S := sym K s in
  if BOOL_TRISTATE (s_orig_type S) then
    val <- (match s_choice S with
            | Some _ => Ret 0%Z
            | None =>
                d <- first_active K u (s_defaults S) ;;
                val <- (match d with
                        | Some (default, cond_val) => v <- expr_value K u default ;; Ret (Z.min v cond_val)
                        | None => Ret 0%Z
                        end) ;;
                rev <- expr_value K u (s_rev_dep S) ;;
                weak <- expr_value K u (s_weak_rev_dep S) ;;
                let val := Z.max (Z.max rev weak) val in
                if (val =? 1)%Z then
                  t <- symbol_type K u s ;; Ret (if decide (t = BOOL) then 2%Z else val)
                else Ret val
            end) ;;
    tri_to_str val
  else if decide (s_orig_type S = UNKNOWN) then Ret ""
  else
    d <- first_active K u (s_defaults S) ;;
    match d with
    | Some (default, _) => default_str K u default
    | None => Ret ""
    end.

(** Whether a symbol is left out of a minimal configuration. *)
Definition fixed_by_select (s : nat) (σ : session) : outcome (bool * session) :=
  match s_choice (sym K s) with
  | Some _ => Ok (false, σ)
  | None =>
      let! (v, σ) := visibility_of (ISym s) σ in
      let! (r, σ) := eval_expr (s_rev_dep (sym K s)) σ in
      Ok ((v <=? r)%Z, σ)
  end.

Definition default_choice_symbol (s : nat) (σ : session) : outcome (bool * session) :=
  match s_choice (sym K s) with
  | Some c =>
      if c_is_optional (cho K c) then Ok (false, σ)
      else
        let! (o, σ) := run_code K fuel (λ u, selection_from_defaults K u c) σ in
        if bool_decide (o = Some s) && bool_decide (s_orig_type (sym K s) = BOOL) then
          let! (v, σ) := tri_value s σ in Ok ((v =? 2)%Z, σ)
        else Ok (false, σ)
  | None => Ok (false, σ)
  end.

Definition min_config_string (s : nat) (σ : session) : outcome (string * session) :=
  let! (fixed, σ) := fixed_by_select s σ in
  if (fixed : bool) then Ok ("", σ)
  else
    let! (val, σ) := str_value s σ in
    let! (dflt, σ) := run_code K fuel (str_default s) σ in
    if bool_decide (val = dflt) then Ok ("", σ)
    else
      let! (chosen, σ) := default_choice_symbol s σ in
      if (chosen : bool) then Ok ("", σ) else config_string s σ.

Definition min_config_contents (header : option string) (σ : session) : outcome (string * session) :=
  let! (t, σ) := concat_symbols min_config_string (k_unique_defined_syms K) σ in
  Ok (default (k_config_header K) header +:+ t, σ).

(** ** Files *)

(** [_contents_eq]: the file as it reads in text mode. *)
Definition contents_eq (filename contents : string) (h : host) : bool :=
  bool_decide (open_read filename h = Some contents).

(** [_write_if_changed] *)
Definition write_if_changed (filename contents : string) : HIO bool :=
  same ← io_get (contents_eq filename contents);
  if (same : bool) then mret false else write_file w filename contents;; mret true.

(** [_save_old], with the move of [os.replace], whose errors are ignored. *)
Definition save_old (path : string) : HIO () := io_modify (λ h,
  match h_files h !! path with
  | Some text =>
      if w_replace w (h_files h) path (path +:+ ".old")
      then set_h_files (<[path +:+ ".old" := text]> (delete path (h_files h))) h else h
  | None => h
  end).

Definition write_config (filename : option string) (header : option string) (save : bool) : HIO string :=
  let filename := default (standard_config_filename w) filename in
  contents ← io_lift (on_session (config_contents header));
  same ← io_get (contents_eq filename contents);
  if (same : bool) then mret ("No change to configuration in '" +:+ filename +:+ "'")
  else
    (if save then save_old filename else mret ());;
    write_file w filename contents;;
    mret ("Configuration saved to '" +:+ filename +:+ "'").

Definition write_autoconf (filename : option string) (header : option string) : HIO string :=
  let filename := default (default "include/generated/zephyr/autoconf.h" (w_env w "KCONFIG_AUTOHEADER"))
                    filename in
  contents ← io_lift (on_session (autoconf_contents header));
  changed ← write_if_changed filename contents;
  mret ((if (changed : bool) then "Kconfig header saved to '" else "No change to Kconfig header in '")
        +:+ filename +:+ "'").

Definition write_min_config (filename : string) (header : option string) : HIO string :=
  contents ← io_lift (on_session (min_config_contents header));
  changed ← write_if_changed filename contents;
  mret ((if (changed : bool) then "Minimal configuration saved to '" else "No change to minimal configuration in '")
        +:+ filename +:+ "'").

(** ** [sync_deps] *)

Definition dep_file (path name : string) : string :=
  path +:+ "/" +:+ s_replace "_" "/" (lower name) +:+ ".h".

(** [_touch_dep_file]: the file is created or truncated. *)
Definition touch_dep_file (path name : string) : HIO () :=
  let file := dep_file path name in
  write_file w file "";;
  io_modify (λ h, set_h_touched (h_touched h ++ [file]) h).

Definition set_old_val (s : nat) (val : string) : HIO () :=
  io_modify (λ h, set_h_old_vals (<[s := val]> (h_old_vals h)) h).

(** A line of auto.conf. *)
Definition load_old_line (path line : string) : HIO () :=
  match set_match (k_config_prefix K) line with
  | None => mret ()
  | Some (name, val) =>
      match dict_get name (k_syms K) with
      | Some s =>
          if decide (s_orig_type (sym K s) = STRING) then
            match conf_string_match val with
            | Some body => set_old_val s (unescape body)
            | None => mret ()
            end
          else set_old_val s val
      | None => touch_dep_file path name
      end
  end.

(** [_load_old_vals] *)
Definition load_old_vals (path : string) : HIO () :=
  io_modify (λ h, set_h_old_vals (foldl (λ m s, delete s m) (h_old_vals h) (k_unique_defined_syms K)) h);;
  auto_conf ← io_get (open_read (path_join path "auto.conf"));
  match auto_conf with
  | Some text => io_each (load_old_line path) (file_lines text)
  | None => mret ()
  end.

(** Whether a symbol with value [val], which is written or not, has changed. *)
Definition dep_changed (s : nat) (val : string) (written : bool) (old : option string) : bool :=
  if written then
    negb (bool_decide (old = None) && BOOL_TRISTATE (s_orig_type (sym K s)) && bool_decide (val = "n"))
    && negb (bool_decide (old = Some val))
  else bool_decide (is_Some old).

Definition sync_symbol (path : string) (s : nat) : HIO () :=
  val ← io_lift (on_session (str_value s));
  changed ← io_get (λ h, dep_changed s val (write_to_conf s (h_session h)) (h_old_vals h !! s));
  if (changed : bool) then touch_dep_file path (s_name (sym K s)) else mret ().

(** [_old_vals_contents] *)
Definition old_vals_string (s : nat) (σ : session) : outcome (string * session) :=
  if BOOL_TRISTATE (s_orig_type (sym K s)) then
    let! (v, σ) := tri_value s σ in
    if (v =? 0)%Z then Ok ("", σ) else config_string s σ
  else config_string s σ.

Definition old_vals_contents (σ : session) : outcome (string * session) :=
  concat_symbols old_vals_string (k_unique_defined_syms K) σ.

(** [_write_old_vals] *)
Definition write_old_vals (path : string) : HIO () :=
  contents ← io_lift (on_session old_vals_contents);
  write_if_changed (path_join path "auto.conf") contents;;
  mret ().

Definition sync_deps (path : string) : HIO () :=
  load_old_vals path;;
  io_each (sync_symbol path) (k_unique_defined_syms K);;
  write_old_vals path.
End Write.

(** ** Running computations that write files *)

(** Every write succeeds. *)
Definition can_write (w : world) : Prop := ∀ files path text, w_write w files path text = None.

Lemma io_bind_ok {A B} (m : HIO A) (f : A → HIO B) h a h' : m h = (Ok a, h') → (m ≫= f) h = f a h'.
Proof. intros E. unfold mbind, HIO_bind. by rewrite E. Qed.
Lemma io_bind_raise {A B} (m : HIO A) (f : A → HIO B) h e h' : m h = (Raise e, h') → (m ≫= f) h = (Raise e, h').
Proof. intros E. unfold mbind, HIO_bind. by rewrite E. Qed.

Lemma io_on_session {A} (f : session → outcome (A * session)) h a σ :
  f (h_session h) = Ok (a, σ) → io_lift (on_session f) h = (Ok a, set_h_session σ h).
Proof. intros E. unfold io_lift, on_session. by rewrite E. Qed.

(** What a write leaves: the text if it succeeds; the old text or the beginning of
    the new one if it does not. *)
Lemma write_file_cases w path text h :
  (write_file w path text h = (Ok (), set_h_files (<[path := text]> (h_files h)) h)) ∨
  (∃ e, write_file w path text h = (Raise (OSError e), h)) ∨
  (∃ e n, write_file w path text h = (Raise (OSError e), set_h_files (<[path := stake n text]> (h_files h)) h)).
Proof. unfold write_file. destruct (w_write _ _ _ _) as [[e|n e]|]; eauto. Qed.

Lemma write_file_ok w path text h :
  can_write w → write_file w path text h = (Ok (), set_h_files (<[path := text]> (h_files h)) h).
Proof. intros Hw. unfold write_file. by rewrite Hw. Qed.

Lemma write_if_changed_cases w path text h :
  (open_read path h = Some text ∧ write_if_changed w path text h = (Ok false, h)) ∨
  write_if_changed w path text h = (Ok true, set_h_files (<[path := text]> (h_files h)) h) ∨
  ¬ can_write w ∧ ((∃ e, write_if_changed w path text h = (Raise (OSError e), h)) ∨
    (∃ e n, write_if_changed w path text h = (Raise (OSError e), set_h_files (<[path := stake n text]> (h_files h)) h))).
Proof.
  unfold write_if_changed. erewrite io_bind_ok by done. cbv beta.
  destruct (contents_eq path text h) eqn:He; [left; split; [by apply bool_decide_eq_true in He|done]|right].
  destruct (write_file_cases w path text h) as [Hw|[(e & Hw)|(e & n & Hw)]].
  - left. by rewrite (io_bind_ok _ _ _ _ _ Hw).
  - right. split; [intros Hall; by rewrite write_file_ok in Hw|]. left. exists e. by rewrite (io_bind_raise _ _ _ _ _ Hw).
  - right. split; [intros Hall; by rewrite write_file_ok in Hw|]. right. exists e, n. by rewrite (io_bind_raise _ _ _ _ _ Hw).
Qed.
