(* ===== verification/ConfigLines.v ===== *)
(** * The line format of .config files

    String facts about lines, and the round trip of one line: what
    [config_string] writes for a symbol, [load_config] and [_load_old_vals] take
    apart again. *)

From S2P Require Import Prelude PyStr PyText Kconst Expr Escape Incr Objects ParseState.
From S2P Require Import Values Reads Session ConfigFile ConfigSession ConfigWrite.
From stdpp Require Import options.

(** ** Strings *)

Lemma s_all_app p s t : s_all p (s +:+ t) = s_all p s && s_all p t.
Proof. induction s as [|c s IH]; [done|]. rewrite app_cons. cbn. by rewrite IH, andb_assoc. Qed.

(** [span] stops where the test first fails. *)
Lemma span_app p s t :
  s_all p s = true → match t with EmptyString => True | String c _ => p c = false end →
  span p (s +:+ t) = (s, t).
Proof.
  intros Hs Ht. induction s as [|c s IH]; cbn in *.
  - rewrite app_empty_l. destruct t as [|c t]; [done|]. cbn. by rewrite Ht.
  - apply andb_true_iff in Hs as [Hc Hs]. rewrite app_cons. cbn. by rewrite Hc, IH.
Qed.

Lemma span_all p s : s_all p s = true → span p s = (s, "").
Proof. intros Hs. rewrite <- (app_empty_r s) at 1. by apply span_app. Qed.

Lemma startswith_app s t : startswith s (s +:+ t) = true.
Proof. induction s as [|c s IH]; [done|]. rewrite app_cons. cbn. by rewrite c_eqb_refl, IH. Qed.

Lemma srev_app_acc s acc : srev_app s acc = srev s +:+ acc.
Proof.
  unfold srev. revert acc. induction s as [|c s IH]; intros acc; [done|]. cbn.
  by rewrite IH, (IH (String c "")), app_assoc_s.
Qed.

Lemma srev_cons c s : srev (String c s) = srev s +:+ one c.
Proof. unfold srev at 1. cbn. by rewrite srev_app_acc. Qed.

Lemma srev_app_str s t : srev (s +:+ t) = srev t +:+ srev s.
Proof.
  induction s as [|c s IH]; [by rewrite app_empty_l, app_empty_r|].
  by rewrite app_cons, !srev_cons, IH, app_assoc_s.
Qed.

Lemma srev_srev s : srev (srev s) = s.
Proof. induction s as [|c s IH]; [done|]. rewrite srev_cons, srev_app_str, IH. done. Qed.

Lemma srev_one c : srev (one c) = one c.
Proof. done. Qed.

(** [rstrip] removes a final newline and then stops at text without trailing
    white space. *)
Lemma rstrip_nl s : rstrip (s +:+ nl) = rstrip s.
Proof. unfold rstrip, rstrip_by. rewrite srev_app_str. done. Qed.

Lemma rstrip_snoc s c : is_pyspace c = false → rstrip (s +:+ one c) = s +:+ one c.
Proof.
  intros Hc. unfold rstrip, rstrip_by. rewrite srev_app_str, srev_one, app_one.
  cbn [lstrip_by]. by rewrite Hc, srev_cons, srev_srev.
Qed.

Lemma rstrip_app s t : rstrip t = t → t ≠ "" → rstrip (s +:+ t) = s +:+ t.
Proof.
  intros Ht Hne. assert (∃ a c, t = a +:+ one c) as (a & c & ->).
  { exists (srev (sdrop 1 (srev t))).
    destruct (srev t) as [|c r] eqn:Hr; [by rewrite <- (srev_srev t), Hr in Hne|].
    exists c. by rewrite <- (srev_srev t), Hr, srev_cons. }
  assert (is_pyspace c = false) as Hc.
  { destruct (is_pyspace c) eqn:Hc; [|done]. exfalso.
    assert (slen (rstrip (a +:+ one c)) ≤ slen a) as Hlen.
    { unfold rstrip, rstrip_by. rewrite srev_app_str, srev_one, app_one. cbn [lstrip_by]. rewrite Hc.
      assert (∀ x, slen (srev x) = slen x) as Hrev.
      { intros x. induction x as [|d x IH]; [done|]. rewrite srev_cons, slen_app, IH.
        unfold slen, one. cbn [String.length]. lia. }
      assert (∀ x, slen (lstrip_by is_pyspace x) ≤ slen x) as Hstrip.
      { intros x. induction x as [|d x IH]; [done|]. cbn [lstrip_by]. unfold slen in *. cbn [String.length].
        case_match; cbn [String.length]; lia. }
      rewrite Hrev. etrans; [apply Hstrip|]. by rewrite Hrev. }
    rewrite Ht, slen_app in Hlen. unfold slen, one in Hlen. cbn [String.length] in Hlen. lia. }
  rewrite <- app_assoc_s. by apply rstrip_snoc.
Qed.

Definition one_line (s : string) : Prop := s_all (not_c nl_c) s = true.

Lemma one_line_app s t : one_line (s +:+ t) ↔ one_line s ∧ one_line t.
Proof. unfold one_line. by rewrite s_all_app, andb_true_iff. Qed.

(** Reading a text line by line. *)
Lemma file_lines_aux_line cur l rest :
  one_line l → file_lines_aux cur (l +:+ nl +:+ rest) = (srev cur +:+ l +:+ nl) :: file_lines rest.
Proof.
  revert cur. induction l as [|c l IH]; intros cur Hl.
  - rewrite app_empty_l. unfold nl. rewrite app_cons, app_empty_l. cbn [file_lines_aux].
    rewrite c_eqb_refl. by rewrite srev_cons.
  - unfold one_line in Hl. cbn in Hl. apply andb_true_iff in Hl as [Hc Hl].
    unfold not_c in Hc. apply negb_true_iff in Hc.
    assert (c_eqb c nl_c = false) as Hc'.
    { destruct (c_eqb c nl_c) eqn:E; [|done]. apply c_eqb_eq in E as ->. by rewrite c_eqb_refl in Hc. }
    rewrite app_cons. cbn [file_lines_aux]. rewrite Hc', (IH _ Hl), srev_cons, app_assoc_s.
    by rewrite app_one, app_cons.
Qed.

Lemma file_lines_line l rest : one_line l → file_lines (l +:+ nl +:+ rest) = (l +:+ nl) :: file_lines rest.
Proof. intros Hl. unfold file_lines. by rewrite file_lines_aux_line. Qed.

(** ** Lines *)

(** A name in a .config file. *)
Definition name_ok (name : string) : Prop :=
  name ≠ "" ∧ s_all (λ c, not_c "=" c && not_c " " c && not_c nl_c c) name = true.

Lemma s_all_impl (p q : ascii → bool) s :
  (∀ c, p c = true → q c = true) → s_all p s = true → s_all q s = true.
Proof.
  intros Hpq. induction s as [|c s IH]; [done|]. cbn. rewrite !andb_true_iff. naive_solver.
Qed.

Lemma name_ok_no name c : name_ok name → c ∈ ["="%char; " "%char; nl_c] → s_all (not_c c) name = true.
Proof.
  intros [_ Hn] Hc. eapply s_all_impl; [|exact Hn]. intros d. rewrite !andb_true_iff.
  rewrite !elem_of_cons, elem_of_nil in Hc. by destruct Hc as [->|[->|[->|[]]]]; intros [[? ?] ?].
Qed.

Lemma set_match_line prefix name val rest :
  name_ok name → one_line val →
  set_match prefix (prefix +:+ name +:+ "=" +:+ val) = Some (name, val) ∧
  set_match prefix (prefix +:+ name +:+ "=" +:+ val +:+ nl +:+ rest) = Some (name, val).
Proof.
  intros Hn Hv. unfold set_match. rewrite !startswith_app, !sdrop_app.
  pose proof (name_ok_no name "=" Hn) as Heq.
  rewrite !span_app by (done || (apply Heq; by left)).
  destruct name as [|c name]; [by destruct Hn|].
  change ("=" +:+ val) with (String "=" val).
  change ("=" +:+ val +:+ nl +:+ rest) with (String "=" (val +:+ nl +:+ rest)).
  cbn iota. rewrite (span_all _ val) by done. split; [done|].
  rewrite (span_app (not_c nl_c) val (nl +:+ rest)); [done|done|].
  unfold nl. rewrite app_cons. unfold not_c. by rewrite c_eqb_refl.
Qed.

(** A line without '=' is no assignment. *)
Lemma set_match_none prefix line :
  s_all (not_c "=") line = true → set_match prefix line = None.
Proof.
  intros Hl. unfold set_match. destruct (startswith prefix line); [|done].
  assert (s_all (not_c "=") (sdrop (slen prefix) line) = true) as Hd.
  { rewrite <- (stake_drop (slen prefix) line), s_all_app, andb_true_iff in Hl. tauto. }
  rewrite (span_all _ _ Hd). by destruct (sdrop _ _).
Qed.

Lemma unset_match_line prefix name :
  name_ok name → unset_match prefix ("# " +:+ prefix +:+ name +:+ " is not set") = Some name.
Proof.
  intros Hn. unfold unset_match.
  replace ("# " +:+ prefix +:+ name +:+ " is not set")
    with (("# " +:+ prefix) +:+ name +:+ " is not set") by (by rewrite !app_assoc_s).
  rewrite startswith_app, sdrop_app.
  rewrite span_app; [|apply (name_ok_no name " " Hn); by right; left|done].
  by destruct name as [|c name]; [destruct Hn|].
Qed.


(** ** What [config_string] writes is what [load_config] reads *)

Lemma rstrip_id_app s t : rstrip t = t → t ≠ "" → rstrip (s +:+ t +:+ nl) = s +:+ t.
Proof. intros Ht Hne. rewrite <- app_assoc_s, rstrip_nl. by apply rstrip_app. Qed.

Lemma one_line_escape s : one_line s → one_line (escape s).
Proof.
  unfold one_line. induction s as [|c s IH]; [done|]. cbn [s_all]. rewrite andb_true_iff. intros [Hc Hs].
  rewrite escape_cons, s_all_app, (IH Hs), andb_true_r.
  destruct (c_eqb c bs_c); [done|]. destruct (c_eqb c dq_c); [done|].
  cbn [s_all one]. by rewrite Hc.
Qed.

Section Line.
Context {K : kconfig}.
Variable s : nat.
Hypothesis Hs : defined_sym K (s_name (sym K s)) = Some s.
Hypothesis Hname : name_ok (s_name (sym K s)).

(** The values a line can carry. *)
Definition savable (val : string) : Prop :=
  one_line val ∧
  match s_orig_type (sym K s) with
  | BOOL => val = "y" ∨ val = "n"
  | TRISTATE => val = "y" ∨ val = "m" ∨ val = "n"
  | INT | HEX => rstrip val = val
  | STRING => True
  | UNKNOWN => False
  end.

(** The prefix holds no '='. *)
Hypothesis Hprefix : s_all (not_c "=") (k_config_prefix K) = true.

Lemma rstrip_set_line rest :
  rstrip rest = rest →
  rstrip (k_config_prefix K +:+ s_name (sym K s) +:+ "=" +:+ rest +:+ nl)
  = k_config_prefix K +:+ s_name (sym K s) +:+ "=" +:+ rest.
Proof using Type.
  intros Hr. destruct (decide (rest = "")) as [->|Hne].
  - rewrite app_empty_l, app_empty_r, <- !(app_assoc_s _ (s_name (sym K s))).
    by rewrite rstrip_id_app.
  - replace (k_config_prefix K +:+ s_name (sym K s) +:+ "=" +:+ rest +:+ nl)
      with ((k_config_prefix K +:+ s_name (sym K s) +:+ "=") +:+ rest +:+ nl) by (by rewrite !app_assoc_s).
    rewrite rstrip_id_app by done. by rewrite !app_assoc_s.
Qed.

Lemma set_line rest :
  rstrip rest = rest → one_line rest →
  set_match (k_config_prefix K)
    (rstrip (k_config_prefix K +:+ s_name (sym K s) +:+ "=" +:+ rest +:+ nl))
  = Some (s_name (sym K s), rest).
Proof using Hname.
  intros Hr Hl. rewrite rstrip_set_line by done. by apply set_match_line.
Qed.

Lemma unset_line :
  rstrip ("# " +:+ (k_config_prefix K +:+ s_name (sym K s)) +:+ " is not set" +:+ nl)
  = "# " +:+ k_config_prefix K +:+ s_name (sym K s) +:+ " is not set".
Proof using Type.
  rewrite <- (app_assoc_s _ (k_config_prefix K +:+ s_name (sym K s))), rstrip_id_app by done.
  by rewrite !app_assoc_s.
Qed.

(** Reading back what [config_string] writes gives the value that was written. *)
Lemma config_line_assignment val :
  savable val →
  line_assignment K (config_line K s val)
  = Assign s val (BOOL_TRISTATE (s_orig_type (sym K s)) && negb (bool_decide (val = "n"))).
Proof using Hs Hname Hprefix.
  intros [Hl Hv]. unfold config_line, line_assignment. cbv zeta.
  destruct (BOOL_TRISTATE (s_orig_type (sym K s))) eqn:Hb.
  - assert ((val = "n") ∨ (val ≠ "n" ∧ rstrip val = val ∧ s_upto 1 val = val
      ∧ tri_val_ok (s_orig_type (sym K s)) val = true)) as [->|(Hn & Hr & Hu & Hok)].
    { destruct (s_orig_type (sym K s)); try done; [destruct Hv as [->| ->]|destruct Hv as [->|[->| ->]]];
        by (left + (right; split_and!)). }
    + rewrite bool_decide_true, unset_line by done.
      rewrite set_match_none, unset_match_line; [by rewrite Hs, Hb|done|].
      rewrite !s_all_app, Hprefix, (name_ok_no _ "=" Hname); [done|by left].
    + rewrite bool_decide_false by done. rewrite app_assoc_s, set_line by done.
      by rewrite Hs, Hb, Hok, Hu.
  - cbn [andb]. destruct (INT_HEX (s_orig_type (sym K s))) eqn:Hi.
    + rewrite app_assoc_s, set_line by (done || by destruct (s_orig_type (sym K s))).
      rewrite Hs, Hb, decide_False; [done|]. by intros Ht; rewrite Ht in Hi.
    + rewrite app_assoc_s. assert (s_orig_type (sym K s) = STRING) as Ht by (by destruct (s_orig_type (sym K s))).
      replace ("=" +:+ dquote +:+ escape val +:+ dquote +:+ nl)
        with ("=" +:+ (dquote +:+ escape val +:+ dquote) +:+ nl) by (by rewrite !app_assoc_s).
      rewrite set_line.
      * rewrite Hs, Hb, decide_True by done.
        replace (dquote +:+ escape val +:+ dquote) with (dquote +:+ escape val +:+ dquote +:+ "")
          by (by rewrite app_empty_r).
        by rewrite conf_string_match_escape, unescape_escape.
      * rewrite <- app_assoc_s. apply rstrip_app; done.
      * rewrite !one_line_app. split_and!; [done|by apply one_line_escape|done].
Qed.
End Line.
