(* ===== verification/Written.v ===== *)
(** * Which symbols are written: [_write_to_conf]

    [_write_to_conf] is assigned while a value is computed.  Under [Loaded] it is
    determined by the user values: a typed symbol is written exactly if it is
    visible, or gets its value from an active default, an imply or a select, and
    is not an environment symbol or the defconfig list. *)

From S2P Require Import Prelude PyStr Kconst Expr Incr Objects ParseState Values Reads.
From S2P Require Import Session Meaning Effects ConfigFile ConfigWrite.
From stdpp Require Import options.

Section Written.
Context {K : kconfig} {fuel : nat} {HK : Loaded K fuel}.
Variable u : ustate.

Abbreviation Evals := (evals (preset K) (body K)).
Abbreviation evl e := (ev (K := K) (fuel := fuel) u e).
Abbreviation vis s := (vis_of (K := K) (fuel := fuel) u (ISym s)).

Definition has_default (s : nat) : bool :=
  bool_decide (is_Some (active (K := K) (fuel := fuel) u (s_defaults (sym K s)))).

(** Whether a value is written, by the type of the symbol. *)
Definition written_of (s : nat) : bool :=
  let S := sym K s in
  match s_orig_type S with
  | BOOL | TRISTATE =>
      negb (vis s =? 0)%Z
      || (bool_decide (s_choice S = None)
          && (negb (default_of (K := K) (fuel := fuel) u s =? 0)%Z
              || (negb (evl (s_weak_rev_dep S) =? 0)%Z && negb (evl (s_direct_dep S) =? 0)%Z)
              || negb (evl (s_rev_dep S) =? 0)%Z))
  | UNKNOWN => false
  | _ =>
      negb (bool_decide (is_Some (s_env_var S)) || bool_decide (k_defconfig_list K = Some (NSym s)))
      && (negb (vis s =? 0)%Z || has_default s)
  end.

Hypothesis Hu : uok K u.

Abbreviation PostW s := (post_w (Evals u) (ISym s)).

(** [p] computes [a] and leaves [_write_to_conf] of [s] as [w']. *)
Definition computes_w {A} (s : nat) (w : option bool) (p : code A) (a : A) (w' : option bool) : Prop :=
  PostW s (λ b x, b = a ∧ x = w') w p.

Lemma computes_w_bind {A B} s w (p : code A) a w' (f : A → code B) Φ :
  computes_w s w p a w' → PostW s Φ w' (f a) → PostW s Φ w (prog_bind p f).
Proof using Type. intros Hp Hf. eapply post_w_bind; [exact Hp|]. by intros b x [-> ->]. Qed.

Lemma computes_w_frame {A} s w (p : code A) a :
  writes_only (λ _, False) p → computes (K := K) u p a → computes_w s w p a w.
Proof using Type. apply post_w_frame. Qed.

(** Reading something, without an assignment. *)
Lemma post_w_read {A B} s w (p : code A) a (f : A → code B) Φ :
  writes_only (λ _, False) p → computes (K := K) u p a → PostW s Φ w (f a) →
  PostW s Φ w (prog_bind p f).
Proof using Type. intros Hw Hp. by apply computes_w_bind, computes_w_frame. Qed.

Lemma writes_get_vis i : writes_only (λ _ : item, False) (get_vis i).
Proof using Type. cbn. by intros []. Qed.

Lemma post_w_vis {B} s w i (f : Z → code B) Φ :
  PostW s Φ w (f (vis_of (K := K) (fuel := fuel) u i)) → PostW s Φ w (prog_bind (get_vis i) f).
Proof using Hu HK. apply post_w_read; [apply writes_get_vis|by apply post_get_vis]. Qed.

Lemma post_w_expr {B} s w e (f : Z → code B) Φ :
  PostW s Φ w (f (evl e)) → PostW s Φ w (prog_bind (expr_value K u e) f).
Proof using Hu HK. apply post_w_read; [apply writes_expr_value|by apply computes_expr]. Qed.

Lemma post_w_active {A B} s w (l : list (A * expr)) (f : option (A * Z) → code B) Φ :
  PostW s Φ w (f (active (K := K) (fuel := fuel) u l)) → PostW s Φ w (prog_bind (first_active K u l) f).
Proof using Hu HK. apply post_w_read; [apply writes_first_active|by apply computes_active]. Qed.

(** Assignments of [True] under a condition. *)
Definition orb_w (w : option bool) (b : bool) : option bool := if b then Some true else w.

Lemma post_w_set {A} s b w (p : code A) Φ : PostW s Φ (Some b) p → PostW s Φ w (SetW (ISym s) b p).
Proof using Type. cbn [post_w]. by rewrite decide_True. Qed.

Lemma tri_defaults_w s w :
  PostW s (λ _ x, x = orb_w w
    (negb (default_of (K := K) (fuel := fuel) u s =? 0)%Z
     || (negb (evl (s_weak_rev_dep (sym K s)) =? 0)%Z && negb (evl (s_direct_dep (sym K s)) =? 0)%Z)))
    w (tri_defaults K u s).
Proof using Hu HK.
  unfold tri_defaults. apply post_w_active.
  eapply (post_w_bind _ _ (λ a x, x = orb_w w (negb (default_of (K := K) (fuel := fuel) u s =? 0)%Z))).
  - unfold default_of. destruct (active u (s_defaults (sym K s))) as [[d z]|]; [|done].
    apply post_w_expr. cbv zeta. destruct (Z.min (evl d) z =? 0)%Z; [done|]. by apply post_w_set.
  - intros v x ->. apply post_w_expr. destruct (evl (s_weak_rev_dep (sym K s)) =? 0)%Z; cbn [negb andb].
    + by rewrite orb_false_r.
    + apply post_w_expr. destruct (evl (s_direct_dep (sym K s)) =? 0)%Z; cbn [negb].
      * by rewrite orb_false_r.
      * rewrite orb_true_r. by apply post_w_set.
Qed.

Lemma tri_select_w s w val :
  PostW s (λ _ x, x = orb_w w (negb (evl (s_rev_dep (sym K s)) =? 0)%Z)) w (tri_select K u s val).
Proof using Hu HK.
  unfold tri_select. apply post_w_expr. destruct (evl (s_rev_dep (sym K s)) =? 0)%Z; [done|].
  apply post_w_expr. cbv zeta.
  destruct (_ <? _)%Z; cbn [post_w]; by rewrite decide_True.
Qed.

Lemma tri_promote_w s w val : PostW s (λ _ x, x = w) w (tri_promote K u s val).
Proof using Hu HK.
  unfold tri_promote. destruct (val =? 1)%Z; [|done].
  eapply post_w_read; [apply writes_symbol_type|by apply computes_symbol_type|].
  case_decide; [done|]. by apply post_w_expr.
Qed.

Lemma tri_body_w s w :
  BOOL_TRISTATE (s_orig_type (sym K s)) = true →
  PostW s (λ _ x, x = Some (written_of s)) w (tri_body K u s).
Proof using Hu HK.
  intros Hb. unfold tri_body. rewrite Hb. apply post_w_vis, post_w_set.
  assert (∀ b, (∀ (z : bool), z = negb (vis s =? 0)%Z → b = (z || bool_decide (s_choice (sym K s) = None)
     && (negb (default_of (K := K) (fuel := fuel) u s =? 0)%Z
         || (negb (evl (s_weak_rev_dep (sym K s)) =? 0)%Z && negb (evl (s_direct_dep (sym K s)) =? 0)%Z)
         || negb (evl (s_rev_dep (sym K s)) =? 0)%Z))) → b = written_of s) as Hw.
  { intros b Hz. unfold written_of. destruct (s_orig_type (sym K s)); try done; by apply Hz. }
  destruct (s_choice (sym K s)) as [c|] eqn:Hc.
  - assert (Some (negb (vis s =? 0)%Z) = Some (written_of s)) as Heq.
    { f_equal. apply Hw. intros z ->. rewrite bool_decide_false by done. by rewrite orb_false_r. }
    destruct (vis s =? 2)%Z; [cbn; by intros [z|t|o|l]|].
    by destruct (negb (vis s =? 0)%Z && truthy (user_value u !! s)).
  - eapply (post_w_bind _ _ (λ _ x, x = Some (negb (vis s =? 0)%Z || (negb (default_of (K := K) (fuel := fuel) u s =? 0)%Z
       || (negb (evl (s_weak_rev_dep (sym K s)) =? 0)%Z && negb (evl (s_direct_dep (sym K s)) =? 0)%Z))))).
    + assert (PostW s (λ _ x, x = Some (negb (vis s =? 0)%Z || (negb (default_of (K := K) (fuel := fuel) u s =? 0)%Z
        || (negb (evl (s_weak_rev_dep (sym K s)) =? 0)%Z && negb (evl (s_direct_dep (sym K s)) =? 0)%Z))))
        (Some (negb (vis s =? 0)%Z)) (tri_defaults K u s)) as Hdef.
      { eapply post_w_mono; [|apply tri_defaults_w]. intros _ x ->. unfold orb_w.
        by destruct (vis s =? 0)%Z, (negb _ || _). }
      unfold tri_own. destruct (user_value u !! s) as [v|]; [|exact Hdef].
      destruct (Z.eqb_spec (vis s) 0) as [H0|H0]; [exact Hdef|]. by destruct v.
    + intros val x ->.
      eapply post_w_bind; [apply tri_select_w|]. intros val' x ->.
      eapply post_w_mono; [|apply tri_promote_w]. intros _ x ->.
      unfold orb_w. f_equal.
      assert (∀ b1 b2 b3 : bool, (if b3 then Some true else Some (b1 || b2)) = Some (b1 || (b2 || b3))) as ->
        by (by intros [] [] []).
      f_equal. apply Hw. intros z ->. by rewrite bool_decide_true.
Qed.

Section Typed.
Variable s : nat.
Hypothesis Ht : BOOL_TRISTATE_UNKNOWN (s_orig_type (sym K s)) = false.

Lemma default_text_w w d z {B} (f : string → code B) Φ :
  active (K := K) (fuel := fuel) u (s_defaults (sym K s)) = Some (d, z) →
  PostW s Φ w (f (default_text_of (K := K) (fuel := fuel) u d)) →
  PostW s Φ w (prog_bind (default_str K u d) f).
Proof using Hu HK Ht.
  intros Ha. apply post_w_read; [apply writes_default_str|].
  apply (computes_default_text u Hu). eapply defaults_item; eassumption.
Qed.

Lemma num_defaults_w w base r :
  PostW s (λ _ x, x = orb_w w (has_default s)) w (num_defaults K u base s r).
Proof using Hu HK Ht.
  unfold num_defaults. apply post_w_active. unfold has_default.
  assert (∀ (p : bool * string * Z) x, PostW s (λ _ x', x' = x) x
    (let '(has_default, val, val_num) := p in
     match clamp r val_num with
     | None => Ret val
     | Some v =>
         let new := if decide (s_orig_type (sym K s) = INT) then py_str v else py_hex v in
         if (has_default : bool) then
           Warn (Ret ("default value " +:+ py_str val_num +:+ " on " +:+ name_and_loc K (ISym s)
                        +:+ " clamped to " +:+ num2str base v
                        +:+ " due to being outside the active range (" +:+ range_str base r +:+ ")"))
             (Ret new)
         else Ret new
     end)) as Hclamp.
  { intros [[has txt] n] x. destruct (clamp r n); [|done]. by destruct has. }
  destruct (active u (s_defaults (sym K s))) as [[d z]|] eqn:Ha.
  - rewrite bool_decide_true by done.
    eapply (post_w_bind _ _ (λ _ x, x = Some true)); [|intros p x ->; apply Hclamp].
    apply post_w_set. by eapply default_text_w.
  - rewrite bool_decide_false by (by intros [? ?]). apply (Hclamp (false, "", 0%Z)).
Qed.

Lemma string_defaults_w w :
  PostW s (λ _ x, x = orb_w w (has_default s)) w (string_defaults K u s).
Proof using Hu HK Ht.
  unfold string_defaults, has_default. apply post_w_active.
  destruct (active u (s_defaults (sym K s))) as [[d z]|] eqn:Ha.
  - rewrite bool_decide_true by done. eapply default_text_w; [done|]. by apply post_w_set.
  - by rewrite bool_decide_false by (by intros [? ?]).
Qed.

Lemma num_value_w base :
  let b := negb (vis s =? 0)%Z in
  PostW s (λ _ x, x = Some (b || has_default s)) (Some b) (num_value K u base s (vis s)).
Proof using Hu HK Ht.
  cbv zeta. unfold num_value. apply post_w_read with (a := range_of (K := K) (fuel := fuel) u base s);
    [apply writes_active_range|by apply computes_range|].
  set (r := range_of u base s). set (b := negb (vis s =? 0)%Z).
  assert (PostW s (λ _ x, x = Some (b || has_default s)) (Some b) (num_defaults K u base s r)) as Hdef.
  { eapply post_w_mono; [|apply num_defaults_w]. intros _ x ->. unfold orb_w. by destruct b, (has_default s). }
  destruct (user_value u !! s) as [v|] eqn:Hv; [|exact Hdef].
  destruct ((vis s =? 0)%Z || negb (truthy (Some v))) eqn:Huse; [exact Hdef|].
  apply orb_false_iff in Huse as [Hvis _]. destruct v as [|t]; [done|].
  destruct (py_int base t); [|done]. destruct (out_of_range r z); [exact Hdef|].
  cbn. unfold b. by rewrite ?Hvis.
Qed.

Lemma string_value_w :
  let b := negb (vis s =? 0)%Z in
  PostW s (λ _ x, x = Some (b || has_default s)) (Some b) (string_value K u s (vis s)).
Proof using Hu HK Ht.
  cbv zeta. unfold string_value. set (b := negb (vis s =? 0)%Z).
  assert (PostW s (λ _ x, x = Some (b || has_default s)) (Some b) (string_defaults K u s)) as Hdef.
  { eapply post_w_mono; [|apply string_defaults_w]. intros _ x ->. unfold orb_w. by destruct b, (has_default s). }
  destruct (user_value u !! s) as [v|]; [|exact Hdef].
  destruct (vis s =? 0)%Z eqn:Hvis; [exact Hdef|]. destruct v; [done|]. cbn. unfold b. by rewrite ?Hvis.
Qed.

Lemma str_body_w w : PostW s (λ _ x, x = Some (written_of s)) w (str_body K u s).
Proof using Hu HK Ht.
  unfold str_body.
  assert (BOOL_TRISTATE (s_orig_type (sym K s)) = false ∧ s_orig_type (sym K s) ≠ UNKNOWN) as [-> Hunk]
    by (by destruct (s_orig_type (sym K s))).
  rewrite decide_False by done. apply post_w_vis, post_w_set.
  set (auto := bool_decide (is_Some (s_env_var (sym K s))) || bool_decide (k_defconfig_list K = Some (NSym s))).
  assert (written_of s = negb auto && (negb (vis s =? 0)%Z || has_default s)) as ->.
  { unfold written_of. fold auto. by destruct (s_orig_type (sym K s)). }
  eapply (post_w_bind _ _ (λ _ x, x = Some (negb (vis s =? 0)%Z || has_default s))).
  - pose proof string_value_w as Hs. pose proof num_value_w as Hn.
    destruct (s_orig_type (sym K s)); first [exact Hs|exact (Hn _)].
  - intros val x ->. destruct auto; [by apply post_w_set|done].
Qed.
End Typed.
End Written.

(** ** [config_string] *)
Section ConfigString.
Context {K : kconfig} {fuel : nat} {HK : Loaded K fuel}.
Implicit Types σ : session.

(** After a property has been read it is cached. *)
Lemma get_prop_cached σ q :
  session_ok (K := K) σ →
  ∃ v σ', get_prop K fuel q σ = Ok (v, σ') ∧ prop_of (K := K) (fuel := fuel) (uvals σ) q = Ok v ∧
    session_ok (K := K) σ' ∧ uvals σ' = uvals σ ∧ cached (vals σ') q v.
Proof using HK.
  intros [Hu Hc].
  destruct (eval_correct (writer K) (preset K) (body K) ld_rank (answer_ok K) preset_typed
              (uok K) body_safe (body_writes K) (uvals σ) fuel q (vals σ) Hu Hc (ld_rank_fuel q))
    as (v & st & He & _ & Hv & Hc' & Hq & _).
  exists v, (set_vals (λ _, st) σ). unfold get_prop. rewrite He.
  split_and!; [done| |by split|done|done]. by apply (evals_prop_of _ Hu).
Qed.

(** A cached value was computed by a run whose assignments are still in force. *)
Lemma cached_written σ q v s :
  session_ok (K := K) σ → cached (vals σ) q v → preset K q = None →
  post_w (evals (preset K) (body K) (uvals σ)) (ISym s)
    (λ _ x, x = Some (written_of (K := K) (fuel := fuel) (uvals σ) s)) None (body K (uvals σ) q) →
  write_to_conf s σ = written_of (K := K) (fuel := fuel) (uvals σ) s.
Proof using Type.
  intros [Hu Hc] Hq Hp Hw. destruct (coh_just _ _ _ _ Hc _ _ Hq Hp) as (rs & es & Hr & Hok).
  eapply (post_w_runs _ _ _ None) in Hw; [|eapply runs_mono; [exact Hr|]; intros q' v' _; by apply (coh_evals _ _ _ _ Hc)].
  unfold write_to_conf. cbn in Hw. destruct (last_set (ISym s) es) as [b|] eqn:Hl; [|done].
  injection Hw as ->. by rewrite (Hok _ _ Hl).
Qed.

Lemma str_value_spec σ s :
  session_ok (K := K) σ → preset K (QTri s) = None → s_orig_type (sym K s) ≠ UNKNOWN →
  ∃ σ', str_value K fuel s σ = Ok (str_of (K := K) (fuel := fuel) (uvals σ) s, σ') ∧
    session_ok (K := K) σ' ∧ uvals σ' = uvals σ ∧
    write_to_conf s σ' = written_of (K := K) (fuel := fuel) (uvals σ) s.
Proof using HK.
  intros Hσ Hp Hunk. destruct (get_prop_cached σ (QStr s) Hσ) as (v & σ' & Hg & Hv & Hσ' & Hu' & Hq).
  exists σ'. unfold str_value. rewrite Hg. cbn.
  destruct (prop_of_total (uvals σ) (proj1 Hσ) (QStr s)) as (v' & Hv' & Hok).
  rewrite Hv in Hv'. injection Hv' as <-. destruct v as [|t| |]; try done.
  split_and!; [|done|done|].
  { unfold str_of. by rewrite Hv. }
  rewrite <- Hu'. pose proof Hσ' as [Hu1 Hc1].
  destruct (BOOL_TRISTATE (s_orig_type (sym K s))) eqn:Hb.
  - (* the value of the symbol was read *)
    destruct (coh_just _ _ _ _ Hc1 _ _ Hq eq_refl) as (rs & es & Hr & _).
    cbn [body] in Hr. unfold str_body in Hr. rewrite Hb in Hr.
    assert (∃ w, cached (vals σ') (QTri s) w) as [w Hw] by (cbn in Hr; inversion Hr; subst; eauto).
    eapply (cached_written σ' (QTri s)); [done|exact Hw|done|]. cbn [body].
    eapply post_w_bind; [by apply tri_body_w|]. by intros a x ->.
  - eapply (cached_written σ' (QStr s)); [done|exact Hq|done|]. cbn [body].
    eapply post_w_bind; [apply str_body_w; [done|by destruct (s_orig_type (sym K s))]|]. by intros a x ->.
Qed.

(** The text for a symbol depends on the user values alone. *)
Lemma config_string_spec σ s :
  session_ok (K := K) σ → preset K (QTri s) = None → s_orig_type (sym K s) ≠ UNKNOWN →
  ∃ σ', config_string K fuel s σ
      = Ok (if written_of (K := K) (fuel := fuel) (uvals σ) s
            then config_line K s (str_of (K := K) (fuel := fuel) (uvals σ) s) else "", σ') ∧
    session_ok (K := K) σ' ∧ uvals σ' = uvals σ.
Proof using HK.
  intros Hσ Hp Hunk. destruct (str_value_spec σ s Hσ Hp Hunk) as (σ' & Hg & Hσ' & Hu' & Hw).
  exists σ'. unfold config_string. rewrite Hg. cbn. by rewrite Hw.
Qed.
End ConfigString.
