(* ===== verification/Restore.v ===== *)
(** * Loading a saved configuration restates it

    Lines that assign to every written symbol the value it has -- the lines of a
    saved configuration -- leave user values that restate the configuration, in
    whatever session they are loaded.  With Reload.v: every property gets back the
    value it had when the configuration was saved. *)

From S2P Require Import Prelude PyStr Kconst Expr Incr Objects Values Reads Session.
From S2P Require Import Meaning Effects Reload ConfigFile ConfigSession ConfigWrite Written.
From stdpp Require Import options.

Section Restore.
Context {K : kconfig} {fuel : nat} {HK : Loaded K fuel}.
Variable u : ustate.
Hypothesis Hu : uok K u.

Abbreviation tri := (tri_of (K := K) (fuel := fuel) u).
Abbreviation str := (str_of (K := K) (fuel := fuel) u).
Abbreviation vis := (vis_of (K := K) (fuel := fuel) u).
Abbreviation sel := (sel_of (K := K) (fuel := fuel) u).
Abbreviation mode := (choice_of (K := K) (fuel := fuel) u).
Abbreviation written := (written_of (K := K) (fuel := fuel) u).
Abbreviation own s := (norm_value (K := K) s (UStr (str s))).

(** What a .config file can express.  A default above the visibility of its
    symbol, a user value of an environment symbol, and the mode of a choice without
    y or m symbols are not expressed by any line. *)
Record restorable : Prop := {
  ro_default s :
    BOOL_TRISTATE (s_orig_type (sym K s)) = true → s_choice (sym K s) = None →
    user_value u !! s = None → vis (ISym s) ≠ 0%Z →
    (implied_of (K := K) (fuel := fuel) u s ≤ vis (ISym s))%Z;
  ro_auto s :
    is_Some (s_env_var (sym K s)) ∨ k_defconfig_list K = Some (NSym s) → user_value u !! s = None;
  ro_idle c :
    (∀ s, s_choice (sym K s) = Some c → tri s = 0%Z) →
    choice_user_value u !! c = None ∨
    mode_with (K := K) c None (vis (ICho c)) (mod_type (K := K) (fuel := fuel) u (c_orig_type (cho K c))) = mode c
}.

(** The symbols of a choice: bool or tristate, and below the choice. *)
Definition members_ok : Prop := ∀ s c, s_choice (sym K s) = Some c →
  BOOL_TRISTATE (s_orig_type (sym K s)) = true ∧
  ∀ e, e ∈ prompt_conds K (ISym s) → EItem (ICho c) ∈ split_expr e OpAnd.

Hypothesis Hmem : members_ok.

(** ** Values and the assignments that express them *)

Lemma own_tri s : BOOL_TRISTATE (s_orig_type (sym K s)) = true → own s = UTri (tri s).
Proof using Hu HK.
  intros Hb. unfold norm_value. rewrite Hb, (str_of_eq u Hu).
  replace (match s_orig_type (sym K s) with UNKNOWN => _ | _ => _ end) with (tri_str (tri s))
    by (by destruct (s_orig_type (sym K s))).
  pose proof (tri_of_tri u Hu s) as Ht. apply is_tri_cases in Ht. by destruct Ht as [->|[->| ->]].
Qed.

Lemma own_text s : BOOL_TRISTATE (s_orig_type (sym K s)) = false → own s = UStr (str s).
Proof using Type. intros Hb. unfold norm_value. by rewrite Hb. Qed.

Lemma defined_not_preset s : s ∈ k_unique_defined_syms K → preset K (QTri s) = None.
Proof using HK.
  intros Hs. destruct (preset K (QTri s)) eqn:Hp; [|done]. exfalso.
  apply (ld_const (fuel := fuel)) in Hp. apply Hp. unfold all_items. apply elem_of_app. left.
  apply list_elem_of_fmap. by exists s.
Qed.

Lemma own_valid_tri s :
  s ∈ k_unique_defined_syms K → BOOL_TRISTATE (s_orig_type (sym K s)) = true →
  valid_for (s_orig_type (sym K s)) (own s) = true.
Proof using Hu HK.
  intros Hs Hb. rewrite own_tri by done. apply valid_for_ok.
  pose proof (tri_of_tri u Hu s) as Ht. pose proof (tri_of_bool u s Hu (defined_not_preset s Hs)) as Hm.
  destruct (s_orig_type (sym K s)) eqn:Hty; try done.
  cbn. assert (type_of (K := K) (fuel := fuel) u s = BOOL) as Htype.
  { unfold type_of, mod_type. by rewrite Hty. }
  specialize (Hm Htype). apply is_tri_cases in Ht. tauto.
Qed.

Lemma not_written s :
  written s = false → s_orig_type (sym K s) ≠ UNKNOWN →
  vis (ISym s) = 0%Z ∨ (BOOL_TRISTATE (s_orig_type (sym K s)) = false ∧
    (is_Some (s_env_var (sym K s)) ∨ k_defconfig_list K = Some (NSym s))).
Proof using Type.
  unfold written_of. intros Hw Hunk.
  assert (∀ b : bool, negb (vis (ISym s) =? 0)%Z || b = false → vis (ISym s) = 0%Z) as Hz.
  { intros b. destruct (Z.eqb_spec (vis (ISym s)) 0); [done|]. by destruct b. }
  assert (negb (bool_decide (is_Some (s_env_var (sym K s))) || bool_decide (k_defconfig_list K = Some (NSym s)))
    && (negb (vis (ISym s) =? 0)%Z || has_default (K := K) (fuel := fuel) u s) = false →
    vis (ISym s) = 0%Z ∨ (is_Some (s_env_var (sym K s)) ∨ k_defconfig_list K = Some (NSym s))) as Ha.
  { rewrite andb_false_iff, negb_false_iff, orb_true_iff, !bool_decide_eq_true.
    intros [?|?%Hz]; [by right|by left]. }
  destruct (s_orig_type (sym K s)); try done; first [left; by eapply Hz|specialize (Ha Hw); tauto].
Qed.

(** A symbol of a choice is not n only in a choice that has its value as mode. *)
Lemma member_mode s c :
  s_choice (sym K s) = Some c → s ∈ k_unique_defined_syms K → tri s ≠ 0%Z → mode c = tri s.
Proof using Hu HK Hmem.
  intros Hc Hs Ht. destruct (Hmem s c Hc) as [Hb Hg].
  rewrite (tri_of_eq u Hu s (defined_not_preset s Hs) Hb), Hc in Ht |- *. unfold choice_symbol_of in *.
  pose proof (choice_symbol_not_m u s c Hu Hc) as Hn1.
  destruct (Z.eqb_spec (vis (ISym s)) 2) as [H2|H2].
  - destruct (decide (sel c = Some s)) as [Hsel|]; [|done]. by apply (selected_visible u c s Hu) in Hsel as [? _].
  - destruct (Z.eqb_spec (vis (ISym s)) 0) as [H0|H0]; [done|]. cbn [negb andb] in *.
    destruct (truthy (user_value u !! s)); [|done].
    pose proof (vis_of_tri u Hu (ISym s)) as Hv. apply is_tri_cases in Hv.
    assert (vis (ISym s) = 1%Z) as Hv1 by tauto.
    pose proof (choice_of_tri u Hu c) as Hm. apply is_tri_cases in Hm.
    assert (mode c ≠ 0%Z); [|tauto]. intros Hm0. apply H0.
    rewrite (vis_of_sym u Hu s). cbv zeta.
    assert (max_of (K := K) (fuel := fuel) u (prompt_conds K (ISym s)) = 0%Z) as ->; [|by case_match].
    clear -Hg Hm0 Hu HK. induction (prompt_conds K (ISym s)) as [|e l IH]; [done|].
    change (max_of u (e :: l)) with (Z.max (ev (K := K) (fuel := fuel) u e) (max_of (K := K) (fuel := fuel) u l)).
    rewrite IH by (intros e' He'; apply Hg; by apply elem_of_cons; right).
    assert (ev (K := K) (fuel := fuel) u e = 0%Z) as ->; [|done].
    pose proof (ev_tri u Hu e) as Htri. unfold is_tri in Htri.
    assert (ev (K := K) (fuel := fuel) u e ≤ mode c)%Z; [|lia].
    specialize (Hg e (proj2 (elem_of_cons _ _ _) (or_introl eq_refl))).
    by apply (conjunct_le u e (EItem (ICho c))).
Qed.

(** ** The assignments of a saved configuration *)

(** Assignments of own values, for every written symbol. *)
Record saves (la : list assignment) : Prop := {
  sv_own s val b : Assign s val b ∈ la →
    s ∈ k_unique_defined_syms K ∧ written s = true ∧ val = str s ∧
    b = BOOL_TRISTATE (s_orig_type (sym K s)) && negb (bool_decide (val = "n"));
  sv_all s : s ∈ k_unique_defined_syms K → written s = true →
    ∃ b, Assign s (str s) b ∈ la
}.

(** What such assignments leave behind. *)
Record own_settings (l : settings) : Prop := {
  os_uok : uok K (st_u l);
  os_sym s : s ∈ st_syms l → s ∈ k_unique_defined_syms K ∧ written s = true ∧
    user_value (st_u l) !! s = Some (own s);
  os_cho c : c ∈ st_chos l → mode c ≠ 0%Z;
  os_mode c : c ∈ st_chos l →
    choice_user_value (st_u l) !! c = Some (mode c) ∨
    (valid_for (c_orig_type (cho K c)) (UTri (mode c)) = false ∧ choice_user_value (st_u l) !! c = None);
  os_sel c : c ∈ st_chos l → mode c = 2%Z → is_Some (sel c) ∧ user_selection (st_u l) !! c = sel c
}.

(** A value that the choice of its symbol does not accept as a mode. *)
Lemma rejected_mode w c : uok K w → mode c ≠ 0%Z →
  valid_for (c_orig_type (cho K c)) (UTri (mode c)) = false → choice_user_value w !! c = None.
Proof using Hu HK.
  intros Hw Hm Hv. destruct (choice_user_value w !! c) as [z|] eqn:Hz; [|done]. exfalso.
  pose proof (uok_choice _ _ Hw _ _ Hz) as Hok. pose proof (choice_of_tri u Hu c) as Ht.
  apply is_tri_cases in Ht.
  destruct (c_orig_type (cho K c)) eqn:Hty; try done.
  - assert (mode c ≠ 1%Z) as Hn1.
    { rewrite mode_with_eq. unfold mode_with, mod_type. rewrite Hty, decide_False by done.
      rewrite bool_decide_true by done. rewrite andb_true_r.
      destruct (Z.eqb_spec (Z.min (Z.max (if c_is_optional (cho K c) then 0%Z else 1%Z)
        (default 0%Z (choice_user_value u !! c))) (vis (ICho c))) 1); [done|]. done. }
    destruct Ht as [?|[?|Ht]]; [done..|]. by rewrite Ht in Hv.
  - destruct Ht as [Ht|[Ht|Ht]]; rewrite Ht in Hv; done.
Qed.

(** Assigning to a symbol outside choices. *)
Lemma own_step_plain s l :
  own_settings l → s ∈ k_unique_defined_syms K → written s = true → s_choice (sym K s) = None →
  own_settings (spec_set K s (UStr (str s)) l).
Proof using Hu HK Hmem.
  intros Hl Hs Hw Hc. pose proof (uok_spec_set s (UStr (str s)) l (os_uok l Hl)) as Hok.
  unfold spec_set, spec_set_value in *. rewrite Hc in *.
  destruct (valid_for _ _); cbn [mark_if] in *; [|destruct Hl; by split].
  destruct Hl as [H1 H2 H3 H4 H5]. split; cbn; [done| |done..].
  intros t Ht. destruct (decide (t = s)) as [->|Hne]; [by rewrite lookup_insert_eq|].
  rewrite lookup_insert_ne by done. apply H2. set_solver.
Qed.

Lemma member_selected s c :
  s_choice (sym K s) = Some c → s ∈ k_unique_defined_syms K → tri s = 2%Z → sel c = Some s.
Proof using Hu HK Hmem.
  intros Hc Hs. destruct (Hmem s c Hc) as [Hb _].
  rewrite (tri_of_eq u Hu s (defined_not_preset s Hs) Hb), Hc. unfold choice_symbol_of.
  repeat case_match; done.
Qed.

(** Settings with the value of a symbol added, and the mode and selection of its
    choice. *)
Lemma own_extend s c l l' :
  own_settings l → s ∈ k_unique_defined_syms K → written s = true → mode c ≠ 0%Z →
  uok K (st_u l') → st_syms l' = {[s]} ∪ st_syms l →
  user_value (st_u l') = <[s := own s]> (user_value (st_u l)) →
  st_chos l' ⊆ {[c]} ∪ st_chos l →
  (choice_user_value (st_u l') = <[c := mode c]> (choice_user_value (st_u l)) ∨
   (choice_user_value (st_u l') = choice_user_value (st_u l) ∧
    valid_for (c_orig_type (cho K c)) (UTri (mode c)) = false)) →
  (user_selection (st_u l') = <[c := s]> (user_selection (st_u l)) ∧ sel c = Some s ∨
   user_selection (st_u l') = user_selection (st_u l) ∧ mode c ≠ 2%Z) →
  own_settings l'.
Proof using Hu HK Hmem.
  intros [H1 H2 H3 H4 H5] Hs Hw Hm Hok Es Eu Ec Em Esel. split; [done|..].
  - intros t. rewrite Es, Eu. intros Hin. destruct (decide (t = s)) as [->|Hne]; [by rewrite lookup_insert_eq|].
    rewrite lookup_insert_ne by done. apply H2. set_solver.
  - intros d Hd. destruct (decide (d = c)) as [->|]; [done|apply H3; set_solver].
  - intros d Hd. destruct (decide (d = c)) as [->|Hdc].
    + destruct Em as [->|[_ Hv]]; [left; by rewrite lookup_insert_eq|right; split; [done|]].
      by apply rejected_mode.
    + destruct Em as [->|[-> _]]; rewrite ?lookup_insert_ne by done; apply H4; set_solver.
  - intros d Hd Hd2. destruct (decide (d = c)) as [->|Hdc].
    + destruct Esel as [[-> Hsel]|[_ ?]]; [|done]. rewrite lookup_insert_eq, Hsel. by eauto.
    + destruct Esel as [[-> _]|[-> _]]; rewrite ?lookup_insert_ne by done; apply H5; set_solver.
Qed.

(** Assigning to a symbol of a choice. *)
Lemma own_step_member s c l :
  own_settings l → s ∈ k_unique_defined_syms K → written s = true → s_choice (sym K s) = Some c →
  own_settings (spec_set K s (UStr (str s))
    (if negb (bool_decide (str s = "n")) then spec_mode K s (str s) l else l)).
Proof using Hu HK Hmem.
  intros Hl Hs Hw Hc. destruct (Hmem s c Hc) as [Hb _].
  pose proof (own_tri s Hb) as Hown. pose proof (own_valid_tri s Hs Hb) as Hval.
  pose proof Hown as Has. unfold norm_value in Has. rewrite Hb in Has.
  set (l1 := if negb _ then _ else _).
  assert (uok K (st_u l1)) as Hok1.
  { unfold l1. destruct (negb _); [apply uok_spec_mode|]; apply Hl. }
  pose proof (uok_spec_set s (UStr (str s)) l1 Hok1) as Hok.
  unfold spec_set, spec_set_value in *. rewrite Hval, Hc in *. cbn [mark_if andb] in *.
  assert (str s = tri_str (tri s)) as Hstr by (rewrite (str_of_eq u Hu); by destruct (s_orig_type (sym K s))).
  pose proof (tri_of_tri u Hu s) as Ht. apply is_tri_cases in Ht.
  destruct (decide (tri s = 0%Z)) as [H0|H0].
  - (* n: the choice is left alone *)
    rewrite Hown, H0, decide_False, bool_decide_false by done.
    unfold l1. rewrite Hstr, H0. cbn. destruct Hl as [H1 H2 H3 H4 H5].
    split; cbn; [by apply uok_put_user; [|rewrite <- H0, <- Hown; apply valid_for_ok]| |done..].
    intros t Hin. destruct (decide (t = s)) as [->|Hne]; [by rewrite lookup_insert_eq, Hown, H0|].
    rewrite lookup_insert_ne by done. apply H2. set_solver.
  - pose proof (member_mode s c Hc Hs H0) as Hm.
    assert (str s ≠ "n") as Hn by (rewrite Hstr; destruct Ht as [Ht|[Ht|Ht]]; [done|by rewrite Ht..]).
    assert (spec_mode K s (str s) l = (if valid_for (c_orig_type (cho K c)) (UTri (mode c))
      then Settings (put_choice_value c (mode c) (st_u l)) (st_syms l) ({[c]} ∪ st_chos l) else l)) as Hl1.
    { unfold spec_mode, spec_choice_set_value. rewrite Hc, decide_False, Has, Hm by done.
      destruct (valid_for (c_orig_type (cho K c)) _); [done|by destruct l]. }
    unfold l1 in *. rewrite bool_decide_false in * by done. cbn [negb] in *. rewrite Hl1 in *.
    rewrite Hown in *. destruct (valid_for (c_orig_type (cho K c)) (UTri (mode c))) eqn:Hv;
      (apply (own_extend s c l); [exact Hl|exact Hs|exact Hw|congruence|exact Hok|..]);
      rewrite ?Hown; try rewrite Hv; cbn; try done.
    all: destruct Ht as [Ht|[Ht|Ht]]; [done|rewrite Ht..].
    all: rewrite ?(decide_True (P := UTri 2 = UTri 2)), ?(bool_decide_true (UTri 2 = UTri 2)),
      ?(decide_False (P := UTri 1 = UTri 2)), ?(bool_decide_false (UTri 1 = UTri 2)) by done.
    all: cbn; first [done|set_solver|by left|by right|idtac].
    all: first [right; split; [done|by rewrite Hm, Ht]|left; split; [done|by apply member_selected]].
Qed.

(** ** Folding the assignments *)

Lemma own_step la a l : saves la → a ∈ la → own_settings l → own_settings (spec_assignment K a l).
Proof using Hu HK Hmem.
  intros Hla Ha Hl. destruct a as [s val b| |]; [|done..]. cbn [spec_assignment].
  destruct (sv_own la Hla _ _ _ Ha) as (Hs & Hw & -> & ->).
  destruct (s_choice (sym K s)) as [c|] eqn:Hc.
  - destruct (Hmem s c Hc) as [Hb _]. rewrite Hb. cbn [andb]. by apply (own_step_member s c).
  - assert (spec_mode K s (str s) l = l) as -> by (unfold spec_mode; by rewrite Hc).
    destruct (_ && _); by apply own_step_plain.
Qed.

Lemma own_steps la' la l : saves la → (∀ a, a ∈ la' → a ∈ la) → own_settings l →
  own_settings (spec_assignments K la' l).
Proof using Hu HK Hmem.
  intros Hla. revert l. induction la' as [|a la' IH]; intros l Hin Hl; [done|]. cbn.
  apply IH; [set_solver|]. eapply own_step; [done| |done]. set_solver.
Qed.

(** Marks are never removed, and accepted assignments leave one. *)
Lemma marks_grow la l :
  st_syms l ⊆ st_syms (spec_assignments K la l) ∧ st_chos l ⊆ st_chos (spec_assignments K la l).
Proof using Type.
  destruct (unmarked_assignments (K := K) la l) as [H1 H2].
  split; intros x Hx; apply dec_stable; intros Hn; [by destruct (H1 x Hn)|by destruct (H2 x Hn)].
Qed.

Lemma assigned_marks la l s val b :
  Assign s val b ∈ la → valid_for (s_orig_type (sym K s)) (norm_value (K := K) s (UStr val)) = true →
  s ∈ st_syms (spec_assignments K la l) ∧
  ∀ c, s_choice (sym K s) = Some c → norm_value (K := K) s (UStr val) = UTri 2 →
    c ∈ st_chos (spec_assignments K la l).
Proof using u Hu Hmem.
  intros Ha Hv. apply list_elem_of_split in Ha as (l1 & l2 & ->).
  unfold spec_assignments. rewrite foldl_app. cbn [foldl].
  set (l0 := foldl _ l l1). destruct (marks_grow l2 (spec_assignment K (Assign s val b) l0)) as [G1 G2].
  unfold spec_assignments in G1, G2.
  assert (∀ l', st_syms (spec_set K s (UStr val) l') = {[s]} ∪ st_syms l' ∧
    (∀ c, s_choice (sym K s) = Some c → norm_value (K := K) s (UStr val) = UTri 2 →
      c ∈ st_chos (spec_set K s (UStr val) l'))) as Hset.
  { intros l'. unfold spec_set, spec_set_value. rewrite Hv. split; [done|].
    intros c Hc Ht. rewrite Hc, Ht, bool_decide_true by done. cbn. set_solver. }
  split; [apply G1|intros c Hc Ht; apply G2]; cbn [spec_assignment]; [rewrite (proj1 (Hset _)); set_solver|by apply Hset].
Qed.

Lemma mode_marks la l s val c z :
  Assign s val true ∈ la → s_choice (sym K s) = Some c → val ≠ "n" → as_tri (UStr val) = UTri z →
  valid_for (c_orig_type (cho K c)) (UTri z) = true → c ∈ st_chos (spec_assignments K la l).
Proof using u Hu Hmem.
  intros Ha Hc Hn Hz Hv. apply list_elem_of_split in Ha as (l1 & l2 & ->).
  unfold spec_assignments. rewrite foldl_app. cbn [foldl].
  set (l0 := foldl _ l l1). destruct (marks_grow l2 (spec_assignment K (Assign s val true) l0)) as [_ G2].
  unfold spec_assignments in G2. apply G2. cbn [spec_assignment].
  apply dec_stable. intros Hnot. apply (um_chos _ _ (unmarked_set (K := K) s (UStr val) _)) in Hnot as [Hnot _].
  apply Hnot. unfold spec_mode, spec_choice_set_value. rewrite Hc, decide_False, Hz, Hv by done. cbn. set_solver.
Qed.

(** ** What is loaded restates the configuration *)
Section Loaded.
Variable text : string.
Variable l0 : settings.
Hypothesis Hro : restorable.
Hypothesis Hsaves : saves (file_assignments K text).
Hypothesis Hu0 : uok K (st_u l0).
Hypothesis Hk0 : keys_defined (K := K) l0.
(** The user values that were saved belong to defined symbols. *)
Hypothesis Hku : ∀ s, is_Some (user_value u !! s) → s ∈ k_unique_defined_syms K.
Hypothesis Htyped : ∀ s, s ∈ k_unique_defined_syms K → s_orig_type (sym K s) ≠ UNKNOWN.

(** Constants are not in choices. *)
Hypothesis Hconst : ∀ s c, s_choice (sym K s) = Some c → preset K (QTri s) = None.

Let la := file_assignments K text.
Let l1 := spec_assignments K la (spec_clear K l0).
Let u' := st_u (spec_load K true text l0).

Lemma loaded_own : own_settings l1.
Proof using Hconst Htyped Hro Hku Hu HK Hmem Hsaves Hu0 Hk0.
  apply (own_steps la la); [done|done|]. destruct (spec_clear_marks l0 Hk0) as [H1 H2].
  split; [done|..]; intros x; rewrite ?H1, ?H2; set_solver.
Qed.

(** User values after loading. *)
Lemma loaded_user s :
  user_value u' !! s = if decide (s ∈ st_syms l1) then Some (own s) else None.
Proof using Hconst Htyped Hro Hku Hu HK Hmem Hsaves Hu0 Hk0.
  pose proof loaded_own as Hown. unfold u', spec_load. fold la l1.
  destruct (spec_unset_lookup (K := K) l1) as (-> & _ & _).
  destruct (unmarked_assignments (K := K) la (spec_clear K l0)) as [M _]. fold l1 in M.
  destruct (decide (s ∈ st_syms l1)) as [Hs|Hs].
  - rewrite decide_False by (by intros [_ ?]). by destruct (os_sym l1 Hown s Hs) as (_ & _ & ?).
  - case_decide as Hd; [done|]. destruct (M s Hs) as [_ ->]. cbn.
    destruct (user_value (st_u l0) !! s) eqn:Hv; [|done]. exfalso. apply Hd. split; [|done].
    apply (kd_user _ Hk0). left. by eexists.
Qed.

Lemma loaded_choice c :
  (c ∈ st_chos l1 → choice_user_value u' !! c = choice_user_value (st_u l1) !! c ∧
     user_selection u' !! c = user_selection (st_u l1) !! c) ∧
  (c ∉ st_chos l1 → choice_user_value u' !! c = None ∧ user_selection u' !! c = None).
Proof using Hu HK Hmem Hsaves Hu0 Hk0.
  unfold u', spec_load. fold la l1. destruct (spec_unset_lookup (K := K) l1) as (_ & -> & ->).
  destruct (unmarked_assignments (K := K) la (spec_clear K l0)) as [_ M]. fold l1 in M.
  split; intros Hc; [by rewrite !decide_False by (by intros [_ ?])|].
  destruct (M c Hc) as (_ & -> & ->). cbn. case_decide as Hd; [done|].
  assert (c ∉ k_unique_choices K) as Hn by naive_solver.
  destruct (choice_user_value (st_u l0) !! c) eqn:H1.
  { exfalso. apply Hn. apply (kd_choice _ Hk0). left. by eexists. }
  destruct (user_selection (st_u l0) !! c) eqn:H2; [|done].
  exfalso. apply Hn. apply (kd_choice _ Hk0). right; left. by eexists.
Qed.

(** A written symbol whose value has the form of its type is set. *)
Lemma loaded_mark s :
  s ∈ k_unique_defined_syms K → written s = true → valid_for (s_orig_type (sym K s)) (own s) = true →
  s ∈ st_syms l1.
Proof using Hu HK Hmem Hsaves.
  intros Hs Hw Hv. destruct (sv_all _ Hsaves s Hs Hw) as [b Hb].
  by destruct (assigned_marks la (spec_clear K l0) s (str s) b Hb Hv).
Qed.

Lemma unset_symbol s :
  s ∉ st_syms l1 →
  user_value u !! s = None ∨ vis (ISym s) = 0%Z ∨
  (s ∈ k_unique_defined_syms K ∧ valid_for (s_orig_type (sym K s)) (own s) = false).
Proof using Hu HK Hmem Hsaves Hro Hku Htyped.
  intros Hs. destruct (decide (s ∈ k_unique_defined_syms K)) as [Hd|Hd].
  - destruct (written s) eqn:Hw.
    + right; right. split; [done|]. destruct (valid_for _ _) eqn:Hv; [|done]. by destruct Hs; apply loaded_mark.
    + destruct (not_written s Hw (Htyped s Hd)) as [?|[_ Ha]]; [by right; left|left].
      by apply (ro_auto Hro).
  - left. destruct (user_value u !! s) eqn:Hv; [|done]. exfalso. apply Hd, Hku. by eexists.
Qed.

(** A selected symbol is y; symbols that are not n are defined. *)
Lemma member_not_preset s c : s_choice (sym K s) = Some c → preset K (QTri s) = None.
Proof using Hconst. apply Hconst. Qed.

Lemma selected_y s c :
  user_selection u !! c = Some s → mode c = 2%Z → vis (ISym s) ≠ 0%Z → tri s = 2%Z.
Proof using Hu HK Hmem Hconst.
  intros Hs Hm Hv. pose proof (uok_sel _ _ Hu _ _ Hs) as Hcs. destruct (Hmem s c Hcs) as [Hb _].
  rewrite (choice_symbol_value u s c Hu Hcs (member_not_preset s c Hcs) Hb Hm).
  rewrite decide_True; [done|]. split; [|done]. rewrite (sel_of_eq u Hu), Hm, Hs. cbn.
  unfold visible. by rewrite (proj2 (Z.eqb_neq _ _) Hv).
Qed.

Lemma member_defined s c :
  s_choice (sym K s) = Some c → tri s ≠ 0%Z → s ∈ k_unique_defined_syms K.
Proof using Hu HK Hmem Hconst.
  intros Hc Ht. destruct (Hmem s c Hc) as [Hb _].
  rewrite (tri_of_eq u Hu s (member_not_preset s c Hc) Hb), Hc in Ht. unfold choice_symbol_of in Ht.
  assert (ISym s ∈ all_items K) as Hin.
  { apply (ld_prompt (fuel := fuel)). intros Hp. apply Ht.
    assert (vis (ISym s) = 0%Z) as ->; [|done]. rewrite (vis_of_sym u Hu s), Hp.
    cbv zeta. by destruct (hidden_of _ _ _). }
  unfold all_items in Hin. apply elem_of_app in Hin as [Hin|Hin]; apply list_elem_of_fmap in Hin as (x & Hx & ?); by simplify_eq.
Qed.

(** A member of a choice that is not n. *)
Lemma set_member s c :
  s_choice (sym K s) = Some c → s ∈ k_unique_defined_syms K → tri s ≠ 0%Z →
  (valid_for (c_orig_type (cho K c)) (UTri (mode c)) = true ∨ tri s = 2%Z) → c ∈ st_chos l1.
Proof using Hu HK Hmem Hsaves.
  intros Hc Hs Ht Hor. destruct (Hmem s c Hc) as [Hb _].
  assert (written s = true) as Hw.
  { unfold written_of. destruct (Z.eqb_spec (vis (ISym s)) 0) as [H0|H0]; [|by destruct (s_orig_type (sym K s))].
    exfalso. apply Ht. rewrite (tri_of_eq u Hu s (defined_not_preset s Hs) Hb), Hc.
    unfold choice_symbol_of. by rewrite H0. }
  destruct (sv_all _ Hsaves s Hs Hw) as [b Hin].
  destruct (sv_own _ Hsaves _ _ _ Hin) as (_ & _ & _ & Heq). rewrite Hb in Heq. cbn [andb] in Heq.
  pose proof (own_tri s Hb) as Hown. pose proof Hown as Has. unfold norm_value in Has. rewrite Hb in Has.
  destruct Hor as [Hv|H2].
  - assert (str s ≠ "n") as Hn.
    { intros Hn. rewrite Hn in Has. change (UTri 0 = UTri (tri s)) in Has. injection Has as Hz. by apply Ht. }
    rewrite bool_decide_false in Heq by done. subst b. rewrite (member_mode s c Hc Hs Ht) in Hv.
    by eapply (mode_marks la (spec_clear K l0) s (str s) c).
  - destruct (assigned_marks la (spec_clear K l0) s (str s) b Hin) as [_ Hm]; [by apply own_valid_tri|].
    apply Hm; [done|]. by rewrite Hown, H2.
Qed.

Theorem loaded_restates : restates (K := K) (fuel := fuel) u u'.
Proof using Hconst Hu HK Hmem Hsaves Hu0 Hk0 Hro Hku Htyped.
  pose proof loaded_own as Hown. split.
  - intros s Hb. rewrite loaded_user. destruct (decide (s ∈ st_syms l1)) as [Hs|Hs].
    + right. destruct (decide (vis (ISym s) = 0%Z)) as [|H0]; [by left|right]. rewrite own_tri by done.
      split; [done|]. intros Hc. destruct (user_value u !! s) eqn:Hv; [left; by eexists|right].
      by apply (ro_default Hro).
    + destruct (unset_symbol s Hs) as [->|[?|[Hw Hv]]]; [by left|by right; left|].
      by rewrite own_valid_tri in Hv.
  - intros s Ht. assert (BOOL_TRISTATE (s_orig_type (sym K s)) = false) as Hb by (by destruct (s_orig_type (sym K s))).
    rewrite loaded_user. destruct (decide (s ∈ st_syms l1)) as [Hs|Hs].
    + right; right. destruct (os_sym l1 Hown s Hs) as (_ & _ & Hv).
      apply (uok_sym _ _ (os_uok l1 Hown)), valid_for_ok in Hv. rewrite own_text in Hv |- * by done. by rewrite Hv.
    + destruct (unset_symbol s Hs) as [->|[?|[Hw Hv]]]; [by left|by right; left|right; right].
      rewrite own_text in Hv by done. by rewrite Hv.
  - intros c. destruct (loaded_choice c) as [H1 H2]. destruct (decide (c ∈ st_chos l1)) as [Hc|Hc].
    + destruct (H1 Hc) as [-> _]. pose proof (os_cho l1 Hown c Hc) as Hm.
      destruct (os_mode l1 Hown c Hc) as [->|[Hv ->]]; [by right; left|left].
      symmetry. by apply rejected_mode.
    + destruct (H2 Hc) as [-> _].
      destruct (decide (Exists (λ s, s_choice (sym K s) = Some c ∧ tri s ≠ 0%Z) (k_unique_defined_syms K))) as [Hex|Hno].
      * apply Exists_exists in Hex as (s & Hs & Hcs & Ht).
        left. symmetry. pose proof (member_mode s c Hcs Hs Ht) as Hm. apply rejected_mode; [done|congruence|].
        destruct (valid_for _ _) eqn:Hv; [|done]. exfalso. apply Hc. apply (set_member s c); [done..|by left].
      * destruct (ro_idle Hro c) as [->|Hidle]; [|by left|by right; right].
        intros s Hcs. apply dec_stable. intros Ht. apply Hno. apply Exists_exists. exists s.
        split; [by apply (member_defined s c)|done].
  - intros c Hm. destruct (loaded_choice c) as [H1 H2]. destruct (decide (c ∈ st_chos l1)) as [Hc|Hc].
    + right; left. destruct (H1 Hc) as [_ ->]. destruct (os_sel l1 Hown c Hc Hm) as [Hsel ->]. done.
    + right; right. destruct (H2 Hc) as [_ ->]. intros s [Hs|]; [|done]. apply dec_stable. intros Hv. apply Hc.
      pose proof (uok_sel _ _ Hu _ _ Hs) as Hcs.
      assert (tri s = 2%Z) as Ht by (by apply (selected_y s c)).
      apply (set_member s c); [done| |by rewrite Ht|by right]. apply (member_defined s c); [done|by rewrite Ht].
Qed.
End Loaded.
End Restore.
