(* ===== verification/ConfigText.v ===== *)
(** * The text of a .config file

    Relations between sessions that the computation of configurations keeps, and
    [write_config]'s text, determined by the user values: the walk over the menu
    tree terminates when [node_iter] does, and the lines of the text assign to
    every written symbol its value and nothing else. *)

From S2P Require Import Prelude PyStr PyText Kconst Expr Escape Incr Objects ParseState MenuTree.
From S2P Require Import Values Reads Session Meaning Effects Reload Check ConfigFile ConfigSession ConfigWrite.
From S2P Require Import ConfigLines Written Restore.
From stdpp Require Import options.

Section Steps.
Variables (K : kconfig) (fuel : nat).
Variable P : session → session → Prop.

Definition steps_by {A} (f : session → outcome (A * session)) : Prop :=
  ∀ σ a σ', f σ = Ok (a, σ') → P σ σ'.

Hypothesis P_refl : ∀ σ, P σ σ.
Hypothesis P_trans : ∀ σ1 σ2 σ3, P σ1 σ2 → P σ2 σ3 → P σ1 σ3.

Lemma steps_ret {A} (a : A) : steps_by (λ σ, Ok (a, σ)).
Proof using P_refl. intros σ b σ' [= _ <-]. apply P_refl. Qed.

Lemma steps_bind {A B} (f : session → outcome (A * session)) (g : A → session → outcome (B * session)) :
  steps_by f → (∀ a, steps_by (g a)) → steps_by (λ σ, let! (a, σ) := f σ in g a σ).
Proof using P_trans.
  intros Hf Hg σ b σ'. rewrite obind_Ok. intros ([a σ1] & Ha & Hb). eapply P_trans; [by eapply Hf|by eapply Hg].
Qed.

Hypothesis P_prop : ∀ q, steps_by (get_prop K fuel q).
Hypothesis P_expr : ∀ e, steps_by (eval_expr K fuel e).

Lemma steps_str s : steps_by (str_value K fuel s).
Proof using P_refl P_trans P_prop. apply steps_bind; [apply P_prop|]. intros []; first [apply steps_ret|by intros ?]. Qed.
Lemma steps_tri s : steps_by (tri_value K fuel s).
Proof using P_refl P_trans P_prop. apply steps_bind; [apply P_prop|]. intros []; first [apply steps_ret|by intros ?]. Qed.
Lemma steps_vis i : steps_by (visibility_of K fuel i).
Proof using P_refl P_trans P_prop. apply steps_bind; [apply P_prop|]. intros []; first [apply steps_ret|by intros ?]. Qed.

Lemma steps_config_string s : steps_by (config_string K fuel s).
Proof using P_refl P_trans P_prop.
  intros σ t σ'. unfold config_string. rewrite obind_Ok. intros ([v σ1] & Hv & [= _ <-]). by eapply steps_str.
Qed.

Lemma steps_leave_menus f n after acc : steps_by (leave_menus K fuel f n after acc).
Proof using P_refl P_trans P_expr.
  revert n after acc. induction f as [|f IH]; intros n after acc; [by intros σ a σ'|].
  cbn [leave_menus]. destruct (n_parent _) as [p|]; [|apply steps_ret]. apply steps_bind.
  - case_bool_decide; [|apply steps_ret]. apply steps_bind; [apply P_expr|]. intros d.
    destruct (d =? 0)%Z; [apply steps_ret|]. apply steps_bind; [apply P_expr|]. intros v. apply steps_ret.
  - intros ends. cbv zeta. destruct (n_next _); [apply steps_ret|apply IH].
Qed.

Lemma steps_node_contents n V after acc : steps_by (node_contents K fuel n V after acc).
Proof using P_refl P_trans P_prop P_expr.
  unfold node_contents. cbv zeta. destruct (n_item _) as [s|c| | |]; [case_decide; [apply steps_ret|]|..];
    apply steps_bind; first [apply steps_config_string|apply P_expr|idtac].
  { intros str. case_bool_decide; apply steps_ret. }
  all: intros d; case_match; [apply steps_ret|]; apply steps_bind; [|intros []; apply steps_ret];
    (case_bool_decide; [|apply steps_ret]); (apply steps_bind; [apply P_expr|]); intros v; apply steps_ret.
Qed.

Lemma steps_config_loop f n V after acc : steps_by (config_loop K fuel f n V after acc).
Proof using P_refl P_trans P_prop P_expr.
  revert n V after acc. induction f as [|f IH]; intros n V after acc; [by intros σ a σ'|].
  cbn [config_loop]. apply steps_bind.
  - repeat case_match; first [apply steps_ret|apply steps_leave_menus].
  - intros [[o after'] acc']. destruct o as [m|]; [|apply steps_ret]. apply steps_bind; [apply steps_node_contents|].
    intros [[V' after''] acc'']. apply IH.
Qed.

Lemma steps_contents header : steps_by (config_contents K fuel header).
Proof using P_refl P_trans P_prop P_expr. apply steps_config_loop. Qed.

Lemma steps_concat (f : nat → session → outcome (string * session)) l :
  (∀ s, steps_by (f s)) → steps_by (concat_symbols f l).
Proof using P_refl P_trans.
  intros Hf. induction l as [|s l IH]; cbn [concat_symbols]; [apply steps_ret|].
  apply steps_bind; [apply Hf|]. intros t. apply steps_bind; [apply IH|]. intros r. apply steps_ret.
Qed.
End Steps.

(** ** Lines of concatenated texts *)

(** A text of whole lines. *)
Definition complete (t : string) : Prop := t = "" ∨ ∃ a, t = a +:+ nl.

Lemma complete_nl a : complete (a +:+ nl).
Proof. right. by exists a. Qed.

Lemma complete_app a b : complete a → complete b → complete (a +:+ b).
Proof.
  intros Ha [->|[x ->]]; [by rewrite app_empty_r|]. rewrite <- app_assoc_s. apply complete_nl.
Qed.

Lemma file_lines_aux_app cur a t :
  file_lines_aux cur (a +:+ nl +:+ t) = file_lines_aux cur (a +:+ nl) ++ file_lines t.
Proof.
  revert cur. induction a as [|c a IH]; intros cur.
  - rewrite !app_empty_l. unfold nl. rewrite app_cons, app_empty_l. cbn [file_lines_aux].
    by rewrite c_eqb_refl.
  - rewrite !app_cons. cbn [file_lines_aux]. destruct (c_eqb c nl_c); by rewrite IH.
Qed.

Lemma file_lines_app a t : complete a → file_lines (a +:+ t) = file_lines a ++ file_lines t.
Proof.
  intros [->|[x ->]]; [by rewrite app_empty_l|]. rewrite app_assoc_s. apply file_lines_aux_app.
Qed.

Lemma file_lines_one l : one_line l → file_lines (l +:+ nl) = [l +:+ nl].
Proof. intros Hl. rewrite <- (app_empty_r nl) at 1. by rewrite file_lines_line. Qed.

(** ** Code that reads a session *)
Section Gives.
Context {K : kconfig} {fuel : nat} {HK : Loaded K fuel}.
Variable u : ustate.

(** In every session with user values [u], [f] returns [a]. *)
Definition gives {A} (f : session → outcome (A * session)) (a : A) : Prop :=
  ∀ σ, session_ok (K := K) σ → uvals σ = u →
    ∃ σ', f σ = Ok (a, σ') ∧ session_ok (K := K) σ' ∧ uvals σ' = u.

Lemma gives_ret {A} (a : A) : gives (λ σ, Ok (a, σ)) a.
Proof using Type. intros σ Hσ Hu. by exists σ. Qed.

Lemma gives_bind {A B} (f : session → outcome (A * session)) (g : A → session → outcome (B * session)) a b :
  gives f a → gives (g a) b → gives (λ σ, let! (x, σ) := f σ in g x σ) b.
Proof using Type.
  intros Hf Hg σ Hσ Hu. destruct (Hf σ Hσ Hu) as (σ1 & -> & Hσ1 & Hu1). cbn. by apply Hg.
Qed.

Lemma gives_expr e : gives (eval_expr K fuel e) (ev (K := K) (fuel := fuel) u e).
Proof using HK. intros σ Hσ <-. by apply run_expr. Qed.

Lemma gives_tri_value s : gives (tri_value K fuel s) (tri_of (K := K) (fuel := fuel) u s).
Proof using HK.
  intros σ Hσ Hu. destruct (get_prop_spec σ (QTri s) Hσ) as (v & σ' & Hg & Hv & Hσ' & Hu').
  exists σ'. unfold tri_value. rewrite Hg. cbn. rewrite <- Hu. unfold tri_of. rewrite Hv.
  destruct (prop_of_total (uvals σ) (proj1 Hσ) (QTri s)) as (v' & Hv' & Hok). rewrite Hv in Hv'.
  injection Hv' as <-. destruct v; done.
Qed.

Lemma gives_str s : gives (str_value K fuel s) (str_of (K := K) (fuel := fuel) u s).
Proof using HK.
  intros σ Hσ Hu. destruct (get_prop_spec σ (QStr s) Hσ) as (v & σ' & Hg & Hv & Hσ' & Hu').
  exists σ'. unfold str_value. rewrite Hg. cbn. rewrite <- Hu. unfold str_of. rewrite Hv.
  destruct (prop_of_total (uvals σ) (proj1 Hσ) (QStr s)) as (v' & Hv' & Hok). rewrite Hv in Hv'.
  injection Hv' as <-. destruct v; done.
Qed.

(** The text written for a symbol. *)
Definition symbol_text (s : nat) : string :=
  if written_of (K := K) (fuel := fuel) u s then config_line K s (str_of (K := K) (fuel := fuel) u s) else "".

Lemma gives_config_string s :
  preset K (QTri s) = None → s_orig_type (sym K s) ≠ UNKNOWN →
  gives (config_string K fuel s) (symbol_text s).
Proof using HK.
  intros Hp Ht σ Hσ Hu. unfold symbol_text. rewrite <- Hu. by apply config_string_spec.
Qed.
End Gives.

(** ** The walk *)
Section Walk.
Context {K : kconfig} {fuel : nat} {HK : Loaded K fuel}.
Variable u : ustate.
Hypothesis Hu : uok K u.

Abbreviation Gives f a := (gives (K := K) u f a).
Abbreviation text_of s := (symbol_text (K := K) (fuel := fuel) u s).
Abbreviation written := (written_of (K := K) (fuel := fuel) u).
Abbreviation str := (str_of (K := K) (fuel := fuel) u).

Definition harmless (line : string) : Prop := ∀ s val b, line_assignment K line ≠ Assign s val b.

(** The prompt of a menu or comment. *)
Definition node_text (n : nat) : string := default "" (fst <$> n_prompt (nod K n)).

(** A menu tree whose text can be read back: the prompts of menus and comments
    are not taken for assignments, and names and values fit on their lines. *)
Record writable : Prop := {
  wr_prefix : s_all (not_c "=") (k_config_prefix K) = true;
  wr_prefix_line : one_line (k_config_prefix K);
  wr_prompt n : n_item (nod K n) = NMenu ∨ n_item (nod K n) = NComment →
    one_line (node_text n) ∧ harmless ("# " +:+ node_text n +:+ nl) ∧
    harmless ("# end of " +:+ node_text n +:+ nl);
  wr_sym n s : n_item (nod K n) = NSym s →
    s ∈ k_unique_defined_syms K ∧ defined_sym K (s_name (sym K s)) = Some s ∧
    name_ok (s_name (sym K s)) ∧ s_orig_type (sym K s) ≠ UNKNOWN;
  wr_value s : s ∈ k_unique_defined_syms K → written s = true → savable (K := K) s (str s)
}.
Hypothesis Hwr : writable.

(** The text so far, after the symbols in [V] were visited. *)
Record text_ok (V : gset nat) (acc : string) : Prop := {
  to_lines : complete acc;
  to_own s val b : Assign s val b ∈ file_assignments K acc →
    s ∈ k_unique_defined_syms K ∧ written s = true ∧ val = str s ∧
    b = BOOL_TRISTATE (s_orig_type (sym K s)) && negb (bool_decide (val = "n"));
  to_all s : s ∈ V → written s = true → ∃ b, Assign s (str s) b ∈ file_assignments K acc
}.

Lemma assignments_app a t : complete a → file_assignments K (a +:+ t) = file_assignments K a ++ file_assignments K t.
Proof using Type. intros Ha. unfold file_assignments. by rewrite file_lines_app, fmap_app. Qed.

(** Adding lines that assign nothing. *)
Lemma text_ok_comment V acc t :
  text_ok V acc → complete t → Forall harmless (file_lines t) → text_ok V (acc +:+ t).
Proof using Type.
  intros [H1 H2 H3] Ht Hh. split.
  - by apply complete_app.
  - intros s val b. rewrite assignments_app by done. intros [?|Hin]%elem_of_app; [by apply H2|exfalso].
    unfold file_assignments in Hin. apply list_elem_of_fmap in Hin as (line & Hl & Hin).
    rewrite Forall_forall in Hh. by eapply Hh.
  - intros s Hs Hw. destruct (H3 s Hs Hw) as [b Hb]. exists b. rewrite assignments_app by done.
    apply elem_of_app. by left.
Qed.

Lemma text_ok_visited V acc s : text_ok V acc → written s = false → text_ok ({[s]} ∪ V) acc.
Proof using Type.
  intros [H1 H2 H3] Hw. split; [done..|]. intros t Ht Hwt. apply H3; [|done].
  apply elem_of_union in Ht as [->%elem_of_singleton|]; [congruence|done].
Qed.

Lemma config_line_one s val :
  name_ok (s_name (sym K s)) → one_line (k_config_prefix K) → one_line val →
  ∃ l, config_line K s val = l +:+ nl ∧ one_line l.
Proof using Type.
  intros Hn Hp Hv. assert (one_line (s_name (sym K s))) as Hname.
  { apply (name_ok_no _ nl_c Hn). do 2 (apply elem_of_cons; right). by apply elem_of_cons; left. }
  pose proof (one_line_escape val Hv) as He. unfold config_line. cbv zeta.
  destruct (BOOL_TRISTATE _); [destruct (bool_decide _)|destruct (INT_HEX _)];
    eexists; (split; [rewrite <- !(app_assoc_s _ _ nl); reflexivity|]);
    rewrite !one_line_app; split_and!; done.
Qed.

Lemma harmless_nl : harmless nl.
Proof using Type.
  intros s val b. unfold line_assignment. change (rstrip nl) with "". cbv zeta.
  assert (set_match (k_config_prefix K) "" = None) as ->.
  { unfold set_match. destruct (k_config_prefix K); [done|done]. }
  assert (unset_match (k_config_prefix K) "" = None) as -> by done. done.
Qed.

(** Adding the line of a symbol. *)
Lemma text_ok_line V acc s :
  text_ok V acc → s ∈ k_unique_defined_syms K → defined_sym K (s_name (sym K s)) = Some s →
  name_ok (s_name (sym K s)) → written s = true →
  text_ok ({[s]} ∪ V) (acc +:+ config_line K s (str s)).
Proof using Hwr.
  intros [H1 H2 H3] Hs Hd Hn Hw. pose proof (wr_value Hwr s Hs Hw) as Hsav.
  destruct (config_line_one s (str s) Hn (wr_prefix_line Hwr) (proj1 Hsav)) as (l & Hl & Hone).
  assert (file_assignments K (config_line K s (str s))
    = [Assign s (str s) (BOOL_TRISTATE (s_orig_type (sym K s)) && negb (bool_decide (str s = "n")))]) as Hline.
  { unfold file_assignments. rewrite Hl, file_lines_one by done. cbn. rewrite <- Hl.
    by rewrite (config_line_assignment s Hd Hn (wr_prefix Hwr) (str s) Hsav). }
  split.
  - apply complete_app; [done|]. rewrite Hl. apply complete_nl.
  - intros t val b. rewrite assignments_app, Hline by done.
    intros [?|Hin]%elem_of_app; [by apply H2|]. apply list_elem_of_singleton in Hin. by simplify_eq.
  - intros t Ht Hwt. setoid_rewrite (assignments_app _ _ H1). rewrite Hline.
    apply elem_of_union in Ht as [->%elem_of_singleton|Ht].
    + eexists. apply elem_of_app. right. by apply list_elem_of_singleton.
    + destruct (H3 t Ht Hwt) as [b Hb]. exists b. apply elem_of_app. by left.
Qed.

Lemma climb_gives f n o V after acc :
  climb f n K = Ok o → text_ok V acc →
  ∃ after' acc', Gives (leave_menus K fuel f n after acc) (o, after', acc') ∧ text_ok V acc'.
Proof using HK Hwr.
  revert n after acc. induction f as [|f IH]; intros n after acc Hc Hacc; [done|]. cbn in Hc.
  destruct (n_parent (nod K n)) as [p|] eqn:Hp.
  2: { injection Hc as <-. exists after, acc. split; [|done]. intros σ Hσ Hσu. cbn. rewrite Hp. by exists σ. }
  set (evl e := ev (K := K) (fuel := fuel) u e).
  set (N := nod K p) in *.
  set (ends := bool_decide (n_item N = NMenu) && negb (evl (n_dep N) =? 0)%Z
    && (negb (evl (n_visibility N) =? 0)%Z && negb (bool_decide (p = k_top_node K)))).
  assert (Gives (λ σ, if bool_decide (n_item N = NMenu) then
      let! (d, σ) := eval_expr K fuel (n_dep N) σ in
      if (d =? 0)%Z then Ok (false, σ)
      else let! (v, σ) := eval_expr K fuel (n_visibility N) σ in
           Ok (negb (v =? 0)%Z && negb (bool_decide (p = k_top_node K)), σ)
    else Ok (false, σ)) ends) as Hends.
  { unfold ends. destruct (bool_decide (n_item N = NMenu)); [|apply gives_ret]. cbn [andb].
    eapply gives_bind; [apply gives_expr|]. fold (evl (n_dep N)).
    destruct (evl (n_dep N) =? 0)%Z; [apply gives_ret|]. cbn [negb andb].
    eapply gives_bind; [apply gives_expr|]. apply gives_ret. }
  set (acc1 := if ends then acc +:+ "# end of " +:+ default "" (fst <$> n_prompt N) +:+ nl else acc).
  assert (text_ok V acc1) as Hacc1.
  { unfold acc1. destruct ends eqn:He; [|done]. unfold ends in He. rewrite !andb_true_iff, bool_decide_eq_true in He.
    destruct (wr_prompt Hwr p (or_introl (proj1 (proj1 He)))) as (Hone & _ & Hh). fold N in Hone. unfold node_text in *. fold N in Hone, Hh.
    apply text_ok_comment; [done|..].
    - rewrite <- app_assoc_s. apply complete_nl.
    - rewrite <- app_assoc_s. rewrite file_lines_one by (by apply one_line_app). rewrite app_assoc_s.
      by repeat constructor. }
  destruct (n_next N) as [m|] eqn:Hnext.
  - injection Hc as <-. exists (ends || after), acc1. split; [|done]. intros σ Hσ Hσu. cbn. rewrite Hp.
    fold N. destruct (Hends σ Hσ Hσu) as (σ1 & H1 & Hσ1). cbn in H1. rewrite H1. cbn. rewrite Hnext. by exists σ1.
  - destruct (IH p (ends || after) acc1 Hc Hacc1) as (after' & acc' & Hg & Ht). exists after', acc'. split; [|done].
    intros σ Hσ Hσu. cbn. rewrite Hp. fold N. destruct (Hends σ Hσ Hσu) as (σ1 & H1 & Hσ1 & Hu1).
    cbn in H1. rewrite H1. cbn. rewrite Hnext. by apply Hg.
Qed.

Lemma harmless_hash : harmless ("#" +:+ nl).
Proof using Type.
  intros s val b. unfold line_assignment. change (rstrip ("#" +:+ nl)) with "#". cbv zeta.
  rewrite set_match_none by done. by destruct (k_config_prefix K).
Qed.

(** The heading of a menu or comment. *)
Lemma text_ok_heading V acc n :
  text_ok V acc → n_item (nod K n) = NMenu ∨ n_item (nod K n) = NComment →
  text_ok V (acc +:+ nl +:+ "#" +:+ nl +:+ "# " +:+ node_text n +:+ nl +:+ "#" +:+ nl).
Proof using Hwr.
  intros Hacc Hn. destruct (wr_prompt Hwr n Hn) as (Hone & Hh & _).
  apply text_ok_comment; [done|..].
  - right. exists (nl +:+ "#" +:+ nl +:+ "# " +:+ node_text n +:+ nl +:+ "#"). by rewrite !app_assoc_s.
  - change (nl +:+ "#" +:+ nl +:+ "# " +:+ node_text n +:+ nl +:+ "#" +:+ nl)
      with ("" +:+ nl +:+ ("#" +:+ nl +:+ "# " +:+ node_text n +:+ nl +:+ "#" +:+ nl)).
    rewrite file_lines_line, file_lines_line by done.
    rewrite <- (app_assoc_s "# " (node_text n)), file_lines_line by (by apply one_line_app).
    rewrite file_lines_one by done. rewrite app_assoc_s. repeat constructor; [apply harmless_nl|apply harmless_hash|done|apply harmless_hash].
Qed.

(** The symbols of nodes. *)
Definition syms_of (l : list nat) : gset nat :=
  list_to_set (omap (λ n, match n_item (nod K n) with NSym s => Some s | _ => None end) l).

Lemma syms_of_cons n l :
  syms_of (n :: l) = match n_item (nod K n) with NSym s => {[s]} ∪ syms_of l | _ => syms_of l end.
Proof using Type. unfold syms_of. cbn. by destruct (n_item (nod K n)). Qed.

Lemma node_gives n V after acc :
  text_ok V acc →
  ∃ V' after' acc', Gives (node_contents K fuel n V after acc) (V', after', acc') ∧ text_ok V' acc' ∧
    V' = match n_item (nod K n) with NSym s => {[s]} ∪ V | _ => V end.
Proof using Hu HK Hwr.
  intros Hacc. unfold node_contents. set (N := nod K n).
  set (evl e := ev (K := K) (fuel := fuel) u e).
  destruct (n_item N) as [s|c| | |] eqn:Hi.
  - destruct (decide (s ∈ V)) as [Hs|Hs].
    { exists V, after, acc. split_and!; [apply gives_ret|done|]. set_solver. }
    destruct (wr_sym Hwr n s Hi) as (Hd & Hname & Hn & Ht).
    set (t := text_of s).
    exists ({[s]} ∪ V), (if bool_decide (t = "") then after else false),
      (if bool_decide (t = "") then acc else acc +:+ (if after then nl else "") +:+ t).
    split_and!; [|..|done].
    + eapply gives_bind; [apply gives_config_string; [by apply (defined_not_preset (fuel := fuel))|done]|]. fold t.
      destruct (bool_decide (t = "")); apply gives_ret.
    + unfold t, symbol_text. destruct (written s) eqn:Hw.
      2: { rewrite bool_decide_true by done. by apply text_ok_visited. }
      rewrite bool_decide_false; [|].
      * destruct after; rewrite ?app_empty_l; [rewrite <- app_assoc_s|]; apply text_ok_line; try done.
        apply text_ok_comment; [done|right; by exists ""|]. repeat constructor. apply harmless_nl.
      * destruct (config_line_one s (str s) Hn (wr_prefix_line Hwr) (proj1 (wr_value Hwr s Hd Hw))) as (l & -> & _).
        by destruct l.
  - exists V, after, acc. split_and!; [|done|done]. eapply gives_bind; [apply gives_expr|].
    destruct (_ =? 0)%Z; [apply gives_ret|]. eapply gives_bind; [apply gives_ret|]. apply gives_ret.
  - set (shown := negb (evl (n_dep N) =? 0)%Z && negb (evl (n_visibility N) =? 0)%Z).
    exists V, (if shown then false else after),
      (if shown then acc +:+ nl +:+ "#" +:+ nl +:+ "# " +:+ node_text n +:+ nl +:+ "#" +:+ nl else acc).
    split_and!; [|..|done].
    + eapply gives_bind; [apply gives_expr|]. fold (evl (n_dep N)). unfold shown.
      destruct (evl (n_dep N) =? 0)%Z; [apply gives_ret|]. cbn [negb andb].
      eapply (gives_bind u _ _ (negb (evl (n_visibility N) =? 0)%Z)).
      * eapply gives_bind; [apply gives_expr|apply gives_ret].
      * destruct (negb (evl (n_visibility N) =? 0)%Z); apply gives_ret.
    + destruct shown; [|done]. apply text_ok_heading; [done|]. by left.
  - set (shown := negb (evl (n_dep N) =? 0)%Z).
    exists V, (if shown then false else after),
      (if shown then acc +:+ nl +:+ "#" +:+ nl +:+ "# " +:+ node_text n +:+ nl +:+ "#" +:+ nl else acc).
    split_and!; [|..|done].
    + eapply gives_bind; [apply gives_expr|]. fold (evl (n_dep N)). unfold shown.
      destruct (evl (n_dep N) =? 0)%Z; [apply gives_ret|]. cbn [negb].
      eapply gives_bind; [apply gives_ret|]. apply gives_ret.
    + destruct shown; [|done]. apply text_ok_heading; [done|]. by right.
  - exists V, after, acc. split_and!; [|done|done]. eapply gives_bind; [apply gives_expr|].
    destruct (_ =? 0)%Z; [apply gives_ret|]. eapply gives_bind; [apply gives_ret|]. apply gives_ret.
Qed.

Lemma loop_gives f n l V after acc :
  node_iter_from f n K = Ok l → text_ok V acc →
  ∃ acc', Gives (config_loop K fuel f n V after acc) acc' ∧ text_ok (syms_of l ∪ V) acc'.
Proof using Hu HK Hwr.
  revert n l V after acc. induction f as [|f IH]; intros n l V after acc Hl Hacc; [done|]. cbn in Hl.
  assert (∃ o after1 acc1, next_node f n K = Ok o ∧ text_ok V acc1 ∧
    Gives (λ σ, match n_list (nod K n), n_next (nod K n) with
      | Some m, _ | None, Some m => Ok (Some m, after, acc, σ)
      | None, None => leave_menus K fuel f n after acc σ end) (o, after1, acc1)) as (o & after1 & acc1 & Ho & Hacc1 & Hg).
  { unfold next_node in *. destruct (n_list (nod K n)) as [m|].
    { exists (Some m), after, acc. split_and!; [done|done|apply gives_ret]. }
    destruct (n_next (nod K n)) as [m|].
    { exists (Some m), after, acc. split_and!; [done|done|apply gives_ret]. }
    destruct (climb f n K) as [o| |] eqn:Hc; [|done..].
    destruct (climb_gives f n o V after acc Hc Hacc) as (after1 & acc1 & ? & ?). by exists o, after1, acc1. }
  rewrite Ho in Hl. cbn in Hl. destruct o as [m|].
  - destruct (node_iter_from f m K) as [l'| |] eqn:Hit; [|done..]. injection Hl as <-.
    destruct (node_gives m V after1 acc1 Hacc1) as (V' & after2 & acc2 & Hg2 & Hacc2 & HV).
    destruct (IH m l' V' after2 acc2 Hit Hacc2) as (acc3 & Hg3 & Hacc3).
    exists acc3. split.
    + eapply gives_bind; [exact Hg|]. cbn. eapply gives_bind; [exact Hg2|exact Hg3].
    + rewrite syms_of_cons. destruct Hacc3 as [T1 T2 T3]. split; [done..|]. intros s Hs. apply T3.
      rewrite HV. destruct (n_item (nod K m)); set_solver.
  - injection Hl as <-. exists acc1. split; [|].
    + eapply gives_bind; [exact Hg|]. apply gives_ret.
    + destruct Hacc1 as [T1 T2 T3]. split; [done..|]. intros s Hs. apply T3. unfold syms_of in Hs. set_solver.
Qed.

(** A header of comment lines. *)
Definition header_ok (header : string) : Prop := complete header ∧ Forall harmless (file_lines header).

Lemma text_ok_header header : header_ok header → text_ok ∅ header.
Proof using Type.
  intros [H1 H2]. split; [done| |].
  - intros s val b Hin. exfalso. unfold file_assignments in Hin.
    apply list_elem_of_fmap in Hin as (line & Hl & Hin). rewrite Forall_forall in H2. by eapply H2.
  - intros s Hs. exfalso. by apply not_elem_of_empty in Hs.
Qed.

(** The text is determined by the user values, and saves the configuration. *)
Lemma contents_gives header nodes :
  node_iter fuel false K = Ok nodes → (∀ s, s ∈ k_unique_defined_syms K → s ∈ syms_of nodes) →
  header_ok (default (k_config_header K) header) →
  ∃ text, Gives (config_contents K fuel header) text ∧
    saves (K := K) (fuel := fuel) u (file_assignments K text).
Proof using HK Hu Hwr.
  intros Hit Hall Hh. unfold node_iter in Hit.
  destruct (node_iter_from fuel (k_top_node K) K) as [l| |] eqn:Hl; [|done..]. injection Hit as ->.
  destruct (loop_gives fuel (k_top_node K) nodes ∅ false _ Hl (text_ok_header _ Hh)) as (text & Hg & [T1 T2 T3]).
  exists text. split; [exact Hg|]. split; [exact T2|].
  intros s Hs Hw. apply T3; [|done]. apply elem_of_union. left. by apply Hall.
Qed.
End Walk.

(** ** Configurations that a .config file can express *)

Record expressible (K : kconfig) (fuel : nat) {HK : Loaded K fuel} (u : ustate) (header : string) : Prop := {
  ex_restorable : restorable (K := K) (fuel := fuel) u;
  ex_members : members_ok (K := K);
  ex_constants s c : s_choice (sym K s) = Some c → preset K (QTri s) = None;
  ex_writable : writable (K := K) (fuel := fuel) u;
  ex_header : header_ok (K := K) header;
  ex_user s : is_Some (user_value u !! s) → s ∈ k_unique_defined_syms K;
  ex_walk : ∃ nodes, node_iter fuel false K = Ok nodes ∧
    ∀ s, s ∈ k_unique_defined_syms K → s ∈ syms_of (K := K) nodes
}.

Section Decide.
Variable K : kconfig.
Variable fuel : nat.
Context {HK : Loaded K fuel}.
Variable u : ustate.
Variable header : string.

Abbreviation tri := (tri_of (K := K) (fuel := fuel) u).
Abbreviation str := (str_of (K := K) (fuel := fuel) u).
Abbreviation vis := (vis_of (K := K) (fuel := fuel) u).
Abbreviation written := (written_of (K := K) (fuel := fuel) u).

Definition harmlessb (line : string) : bool :=
  match line_assignment K line with Assign _ _ _ => false | _ => true end.

Definition name_okb (name : string) : bool :=
  negb (bool_decide (name = "")) && s_all (λ c, not_c "=" c && not_c " " c && not_c nl_c c) name.

Definition savableb (s : nat) (val : string) : bool :=
  s_all (not_c nl_c) val &&
  match s_orig_type (sym K s) with
  | BOOL => bool_decide (val = "y") || bool_decide (val = "n")
  | TRISTATE => bool_decide (val = "y") || bool_decide (val = "m") || bool_decide (val = "n")
  | INT | HEX => bool_decide (rstrip val = val)
  | STRING => true
  | UNKNOWN => false
  end.

Definition symbol_expressible (s : nat) : bool :=
  (negb (BOOL_TRISTATE (s_orig_type (sym K s))) || bool_decide (is_Some (s_choice (sym K s)))
   || bool_decide (is_Some (user_value u !! s)) || (vis (ISym s) =? 0)%Z
   || (implied_of (K := K) (fuel := fuel) u s <=? vis (ISym s))%Z)
  && match s_choice (sym K s) with
     | None => true
     | Some c => BOOL_TRISTATE (s_orig_type (sym K s)) && bool_decide (preset K (QTri s) = None)
                 && forallb (λ e, bool_decide (EItem (ICho c) ∈ split_expr e OpAnd)) (prompt_conds K (ISym s))
     end.

Definition user_expressible (s : nat) : bool :=
  bool_decide (s ∈ k_unique_defined_syms K) && negb (bool_decide (is_Some (s_env_var (sym K s))))
  && negb (bool_decide (k_defconfig_list K = Some (NSym s))).

Definition choice_expressible (c : nat) : bool :=
  (mode_with (K := K) c None (vis (ICho c)) (mod_type (K := K) (fuel := fuel) u (c_orig_type (cho K c)))
     =? choice_of (K := K) (fuel := fuel) u c)%Z
  || existsb (λ s, bool_decide (s_choice (sym K s) = Some c) && negb (tri s =? 0)%Z) (k_unique_defined_syms K).

Definition node_expressible (n : nat) : bool :=
  match n_item (nod K n) with
  | NSym s =>
      bool_decide (s ∈ k_unique_defined_syms K) && bool_decide (defined_sym K (s_name (sym K s)) = Some s)
      && name_okb (s_name (sym K s)) && negb (bool_decide (s_orig_type (sym K s) = UNKNOWN))
  | NMenu | NComment =>
      s_all (not_c nl_c) (node_text (K := K) n) && harmlessb ("# " +:+ node_text (K := K) n +:+ nl)
      && harmlessb ("# end of " +:+ node_text (K := K) n +:+ nl)
  | _ => true
  end.

Definition completeb (t : string) : bool := bool_decide (t = "") || endswith nl t.

Definition expressibleb : bool :=
  forallb symbol_expressible (map_to_list (k_syms_store K)).*1
  && forallb user_expressible (map_to_list (user_value u)).*1
  && forallb choice_expressible (map_to_list (choice_user_value u)).*1
  && forallb node_expressible (map_to_list (k_nodes_store K)).*1
  && (s_all (not_c "=") (k_config_prefix K) && s_all (not_c nl_c) (k_config_prefix K))
  && forallb (λ s, negb (written s) || savableb s (str s)) (k_unique_defined_syms K)
  && (completeb header && forallb harmlessb (file_lines header))
  && match node_iter fuel false K with
     | Ok nodes => forallb (λ s, bool_decide (s ∈ syms_of (K := K) nodes)) (k_unique_defined_syms K)
     | _ => false
     end.

Lemma harmlessb_spec line : harmlessb line = true → harmless (K := K) line.
Proof using Type. unfold harmlessb. intros H s val b Hl. by rewrite Hl in H. Qed.

Lemma name_okb_spec name : name_okb name = true → name_ok name.
Proof using Type.
  unfold name_okb. rewrite andb_true_iff, negb_true_iff, bool_decide_eq_false. by intros [].
Qed.

Lemma savableb_spec s val : savableb s val = true → savable (K := K) s val.
Proof using Type.
  unfold savableb. rewrite andb_true_iff. intros [Hl Hv]. split; [done|].
  destruct (s_orig_type (sym K s)); rewrite ?orb_true_iff, ?bool_decide_eq_true in Hv; tauto || done.
Qed.

Lemma completeb_spec t : completeb t = true → complete t.
Proof using Type.
  unfold completeb. rewrite orb_true_iff, bool_decide_eq_true. intros [->|Ht]; [by left|right].
  unfold endswith in Ht. rewrite <- (srev_srev t). destruct (srev t) as [|c r]; [done|].
  exists (srev r). rewrite srev_cons. f_equal.
  change (c_eqb nl_c c && startswith "" r = true) in Ht. apply andb_true_iff in Ht as [Hc _].
  by apply c_eqb_eq in Hc as <-.
Qed.

Lemma symbol_expressible_spec s : forallb symbol_expressible (map_to_list (k_syms_store K)).*1 = true →
  symbol_expressible s = true.
Proof using Type.
  intros H. destruct (stored K (ISym s)) eqn:Hs.
  - cbn in Hs. apply bool_decide_eq_true in Hs as [x Hx]. eapply forallb_elem; [exact H|].
    apply list_elem_of_fmap. exists (s, x). split; [done|]. by apply elem_of_map_to_list.
  - unfold symbol_expressible. by rewrite (not_stored_sym K s Hs).
Qed.

Lemma node_expressible_spec n : forallb node_expressible (map_to_list (k_nodes_store K)).*1 = true →
  node_expressible n = true.
Proof using Type.
  intros H. destruct (k_nodes_store K !! n) as [x|] eqn:Hx.
  - eapply forallb_elem; [exact H|]. apply list_elem_of_fmap. exists (n, x). split; [done|].
    by apply elem_of_map_to_list.
  - unfold node_expressible, nod, lookup_total, map_lookup_total. by rewrite Hx.
Qed.

Lemma expressibleb_spec : expressibleb = true → expressible K fuel u header.
Proof using Type.
  unfold expressibleb. rewrite !andb_true_iff.
  intros [[[[[[[Hs Hu] Hc] Hn] [Hp1 Hp2]] Hv] [Hh1 Hh2]] Hw].
  assert (∀ s, is_Some (user_value u !! s) → user_expressible s = true) as Hue.
  { intros s [x Hx]. eapply forallb_elem; [exact Hu|]. apply list_elem_of_fmap. exists (s, x).
    split; [done|]. by apply elem_of_map_to_list. }
  assert (∀ s c, s_choice (sym K s) = Some c → BOOL_TRISTATE (s_orig_type (sym K s)) = true ∧
    preset K (QTri s) = None ∧ ∀ e, e ∈ prompt_conds K (ISym s) → EItem (ICho c) ∈ split_expr e OpAnd) as Hm.
  { intros s c Hsc. pose proof (symbol_expressible_spec s Hs) as H. unfold symbol_expressible in H. rewrite Hsc in H.
    rewrite !andb_true_iff, bool_decide_eq_true in H. destruct H as [_ [[H1 H2] H3]]. split_and!; [done|done|].
    intros e He. eapply forallb_elem in H3; [|exact He]. by apply bool_decide_eq_true in H3. }
  split.
  - split.
    + intros s Hb Hsc Hus Hvis. pose proof (symbol_expressible_spec s Hs) as H. unfold symbol_expressible in H.
      rewrite Hb, Hsc, Hus in H. rewrite !bool_decide_false in H by (by intros [? ?]).
      cbn [negb orb] in H. rewrite (proj2 (Z.eqb_neq _ _) Hvis), andb_true_r in H. by apply Z.leb_le.
    + intros s Ha. destruct (user_value u !! s) eqn:Hx; [|done]. exfalso.
      pose proof (Hue s (ex_intro _ _ Hx)) as H. unfold user_expressible in H.
      rewrite !andb_true_iff, !negb_true_iff, !bool_decide_eq_false in H. tauto.
    + intros c Hall. destruct (choice_user_value u !! c) as [z|] eqn:Hz; [right|by left].
      assert (choice_expressible c = true) as H.
      { eapply forallb_elem; [exact Hc|]. apply list_elem_of_fmap. exists (c, z). split; [done|].
        by apply elem_of_map_to_list. }
      unfold choice_expressible in H. apply orb_true_iff in H as [H|H]; [by apply Z.eqb_eq|]. exfalso.
      apply existsb_exists in H as (s & _ & H). rewrite andb_true_iff, bool_decide_eq_true, negb_true_iff, Z.eqb_neq in H.
      destruct H as [H1 H2]. by apply H2, Hall.
  - intros s c Hsc. by destruct (Hm s c Hsc) as (? & _ & ?).
  - intros s c Hsc. by destruct (Hm s c Hsc) as (_ & ? & _).
  - split; [done|done|..].
    + intros n Hni. pose proof (node_expressible_spec n Hn) as H. unfold node_expressible in H.
      destruct Hni as [Hni|Hni]; rewrite Hni, !andb_true_iff in H; destruct H as [[H1 H2] H3];
        (split_and!; [done|by apply harmlessb_spec..]).
    + intros n s Hni. pose proof (node_expressible_spec n Hn) as H. unfold node_expressible in H.
      rewrite Hni, !andb_true_iff, negb_true_iff, !bool_decide_eq_true, bool_decide_eq_false in H.
      destruct H as [[[H1 H2] H3] H4]. split_and!; [done|done|by apply name_okb_spec|done].
    + intros s Hd Hwr. eapply forallb_elem in Hv; [|exact Hd]. rewrite Hwr in Hv. by apply savableb_spec.
  - split; [by apply completeb_spec|]. apply Forall_forall. intros line Hl. apply harmlessb_spec.
    by eapply forallb_elem in Hh2.
  - intros s Hx. pose proof (Hue s Hx) as H. unfold user_expressible in H.
    rewrite !andb_true_iff, bool_decide_eq_true in H. tauto.
  - destruct (node_iter fuel false K) as [nodes| |]; [|done..]. exists nodes. split; [done|].
    intros s Hd. eapply forallb_elem in Hw; [|exact Hd]. by apply bool_decide_eq_true in Hw.
Qed.
End Decide.
