(* ===== verification/SyncDeps.v ===== *)
(** * Incremental builds: what [sync_deps] touches

    [sync_deps] writes the current values to auto.conf and touches the file of
    every symbol whose entry there has changed.  An entry is the value that is
    written, except n of a bool or tristate symbol. *)

From S2P Require Import Prelude PyStr PyText Kconst Expr Escape Incr Objects ParseState.
From S2P Require Import Values Reads Session Meaning Effects ConfigFile ConfigSession ConfigWrite.
From S2P Require Import ConfigLines Written Restore ConfigText.
From stdpp Require Import options.

Section Sync.
Context {K : kconfig} {fuel : nat} {HK : Loaded K fuel}.
Variable w : world.

(** The entry of a symbol in auto.conf. *)
Definition entry (u : ustate) (s : nat) : option string :=
  let val := str_of (K := K) (fuel := fuel) u s in
  if written_of (K := K) (fuel := fuel) u s
     && negb (BOOL_TRISTATE (s_orig_type (sym K s)) && bool_decide (val = "n"))
  then Some val else None.

Lemma entry_value u s val : entry u s = Some val →
  val = str_of (K := K) (fuel := fuel) u s ∧ (BOOL_TRISTATE (s_orig_type (sym K s)) = true → val ≠ "n").
Proof using Type.
  unfold entry. cbv zeta. case_match eqn:Hc; [|done]. intros [= <-]. split; [done|].
  intros Hb E. by rewrite Hb, bool_decide_true, andb_false_r in Hc.
Qed.

Definition entry_text (u : ustate) (s : nat) : string :=
  match entry u s with Some val => config_line K s val | None => "" end.

(** Names and values that fit on a line. *)
Record syncable (u : ustate) : Prop := {
  sy_prefix : s_all (not_c "=") (k_config_prefix K) = true;
  sy_prefix_line : one_line (k_config_prefix K);
  sy_sym s : s ∈ k_unique_defined_syms K →
    dict_get (s_name (sym K s)) (k_syms K) = Some s ∧ name_ok (s_name (sym K s)) ∧
    s_orig_type (sym K s) ≠ UNKNOWN ∧ one_line (str_of (K := K) (fuel := fuel) u s)
}.

Lemma gives_str_value u s :
  preset K (QTri s) = None → s_orig_type (sym K s) ≠ UNKNOWN →
  ∀ σ, session_ok (K := K) σ → uvals σ = u →
  ∃ σ', str_value K fuel s σ = Ok (str_of (K := K) (fuel := fuel) u s, σ') ∧
    session_ok (K := K) σ' ∧ uvals σ' = u ∧
    write_to_conf s σ' = written_of (K := K) (fuel := fuel) u s.
Proof using HK. intros Hp Ht σ Hσ Hu. rewrite <- Hu. by apply str_value_spec. Qed.

Lemma gives_old_vals_string u s :
  uok K u → s ∈ k_unique_defined_syms K → s_orig_type (sym K s) ≠ UNKNOWN →
  gives (K := K) u (old_vals_string K fuel s) (entry_text u s).
Proof using HK.
  intros Hu Hs Ht. pose proof (defined_not_preset (fuel := fuel) s Hs) as Hp.
  pose proof (gives_config_string u s Hp Ht) as Hc. unfold symbol_text in Hc.
  unfold old_vals_string, entry_text, entry. destruct (BOOL_TRISTATE (s_orig_type (sym K s))) eqn:Hb; cbn [andb negb].
  - eapply gives_bind; [apply gives_tri_value|].
    assert (str_of (K := K) (fuel := fuel) u s = tri_str (tri_of (K := K) (fuel := fuel) u s)) as Hstr.
    { rewrite (str_of_eq u Hu). by destruct (s_orig_type (sym K s)). }
    pose proof (tri_of_tri u Hu s) as Htri. apply is_tri_cases in Htri. rewrite Hstr in *.
    destruct Htri as [Hz|[Hz|Hz]]; rewrite Hz in *; cbn [Z.eqb].
    + change (tri_str 0) with "n". rewrite bool_decide_true, andb_false_r by done. apply gives_ret.
    + rewrite bool_decide_false, andb_true_r by done. by destruct (written_of u s).
    + rewrite bool_decide_false, andb_true_r by done. by destruct (written_of u s).
  - rewrite andb_true_r. by destruct (written_of u s).
Qed.

Lemma gives_concat u (f : nat → session → outcome (string * session)) (g : nat → string) l :
  (∀ s, s ∈ l → gives (K := K) u (f s) (g s)) → gives (K := K) u (concat_symbols f l) (sconcat (g <$> l)).
Proof using Type.
  induction l as [|s l IH]; intros H; cbn [concat_symbols fmap list_fmap sconcat]; [apply gives_ret|].
  eapply gives_bind; [apply H; by apply elem_of_cons; left|].
  eapply gives_bind; [apply IH; intros t Ht; apply H; by apply elem_of_cons; right|]. apply gives_ret.
Qed.

Definition auto_conf (u : ustate) : string := sconcat (entry_text u <$> k_unique_defined_syms K).

Lemma gives_old_vals u :
  uok K u → syncable u → gives (K := K) u (old_vals_contents K fuel) (auto_conf u).
Proof using HK.
  intros Hu Hsy. apply gives_concat. intros s Hs. apply gives_old_vals_string; [done|done|].
  by destruct (sy_sym u Hsy s Hs) as (_ & _ & ? & _).
Qed.

(** ** Reading the entries back *)

(** The lines of the entries of some symbols. *)
Definition entry_lines (u : ustate) (l : list nat) : list string :=
  flat_map (λ s, match entry u s with Some val => [config_line K s val] | None => [] end) l.

Lemma entry_lines_text u l :
  syncable u → (∀ s, s ∈ l → s ∈ k_unique_defined_syms K) →
  file_lines (sconcat (entry_text u <$> l)) = entry_lines u l.
Proof using Type.
  intros Hsy. induction l as [|s l IH]; intros Hl; [done|].
  assert (s ∈ k_unique_defined_syms K) as Hs by (apply Hl; by apply elem_of_cons; left).
  destruct (sy_sym u Hsy s Hs) as (_ & Hn & _ & Hv).
  unfold entry_lines. cbn [fmap list_fmap sconcat flat_map]. change (flat_map _ l) with (entry_lines u l).
  rewrite <- IH by (intros t Ht; apply Hl; by apply elem_of_cons; right). unfold entry_text at 1.
  destruct (entry u s) as [val|] eqn:He; [|by rewrite app_empty_l].
  destruct (entry_value u s val He) as [-> _].
  destruct (config_line_one s _ Hn (sy_prefix_line u Hsy) Hv) as (x & -> & Hx).
  rewrite file_lines_app by apply complete_nl. by rewrite file_lines_one.
Qed.

Lemma load_entry path u s val h :
  syncable u → s ∈ k_unique_defined_syms K → entry u s = Some val →
  load_old_line w K path (config_line K s val) h = (Ok (), set_h_old_vals (<[s := val]> (h_old_vals h)) h).
Proof using Type.
  intros Hsy Hs He. destruct (sy_sym u Hsy s Hs) as (Hd & Hn & Ht & Hv).
  destruct (entry_value u s val He) as [Hstr Hny].
  assert (one_line val) as Hval by (by rewrite Hstr).
  assert (∀ rest, one_line rest →
    set_match (k_config_prefix K) ((k_config_prefix K +:+ s_name (sym K s)) +:+ "=" +:+ rest +:+ nl)
    = Some (s_name (sym K s), rest)) as Hmatch.
  { intros rest Hr. destruct (set_match_line (k_config_prefix K) _ rest "" Hn Hr) as [_ Hm].
    by rewrite app_empty_r in Hm; rewrite app_assoc_s. }
  unfold load_old_line, config_line. cbv zeta.
  destruct (BOOL_TRISTATE (s_orig_type (sym K s))) eqn:Hb; [|destruct (INT_HEX (s_orig_type (sym K s))) eqn:Hi].
  - rewrite bool_decide_false, Hmatch, Hd by auto.
    by rewrite decide_False by (by intros E; rewrite E in Hb).
  - rewrite Hmatch, Hd by done. by rewrite decide_False by (by intros E; rewrite E in Hi).
  - replace ("=" +:+ dquote +:+ escape val +:+ dquote +:+ nl)
      with ("=" +:+ (dquote +:+ escape val +:+ dquote) +:+ nl) by (by rewrite !app_assoc_s).
    rewrite Hmatch by (rewrite !one_line_app; split_and!; [done|by apply one_line_escape|done]).
    rewrite Hd. rewrite decide_True by (by destruct (s_orig_type (sym K s))).
    replace (dquote +:+ escape val +:+ dquote) with (dquote +:+ escape val +:+ dquote +:+ "")
      by (by rewrite app_empty_r).
    by rewrite conf_string_match_escape, unescape_escape.
Qed.

(** Everything but the entries read from auto.conf. *)
Definition same_files (h h' : host) : Prop :=
  h_session h' = h_session h ∧ h_files h' = h_files h ∧ h_touched h' = h_touched h.

Lemma load_entries path u l h :
  syncable u → (∀ s, s ∈ l → s ∈ k_unique_defined_syms K) →
  ∃ h', io_each (load_old_line w K path) (entry_lines u l) h = (Ok (), h') ∧ same_files h h' ∧
  ∀ s, h_old_vals h' !! s = if decide (s ∈ l) then match entry u s with Some v => Some v | None => h_old_vals h !! s end
                            else h_old_vals h !! s.
Proof using Type.
  intros Hsy. revert h. induction l as [|s l IH]; intros h Hl; [by exists h|].
  assert (s ∈ k_unique_defined_syms K) as Hs by (apply Hl; by apply elem_of_cons; left).
  assert (∀ t, t ∈ l → t ∈ k_unique_defined_syms K) as Hl' by (intros t Ht; apply Hl; by apply elem_of_cons; right).
  unfold entry_lines. cbn [flat_map]. change (flat_map _ l) with (entry_lines u l).
  destruct (entry u s) as [val|] eqn:He; cbn [app io_each].
  - rewrite (io_bind_ok _ _ _ _ _ (load_entry path u s val h Hsy Hs He)).
    destruct (IH (set_h_old_vals (<[s:=val]> (h_old_vals h)) h) Hl') as (h' & E & Hf & Ho). exists h'. split_and!; [done|done|].
    intros t. rewrite Ho. cbn [h_old_vals set_h_old_vals].
    destruct (decide (t = s)) as [->|Hne].
    + rewrite lookup_insert_eq, He. by rewrite (decide_True (P := s ∈ s :: l)) by (by apply elem_of_cons; left); case_decide.
    + rewrite lookup_insert_ne by done.
      destruct (decide (t ∈ l)); [rewrite decide_True by (by apply elem_of_cons; right)|rewrite decide_False by (by intros [?|?]%elem_of_cons)]; done.
  - destruct (IH h Hl') as (h' & E & Hf & Ho). exists h'. split_and!; [done|done|]. intros t. rewrite Ho.
    destruct (decide (t = s)) as [->|Hne].
    + rewrite He. by repeat case_decide.
    + destruct (decide (t ∈ l)); [rewrite decide_True by (by apply elem_of_cons; right)|rewrite decide_False by (by intros [?|?]%elem_of_cons)]; done.
Qed.

Lemma forget_old_vals (m : gmap nat string) l s :
  foldl (λ m s, delete s m) m l !! s = if decide (s ∈ l) then None else m !! s.
Proof using Type.
  revert m. induction l as [|t l IH]; intros m; cbn [foldl]; [done|]. rewrite IH.
  destruct (decide (s = t)) as [->|Hne].
  - rewrite lookup_delete_eq. rewrite (decide_True (P := t ∈ t :: l)) by (by apply elem_of_cons; left). by case_decide.
  - rewrite lookup_delete_ne by done.
    destruct (decide (s ∈ l)); [rewrite decide_True by (by apply elem_of_cons; right)|rewrite decide_False by (by intros [?|?]%elem_of_cons)]; done.
Qed.

(** The entries that auto.conf holds: none before the first call, those of the
    configuration it was written for afterwards. *)
Inductive holds_entries (path : string) (h : host) : (nat → option string) → Prop :=
  | holds_nothing : open_read (path_join path "auto.conf") h = None → holds_entries path h (λ _, None)
  | holds_auto_conf u0 : syncable u0 → open_read (path_join path "auto.conf") h = Some (auto_conf u0) →
      holds_entries path h (entry u0).

Lemma load_old_vals_entries path h old :
  holds_entries path h old →
  ∃ h', load_old_vals w K path h = (Ok (), h') ∧
  same_files h h' ∧ ∀ s, s ∈ k_unique_defined_syms K → h_old_vals h' !! s = old s.
Proof using Type.
  intros Ho. unfold load_old_vals. erewrite io_bind_ok by done. erewrite io_bind_ok by done.
  set (h0 := set_h_old_vals (foldl (λ m s, delete s m) (h_old_vals h) (k_unique_defined_syms K)) h). cbv beta.
  change (open_read (path_join path "auto.conf") h0) with (open_read (path_join path "auto.conf") h).
  assert (∀ s, s ∈ k_unique_defined_syms K → h_old_vals h0 !! s = None) as H0.
  { intros s Hs. cbn. by rewrite forget_old_vals, decide_True. }
  destruct Ho as [Hr|u0 Hsy Hr]; rewrite Hr; [by exists h0|].
  unfold auto_conf. rewrite entry_lines_text by done.
  destruct (load_entries path u0 (k_unique_defined_syms K) h0 Hsy) as (h' & E & Hf & Hv); [done|].
  exists h'. split_and!; [done|done|]. intros s Hs. rewrite Hv, (decide_True (P := s ∈ k_unique_defined_syms K)) by done.
  destruct (entry u0 s) eqn:He; [done|]. by apply H0.
Qed.

(** The comparison of [sync_deps] is a comparison of entries. *)
Lemma dep_changed_entry u s old :
  (BOOL_TRISTATE (s_orig_type (sym K s)) = true → old ≠ Some "n") →
  dep_changed K s (str_of (K := K) (fuel := fuel) u s) (written_of (K := K) (fuel := fuel) u s) old
  = negb (bool_decide (old = entry u s)).
Proof using Type.
  intros Hold. unfold dep_changed, entry. cbv zeta. generalize (str_of (K := K) (fuel := fuel) u s) as val. intros val.
  destruct (written_of (K := K) (fuel := fuel) u s); cbn [andb].
  - destruct (BOOL_TRISTATE (s_orig_type (sym K s))) eqn:Hb; cbn [andb]; [|by rewrite andb_false_r].
    destruct (decide (val = "n")) as [->|Hn].
    + rewrite (bool_decide_true ("n" = "n")), (bool_decide_false (old = Some "n")) by auto.
      by destruct old.
    + by rewrite !(bool_decide_false (val = "n")), andb_false_r by done.
  - destruct old; [by rewrite bool_decide_true, bool_decide_false|by rewrite bool_decide_false by (by intros [? ?])].
Qed.

Lemma entry_not_n u s : BOOL_TRISTATE (s_orig_type (sym K s)) = true → entry u s ≠ Some "n".
Proof using Type. intros Hb He. by destruct (entry_value u s _ He) as [_ Hn]; apply Hn. Qed.

(** ** The whole call *)

(** Files of symbols end in .h, so that touching one leaves auto.conf alone. *)
Lemma dep_file_not_auto path name : dep_file path name ≠ path_join path "auto.conf".
Proof using Type.
  intros He%(f_equal srev). unfold dep_file, path_join in He. cbn [startswith] in He.
  repeat case_match; rewrite !srev_app_str in He; discriminate He.
Qed.

(** The files touched when the entries change from [old] to those of [u]. *)
Definition changed_files (path : string) (old : nat → option string) (u : ustate) : list string :=
  (λ s, dep_file path (s_name (sym K s)))
    <$> filter (λ s, old s ≠ entry u s) (k_unique_defined_syms K).

(** What touching the files of changed symbols leaves: all of them touched, or those
    before one that could not be written. *)
Definition touches (files : list string) (h : host) (r : outcome ()) (h' : host) : Prop :=
  match r with
  | Ok _ => h_touched h' = h_touched h ++ files
  | Raise e => ¬ can_write w ∧ (∃ strerror, e = OSError strerror) ∧
      ∃ some, some `prefix_of` files ∧ h_touched h' = h_touched h ++ some
  | NoFuel => False
  end.

Lemma touch_result path name h :
  ∃ r h', touch_dep_file w path name h = (r, h') ∧ h_session h' = h_session h ∧ h_old_vals h' = h_old_vals h ∧
    open_read (path_join path "auto.conf") h' = open_read (path_join path "auto.conf") h ∧
    touches [dep_file path name] h r h'.
Proof using Type.
  unfold touch_dep_file, open_read.
  destruct (write_file_cases w (dep_file path name) "" h) as [Hw|[(e & Hw)|(e & n & Hw)]].
  - rewrite (io_bind_ok _ _ _ _ _ Hw). eexists _, _. split_and!; [done..| |done]. cbn.
    by rewrite lookup_insert_ne by apply dep_file_not_auto.
  - rewrite (io_bind_raise _ _ _ _ _ Hw). eexists _, _. split_and!; [done..|]. split_and!; [|by eexists|].
    + intros Hall. by rewrite write_file_ok in Hw.
    + exists []. split; [apply prefix_nil|]. by rewrite app_nil_r.
  - rewrite (io_bind_raise _ _ _ _ _ Hw). eexists _, _. split_and!; [done..| |split_and!; [|by eexists|]].
    + cbn. by rewrite lookup_insert_ne by apply dep_file_not_auto.
    + intros Hall. by rewrite write_file_ok in Hw.
    + exists []. split; [apply prefix_nil|]. cbn. by rewrite app_nil_r.
Qed.

Lemma touches_app f1 f2 h h1 r h2 : touches f1 h (Ok ()) h1 → touches f2 h1 r h2 → touches (f1 ++ f2) h r h2.
Proof using Type.
  unfold touches at 1. intros E1. destruct r as [x|e|]; cbn [touches]; [| |done].
  - intros E2. by rewrite E2, E1, app_assoc.
  - intros (Hw & He & some & Hp & Ht). split_and!; [done|done|]. exists (f1 ++ some). split; [by apply prefix_app|].
    by rewrite Ht, E1, app_assoc.
Qed.

Lemma touches_stop f1 f2 h e h1 : touches f1 h (Raise e) h1 → touches (f1 ++ f2) h (Raise e) h1.
Proof using Type.
  cbn. intros (Hw & He & some & Hp & Ht). split_and!; [done|done|]. exists some. split; [by apply prefix_app_r|done].
Qed.

Lemma sync_symbol_result path old u s h :
  syncable u → s ∈ k_unique_defined_syms K →
  (BOOL_TRISTATE (s_orig_type (sym K s)) = true → old s ≠ Some "n") →
  session_ok (K := K) (h_session h) → uvals (h_session h) = u → h_old_vals h !! s = old s →
  ∃ r h', sync_symbol w K fuel path s h = (r, h') ∧ session_ok (K := K) (h_session h') ∧ uvals (h_session h') = u ∧
    h_old_vals h' = h_old_vals h ∧
    open_read (path_join path "auto.conf") h' = open_read (path_join path "auto.conf") h ∧
    touches (if decide (old s = entry u s) then [] else [dep_file path (s_name (sym K s))]) h r h'.
Proof using HK.
  intros Hsy Hs Hn Hok Hu Hold. destruct (sy_sym u Hsy s Hs) as (_ & _ & Ht & _).
  destruct (gives_str_value u s (defined_not_preset (fuel := fuel) s Hs) Ht (h_session h) Hok Hu)
    as (σ' & Hv & Hok' & Hu' & Hw).
  unfold sync_symbol. rewrite (io_bind_ok _ _ _ _ _ (io_on_session _ h _ _ Hv)). erewrite io_bind_ok by done. cbv beta.
  cbn [h_session set_h_session h_old_vals]. rewrite Hw, Hold, dep_changed_entry by done.
  destruct (decide (old s = entry u s)) as [He|He].
  - rewrite bool_decide_true by done. exists (Ok ()). eexists. split_and!; [done..|]. cbn. by rewrite app_nil_r.
  - rewrite bool_decide_false by done. cbn [negb].
    destruct (touch_result path (s_name (sym K s)) (set_h_session σ' h)) as (r & h' & E & E1 & E2 & E3 & E4).
    exists r, h'. rewrite E1. by split_and!.
Qed.

Lemma sync_symbols_result path old u l h :
  syncable u → (∀ s, s ∈ l → s ∈ k_unique_defined_syms K) →
  (∀ s, BOOL_TRISTATE (s_orig_type (sym K s)) = true → old s ≠ Some "n") →
  session_ok (K := K) (h_session h) → uvals (h_session h) = u →
  (∀ s, s ∈ k_unique_defined_syms K → h_old_vals h !! s = old s) →
  ∃ r h', io_each (sync_symbol w K fuel path) l h = (r, h') ∧ session_ok (K := K) (h_session h') ∧ uvals (h_session h') = u ∧
    open_read (path_join path "auto.conf") h' = open_read (path_join path "auto.conf") h ∧
    touches ((λ s, dep_file path (s_name (sym K s))) <$> filter (λ s, old s ≠ entry u s) l) h r h'.
Proof using HK.
  intros Hsy. revert h. induction l as [|s l IH]; intros h Hl Hn Hok Hu Hold.
  { exists (Ok ()), h. split_and!; [done..|]. cbn. by rewrite app_nil_r. }
  assert (s ∈ k_unique_defined_syms K) as Hs by (apply Hl; by apply elem_of_cons; left).
  destruct (sync_symbol_result path old u s h Hsy) as (r & h1 & E & Hok1 & Hu1 & Hv1 & Hf1 & Ht1); auto.
  cbn [io_each].
  assert ((λ s, dep_file path (s_name (sym K s))) <$> filter (λ s, old s ≠ entry u s) (s :: l)
    = (if decide (old s = entry u s) then [] else [dep_file path (s_name (sym K s))])
      ++ ((λ s, dep_file path (s_name (sym K s))) <$> filter (λ s, old s ≠ entry u s) l)) as ->.
  { rewrite filter_cons. by destruct (decide (old s = entry u s)); [rewrite decide_False by (by intros ?)|rewrite decide_True by done]. }
  destruct r as [[]|e|]; [| |done].
  - rewrite (io_bind_ok _ _ _ _ _ E).
    destruct (IH h1) as (r & h2 & E2 & Hok2 & Hu2 & Hf2 & Ht2); auto.
    { intros t Hin. apply Hl. by apply elem_of_cons; right. }
    { intros t Hin. rewrite Hv1. by apply Hold. }
    exists r, h2. split_and!; [done..|congruence|]. by eapply touches_app.
  - rewrite (io_bind_raise _ _ _ _ _ E). exists (Raise e), h1. split_and!; [done..|]. by apply touches_stop.
Qed.

(** A whole call: the changed files are touched and auto.conf holds the new entries,
    or a write fails and auto.conf is as before, or all files are touched and the
    write of auto.conf fails. *)
Definition synced (path : string) (files : list string) (u : ustate) (h : host) (r : outcome ()) (h' : host) : Prop :=
  match r with
  | Ok _ => h_touched h' = h_touched h ++ files ∧
      (universal_newlines (auto_conf u) = auto_conf u → open_read (path_join path "auto.conf") h' = Some (auto_conf u))
  | Raise e => ¬ can_write w ∧ (∃ strerror, e = OSError strerror) ∧
      ((open_read (path_join path "auto.conf") h' = open_read (path_join path "auto.conf") h ∧
        ∃ some, some `prefix_of` files ∧ h_touched h' = h_touched h ++ some) ∨
       h_touched h' = h_touched h ++ files)
  | NoFuel => False
  end.

Lemma write_old_vals_result path h :
  session_ok (K := K) (h_session h) → syncable (uvals (h_session h)) →
  ∃ r h', write_old_vals w K fuel path h = (r, h') ∧ session_ok (K := K) (h_session h') ∧
    uvals (h_session h') = uvals (h_session h) ∧ synced path [] (uvals (h_session h)) h r h'.
Proof using HK.
  intros Hok Hsy.
  destruct (gives_old_vals (uvals (h_session h)) (proj1 Hok) Hsy (h_session h) Hok eq_refl) as (σ2 & Hc & Hok2 & Hu2).
  unfold write_old_vals. rewrite (io_bind_ok _ _ _ _ _ (io_on_session _ h _ _ Hc)).
  destruct (write_if_changed_cases w (path_join path "auto.conf") (auto_conf (uvals (h_session h))) (set_h_session σ2 h))
    as [[Hr E]|[E|[Hw [(e & E)|(e & n & E)]]]].
  - rewrite (io_bind_ok _ _ _ _ _ E). exists (Ok ()). eexists. split_and!; [done..|]. split; [cbn; by rewrite app_nil_r|done].
  - rewrite (io_bind_ok _ _ _ _ _ E). exists (Ok ()). eexists. split_and!; [done..|]. split; [cbn; by rewrite app_nil_r|].
    intros Hn. unfold open_read. cbn. rewrite lookup_insert_eq. cbn. by rewrite Hn.
  - rewrite (io_bind_raise _ _ _ _ _ E). eexists _, _. split_and!; [done..|]. split_and!; [done|by eexists|].
    right. cbn. by rewrite app_nil_r.
  - rewrite (io_bind_raise _ _ _ _ _ E). eexists _, _. split_and!; [done..|]. split_and!; [done|by eexists|].
    right. cbn. by rewrite app_nil_r.
Qed.

Lemma sync_deps_result path old h :
  session_ok (K := K) (h_session h) → syncable (uvals (h_session h)) → holds_entries path h old →
  ∃ r h', sync_deps w K fuel path h = (r, h') ∧ session_ok (K := K) (h_session h') ∧
    uvals (h_session h') = uvals (h_session h) ∧
    synced path (changed_files path old (uvals (h_session h))) (uvals (h_session h)) h r h'.
Proof using HK.
  intros Hok Hsy Hold. destruct (load_old_vals_entries path h old Hold) as (h0 & E0 & (E1 & E2 & E3) & Hv).
  unfold sync_deps. rewrite (io_bind_ok _ _ _ _ _ E0).
  assert (open_read (path_join path "auto.conf") h0 = open_read (path_join path "auto.conf") h) as E4 by (unfold open_read; by rewrite E2).
  destruct (sync_symbols_result path old (uvals (h_session h)) (k_unique_defined_syms K) h0 Hsy)
    as (r1 & h1 & R1 & Hok1 & Hu1 & Hf1 & Ht1); rewrite ?E1; try done.
  { intros s Hs. destruct Hold; [done|by apply entry_not_n]. }
  rewrite E4 in Hf1. destruct r1 as [[]|e|]; [| |done].
  - rewrite (io_bind_ok _ _ _ _ _ R1). cbn [touches] in Ht1. rewrite E3 in Ht1.
    destruct (write_old_vals_result path h1 Hok1) as (r & h2 & R2 & Hok2 & Hu2 & Hs2); [by rewrite Hu1|].
    rewrite Hu1 in *. exists r, h2. split_and!; [done..|].
    destruct r as [x|e|]; cbn in Hs2 |- *; [| |done].
    + destruct Hs2 as [Ht2 Hs2]. split; [by rewrite Ht2, Ht1, app_nil_r|done].
    + destruct Hs2 as (Hw & He & Hs2). split_and!; [done|done|]. right.
      destruct Hs2 as [(_ & some & Hp & Ht2)|Ht2]; rewrite Ht2, Ht1; [|by rewrite app_nil_r].
      apply prefix_nil_inv in Hp as ->. by rewrite app_nil_r.
  - rewrite (io_bind_raise _ _ _ _ _ R1). exists (Raise e), h1. split_and!; [done..|].
    destruct Ht1 as (Hw & He & some & Hp & Ht1). rewrite E3 in Ht1. split_and!; [done|done|]. left. split; [done|]. by exists some.
Qed.

(** ** Touched files stay touched *)

Definition touches_more {A} (m : HIO A) : Prop := ∀ h, h_touched h `prefix_of` h_touched (m h).2.

Lemma more_bind {A B} (m : HIO A) (f : A → HIO B) : touches_more m → (∀ a, touches_more (f a)) → touches_more (m ≫= f).
Proof using Type.
  intros Hm Hf h. specialize (Hm h). unfold mbind, HIO_bind. destruct (m h) as [[a|e|] h1]; [|done..].
  by etrans; [exact Hm|apply Hf].
Qed.
Lemma more_ret {A} (a : A) : touches_more (mret a).
Proof using Type. by intros h. Qed.
Lemma more_get {A} (f : host → A) : touches_more (io_get f).
Proof using Type. by intros h. Qed.
Lemma more_session {A} (f : session → outcome (A * session)) : touches_more (io_lift (on_session f)).
Proof using Type. intros h. unfold io_lift, on_session. by destruct (f (h_session h)) as [[]| |]. Qed.
Lemma more_write path text : touches_more (write_file w path text).
Proof using Type. intros h. unfold write_file. by destruct (w_write _ _ _ _) as [[]|]. Qed.
Lemma more_modify (f : host → host) : (∀ h, h_touched h `prefix_of` h_touched (f h)) → touches_more (io_modify f).
Proof using Type. by intros Hf h. Qed.
Lemma more_each {A} (f : A → HIO ()) l : (∀ a, touches_more (f a)) → touches_more (io_each f l).
Proof using Type. intros Hf. induction l as [|a l IH]; cbn [io_each]; [apply more_ret|]. by apply more_bind. Qed.
Create HintDb more discriminated.
#[local] Hint Resolve more_ret more_get more_session more_write : more.
Ltac more := repeat first [ solve [auto with more] | apply more_bind; [|intros ?] | apply more_each; intros ? | case_match ].

Lemma more_touch path name : touches_more (touch_dep_file w path name).
Proof using Type. unfold touch_dep_file. more. apply more_modify. intros h. cbn. by eexists. Qed.
#[local] Hint Resolve more_touch : more.

Lemma more_sync_deps path : touches_more (sync_deps w K fuel path).
Proof using Type.
  unfold sync_deps, load_old_vals, load_old_line, set_old_val, sync_symbol, write_old_vals, write_if_changed. more;
    apply more_modify; intros h; reflexivity.
Qed.

(** ** A call succeeds when its writes do, whatever auto.conf holds *)

(** A computation that succeeds, without changing the user values. *)
Definition goes_on (m : HIO ()) : Prop := ∀ h,
  session_ok (K := K) (h_session h) → syncable (uvals (h_session h)) →
  ∃ h', m h = (Ok (), h') ∧ session_ok (K := K) (h_session h') ∧ uvals (h_session h') = uvals (h_session h).

Lemma goes_bind m m2 : goes_on m → goes_on m2 → goes_on (m;; m2).
Proof using Type.
  intros H1 H2 h Hok Hsy. destruct (H1 h Hok Hsy) as (h1 & E1 & Hok1 & Hu1). rewrite (io_bind_ok _ _ _ _ _ E1).
  destruct (H2 h1 Hok1) as (h2 & E2 & Hok2 & Hu2); [by rewrite Hu1|]. exists h2. split_and!; [done|done|congruence].
Qed.

Lemma goes_each {A} (f : A → HIO ()) l : (∀ a, a ∈ l → goes_on (f a)) → goes_on (io_each f l).
Proof using Type.
  induction l as [|a l IH]; intros Hf; cbn [io_each]; [by intros h; exists h|].
  apply goes_bind; [apply Hf; by apply elem_of_cons; left|]. apply IH. intros b Hb. apply Hf. by apply elem_of_cons; right.
Qed.

Lemma goes_touch path name : can_write w → goes_on (touch_dep_file w path name).
Proof using Type.
  intros Hw h Hok _. unfold touch_dep_file. rewrite (io_bind_ok _ _ _ _ _ (write_file_ok w _ _ h Hw)).
  eexists. split; [done|]. by split.
Qed.

Lemma goes_modify (f : host → host) : (∀ h, h_session (f h) = h_session h) → goes_on (io_modify f).
Proof using Type. intros Hf h Hok _. exists (f h). by rewrite Hf. Qed.

Lemma goes_load_line path line : can_write w → goes_on (load_old_line w K path line).
Proof using Type.
  intros Hw. unfold load_old_line. repeat case_match; first [by apply goes_touch|by apply goes_modify|by intros h; exists h].
Qed.

Lemma goes_sync_symbol path s : can_write w → s ∈ k_unique_defined_syms K → goes_on (sync_symbol w K fuel path s).
Proof using HK.
  intros Hw Hs h Hok Hsy. destruct (sy_sym _ Hsy s Hs) as (_ & _ & Ht & _).
  destruct (gives_str_value _ s (defined_not_preset (fuel := fuel) s Hs) Ht (h_session h) Hok eq_refl)
    as (σ' & Hv & Hok' & Hu' & _).
  unfold sync_symbol. rewrite (io_bind_ok _ _ _ _ _ (io_on_session _ h _ _ Hv)). erewrite io_bind_ok by done. cbv beta.
  rewrite <- Hu'. change σ' with (h_session (set_h_session σ' h)).
  case_match; [apply (goes_touch path _ Hw); [done|by cbn; rewrite Hu']|by eexists].
Qed.

Lemma sync_deps_succeeds path h : can_write w →
  session_ok (K := K) (h_session h) → syncable (uvals (h_session h)) →
  ∃ h', sync_deps w K fuel path h = (Ok (), h') ∧ uvals (h_session h') = uvals (h_session h) ∧
    (universal_newlines (auto_conf (uvals (h_session h))) = auto_conf (uvals (h_session h)) →
     open_read (path_join path "auto.conf") h' = Some (auto_conf (uvals (h_session h)))).
Proof using HK.
  intros Hw Hok Hsy.
  assert (goes_on (load_old_vals w K path)) as Hload.
  { unfold load_old_vals. apply goes_bind; [by apply goes_modify|]. intros h1. erewrite io_bind_ok by done.
    destruct (open_read _ _) as [text|]; [|by exists h1].
    apply (goes_each (load_old_line w K path)). intros line _. by apply goes_load_line. }
  assert (goes_on (io_each (sync_symbol w K fuel path) (k_unique_defined_syms K))) as Hsync.
  { apply goes_each. intros s Hs. by apply goes_sync_symbol. }
  destruct (Hload h Hok Hsy) as (h1 & E1 & Hok1 & Hu1). destruct (Hsync h1 Hok1) as (h2 & E2 & Hok2 & Hu2); [by rewrite Hu1|].
  rewrite Hu1 in Hu2. destruct (write_old_vals_result path h2 Hok2) as (r & h3 & E3 & _ & Hu3 & H3); [by rewrite Hu2|].
  rewrite Hu2 in *. destruct r as [[]|e|]; [|by destruct H3 as [[] _]|done].
  exists h3. unfold sync_deps. rewrite (io_bind_ok _ _ _ _ _ E1), (io_bind_ok _ _ _ _ _ E2). split_and!; [done|done|apply H3].
Qed.
End Sync.
