(* ===== verification/Demo.v ===== *)
(** * Concrete configurations

    Kconfig texts run through the loader.  The witnesses of the theorems evaluate
    on them. *)

From S2P Require Import Prelude PyStr PyText Kconst Expr Incr Objects ParseState Preproc.
From S2P Require Import Lexer Parser Printing DepLoop MenuTree Sanity.
From S2P Require Import Values Reads Session Check Deps Load.
From stdpp Require Import options.

(** Lines with ' for a double quote. *)
Definition kconfig_text (l : list string) : string :=
  sconcat ((λ s, replace_char sq_c dquote s +:+ nl) <$> l).

(** A world with one file and nothing else. *)
Definition one_file (text : string) : world :=
  World (λ _, None) (λ f, if decide (f = "Kconfig") then Some text else None)
    (λ _, "ENOENT: No such file or directory") (λ _, []) (λ _, ("", "")) (λ _, "/src")
    "6.1" (λ _, None) (λ _ _ _, None) (λ _ _ _, true).

Definition load_text (text : string) : outcome pstate :=
  load (one_file text) 400 "Kconfig" true false.

Definition loaded (o : outcome pstate) : kconfig :=
  match o with Ok p => p_k p | _ => initial_kconfig (one_file "") "" end.

Definition sym_named (K : kconfig) (name : string) : nat := default 0 (dict_get name (k_syms K)).
Definition choice_named (K : kconfig) (name : string) : nat :=
  default 0 (dict_get name (k_named_choices K)).

(** Symbols of every type, a menu, a choice, selects, implies, ranges, an
    implicit submenu. *)
Definition demo_text : string := kconfig_text
  ["mainmenu 'Demo'"; "";
   "config MODULES"; "	bool 'Modules'"; "	default y"; "";
   "config A"; "	tristate 'A'"; "	default m"; "";
   "config B"; "	bool 'B'"; "	depends on A"; "	select C if A"; "	imply D"; "	help"; "	  Help of B."; "";
   "config C"; "	bool"; "";
   "config D"; "	tristate 'D'"; "";
   "choice MODE"; "	prompt 'Mode'"; "	default SLOW"; "";
   "config FAST"; "	bool 'Fast'"; "";
   "config SLOW"; "	bool 'Slow'"; ""; "endchoice"; "";
   "menu 'Numbers'"; "	depends on A = m"; "";
   "config N"; "	int 'N'"; "	range 1 10"; "	default 50"; "";
   "config H"; "	hex 'H' if B"; "	default 0x10"; ""; "endmenu"; "";
   "config S"; "	string 'S'"; "	default 'a b'"; ""].

Definition demo_state : outcome pstate := Eval vm_compute in load_text demo_text.
Definition demo : kconfig := Eval vm_compute in loaded demo_state.
Definition demo_fuel : nat := 60.

Lemma demo_loads : load_text demo_text = demo_state.
Proof. vm_compute. reflexivity. Qed.

Lemma demo_check : loadedb demo demo_fuel = true.
Proof. vm_compute. reflexivity. Qed.

#[export] Instance demo_Loaded : Loaded demo demo_fuel := checked_Loaded demo demo_fuel demo_check.

Definition quiet : wlog := WLog true false [] [].
Definition demo_session : session := initial_session demo quiet.

Definition dA : nat := Eval vm_compute in sym_named demo "A".
Definition dB : nat := Eval vm_compute in sym_named demo "B".
Definition dC : nat := Eval vm_compute in sym_named demo "C".
Definition dD : nat := Eval vm_compute in sym_named demo "D".
Definition dFAST : nat := Eval vm_compute in sym_named demo "FAST".
Definition dSLOW : nat := Eval vm_compute in sym_named demo "SLOW".
Definition dN : nat := Eval vm_compute in sym_named demo "N".
Definition dH : nat := Eval vm_compute in sym_named demo "H".
Definition dS : nat := Eval vm_compute in sym_named demo "S".
Definition dMODE : nat := Eval vm_compute in choice_named demo "MODE".

(** The answers a session gives. *)
Definition answers (o : outcome (list answer * session)) : option (list answer) :=
  match o with Ok (l, _) => Some l | _ => None end.

Example demo_values :
  answers (do_ops demo demo_fuel
    [Read (QStr dA); SetValue dB (UStr "y"); Read (QStr dC); Read (QStr dD); Read (QStr dFAST);
     SetValue dFAST (UTri 2); Read (QStr dFAST); Read (QStr dSLOW); Read (QStr dN);
     SetValue dN (UStr "7"); Read (QStr dN); SetValue dA (UStr "y"); Read (QStr dN); Read (QStr dD);
     Read (QStr dS); UnsetValues; Read (QStr dA)] demo_session)
  = Some [AVal (VStr "m"); ABool true; AVal (VStr "y"); AVal (VStr "m"); AVal (VStr "n");
          ABool true; AVal (VStr "y"); AVal (VStr "n"); AVal (VStr "10"); ABool true;
          AVal (VStr "7"); ABool true; AVal (VStr ""); AVal (VStr "y"); AVal (VStr "a b");
          ANone; AVal (VStr "m")].
Proof. vm_compute. reflexivity. Qed.

(** The same configuration before the dependencies are added. *)
Definition load_untracked (text : string) : kconfig :=
  match (parse_files (one_file text) 400;; finalize 400;; sanity_checks (one_file text) 400)
          (initial_pstate (one_file text) "Kconfig" (file_lines text) (WLog true false [] [])) with
  | Ok (_, p) => p_k p
  | _ => initial_kconfig (one_file "") ""
  end.

Definition demo_untracked : kconfig := Eval vm_compute in load_untracked demo_text.

Lemma demo_tracked : demo = track_deps demo_untracked.
Proof. vm_compute. reflexivity. Qed.

Lemma demo_untracked_wf : wf demo_untracked.
Proof. apply wfb_wf. vm_compute. reflexivity. Qed.

Lemma demo_untracked_sane : sane demo_untracked.
Proof. apply saneb_sane. vm_compute. reflexivity. Qed.

Lemma demo_session_ok : session_ok (K := demo) demo_session.
Proof. apply (initial_session_ok (fuel := demo_fuel)). Qed.

(** The state after some operations. *)
Definition after (l : list op) : session :=
  match do_ops demo demo_fuel l demo_session with Ok (_, σ) => σ | _ => demo_session end.

Lemma after_ok l : session_ok (K := demo) (after l).
Proof.
  unfold after. destruct (do_ops_refines demo demo_fuel l demo_session demo_session_ok)
    as (r & σ' & -> & ? & _). done.
Qed.
