(* ===== verification/Divergences.v ===== *)
(** * Where the code and its documentation part

    Closed computations of the model that show behaviour the comments, the
    documentation or the other parts of the code do not intend.  Each theorem runs
    the loader or a session on a small Kconfig text. *)

From S2P Require Import Prelude PyStr PyText Kconst Expr Escape Incr Objects ParseState Preproc.
From S2P Require Import Lexer Parser Printing DepLoop MenuTree Sanity Values Reads Session.
From S2P Require Import ConfigFile ConfigWrite Check Deps Load Demo.
From stdpp Require Import options.

(** ** Running a text *)

Definition configuration (lines : list string) : kconfig := loaded (load_text (kconfig_text lines)).

Definition load_result (lines : list string) : option exn + list string :=
  match load_text (kconfig_text lines) with
  | Ok p => inr (warnings (p_log p))
  | Raise e => inl (Some e)
  | NoFuel => inl None
  end.

Definition answers_of (K : kconfig) (l : list op) : option (list answer) :=
  answers (do_ops K 60 l (initial_session K quiet)).

(** A host after some operations. *)
Definition host_after (K : kconfig) (l : list op) (files : list (string * string)) : host :=
  let σ := match do_ops K 60 l (initial_session K quiet) with
           | Ok (_, σ) => σ
           | _ => initial_session K quiet
           end in
  Host σ (list_to_map files) [] true true true ∅ [] [].

(** The value of a symbol before and after writing and reading back the
    configuration. *)
Definition saved_and_loaded (K : kconfig) (s : nat) : option (list answer) * option (list answer) :=
  let read h := answers (do_ops K 60 [Read (QTri s)] (h_session h)) in
  match write_config (one_file "") K 60 (Some ".config") (Some "") true (host_after K [] []) with
  | (Ok _, h) =>
      match load_config_file (one_file "") K ".config" true h with
      | Ok h' => (read h, read h')
      | _ => (None, None)
      end
  | _ => (None, None)
  end.

Definition with_modules (lines : list string) : list string :=
  ["config MODULES"; " bool 'Modules'"; " option modules"; " default y"] ++ lines.

(** ** The menu tree *)

Definition unequal_menu : kconfig := Eval vm_compute in configuration
  ["config A"; " bool 'A'"; "config B"; " bool 'B'"; " depends on A != y"].

(** A symbol that depends on [A != y] becomes a child of A, although it is only
    visible while A is not y. *)
Theorem unequal_makes_submenu :
  let a := sym_named unequal_menu "A" in
  let b := sym_named unequal_menu "B" in
  expr_depends_on (k_sym_n unequal_menu) (k_sym_m unequal_menu) (k_sym_y unequal_menu)
    (ERel UNEQUAL a (k_sym_y unequal_menu)) a = true ∧
  s_nodes (sym unequal_menu b) = [8] ∧ n_parent (nod unequal_menu 8) = Some 6 ∧
  s_nodes (sym unequal_menu a) = [6].
Proof. vm_compute. done. Qed.

(** Properties after a [menu] entry are read into the menu's node, which has no
    item: an attribute of None, not a [KconfigError]. *)
Theorem property_of_menu_crashes :
  load_result ["menu 'x'"; " bool"; "endmenu"] = inl (Some AttributeError).
Proof. vm_compute. reflexivity. Qed.

(** A variable that refers to itself in its first [:=] assignment is found, with
    no value yet. *)
Theorem self_reference_crashes : load_result ["FOO := $(FOO) x"] = inl (Some AttributeError).
Proof. vm_compute. reflexivity. Qed.

(** The warning about [option env] names the symbol as the variable and the
    variable as the symbol. *)
Theorem env_warning_swapped :
  load_result ["config FOO"; " string"; " option env='FOO'"]
  = inr ["Kconfig:3: warning: FOO has 'option env=" +:+ dquote +:+ "FOO" +:+ dquote
          +:+ "', but the environment variable FOO is not set"] ∧
  ∃ rest, load_result ["config FOO"; " string"; " option env='BAR'"]
  = inr (("Kconfig:3: warning: BAR has 'option env=" +:+ dquote +:+ "FOO" +:+ dquote
          +:+ "', but the environment variable FOO is not set") :: rest).
Proof. split; [vm_compute; reflexivity|]. eexists. vm_compute. reflexivity. Qed.

(** ** Dependency loops *)

(** The loop message shows the selects of B twice, the second time as its
    implies: C, which implies B, is not named. *)
Theorem loop_message_shows_selects :
  ∃ start rest, load_result
    ["config A"; " bool 'a'"; " depends on B"; "config B"; " bool 'b'"; "config C"; " bool 'c'"; " imply B if A";
     "config D"; " bool 'd'"; " select B"]
  = inl (Some (KconfigError (start +:+ "(select-related dependencies: D)" +:+ nl +:+ nl
                                   +:+ "(imply-related dependencies: D)" +:+ rest))).
Proof.
  set (r := load_result _).
  assert (∃ msg i, r = inl (Some (KconfigError msg)) ∧ s_find "(select-related dependencies: D)" msg 0 = Some i ∧
    msg = stake i msg +:+ "(select-related dependencies: D)" +:+ nl +:+ nl +:+ "(imply-related dependencies: D)"
            +:+ sdrop (i + slen ("(select-related dependencies: D)" +:+ nl +:+ nl +:+ "(imply-related dependencies: D)")) msg)
    as (msg & i & Hr & _ & Hm).
  { eexists _, _. split_and!; vm_compute; reflexivity. }
  exists (stake i msg). eexists. rewrite Hr, Hm at 1. reflexivity.
Qed.

(** A symbol of a menu inside a choice does not belong to the choice, so the loop
    check does not follow the choice's prompt through it; yet it depends on the
    choice.  Its value never comes out, at a depth beyond Python's recursion
    limit. *)
Definition hidden_loop : kconfig := Eval vm_compute in configuration
  ["choice"; " prompt 'P' if X"; "config Y"; " bool 'Y'"; "menu 'M'"; "config X"; " bool 'X'"; "endmenu"; "endchoice"].

Theorem undetected_loop :
  load_result
    ["choice"; " prompt 'P' if X"; "config Y"; " bool 'Y'"; "menu 'M'"; "config X"; " bool 'X'"; "endmenu"; "endchoice"]
  = inr [] ∧
  do_ops hidden_loop 1000 [Read (QTri (sym_named hidden_loop "X"))] (initial_session hidden_loop quiet) = NoFuel.
Proof. split; vm_compute; reflexivity. Qed.

(** ** Stale values *)

Definition foreign_default : kconfig := Eval vm_compute in configuration
  ["config X"; " bool 'X'"; "config OUT"; " bool 'OUT' if X"; "choice CH"; " prompt 'C'"; " default OUT";
   "config IN"; " bool 'IN'"; "endchoice"].

(** The selection of a choice reads the visibility of its default symbols, but
    depends on its own symbols alone: with a default from outside (which is only
    warned about) a change of X does not reach it. *)
Theorem foreign_default_stale :
  let c := choice_named foreign_default "CH" in
  let x := sym_named foreign_default "X" in
  ∃ stale fresh, stale ≠ fresh ∧
    answers_of foreign_default [Read (QSel c); SetValue x (UTri 2); Read (QSel c)]
      = Some [AVal stale; ABool true; AVal stale] ∧
    answers_of foreign_default [SetValue x (UTri 2); Read (QSel c)] = Some [ABool true; AVal fresh].
Proof. cbv zeta. eexists _, _. split; [|split; vm_compute; reflexivity]. by vm_compute. Qed.

Definition foreign_prompt : kconfig := Eval vm_compute in configuration (with_modules
  ["choice CH"; " tristate 'C'"; "config IN"; " bool"; "endchoice"; "config IN"; " bool 'again'"]).

(** The visibility of a bool symbol in a tristate choice reads the choice's mode;
    with its prompt outside the choice (which is only warned about) it does not
    depend on the choice. *)
Theorem foreign_prompt_stale :
  let c := choice_named foreign_prompt "CH" in
  let s := ISym (sym_named foreign_prompt "IN") in
  answers_of foreign_prompt [Read (QVis s); ChoiceSetValue c (UTri 2); Read (QVis s)]
    = Some [AVal (VTri 0); ABool true; AVal (VTri 0)] ∧
  answers_of foreign_prompt [ChoiceSetValue c (UTri 2); Read (QVis s)] = Some [ABool true; AVal (VTri 2)].
Proof. split; vm_compute; reflexivity. Qed.

(** ** Assignable values *)

Definition implied_y : kconfig := Eval vm_compute in configuration (with_modules
  ["config V"; " tristate 'V'"; " default m"; "config S"; " tristate 'S'"; " default m"; " select X";
   "config I"; " bool 'I'"; " default y"; " imply X"; "config X"; " tristate 'X'"; " depends on V"]).

(** [assignable] offers m alone, but assigning m gives y. *)
Theorem assignable_m_gives_y :
  let x := sym_named implied_y "X" in
  answers_of implied_y [Read (QAsg (ISym x)); SetValue x (UTri 1); Read (QTri x)]
  = Some [AVal (VAsg [1%Z]); ABool true; AVal (VTri 2)].
Proof. vm_compute. reflexivity. Qed.

(** ** Loading and saving *)

Definition one_bool : kconfig := Eval vm_compute in configuration ["config A"; " bool 'A'"].

(** [unset_value] leaves [_was_set]: merging a file that assigns the symbol looks
    up the text of a value that is None. *)
Theorem merge_after_unset_crashes :
  let a := sym_named one_bool "A" in
  load_config_file (one_file "") one_bool ".config" false
    (host_after one_bool [SetValue a (UTri 2); UnsetValue a] [(".config", "CONFIG_A=y" +:+ nl)])
  = Raise KeyError.
Proof. vm_compute. reflexivity. Qed.

Definition tristate_choice : kconfig := Eval vm_compute in configuration (with_modules
  ["choice CH"; " tristate 'C'"; "config P"; " tristate 'P'"; "config Q"; " tristate 'Q'"; "endchoice"]).

(** Replacing the configuration keeps the selection made before in a choice that
    the file puts in m mode: it comes back when modules are switched off. *)
Theorem replace_keeps_selection :
  let p := sym_named tristate_choice "P" in
  let q := sym_named tristate_choice "Q" in
  let modules := sym_named tristate_choice "MODULES" in
  let loaded_after l :=
    match load_config_file (one_file "") tristate_choice ".config" true
            (host_after tristate_choice l [(".config", "CONFIG_P=m" +:+ nl +:+ "CONFIG_Q=m" +:+ nl)]) with
    | Ok h => answers (do_ops tristate_choice 60 [SetValue modules (UTri 0); Read (QTri p); Read (QTri q)] (h_session h))
    | _ => None
    end in
  loaded_after [] = Some [ABool true; AVal (VTri 2); AVal (VTri 0)] ∧
  loaded_after [SetValue q (UTri 2)] = Some [ABool true; AVal (VTri 0); AVal (VTri 2)].
Proof. split; vm_compute; reflexivity. Qed.

Definition strong_default : kconfig := Eval vm_compute in configuration (with_modules
  ["config V"; " tristate 'V'"; " default m"; "config X"; " tristate 'X' if V"; " default y"]).

(** A default above the visibility of its symbol is written and read back lower. *)
Theorem strong_default_not_restored :
  saved_and_loaded strong_default (sym_named strong_default "X")
  = (Some [AVal (VTri 2)], Some [AVal (VTri 1)]).
Proof. vm_compute. reflexivity. Qed.

Definition comment_line : kconfig := Eval vm_compute in configuration
  ["config X"; " bool 'X'"; " default y"; "comment 'CONFIG_X is not set'"].

(** The text of a comment is written behind a hash sign, where it is read as an
    assignment. *)
Theorem comment_read_as_assignment :
  saved_and_loaded comment_line (sym_named comment_line "X") = (Some [AVal (VTri 2)], Some [AVal (VTri 0)]).
Proof. vm_compute. reflexivity. Qed.
