(* ===== verification/Client.v ===== *)
(** * The contract of a Kconfig object with its clients

    The simulation between the program, which caches every property and
    invalidates what a change can affect, and a specification without a cache;
    and what each operation of a client does to the state of a session. *)

From S2P Require Import Prelude PyStr Kconst Expr Incr Objects Values Reads Session.
From S2P Require Import Meaning Effects Check Deps ParseState Load Demo.
From stdpp Require Import options.

Section Client.
Context {K : kconfig} {fuel : nat} {HK : Loaded K fuel}.
Implicit Types σ : session.

Abbreviation ok σ := (session_ok (K := K) σ).
Abbreviation reads σ q v := (reads (K := K) (fuel := fuel) σ q v).

(** C1 Refinement.  On a loaded configuration every sequence of client
    operations runs without error and returns the answers of a specification
    whose state is the user values alone and which computes every property
    from scratch: the caches and their invalidation cannot be observed. *)
Theorem session_refines l log :
  ∃ r σ', do_ops K fuel l (initial_session K log) = Ok (r, σ') ∧
    spec_ops K fuel l no_user_values = Ok (r, uvals σ').
Proof using HK.
  destruct (do_ops_refines K fuel l (initial_session K log)) as (r & σ' & H1 & _ & H2);
    [apply (initial_session_ok (fuel := fuel))|]. exists r, σ'. done.
Qed.

(** C15 Invalidating a symbol or choice terminates, forgets every cached
    property of it and of its direct dependents, only ever forgets, and leaves
    a cache whose contents are right. *)
Theorem invalidation_clears σ i :
  ok σ → i ∈ all_items K →
  ∃ σ', inval K i σ = Ok σ' ∧ ok σ' ∧ uvals σ' = uvals σ ∧
    cache (vals σ') ⊆ cache (vals σ) ∧
    (∀ q, owner q = i → cache (vals σ') !! q = None) ∧
    (∀ d, d ∈ dependents K i → cache (vals σ') !! QVis d = None).
Proof using HK.
  intros [Hu Hc] Hi. destruct (inval_ok (uvals σ) (vals σ) i Hu Hc Hi) as (C & HC & Hc' & H1 & H2).
  exists (set_vals (set_cache (λ _, C)) σ). unfold inval. rewrite HC. split_and!; try done.
  by destruct (rec_invalidate_spec owner slots (λ i, QVis i) (dependents K) (is_modules K)
    (all_items K) slots_owner (λ _, eq_refl) deps_in _ _ _ _ Hi HC) as [[? _] _].
Qed.

(** C16 [Symbol.set_value]: the result says whether the value has the form of
    the type.  A malformed value changes no user value and no cached property;
    a well-formed one becomes the user value of this symbol alone, and for a
    choice symbol set to y the selection of its choice. *)
Theorem set_value_result σ s v :
  ok σ →
  let v' := norm_value (K := K) s v in
  ∃ b σ', set_value K s v σ = Ok (b, σ') ∧ ok σ' ∧ b = valid_for (s_orig_type (sym K s)) v' ∧
    (b = false → uvals σ' = uvals σ ∧ cache (vals σ') = cache (vals σ)) ∧
    (b = true →
      user_value (uvals σ') = <[s := v']> (user_value (uvals σ)) ∧
      choice_user_value (uvals σ') = choice_user_value (uvals σ) ∧
      user_selection (uvals σ') =
        match s_choice (sym K s) with
        | Some c => if decide (v' = UTri 2) then <[c := s]> (user_selection (uvals σ))
                    else user_selection (uvals σ)
        | None => user_selection (uvals σ)
        end).
Proof using HK.
  intros Hσ v'. destruct (set_value_session s v σ Hσ) as (σ' & Hset & Hσ' & Hu' & _).
  unfold spec_set_value in Hset, Hu'. fold v' in Hset, Hu'.
  exists (valid_for (s_orig_type (sym K s)) v'), σ'.
  destruct (valid_for (s_orig_type (sym K s)) v') eqn:Hv; cbn in Hset, Hu'; split_and!; try done.
  - intros _. rewrite Hu'. destruct (s_choice (sym K s)); [|done]. by case_decide.
  - intros _. split; [done|]. unfold set_value in Hset. fold (norm_value (K := K) s v) in Hset.
    fold v' in Hset. rewrite Hv in Hset. cbn [negb] in Hset.
    destruct (_ && _); [done|]. by injection Hset as <-.
Qed.

(** [Kconfig.unset_values] brings back the freshly loaded configuration:
    afterwards every property reads as if no value had ever been set. *)
Theorem unset_values_restores σ log :
  ok σ →
  (∀ s, is_Some (user_value (uvals σ) !! s) → s ∈ k_unique_defined_syms K) →
  (∀ c, is_Some (choice_user_value (uvals σ) !! c) ∨ is_Some (user_selection (uvals σ) !! c) →
     c ∈ k_unique_choices K) →
  ∃ σ', unset_values K σ = Ok σ' ∧ ok σ' ∧
    ∀ q v, reads σ' q v ↔ reads (initial_session K log) q v.
Proof using HK.
  intros Hσ Hs Hc. destruct (unset_values_session σ Hσ) as (σ' & H1 & Hσ' & Hu' & _).
  exists σ'. split_and!; [done|done|]. intros q v.
  rewrite !reads_prop_of; [|apply (initial_session_ok (fuel := fuel))|done].
  assert (uvals σ' = no_user_values) as ->; [|done].
  rewrite Hu'. destruct (spec_unset_values_spec (K := K) (uvals σ)) as (H2 & H3 & H4).
  unfold no_user_values. destruct (spec_unset_values K (uvals σ)) as [m1 m2 m3]. cbn in *. subst.
  assert (∀ A (m : gmap nat A) l, (∀ x, is_Some (m !! x) → x ∈ l) →
    foldl (λ m x, delete x m) m l = ∅) as Hdel.
  { intros A m l Hm. apply map_eq. intros x. rewrite lookup_empty, foldl_delete_lookup.
    case_decide; [done|]. destruct (m !! x) eqn:Hx; [|done]. exfalso. eauto. }
  f_equal; apply Hdel; naive_solver.
Qed.
End Client.



(** ** The theorems at a concrete configuration *)


Lemma demo_rank_reads q q' :
  preset demo_untracked q = None →
  q' ∈ static_reads (track_deps demo_untracked) q ++ warn_reads (track_deps demo_untracked) q →
  checked_rank demo demo_fuel q' < checked_rank demo demo_fuel q.
Proof. rewrite <- demo_tracked. apply (checked_rank_reads demo demo_fuel demo_check). Qed.


Lemma session_refines_witness :
  ∃ r σ', do_ops demo demo_fuel [SetValue dB (UStr "y"); Read (QStr dC); SetValue dA (UTri 0); Read (QStr dC)]
      (initial_session demo quiet) = Ok (r, σ') ∧
    spec_ops demo demo_fuel [SetValue dB (UStr "y"); Read (QStr dC); SetValue dA (UTri 0); Read (QStr dC)]
      no_user_values = Ok (r, uvals σ').
Proof. apply (session_refines (K := demo) (fuel := demo_fuel)). Defined.

Definition demo_ops : list op :=
  [SetValue dB (UStr "y"); Read (QStr dC); Read (QStr dD); Read (QStr dFAST);
   SetValue dFAST (UTri 2); Read (QStr dFAST); Read (QStr dSLOW); SetValue dN (UStr "7"); Read (QStr dN)].

Lemma invalidation_clears_witness :
  ∃ σ', inval demo (ISym dA) (after demo_ops) = Ok σ' ∧ session_ok (K := demo) σ' ∧
    uvals σ' = uvals (after demo_ops) ∧
    cache (vals σ') ⊆ cache (vals (after demo_ops)) ∧
    (∀ q, owner q = ISym dA → cache (vals σ') !! q = None) ∧
    (∀ d, d ∈ dependents demo (ISym dA) → cache (vals σ') !! QVis d = None).
Proof.
  apply (invalidation_clears (K := demo) (fuel := demo_fuel)); [apply after_ok|].
  apply (bool_decide_unpack _). vm_compute. exact I.
Defined.

Lemma set_value_result_witness :
  let v' := norm_value (K := demo) dN (UStr "seven") in
  ∃ b σ', set_value demo dN (UStr "seven") (after demo_ops) = Ok (b, σ') ∧ session_ok (K := demo) σ' ∧
    b = valid_for (s_orig_type (sym demo dN)) v' ∧
    (b = false → uvals σ' = uvals (after demo_ops) ∧ cache (vals σ') = cache (vals (after demo_ops))) ∧
    (b = true →
      user_value (uvals σ') = <[dN := v']> (user_value (uvals (after demo_ops))) ∧
      choice_user_value (uvals σ') = choice_user_value (uvals (after demo_ops)) ∧
      user_selection (uvals σ') =
        match s_choice (sym demo dN) with
        | Some c => if decide (v' = UTri 2) then <[c := dN]> (user_selection (uvals (after demo_ops)))
                    else user_selection (uvals (after demo_ops))
        | None => user_selection (uvals (after demo_ops))
        end).
Proof. apply (set_value_result (K := demo) (fuel := demo_fuel)). apply after_ok. Defined.

Lemma unset_values_restores_witness :
  ∃ σ', unset_values demo (after demo_ops) = Ok σ' ∧ session_ok (K := demo) σ' ∧
    ∀ q v, reads (K := demo) (fuel := demo_fuel) σ' q v
           ↔ reads (K := demo) (fuel := demo_fuel) (initial_session demo quiet) q v.
Proof.
  apply (unset_values_restores (K := demo) (fuel := demo_fuel)); [apply after_ok|..].
  - intros s Hs. apply (bool_decide_unpack _).
    assert (map_Forall (λ s _, bool_decide (s ∈ k_unique_defined_syms demo))
      (user_value (uvals (after demo_ops)))) as H by (apply (bool_decide_unpack _); vm_compute; exact I).
    destruct Hs as [v Hv]. exact (H s v Hv).
  - intros c Hc. apply (bool_decide_unpack _).
    assert (map_Forall (λ c _, bool_decide (c ∈ k_unique_choices demo))
      (choice_user_value (uvals (after demo_ops)))) as H1 by (apply (bool_decide_unpack _); vm_compute; exact I).
    assert (map_Forall (λ c _, bool_decide (c ∈ k_unique_choices demo))
      (user_selection (uvals (after demo_ops)))) as H2 by (apply (bool_decide_unpack _); vm_compute; exact I).
    destruct Hc as [[v Hv]|[v Hv]]; [exact (H1 c v Hv)|exact (H2 c v Hv)].
Defined.
