(* ===== verification/Rules.v ===== *)
(** * The values of a loaded configuration

    What a client of a Kconfig object reads, in any state of a session that a
    loaded configuration can be in: the rules for the values of symbols and
    choices, the effect of user values, and the contract of [assignable]. *)

From S2P Require Import Prelude PyStr Kconst Expr Incr Objects Values Reads Session.
From S2P Require Import Meaning Effects Check ParseState Load Demo.
From stdpp Require Import options.

Section Rules.
Context {K : kconfig} {fuel : nat} {HK : Loaded K fuel}.
Implicit Types σ : session.

Abbreviation ok σ := (session_ok (K := K) σ).
Abbreviation reads σ q v := (reads (K := K) (fuel := fuel) σ q v).
Abbreviation tri_in u s := (tri_of (K := K) (fuel := fuel) u s).
Abbreviation vis_in u i := (vis_of (K := K) (fuel := fuel) u i).
Abbreviation sel_in u c := (sel_of (K := K) (fuel := fuel) u c).
Abbreviation mode_in u c := (choice_of (K := K) (fuel := fuel) u c).
Abbreviation type_in u s := (type_of (K := K) (fuel := fuel) u s).
Abbreviation value_in u e := (ev (K := K) (fuel := fuel) u e).

(** ** Theorems *)

(** C4 [Symbol.tri_value] of a defined symbol is 0, 1 or 2; it is never m for a
    symbol whose [type] is bool, and it is n for string, int and hex symbols. *)
Theorem tri_value_fits_type σ σ' s z t :
  ok σ → preset K (QTri s) = None → reads σ (QTri s) (VTri z) →
  run_code K fuel (λ u, symbol_type K u s) σ = Ok (t, σ') →
  is_tri z ∧ (t = BOOL → z ≠ 1%Z) ∧ (BOOL_TRISTATE (s_orig_type (sym K s)) = false → z = 0%Z).
Proof using HK.
  intros Hσ Hp Hz Ht. apply (reads_tri σ s z Hσ) in Hz as ->.
  destruct (run_type σ s Hσ) as (σ2 & Hrun & _). rewrite Hrun in Ht. injection Ht as <- _.
  destruct Hσ as [Hu _]. split_and!; [by apply tri_of_tri| |by apply (tri_of_other _ Hu)].
  intros Ht. by apply tri_of_bool.
Qed.

(** C5 The value of a bool or tristate symbol outside choices: its user value
    limited by its visibility, or else its default raised by implies when the
    direct dependencies are met; selects raise it regardless; m becomes y for
    bool symbols and under an imply of y. *)
Theorem tri_value_rules σ s z :
  ok σ → preset K (QTri s) = None → BOOL_TRISTATE (s_orig_type (sym K s)) = true →
  s_choice (sym K s) = None → reads σ (QTri s) (VTri z) →
  let u := uvals σ in
  let S := sym K s in
  let vis := vis_in u (ISym s) in
  let weak := value_in u (s_weak_rev_dep S) in
  let own :=
    match user_value u !! s with
    | Some (UTri v) => if (vis =? 0)%Z then implied_of (K := K) (fuel := fuel) u s else Z.min v vis
    | _ => implied_of (K := K) (fuel := fuel) u s
    end in
  let raised := Z.max (value_in u (s_rev_dep S)) own in
  z = (if (raised =? 1)%Z && (bool_decide (type_in u s = BOOL) || (weak =? 2)%Z) then 2%Z else raised)
  ∧ (value_in u (s_rev_dep S) ≤ z)%Z.
Proof using HK.
  intros Hσ Hp Hb Hc Hz. cbv zeta. apply (reads_tri σ s z Hσ) in Hz as ->. destruct Hσ as [Hu _].
  rewrite (tri_of_eq _ Hu s Hp Hb), Hc. split; [done|]. unfold raise_of. case_match; lia.
Qed.

(** C6 In a choice that is y, exactly one symbol is y if some symbol is visible
    (and every default of the choice is one of its symbols). *)
Theorem choice_has_one_y σ σ' c :
  ok σ → run_code K fuel (λ u, choice_tri_value K u c) σ = Ok (2%Z, σ') →
  (∀ s, s ∈ c_syms (cho K c) → s_choice (sym K s) = Some c ∧ preset K (QTri s) = None ∧
     BOOL_TRISTATE (s_orig_type (sym K s)) = true) →
  (∀ s cond, (ESym s, cond) ∈ c_defaults (cho K c) → s ∈ c_syms (cho K c)) →
  (∃ s v, s ∈ c_syms (cho K c) ∧ reads σ (QVis (ISym s)) (VTri v) ∧ v ≠ 0%Z) →
  ∃ s, s ∈ c_syms (cho K c) ∧ reads σ (QSel c) (VSel (Some s)) ∧ reads σ (QTri s) (VTri 2) ∧
    ∀ t, t ∈ c_syms (cho K c) → t ≠ s → reads σ (QTri t) (VTri 0).
Proof using HK.
  intros Hσ Hmode Hsyms Hdefs (s0 & v & Hs0 & Hv & Hv0).
  apply (reads_vis σ _ _ Hσ) in Hv as ->. pose proof Hσ as [Hu _].
  assert (mode_in (uvals σ) c = 2%Z) as Hm.
  { destruct (run_code_spec (fuel := fuel) (λ u, choice_tri_value K u c) (mode_in (uvals σ) c) is_tri σ Hσ)
      as (σ2 & Hr & _); [by apply safe_choice_tri_value, rank_all|apply writes_choice_tri_value|
      by apply computes_choice_tri|]. rewrite Hr in Hmode. by injection Hmode as ->. }
  assert (∃ s, sel_in (uvals σ) c = Some s ∧ s ∈ c_syms (cho K c)) as (s & Hs & Hin).
  { assert (∃ s, default_selection_of (K := K) (fuel := fuel) (uvals σ) c = Some s ∧ s ∈ c_syms (cho K c))
      as (d & Hd & Hdin).
    { unfold default_selection_of.
      pose proof (first_default_symbol (K := K) (fuel := fuel) (uvals σ) (c_defaults (cho K c))) as Hf.
      destruct (first_such _ (c_defaults (cho K c))) as [[e cond]|] eqn:Hfs.
      - destruct e as [[t|]| | | |]; try done. exists t. split; [done|].
        apply first_such_spec in Hfs as (l1 & l2 & Hl & _). apply (Hdefs t cond).
        rewrite Hl. apply elem_of_app. right. by left.
      - destruct (first_such (visible (uvals σ)) (c_syms (cho K c))) as [t|] eqn:Hft.
        + exists t. split; [done|]. apply first_such_spec in Hft as (l1 & l2 & Hl & _).
          rewrite Hl. apply elem_of_app. right. by left.
        + exfalso. rewrite first_such_None, Forall_forall in Hft. specialize (Hft _ Hs0).
          unfold visible in Hft. by apply negb_false_iff, Z.eqb_eq in Hft. }
    rewrite (sel_of_eq _ Hu c), Hm. cbn [Z.eqb Pos.eqb].
    destruct (user_selection (uvals σ) !! c) as [t|] eqn:Ht; [|by eauto].
    destruct (visible (uvals σ) t); [|by eauto]. exists t. split; [done|].
    pose proof (uok_sel _ _ Hu _ _ Ht) as Htc.
    destruct (ld_wf (K := K) (fuel := fuel)) as [Hwf _]. specialize (Hwf t).
    unfold symbol_ok in Hwf. rewrite Htc in Hwf. apply andb_true_iff in Hwf as [_ Hwf].
    by apply mem_true in Hwf. }
  destruct (selected_visible _ _ _ Hu Hs) as [_ Hvis].
  exists s. destruct (Hsyms s Hin) as (Hc & Hp & Hb). split_and!; [done|by apply reads_sel| |].
  - apply (reads_tri σ _ _ Hσ). rewrite (choice_symbol_value _ _ _ Hu Hc Hp Hb Hm).
    by rewrite decide_True.
  - intros t Ht Hne. destruct (Hsyms t Ht) as (Htc & Htp & Htb).
    apply (reads_tri σ _ _ Hσ). rewrite (choice_symbol_value _ _ _ Hu Htc Htp Htb Hm).
    rewrite decide_False; [done|]. intros [? _]. congruence.
Qed.

(** C7 The value of an int or hex symbol lies in its active range, the first
    [range] whose condition is not n (text that is no number counts as 0). *)
Theorem number_in_range σ s t base lo hi :
  ok σ → INT_HEX (s_orig_type (sym K s)) = true →
  TYPE_TO_BASE (s_orig_type (sym K s)) = Some base →
  range_of (K := K) (fuel := fuel) (uvals σ) base s = Some (lo, hi) → (lo ≤ hi)%Z →
  reads σ (QStr s) (VStr t) → (lo ≤ num_or_0 base t ≤ hi)%Z.
Proof using HK.
  intros Hσ Hih Hbase Hr Hle Ht. apply (reads_str σ _ _ Hσ) in Ht as ->.
  destruct Hσ as [Hu _]. rewrite (str_of_eq _ Hu s).
  assert (∀ r, r = num_default_of (K := K) (fuel := fuel) (uvals σ) base s (Some (lo, hi)) →
    (lo ≤ num_or_0 base r ≤ hi)%Z) as Hdef.
  { intros r ->. unfold num_default_of. set (d := string_default_of _ s). cbn [clamp].
    assert (∀ v : Z, num_or_0 base (if decide (s_orig_type (sym K s) = INT) then py_str v else py_hex v) = v)
      as Hnum.
    { intros v. unfold num_or_0.
      destruct (s_orig_type (sym K s)); try done; cbn in Hbase; simplify_eq;
        [by rewrite decide_True, py_int_str|by rewrite decide_False, py_int_hex]. }
    destruct (Z.ltb_spec (num_or_0 base d) lo); [rewrite Hnum; lia|].
    destruct (Z.ltb_spec hi (num_or_0 base d)); [rewrite Hnum; lia|lia]. }
  assert (num_value_of (K := K) (fuel := fuel) (uvals σ) base s
    = match s_orig_type (sym K s) with INT => num_value_of (K := K) (fuel := fuel) (uvals σ) 10 s
      | _ => num_value_of (K := K) (fuel := fuel) (uvals σ) 16 s end) as Hnv.
  { destruct (s_orig_type (sym K s)); try done; cbn in Hbase; by simplify_eq. }
  assert ((lo ≤ num_or_0 base (num_value_of (K := K) (fuel := fuel) (uvals σ) base s) ≤ hi)%Z) as H.
  { unfold num_value_of. rewrite Hr. destruct (user_value (uvals σ) !! s) as [[v|v]|]; [by apply Hdef| |by apply Hdef].
    destruct (negb (vis_of _ _ =? 0)%Z && _); cbn [andb]; [|by apply Hdef].
    destruct (out_of_range (Some (lo, hi)) (num_or_0 base v)) eqn:Ho; cbn [negb]; [by apply Hdef|].
    cbn in Ho. apply negb_false_iff, andb_true_iff in Ho as [H1 H2]. lia. }
  rewrite Hnv in H. by destruct (s_orig_type (sym K s)).
Qed.

(** C8 [Symbol.str_value], by the type of the symbol. *)
Theorem str_value_rules σ s t :
  ok σ → reads σ (QStr s) (VStr t) →
  let u := uvals σ in
  t = match s_orig_type (sym K s) with
      | BOOL | TRISTATE => tri_str (tri_in u s)
      | UNKNOWN => s_name (sym K s)
      | STRING =>
          match user_value u !! s with
          | Some (UStr v) => if (vis_in u (ISym s) =? 0)%Z
                             then string_default_of (K := K) (fuel := fuel) u s else v
          | _ => string_default_of (K := K) (fuel := fuel) u s
          end
      | INT => num_value_of (K := K) (fuel := fuel) u 10 s
      | HEX => num_value_of (K := K) (fuel := fuel) u 16 s
      end.
Proof using HK.
  intros Hσ Ht. cbv zeta. apply (reads_str σ _ _ Hσ) in Ht as ->. destruct Hσ as [Hu _].
  apply (str_of_eq _ Hu).
Qed.

(** C9 Expressions: and is the minimum, or the maximum, not the complement to 2,
    relations give n or y; short-circuit evaluation and the cache do not show. *)
Theorem expr_value_meaning σ e :
  ok σ →
  ∃ σ', run_code K fuel (λ u, expr_value K u e) σ
      = Ok (value (item_of (K := K) (fuel := fuel) (uvals σ)) (rel_of (K := K) (fuel := fuel) (uvals σ)) e, σ') ∧
    ok σ' ∧ uvals σ' = uvals σ.
Proof using HK. apply run_expr. Qed.

(** C10 The user value of a symbol that is not visible has no effect on any property:
    after [set_value] everything reads as before.  The exception is y for a symbol of
    a choice, which is also the user selection of the choice. *)
Theorem invisible_user_value_ignored σ σ' s v b :
  ok σ → s_choice (sym K s) = None ∨ norm_value (K := K) s v ≠ UTri 2 → reads σ (QVis (ISym s)) (VTri 0) →
  set_value K s v σ = Ok (b, σ') → ∀ q w, reads σ q w ↔ reads σ' q w.
Proof using HK.
  intros Hσ Hc Hv Hset q w. apply (reads_vis σ _ _ Hσ) in Hv.
  destruct (set_value_session s v σ Hσ) as (σ2 & H2 & Hσ2 & Hu2 & _).
  rewrite H2 in Hset. injection Hset as _ ->.
  assert (uvals σ' = if valid_for (s_orig_type (sym K s)) (norm_value (K := K) s v)
                     then put_user_value s (norm_value (K := K) s v) (uvals σ) else uvals σ) as E.
  { rewrite Hu2. unfold spec_set_value. destruct (valid_for _ _); [|done]. destruct Hc as [->|Hc]; [done|].
    destruct (s_choice (sym K s)); [by rewrite decide_False|done]. }
  rewrite !reads_prop_of by done. destruct (valid_for _ _); [|by rewrite E].
  rewrite (unaffected (uvals σ) (uvals σ')) with (L := λ _, True); try done.
  - by destruct Hσ.
  - by destruct Hσ2.
  - by rewrite E.
  - rewrite E. intros _ [x|x] _ _; cbn; [|done].
    destruct (decide (x = s)) as [->|]; [by right|left; by rewrite lookup_insert_ne].
Qed.

(** ** Setting values *)

Section SetTri.
Variables (u : ustate) (s : nat) (v : Z).
Hypothesis Hu : uok K u.
Hypothesis Hp : preset K (QTri s) = None.
Hypothesis Hb : BOOL_TRISTATE (s_orig_type (sym K s)) = true.
Hypothesis Hc : s_choice (sym K s) = None.
Let u' := put_user_value s (UTri v) u.
Hypothesis Hu' : uok K u'.

Lemma set_tri_looks q i :
  below (QTri s) q → looks_at K q = Some i →
  match i with
  | ISym t => user_value u !! t = user_value u' !! t ∨ vis_in u (ISym t) = 0%Z
  | ICho c => user_selection u !! c = user_selection u' !! c
  end.
Proof using Hb.
  intros Hq Hl. destruct i as [t|c]; [|done]. destruct (decide (t = s)) as [->|Ht].
  - exfalso. destruct q; cbn in Hl; repeat case_match; simplify_eq.
    + unfold below in Hq. lia.
    + pose proof (str_above_tri s Hb). unfold below in *. lia.
  - left. unfold u'. cbn. by rewrite lookup_insert_ne.
Qed.

Lemma set_tri_ev e : (∀ q, q ∈ expr_reads K e → q ∈ static_reads K (QTri s)) →
  value_in u' e = value_in u e.
Proof using HK Hu Hu' Hb Hp.
  intros He. symmetry.
  apply (ev_same u u' Hu Hu' (below (QTri s)) (below_closed _) eq_refl set_tri_looks).
  apply Forall_forall. intros q Hq. by apply reads_below, He.
Qed.

Lemma set_tri_vis : vis_in u' (ISym s) = vis_in u (ISym s).
Proof using HK Hu Hu' Hb Hp.
  symmetry.
  apply (vis_same u u' Hu Hu' (below (QTri s)) (below_closed _) eq_refl set_tri_looks).
  apply reads_below; [done|]. cbn. rewrite Hb. by left.
Qed.

Lemma set_tri_type : type_in u' s = type_in u s.
Proof using HK Hu Hu' Hb Hc Hp.
  unfold type_of. rewrite Hc, andb_false_r. symmetry.
  apply (mod_type_eq u u' (below (QTri s))).
  - by apply (unaffected u u' Hu Hu' (below (QTri s)) (below_closed _) eq_refl set_tri_looks).
  - case_decide as Ht; [|done]. apply Forall_cons; split; [|done].
    apply reads_below; [done|]. cbn. rewrite Hb, Hc, !elem_of_cons, !elem_of_app.
    do 6 right. cbn. rewrite decide_True by done. by left.
Qed.

Lemma set_tri_reads e : e ∈ [s_rev_dep (sym K s); s_weak_rev_dep (sym K s)] →
  ∀ q, q ∈ expr_reads K e → q ∈ static_reads K (QTri s).
Proof using Hb Hc.
  intros He q Hq. cbn. rewrite Hb, Hc, !elem_of_cons, !elem_of_app.
  rewrite !elem_of_cons, elem_of_nil in He. destruct He as [->|[->|[]]]; tauto.
Qed.

(** The value after [set_value] with a visible symbol. *)
Lemma set_tri_value :
  vis_in u (ISym s) ≠ 0%Z →
  tri_in u' s =
    (let val := Z.max (value_in u (s_rev_dep (sym K s))) (Z.min v (vis_in u (ISym s))) in
     if (val =? 1)%Z && no_m_of (K := K) (fuel := fuel) u s then 2%Z else val).
Proof using HK Hu Hu' Hb Hc Hp.
  intros Hvis. rewrite (tri_of_eq u' Hu' s Hp Hb), Hc. unfold raise_of, own_of, no_m_of.
  rewrite set_tri_vis, set_tri_type, !set_tri_ev by (apply set_tri_reads; by repeat constructor).
  unfold u' at 1. cbn. rewrite lookup_insert_eq.
  by destruct (Z.eqb_spec (vis_in u (ISym s)) 0).
Qed.
End SetTri.

(** An assignable value fits the type. *)
Lemma assignable_typed u s v :
  uok K u → v ∈ assignable_of (K := K) (fuel := fuel) u s → uval_ok (s_orig_type (sym K s)) (UTri v).
Proof using HK.
  intros Hu. unfold assignable_of. destruct (BOOL_TRISTATE (s_orig_type (sym K s))) eqn:Hb;
    [|by intros ?%elem_of_nil].
  pose proof (vis_of_tri u Hu (ISym s)) as Hv. apply is_tri_cases in Hv.
  pose proof (ev_tri u Hu (s_rev_dep (sym K s))) as Hr. apply is_tri_cases in Hr.
  assert (s_orig_type (sym K s) = BOOL → vis_in u (ISym s) ≠ 1%Z ∧ no_m_of (K := K) (fuel := fuel) u s = true)
    as Hbool.
  { intros Ht. assert (type_in u s = BOOL) as Hty.
    { unfold type_of, mod_type. rewrite Ht. cbn. done. }
    split; [|unfold no_m_of; by rewrite Hty].
    intros H1%vis_m_tristate; [congruence|done]. }
  destruct (s_orig_type (sym K s)) eqn:Ht; try done.
  - destruct (Hbool eq_refl) as [H1 ->].
    destruct Hv as [Hv|[Hv|Hv]]; rewrite Hv in *; [by intros ?%elem_of_nil|done|].
    destruct (s_choice (sym K s)), Hr as [Hr|[Hr|Hr]]; rewrite ?Hr, !elem_of_cons, ?elem_of_nil; cbn; intuition lia.
  - intros Hin. unfold uval_ok, is_tri.
    destruct Hv as [Hv|[Hv|Hv]]; rewrite Hv in Hin; [by apply elem_of_nil in Hin|..];
      destruct Hr as [Hr|[Hr|Hr]]; rewrite Hr in Hin;
      repeat case_match; rewrite !elem_of_cons, ?elem_of_nil in Hin; intuition lia.
Qed.

(** Visible with m, selected by m and implied by y: the value is m and not less, and is
    promoted to y. *)
Definition m_promoted (u : ustate) (s : nat) : Prop :=
  vis_in u (ISym s) = 1%Z ∧ value_in u (s_rev_dep (sym K s)) = 1%Z ∧ value_in u (s_weak_rev_dep (sym K s)) = 2%Z.
#[export] Instance m_promoted_dec u s : Decision (m_promoted u s) := ltac:(unfold m_promoted; apply _).

(** [set_value] with an assignable value. *)
Lemma assignable_result σ s l v :
  ok σ → preset K (QTri s) = None → s_choice (sym K s) = None →
  reads σ (QAsg (ISym s)) (VAsg l) → v ∈ l →
  ∃ σ', set_value K s (UTri v) σ = Ok (true, σ') ∧ ok σ' ∧
    reads σ' (QTri s) (VTri (if decide (m_promoted (uvals σ) s) then 2 else v)).
Proof using HK.
  intros Hσ Hp Hc Hl Hin. apply (reads_asg σ _ _ Hσ) in Hl as ->.
  pose proof Hσ as [Hu _]. rewrite (asg_of_eq _ Hu) in Hin.
  pose proof (assignable_typed _ _ _ Hu Hin) as Hty.
  destruct (BOOL_TRISTATE (s_orig_type (sym K s))) eqn:Hb;
    [|unfold assignable_of in Hin; rewrite Hb in Hin; by apply elem_of_nil in Hin].
  destruct (set_value_session s (UTri v) σ Hσ) as (σ' & Hset & Hσ' & Hu' & _).
  assert (norm_value (K := K) s (UTri v) = UTri v) as Hnorm by (unfold norm_value; by rewrite Hb).
  unfold spec_set_value in Hset, Hu'. rewrite Hnorm, (proj2 (valid_for_ok _ _) Hty), Hc in Hset, Hu'.
  exists σ'. split_and!; [done|done|]. apply (reads_tri σ' _ _ Hσ'). rewrite Hu'. cbn.
  assert (vis_in (uvals σ) (ISym s) ≠ 0%Z) as Hvis.
  { intros H0. unfold assignable_of in Hin. rewrite Hb, H0 in Hin. by apply elem_of_nil in Hin. }
  rewrite (set_tri_value _ _ _ Hu Hp Hb Hc) by (done || by apply uok_put_user).
  cbv zeta. unfold assignable_of in Hin. rewrite Hb, Hc in Hin.
  pose proof (vis_of_tri _ Hu (ISym s)) as Hv. apply is_tri_cases in Hv.
  pose proof (ev_tri _ Hu (s_rev_dep (sym K s))) as Hr. apply is_tri_cases in Hr.
  pose proof (vis_m_tristate _ s Hu) as Hm.
  assert (vis_in (uvals σ) (ISym s) = 1%Z → no_m_of (K := K) (fuel := fuel) (uvals σ) s
    = (value_in (uvals σ) (s_weak_rev_dep (sym K s)) =? 2)%Z) as Hno.
  { intros H1. unfold no_m_of. by rewrite (Hm H1). }
  destruct (decide (m_promoted (uvals σ) s)) as [(H1 & H2 & H3)|Hex].
  { rewrite (Hno H1), H1, H2, H3 in *. cbn in Hin |- *. apply list_elem_of_singleton in Hin as ->. done. }
  destruct Hv as [Hv|[Hv|Hv]]; [done|..]; rewrite Hv in *;
    destruct Hr as [Hr|[Hr|Hr]]; rewrite Hr in *; try rewrite (Hno eq_refl) in *;
    repeat match type of Hin with _ ∈ (if ?b then _ else _) => destruct b eqn:? end;
    rewrite !elem_of_cons, ?elem_of_nil in Hin;
    repeat match type of Hin with _ ∨ _ => destruct Hin as [->|Hin] end; try done; cbn.
  destruct (Z.eqb_spec (value_in (uvals σ) (s_weak_rev_dep (sym K s))) 2); [|done].
  exfalso. by apply Hex.
Qed.

Lemma assignable_effect σ s l v :
  ok σ → preset K (QTri s) = None → s_choice (sym K s) = None →
  reads σ (QAsg (ISym s)) (VAsg l) → v ∈ l →
  ¬ m_promoted (uvals σ) s →
  ∃ σ', set_value K s (UTri v) σ = Ok (true, σ') ∧ ok σ' ∧ reads σ' (QTri s) (VTri v).
Proof using HK.
  intros Hσ Hp Hc Hl Hin Hex. destruct (assignable_result σ s l v Hσ Hp Hc Hl Hin) as (σ' & H1 & H2 & H3).
  rewrite decide_False in H3 by done. by exists σ'.
Qed.

(** C11 The contract of [assignable], outside choices: [set_value] accepts every
    assignable value, and the symbol then has that value, or y if it is visible with m,
    selected by m and implied by y (where m is the only assignable value). *)
Theorem assignable_takes_effect σ s l v :
  ok σ → preset K (QTri s) = None → s_choice (sym K s) = None →
  reads σ (QAsg (ISym s)) (VAsg l) → v ∈ l →
  ∃ σ', set_value K s (UTri v) σ = Ok (true, σ') ∧ ok σ' ∧
    reads σ' (QTri s) (VTri (if decide
      (vis_in (uvals σ) (ISym s) = 1%Z ∧ value_in (uvals σ) (s_rev_dep (sym K s)) = 1%Z ∧
       value_in (uvals σ) (s_weak_rev_dep (sym K s)) = 2%Z) then 2 else v)).
Proof using HK.
  intros Hσ Hp Hc Hl Hin. destruct (assignable_result σ s l v Hσ Hp Hc Hl Hin) as (σ' & H1 & H2 & H3).
  exists σ'. split_and!; [done|done|]. erewrite decide_ext; [exact H3|done].
Qed.

Section SetChoice.
Variables (u : ustate) (s c : nat).
Hypothesis Hu : uok K u.
Hypothesis Hp : preset K (QTri s) = None.
Hypothesis Hb : BOOL_TRISTATE (s_orig_type (sym K s)) = true.
Hypothesis Hc : s_choice (sym K s) = Some c.
Let u' := put_selection c s (put_user_value s (UTri 2) u).
Hypothesis Hu' : uok K u'.

Lemma choose_looks q i :
  below (QSel c) q → looks_at K q = Some i →
  match i with
  | ISym t => user_value u !! t = user_value u' !! t ∨ vis_in u (ISym t) = 0%Z
  | ICho d => user_selection u !! d = user_selection u' !! d
  end.
Proof using Hb Hc Hp.
  intros Hq Hl.
  assert (below (QTri s) (QSel c)) as Hsel.
  { apply reads_below; [done|]. cbn. rewrite Hb, Hc. right. by left. }
  destruct i as [t|d].
  - destruct (decide (t = s)) as [->|Ht]; [|left; unfold u'; cbn; by rewrite lookup_insert_ne].
    exfalso. pose proof (str_above_tri s Hb). unfold below in *.
    destruct q; cbn in Hl; repeat case_match; simplify_eq; lia.
  - destruct (decide (d = c)) as [->|Hd]; [|unfold u'; cbn; by rewrite lookup_insert_ne].
    exfalso. unfold below in Hq. destruct q; cbn in Hl; repeat case_match; simplify_eq; lia.
Qed.

Lemma choose_mode : mode_in u' c = mode_in u c.
Proof using HK Hu Hu' Hb Hc Hp.
  symmetry.
  apply (choice_same u u' Hu Hu' (below (QSel c)) (below_closed _) eq_refl choose_looks).
  apply Forall_forall. intros q Hq. apply reads_below; [done|]. cbn [static_reads].
  apply elem_of_app. by left.
Qed.

Lemma choose_vis t : t ∈ c_syms (cho K c) → vis_in u' (ISym t) = vis_in u (ISym t).
Proof using HK Hu Hu' Hb Hc Hp.
  intros Ht. symmetry.
  apply (vis_same u u' Hu Hu' (below (QSel c)) (below_closed _) eq_refl choose_looks).
  apply reads_below; [done|]. cbn [static_reads]. rewrite !elem_of_app. do 3 right.
  apply list_elem_of_fmap. eauto.
Qed.
End SetChoice.

Lemma run_mode σ c :
  ok σ → ∃ σ', run_code K fuel (λ u, choice_tri_value K u c) σ = Ok (mode_in (uvals σ) c, σ') ∧
    ok σ' ∧ uvals σ' = uvals σ.
Proof using HK.
  intros Hσ. pose proof Hσ as [Hu _]. apply (run_code_spec _ _ is_tri); [done|..].
  - by apply safe_choice_tri_value, rank_all.
  - apply writes_choice_tri_value.
  - by apply computes_choice_tri.
Qed.

(** C12 Setting a visible symbol of a choice in y mode to y selects it: it
    becomes y and every other symbol of the choice becomes n. *)
Theorem choose_symbol σ σ1 s c v :
  ok σ → s_choice (sym K s) = Some c → reads σ (QVis (ISym s)) (VTri v) → v ≠ 0%Z →
  run_code K fuel (λ u, choice_tri_value K u c) σ = Ok (2%Z, σ1) →
  (∀ t, s_choice (sym K t) = Some c →
     preset K (QTri t) = None ∧ BOOL_TRISTATE (s_orig_type (sym K t)) = true) →
  ∃ σ', set_value K s (UTri 2) σ = Ok (true, σ') ∧ ok σ' ∧ reads σ' (QSel c) (VSel (Some s)) ∧
    ∀ t, s_choice (sym K t) = Some c → reads σ' (QTri t) (VTri (if decide (t = s) then 2 else 0)).
Proof using HK.
  intros Hσ Hc Hv Hv0 Hmode Hsyms. apply (reads_vis σ _ _ Hσ) in Hv as ->.
  destruct (run_mode σ c Hσ) as (σ2 & Hr & _). rewrite Hr in Hmode. injection Hmode as Hm _.
  pose proof Hσ as [Hu _]. destruct (Hsyms s Hc) as [Hp Hb].
  assert (∀ t, s_choice (sym K t) = Some c → t ∈ c_syms (cho K c)) as Hin.
  { intros t Ht. destruct (ld_wf (K := K) (fuel := fuel)) as [Hwf _]. specialize (Hwf t).
    unfold symbol_ok in Hwf. rewrite Ht in Hwf. apply andb_true_iff in Hwf as [_ Hwf].
    by apply mem_true in Hwf. }
  destruct (set_value_session s (UTri 2) σ Hσ) as (σ' & Hset & Hσ' & Hu' & _).
  assert (norm_value (K := K) s (UTri 2) = UTri 2) as Hnorm by (unfold norm_value; by rewrite Hb).
  assert (valid_for (s_orig_type (sym K s)) (UTri 2) = true) as Hval
    by (by destruct (s_orig_type (sym K s))).
  unfold spec_set_value in Hset, Hu'. rewrite Hnorm, Hval, Hc in Hset, Hu'.
  rewrite decide_True in Hu' by done. cbn in Hset, Hu'.
  pose proof Hσ' as [Huok' _]. rewrite Hu' in Huok'.
  assert (mode_in (uvals σ') c = 2%Z) as Hm' by (rewrite Hu', choose_mode; done).
  assert (sel_in (uvals σ') c = Some s) as Hsel.
  { rewrite (sel_of_eq (uvals σ')) by (by rewrite Hu'). rewrite Hm', Hu'. cbn.
    rewrite lookup_insert_eq. unfold visible. rewrite choose_vis by auto.
    by rewrite (proj2 (Z.eqb_neq _ _) Hv0). }
  exists σ'. split_and!; [done|done|by apply reads_sel|].
  intros t Ht. destruct (Hsyms t Ht) as [Htp Htb]. apply (reads_tri σ' _ _ Hσ').
  rewrite (choice_symbol_value (uvals σ') t c) by (done || by rewrite Hu').
  rewrite Hsel. destruct (decide (t = s)) as [->|Hne].
  - rewrite decide_True; [done|]. split; [done|]. rewrite Hu', choose_vis by auto. done.
  - rewrite decide_False; [done|]. intros [? _]. congruence.
Qed.
End Rules.

(** ** The theorems at a concrete configuration *)

Ltac read_it := eexists; vm_compute; reflexivity.

Definition rules_session : session :=
  after [SetValue dB (UStr "y"); SetValue dFAST (UTri 2); SetValue dN (UStr "12")].

Lemma tri_value_fits_type_witness :
  is_tri 2 ∧ (BOOL = BOOL → 2%Z ≠ 1%Z) ∧ (BOOL_TRISTATE (s_orig_type (sym demo dB)) = false → 2%Z = 0%Z).
Proof.
  refine (tri_value_fits_type (K := demo) (fuel := demo_fuel) rules_session _ dB 2 BOOL _ _ _ _).
  - apply after_ok.
  - reflexivity.
  - read_it.
  - vm_compute. reflexivity.
Defined.

Lemma tri_value_rules_witness :
  tri_of (K := demo) (fuel := demo_fuel) (uvals rules_session) dB = 2%Z ∧
  (ev (K := demo) (fuel := demo_fuel) (uvals rules_session) (s_rev_dep (sym demo dB)) ≤ 2)%Z.
Proof.
  split; [vm_compute; reflexivity|].
  refine (proj2 (tri_value_rules (K := demo) (fuel := demo_fuel) rules_session dB 2 _ _ _ _ _)).
  - apply after_ok.
  - reflexivity.
  - reflexivity.
  - reflexivity.
  - read_it.
Defined.

Lemma choice_has_one_y_witness :
  ∃ s, s ∈ c_syms (cho demo dMODE) ∧
    reads (K := demo) (fuel := demo_fuel) rules_session (QSel dMODE) (VSel (Some s)) ∧
    reads (K := demo) (fuel := demo_fuel) rules_session (QTri s) (VTri 2) ∧
    ∀ t, t ∈ c_syms (cho demo dMODE) → t ≠ s →
      reads (K := demo) (fuel := demo_fuel) rules_session (QTri t) (VTri 0).
Proof.
  eapply (choice_has_one_y (K := demo) (fuel := demo_fuel) rules_session).
  - apply after_ok.
  - vm_compute. reflexivity.
  - apply Forall_forall. vm_compute. repeat constructor.
  - intros s cond Hin. apply (bool_decide_unpack _).
    assert (Forall (λ p, match p.1 with
      ESym s => bool_decide (s ∈ c_syms (cho demo dMODE)) | _ => True end) (c_defaults (cho demo dMODE))) as H.
    { vm_compute. repeat constructor. }
    exact (proj1 (Forall_forall _ _) H _ Hin).
  - exists dFAST, 2%Z. split_and!; [apply (bool_decide_unpack _); vm_compute; exact I|read_it|done].
Defined.

Lemma number_in_range_witness : (1 ≤ num_or_0 10 "10" ≤ 10)%Z.
Proof.
  apply (number_in_range (K := demo) (fuel := demo_fuel) rules_session dN).
  - apply after_ok.
  - reflexivity.
  - reflexivity.
  - vm_compute. reflexivity.
  - done.
  - read_it.
Defined.

Lemma str_value_rules_witness :
  "10" = num_value_of (K := demo) (fuel := demo_fuel) (uvals rules_session) 10 dN.
Proof.
  refine (str_value_rules (K := demo) (fuel := demo_fuel) rules_session dN "10" _ _).
  - apply after_ok.
  - read_it.
Defined.

Lemma expr_value_meaning_witness :
  ∃ σ', run_code demo demo_fuel (λ u, expr_value demo u (EAnd (ESym dA) (ENot (ESym dB)))) rules_session
      = Ok (value (item_of (K := demo) (fuel := demo_fuel) (uvals rules_session))
              (rel_of (K := demo) (fuel := demo_fuel) (uvals rules_session))
              (EAnd (ESym dA) (ENot (ESym dB))), σ') ∧
    session_ok (K := demo) σ' ∧ uvals σ' = uvals rules_session.
Proof. apply (expr_value_meaning (K := demo) (fuel := demo_fuel)). apply after_ok. Defined.

Definition hidden_session : session := after [SetValue dA (UTri 2)].

(** N is in a menu that depends on A = m. *)
Lemma invisible_user_value_ignored_witness :
  ∃ b σ', set_value demo dN (UStr "5") hidden_session = Ok (b, σ') ∧
    ∀ q w, reads (K := demo) (fuel := demo_fuel) hidden_session q w
           ↔ reads (K := demo) (fuel := demo_fuel) σ' q w.
Proof.
  destruct (set_value demo dN (UStr "5") hidden_session) as [[b σ']| |] eqn:Hset;
    [|vm_compute in Hset; discriminate Hset..].
  exists b, σ'. split; [reflexivity|].
  apply (invisible_user_value_ignored (K := demo) (fuel := demo_fuel) hidden_session σ' dN (UStr "5") b).
  - apply after_ok.
  - left. reflexivity.
  - read_it.
  - exact Hset.
Defined.

Lemma assignable_takes_effect_witness :
  ∃ σ', set_value demo dD (UTri 1) rules_session = Ok (true, σ') ∧ session_ok (K := demo) σ' ∧
    reads (K := demo) (fuel := demo_fuel) σ' (QTri dD) (VTri 1).
Proof.
  destruct (assignable_takes_effect (K := demo) (fuel := demo_fuel) rules_session dD [0; 1; 2]%Z 1) as (σ' & H1 & H2 & H3).
  - apply after_ok.
  - reflexivity.
  - reflexivity.
  - read_it.
  - apply (bool_decide_unpack _). vm_compute. exact I.
  - exists σ'. split; [exact H1|]. split; [exact H2|]. rewrite decide_False in H3; [exact H3|].
    intros (H & _). vm_compute in H. discriminate H.
Defined.

Lemma choose_symbol_witness :
  ∃ σ', set_value demo dSLOW (UTri 2) rules_session = Ok (true, σ') ∧ session_ok (K := demo) σ' ∧
    reads (K := demo) (fuel := demo_fuel) σ' (QSel dMODE) (VSel (Some dSLOW)) ∧
    ∀ t, s_choice (sym demo t) = Some dMODE →
      reads (K := demo) (fuel := demo_fuel) σ' (QTri t) (VTri (if decide (t = dSLOW) then 2 else 0)).
Proof.
  eapply (choose_symbol (K := demo) (fuel := demo_fuel) rules_session _ dSLOW dMODE 2).
  - apply after_ok.
  - reflexivity.
  - read_it.
  - done.
  - vm_compute. reflexivity.
  - intros t Ht.
    assert (map_Forall (λ t S, s_choice S = Some dMODE →
      preset demo (QTri t) = None ∧ BOOL_TRISTATE (s_orig_type S) = true) (k_syms_store demo)) as H.
    { apply (bool_decide_unpack _). vm_compute. exact I. }
    unfold sym, lookup_total, map_lookup_total in *.
    destruct (k_syms_store demo !! t) as [S|] eqn:HS; cbn in *; [exact (H t S HS Ht)|discriminate Ht].
Defined.
