(* ===== verification/ConfigRules.v ===== *)
(** * Saving and loading configurations

    The theorems about .config files: what [load_config] does to a session, what
    is written for a symbol, and that reading back what was written restores it. *)

From S2P Require Import Prelude PyStr PyText Kconst Expr Escape Incr Objects ParseState.
From S2P Require Import Values Reads Session Meaning Effects ConfigFile ConfigSession ConfigWrite.
From S2P Require Import MenuTree ConfigLines Written Reload Restore ConfigText Check Load Demo.
From stdpp Require Import options.

Section Rules.
Context {K : kconfig} {fuel : nat} {HK : Loaded K fuel}.
Implicit Types (σ : session) (h : host).

Abbreviation ok σ := (session_ok (K := K) σ).

(** C17 [load_config] on a file that can be opened, whatever its text, folds the
    assignments that the lines stand for over the user values, unsets everything else
    when it replaces the configuration, and records the assignments to undefined
    symbols.  It raises in one case, a KeyError: when it merges a file that assigns a
    bool or tristate symbol that was set and then unset ([forgotten]). *)
Theorem load_config_refines w filename opened text replace h :
  ok (h_session h) → names_defined (K := K) → open_config w K filename h = Ok (opened, text) →
  if negb replace && existsb (assigns_forgotten K (settings_of (h_session h))) (file_assignments K text)
  then load_config_file w K filename replace h = Raise KeyError
  else ∃ h', load_config_file w K filename replace h = Ok h' ∧ ok (h_session h') ∧
    settings_of (h_session h') = spec_load K replace text (settings_of (h_session h)) ∧
    h_missing h' = (if replace then [] else h_missing h) ++ concat (missing_of <$> file_assignments K text) ∧
    h_files h' = h_files h.
Proof using HK. intros H1 H2 H3. by apply (load_config_file_cases H2 w filename opened text replace h). Qed.

(** C18 What replacing a configuration leaves of the values set before: two sessions
    that load the same file end with the same user values, choice modes and selections,
    except for the choices that the file puts in m mode.  Of these each session keeps
    the selection that it had, unless the file selects a symbol. *)
Theorem load_config_replaces w filename opened text h1 h2 :
  ok (h_session h1) → ok (h_session h2) → names_defined (K := K) →
  keys_defined (K := K) (settings_of (h_session h1)) → keys_defined (K := K) (settings_of (h_session h2)) →
  open_config w K filename h1 = Ok (opened, text) → open_config w K filename h2 = Ok (opened, text) →
  ∃ h1' h2', load_config_file w K filename true h1 = Ok h1' ∧ load_config_file w K filename true h2 = Ok h2' ∧
    let u1 := uvals (h_session h1') in
    let u2 := uvals (h_session h2') in
    user_value u1 = user_value u2 ∧ choice_user_value u1 = choice_user_value u2 ∧
    (∀ c, choice_user_value u1 !! c ≠ Some 1%Z → user_selection u1 !! c = user_selection u2 !! c) ∧
    (∀ c, choice_user_value u1 !! c = Some 1%Z →
       user_selection u1 !! c = match file_selection K c (file_assignments K text) with
                                | Some s => Some s
                                | None => user_selection (uvals (h_session h1)) !! c
                                end) ∧
    h_missing h1' = h_missing h2'.
Proof using HK.
  intros Hok1 Hok2 Hdef Hk1 Hk2 Ho1 Ho2.
  destruct (load_config_file_ok Hdef w filename opened text true h1) as (h1' & H1 & _ & Hl1 & Hm1 & _); [done..|].
  destruct (load_config_file_ok Hdef w filename opened text true h2) as (h2' & H2 & _ & Hl2 & Hm2 & _); [done..|].
  exists h1', h2'. split; [done|]. split; [done|]. cbv zeta.
  pose proof (spec_load_replaces text (settings_of (h_session h1)) (settings_of (h_session h2))
    (proj1 Hok1) (proj1 Hok2) Hk1 Hk2) as (E1 & E2 & E3).
  pose proof (spec_load_selection (K := K) text (settings_of (h_session h1))) as E4.
  rewrite <- Hl1, <- Hl2 in E1, E2, E3. rewrite <- Hl1 in E4. split_and!; [done|done|done| |by rewrite Hm1, Hm2].
  intros c Hc. apply E4. by exists 1%Z.
Qed.

(** C19 [config_string] depends on the user values alone: it is empty unless the
    symbol is visible or gets its value from a default, an imply or a select (and
    is not a choice symbol, an environment symbol or the defconfig list), and the
    line of the symbol's value otherwise. *)
Theorem config_string_rules σ s :
  ok σ → preset K (QTri s) = None → s_orig_type (sym K s) ≠ UNKNOWN →
  ∃ σ', config_string K fuel s σ
      = Ok (if written_of (K := K) (fuel := fuel) (uvals σ) s
            then config_line K s (str_of (K := K) (fuel := fuel) (uvals σ) s) else "", σ') ∧
    ok σ' ∧ uvals σ' = uvals σ.
Proof using HK. apply config_string_spec. Qed.

(** Round trip of a line: loading the line written for a symbol, in whatever
    session, makes the written value the user value of that symbol. *)
Theorem config_line_roundtrip σ s h filename linenr :
  let val := str_of (K := K) (fuel := fuel) (uvals σ) s in
  ok σ → ok (h_session h) → names_defined (K := K) → marked_ok K (settings_of (h_session h)) →
  defined_sym K (s_name (sym K s)) = Some s → name_ok (s_name (sym K s)) →
  s_all (not_c "=") (k_config_prefix K) = true → preset K (QTri s) = None →
  written_of (K := K) (fuel := fuel) (uvals σ) s = true →
  savable (K := K) s val → valid_for (s_orig_type (sym K s)) (norm_value (K := K) s (UStr val)) = true →
  ∃ line σ' h', config_string K fuel s σ = Ok (line, σ') ∧ load_line K filename linenr line h = Ok h' ∧
    ok (h_session h') ∧
    user_value (uvals (h_session h')) !! s = Some (norm_value (K := K) s (UStr val)).
Proof using HK.
  intros val Hσ Hh Hdef Hm Hs Hname Hpre Hp Hw Hsav Hval.
  destruct (config_string_spec σ s Hσ Hp) as (σ' & Hline & _).
  { intros Ht. destruct Hsav as [_ Hsav]. by rewrite Ht in Hsav. }
  rewrite Hw in Hline.
  destruct (load_line_ok filename linenr (config_line K s val) h Hh Hm) as (h' & Hl & Hok & Hset & _).
  { intros t v i. rewrite (config_line_assignment s Hs Hname Hpre val Hsav). intros [= <- _ _]. by eapply Hdef. }
  exists (config_line K s val), σ', h'. split_and!; [done|done|done|].
  change (uvals (h_session h')) with (st_u (settings_of (h_session h'))).
  rewrite Hset, (config_line_assignment s Hs Hname Hpre val Hsav). cbn [spec_assignment].
  match goal with |- context [spec_set _ _ _ ?x] => set (l := x) end. unfold spec_set, spec_set_value. rewrite Hval. cbn [st_u].
  destruct (s_choice (sym K s)); [case_decide|]; cbn; by rewrite lookup_insert_eq.
Qed.

(** The backup that [write_config] makes before it writes. *)
Lemma save_old_spec w path h :
  ∃ h', save_old w path h = (Ok (), h') ∧ h_session h' = h_session h ∧
    (∀ p, p ≠ path → p ≠ path +:+ ".old" → h_files h' !! p = h_files h !! p) ∧
    ∀ old, h_files h !! path = Some old → w_replace w (h_files h) path (path +:+ ".old") = true →
      h_files h' !! (path +:+ ".old") = Some old.
Proof using Type.
  unfold save_old, io_modify. destruct (h_files h !! path) as [text|]; [|by eexists; split_and!].
  destruct (w_replace _ _ _ _); eexists; split_and!; try done.
  - intros p H1 H2. cbn. by rewrite lookup_insert_ne, lookup_delete_ne.
  - intros old [= ->] _. cbn. by rewrite lookup_insert_eq.
Qed.

Lemma not_old path : path ≠ path +:+ ".old".
Proof using Type. intros H%(f_equal slen). rewrite slen_app in H. cbn in H. lia. Qed.

(** [write_config] saves the contents, or fails to write and leaves them in the
    backup if there is one. *)
Lemma write_config_result w filename header save h text :
  ok (h_session h) → gives (K := K) (uvals (h_session h)) (config_contents K fuel header) text →
  ∃ r h', write_config w K fuel (Some filename) header save h = (r, h') ∧
    ok (h_session h') ∧ uvals (h_session h') = uvals (h_session h) ∧
    (∀ p, p ≠ filename → p ≠ filename +:+ ".old" → h_files h' !! p = h_files h !! p) ∧
    match r with
    | Ok _ => universal_newlines text = text → open_read filename h' = Some text
    | Raise e => ¬ can_write w ∧ (∃ strerror, e = OSError strerror) ∧
        (save = true → ∀ old, h_files h !! filename = Some old →
           w_replace w (h_files h) filename (filename +:+ ".old") = true →
           h_files h' !! (filename +:+ ".old") = Some old)
    | NoFuel => False
    end.
Proof using Type.
  intros Hok Hg. destruct (Hg (h_session h) Hok eq_refl) as (σ' & Hc & Hok' & Hu').
  unfold write_config. cbn [default]. rewrite (io_bind_ok _ _ _ _ _ (io_on_session _ h text σ' Hc)).
  set (h1 := set_h_session σ' h). erewrite io_bind_ok by reflexivity. cbv beta. unfold id.
  destruct (contents_eq filename text h1) eqn:He.
  { eexists (Ok _), h1. split_and!; [done..|]. intros _. by apply bool_decide_eq_true in He. }
  assert (∃ h2, (if save then save_old w filename else mret ()) h1 = (Ok (), h2) ∧ h_session h2 = σ' ∧
    (∀ p, p ≠ filename → p ≠ filename +:+ ".old" → h_files h2 !! p = h_files h !! p) ∧
    (save = true → ∀ old, h_files h !! filename = Some old →
           w_replace w (h_files h) filename (filename +:+ ".old") = true →
           h_files h2 !! (filename +:+ ".old") = Some old)) as (h2 & E2 & Hs2 & Ho2 & Hb2).
  { destruct save; [|by exists h1].
    destruct (save_old_spec w filename h1) as (h2 & E & Hs & Ho & Hb). exists h2. by split_and!. }
  rewrite (io_bind_ok _ _ _ _ _ E2). pose proof (not_old filename) as Hne.
  destruct (write_file_cases w filename text h2) as [Hw|[(e & Hw)|(e & n & Hw)]].
  - rewrite (io_bind_ok _ _ _ _ _ Hw). eexists _, _. split; [done|]. cbn. rewrite Hs2. split_and!; [done|done| |].
    + intros p H1 H2. rewrite lookup_insert_ne by done. by apply Ho2.
    + intros Hn. unfold open_read. cbn. rewrite lookup_insert_eq. cbn. by rewrite Hn.
  - rewrite (io_bind_raise _ _ _ _ _ Hw). eexists _, _. split; [done|]. rewrite Hs2. split_and!; [done..| | |done]; [|by eexists].
    intros Hall. by rewrite write_file_ok in Hw.
  - rewrite (io_bind_raise _ _ _ _ _ Hw). eexists _, _. split; [done|]. cbn. rewrite Hs2.
    split_and!; [done|done| | | |].
    + intros p H1 H2. rewrite lookup_insert_ne by done. by apply Ho2.
    + intros Hall. by rewrite write_file_ok in Hw.
    + by eexists.
    + intros. rewrite lookup_insert_ne by done. by apply Hb2.
Qed.

Lemma write_config_gives w filename header save h text :
  can_write w → ok (h_session h) → gives (K := K) (uvals (h_session h)) (config_contents K fuel header) text →
  ∃ msg h', write_config w K fuel (Some filename) header save h = (Ok msg, h') ∧
    ok (h_session h') ∧ uvals (h_session h') = uvals (h_session h) ∧
    (universal_newlines text = text → open_read filename h' = Some text) ∧
    ∀ p, p ≠ filename → p ≠ filename +:+ ".old" → h_files h' !! p = h_files h !! p.
Proof using Type.
  intros Hw Hok Hg. destruct (write_config_result w filename header save h text Hok Hg) as (r & h' & E & H1 & H2 & H3 & H4).
  destruct r as [msg|e|]; [by exists msg, h'|by destruct H4|done].
Qed.

End Rules.

(** ** The theorems at a concrete configuration *)

(** A host with files, after some operations. *)
Definition demo_host (files : list (string * string)) (l : list op) : host :=
  Host (after l) (list_to_map files) [] true true true ∅ [] [].

Lemma demo_host_ok files l : session_ok (K := demo) (h_session (demo_host files l)).
Proof. apply after_ok. Qed.

Lemma names_definedb K :
  Forall (λ p : string * nat, s_nodes (sym K p.2) = [] ∨ p.2 ∈ k_unique_defined_syms K) (k_syms K) →
  names_defined (K := K).
Proof.
  intros H name s. unfold defined_sym. destruct (dict_get name (k_syms K)) as [t|] eqn:Hg; [|done].
  apply dict_get_In in Hg. rewrite Forall_forall in H. specialize (H _ Hg). cbn in H.
  case_bool_decide; [done|]. intros [= <-]. by destruct H.
Qed.

Lemma demo_names_defined : names_defined (K := demo).
Proof. apply names_definedb. apply (bool_decide_unpack _). vm_compute. exact I. Qed.

(** The decidable form of [keys_defined]. *)
Lemma keys_definedb K l :
  Forall (λ s, s ∈ k_unique_defined_syms K) (elements (dom (user_value (st_u l)) ∪ st_syms l)) →
  Forall (λ c, c ∈ k_unique_choices K)
    (elements (dom (choice_user_value (st_u l)) ∪ dom (user_selection (st_u l)) ∪ st_chos l)) →
  keys_defined (K := K) l.
Proof.
  rewrite !Forall_forall. intros H1 H2.
  split; intros x; rewrite <- ?elem_of_dom; intros Hx; [apply H1|apply H2]; set_solver.
Qed.

Definition saved_config : string := kconfig_text
  ["# a comment"; "CONFIG_A=y"; "# CONFIG_B is not set"; "CONFIG_FAST=y"; "CONFIG_N=7"; "CONFIG_H=zz";
   "CONFIG_S='x \'y'"; "CONFIG_GONE=y"; "CONFIG_N=8"; "rubbish"].

Definition demo_ops_1 : list op := [SetValue dB (UStr "y"); SetValue dSLOW (UTri 2); SetValue dN (UStr "3")].

(** Replacing succeeds; merging a file that assigns B into a session in which B was
    set and unset fails. *)
Definition forgot_b : host := demo_host [(".config", "CONFIG_B=y")] [SetValue dB (UStr "y"); UnsetValue dB].

Lemma load_config_refines_witness :
  (∃ h', load_config_file (one_file "") demo ".config" true (demo_host [(".config", saved_config)] demo_ops_1)
      = Ok h' ∧ session_ok (K := demo) (h_session h') ∧
    settings_of (h_session h')
      = spec_load demo true saved_config (settings_of (after demo_ops_1)) ∧
    h_missing h' = [] ++ concat (missing_of <$> file_assignments demo saved_config) ∧
    h_files h' = list_to_map [(".config", saved_config)]) ∧
  load_config_file (one_file "") demo ".config" false forgot_b = Raise KeyError.
Proof.
  split.
  - apply (load_config_refines (K := demo) (fuel := demo_fuel) (one_file "") ".config" ".config" saved_config true
      (demo_host [(".config", saved_config)] demo_ops_1)).
    + apply demo_host_ok.
    + apply demo_names_defined.
    + vm_compute. reflexivity.
  - pose proof (load_config_refines (K := demo) (fuel := demo_fuel) (one_file "") ".config" ".config" "CONFIG_B=y" false forgot_b) as H.
    replace (negb false && existsb (assigns_forgotten demo (settings_of (h_session forgot_b)))
      (file_assignments demo "CONFIG_B=y")) with true in H by (vm_compute; reflexivity).
    apply H.
    + apply demo_host_ok.
    + apply demo_names_defined.
    + vm_compute. reflexivity.
Defined.

Lemma load_config_replaces_witness :
  ∃ h1' h2', load_config_file (one_file "") demo ".config" true (demo_host [(".config", saved_config)] demo_ops_1)
      = Ok h1' ∧
    load_config_file (one_file "") demo ".config" true (demo_host [(".config", saved_config)] []) = Ok h2' ∧
    let u1 := uvals (h_session h1') in
    let u2 := uvals (h_session h2') in
    user_value u1 = user_value u2 ∧ choice_user_value u1 = choice_user_value u2 ∧
    (∀ c, choice_user_value u1 !! c ≠ Some 1%Z → user_selection u1 !! c = user_selection u2 !! c) ∧
    (∀ c, choice_user_value u1 !! c = Some 1%Z →
       user_selection u1 !! c = match file_selection demo c (file_assignments demo saved_config) with
                                | Some s => Some s
                                | None => user_selection (uvals (after demo_ops_1)) !! c
                                end) ∧
    h_missing h1' = h_missing h2'.
Proof.
  eapply (load_config_replaces (K := demo) (fuel := demo_fuel) (one_file "") ".config" ".config" saved_config).
  - apply demo_host_ok.
  - apply demo_host_ok.
  - apply demo_names_defined.
  - apply keys_definedb; apply (bool_decide_unpack _); vm_compute; exact I.
  - apply keys_definedb; apply (bool_decide_unpack _); vm_compute; exact I.
  - vm_compute. reflexivity.
  - vm_compute. reflexivity.
Defined.

Lemma config_string_rules_witness :
  ∃ σ', config_string demo demo_fuel dC (after demo_ops_1)
      = Ok (if written_of (K := demo) (fuel := demo_fuel) (uvals (after demo_ops_1)) dC
            then config_line demo dC (str_of (K := demo) (fuel := demo_fuel) (uvals (after demo_ops_1)) dC)
            else "", σ') ∧
    session_ok (K := demo) σ' ∧ uvals σ' = uvals (after demo_ops_1).
Proof.
  apply (config_string_rules (K := demo) (fuel := demo_fuel)).
  - apply after_ok.
  - reflexivity.
  - discriminate.
Defined.

Lemma config_line_roundtrip_witness :
  ∃ line σ' h', config_string demo demo_fuel dS (after [SetValue dS (UStr "a \ b")]) = Ok (line, σ') ∧
    load_line demo ".config" 1 line (demo_host [] []) = Ok h' ∧
    session_ok (K := demo) (h_session h') ∧
    user_value (uvals (h_session h')) !! dS = Some (UStr "a \ b").
Proof.
  apply (config_line_roundtrip (K := demo) (fuel := demo_fuel) (after [SetValue dS (UStr "a \ b")]) dS
    (demo_host [] []) ".config" 1).
  - apply after_ok.
  - apply demo_host_ok.
  - apply demo_names_defined.
  - intros s Hs. exfalso. revert Hs. apply not_elem_of_empty.
  - vm_compute. reflexivity.
  - split; [discriminate|reflexivity].
  - reflexivity.
  - reflexivity.
  - vm_compute. reflexivity.
  - split; [vm_compute; reflexivity|exact I].
  - vm_compute. reflexivity.
Defined.

Definition saved_ops : list op :=
  [SetValue dB (UStr "y"); SetValue dFAST (UTri 2); SetValue dN (UStr "7"); SetValue dS (UStr "it's \ 1")].

Lemma saved_expressible : expressible demo demo_fuel (uvals (after saved_ops)) "# saved
".
Proof. apply expressibleb_spec. vm_compute. reflexivity. Qed.

