(* ===== verification/SyncRules.v ===== *)
(** * Rebuilding no more than needed

    Theorems about the files that a build system watches: [sync_deps] touches the
    file of a symbol exactly when the symbol's entry in auto.conf changes, and
    [write_config] leaves a file alone that already holds the configuration.  A
    call that fails because a file cannot be written loses nothing: the next call
    makes up for it, and the old configuration is in the backup. *)

From S2P Require Import Prelude PyStr PyText Kconst Expr Escape Incr Objects ParseState.
From S2P Require Import Values Reads Session Meaning Effects ConfigFile ConfigSession ConfigWrite.
From S2P Require Import MenuTree ConfigLines Written Reload Restore ConfigText Check Load Demo.
From S2P Require Import SyncDeps ConfigRules.
From stdpp Require Import options.

Section Rules.
Context {K : kconfig} {fuel : nat} {HK : Loaded K fuel}.

(** C3 [sync_deps] touches exactly the files of the symbols whose entry differs
    from the one that auto.conf holds (all entries are absent before the first
    call), in the order of the definitions, and leaves the entries of the current
    configuration in auto.conf; the values of the session do not change.  It fails
    only with the error of a file that could not be written, having touched no
    other files. *)
Theorem sync_deps_exact w path old h :
  session_ok (K := K) (h_session h) → syncable (K := K) (fuel := fuel) (uvals (h_session h)) →
  holds_entries (K := K) (fuel := fuel) path h old →
  let changed := (λ s, dep_file path (s_name (sym K s)))
      <$> filter (λ s, old s ≠ entry (K := K) (fuel := fuel) (uvals (h_session h)) s) (k_unique_defined_syms K) in
  ∃ r h', sync_deps w K fuel path h = (r, h') ∧ session_ok (K := K) (h_session h') ∧
    uvals (h_session h') = uvals (h_session h) ∧
    match r with
    | Ok _ => h_touched h' = h_touched h ++ changed ∧
        (universal_newlines (auto_conf (K := K) (fuel := fuel) (uvals (h_session h)))
           = auto_conf (K := K) (fuel := fuel) (uvals (h_session h)) →
         holds_entries (K := K) (fuel := fuel) path h' (entry (K := K) (fuel := fuel) (uvals (h_session h))))
    | Raise e => ¬ can_write w ∧ (∃ strerror, e = OSError strerror) ∧
        ∃ some, some `prefix_of` changed ∧ h_touched h' = h_touched h ++ some
    | NoFuel => False
    end.
Proof using HK.
  intros Hok Hsy Hold changed. destruct (sync_deps_result w path old h Hok Hsy Hold) as (r & h' & H1 & H2 & H3 & H4).
  exists r, h'. split_and!; [done..|]. destruct r as [[]|e|]; cbn in H4; [| |done].
  - destruct H4 as [Ht Hr]. split; [done|]. intros Hn. by apply holds_auto_conf; [|apply Hr].
  - destruct H4 as (Hw & He & Hs). split_and!; [done|done|].
    destruct Hs as [[_ ?]|Ht]; [done|]. by exists changed.
Qed.

(** C22 A failed [sync_deps] can be run again, as its comment says: when a call was
    stopped by a file that it could not write, the next successful writes of a call
    for the same configuration, by this process or another, make the touched files
    complete: every symbol whose entry changed since the old auto.conf was touched
    by one of the two calls, and auto.conf holds the new entries. *)
Theorem sync_deps_rerun w w2 path old h e h1 :
  session_ok (K := K) (h_session h) → syncable (K := K) (fuel := fuel) (uvals (h_session h)) →
  holds_entries (K := K) (fuel := fuel) path h old →
  sync_deps w K fuel path h = (Raise e, h1) → can_write w2 →
  ∀ h2, session_ok (K := K) (h_session h2) → uvals (h_session h2) = uvals (h_session h) →
    h_files h2 = h_files h1 → h_touched h2 = h_touched h1 →
  ∃ h3, sync_deps w2 K fuel path h2 = (Ok (), h3) ∧
    (∀ s, s ∈ k_unique_defined_syms K → old s ≠ entry (K := K) (fuel := fuel) (uvals (h_session h)) s →
       dep_file path (s_name (sym K s)) ∈ drop (length (h_touched h)) (h_touched h3)) ∧
    (universal_newlines (auto_conf (K := K) (fuel := fuel) (uvals (h_session h)))
       = auto_conf (K := K) (fuel := fuel) (uvals (h_session h)) →
     holds_entries (K := K) (fuel := fuel) path h3 (entry (K := K) (fuel := fuel) (uvals (h_session h)))).
Proof using HK.
  intros Hok Hsy Hold E Hw2 h2 Hok2 Hu2 Hf2 Ht2.
  destruct (sync_deps_succeeds w2 path h2 Hw2 Hok2) as (h3 & E3 & Hu3 & Hr3); [by rewrite Hu2|]. rewrite Hu2 in Hr3.
  exists h3. split; [done|]. split; [|intros Hn; by apply holds_auto_conf; [|apply Hr3]].
  destruct (sync_deps_result w path old h Hok Hsy Hold) as (r & h1' & E' & _ & _ & Hs).
  rewrite E in E'. injection E' as <- <-. destruct Hs as (_ & _ & Hs).
  assert (∀ s files, s ∈ k_unique_defined_syms K → old s ≠ entry (K := K) (fuel := fuel) (uvals (h_session h)) s →
    dep_file path (s_name (sym K s)) ∈ drop (length (h_touched h)) (h_touched h ++
      changed_files (K := K) (fuel := fuel) path old (uvals (h_session h)) ++ files)) as Hin.
  { intros s files Hs' Hne. rewrite drop_app_length. apply elem_of_app. left. apply list_elem_of_fmap_2'
      || (apply list_elem_of_fmap; exists s; split; [done|]; by apply list_elem_of_filter). }
  intros s Hs' Hne. destruct Hs as [(Hr & some & _ & Ht1)|Ht1].
  - assert (holds_entries (K := K) (fuel := fuel) path h2 old) as Hold2.
    { unfold open_read in Hr. destruct Hold as [Ho|u0 Hsy0 Ho]; constructor; try done; unfold open_read in *; by rewrite Hf2, Hr. }
    destruct (sync_deps_result w2 path old h2 Hok2) as (r & h3' & E3' & _ & _ & Hs3); [by rewrite Hu2|done|].
    rewrite E3 in E3'. injection E3' as <- <-. destruct Hs3 as [Ht3 _].
    rewrite Ht3, Ht2, Ht1, Hu2, <- app_assoc, drop_app_length. apply elem_of_app. right.
    specialize (Hin s [] Hs' Hne). by rewrite drop_app_length, app_nil_r in Hin.
  - destruct (more_sync_deps (K := K) (fuel := fuel) w2 path h2) as [files Hmore]. rewrite E3 in Hmore. cbn in Hmore.
    rewrite Hmore, Ht2, Ht1, <- app_assoc. by apply Hin.
Qed.


End Rules.

(** ** The theorems at a concrete configuration *)

Definition syncableb (K : kconfig) (fuel : nat) (u : ustate) : bool :=
  s_all (not_c "=") (k_config_prefix K) && s_all (not_c nl_c) (k_config_prefix K)
  && forallb (λ s, bool_decide (dict_get (s_name (sym K s)) (k_syms K) = Some s)
       && name_okb (s_name (sym K s)) && negb (bool_decide (s_orig_type (sym K s) = UNKNOWN))
       && s_all (not_c nl_c) (str_of (K := K) (fuel := fuel) u s)) (k_unique_defined_syms K).

Lemma syncableb_spec K fuel u : syncableb K fuel u = true → syncable (K := K) (fuel := fuel) u.
Proof.
  unfold syncableb. rewrite !andb_true_iff. intros [[H1 H2] H3]. split; [done..|]. intros s Hs.
  pose proof (forallb_elem _ _ _ H3 Hs) as H. cbn beta in H.
  rewrite !andb_true_iff, negb_true_iff, bool_decide_eq_true, bool_decide_eq_false in H.
  destruct H as [[[Hd Hn] Ht] Hl]. split_and!; [done|by apply name_okb_spec|done|done].
Qed.

Definition synced_host : host :=
  demo_host [("inc/auto.conf", auto_conf (K := demo) (fuel := demo_fuel) (uvals (after saved_ops)))]
    (saved_ops ++ [SetValue dN (UStr "9")]).

(** A file system on which one file cannot be written. *)
Definition refusing (path : string) : world :=
  let w := one_file "" in
  World (w_env w) (w_file w) (w_errno w) (w_glob w) (w_shell w) (w_realpath w) (w_uname_release w) (w_functions w)
    (λ _ p _, if decide (p = path) then Some (Refused "EACCES: denied") else None) (w_replace w).

Lemma one_file_can_write text : can_write (one_file text).
Proof. done. Qed.

Lemma synced_host_ok : session_ok (K := demo) (h_session synced_host).
Proof. apply demo_host_ok. Qed.

Lemma synced_host_holds :
  holds_entries (K := demo) (fuel := demo_fuel) "inc" synced_host (entry (K := demo) (fuel := demo_fuel) (uvals (after saved_ops))).
Proof. apply holds_auto_conf; [apply syncableb_spec; vm_compute; reflexivity|vm_compute; reflexivity]. Qed.

Lemma synced_host_syncable : syncable (K := demo) (fuel := demo_fuel) (uvals (h_session synced_host)).
Proof. apply syncableb_spec. vm_compute. reflexivity. Qed.

Lemma sync_deps_exact_witness :
  ∃ r h', sync_deps (one_file "") demo demo_fuel "inc" synced_host = (r, h') ∧ session_ok (K := demo) (h_session h') ∧
    uvals (h_session h') = uvals (h_session synced_host) ∧
    match r with
    | Ok _ => h_touched h' = ["inc/n.h"] ∧
        (universal_newlines (auto_conf (K := demo) (fuel := demo_fuel) (uvals (h_session synced_host)))
           = auto_conf (K := demo) (fuel := demo_fuel) (uvals (h_session synced_host)) →
         holds_entries (K := demo) (fuel := demo_fuel) "inc" h'
           (entry (K := demo) (fuel := demo_fuel) (uvals (h_session synced_host))))
    | Raise e => ¬ can_write (one_file "") ∧ (∃ strerror, e = OSError strerror) ∧
        ∃ some, some `prefix_of` ["inc/n.h"] ∧ h_touched h' = some
    | NoFuel => False
    end.
Proof.
  apply (sync_deps_exact (K := demo) (fuel := demo_fuel) (one_file "") "inc"
    (entry (K := demo) (fuel := demo_fuel) (uvals (after saved_ops))) synced_host).
  - apply synced_host_ok.
  - apply synced_host_syncable.
  - apply synced_host_holds.
Defined.

(** The call that fails. *)
Definition stopped : host := (sync_deps (refusing "inc/n.h") demo demo_fuel "inc" synced_host).2.

Lemma stopped_ok : session_ok (K := demo) (h_session stopped) ∧ uvals (h_session stopped) = uvals (h_session synced_host).
Proof.
  destruct (sync_deps_result (K := demo) (fuel := demo_fuel) (refusing "inc/n.h") "inc" _ synced_host
    synced_host_ok synced_host_syncable synced_host_holds) as (r & h' & E & Hok & Hu & _).
  unfold stopped. rewrite E. exact (conj Hok Hu).
Qed.

Lemma sync_deps_rerun_witness :
  ∃ h3, sync_deps (one_file "") demo demo_fuel "inc" stopped = (Ok (), h3) ∧
    (∀ s, s ∈ k_unique_defined_syms demo →
       entry (K := demo) (fuel := demo_fuel) (uvals (after saved_ops)) s
         ≠ entry (K := demo) (fuel := demo_fuel) (uvals (h_session synced_host)) s →
       dep_file "inc" (s_name (sym demo s)) ∈ drop 0 (h_touched h3)) ∧
    (universal_newlines (auto_conf (K := demo) (fuel := demo_fuel) (uvals (h_session synced_host)))
       = auto_conf (K := demo) (fuel := demo_fuel) (uvals (h_session synced_host)) →
     holds_entries (K := demo) (fuel := demo_fuel) "inc" h3
       (entry (K := demo) (fuel := demo_fuel) (uvals (h_session synced_host)))).
Proof.
  assert ((sync_deps (refusing "inc/n.h") demo demo_fuel "inc" synced_host).1 = Raise (OSError "EACCES: denied")) as Hr
    by (vm_compute; reflexivity).
  apply (sync_deps_rerun (K := demo) (fuel := demo_fuel) (refusing "inc/n.h") (one_file "") "inc"
    (entry (K := demo) (fuel := demo_fuel) (uvals (after saved_ops))) synced_host (OSError "EACCES: denied") stopped).
  - apply synced_host_ok.
  - apply synced_host_syncable.
  - apply synced_host_holds.
  - rewrite <- Hr. apply surjective_pairing.
  - apply one_file_can_write.
  - exact (proj1 stopped_ok).
  - exact (proj2 stopped_ok).
  - reflexivity.
  - reflexivity.
Defined.



(** That save fails, and there is no .config any more: its text was moved. *)
Example failed_save_raises :
  let (r, h) := write_config (refusing ".config") demo demo_fuel (Some ".config") (Some "# saved
") true (demo_host [(".config", "CONFIG_N=1")] saved_ops) in
  r = Raise (OSError "EACCES: denied") ∧ h_files h !! ".config" = None ∧ h_files h !! ".config.old" = Some "CONFIG_N=1".
Proof. vm_compute. split_and!; reflexivity. Qed.
