(* ===== verification/EditText.v ===== *)
(** * Text editing in the terminal interface: menuconfig's [_edit_text]

    The keys of the interface, the state of an edit box (text, cursor, horizontal
    scroll) and one editing step.  The cursor stays inside the text and on the
    screen; what the editing keys do to the text is stated with the text before
    and after the cursor. *)

From S2P Require Import Prelude PyStr PyText.
From stdpp Require Import options.

(** Characters and function keys, as [get_wch] returns them. *)
Inductive key : Type :=
  | KChar (c : ascii)
  | KEY_LEFT | KEY_RIGHT | KEY_UP | KEY_DOWN | KEY_HOME | KEY_END
  | KEY_NPAGE | KEY_PPAGE | KEY_BACKSPACE | KEY_DC | KEY_RESIZE
  | KEY_OTHER.

#[global] Instance key_eq_dec : EqDecision key.
Proof. solve_decision. Defined.

(** A key given as a control code. *)
Definition ctrl (n : N) : key := KChar (chr n).

Definition SCROLL_OFFSET : Z := 5.

(** [s[:i]] and [s[i:]] for a non-negative [i] *)
Definition upto (i : Z) (s : string) : string := stake (Z.to_nat i) s.
Definition from (i : Z) (s : string) : string := sdrop (Z.to_nat i) s.

Definition zlen (s : string) : Z := Z.of_nat (slen s).

(** A match of [(?:\w*|\W)\s*$] at the start of [s]. *)
Definition word_tail (s : string) : bool :=
  s_all is_pyspace (lstrip_by is_word s)
  || match s with String c r => negb (is_word c) && s_all is_pyspace r | EmptyString => false end.

Section Edit.
(** [_ERASE_CHAR], the terminal's erase character *)
Variable erase_char : option ascii.

Definition is_erase (c : key) : bool :=
  match c, erase_char with
  | KEY_BACKSPACE, _ => true
  | KChar c, Some e => c_eqb c e
  | _, _ => false
  end.

(** What a key does to the text and the cursor. *)
Definition edit_key (c : key) (s : string) (i : Z) : string * Z :=
  (if bool_decide (c = KEY_LEFT) then (s, if 0 <? i then i - 1 else i)
  else if bool_decide (c = KEY_RIGHT) then (s, if i <? zlen s then i + 1 else i)
  else if bool_decide (c = KEY_HOME) || bool_decide (c = ctrl 1) then (s, 0)
  else if bool_decide (c = KEY_END) || bool_decide (c = ctrl 5) then (s, zlen s)
  else if is_erase c then
    if 0 <? i then (upto (i - 1) s +:+ from i s, i - 1) else (s, i)
  else if bool_decide (c = KEY_DC) then (upto i s +:+ from (i + 1) s, i)
  else if bool_decide (c = ctrl 23) then
    let new_i := Z.of_nat (default 0%nat (find_at word_tail (upto i s) 0)) in
    (upto new_i s +:+ from i s, new_i)
  else if bool_decide (c = ctrl 11) then (upto i s, i)
  else if bool_decide (c = ctrl 21) then (from i s, 0)
  else match c with
       | KChar c => (upto i s +:+ one c +:+ from i s, i + 1)
       | _ => (s, i)
       end)%Z.

(** The horizontal scroll for the cursor at [i]. *)
Definition edit_scroll (s : string) (i hscroll width : Z) : Z :=
  (if i <? hscroll + SCROLL_OFFSET then Z.max (i - SCROLL_OFFSET) 0
  else if hscroll + width - SCROLL_OFFSET <=? i then
    let max_scroll := Z.max (zlen s - width + 1) 0 in
    Z.min (i - width + SCROLL_OFFSET + 1) max_scroll
  else hscroll)%Z.

Definition edit_text (c : key) (s : string) (i hscroll width : Z) : string * Z * Z :=
  let '(s, i) := edit_key c s i in
  (s, i, edit_scroll s i hscroll width).

(** ** The cursor *)

Definition cursor_ok (s : string) (i : Z) : Prop := (0 ≤ i ≤ zlen s)%Z.

Lemma zlen_app s t : zlen (s +:+ t) = (zlen s + zlen t)%Z.
Proof using Type. unfold zlen. rewrite slen_app. lia. Qed.

Lemma upto_from i s : upto i s +:+ from i s = s.
Proof using Type. apply stake_drop. Qed.

Lemma zlen_from i s : cursor_ok s i → zlen (from i s) = (zlen s - i)%Z.
Proof using Type. unfold cursor_ok, zlen, from. intros Hi. rewrite sdrop_length. lia. Qed.

Lemma zlen_upto i s : cursor_ok s i → zlen (upto i s) = i.
Proof using Type.
  intros Hi. pose proof (zlen_from i s Hi) as Hf. rewrite <- (upto_from i s) in Hf at 2.
  rewrite zlen_app in Hf. pose proof (zlen_app (upto i s) (from i s)) as Ha. rewrite upto_from in Ha.
  rewrite zlen_from in Ha by done. lia.
Qed.

Lemma zlen_nonneg s : (0 ≤ zlen s)%Z.
Proof using Type. unfold zlen. lia. Qed.

Lemma word_tail_found s : ∃ n, find_at word_tail s 0 = Some n ∧ n ≤ slen s.
Proof using Type.
  destruct (find_at word_tail s 0) as [n|] eqn:Hn.
  - exists n. split; [done|]. apply find_from_spec in Hn as (_ & Hn & _). done.
  - exfalso. unfold find_at in Hn. change (sdrop 0 s) with s in Hn. revert Hn. generalize 0.
    induction s as [|c s IH]; intros i; cbn [find_from]; [done|]. case_match; [done|]. apply IH.
Qed.

Lemma edit_key_cursor c s i : cursor_ok s i → cursor_ok (edit_key c s i).1 (edit_key c s i).2.
Proof using Type.
  intros Hi. unfold edit_key. pose proof (zlen_from i s Hi). pose proof (zlen_upto i s Hi).
  pose proof (zlen_nonneg s). unfold cursor_ok in *.
  repeat case_match; cbn [fst snd]; rewrite ?zlen_app; try lia.
  - rewrite Z.ltb_lt in *. rewrite zlen_upto by (unfold cursor_ok; lia). lia.
  - destruct (decide (i = zlen s)) as [->|].
    + assert (zlen (upto (zlen s) s) = zlen s) by done. pose proof (zlen_nonneg (from (zlen s + 1) s)). lia.
    + rewrite zlen_from by (unfold cursor_ok; lia). lia.
  - destruct (word_tail_found (upto i s)) as (n & -> & Hn). cbn [from_option id].
    assert (Z.of_nat n ≤ i)%Z by (unfold zlen in *; lia).
    rewrite zlen_upto by (unfold cursor_ok; lia). lia.
  - change (zlen (one c0)) with 1%Z. lia.
Qed.

(** In a box of at least six columns the cursor is on the screen after every
    key, wherever the text was scrolled to before. *)
Lemma edit_scroll_cursor s i hscroll width :
  cursor_ok s i → (0 ≤ hscroll)%Z → (6 ≤ width)%Z →
  let h := edit_scroll s i hscroll width in (0 ≤ h ≤ i ∧ i < h + width)%Z.
Proof using Type.
  unfold cursor_ok, edit_scroll, SCROLL_OFFSET. intros Hi Hh Hw. cbv zeta.
  repeat case_match; rewrite ?Z.ltb_lt, ?Z.ltb_ge, ?Z.leb_le, ?Z.leb_gt in *; lia.
Qed.

(** ** The text around the cursor *)

Lemma upto_app s t : upto (zlen s) (s +:+ t) = s.
Proof using Type. unfold upto, zlen. rewrite Nat2Z.id. apply stake_app. Qed.

Lemma from_app s t : from (zlen s) (s +:+ t) = t.
Proof using Type. unfold from, zlen. rewrite Nat2Z.id. apply sdrop_app. Qed.

(** A character without an editing function. *)
Definition plain_char (c : ascii) : bool :=
  negb (mem c [chr 1; chr 5; chr 23; chr 11; chr 21]) && negb (is_erase (KChar c)).

Lemma insert_key c a b : plain_char c = true →
  edit_key (KChar c) (a +:+ b) (zlen a) = (a +:+ one c +:+ b, zlen a + 1)%Z.
Proof using Type.
  unfold plain_char. rewrite andb_true_iff, !negb_true_iff. intros [Hc He].
  apply mem_false in Hc. rewrite !not_elem_of_cons in Hc. destruct Hc as (H1 & H5 & H23 & H11 & H21 & _).
  unfold edit_key, ctrl. rewrite He.
  repeat rewrite (bool_decide_false (_ = _)) by (congruence || (intros [= E]; congruence)).
  cbn [orb]. by rewrite upto_app, from_app.
Qed.

Lemma erase_key a c b : edit_key KEY_BACKSPACE (a +:+ one c +:+ b) (zlen a + 1)%Z = (a +:+ b, zlen a).
Proof using Type.
  unfold edit_key. repeat rewrite (bool_decide_false (_ = _)) by done. cbn [orb is_erase].
  pose proof (zlen_nonneg a). rewrite (proj2 (Z.ltb_lt 0 (zlen a + 1))) by lia.
  replace (zlen a + 1 - 1)%Z with (zlen a) by lia. rewrite upto_app.
  replace (zlen a + 1)%Z with (zlen (a +:+ one c)) by (by rewrite zlen_app).
  by rewrite <- app_assoc_s, from_app.
Qed.
End Edit.
