(* ===== verification/MenuView.v ===== *)
(** * What the terminal interface shows: menuconfig

    [_visible], [_shown_nodes], [_parent_menu] and the text of a menu entry
    ([_value_str], [_node_str]).  The interface reads a session; what its reads
    cache has no effect on later answers (Client.session_refines), so a read is a
    function of the session here. *)

From S2P Require Import Prelude PyStr PyText Kconst Expr Escape Incr Objects ParseState.
From S2P Require Import Printing Values Reads Session ConfigFile ConfigWrite.
From stdpp Require Import options.

Definition SUBMENU_INDENT : nat := 4.

(** The symbol or choice of a node. *)
Definition item_of_node (i : nitem) : option item :=
  match i with NSym s => Some (ISym s) | NCho c => Some (ICho c) | _ => None end.

Definition is_symbol_node (i : nitem) : bool := match i with NSym _ => true | _ => false end.

(** ["{:{}}".format(s, width)] for a string *)
Definition ljust (s : string) (width : nat) : string := s +:+ spaces (width - slen s).

(** [x.index(y)] and [y in x] *)
Definition index_of (x : nat) (l : list nat) : outcome Z :=
  match list_find (λ y, y = x) l with Some (i, _) => Ok (Z.of_nat i) | None => Raise ValueError end.

Section View.
Variable K : kconfig.
Variable fuel : nat.

(** ** Reading a session *)
Definition peek {A} (f : session → outcome (A * session)) (σ : session) : outcome A :=
  let! (a, _) := f σ in Ok a.

Definition tri_now (i : item) : session → outcome Z := peek (run_code K fuel (λ u, item_tri_value K u i)).
Definition str_now (s : nat) : session → outcome string := peek (str_value K fuel s).

(** [sc.str_value] *)
Definition item_str_now (i : item) (σ : session) : outcome string :=
  match i with
  | ISym s => str_now s σ
  | ICho _ => let! v := tri_now i σ in Ok (tri_str v)
  end.

Definition vis_now (i : item) : session → outcome Z := peek (visibility_of K fuel i).
Definition type_now (i : item) : session → outcome ktype := peek (run_code K fuel (λ u, item_type K u i)).
Definition expr_now (e : expr) : session → outcome Z := peek (eval_expr K fuel e).

Definition selection_now (c : nat) : session → outcome (option nat) := peek (λ σ,
  let! (v, σ) := get_prop K fuel (QSel c) σ in
  match v with VSel o => Ok (o, σ) | _ => Raise AttributeError end).

Definition assignable_now (i : item) : session → outcome (list Z) := peek (λ σ,
  let! (v, σ) := get_prop K fuel (QAsg i) σ in
  match v with VAsg l => Ok (l, σ) | _ => Raise AttributeError end).

(** ** Menus *)

(** [_visible] *)
Definition node_visible (σ : session) (n : nat) : outcome bool :=
  let N := nod K n in
  match n_prompt N with
  | None => Ok false
  | Some (_, cond) =>
      let! p := expr_now cond σ in
      if (p =? 0)%Z then Ok false
      else if bool_decide (n_item N = NMenu) then
        let! v := expr_now (n_visibility N) σ in Ok (negb (v =? 0)%Z)
      else Ok true
  end.

(** [rec] of [_shown_nodes], along [next] and [list]. *)
Fixpoint shown_rec (visible : nat → outcome bool) (show_all : bool) (f : nat) (o : option nat)
    : outcome (list nat) :=
  match f with
  | O => NoFuel
  | S f =>
      match o with
      | None => Ok []
      | Some n =>
          let N := nod K n in
          let! v := visible n in
          let! here :=
            (if v || show_all then
               if bool_decide (is_Some (n_list N)) && negb (n_is_menuconfig N) then
                 let! sub := shown_rec visible show_all f (n_list N) in Ok (n :: sub)
               else Ok [n]
             else if bool_decide (is_Some (n_list N)) && is_symbol_node (n_item N) then
               let! sub := shown_rec visible show_all f (n_list N) in
               Ok (match sub with
                   | [] => []
                   | _ => n :: (if n_is_menuconfig N then [] else sub)
                   end)
             else Ok []) in
          let! rest := shown_rec visible show_all f (n_next N) in
          Ok (here ++ rest)
      end
  end.

(** The nodes of one location of a choice, without the symbols already seen. *)
Definition add_unseen (current : bool) (l res : list nat) (seen : list nitem) : list nat * list nitem :=
  foldl (λ '(res, seen) n,
    let i := n_item (nod K n) in
    if negb (is_symbol_node i && mem i seen) || current
    then (res ++ [n], if is_symbol_node i then i :: seen else seen)
    else (res, seen)) (res, seen) l.

Fixpoint shown_choice (visible : nat → outcome bool) (show_all : bool) (f menu : nat) (locations : list nat)
    (res : list nat) (seen : list nitem) : outcome (list nat) :=
  match locations with
  | [] => Ok res
  | n :: locations =>
      let! l := shown_rec visible show_all f (n_list (nod K n)) in
      let '(res, seen) := add_unseen (bool_decide (n = menu)) l res seen in
      shown_choice visible show_all f menu locations res seen
  end.

(** [_shown_nodes], given [_visible]. *)
Definition shown_in (visible : nat → outcome bool) (show_all : bool) (menu : nat) : outcome (list nat) :=
  let here := shown_rec visible show_all fuel (n_list (nod K menu)) in
  match n_item (nod K menu) with
  | NCho c =>
      let! here := here in
      let seen := filter (λ i, is_symbol_node i = true) ((λ n, n_item (nod K n)) <$> here) in
      shown_choice visible show_all fuel menu (c_nodes (cho K c)) [] seen
  | _ => here
  end.

Definition shown_nodes (show_all : bool) (menu : nat) (σ : session) : outcome (list nat) :=
  shown_in (node_visible σ) show_all menu.

(** [_parent_menu], with the number of steps up. *)
Fixpoint parent_menu_from (f : nat) (o : option nat) : outcome (nat * nat) :=
  match f, o with
  | O, _ => NoFuel
  | S _, None => Raise AttributeError
  | S f, Some n =>
      if n_is_menuconfig (nod K n) then Ok (n, 0)
      else let! (m, k) := parent_menu_from f (n_parent (nod K n)) in Ok (m, S k)
  end.

Definition parent_menu (n : nat) : outcome nat :=
  let! (m, _) := parent_menu_from fuel (n_parent (nod K n)) in Ok m.

(** ** Menu entries *)

(** [_is_y_mode_choice_sym] *)
Definition is_y_mode_choice_sym (i : item) (σ : session) : outcome bool :=
  match i with
  | ISym s =>
      match s_choice (sym K s) with
      | Some _ => let! v := vis_now i σ in Ok (v =? 2)%Z
      | None => Ok false
      end
  | ICho _ => Ok false
  end.

(** [(" ", "M", "*")[v]] *)
Definition tri_mark (v : Z) : string := if (v =? 2)%Z then "*" else if (v =? 1)%Z then "M" else " ".

Definition orig_type (i : item) : ktype :=
  match i with ISym s => s_orig_type (sym K s) | ICho c => c_orig_type (cho K c) end.

(** [_value_str] *)
Definition value_str (n : nat) (σ : session) : outcome string :=
  match item_of_node (n_item (nod K n)) with
  | None => Ok ""
  | Some i =>
      match orig_type i with
      | UNKNOWN => Ok ""
      | STRING | INT | HEX =>
          let! v := item_str_now i σ in Ok ("(" +:+ v +:+ ")")
      | _ =>
          let! y_mode := is_y_mode_choice_sym i σ in
          match i, y_mode with
          | ISym s, true =>
              let! chosen := selection_now (default 0 (s_choice (sym K s))) σ in
              Ok (if bool_decide (chosen = Some s) then "(X)" else "( )")
          | _, _ =>
              let! v := tri_now i σ in
              let! assignable := assignable_now i σ in
              if bool_decide (length assignable ≤ 1) then
                Ok (match i with ICho _ => "" | ISym _ => "-" +:+ tri_mark v +:+ "-" end)
              else
                let! t := type_now i σ in
                Ok (if decide (t = BOOL) then "[" +:+ tri_mark v +:+ "]"
                    else if bool_decide (assignable = [1; 2]%Z) then "{" +:+ tri_mark v +:+ "}"
                    else "<" +:+ tri_mark v +:+ ">")
          end
      end
  end.

(** [_should_show_name] *)
Definition should_show_name (show_name : bool) (n : nat) : bool :=
  bool_decide (n_prompt (nod K n) = None)
  || (show_name && bool_decide (is_Some (item_of_node (n_item (nod K n))))).

Definition prompt_text (n : nat) : option string := fst <$> n_prompt (nod K n).

(** The name, and the prompt of the node; menus and comments have a prompt. *)
Definition name_part (show_name : bool) (n : nat) : string :=
  if should_show_name show_name n then
    match n_item (nod K n) with
    | NSym s => " <" +:+ s_name (sym K s) +:+ ">"
    | NCho c => " " +:+ standard_sc_expr_str K (ICho c)
    | _ => ""
    end
  else "".

Definition new_part (s : nat) (σ : session) : outcome string :=
  if bool_decide (user_value (uvals σ) !! s = None)
     && negb (bool_decide (s_orig_type (sym K s) = UNKNOWN)) then
    match s_choice (sym K s) with
    | Some c => let! v := tri_now (ICho c) σ in Ok (if (v =? 2)%Z then "" else " (NEW)")
    | None => Ok " (NEW)"
    end
  else Ok "".

Definition prompt_part (n : nat) (σ : session) : outcome string :=
  match prompt_text n with
  | None => Ok ""
  | Some text =>
      match n_item (nod K n) with
      | NComment => Ok (" *** " +:+ text +:+ " ***")
      | NSym s => let! new := new_part s σ in Ok (" " +:+ text +:+ new)
      | _ => Ok (" " +:+ text)
      end
  end.

(** The prompt of the selected symbol behind a choice in y mode: the one at this
    location if there is one. *)
Definition selected_prompt (n s : nat) : option string :=
  let nodes := s_nodes (sym K s) in
  let here := filter (λ m, n_parent (nod K m) = Some n) nodes in
  match omap prompt_text here with
  | text :: _ => Some text
  | [] => head (omap prompt_text nodes)
  end.

Definition selection_part (n : nat) (σ : session) : outcome string :=
  match n_item (nod K n) with
  | NCho c =>
      let! v := tri_now (ICho c) σ in
      if (v =? 2)%Z then
        let! chosen := selection_now c σ in
        Ok (match chosen with
            | Some s => match selected_prompt n s with Some text => " (" +:+ text +:+ ")" | None => "" end
            | None => ""
            end)
      else Ok ""
  | _ => Ok ""
  end.

(** [_node_str] *)
Definition node_str (show_all show_name : bool) (n : nat) (σ : session) : outcome string :=
  let! (_, steps) := parent_menu_from fuel (n_parent (nod K n)) in
  let! value := value_str n σ in
  let! prompt := prompt_part n σ in
  let! selection := selection_part n σ in
  let! arrow :=
    (if n_is_menuconfig (nod K n) then
       let! sub := shown_nodes show_all n σ in
       Ok (match sub with [] => "  ----" | _ => "  --->" end)
     else Ok "") in
  Ok (ljust value (3 + SUBMENU_INDENT * steps) +:+ name_part show_name n +:+ prompt +:+ selection +:+ arrow).

(** ** Checking values *)

(** [_is_num] *)
Definition is_num (name : string) : bool :=
  bool_decide (is_Some (py_int 10 name))
  || ((startswith "0x" name || startswith "0X" name) && bool_decide (is_Some (py_int 16 name))).

(** The first active range of an int or hex symbol. *)
Fixpoint active_bounds (l : list (nat * nat * expr)) (σ : session) : outcome (option (string * string)) :=
  match l with
  | [] => Ok None
  | (low, high, cond) :: l =>
      let! v := expr_now cond σ in
      if (v =? 0)%Z then active_bounds l σ
      else
        let! low := str_now low σ in
        let! high := str_now high σ in
        Ok (Some (low, high))
  end.

(** [_range_info] *)
Definition range_info (s : nat) (σ : session) : outcome (option string) :=
  if INT_HEX (s_orig_type (sym K s)) then
    let! r := active_bounds (s_ranges (sym K s)) σ in
    Ok ((λ '(low, high), "Range: " +:+ low +:+ "-" +:+ high) <$> r)
  else Ok None.

(** [_check_valid]: the message of the error dialog, if any. *)
Definition check_valid (s : nat) (text : string) (σ : session) : outcome (option string) :=
  let t := s_orig_type (sym K s) in
  if INT_HEX t then
    let base := if decide (t = INT) then 10%Z else 16%Z in
    match py_int base text with
    | None => Ok (Some ("'" +:+ text +:+ "' is a malformed " +:+ TYPE_TO_STR t +:+ " value"))
    | Some v =>
        let! r := active_bounds (s_ranges (sym K s)) σ in
        match r with
        | None => Ok None
        | Some (low, high) =>
            let! l := of_option ValueError (py_int base low) in
            if (l <=? v)%Z then
              let! h := of_option ValueError (py_int base high) in
              Ok (if (v <=? h)%Z then None
                  else Some (text +:+ " is outside the range " +:+ low +:+ "-" +:+ high))
            else Ok (Some (text +:+ " is outside the range " +:+ low +:+ "-" +:+ high))
        end
    end
  else Ok None.
End View.
