(* ===== verification/MenuShown.v ===== *)
(** * The list of shown nodes

    What [_shown_nodes] returns, in terms of the menu tree and the user values:
    it terminates when the walk over the tree does, and a node is in the list
    exactly if it lies in the menu without another menu in between and is visible,
    or is a symbol with such a node below it, or show-all mode is on. *)

From S2P Require Import Prelude PyStr PyText Kconst Expr Escape Incr Objects ParseState.
From S2P Require Import Printing Values Reads Session Meaning ConfigFile ConfigWrite ConfigText MenuView.
From stdpp Require Import options.

(** ** Reads of a session *)
Section Peek.
Context {K : kconfig} {fuel : nat} {HK : Loaded K fuel}.
Implicit Types σ : session.

Lemma peek_gives {A} u (f : session → outcome (A * session)) a σ :
  gives (K := K) u f a → session_ok (K := K) σ → uvals σ = u → peek f σ = Ok a.
Proof using Type. intros Hg Hσ Hu. unfold peek. by destruct (Hg σ Hσ Hu) as (σ' & -> & _). Qed.

Lemma expr_now_eq e σ : session_ok (K := K) σ →
  expr_now K fuel e σ = Ok (ev (K := K) (fuel := fuel) (uvals σ) e).
Proof using HK. intros Hσ. by eapply peek_gives; [apply gives_expr| |]. Qed.

(** [_visible], from the user values. *)
Definition visible_of (u : ustate) (n : nat) : bool :=
  match n_prompt (nod K n) with
  | None => false
  | Some (_, cond) =>
      negb (ev (K := K) (fuel := fuel) u cond =? 0)%Z
      && (negb (bool_decide (n_item (nod K n) = NMenu))
          || negb (ev (K := K) (fuel := fuel) u (n_visibility (nod K n)) =? 0)%Z)
  end.

Lemma node_visible_eq σ n : session_ok (K := K) σ → node_visible K fuel σ n = Ok (visible_of (uvals σ) n).
Proof using HK.
  intros Hσ. unfold node_visible, visible_of. destruct (n_prompt (nod K n)) as [[text cond]|]; [|done].
  rewrite expr_now_eq by done. cbn [obind]. destruct (ev (uvals σ) cond =? 0)%Z; [done|]. cbn [negb andb].
  case_bool_decide; [|done]. by rewrite expr_now_eq.
Qed.
End Peek.

(** ** The walk *)
Section Shown.
Variable K : kconfig.
Variable visible : nat → bool.
Variable show_all : bool.

Abbreviation rec := (shown_rec K (λ n, Ok (visible n)) show_all).

(** The nodes below a list that belong to the same menu. *)
Inductive inner : option nat → nat → Prop :=
  | inner_here n : inner (Some n) n
  | inner_next n m : inner (n_next (nod K n)) m → inner (Some n) m
  | inner_list n m : n_is_menuconfig (nod K n) = false → inner (n_list (nod K n)) m → inner (Some n) m.

Inductive appears : nat → Prop :=
  | appears_all n : show_all = true → appears n
  | appears_visible n : visible n = true → appears n
  | appears_child n m : is_symbol_node (n_item (nod K n)) = true →
      inner (n_list (nod K n)) m → appears m → appears n.

(** Nodes with a list are menus, choices or symbols. *)
Definition lists_of_symbols : Prop := ∀ n,
  is_Some (n_list (nod K n)) → n_is_menuconfig (nod K n) = false → is_symbol_node (n_item (nod K n)) = true.

Lemma rec_None f l : rec f None = Ok l → l = [].
Proof using Type. destruct f; [done|]. by intros [= <-]. Qed.

Lemma inner_None n : ¬ inner None n.
Proof using Type. inversion 1. Qed.

(** One step of the walk. *)
Lemma rec_step f n l : rec (S f) (Some n) = Ok l →
  ∃ sub rest, rec f (n_next (nod K n)) = Ok rest ∧
    (rec f (n_list (nod K n)) = Ok sub ∨ sub = []) ∧
    ((visible n || show_all = true ∧ l = (n :: sub) ++ rest ∧
       (n_is_menuconfig (nod K n) = true → sub = []) ∧
       (n_is_menuconfig (nod K n) = false → rec f (n_list (nod K n)) = Ok sub ∨ n_list (nod K n) = None)) ∨
     (visible n || show_all = false ∧ l = match sub with [] => [] | _ => n :: (if n_is_menuconfig (nod K n) then [] else sub) end ++ rest ∧
       (is_symbol_node (n_item (nod K n)) = true → rec f (n_list (nod K n)) = Ok sub ∨ n_list (nod K n) = None) ∧
       (sub ≠ [] → is_symbol_node (n_item (nod K n)) = true))).
Proof using Type.
  cbn [shown_rec obind]. destruct (visible n || show_all) eqn:Hv.
  - case_bool_decide as Hl; cbn [andb obind].
    + destruct (n_is_menuconfig (nod K n)) eqn:Hm; cbn [negb obind].
      * rewrite obind_Ok. intros (rest & Hr & [= <-]). exists [], rest. naive_solver.
      * rewrite obind_Ok. intros (here & Hh & Hr). rewrite obind_Ok in Hh. destruct Hh as (sub & Hs & [= <-]).
        rewrite obind_Ok in Hr. destruct Hr as (rest & Hr & [= <-]). exists sub, rest. naive_solver.
    + rewrite obind_Ok. intros (rest & Hr & [= <-]). exists [], rest.
      split_and!; [done|by right|]. left. split_and!; [done..|]. intros _. right. by destruct (n_list _); [destruct Hl|].
  - case_bool_decide as Hl; cbn [andb obind].
    + destruct (is_symbol_node (n_item (nod K n))) eqn:Hs; cbn [obind].
      * rewrite obind_Ok. intros (here & Hh & Hr). rewrite obind_Ok in Hh. destruct Hh as (sub & Hsub & [= <-]).
        rewrite obind_Ok in Hr. destruct Hr as (rest & Hr & [= <-]). exists sub, rest. naive_solver.
      * rewrite obind_Ok. intros (rest & Hr & [= <-]). exists [], rest. naive_solver.
    + rewrite obind_Ok. intros (rest & Hr & [= <-]). exists [], rest.
      split_and!; [done|by right|]. right. split_and!; [done..| |done]. intros _. right.
      by destruct (n_list _); [destruct Hl|].
Qed.

(** Only inner nodes that appear are listed. *)
Lemma rec_sound f o l n : rec f o = Ok l → n ∈ l → inner o n ∧ appears n.
Proof using Type.
  revert o l n. induction f as [|f IH]; intros o l n; [done|].
  destruct o as [m|]; [|by intros [= <-] ?%elem_of_nil].
  intros (sub & rest & Hrest & Hsub & Hcase)%rec_step Hn.
  assert (n ∈ rest → inner (Some m) n ∧ appears n) as Hin.
  { intros Hr. destruct (IH _ _ _ Hrest Hr). split; [by apply inner_next|done]. }
  assert (n ∈ sub → inner (n_list (nod K m)) n ∧ appears n) as Hlist.
  { intros Hs. destruct Hsub as [Hsub| ->]; [by eapply IH|by apply elem_of_nil in Hs]. }
  destruct Hcase as [(Hv & -> & Hm & _)|(Hv & -> & _ & Hs)].
  - rewrite elem_of_app, elem_of_cons in Hn. destruct Hn as [[->|Hn]|Hn]; [| |by apply Hin].
    + split; [apply inner_here|]. apply orb_true_iff in Hv as [?|?]; [by apply appears_visible|by apply appears_all].
    + destruct (n_is_menuconfig (nod K m)) eqn:Hmc; [rewrite Hm in Hn by done; by apply elem_of_nil in Hn|].
      destruct (Hlist Hn). split; [by apply inner_list|done].
  - apply elem_of_app in Hn as [Hn|Hn]; [|by apply Hin]. destruct sub as [|x sub]; [by apply elem_of_nil in Hn|].
    apply elem_of_cons in Hn as [->|Hn].
    + split; [apply inner_here|]. destruct Hsub as [Hsub|]; [|done].
      destruct (IH _ _ x Hsub) as [Hi Ha]; [by apply elem_of_cons; left|].
      by apply (appears_child m x); [apply Hs| |].
    + destruct (n_is_menuconfig (nod K m)) eqn:Hmc; [by apply elem_of_nil in Hn|].
      destruct (Hlist Hn). split; [by apply inner_list|done].
Qed.

(** Every inner node that appears is listed. *)
Lemma rec_complete f o l n : lists_of_symbols → rec f o = Ok l → inner o n → appears n → n ∈ l.
Proof using Type.
  intros Hls. revert o l n. induction f as [|f IH]; intros o l n; [done|].
  destruct o as [m|]; [|by intros _ ?%inner_None].
  intros (sub & rest & Hrest & Hsub & Hcase)%rec_step Hin Ha.
  (* below [m] *)
  assert (∀ x, inner (n_list (nod K m)) x → appears x → (rec f (n_list (nod K m)) = Ok sub ∨ n_list (nod K m) = None) → x ∈ sub) as Hbelow.
  { intros x Hx Hax [Hs|Hnone]; [by eapply IH|rewrite Hnone in Hx; by apply inner_None in Hx]. }
  inversion Hin as [? E|x y Hnext E|x y Hmc Hlist E]; simplify_eq.
  - destruct Hcase as [(Hv & -> & _)|(Hv & -> & Hs & _)]; [by apply elem_of_app; left; apply elem_of_cons; left|].
    apply orb_false_iff in Hv as [Hv Hsa]. inversion Ha as [? H|? H|? x Hsym Hx Hax]; [congruence..|]. subst.
    pose proof (Hbelow x Hx Hax (Hs Hsym)) as Hin'. destruct sub as [|z sub]; [by apply elem_of_nil in Hin'|].
    apply elem_of_app. left. by apply elem_of_cons; left.
  - assert (n ∈ rest) by (by eapply IH).
    destruct Hcase as [(_ & -> & _)|(_ & -> & _)]; apply elem_of_app; by right.
  - assert (is_symbol_node (n_item (nod K m)) = true) as Hsym.
    { apply Hls; [|done]. destruct (n_list (nod K m)); [done|by apply inner_None in Hlist]. }
    destruct Hcase as [(_ & -> & _ & Hs)|(_ & -> & Hs & _)].
    + apply elem_of_app. left. apply elem_of_cons. right. by apply Hbelow; [| |apply Hs].
    + pose proof (Hbelow n Hlist Ha (Hs Hsym)) as Hin'. destruct sub as [|z sub]; [by apply elem_of_nil in Hin'|].
      apply elem_of_app. left. rewrite Hmc. by apply elem_of_cons; right.
Qed.

(** The walk visits no more nodes than the one that follows every link. *)
Fixpoint walk (f : nat) (o : option nat) : outcome (list nat) :=
  match f with
  | O => NoFuel
  | S f =>
      match o with
      | None => Ok []
      | Some n =>
          let! sub := walk f (n_list (nod K n)) in
          let! rest := walk f (n_next (nod K n)) in
          Ok (n :: sub ++ rest)
      end
  end.

Lemma rec_total f o w : walk f o = Ok w → ∃ l, rec f o = Ok l.
Proof using Type.
  revert o w. induction f as [|f IH]; intros o w; [done|]. destruct o as [n|]; [|by eexists].
  cbn [walk]. rewrite obind_Ok. intros (sub & Hs & Hr). rewrite obind_Ok in Hr. destruct Hr as (rest & Hr & _).
  destruct (IH _ _ Hs) as [s Hs']. destruct (IH _ _ Hr) as [r Hr'].
  cbn [shown_rec obind]. rewrite Hs', Hr'. repeat case_match; cbn [obind]; eauto.
Qed.
End Shown.

(** ** Menus *)
Section Menus.
Variable K : kconfig.
Variable fuel : nat.
Variable visible : nat → bool.
Variable show_all : bool.

Abbreviation rec := (shown_rec K (λ n, Ok (visible n)) show_all).
Abbreviation item n := (n_item (nod K n)).
Abbreviation appears := (appears K visible show_all).

(** Adding the nodes of one location. *)
Lemma add_unseen_spec current l res seen :
  let '(res', seen') := add_unseen K current l res seen in
  (∀ n, n ∈ res → n ∈ res') ∧ (∀ n, n ∈ res' → n ∈ res ∨ n ∈ l) ∧
  (∀ i, i ∈ seen → i ∈ seen') ∧
  (∀ n, n ∈ l → n ∈ res' ∨ (is_symbol_node (item n) = true ∧ item n ∈ seen')) ∧
  (∀ i, i ∈ seen' → i ∈ seen ∨ ∃ n, n ∈ res' ∧ item n = i) ∧
  (current = true → ∀ n, n ∈ l → n ∈ res').
Proof using visible fuel.
  unfold add_unseen. revert res seen. induction l as [|x l IH]; intros res seen; cbn [foldl].
  { split_and!; try done; [by left|by intros n ?%elem_of_nil|by left|by intros _ n ?%elem_of_nil]. }
  set (add := negb (is_symbol_node (item x) && mem (item x) seen) || current).
  assert (add = false → is_symbol_node (item x) = true ∧ item x ∈ seen ∧ current = false) as Hno.
  { unfold add. rewrite orb_false_iff, negb_false_iff, andb_true_iff, mem_true. tauto. }
  set (res1 := if add then res ++ [x] else res).
  set (seen1 := if add then if is_symbol_node (item x) then item x :: seen else seen else seen).
  replace (if add then (res ++ [x], if is_symbol_node (item x) then item x :: seen else seen) else (res, seen))
    with (res1, seen1) by (unfold res1, seen1; by destruct add).
  specialize (IH res1 seen1). destruct (foldl _ _ l) as [res' seen']. destruct IH as (H1 & H2 & H3 & H4 & H5 & H6).
  assert (∀ n, n ∈ res → n ∈ res1) as Hres by (intros n Hn; unfold res1; case_match; [apply elem_of_app; by left|done]).
  assert (∀ i, i ∈ seen → i ∈ seen1) as Hseen.
  { intros i Hi. unfold seen1. case_match; [case_match|]; [by apply elem_of_cons; right|done..]. }
  assert (add = true → x ∈ res1) as Hx by (unfold res1; intros ->; apply elem_of_app; right; by apply list_elem_of_singleton).
  split_and!.
  - eauto.
  - intros n [Hn|Hn]%H2; [|right; by apply elem_of_cons; right]. unfold res1 in Hn. case_match; [|by left].
    apply elem_of_app in Hn as [?|Hn]; [by left|]. apply list_elem_of_singleton in Hn as ->. right. by apply elem_of_cons; left.
  - eauto.
  - intros n [->|Hn]%elem_of_cons; [|by apply H4]. destruct add; [left; auto|right].
    destruct (Hno eq_refl) as (? & ? & _). auto.
  - intros i [Hi|?]%H5; [|by right]. unfold seen1 in Hi. destruct add; [|by left].
    destruct (is_symbol_node (item x)); [|by left]. apply elem_of_cons in Hi as [->|]; [right; exists x; auto|by left].
  - intros -> n [->|Hn]%elem_of_cons; [|by apply H6]. apply H1, Hx. unfold add. apply orb_true_r.
Qed.

Lemma shown_choice_spec menu locations res seen l :
  shown_choice K (λ n, Ok (visible n)) show_all fuel menu locations res seen = Ok l →
  (∀ n, n ∈ res → n ∈ l) ∧
  (∀ n, n ∈ l → n ∈ res ∨ ∃ m, m ∈ locations ∧ inner K (n_list (nod K m)) n ∧ appears n) ∧
  (lists_of_symbols K → ∀ m n, m ∈ locations → inner K (n_list (nod K m)) n → appears n →
     n ∈ l ∨ (is_symbol_node (item n) = true ∧ (item n ∈ seen ∨ ∃ n', n' ∈ l ∧ item n' = item n))) ∧
  (lists_of_symbols K → menu ∈ locations → ∀ n, inner K (n_list (nod K menu)) n → appears n → n ∈ l).
Proof using Type.
  revert res seen. induction locations as [|m ms IH]; intros res seen; cbn [shown_choice].
  { intros [= <-]. split_and!; [done|by left|by intros _ m n ?%elem_of_nil|by intros _ ?%elem_of_nil]. }
  rewrite obind_Ok. intros (here & Hh & Hl). pose proof (add_unseen_spec (bool_decide (m = menu)) here res seen) as Ha.
  destruct (add_unseen _ _ here res seen) as [res1 seen1]. destruct Ha as (A1 & A2 & A3 & A4 & A5 & A6).
  destruct (IH _ _ Hl) as (I1 & I2 & I3 & I4). split_and!.
  - eauto.
  - intros n [[?|Hn]%A2|(m' & ? & ? & ?)]%I2; [by left| |].
    + right. exists m. destruct (rec_sound K visible show_all _ _ _ _ Hh Hn). split_and!; [by apply elem_of_cons; left|done..].
    + right. exists m'. split_and!; [by apply elem_of_cons; right|done..].
  - intros Hls m' n [->|Hm]%elem_of_cons Hi Hap.
    + destruct (A4 n) as [Hn|[Hs Hn]]; [by eapply rec_complete|left; auto|]. right. split; [done|].
      destruct (A5 _ Hn) as [?|(n' & ? & ?)]; [by left|right; eauto].
    + destruct (I3 Hls m' n Hm Hi Hap) as [?|[Hs [Hn|?]]]; [by left| |right; auto]. right. split; [done|].
      destruct (A5 _ Hn) as [?|(n' & ? & ?)]; [by left|right; eauto].
  - intros Hls [->|Hm]%elem_of_cons n Hi Hap; [|by apply (I4 Hls Hm)].
    apply I1, A6; [by apply bool_decide_eq_true|]. by eapply rec_complete.
Qed.

(** Where a menu's nodes come from: the menu's own list, or the lists of all the
    locations of a choice. *)
Definition sources (menu : nat) : list nat :=
  match item menu with NCho c => c_nodes (cho K c) | _ => [menu] end.

Lemma shown_in_sound menu l n : shown_in K fuel (λ n, Ok (visible n)) show_all menu = Ok l → n ∈ l →
  ∃ m, m ∈ sources menu ∧ inner K (n_list (nod K m)) n ∧ appears n.
Proof using Type.
  unfold shown_in, sources. intros Hl Hn.
  destruct (item menu) as [s|c| | |];
    [exists menu; rewrite list_elem_of_singleton; split; [done|by eapply rec_sound]| |
     exists menu; rewrite list_elem_of_singleton; split; [done|by eapply rec_sound]..].
  apply obind_Ok in Hl as (here & Hh & Hl). apply shown_choice_spec in Hl as (_ & H2 & _).
  destruct (H2 n Hn) as [[]%elem_of_nil|?]. done.
Qed.

(** At its own location a menu shows everything that appears. *)
Lemma shown_in_own menu l n : lists_of_symbols K → menu ∈ sources menu →
  shown_in K fuel (λ n, Ok (visible n)) show_all menu = Ok l →
  inner K (n_list (nod K menu)) n → appears n → n ∈ l.
Proof using Type.
  unfold shown_in, sources. intros Hls Hm Hl Hi Ha. destruct (item menu) as [s|c| | |]; try by eapply rec_complete.
  apply obind_Ok in Hl as (here & Hh & Hl). apply shown_choice_spec in Hl as (_ & _ & _ & H4). by apply H4.
Qed.

(** No symbol that appears at some location is left out. *)
Lemma shown_in_represented menu l m n : lists_of_symbols K → menu ∈ sources menu →
  shown_in K fuel (λ n, Ok (visible n)) show_all menu = Ok l →
  m ∈ sources menu → inner K (n_list (nod K m)) n → appears n →
  n ∈ l ∨ (is_symbol_node (item n) = true ∧ ∃ n', n' ∈ l ∧ item n' = item n).
Proof using Type.
  intros Hls Hm Hl Hin Hi Ha. pose proof (shown_in_own menu l) as Hown. unfold shown_in, sources in *.
  destruct (item menu) as [s|c| | |] eqn:Hit;
    try (apply list_elem_of_singleton in Hin as ->; left; by eapply rec_complete).
  pose proof Hl as Hl'. apply obind_Ok in Hl' as (here & Hh & Hl'). apply shown_choice_spec in Hl' as (_ & _ & H3 & _).
  destruct (H3 Hls m n Hin Hi Ha) as [?|[Hs [Hn|?]]]; [by left| |by right]. right. split; [done|].
  apply list_elem_of_filter in Hn as [_ Hn]. apply list_elem_of_fmap in Hn as (n' & Hn' & Hin').
  exists n'. split; [|done]. destruct (rec_sound K visible show_all _ _ _ _ Hh Hin'). by apply Hown.
Qed.

(** The list of a menu is found when the walks over its sources end. *)
Lemma shown_in_total menu : (∀ m, m ∈ menu :: sources menu → ∃ w, walk K fuel (n_list (nod K m)) = Ok w) →
  ∃ l, shown_in K fuel (λ n, Ok (visible n)) show_all menu = Ok l.
Proof using Type.
  unfold shown_in, sources. intros Hw.
  destruct (Hw menu) as [w0 Hw0]; [by apply elem_of_cons; left|].
  destruct (rec_total K visible show_all _ _ _ Hw0) as [here Hh]. rewrite Hh.
  destruct (item menu) as [s|c| | |]; try by eexists. cbn [obind].
  assert (∀ ms res seen, (∀ m, m ∈ ms → ∃ w, walk K fuel (n_list (nod K m)) = Ok w) →
    ∃ l, shown_choice K (λ n, Ok (visible n)) show_all fuel menu ms res seen = Ok l) as Hc.
  { induction ms as [|m ms IH]; intros res seen Hms; cbn [shown_choice]; [by eexists|].
    destruct (Hms m) as [w Hm]; [by apply elem_of_cons; left|]. destruct (rec_total K visible show_all _ _ _ Hm) as [r ->].
    cbn [obind]. destruct (add_unseen _ _ _ _ _). apply IH. intros x Hx. apply Hms. by apply elem_of_cons; right. }
  apply Hc. intros m Hm. apply Hw. by apply elem_of_cons; right.
Qed.
End Menus.
