(* ===== verification/MenuNav.v ===== *)
(** * Moving around in the menus: menuconfig

    The state of the main display (the current menu, the shown nodes, the cursor,
    the scroll, the rows remembered for the parent menus) and the operations that
    move in it.  The window is its height; the session is an argument. *)

From S2P Require Import Prelude PyStr PyText Kconst Expr Escape Incr Objects ParseState.
From S2P Require Import Printing Values Reads Session Meaning ConfigFile ConfigWrite ConfigText.
From S2P Require Import EditText MenuView MenuShown.
From stdpp Require Import options.

Definition PG_JUMP : nat := 6.

(** [_cur_menu], [_shown], [_sel_node_i], [_menu_scroll], [_parent_screen_rows]
    (the last row first), [_show_all] and the height of [_menu_win]. *)
Record view : Type := View {
  cur_menu : nat;
  shown : list nat;
  sel_node_i : Z;
  menu_scroll : Z;
  parent_screen_rows : list Z;
  show_all : bool;
  menu_height : Z
}.

Definition set_position (sel scroll : Z) (v : view) : view :=
  View (cur_menu v) (shown v) sel scroll (parent_screen_rows v) (show_all v) (menu_height v).
Definition set_menu (menu : nat) (nodes : list nat) (v : view) : view :=
  View menu nodes (sel_node_i v) (menu_scroll v) (parent_screen_rows v) (show_all v) (menu_height v).
Definition set_rows (rows : list Z) (v : view) : view :=
  View (cur_menu v) (shown v) (sel_node_i v) (menu_scroll v) rows (show_all v) (menu_height v).
Definition set_show_all (b : bool) (v : view) : view :=
  View (cur_menu v) (shown v) (sel_node_i v) (menu_scroll v) (parent_screen_rows v) b (menu_height v).
Definition set_height (h : Z) (v : view) : view :=
  View (cur_menu v) (shown v) (sel_node_i v) (menu_scroll v) (parent_screen_rows v) (show_all v) h.

(** [_max_scroll(lst, win)] *)
Definition max_scroll {A} (l : list A) (height : Z) : Z := Z.max 0 (Z.of_nat (length l) - height).

(** [_shown[_sel_node_i]]; a negative index does not occur. *)
Definition sel_node (v : view) : outcome nat := of_option IndexError (shown v !! Z.to_nat (sel_node_i v)).

(** ** Within a menu *)

(** [_center_vertically] *)
Definition center_vertically (v : view) : view :=
  set_position (sel_node_i v)
    (Z.min (Z.max (sel_node_i v - menu_height v / 2) 0) (max_scroll (shown v) (menu_height v))) v.

(** [_select_next_menu_entry] *)
Definition select_next_menu_entry (v : view) : view :=
  if (sel_node_i v <? Z.of_nat (length (shown v)) - 1)%Z then
    let sel := (sel_node_i v + 1)%Z in
    let scroll :=
      if (menu_scroll v + menu_height v - SCROLL_OFFSET <=? sel)%Z
         && (menu_scroll v <? max_scroll (shown v) (menu_height v))%Z
      then (menu_scroll v + 1)%Z else menu_scroll v in
    set_position sel scroll v
  else v.

(** [_select_prev_menu_entry] *)
Definition select_prev_menu_entry (v : view) : view :=
  if (0 <? sel_node_i v)%Z then
    let sel := (sel_node_i v - 1)%Z in
    let scroll :=
      if (sel <? menu_scroll v + SCROLL_OFFSET)%Z then Z.max (menu_scroll v - 1) 0 else menu_scroll v in
    set_position sel scroll v
  else v.

(** [_select_last_menu_entry], [_select_first_menu_entry] *)
Definition select_last_menu_entry (v : view) : view :=
  set_position (Z.of_nat (length (shown v)) - 1) (max_scroll (shown v) (menu_height v)) v.
Definition select_first_menu_entry (v : view) : view := set_position 0 0 v.

(** The end of [_resize_main], with the new height of the menu window. *)
Definition resize_menu (height : Z) (v : view) : view :=
  let v := set_height height v in
  if (height <=? sel_node_i v - menu_scroll v)%Z
  then set_position (sel_node_i v) (sel_node_i v - height + 1) v else v.

Section Nav.
Variable K : kconfig.
Variable fuel : nat.

(** ** Between menus *)

(** The first node of [l] that is in the other list. *)
Definition first_in (l nodes : list nat) : option nat := first_such (λ n, mem n nodes) l.

(** [_select_selected_choice_sym] *)
Definition select_selected_choice_sym (σ : session) (v : view) : outcome view :=
  match n_item (nod K (cur_menu v)) with
  | NCho c =>
      let! chosen := selection_now K fuel c σ in
      match chosen with
      | Some s =>
          match first_in (s_nodes (sym K s)) (shown v) with
          | Some n =>
              let! i := index_of n (shown v) in
              Ok (center_vertically (set_position i (menu_scroll v) v))
          | None => Ok v
          end
      | None => Ok v
      end
  | _ => Raise AttributeError
  end.

Definition is_choice_menu (n : nat) : bool :=
  match n_item (nod K n) with NCho _ => true | _ => false end.

(** [_enter_menu] *)
Definition enter_menu (menu : nat) (σ : session) (v : view) : outcome (bool * view) :=
  if n_is_menuconfig (nod K menu) then
    let! sub := shown_nodes K fuel (show_all v) menu σ in
    match sub with
    | [] => Ok (false, v)
    | _ =>
        let rows := (sel_node_i v - menu_scroll v)%Z :: parent_screen_rows v in
        let v := set_position 0 0 (set_menu menu sub (set_rows rows v)) in
        let! v := (if is_choice_menu menu then select_selected_choice_sym σ v else Ok v) in
        Ok (true, v)
    end
  else Ok (false, v).

(** [_leave_menu] *)
Definition leave_menu (σ : session) (v : view) : outcome view :=
  if decide (cur_menu v = k_top_node K) then Ok v
  else
    let! parent := parent_menu K fuel (cur_menu v) in
    let! nodes := shown_nodes K fuel (show_all v) parent σ in
    let! i := index_of (cur_menu v) nodes in
    let v := set_position i (menu_scroll v) (set_menu parent nodes v) in
    match parent_screen_rows v with
    | row :: rows =>
        let screen_row := Z.min row (menu_height v - 1) in
        Ok (set_rows rows (set_position i (Z.max (i - screen_row) 0) v))
    | [] => Ok (center_vertically v)
    end.

(** [_toggle_show_all] *)
Definition toggle_show_all (σ : session) (v : view) : outcome view :=
  let old_row := (sel_node_i v - menu_scroll v)%Z in
  let v := set_show_all (negb (show_all v)) v in
  let! new_shown := shown_nodes K fuel (show_all v) (cur_menu v) σ in
  let sel := Z.to_nat (sel_node_i v) in
  let select (n : nat) : outcome view :=
    let! i := index_of n new_shown in
    Ok (set_position i (Z.max (i - old_row) 0) (set_menu (cur_menu v) new_shown v)) in
  match first_in (reverse (take (S sel) (shown v))) new_shown with
  | Some n => select n
  | None =>
      match first_in (drop (S sel) (shown v)) new_shown with
      | Some n => select n
      | None => Ok (set_show_all true v)
      end
  end.

(** [_update_menu] *)
Definition update_menu (σ : session) (v : view) : outcome view :=
  let old_row := (sel_node_i v - menu_scroll v)%Z in
  let! n := sel_node v in
  let! nodes := shown_nodes K fuel (show_all v) (cur_menu v) σ in
  let! i := index_of n nodes in
  Ok (set_position i (Z.max (i - old_row) 0) (set_menu (cur_menu v) nodes v)).

(** [_jump_to] *)
Definition jump_to (node : nat) (σ : session) (v : view) : outcome view :=
  let old_show_all := show_all v in
  let N := nod K node in
  let target := match n_item N with NCho _ | NMenu => n_list N | _ => None end in
  let! menu := match target with Some _ => Ok node | None => parent_menu K fuel node end in
  let node := default node target in
  let! nodes := shown_nodes K fuel (show_all v) menu σ in
  let! (all, nodes) :=
    (if mem node nodes then Ok (show_all v, nodes)
     else let! nodes := shown_nodes K fuel true menu σ in Ok (true, nodes)) in
  let! i := index_of node nodes in
  let v := set_position i (menu_scroll v) (set_menu menu nodes (set_show_all all (set_rows [] v))) in
  let! v := (if bool_decide (is_Some target) && negb old_show_all && all then toggle_show_all σ v else Ok v) in
  let v := center_vertically v in
  if bool_decide (is_Some target) && is_choice_menu (cur_menu v) then select_selected_choice_sym σ v else Ok v.
End Nav.

(** ** The cursor is on the screen *)

Record position_ok (v : view) : Prop := {
  po_height : (1 ≤ menu_height v)%Z;
  po_sel : (0 ≤ sel_node_i v < Z.of_nat (length (shown v)))%Z;
  po_scroll : (0 ≤ menu_scroll v ≤ sel_node_i v)%Z;
  po_row : (sel_node_i v < menu_scroll v + menu_height v)%Z;
  po_rows : Forall (λ r, (0 ≤ r)%Z) (parent_screen_rows v)
}.

Ltac position :=
  repeat (case_match || case_bool_decide); unfold max_scroll, SCROLL_OFFSET in *;
  rewrite ?andb_true_iff, ?andb_false_iff, ?Z.ltb_lt, ?Z.ltb_ge, ?Z.leb_le, ?Z.leb_gt in *;
  cbn [cur_menu shown sel_node_i menu_scroll parent_screen_rows show_all menu_height set_position set_menu
       set_rows set_show_all set_height] in *;
  try done; try lia.

Lemma center_ok v : (1 ≤ menu_height v)%Z → (0 ≤ sel_node_i v < Z.of_nat (length (shown v)))%Z →
  Forall (λ r, (0 ≤ r)%Z) (parent_screen_rows v) → position_ok (center_vertically v).
Proof.
  intros Hh Hs Hr. pose proof (Z.div_lt (menu_height v) 2 ltac:(lia) ltac:(lia)).
  pose proof (Z.div_pos (menu_height v) 2 ltac:(lia) ltac:(lia)).
  unfold center_vertically. split; position.
Qed.

Lemma select_next_ok v : position_ok v → position_ok (select_next_menu_entry v).
Proof. intros [Hh Hs Hc Hr Hp]. unfold select_next_menu_entry. split; position. Qed.

Lemma select_prev_ok v : position_ok v → position_ok (select_prev_menu_entry v).
Proof. intros [Hh Hs Hc Hr Hp]. unfold select_prev_menu_entry. split; position. Qed.

Lemma select_last_ok v : position_ok v → position_ok (select_last_menu_entry v).
Proof. intros [Hh Hs Hc Hr Hp]. unfold select_last_menu_entry. split; position. Qed.

Lemma select_first_ok v : position_ok v → position_ok (select_first_menu_entry v).
Proof. intros [Hh Hs Hc Hr Hp]. unfold select_first_menu_entry. split; position. Qed.

Lemma resize_ok h v : (1 ≤ h)%Z → position_ok v → position_ok (resize_menu h v).
Proof. intros H1 [Hh Hs Hc Hr Hp]. unfold resize_menu. split; position. Qed.

Lemma iter_ok (f : view → view) n v : (∀ v, position_ok v → position_ok (f v)) → position_ok v →
  position_ok (Nat.iter n f v).
Proof. intros Hf Hv. induction n as [|n IH]; cbn; auto. Qed.

Lemma keep_row_ok v i row : (1 ≤ menu_height v)%Z → (0 ≤ i < Z.of_nat (length (shown v)))%Z →
  (0 ≤ row < menu_height v)%Z → Forall (λ r, (0 ≤ r)%Z) (parent_screen_rows v) →
  position_ok (set_position i (Z.max (i - row) 0) v).
Proof. intros H1 H2 H3 H4. split; position. Qed.

Lemma index_of_spec n l i : index_of n l = Ok i ↔ (0 ≤ i)%Z ∧ l !! Z.to_nat i = Some n ∧
  ∀ j, (j < Z.to_nat i)%nat → l !! j ≠ Some n.
Proof.
  unfold index_of. destruct (list_find _ l) as [[k m]|] eqn:Hf.
  - apply list_find_Some in Hf as (Hk & -> & Hbefore). split.
    + intros [= <-]. rewrite Nat2Z.id. split_and!; [lia|done|]. intros j Hj Hn. by eapply (Hbefore j n).
    + intros (Hi & Hl & Hb). f_equal. destruct (decide (k < Z.to_nat i)%nat) as [Hlt|]; [by destruct (Hb k Hlt)|].
      destruct (decide (Z.to_nat i < k)%nat) as [Hlt|]; [by destruct (Hbefore _ _ Hl Hlt)|]. lia.
  - apply list_find_None in Hf. split; [done|]. intros (_ & Hl & _). rewrite Forall_forall in Hf.
    exfalso. eapply Hf; [by eapply list_elem_of_lookup_2|done].
Qed.

Lemma index_of_bounds n l i : index_of n l = Ok i → (0 ≤ i < Z.of_nat (length l))%Z.
Proof. intros (Hi & Hl & _)%index_of_spec. apply lookup_lt_Some in Hl. lia. Qed.

Lemma index_of_total n l : n ∈ l ↔ ∃ i, index_of n l = Ok i.
Proof.
  split.
  - intros Hn. unfold index_of. destruct (list_find _ l) as [[k m]|] eqn:Hf; [by eexists|].
    apply list_find_None in Hf. rewrite Forall_forall in Hf. by destruct (Hf n Hn).
  - intros [i Hi]. apply index_of_spec in Hi as (_ & Hl & _). by eapply list_elem_of_lookup_2.
Qed.
