(* ===== verification/MenuInfo.v ===== *)
(** * The information screen: menuconfig

    [_info_str] and its helpers: the text about a symbol, choice, menu or comment,
    with the values of a session next to the names. *)

From S2P Require Import Prelude PyStr PyText Kconst Expr Escape Incr Objects ParseState.
From S2P Require Import Printing Values Reads Session ConfigFile ConfigWrite Repr MenuView.
From stdpp Require Import options.

(** Texts of a list, one after the other. *)
Fixpoint concat_out {A} (f : A → outcome string) (l : list A) : outcome string :=
  match l with
  | [] => Ok ""
  | x :: l => let! a := f x in let! b := concat_out f l in Ok (a +:+ b)
  end.

(** [_indent] *)
Definition indent_lines (s : string) (n : nat) : string :=
  sjoin nl ((λ line, spaces n +:+ line) <$> split_on nl_c s).

Section Info.
Variable K : kconfig.
Variable fuel : nat.
Variable σ : session.

(** [_name_and_val_str] *)
Definition name_and_val_str (i : item) : string :=
  match i with
  | ISym s =>
      let S := sym K s in
      if negb (s_is_constant S) && negb (is_num (s_name S)) then
        match s_nodes S with
        | [] => s_name S +:+ "(undefined/n)"
        | _ => s_name S +:+ "(=" +:+ match str_now K fuel s σ with Ok v => v | _ => "" end +:+ ")"
        end
      else standard_sc_expr_str K i
  | ICho _ => standard_sc_expr_str K i
  end.

(** [_expr_str] *)
Definition info_expr_str (e : expr) : string := expr_str name_and_val_str e.

(** A condition that is a tuple, not a symbol or choice. *)
Definition is_tuple (e : expr) : bool := match e with EItem _ => false | _ => true end.

Definition tri_text (e : expr) : outcome string := let! v := expr_now K fuel e σ in Ok (tri_str v).

(** [_name_info] *)
Definition name_info (i : item) : string :=
  let name := match i with ISym s => s_name (sym K s) | ICho c => default "" (c_name (cho K c)) end in
  if bool_decide (name = "") then "" else "Name: " +:+ name +:+ nl.

(** [_prompt_info] *)
Definition prompt_info (i : item) : string :=
  sconcat ((λ text, "Prompt: " +:+ text +:+ nl) <$> omap (prompt_text K) (nodes K i)).

(** [_value_info] *)
Definition value_info (s : nat) : outcome string :=
  let! v := str_now K fuel s σ in
  Ok ("Value: " +:+ (if decide (s_orig_type (sym K s) = STRING) then dquote +:+ v +:+ dquote else v) +:+ nl).

(** [_choice_syms_info] *)
Definition choice_syms_info (c : nat) : outcome string :=
  let! lines := concat_out (λ s,
    let! chosen := selection_now K fuel c σ in
    Ok ("  - " +:+ s_name (sym K s) +:+ (if bool_decide (chosen = Some s) then " (selected)" else "") +:+ nl))
    (c_syms (cho K c)) in
  Ok ("Choice symbols:" +:+ nl +:+ lines +:+ nl).

(** [_help_info] *)
Definition help_info (i : item) : string :=
  nl +:+ sconcat ((λ text, "Help:" +:+ nl +:+ nl +:+ indent_lines text 2 +:+ nl +:+ nl)
                   <$> omap (λ n, n_help (nod K n)) (nodes K i)).

(** [_split_expr_info] *)
Definition split_expr_info (e : expr) (indent : nat) : outcome string :=
  let '(op, op_str) := if bool_decide (1 < length (split_expr e OpAnd)) then (OpAnd, "&&") else (OpOr, "||") in
  concat_out (λ '(i, term),
    let! hint := (if is_tuple term then let! v := tri_text term in Ok ("  (=" +:+ v +:+ ")") else Ok "") in
    Ok (spaces indent +:+ (if Nat.eqb i 0 then "  " else op_str) +:+ " " +:+ info_expr_str term +:+ hint +:+ nl))
    (imap pair (split_expr e op)).

(** [_direct_dep_info] *)
Definition direct_dep_info (i : item) : outcome string :=
  let dep := direct_dep K i in
  if is_y K dep then Ok ""
  else
    let! v := tri_text dep in
    let! s := split_expr_info dep 2 in
    Ok ("Direct dependencies (=" +:+ v +:+ "):" +:+ nl +:+ s +:+ nl).

Definition item_defaults (i : item) : list (expr * expr) :=
  match i with ISym s => s_defaults (sym K s) | ICho c => c_defaults (cho K c) end.

Definition item_name (e : expr) : outcome string :=
  match e with
  | EItem (ISym s) => Ok (s_name (sym K s))
  | EItem (ICho c) => Ok (default "None" (c_name (cho K c)))
  | _ => Raise AttributeError
  end.

(** One default of [_defaults_info]. *)
Definition default_info (i : item) (d : expr * expr) : outcome string :=
  let '(val, cond) := d in
  let! shown :=
    match i with
    | ISym _ =>
        if is_tuple val then let! v := tri_text val in Ok (info_expr_str val +:+ "  (=" +:+ v +:+ ")")
        else Ok (info_expr_str val)
    | ICho _ => item_name val
    end in
  let! condition :=
    (if is_y K cond then Ok ""
     else
       let! v := tri_text cond in
       let! s := split_expr_info cond 4 in
       Ok ("    Condition (=" +:+ v +:+ "):" +:+ nl +:+ s)) in
  Ok ("  - " +:+ shown +:+ nl +:+ condition).

(** [_defaults_info] *)
Definition defaults_info (i : item) : outcome string :=
  match item_defaults i with
  | [] => Ok ""
  | l =>
      let! s := concat_out (default_info i) (item_orig_defaults K i) in
      Ok ("Default" +:+ (if bool_decide (1 < length l) then "s" else "") +:+ ":" +:+ nl +:+ s +:+ nl)
  end.

(** [sis] of [_select_imply_info] *)
Definition selecting_info (e : expr) (val : Z) (title : string) : outcome string :=
  let! s := concat_out (λ si,
    let! v := expr_now K fuel si σ in
    if (v =? val)%Z then
      let! name := item_name (default si (head (split_expr si OpAnd))) in
      Ok ("  - " +:+ name +:+ nl)
    else Ok "") (split_expr e OpOr) in
  Ok (if bool_decide (s = "") then "" else title +:+ s +:+ nl).

(** [_select_imply_info] *)
Definition select_imply_info (s : nat) : outcome string :=
  let S := sym K s in
  let group (e : expr) (verb : string) : outcome string :=
    if is_sym (k_sym_n K) e then Ok ""
    else
      let! a := selecting_info e 2 ("Symbols currently y-" +:+ verb +:+ " this symbol:" +:+ nl) in
      let! b := selecting_info e 1 ("Symbols currently m-" +:+ verb +:+ " this symbol:" +:+ nl) in
      let! c := selecting_info e 0 ("Symbols currently n-" +:+ verb +:+ " this symbol (no effect):" +:+ nl) in
      Ok (a +:+ b +:+ c) in
  let! a := group (s_rev_dep S) "selecting" in
  let! b := group (s_weak_rev_dep S) "implying" in
  Ok (a +:+ b).

(** [_include_path_info] *)
Definition include_path_info (n : nat) : string :=
  match n_include_path (nod K n) with
  | [] => ""
  | l => "Included via " +:+ sjoin " -> " ((λ '(f, line), f +:+ ":" +:+ py_str line) <$> l) +:+ nl
  end.

(** A menu in the path: its prompt, or how its choice or symbol is shown. *)
Definition path_text (n : nat) : string :=
  match prompt_text K n with
  | Some text => text
  | None => match item_of_node (n_item (nod K n)) with Some i => standard_sc_expr_str K i | None => "" end
  end.

(** [_menu_path_info] *)
Fixpoint menu_path_from (f n : nat) (path : string) : outcome string :=
  match f with
  | O => NoFuel
  | S f =>
      match n_parent (nod K n) with
      | None => Raise AttributeError
      | Some p =>
          if decide (p = k_top_node K) then Ok path
          else menu_path_from f p (" -> " +:+ path_text p +:+ path)
      end
  end.
Definition menu_path_info (n : nat) : outcome string :=
  let! path := menu_path_from fuel n "" in Ok ("(Top)" +:+ path).

(** [_kconfig_def_info] *)
Definition node_def_info (n : nat) : outcome string :=
  let N := nod K n in
  let! path := menu_path_info n in
  Ok (nl +:+ nl +:+ "At " +:+ n_filename N +:+ ":" +:+ py_str (n_linenr N) +:+ nl
      +:+ include_path_info n +:+ "Menu path: " +:+ path +:+ nl +:+ nl
      +:+ indent_lines (node_custom_str K name_and_val_str N) 2).

Fixpoint repeat_str (n : nat) (s : string) : string :=
  match n with O => "" | S n => s +:+ repeat_str n s end.

Definition kconfig_def_info (ns : list nat) : outcome string :=
  let title := "Kconfig definition" +:+ (if bool_decide (1 < length ns) then "s" else "")
                 +:+ ", with parent deps. propagated to 'depends on'" +:+ nl in
  let! s := concat_out node_def_info ns in
  Ok (title +:+ repeat_str (slen title - 1) "=" +:+ s).

(** [_info_str] *)
Definition info_str (n : nat) : outcome string :=
  match n_item (nod K n) with
  | NSym s =>
      let i := ISym s in
      let! t := type_now K fuel i σ in
      let! value := value_info s in
      let! dep := direct_dep_info i in
      let! defaults := defaults_info i in
      let! selects := select_imply_info s in
      let! def := kconfig_def_info (nodes K i) in
      Ok (name_info i +:+ prompt_info i +:+ "Type: " +:+ TYPE_TO_STR t +:+ nl +:+ value
          +:+ help_info i +:+ dep +:+ defaults +:+ selects +:+ def)
  | NCho c =>
      let i := ICho c in
      let! t := type_now K fuel i σ in
      let! mode := item_str_now K fuel i σ in
      let! syms := choice_syms_info c in
      let! dep := direct_dep_info i in
      let! defaults := defaults_info i in
      let! def := kconfig_def_info (nodes K i) in
      Ok (name_info i +:+ prompt_info i +:+ "Type: " +:+ TYPE_TO_STR t +:+ nl +:+ "Mode: " +:+ mode +:+ nl
          +:+ help_info i +:+ syms +:+ dep +:+ defaults +:+ def)
  | _ => kconfig_def_info [n]
  end.
End Info.
