(* ===== verification/MenuKeys.v ===== *)
(** * The terminal interface: menuconfig

    The program around the menus: changing values, the dialogs (input, keys, load,
    save, search, information) and the main loop, driven by a list of input events.
    A run is a function of the events: [getch] takes the next one, and a computation
    that waits for more input is [NoFuel].

    [_try_load] and [_try_save] show a dialog when a file cannot be opened or
    written, and the program goes on. *)

From S2P Require Import Prelude PyStr PyText Kconst Expr Escape Incr Objects ParseState.
From S2P Require Import Printing Values Reads Session ConfigFile ConfigWrite.
From S2P Require Import EditText MenuView MenuNav MenuInfo.
From stdpp Require Import options.

(** A key, or a change of the terminal's height and width. *)
Inductive event : Type := Key (k : key) | Resized (height width : Z).

Record ui : Type := Ui {
  u_view : view;
  u_host : host;
  u_show_help : bool;
  u_show_name : bool;
  u_conf_changed : bool;
  u_conf_filename : string;
  u_minconf_filename : string;
  u_screen : Z * Z;
  u_events : list event
}.

Definition set_u_view (x : view) (u : ui) : ui :=
  Ui x (u_host u) (u_show_help u) (u_show_name u) (u_conf_changed u) (u_conf_filename u)
    (u_minconf_filename u) (u_screen u) (u_events u).
Definition set_u_host (x : host) (u : ui) : ui :=
  Ui (u_view u) x (u_show_help u) (u_show_name u) (u_conf_changed u) (u_conf_filename u)
    (u_minconf_filename u) (u_screen u) (u_events u).
Definition set_u_modes (help name : bool) (u : ui) : ui :=
  Ui (u_view u) (u_host u) help name (u_conf_changed u) (u_conf_filename u)
    (u_minconf_filename u) (u_screen u) (u_events u).
Definition set_u_conf_changed (x : bool) (u : ui) : ui :=
  Ui (u_view u) (u_host u) (u_show_help u) (u_show_name u) x (u_conf_filename u)
    (u_minconf_filename u) (u_screen u) (u_events u).
Definition set_u_filenames (conf minconf : string) (u : ui) : ui :=
  Ui (u_view u) (u_host u) (u_show_help u) (u_show_name u) (u_conf_changed u) conf minconf
    (u_screen u) (u_events u).
Definition set_u_input (screen : Z * Z) (events : list event) (u : ui) : ui :=
  Ui (u_view u) (u_host u) (u_show_help u) (u_show_name u) (u_conf_changed u) (u_conf_filename u)
    (u_minconf_filename u) screen events.

Definition U (A : Type) : Type := ui → outcome (A * ui).

#[global] Instance U_ret : MRet U := λ A a u, Ok (a, u).
#[global] Instance U_bind : MBind U := λ A B f m u, let! (a, u) := m u in f a u.

Definition uget {A} (f : ui → A) : U A := λ u, Ok (f u, u).
Definition umodify (f : ui → ui) : U () := λ u, Ok ((), f u).
Definition ulift {A} (o : outcome A) : U A := λ u, let! a := o in Ok (a, u).
Definition uwait {A} : U A := λ _, NoFuel.

(** Computations of the menus, which read the session. *)
Definition on_view {A} (f : session → view → outcome (A * view)) : U A := λ u,
  let! (a, v) := f (h_session (u_host u)) (u_view u) in Ok (a, set_u_view v u).
Definition on_view_ (f : session → view → outcome view) : U () :=
  on_view (λ σ v, let! v := f σ v in Ok ((), v)).
Definition move (f : view → view) : U () := umodify (λ u, set_u_view (f (u_view u)) u).
Definition reading {A} (f : session → outcome A) : U A := λ u,
  let! a := f (h_session (u_host u)) in Ok (a, u).
Definition on_host {A} (f : host → outcome (A * host)) : U A := λ u,
  let! (a, h) := f (u_host u) in Ok (a, set_u_host h u).

(** [_getch_compat] *)
Definition getch : U key := λ u,
  match u_events u with
  | [] => NoFuel
  | Key k :: events => Ok (k, set_u_input (u_screen u) events u)
  | Resized height width :: events => Ok (KEY_RESIZE, set_u_input (height, width) events u)
  end.

Definition n_events (u : ui) : nat := S (length (u_events u)).

Section Keys.
Variable w : world.
Variable K : kconfig.
Variable fuel : nat.
(** [_ERASE_CHAR], [os.path.expanduser], [os.getcwd] and [re.compile(r).search],
    which is [None] on an error in the expression. *)
Variable erase_char : option ascii.
Variable expanduser : string → string.
Variable getcwd : string.
Variable re_search : string → option (string → bool).

Definition is_char (k : key) (n : N) : bool := bool_decide (k = ctrl n).
(** A letter in either case. *)
Definition is_letter (k : key) (c : ascii) : bool :=
  match k with KChar d => c_eqb (to_lower d) c | _ => false end.
Definition esc : key := ctrl 27.
Definition enter : key := ctrl 10.

(** [_resize_main] *)
Definition menu_win_height (screen_height : Z) (show_help : bool) : Z :=
  Z.max 1 (screen_height - (if show_help then 8 else 4) - 3).

Definition resize_main : U () := umodify (λ u,
  set_u_view (resize_menu (menu_win_height (fst (u_screen u)) (u_show_help u)) (u_view u)) u).

(** ** Dialogs *)

(** The width of an input dialog. *)
Definition input_dialog_width (title : string) (info : list string) (screen_width : Z) : Z :=
  Z.min (foldl (λ m l, Z.max m (zlen l + 4)) (Z.max 30 (zlen title + 4)) info) screen_width.

Fixpoint input_loop (f : nat) (title : string) (info : list string) (s : string) (i hscroll : Z)
    : U (option string) :=
  match f with
  | O => uwait
  | S f =>
      c ← getch;
      if bool_decide (c = KEY_RESIZE) then resize_main;; input_loop f title info s i hscroll
      else if bool_decide (c = enter) then mret (Some s)
      else if bool_decide (c = esc) then mret None
      else if is_char c 0 then input_loop f title info s i hscroll
      else
        screen ← uget u_screen;
        let '(s, i, hscroll) :=
          edit_text erase_char c s i hscroll (input_dialog_width title info (snd screen) - 4) in
        input_loop f title info s i hscroll
  end.

(** [_input_dialog] *)
Definition input_dialog (title initial_text : string) (info_text : option string) : U (option string) :=
  let info := match info_text with
              | Some t => if bool_decide (t = "") then [] else split_on nl_c t
              | None => []
              end in
  screen ← uget u_screen;
  let width := (input_dialog_width title info (snd screen) - 4)%Z in
  f ← uget n_events;
  input_loop f title info initial_text (zlen initial_text) (Z.max (zlen initial_text - width + 1) 0).

Fixpoint key_loop (f : nat) (keys : list ascii) : U (option ascii) :=
  match f with
  | O => uwait
  | S f =>
      c ← getch;
      if bool_decide (c = KEY_RESIZE) then resize_main;; key_loop f keys
      else if bool_decide (c = esc) then mret None
      else match c with
           | KChar c => if mem (to_lower c) keys then mret (Some (to_lower c)) else key_loop f keys
           | _ => key_loop f keys
           end
  end.

(** [_key_dialog], without what it draws *)
Definition key_dialog (keys : list ascii) : U (option ascii) := f ← uget n_events; key_loop f keys.

(** [_msg] and [_error] *)
Definition msg_dialog : U () := key_dialog [" "%char; nl_c];; mret ().

(** [_load_save_info] *)
Definition load_save_info : string :=
  "(Relative to " +:+ path_join getcwd "" +:+ ")" +:+ nl +:+ nl +:+ "Refer to your home directory with ~".

(** ** Changing values *)

Definition set_item_value (i : item) (val : string) (σ : session) : outcome (bool * session) :=
  match i with
  | ISym s => set_value K s (UStr val) σ
  | ICho c => choice_set_value K c (UStr val) σ
  end.

(** [_set_val] *)
Definition set_val (i : item) (val : string) : U () :=
  old ← reading (item_str_now K fuel i);
  if bool_decide (val = old) then mret ()
  else
    on_host (on_session (set_item_value i val));;
    umodify (set_u_conf_changed true);;
    on_view_ (update_menu K fuel).

(** [_changeable] *)
Definition changeable (n : nat) (σ : session) : outcome bool :=
  match item_of_node (n_item (nod K n)), n_prompt (nod K n) with
  | Some i, Some (_, cond) =>
      let! v := expr_now K fuel cond σ in
      if (v =? 0)%Z then Ok false
      else
        match orig_type K i with
        | STRING | INT | HEX => Ok true
        | _ =>
            let! l := assignable_now K fuel i σ in
            if bool_decide (1 < length l) then Ok true else is_y_mode_choice_sym K fuel i σ
        end
  | _, _ => Ok false
  end.

(** [_range_info] and [_check_valid] of an item; a choice has no ranges. *)
Definition item_range_info (i : item) (σ : session) : outcome (option string) :=
  match i with
  | ISym s => range_info K fuel s σ
  | ICho c => if INT_HEX (orig_type K i) then Raise AttributeError else Ok None
  end.

Definition item_check_valid (i : item) (text : string) (σ : session) : outcome (option string) :=
  match i with
  | ISym s => check_valid K fuel s text σ
  | ICho c => if INT_HEX (orig_type K i) then Raise AttributeError else Ok None
  end.

(** The text of the dialog as it is assigned. *)
Definition dialog_value (t : ktype) (s : string) : string :=
  if INT_HEX t then
    let s := lstrip_by is_pyspace (rstrip s) in
    if decide (t = HEX) then if startswith "0x" s || startswith "0X" s then s else "0x" +:+ s else s
  else s.

Fixpoint value_dialog (f : nat) (i : item) (title s : string) : U () :=
  match f with
  | O => uwait
  | S f =>
      info ← reading (item_range_info i);
      r ← input_dialog title s info;
      match r with
      | None => mret ()
      | Some s =>
          let s := dialog_value (orig_type K i) s in
          error ← reading (item_check_valid i s);
          match error with
          | None => set_val i s
          | Some _ => msg_dialog;; value_dialog f i title s
          end
      end
  end.

(** The next value in [assignable]. *)
Definition next_assignable (i : item) (σ : session) : outcome Z :=
  let! l := assignable_now K fuel i σ in
  match l with
  | [z] => Ok z
  | _ =>
      let! v := tri_now K fuel i σ in
      match list_find (λ z, z = v) l with
      | Some (k, _) => of_option IndexError (l !! (S k mod length l)%nat)
      | None => Raise ValueError
      end
  end.

(** [_change_node] *)
Definition change_node (n : nat) : U bool :=
  ok ← reading (changeable n);
  match ok, item_of_node (n_item (nod K n)) with
  | true, Some i =>
      match orig_type K i with
      | INT | HEX | STRING =>
          s ← reading (item_str_now K fuel i);
          f ← uget n_events;
          value_dialog f i (default "" (prompt_text K n) +:+ " (" +:+ TYPE_TO_STR (orig_type K i) +:+ ")") s
      | _ =>
          v ← reading (next_assignable i);
          set_val i (tri_str v)
      end;;
      chosen ← reading (is_y_mode_choice_sym K fuel i);
      (if chosen && bool_decide (n_list (nod K n) = None) then on_view_ (leave_menu K fuel) else mret ());;
      mret true
  | _, _ => mret false
  end.

(** [_set_sel_node_tri_val] *)
Definition set_sel_node_tri_val (v : Z) : U () :=
  n ← on_view (λ _ v, let! n := sel_node v in Ok (n, v));
  match item_of_node (n_item (nod K n)) with
  | Some i =>
      l ← reading (assignable_now K fuel i);
      if mem v l then set_val i (tri_str v) else mret ()
  | None => mret ()
  end.

(** ** Loading and saving *)

(** [_needs_save] *)
Fixpoint any_unsaved (l : list nat) (h : host) : outcome bool :=
  match l with
  | [] => Ok false
  | s :: l =>
      let σ := h_session h in
      let! changed :=
        match user_value (uvals σ) !! s with
        | None => let! t := peek (config_string K fuel s) σ in Ok (negb (bool_decide (t = "")))
        | Some (UTri z) => let! v := tri_now K fuel (ISym s) σ in Ok (negb (v =? z)%Z)
        | Some (UStr t) => let! v := str_now K fuel s σ in Ok (negb (bool_decide (v = t)))
        end in
      if (changed : bool) then Ok true else any_unsaved l h
  end.

Definition needs_save (h : host) : outcome bool :=
  match h_missing h with
  | [] => any_unsaved (k_unique_defined_syms K) h
  | _ => Ok true
  end.

(** [_load_config] *)
Definition load_config_at_start (conf_filename : string) (h : host) : outcome (bool * host) :=
  let! (msg, h) := load_config w K fuel None true h in
  let h := print msg h in
  if exists_file conf_filename h then let! b := needs_save h in Ok (b, h) else Ok (true, h).

(** [_try_load] *)
Definition try_load (filename : string) : U bool := λ u,
  match load_config w K fuel (Some filename) true (u_host u) with
  | Ok (_, h) => Ok (true, set_u_host h u)
  | Raise (OSError _) => (msg_dialog;; mret false) u
  | Raise e => Raise e
  | NoFuel => NoFuel
  end.

Fixpoint load_loop (f : nat) (filename : string) : U () :=
  match f with
  | O => uwait
  | S f =>
      r ← input_dialog "File to load" filename (Some load_save_info);
      match r with
      | None => mret ()
      | Some filename =>
          let filename := expanduser filename in
          loaded ← try_load filename;
          if (loaded : bool) then
            umodify (λ u, set_u_filenames filename (u_minconf_filename u) u);;
            changed ← (λ u, let! b := needs_save (u_host u) in Ok (b, u));
            umodify (set_u_conf_changed changed);;
            on_view_ (λ σ v,
              let! n := sel_node v in
              let! nodes := shown_nodes K fuel (show_all v) (cur_menu v) σ in
              Ok (if mem n nodes then v else set_show_all true v));;
            on_view_ (update_menu K fuel);;
            msg_dialog
          else load_loop f filename
      end
  end.

(** [_load_dialog] *)
Definition load_dialog : U () :=
  changed ← uget u_conf_changed;
  go ← (if (changed : bool) then
          c ← key_dialog ["o"; "c"]%char;
          mret (negb (bool_decide (c = None ∨ c = Some "c"%char)))
        else mret true);
  if (go : bool) then
    filename ← uget u_conf_filename;
    f ← uget n_events;
    load_loop f filename
  else mret ().

(** The functions that save: [Kconfig.write_config] and [Kconfig.write_min_config] *)
Definition save_config (filename : string) : HIO string := write_config w K fuel (Some filename) None true.
Definition save_min_config (filename : string) : HIO string := write_min_config w K fuel filename None.

(** [_try_save] *)
Definition try_save (save_fn : string → HIO string) (filename : string) : U (option string) := λ u,
  match save_fn filename (u_host u) with
  | (Ok msg, h) => Ok (Some msg, set_u_host h u)
  | (Raise (OSError _), h) => (msg_dialog;; mret None) (set_u_host h u)
  | (Raise e, _) => Raise e
  | (NoFuel, _) => NoFuel
  end.

Fixpoint save_loop (f : nat) (save_fn : string → HIO string) (filename description : string) : U (option string) :=
  match f with
  | O => uwait
  | S f =>
      r ← input_dialog ("Filename to save " +:+ description +:+ " to") filename (Some load_save_info);
      match r with
      | None => mret None
      | Some filename =>
          let filename := expanduser filename in
          msg ← try_save save_fn filename;
          match msg with
          | Some _ => msg_dialog;; mret (Some filename)
          | None => save_loop f save_fn filename description
          end
      end
  end.

(** [_save_dialog] *)
Definition save_dialog (save_fn : string → HIO string) (default_filename description : string) : U (option string) :=
  f ← uget n_events;
  save_loop f save_fn default_filename description.

Fixpoint quit_loop (f : nat) (filename : string) : U (option string) :=
  match f with
  | O => uwait
  | S f =>
      c ← key_dialog ["y"; "n"; "c"]%char;
      if bool_decide (c = Some "y"%char) then
        msg ← try_save save_config filename;
        match msg with
        | Some msg => mret (Some msg)
        | None => quit_loop f filename
        end
      else if bool_decide (c = Some "n"%char) then
        mret (Some ("Configuration (" +:+ filename +:+ ") was not saved"))
      else mret None
  end.

(** [_quit_dialog] *)
Definition quit_dialog : U (option string) :=
  changed ← uget u_conf_changed;
  filename ← uget u_conf_filename;
  if (changed : bool) then f ← uget n_events; quit_loop f filename
  else mret (Some ("No changes to save (for '" +:+ filename +:+ "')")).
End Keys.
