(* ===== verification/MenuLoop.v ===== *)
(** * The main loop of the terminal interface: menuconfig

    The search dialog, the information dialog and the loop of [_menuconfig], which
    handles one key after the other until the user quits; [menuconfig] sets up the
    state before it.  Drawing is in MenuDraw.v. *)

From S2P Require Import Prelude PyStr PyText Kconst Expr Escape Incr Objects ParseState.
From S2P Require Import Printing Values Reads Session ConfigFile ConfigWrite.
From S2P Require Import EditText MenuView MenuNav MenuInfo MenuKeys.
From stdpp Require Import options.

(** [sorted(l, key=key)], which is stable *)
Fixpoint insert_by {A} (key : A → string) (x : A) (l : list A) : list A :=
  match l with
  | [] => [x]
  | y :: l' => if str_ltb (key y) (key x) then y :: insert_by key x l' else x :: l
  end.
Definition sorted_by {A} (key : A → string) (l : list A) : list A := foldr (insert_by key) [] l.

(** The state of the search dialog; [j_bad] stands for [bad_re]. *)
Record search : Type := Search {
  j_text : string;
  j_i : Z;
  j_hscroll : Z;
  j_matches : list nat;
  j_bad : bool;
  j_sel : Z;
  j_scroll : Z
}.

Definition set_j_position (sel scroll : Z) (j : search) : search :=
  Search (j_text j) (j_i j) (j_hscroll j) (j_matches j) (j_bad j) sel scroll.

Section Loop.
Variable w : world.
Variable K : kconfig.
Variable fuel : nat.
Variable erase_char : option ascii.
Variable expanduser : string → string.
Variable getcwd : string.
Variable re_search : string → option (string → bool).

(** ** Search *)

(** [_sorted_sc_nodes] *)
Definition sorted_sc_nodes : list nat :=
  flat_map (λ s, s_nodes (sym K s)) (sorted_by (λ s, s_name (sym K s)) (k_unique_defined_syms K))
  ++ sorted_by (λ n, default "" (prompt_text K n))
       (flat_map (λ c, c_nodes (cho K c))
          (sorted_by (λ c, default "" (c_name (cho K c))) (k_unique_choices K))).

(** [_sorted_menu_comment_nodes] *)
Definition sorted_menu_comment_nodes : list nat :=
  let prompt n := default "" (prompt_text K n) in
  sorted_by prompt (k_menus K) ++ sorted_by prompt (k_comments K).

(** Whether every expression matches the name or the prompt of a node. *)
Definition node_matches (searches : list (string → bool)) (n : nat) : bool :=
  let name := match n_item (nod K n) with
              | NSym s => s_name (sym K s)
              | NCho c => default "" (c_name (cho K c))
              | _ => ""
              end in
  forallb (λ f,
    (negb (bool_decide (name = "")) && f (lower name))
    || match prompt_text K n with Some t => f (lower t) | None => false end) searches.

Fixpoint all_compiled (l : list string) : option (list (string → bool)) :=
  match l with
  | [] => Some []
  | r :: l =>
      match re_search r, all_compiled l with
      | Some f, Some fs => Some (f :: fs)
      | _, _ => None
      end
  end.

(** The matches of a search text, with the cursor at the top. *)
Definition search_for (text : string) (i hscroll : Z) : search :=
  match all_compiled (words (lower text)) with
  | Some fs =>
      Search text i hscroll
        (filter (λ n, node_matches fs n = true) (sorted_sc_nodes ++ sorted_menu_comment_nodes)) false 0 0
  | None => Search text i hscroll [] true 0 0
  end.

(** Heights of the windows with the matches and with the information text. *)
Definition matches_height (screen_height : Z) : Z := Z.max 1 (screen_height - 5 - 4).
Definition info_height (screen_height : Z) : Z := Z.max 1 (screen_height - 1 - 2).

(** [select_next_match] and [select_prev_match] *)
Definition select_next_match (height : Z) (j : search) : search :=
  if (j_sel j =? Z.of_nat (length (j_matches j)) - 1)%Z then j
  else if (j_scroll j + height - SCROLL_OFFSET <=? j_sel j + 1)%Z
          && (j_scroll j <? max_scroll (j_matches j) height)%Z
  then set_j_position (j_sel j + 1) (j_scroll j + 1) j
  else set_j_position (j_sel j + 1) (j_scroll j) j.

Definition select_prev_match (j : search) : search :=
  if (j_sel j =? 0)%Z then j
  else if (j_sel j - 1 <? j_scroll j + SCROLL_OFFSET)%Z
  then set_j_position (j_sel j - 1) (Z.max (j_scroll j - 1) 0) j
  else set_j_position (j_sel j - 1) (j_scroll j) j.

(** [_resize_jump_to_dialog]: the scroll that keeps the cursor in the window. *)
Definition resize_matches (height : Z) (j : search) : search :=
  if (height <=? j_sel j - j_scroll j)%Z then set_j_position (j_sel j) (j_sel j - height + 1) j else j.

(** ** The information dialog *)

(** The scroll position after a key; [None] for the keys that do not scroll. *)
Definition info_scroll (c : key) (lines : list string) (height scroll : Z) : option Z :=
  let last := max_scroll lines height in
  if bool_decide (c = KEY_DOWN) || is_letter c "j" then
    Some (if (scroll <? last)%Z then scroll + 1 else scroll)%Z
  else if bool_decide (c = KEY_NPAGE) || is_char c 4 then Some (Z.min (scroll + Z.of_nat PG_JUMP) last)
  else if bool_decide (c = KEY_PPAGE) || is_char c 21 then Some (Z.max (scroll - Z.of_nat PG_JUMP) 0)
  else if bool_decide (c = KEY_END) || bool_decide (c = KChar "G") then Some last
  else if bool_decide (c = KEY_HOME) || bool_decide (c = KChar "g") then Some 0%Z
  else if bool_decide (c = KEY_UP) || is_letter c "k" then
    Some (if (0 <? scroll)%Z then scroll - 1 else scroll)%Z
  else None.

(** The loop of [_info_dialog]; [on_search] is the search dialog that '/' opens,
    unless the information was opened from it. *)
Fixpoint info_loop (f : nat) (on_search : option (U bool)) (lines : list string) (scroll : Z) : U () :=
  match f with
  | O => uwait
  | S f =>
      c ← getch;
      screen ← uget u_screen;
      match info_scroll c lines (info_height (fst screen)) scroll with
      | Some scroll => info_loop f on_search lines scroll
      | None =>
          if bool_decide (c = KChar "/") then
            match on_search with
            | None => mret ()
            | Some search =>
                jumped ← search;
                if (jumped : bool) then mret () else info_loop f on_search lines scroll
            end
          else if bool_decide (c = KEY_LEFT) || is_erase erase_char c || bool_decide (c = esc)
                  || is_letter c "q" || is_letter c "h" then mret ()
          else info_loop f on_search lines scroll
      end
  end.

Definition info_dialog (n : nat) (on_search : option (U bool)) : U () :=
  text ← reading (λ σ, info_str K fuel σ n);
  f ← uget n_events;
  info_loop f on_search (split_on nl_c text) 0.

(** ** The search dialog *)

Fixpoint jump_to_loop (f : nat) (j : search) : U bool :=
  match f with
  | O => uwait
  | S f =>
      c ← getch;
      screen ← uget u_screen;
      let height := matches_height (fst screen) in
      let selected := j_matches j !! Z.to_nat (j_sel j) in
      if bool_decide (c = enter) then
        match j_matches j with
        | [] => jump_to_loop f j
        | _ =>
            n ← ulift (of_option IndexError selected);
            on_view_ (jump_to K fuel n);;
            mret true
        end
      else if bool_decide (c = esc) then mret false
      else if bool_decide (c = KEY_RESIZE) then jump_to_loop f (resize_matches height j)
      else if is_char c 6 then
        match j_matches j with
        | [] => jump_to_loop f j
        | _ =>
            n ← ulift (of_option IndexError selected);
            info_dialog n None;;
            screen ← uget u_screen;
            jump_to_loop f (resize_matches (matches_height (fst screen)) j)
        end
      else if bool_decide (c = KEY_DOWN) then jump_to_loop f (select_next_match height j)
      else if bool_decide (c = KEY_UP) then jump_to_loop f (select_prev_match j)
      else if bool_decide (c = KEY_NPAGE) || is_char c 4 then
        jump_to_loop f (Nat.iter PG_JUMP (select_next_match height) j)
      else if bool_decide (c = KEY_PPAGE) then jump_to_loop f (Nat.iter PG_JUMP select_prev_match j)
      else if bool_decide (c = KEY_END) then
        jump_to_loop f (set_j_position (Z.of_nat (length (j_matches j)) - 1) (max_scroll (j_matches j) height) j)
      else if bool_decide (c = KEY_HOME) then jump_to_loop f (set_j_position 0 0 j)
      else if is_char c 0 then jump_to_loop f j
      else
        let '(text, i, hscroll) := edit_text erase_char c (j_text j) (j_i j) (j_hscroll j) (snd screen - 2) in
        jump_to_loop f
          (if bool_decide (text = j_text j)
           then Search text i hscroll (j_matches j) (j_bad j) (j_sel j) (j_scroll j)
           else search_for text i hscroll)
  end.

(** [_jump_to_dialog] *)
Definition jump_to_dialog : U bool := f ← uget n_events; jump_to_loop f (search_for "" 0 0).

(** ** The main loop *)

Definition repeat_move (f : view → view) : U () := move (Nat.iter PG_JUMP f).

(** What the loop of [_menuconfig] does for one key: the message to print if the
    user quits. *)
Definition handle_key (c : key) : U (option string) :=
  let stay (m : U ()) : U (option string) := m;; mret None in
  if bool_decide (c = KEY_RESIZE) then stay resize_main
  else if bool_decide (c = KEY_DOWN) || is_letter c "j" then stay (move select_next_menu_entry)
  else if bool_decide (c = KEY_UP) || is_letter c "k" then stay (move select_prev_menu_entry)
  else if bool_decide (c = KEY_NPAGE) || is_char c 4 then stay (repeat_move select_next_menu_entry)
  else if bool_decide (c = KEY_PPAGE) || is_char c 21 then stay (repeat_move select_prev_menu_entry)
  else if bool_decide (c = KEY_END) || bool_decide (c = KChar "G") then stay (move select_last_menu_entry)
  else if bool_decide (c = KEY_HOME) || bool_decide (c = KChar "g") then stay (move select_first_menu_entry)
  else if bool_decide (c = KChar " ") then
    n ← on_view (λ _ v, let! n := sel_node v in Ok (n, v));
    changed ← change_node K fuel erase_char n;
    if (changed : bool) then mret None else on_view (enter_menu K fuel n);; mret None
  else if bool_decide (c = KEY_RIGHT) || bool_decide (c = enter) || is_letter c "l" then
    n ← on_view (λ _ v, let! n := sel_node v in Ok (n, v));
    entered ← on_view (enter_menu K fuel n);
    if (entered : bool) then mret None else change_node K fuel erase_char n;; mret None
  else if is_letter c "n" then stay (set_sel_node_tri_val K fuel 0)
  else if is_letter c "m" then stay (set_sel_node_tri_val K fuel 1)
  else if is_letter c "y" then stay (set_sel_node_tri_val K fuel 2)
  else if bool_decide (c = KEY_LEFT) || is_erase erase_char c || bool_decide (c = esc) || is_letter c "h" then
    menu ← uget (λ u, cur_menu (u_view u));
    if bool_decide (c = esc) && bool_decide (menu = k_top_node K) then quit_dialog w K fuel
    else stay (on_view_ (leave_menu K fuel))
  else if is_letter c "o" then stay (load_dialog w K fuel erase_char expanduser getcwd)
  else if is_letter c "s" then
    filename ← uget u_conf_filename;
    r ← save_dialog erase_char expanduser getcwd (save_config w K fuel) filename "configuration";
    match r with
    | Some filename =>
        if bool_decide (filename = "") then mret None
        else
          umodify (λ u, set_u_conf_changed false (set_u_filenames filename (u_minconf_filename u) u));;
          mret None
    | None => mret None
    end
  else if is_letter c "d" then
    filename ← uget u_minconf_filename;
    r ← save_dialog erase_char expanduser getcwd (save_min_config w K fuel) filename "minimal configuration";
    match r with
    | Some filename =>
        if bool_decide (filename = "") then mret None
        else umodify (λ u, set_u_filenames (u_conf_filename u) filename u);; mret None
    | None => mret None
    end
  else if bool_decide (c = KChar "/") then stay (jump_to_dialog;; resize_main)
  else if bool_decide (c = KChar "?") then
    n ← on_view (λ _ v, let! n := sel_node v in Ok (n, v));
    stay (info_dialog n (Some jump_to_dialog);; resize_main)
  else if is_letter c "f" then
    stay (umodify (λ u, set_u_modes (negb (u_show_help u)) (u_show_name u) u);; resize_main)
  else if is_letter c "c" then
    stay (umodify (λ u, set_u_modes (u_show_help u) (negb (u_show_name u)) u))
  else if is_letter c "a" then stay (on_view_ (toggle_show_all K fuel))
  else if is_letter c "q" then quit_dialog w K fuel
  else mret None.

(** The loop of [_menuconfig]: [None] while it waits for the next key. *)
Fixpoint main_loop (f : nat) : U (option string) := λ u,
  match f, u_events u with
  | O, _ | _, [] => Ok (None, u)
  | S f, _ => (c ← getch; r ← handle_key c; match r with Some msg => mret (Some msg) | None => main_loop f end) u
  end.

(** [kconf.warn = False] *)
Definition disable_warnings (h : host) : host :=
  let quiet st := IState (cache st) (wtc st) (WLog false (warn_to_stderr (log st)) (warnings (log st)) (stderr (log st))) in
  set_h_session (set_vals quiet (h_session h)) h.

(** [menuconfig] up to the main loop, for a terminal of the given size: [None]
    when there is nothing to configure. *)
Definition start (screen : Z * Z) (h : host) (events : list event) : outcome (option ui) :=
  let conf_filename := standard_config_filename w in
  let! (changed, h) := load_config_at_start w K fuel conf_filename h in
  let top := k_top_node K in
  let! nodes := shown_nodes K fuel false top (h_session h) in
  let! (all, nodes) :=
    (match nodes with
     | [] => let! nodes := shown_nodes K fuel true top (h_session h) in Ok (true, nodes)
     | _ => Ok (false, nodes)
     end) in
  match nodes with
  | [] => Ok None
  | _ =>
      let height := menu_win_height (fst screen) false in
      Ok (Some (Ui (View top nodes 0 0 [] all height) (disable_warnings h) false false changed conf_filename "defconfig" screen events))
  end.

Definition menuconfig (screen : Z * Z) (h : host) (events : list event) : outcome (option string * host) :=
  let! o := start screen h events in
  match o with
  | None => Ok (Some ("Empty configuration -- nothing to configure." +:+ nl
                       +:+ "Check that environment variables are set properly."), h)
  | Some u => let! (msg, u) := main_loop (n_events u) u in Ok (msg, u_host u)
  end.
End Loop.
