(* ===== verification/MenuSafe.v ===== *)
(** * The terminal interface keeps its cursor on the screen

    Preservation of the session and of the position of the cursor by every
    operation of the interface, by Hoare triples over its monad, and what a change
    of a value does to the display. *)

From S2P Require Import Prelude PyStr PyText Kconst Expr Escape Incr Objects ParseState.
From S2P Require Import Printing Values Reads Session Meaning Effects ConfigFile ConfigSession ConfigWrite ConfigText.
From S2P Require Import EditText MenuView MenuShown MenuNav MenuInfo MenuKeys MenuLoop.
From stdpp Require Import options.

(** ** Code that only reads a session *)
Section Readers.
Context {K : kconfig} {fuel : nat} {HK : Loaded K fuel}.
Implicit Types σ : session.

Definition reader {A} (f : session → outcome (A * session)) : Prop :=
  ∀ σ a σ', session_ok (K := K) σ → f σ = Ok (a, σ') → session_ok (K := K) σ' ∧ uvals σ' = uvals σ.

Lemma reader_ret {A} (a : A) : reader (λ σ, Ok (a, σ)).
Proof using Type. by intros σ b σ' Hσ [= <- <-]. Qed.

Lemma reader_bind {A B} (f : session → outcome (A * session)) (g : A → session → outcome (B * session)) :
  reader f → (∀ a, reader (g a)) → reader (λ σ, let! (a, σ) := f σ in g a σ).
Proof using Type.
  intros Hf Hg σ b σ' Hσ. rewrite obind_Ok. intros ([a σ1] & Hfa & Hgb).
  destruct (Hf _ _ _ Hσ Hfa) as [Hσ1 Hu1]. destruct (Hg a _ _ _ Hσ1 Hgb) as [? Hu2].
  split; [done|]. by rewrite Hu2.
Qed.

Lemma reader_prop q : reader (get_prop K fuel q).
Proof using HK.
  intros σ v σ' Hσ Hg. destruct (get_prop_spec σ q Hσ) as (v' & σ1 & Hg' & _ & ? & ?).
  rewrite Hg in Hg'. by simplify_eq.
Qed.

(** Code that makes no [_write_to_conf] assignments. *)
Lemma reader_run {A} (p : ustate → code A) :
  (∀ u, writes_only (λ _, False) (p u)) → reader (run_code K fuel p).
Proof using HK.
  intros Hp σ a σ' [Hu Hc]. unfold run_code. rewrite obind_Ok. intros ([b st] & He & [= <- <-]).
  split; [|done]. split; [done|]. cbn. specialize (Hp (uvals σ)). revert st Hc He. generalize (vals σ) as st0.
  induction (p (uvals σ)) as [A b0|A q k IH|A i b0 k IH|A m IHm k IH|A e]; cbn [exec]; intros st0 st Hc.
  - by intros [= <- <-].
  - rewrite obind_Ok. intros ([v st1] & Hv & Hk).
    destruct (eval_ok (uvals σ) q st0 Hu Hc) as (v' & st' & Hv' & _ & Hc'). rewrite Hv in Hv'. simplify_eq.
    by eapply IH.
  - by destruct Hp.
  - destruct Hp as [Hm Hk]. rewrite obind_Ok. intros ([msg st1] & Hmsg & Hrest).
    eapply (IH p Hk); [|exact Hrest]. by apply do_warn_coherent, (IHm (λ _, m) Hm _ _ _ Hc Hmsg).
  - done.
Qed.

Lemma reader_str s : reader (str_value K fuel s).
Proof using HK. apply reader_bind; [apply reader_prop|]. intros []; first [apply reader_ret|by intros ?]. Qed.

Lemma reader_tri s : reader (tri_value K fuel s).
Proof using HK. apply reader_bind; [apply reader_prop|]. intros []; first [apply reader_ret|by intros ?]. Qed.

Lemma reader_vis i : reader (visibility_of K fuel i).
Proof using HK. apply reader_bind; [apply reader_prop|]. intros []; first [apply reader_ret|by intros ?]. Qed.

Lemma reader_expr e : reader (eval_expr K fuel e).
Proof using HK. apply reader_run. intros u. apply writes_expr_value. Qed.

(** The computations of configurations. *)
Definition read_step (σ σ' : session) : Prop :=
  session_ok (K := K) σ → session_ok (K := K) σ' ∧ uvals σ' = uvals σ.

Lemma read_step_trans σ1 σ2 σ3 : read_step σ1 σ2 → read_step σ2 σ3 → read_step σ1 σ3.
Proof using Type. intros H1 H2 H. destruct (H1 H) as [H' E1]. destruct (H2 H') as [H'' E2]. split; [done|]. by rewrite E2. Qed.

Lemma reader_steps {A} (f : session → outcome (A * session)) : reader f ↔ steps_by read_step f.
Proof using Type. split; [intros Hf σ a σ' He Hσ; by eapply Hf|intros Hf σ a σ' Hσ He; by eapply Hf]. Qed.

Lemma reader_config_string s : reader (config_string K fuel s).
Proof using HK.
  apply reader_steps, steps_config_string; [done|apply read_step_trans|]. intros q. apply reader_steps, reader_prop.
Qed.

Lemma reader_contents header : reader (config_contents K fuel header).
Proof using HK.
  apply reader_steps, steps_contents; [done|apply read_step_trans| |].
  - intros q. apply reader_steps, reader_prop.
  - intros e. apply reader_steps, reader_expr.
Qed.

Lemma reader_concat (f : nat → session → outcome (string * session)) l :
  (∀ s, reader (f s)) → reader (concat_symbols f l).
Proof using Type.
  intros Hf. apply reader_steps, steps_concat; [done|apply read_step_trans|]. intros s. apply reader_steps, Hf.
Qed.

Lemma writes_str_default u s : writes_only (λ _, False) (str_default K s u).
Proof using Type.
  unfold str_default. repeat first
    [ exact I
    | apply writes_only_bind; [|intros ?]
    | apply writes_expr_value | apply writes_first_active | apply writes_default_str
    | apply writes_symbol_type | apply writes_tri_to_str
    | match goal with |- writes_only _ (match ?x with _ => _ end) => destruct x end ].
Qed.

Lemma writes_from_defaults u c : writes_only (λ _, False) (selection_from_defaults K u c).
Proof using Type.
  unfold selection_from_defaults. repeat first
    [ exact I
    | apply writes_only_bind; [|intros ?]
    | apply writes_default_selection | apply writes_first_visible
    | match goal with |- writes_only _ (match ?x with _ => _ end) => destruct x end ].
Qed.

Lemma reader_min_config_string s : reader (min_config_string K fuel s).
Proof using HK.
  unfold min_config_string, fixed_by_select, default_choice_symbol. apply reader_bind.
  { case_match; [apply reader_ret|]. apply reader_bind; [apply reader_vis|]. intros v.
    apply reader_bind; [apply reader_expr|]. intros r. apply reader_ret. }
  intros fixed. case_match; [apply reader_ret|]. apply reader_bind; [apply reader_str|]. intros val.
  apply reader_bind; [apply reader_run; intros u; apply writes_str_default|]. intros dflt.
  case_match; [apply reader_ret|]. apply reader_bind.
  - case_match; [|apply reader_ret]. case_match; [apply reader_ret|].
    apply reader_bind; [apply reader_run; intros u; apply writes_from_defaults|]. intros o.
    case_match; [|apply reader_ret]. apply reader_bind; [apply reader_tri|]. intros v. apply reader_ret.
  - intros chosen. case_match; [apply reader_ret|apply reader_config_string].
Qed.

Variable w : world.

(** A computation that leaves a valid session with the same user values, whether it
    succeeds or not. *)
Definition io_keeps {A} (m : HIO A) : Prop := ∀ h, session_ok (K := K) (h_session h) →
  session_ok (K := K) (h_session (m h).2) ∧ uvals (h_session (m h).2) = uvals (h_session h).

Lemma io_keeps_bind {A B} (m : HIO A) (f : A → HIO B) : io_keeps m → (∀ a, io_keeps (f a)) → io_keeps (m ≫= f).
Proof using Type.
  intros Hm Hf h Hok. destruct (Hm h Hok) as [Hok1 Hu1]. unfold mbind, HIO_bind. destruct (m h) as [[a|e|] h1]; [|done..].
  destruct (Hf a h1 Hok1) as [Hok2 Hu2]. split; [done|]. cbn [snd] in *. congruence.
Qed.
Lemma io_keeps_ret {A} (a : A) : io_keeps (mret a).
Proof using Type. by intros h. Qed.
Lemma io_keeps_get {A} (f : host → A) : io_keeps (io_get f).
Proof using Type. by intros h. Qed.
Lemma io_keeps_modify (f : host → host) : (∀ h, h_session (f h) = h_session h) → io_keeps (io_modify f).
Proof using Type. intros Hf h Hok. cbn. by rewrite Hf. Qed.
Lemma io_keeps_session {A} (f : session → outcome (A * session)) : reader f → io_keeps (io_lift (on_session f)).
Proof using Type.
  intros Hf h Hok. unfold io_lift, on_session. destruct (f (h_session h)) as [[a σ]|e|] eqn:E; cbn [obind]; [|done..].
  by apply (Hf _ _ _ Hok E).
Qed.
Lemma io_keeps_write path text : io_keeps (write_file w path text).
Proof using Type. intros h Hok. unfold write_file. by destruct (w_write _ _ _ _) as [[]|]. Qed.

Lemma write_config_keeps filename header save : io_keeps (write_config w K fuel filename header save).
Proof using HK.
  unfold write_config. apply io_keeps_bind; [apply io_keeps_session, reader_contents|]. intros text.
  apply io_keeps_bind; [apply io_keeps_get|]. intros []; [apply io_keeps_ret|].
  apply io_keeps_bind.
  - destruct save; [|apply io_keeps_ret]. apply io_keeps_modify. intros h. by repeat case_match.
  - intros _. apply io_keeps_bind; [apply io_keeps_write|]. intros _. apply io_keeps_ret.
Qed.

Lemma reader_min_config header : reader (min_config_contents K fuel header).
Proof using HK.
  unfold min_config_contents. apply reader_bind; [apply (reader_concat _ _ reader_min_config_string)|].
  intros t. apply reader_ret.
Qed.

Lemma write_min_config_keeps filename header : io_keeps (write_min_config w K fuel filename header).
Proof using HK.
  unfold write_min_config, write_if_changed. apply io_keeps_bind; [apply io_keeps_session, reader_min_config|]. intros text.
  apply io_keeps_bind; [|intros; apply io_keeps_ret]. apply io_keeps_bind; [apply io_keeps_get|].
  intros []; [apply io_keeps_ret|]. apply io_keeps_bind; [apply io_keeps_write|]. intros _. apply io_keeps_ret.
Qed.
End Readers.

(** ** The state of the interface *)
Section Triples.
Context {K : kconfig} {fuel : nat} {HK : Loaded K fuel}.

Definition triple {A} (P : ui → Prop) (m : U A) (Q : A → ui → Prop) : Prop :=
  ∀ u a u', P u → m u = Ok (a, u') → Q a u'.

(** The session is sound and the cursor on the screen. *)
Definition ui_ok (u : ui) : Prop := session_ok (K := K) (h_session (u_host u)) ∧ position_ok (u_view u).
Definition keeps {A} (m : U A) : Prop := triple ui_ok m (λ _, ui_ok).

Lemma keeps_ret {A} (a : A) : keeps (mret a).
Proof using Type. by intros u b u' Hu [= <- <-]. Qed.

Lemma keeps_bind {A B} (m : U A) (f : A → U B) : keeps m → (∀ a, keeps (f a)) → keeps (m ≫= f).
Proof using Type.
  intros Hm Hf u b u' Hu Hb. unfold mbind, U_bind in Hb. apply obind_Ok in Hb as ([a u1] & Ha & Hb).
  eapply Hf; [by eapply Hm|done].
Qed.

Lemma keeps_wait {A} : keeps (uwait (A := A)).
Proof using Type. by intros u a u'. Qed.

Lemma keeps_get {A} (f : ui → A) : keeps (uget f).
Proof using Type. by intros u a u' Hu [= <- <-]. Qed.

Lemma keeps_reading {A} (f : session → outcome A) : keeps (reading f).
Proof using Type. intros u a u' Hu. unfold reading. rewrite obind_Ok. by intros (b & _ & [= <- <-]). Qed.

Lemma keeps_modify (f : ui → ui) : (∀ u, u_host (f u) = u_host u ∧ u_view (f u) = u_view u) → keeps (umodify f).
Proof using Type. intros Hf u a u' [H1 H2] [= <- <-]. destruct (Hf u) as [E1 E2]. split; [by rewrite E1|by rewrite E2]. Qed.

Lemma keeps_lift {A} (o : outcome A) : keeps (ulift o).
Proof using Type. intros u a u' Hu. unfold ulift. rewrite obind_Ok. by intros (b & _ & [= <- <-]). Qed.

Lemma keeps_move (f : view → view) : (∀ v, position_ok v → position_ok (f v)) → keeps (move f).
Proof using Type. intros Hf u a u' [H1 H2] [= <- <-]. split; [done|by apply Hf]. Qed.

Lemma keeps_getch : keeps getch.
Proof using Type.
  intros u c u' Hu. unfold getch. destruct (u_events u) as [|[k|y x] events]; [done|..]; by intros [= <- <-].
Qed.

Lemma keeps_resize : keeps resize_main.
Proof using Type.
  intros u a u' [H1 H2] [= <- <-]. split; [done|]. apply resize_ok; [|done]. unfold menu_win_height. lia.
Qed.

Lemma keeps_on_view {A} (f : session → view → outcome (A * view)) :
  (∀ σ v a v', session_ok (K := K) σ → position_ok v → f σ v = Ok (a, v') → position_ok v') → keeps (on_view f).
Proof using Type.
  intros Hf u a u' [H1 H2]. unfold on_view. rewrite obind_Ok. intros ([b v] & Hb & [= <- <-]).
  split; [done|]. by eapply Hf.
Qed.

Lemma keeps_on_view_ (f : session → view → outcome view) :
  (∀ σ v v', session_ok (K := K) σ → position_ok v → f σ v = Ok v' → position_ok v') → keeps (on_view_ f).
Proof using Type.
  intros Hf. apply keeps_on_view. intros σ v [] v' Hσ Hv. rewrite obind_Ok. intros (v1 & H1 & [= <-]). by eapply Hf.
Qed.

Lemma keeps_on_host {A} (f : host → outcome (A * host)) :
  (∀ h a h', session_ok (K := K) (h_session h) → f h = Ok (a, h') → session_ok (K := K) (h_session h')) →
  keeps (on_host f).
Proof using Type.
  intros Hf u a u' [H1 H2]. unfold on_host. rewrite obind_Ok. intros ([b h] & Hb & [= <- <-]).
  split; [by eapply Hf|done].
Qed.

(** ** Moving between menus *)

Lemma shown_index_ok n l i v : index_of n l = Ok i → position_ok v → shown v = l → position_ok (center_vertically (set_position i (menu_scroll v) v)).
Proof using Type.
  intros Hi%index_of_bounds [Hh Hs Hc Hr Hp] <-. by apply center_ok.
Qed.

Lemma select_selected_ok σ v v' :
  position_ok v → select_selected_choice_sym K fuel σ v = Ok v' → position_ok v'.
Proof using Type.
  intros Hv. unfold select_selected_choice_sym. destruct (n_item _); try done. rewrite obind_Ok.
  intros (o & _ & H). destruct o as [s|]; [|by injection H as <-]. destruct (first_in _ _) as [n|]; [|by injection H as <-].
  apply obind_Ok in H as (i & Hi & [= <-]). by eapply shown_index_ok.
Qed.

Lemma enter_menu_ok menu σ v b v' : position_ok v → enter_menu K fuel menu σ v = Ok (b, v') → position_ok v'.
Proof using Type.
  intros Hv. unfold enter_menu. destruct (n_is_menuconfig _); [|by intros [= <- <-]].
  rewrite obind_Ok. intros (sub & _ & H). destruct sub as [|x sub]; [by injection H as <- <-|].
  apply obind_Ok in H as (v1 & H1 & [= <- <-]).
  assert (position_ok (set_position 0 0 (set_menu menu (x :: sub)
    (set_rows ((sel_node_i v - menu_scroll v)%Z :: parent_screen_rows v) v)))) as Hpos.
  { destruct Hv. split; cbn; try lia. constructor; [lia|done]. }
  destruct (is_choice_menu K menu); [|by injection H1 as <-]. by eapply select_selected_ok.
Qed.

Lemma leave_menu_ok σ v v' : position_ok v → leave_menu K fuel σ v = Ok v' → position_ok v'.
Proof using Type.
  intros [Hh Hs Hc Hr Hp]. unfold leave_menu. case_decide; [by intros [= <-]|].
  rewrite obind_Ok. intros (p & _ & H1). apply obind_Ok in H1 as (nodes & _ & H1).
  apply obind_Ok in H1 as (i & Hi%index_of_bounds & H1). cbn [parent_screen_rows set_position set_menu] in H1.
  destruct (parent_screen_rows v) as [|row rows] eqn:Hrows; injection H1 as <-.
  - apply center_ok; [done|done|]. cbn. by rewrite Hrows.
  - apply Forall_cons in Hp as [Hrow Hp]. split; cbn; [done|lia|lia|lia|done].
Qed.

Lemma toggle_show_all_ok σ v v' : position_ok v → toggle_show_all K fuel σ v = Ok v' → position_ok v'.
Proof using Type.
  intros [Hh Hs Hc Hr Hp]. unfold toggle_show_all. rewrite obind_Ok. intros (nodes & _ & H).
  destruct (first_in (reverse _) nodes) as [n|]; [|destruct (first_in (drop _ _) nodes) as [n|]];
    [apply obind_Ok in H as (i & Hi%index_of_bounds & [= <-]); apply keep_row_ok; cbn; try lia; done..|].
  by injection H as <-.
Qed.

Lemma update_menu_ok σ v v' : position_ok v → update_menu K fuel σ v = Ok v' → position_ok v'.
Proof using Type.
  intros [Hh Hs Hc Hr Hp]. unfold update_menu. rewrite obind_Ok. intros (n & _ & H).
  apply obind_Ok in H as (nodes & _ & H). apply obind_Ok in H as (i & Hi%index_of_bounds & [= <-]).
  apply keep_row_ok; cbn; try lia; done.
Qed.

(** A cursor in the list, wherever the scroll is. *)
Definition selected_ok (v : view) : Prop :=
  (1 ≤ menu_height v)%Z ∧ (0 ≤ sel_node_i v < Z.of_nat (length (shown v)))%Z ∧
  Forall (λ r, (0 ≤ r)%Z) (parent_screen_rows v).

Lemma toggle_selected σ v v' : selected_ok v → toggle_show_all K fuel σ v = Ok v' → selected_ok v'.
Proof using Type.
  intros (Hh & Hs & Hp). unfold toggle_show_all. rewrite obind_Ok. intros (nodes & _ & H).
  destruct (first_in (reverse _) nodes) as [n|]; [|destruct (first_in (drop _ _) nodes) as [n|]];
    [apply obind_Ok in H as (i & Hi%index_of_bounds & [= <-]); done..|].
  by injection H as <-.
Qed.

Lemma jump_to_ok n σ v v' : position_ok v → jump_to K fuel n σ v = Ok v' → position_ok v'.
Proof using Type.
  intros [Hh Hs Hc Hr Hp]. unfold jump_to. rewrite obind_Ok. intros (menu & _ & H).
  apply obind_Ok in H as (nodes & _ & H). apply obind_Ok in H as ([all nodes'] & _ & H).
  apply obind_Ok in H as (i & Hi%index_of_bounds & H). apply obind_Ok in H as (v1 & H1 & H).
  set (v0 := set_position _ _ _) in H1.
  assert (selected_ok v1) as (H2 & H3 & H4).
  { assert (selected_ok v0) as Hv0 by (split; [exact Hh|split; [exact Hi|constructor]]).
    destruct (bool_decide _ && negb _ && all); [by eapply toggle_selected|by injection H1 as <-]. }
  pose proof (center_ok v1 H2 H3 H4) as Hcenter.
  destruct (bool_decide _ && is_choice_menu _ _); [by eapply select_selected_ok|by injection H as <-].
Qed.

(** ** Dialogs *)
Variable w : world.
Variable erase_char : option ascii.
Variable expanduser : string → string.
Variable getcwd : string.
Variable re_search : string → option (string → bool).
Hypothesis Hdef : names_defined (K := K).

Create HintDb menu_keeps discriminated.

Ltac keeps :=
  repeat first
    [ solve [auto with menu_keeps]
    | apply keeps_ret | apply keeps_wait | apply keeps_getch | apply keeps_resize | apply keeps_get
    | apply keeps_reading | apply keeps_lift
    | match goal with
      | H : ∀ _, keeps _ |- keeps _ => apply H
      | H : ∀ _ _, keeps _ |- keeps _ => apply H
      | H : ∀ _ _ _, keeps _ |- keeps _ => apply H
      | H : keeps _ |- keeps _ => apply H
      end
    | apply keeps_bind; [|intros ?]
    | apply keeps_modify; by intros ?
    | match goal with |- keeps (match ?x with _ => _ end) => destruct x end
    | match goal with |- keeps (let '_ := ?x in _) => destruct x end ].

Lemma keeps_input_loop f title info s i hscroll : keeps (input_loop erase_char f title info s i hscroll).
Proof using Type.
  revert s i hscroll. induction f as [|f IH]; intros s i hscroll; cbn [input_loop]; keeps.
Qed.
#[local] Hint Resolve keeps_input_loop : menu_keeps.

Lemma keeps_input_dialog title s info : keeps (input_dialog erase_char title s info).
Proof using Type. unfold input_dialog. keeps. Qed.
#[local] Hint Resolve keeps_input_dialog : menu_keeps.

Lemma keeps_key_loop f keys : keeps (key_loop f keys).
Proof using Type. induction f as [|f IH]; cbn [key_loop]; keeps. Qed.
#[local] Hint Resolve keeps_key_loop : menu_keeps.

Lemma keeps_key_dialog keys : keeps (key_dialog keys).
Proof using Type. unfold key_dialog. keeps. Qed.
#[local] Hint Resolve keeps_key_dialog : menu_keeps.

Lemma keeps_msg : keeps msg_dialog.
Proof using Type. unfold msg_dialog. keeps. Qed.
#[local] Hint Resolve keeps_msg : menu_keeps.

Lemma keeps_set_val i val : keeps (set_val K fuel i val).
Proof using HK.
  unfold set_val. keeps.
  - apply keeps_on_host. intros h b h' Hσ. unfold on_session. rewrite obind_Ok. intros ([c σ] & Hset & [= <- <-]).
    cbn. destruct i as [s|c']; cbn in Hset.
    + destruct (set_value_session s (UStr val) (h_session h) Hσ) as (σ' & Hs & Hok & _). rewrite Hs in Hset. by simplify_eq.
    + destruct (choice_set_value_session c' (UStr val) (h_session h) Hσ) as (σ' & Hs & Hok & _). rewrite Hs in Hset. by simplify_eq.
  - apply keeps_on_view_. intros σ v v' _. apply update_menu_ok.
Qed.
#[local] Hint Resolve keeps_set_val : menu_keeps.

Lemma keeps_value_dialog f i title s : keeps (value_dialog K fuel erase_char f i title s).
Proof using HK.
  revert s. induction f as [|f IH]; intros s; cbn [value_dialog]; keeps.
Qed.
#[local] Hint Resolve keeps_value_dialog : menu_keeps.

Lemma keeps_leave : keeps (on_view_ (leave_menu K fuel)).
Proof using Type. apply keeps_on_view_. intros σ v v' _. apply leave_menu_ok. Qed.
#[local] Hint Resolve keeps_leave : menu_keeps.

Lemma keeps_change_node n : keeps (change_node K fuel erase_char n).
Proof using HK.
  unfold change_node. keeps.
Qed.
#[local] Hint Resolve keeps_change_node : menu_keeps.

Lemma keeps_sel_node : keeps (on_view (λ _ v, let! n := sel_node v in Ok (n, v))).
Proof using Type. apply keeps_on_view. intros σ v a v' _ Hv. rewrite obind_Ok. by intros (n & _ & [= <- <-]). Qed.
#[local] Hint Resolve keeps_sel_node : menu_keeps.

Lemma keeps_set_tri z : keeps (set_sel_node_tri_val K fuel z).
Proof using HK. unfold set_sel_node_tri_val. keeps. Qed.
#[local] Hint Resolve keeps_set_tri : menu_keeps.

Lemma load_config_keeps filename h msg h' :
  session_ok (K := K) (h_session h) → load_named w K filename msg true h = Ok h' → session_ok (K := K) (h_session h'.2).
Proof using HK Hdef.
  intros Hok. unfold load_named. rewrite obind_Ok. intros (h1 & Hl & [= <-]). cbn.
  apply no_prompt_warning_ok.
  assert (session_ok (K := K) (h_session (set_h_session (set_no_prompt_warning false (h_session h)) h))) as Hok0
    by by apply no_prompt_warning_ok.
  destruct (open_config w K filename (set_h_session (set_no_prompt_warning false (h_session h)) h)) as [[opened text]| |] eqn:Ho;
    [|unfold load_config_file in Hl; by rewrite Ho in Hl..].
  destruct (load_config_file_ok Hdef w filename opened text true _ Hok0) as (h2 & H2 & Hok2 & _); [done|done|].
  rewrite Hl in H2. by injection H2 as <-.
Qed.

Lemma keeps_try_load filename : triple ui_ok (try_load w K fuel filename) (λ _ u,
  session_ok (K := K) (h_session (u_host u)) ∧ position_ok (u_view u)).
Proof using HK Hdef.
  intros u b u' [H1 H2]. unfold try_load. cbn [load_config].
  destruct (load_named _ _ _ _ _ _) as [[msg h]|e|] eqn:Hl; [|destruct e; try done|done].
  - intros [= <- <-]. split; [|done]. apply (load_config_keeps _ _ _ _ H1 Hl).
  - apply (keeps_bind msg_dialog (λ _, mret false) keeps_msg (λ _, keeps_ret false)). by split.
Qed.

Lemma keeps_load_loop f filename : keeps (load_loop w K fuel erase_char expanduser getcwd f filename).
Proof using HK Hdef.
  revert filename. induction f as [|f IH]; intros filename; cbn [load_loop]; keeps.
  - apply keeps_try_load.
  - intros u b u' Hu. rewrite obind_Ok. by intros (c & _ & [= <- <-]).
  - apply keeps_on_view_. intros σ v v' _ Hv. rewrite obind_Ok. intros (n & _ & H).
    apply obind_Ok in H as (nodes & _ & [= <-]). by case_match; destruct Hv.
  - apply keeps_on_view_. intros σ v v' _. apply update_menu_ok.
Qed.
#[local] Hint Resolve keeps_load_loop : menu_keeps.

Lemma keeps_load_dialog : keeps (load_dialog w K fuel erase_char expanduser getcwd).
Proof using HK Hdef. unfold load_dialog. keeps. Qed.
#[local] Hint Resolve keeps_load_dialog : menu_keeps.

Lemma keeps_try_save (save_fn : string → HIO string) filename :
  io_keeps (K := K) (save_fn filename) → keeps (try_save save_fn filename).
Proof using Type.
  intros Hs u b u' [H1 H2]. unfold try_save. destruct (Hs (u_host u) H1) as [Hs1 _].
  destruct (save_fn filename (u_host u)) as [[msg|e|] h]; [|destruct e; try done|done].
  - intros [= <- <-]. by split.
  - apply (keeps_bind msg_dialog (λ _, mret None) keeps_msg (λ _, keeps_ret None)). by split.
Qed.

Lemma keeps_save_config filename : keeps (try_save (save_config w K fuel) filename).
Proof using HK. apply keeps_try_save. apply write_config_keeps. Qed.
#[local] Hint Resolve keeps_save_config : menu_keeps.

Lemma keeps_save_loop f (save_fn : string → HIO string) filename description :
  (∀ f, io_keeps (K := K) (save_fn f)) → keeps (save_loop erase_char expanduser getcwd f save_fn filename description).
Proof using Type.
  intros Hs. revert filename. induction f as [|f IH]; intros filename; cbn [save_loop]; keeps; by apply keeps_try_save.
Qed.

Lemma keeps_save_dialog (save_fn : string → HIO string) filename description :
  (∀ f, io_keeps (K := K) (save_fn f)) → keeps (save_dialog erase_char expanduser getcwd save_fn filename description).
Proof using Type. intros Hs. unfold save_dialog. keeps. by apply keeps_save_loop. Qed.

Lemma keeps_save_as filename description :
  keeps (save_dialog erase_char expanduser getcwd (save_config w K fuel) filename description).
Proof using HK. apply keeps_save_dialog. intros f. apply write_config_keeps. Qed.

Lemma keeps_save_minimal filename description :
  keeps (save_dialog erase_char expanduser getcwd (save_min_config w K fuel) filename description).
Proof using HK. apply keeps_save_dialog. intros f. apply write_min_config_keeps. Qed.
#[local] Hint Resolve keeps_save_as keeps_save_minimal : menu_keeps.

Lemma keeps_quit_loop f filename : keeps (quit_loop w K fuel f filename).
Proof using HK. induction f as [|f IH]; cbn [quit_loop]; keeps. Qed.
#[local] Hint Resolve keeps_quit_loop : menu_keeps.

Lemma keeps_quit : keeps (quit_dialog w K fuel).
Proof using HK. unfold quit_dialog. keeps. Qed.
#[local] Hint Resolve keeps_quit : menu_keeps.

Lemma keeps_info_loop f on_search lines scroll :
  (∀ m, on_search = Some m → keeps m) → keeps (info_loop erase_char f on_search lines scroll).
Proof using Type.
  intros Hs. revert scroll. induction f as [|f IH]; intros scroll; cbn [info_loop]; keeps.
Qed.

Lemma keeps_info n on_search : (∀ m, on_search = Some m → keeps m) → keeps (info_dialog K fuel erase_char n on_search).
Proof using Type. intros Hs. unfold info_dialog. keeps. by apply keeps_info_loop. Qed.

Lemma keeps_info_alone n : keeps (info_dialog K fuel erase_char n None).
Proof using Type. by apply keeps_info. Qed.
#[local] Hint Resolve keeps_info_alone : menu_keeps.

Lemma keeps_jump_loop f j : keeps (jump_to_loop K fuel erase_char re_search f j).
Proof using Type.
  revert j. induction f as [|f IH]; intros j; cbn [jump_to_loop]; keeps.
  apply keeps_on_view_. intros σ v v' _. apply jump_to_ok.
Qed.
#[local] Hint Resolve keeps_jump_loop : menu_keeps.

Lemma keeps_jump_dialog : keeps (jump_to_dialog K fuel erase_char re_search).
Proof using Type. unfold jump_to_dialog. keeps. Qed.
#[local] Hint Resolve keeps_jump_dialog : menu_keeps.

Lemma keeps_info_search n : keeps (info_dialog K fuel erase_char n (Some (jump_to_dialog K fuel erase_char re_search))).
Proof using Type. apply keeps_info. intros m [= <-]. apply keeps_jump_dialog. Qed.
#[local] Hint Resolve keeps_info_search : menu_keeps.

Lemma keeps_enter n : keeps (on_view (enter_menu K fuel n)).
Proof using Type. apply keeps_on_view. intros σ v b v' _. apply enter_menu_ok. Qed.
#[local] Hint Resolve keeps_enter : menu_keeps.

(** ** The main loop *)
Lemma keeps_handle_key c : keeps (handle_key w K fuel erase_char expanduser getcwd re_search c).
Proof using HK Hdef.
  unfold handle_key, repeat_move. keeps;
    first [ apply keeps_move; intros v Hv;
              first [ by apply select_next_ok | by apply select_prev_ok | by apply select_last_ok
                    | by apply select_first_ok
                    | apply iter_ok; [|done]; intros v' Hv'; first [by apply select_next_ok|by apply select_prev_ok] ]
          | apply keeps_on_view_; intros σ v v' _; apply toggle_show_all_ok ].
Qed.

Lemma keeps_main_loop f : keeps (main_loop w K fuel erase_char expanduser getcwd re_search f).
Proof using HK Hdef.
  induction f as [|f IH]; intros u r u' Hu; cbn [main_loop].
  - by intros [= <- <-].
  - destruct (u_events u) eqn:He; [by intros [= <- <-]|].
    refine (keeps_bind _ _ keeps_getch (λ c, keeps_bind _ _ (keeps_handle_key c) _) u r u' Hu).
    intros [msg|]; [apply keeps_ret|apply IH].
Qed.

(** ** The start *)

Lemma on_reader_ok {A} (f : session → outcome (A * session)) h a h' : reader (K := K) f →
  session_ok (K := K) (h_session h) → on_session f h = Ok (a, h') → session_ok (K := K) (h_session h').
Proof using Type.
  intros Hf Hok. unfold on_session. rewrite obind_Ok. intros ([x σ'] & Hx & [= _ <-]). by eapply Hf.
Qed.

Lemma first_defconfig_ok l h o h' : session_ok (K := K) (h_session h) →
  first_defconfig w K fuel l h = Ok (o, h') → session_ok (K := K) (h_session h').
Proof using HK.
  revert h. induction l as [|[filename cond] l IH]; intros h Hok; cbn [first_defconfig]; [by intros [= _ <-]|].
  rewrite obind_Ok. intros ([v h1] & Hv & H). eapply on_reader_ok in Hv; [|apply reader_run; intros u; apply writes_expr_value|done].
  case_match; [by eapply IH|]. apply obind_Ok in H as ([name h2] & Hn & H).
  eapply on_reader_ok in Hn; [|apply reader_run; intros u; apply writes_default_str|done]. case_match; [|by eapply IH..]. case_match. by injection H as _ <-.
Qed.

Lemma defconfig_keeps h o h' : session_ok (K := K) (h_session h) →
  defconfig_filename w K fuel h = Ok (o, h') → session_ok (K := K) (h_session h').
Proof using HK.
  intros Hok. unfold defconfig_filename. repeat case_match;
    first [by intros [= _ <-] | by apply first_defconfig_ok].
Qed.

Lemma load_at_start_ok conf_filename h b h' : session_ok (K := K) (h_session h) →
  load_config_at_start w K fuel conf_filename h = Ok (b, h') → session_ok (K := K) (h_session h').
Proof using HK Hdef.
  intros Hok. unfold load_config_at_start. rewrite obind_Ok. intros ([msg h1] & Hl & Hrest).
  assert (session_ok (K := K) (h_session h1)) as Hok1.
  { clear Hrest. unfold load_config in Hl. case_match; [exact (load_config_keeps _ _ _ _ Hok Hl)|].
    apply obind_Ok in Hl as ([o h2] & Hd & Hl). apply defconfig_keeps in Hd; [|done].
    destruct o as [f|]; [exact (load_config_keeps _ _ _ _ Hd Hl)|by injection Hl as _ <-]. }
  case_match; [apply obind_Ok in Hrest as (c & _ & [= _ <-])|injection Hrest as _ <-]; done.
Qed.

Lemma disable_warnings_ok h : session_ok (K := K) (h_session h) → session_ok (K := K) (h_session (disable_warnings h)).
Proof using Type. intros [Hu [? ? ?]]. split; [done|]. by split. Qed.

Lemma start_ok screen h events u : session_ok (K := K) (h_session h) →
  start w K fuel screen h events = Ok (Some u) → ui_ok u.
Proof using HK Hdef.
  intros Hok. unfold start. rewrite obind_Ok. intros ([b h'] & Hl & H). apply load_at_start_ok in Hl; [|done].
  apply obind_Ok in H as (nodes & _ & H). apply obind_Ok in H as ([all nodes'] & _ & H).
  destruct nodes' as [|n l]; [done|]. injection H as <-. split; [by apply disable_warnings_ok|].
  split; cbn; unfold menu_win_height; try lia. by constructor.
Qed.
End Triples.
