(* ===== verification/MenuQuit.v ===== *)
(** * Leaving the terminal interface without losing changes

    The flag [_conf_changed] is what decides whether the program asks before it
    quits.  Whatever is typed, the user values change only with the flag set, by
    saving, or by loading a file; so the program ends only with values that were
    saved, that were loaded, or that the user chose not to save. *)

From S2P Require Import Prelude PyStr PyText Kconst Expr Escape Incr Objects ParseState.
From S2P Require Import Printing Values Reads Session Meaning Effects ConfigFile ConfigSession ConfigWrite ConfigText.
From S2P Require Import EditText MenuView MenuShown MenuNav MenuInfo MenuKeys MenuLoop MenuSafe.
From stdpp Require Import options.

Section Quit.
Context {K : kconfig} {fuel : nat} {HK : Loaded K fuel}.
Variable w : world.
Variable erase_char : option ascii.
Variable expanduser : string → string.
Variable getcwd : string.
Variable re_search : string → option (string → bool).

(** ** Where values are safe *)

Definition values (u : ui) : ustate := uvals (h_session (u_host u)).

(** The file holds what [write_config] writes for the values of the session. *)
Definition saved_in (filename : string) (h : host) : Prop :=
  ∃ σ text σ', session_ok (K := K) σ ∧ uvals σ = uvals (h_session h) ∧
    config_contents K fuel None σ = Ok (text, σ') ∧ (universal_newlines text = text → open_read filename h = Some text).

(** The values of the session are those of the file. *)
Definition loaded_from (filename : string) (h : host) : Prop :=
  ∃ opened text before, open_config w K filename h = Ok (opened, text) ∧
    uvals (h_session h) = st_u (spec_load K true text before).

Definition safe (u : ui) : Prop :=
  saved_in (u_conf_filename u) (u_host u) ∨ loaded_from (u_conf_filename u) (u_host u).

(** The states before each key, from the state in which the program starts. *)
Inductive run (u0 : ui) : ui → Prop :=
  | run_start : run u0 u0
  | run_key u c u1 u2 : run u0 u → getch u = Ok (c, u1) →
      handle_key w K fuel erase_char expanduser getcwd re_search c u1 = Ok (None, u2) → run u0 u2.

(** ** What leaves the configuration alone *)

Definition same (u u' : ui) : Prop :=
  u_host u' = u_host u ∧ u_conf_changed u' = u_conf_changed u ∧ u_conf_filename u' = u_conf_filename u.
Definition quiet {A} (m : U A) : Prop := ∀ u a u', m u = Ok (a, u') → same u u'.

Lemma same_refl u : same u u.
Proof using Type. done. Qed.
Lemma same_trans u1 u2 u3 : same u1 u2 → same u2 u3 → same u1 u3.
Proof using Type. intros (? & ? & ?) (? & ? & ?). split_and!; congruence. Qed.

Lemma quiet_ret {A} (a : A) : quiet (mret a).
Proof using Type. by intros u b u' [= <- <-]. Qed.
Lemma quiet_bind {A B} (m : U A) (f : A → U B) : quiet m → (∀ a, quiet (f a)) → quiet (m ≫= f).
Proof using Type.
  intros Hm Hf u b u' Hb. unfold mbind, U_bind in Hb. apply obind_Ok in Hb as ([a u1] & Ha & Hb).
  eapply same_trans; [by eapply Hm|by eapply Hf].
Qed.
Lemma quiet_wait {A} : quiet (uwait (A := A)).
Proof using Type. by intros u a u'. Qed.
Lemma quiet_get {A} (f : ui → A) : quiet (uget f).
Proof using Type. by intros u a u' [= <- <-]. Qed.
Lemma quiet_reading {A} (f : session → outcome A) : quiet (reading f).
Proof using Type. intros u a u'. unfold reading. rewrite obind_Ok. by intros (b & _ & [= <- <-]). Qed.
Lemma quiet_lift {A} (o : outcome A) : quiet (ulift o).
Proof using Type. intros u a u'. unfold ulift. rewrite obind_Ok. by intros (b & _ & [= <- <-]). Qed.
Lemma quiet_modify (f : ui → ui) : (∀ u, same u (f u)) → quiet (umodify f).
Proof using Type. by intros Hf u a u' [= <- <-]. Qed.
Lemma quiet_on_view {A} (f : session → view → outcome (A * view)) : quiet (on_view f).
Proof using Type. intros u a u'. unfold on_view. rewrite obind_Ok. by intros ([b v] & _ & [= <- <-]). Qed.
Lemma quiet_getch : quiet getch.
Proof using Type. intros u c u'. unfold getch. destruct (u_events u) as [|[k|y x] events]; [done|..]; by intros [= <- <-]. Qed.

Create HintDb quiet discriminated.
#[local] Hint Resolve quiet_ret quiet_wait quiet_get quiet_reading quiet_lift quiet_on_view quiet_getch : quiet.

Ltac quiet :=
  repeat first
    [ solve [auto with quiet]
    | match goal with
      | H : ∀ _, quiet _ |- quiet _ => apply H
      | H : ∀ _ _, quiet _ |- quiet _ => apply H
      | H : ∀ _ _ _, quiet _ |- quiet _ => apply H
      | H : quiet _ |- quiet _ => apply H
      end
    | apply quiet_bind; [|intros ?]
    | apply quiet_modify; by intros ?
    | match goal with |- quiet (match ?x with _ => _ end) => destruct x end
    | match goal with |- quiet (let '_ := ?x in _) => destruct x end ].

Lemma quiet_on_view_ (f : session → view → outcome view) : quiet (on_view_ f).
Proof using Type. apply quiet_on_view. Qed.
Lemma quiet_move (f : view → view) : quiet (move f).
Proof using Type. by apply quiet_modify. Qed.
Lemma quiet_resize : quiet resize_main.
Proof using Type. by apply quiet_modify. Qed.
#[local] Hint Resolve quiet_on_view_ quiet_move quiet_resize : quiet.

Lemma quiet_input_loop f title info s i hscroll : quiet (input_loop erase_char f title info s i hscroll).
Proof using Type. revert s i hscroll. induction f as [|f IH]; intros s i hscroll; cbn [input_loop]; quiet. Qed.
#[local] Hint Resolve quiet_input_loop : quiet.
Lemma quiet_input_dialog title s info : quiet (input_dialog erase_char title s info).
Proof using Type. unfold input_dialog. quiet. Qed.
#[local] Hint Resolve quiet_input_dialog : quiet.
Lemma quiet_key_loop f keys : quiet (key_loop f keys).
Proof using Type. induction f as [|f IH]; cbn [key_loop]; quiet. Qed.
#[local] Hint Resolve quiet_key_loop : quiet.
Lemma quiet_key_dialog keys : quiet (key_dialog keys).
Proof using Type. unfold key_dialog. quiet. Qed.
#[local] Hint Resolve quiet_key_dialog : quiet.
Lemma quiet_msg : quiet msg_dialog.
Proof using Type. unfold msg_dialog. quiet. Qed.
#[local] Hint Resolve quiet_msg : quiet.

Lemma quiet_info_loop f on_search lines scroll :
  (∀ m, on_search = Some m → quiet m) → quiet (info_loop erase_char f on_search lines scroll).
Proof using Type. intros Hs. revert scroll. induction f as [|f IH]; intros scroll; cbn [info_loop]; quiet. Qed.
Lemma quiet_info n on_search : (∀ m, on_search = Some m → quiet m) → quiet (info_dialog K fuel erase_char n on_search).
Proof using Type. intros Hs. unfold info_dialog. quiet. by apply quiet_info_loop. Qed.
Lemma quiet_info_alone n : quiet (info_dialog K fuel erase_char n None).
Proof using Type. by apply quiet_info. Qed.
#[local] Hint Resolve quiet_info_alone : quiet.
Lemma quiet_jump_loop f j : quiet (jump_to_loop K fuel erase_char re_search f j).
Proof using Type. revert j. induction f as [|f IH]; intros j; cbn [jump_to_loop]; quiet. Qed.
#[local] Hint Resolve quiet_jump_loop : quiet.
Lemma quiet_jump_dialog : quiet (jump_to_dialog K fuel erase_char re_search).
Proof using Type. unfold jump_to_dialog. quiet. Qed.
#[local] Hint Resolve quiet_jump_dialog : quiet.
Lemma quiet_info_search n : quiet (info_dialog K fuel erase_char n (Some (jump_to_dialog K fuel erase_char re_search))).
Proof using Type. apply quiet_info. intros m [= <-]. apply quiet_jump_dialog. Qed.
#[local] Hint Resolve quiet_info_search : quiet.

(** ** What flags its changes *)

Definition moved (u u' : ui) : Prop :=
  u_conf_filename u' = u_conf_filename u ∧
  (u_conf_changed u' = true ∨ u_conf_changed u' = u_conf_changed u ∧ values u' = values u).
Definition flagged {A} (m : U A) : Prop := ∀ u a u', m u = Ok (a, u') → moved u u'.

Lemma moved_trans u1 u2 u3 : moved u1 u2 → moved u2 u3 → moved u1 u3.
Proof using Type.
  intros [E1 H1] [E2 H2]. split; [congruence|]. destruct H2 as [H2|[H2 V2]]; [by left|].
  destruct H1 as [H1|[H1 V1]]; [left; congruence|right; split; congruence].
Qed.
Lemma same_moved u u' : same u u' → moved u u'.
Proof using Type. intros (H1 & H2 & H3). split; [done|]. right. split; [done|]. unfold values. by rewrite H1. Qed.

Lemma flagged_quiet {A} (m : U A) : quiet m → flagged m.
Proof using Type. intros Hm u a u' E. eapply same_moved. by eapply Hm. Qed.
Lemma flagged_bind {A B} (m : U A) (f : A → U B) : flagged m → (∀ a, flagged (f a)) → flagged (m ≫= f).
Proof using Type.
  intros Hm Hf u b u' Hb. unfold mbind, U_bind in Hb. apply obind_Ok in Hb as ([a u1] & Ha & Hb).
  eapply moved_trans; [by eapply Hm|by eapply Hf].
Qed.

Create HintDb flagged discriminated.
Ltac flagged :=
  repeat first
    [ solve [auto with flagged]
    | apply flagged_quiet; solve [auto with quiet]
    | match goal with
      | H : ∀ _, flagged _ |- flagged _ => apply H
      | H : flagged _ |- flagged _ => apply H
      end
    | apply flagged_bind; [|intros ?]
    | match goal with |- flagged (match ?x with _ => _ end) => destruct x end
    | match goal with |- flagged (let '_ := ?x in _) => destruct x end ].

Lemma flagged_set_val i val : flagged (set_val K fuel i val).
Proof using Type.
  unfold set_val. apply flagged_bind; [flagged|]. intros old. case_bool_decide; [flagged|].
  intros u a u' E. unfold mbind, U_bind in E. apply obind_Ok in E as ([b u1] & E1 & E).
  unfold on_host in E1. apply obind_Ok in E1 as ([c h] & _ & [= <- <-]).
  apply obind_Ok in E as ([d u2] & [= <- <-] & E). apply quiet_on_view_ in E as (_ & H2 & H3).
  split; [by rewrite H3|]. left. by rewrite H2.
Qed.
#[local] Hint Resolve flagged_set_val : flagged.
Lemma flagged_value_dialog f i title s : flagged (value_dialog K fuel erase_char f i title s).
Proof using Type. revert s. induction f as [|f IH]; intros s; cbn [value_dialog]; flagged. Qed.
#[local] Hint Resolve flagged_value_dialog : flagged.
Lemma flagged_change_node n : flagged (change_node K fuel erase_char n).
Proof using Type. unfold change_node. flagged. Qed.
#[local] Hint Resolve flagged_change_node : flagged.
Lemma flagged_set_tri z : flagged (set_sel_node_tri_val K fuel z).
Proof using Type. unfold set_sel_node_tri_val. flagged. Qed.
#[local] Hint Resolve flagged_set_tri : flagged.

(** ** Saving *)

Lemma write_config_saves filename h msg h' :
  session_ok (K := K) (h_session h) → write_config w K fuel (Some filename) None true h = (Ok msg, h') →
  saved_in filename h'.
Proof using HK.
  intros Hok E. destruct (write_config_keeps w (Some filename) None true h Hok) as [_ Hu]. rewrite E in Hu. cbn [snd] in Hu.
  unfold write_config in E. destruct (config_contents K fuel None (h_session h)) as [[text σ']|e|] eqn:Hc;
    [|unfold io_lift, on_session, mbind, HIO_bind in E; by rewrite Hc in E..].
  exists (h_session h), text, σ'. split_and!; [done|done|done|].
  rewrite (io_bind_ok _ _ _ _ _ (io_on_session _ h _ _ Hc)) in E. erewrite io_bind_ok in E by reflexivity.
  cbn [from_option] in E. unfold id in E.
  destruct (contents_eq filename text (set_h_session σ' h)) eqn:He.
  { injection E as <- <-. intros _. by apply bool_decide_eq_true in He. }
  erewrite io_bind_ok in E by reflexivity.
  match type of E with (_ ?h2) = _ => set (h2' := h2) in E end.
  intros Hn. destruct (write_file_cases w filename text h2') as [Hw|[(e & Hw)|(e & n & Hw)]].
  - rewrite (io_bind_ok _ _ _ _ _ Hw) in E. injection E as <- <-. unfold open_read. cbn. rewrite lookup_insert_eq. cbn. by rewrite Hn.
  - by rewrite (io_bind_raise _ _ _ _ _ Hw) in E.
  - by rewrite (io_bind_raise _ _ _ _ _ Hw) in E.
Qed.

(** What saving leaves alone, and what the host is after a success. *)
Definition stays (u u' : ui) : Prop :=
  session_ok (K := K) (h_session (u_host u')) ∧ values u' = values u ∧
  u_conf_changed u' = u_conf_changed u ∧ u_conf_filename u' = u_conf_filename u.

Lemma stays_trans u1 u2 u3 : stays u1 u2 → stays u2 u3 → stays u1 u3.
Proof using Type. intros (? & ? & ? & ?) (? & ? & ? & ?). split_and!; congruence. Qed.
Lemma same_stays u u' : session_ok (K := K) (h_session (u_host u)) → same u u' → stays u u'.
Proof using Type. intros Hok (E & ? & ?). unfold stays, values. by rewrite E. Qed.

Definition wrote (save_fn : string → HIO string) (filename : string) (u : ui) : Prop :=
  ∃ h msg, session_ok (K := K) (h_session h) ∧ save_fn filename h = (Ok msg, u_host u).

Lemma wrote_same save_fn filename u u' : same u u' → wrote save_fn filename u → wrote save_fn filename u'.
Proof using Type. intros (E & _) (h & msg & Hok & Hw). exists h, msg. by rewrite E. Qed.

Lemma try_save_result save_fn filename u r u' :
  io_keeps (K := K) (save_fn filename) → session_ok (K := K) (h_session (u_host u)) →
  try_save save_fn filename u = Ok (r, u') → stays u u' ∧ (is_Some r → wrote save_fn filename u').
Proof using Type.
  intros Hs Hok. unfold try_save. destruct (Hs (u_host u) Hok) as [Hok' Hu'].
  destruct (save_fn filename (u_host u)) as [[msg|e|] h] eqn:E; [|destruct e; try done|done]; cbn [snd] in *.
  - intros [= <- <-]. split; [by split_and!|]. intros _. by exists (u_host u), msg.
  - intros Hm. pose proof (quiet_bind msg_dialog (λ _, mret (None : option string)) quiet_msg (λ _, quiet_ret None) _ _ _ Hm) as Hsame. split.
    + eapply stays_trans; [|by apply same_stays; [|exact Hsame]]. by split_and!.
    + unfold mbind, U_bind in Hm. apply obind_Ok in Hm as ([[] u1] & _ & Hm). injection Hm as <- <-. by intros [].
Qed.

Lemma save_loop_result f save_fn filename description u r u' :
  (∀ filename, io_keeps (K := K) (save_fn filename)) → session_ok (K := K) (h_session (u_host u)) →
  save_loop erase_char expanduser getcwd f save_fn filename description u = Ok (r, u') →
  stays u u' ∧ (∀ filename, r = Some filename → wrote save_fn filename u').
Proof using Type.
  intros Hs. revert filename u. induction f as [|f IH]; intros filename u Hok; [done|]. cbn [save_loop].
  unfold mbind, U_bind. rewrite obind_Ok. intros ([o u1] & H1 & H). apply quiet_input_dialog in H1.
  pose proof (same_stays u u1 Hok H1) as S1. destruct o as [name|]; [|injection H as <- <-; by split].
  apply obind_Ok in H as ([m u2] & H2 & H). cbv zeta in H2.
  destruct (try_save_result _ _ _ _ _ (Hs _) (proj1 S1) H2) as [S2 W2].
  destruct m as [msg|].
  - apply obind_Ok in H as ([[] u3] & H3 & [= <- <-]). apply quiet_msg in H3.
    split; [|intros ? [= <-]; by eapply wrote_same; [|apply W2]].
    eapply stays_trans; [exact S1|]. eapply stays_trans; [exact S2|]. by apply same_stays; [apply S2|].
  - destruct (IH _ _ (proj1 S2) H) as [S3 W3]. split; [|done].
    eapply stays_trans; [exact S1|]. by eapply stays_trans.
Qed.

Lemma save_dialog_result save_fn filename description u r u' :
  (∀ filename, io_keeps (K := K) (save_fn filename)) → session_ok (K := K) (h_session (u_host u)) →
  save_dialog erase_char expanduser getcwd save_fn filename description u = Ok (r, u') →
  stays u u' ∧ (∀ filename, r = Some filename → wrote save_fn filename u').
Proof using Type. intros Hs Hok H. exact (save_loop_result _ _ _ _ _ _ _ Hs Hok H). Qed.

Lemma save_config_keeps filename : io_keeps (K := K) (save_config w K fuel filename).
Proof using HK. apply write_config_keeps. Qed.
Lemma save_min_config_keeps filename : io_keeps (K := K) (save_min_config w K fuel filename).
Proof using HK. apply write_min_config_keeps. Qed.

Lemma wrote_saved filename u : wrote (save_config w K fuel) filename u → saved_in filename (u_host u).
Proof using HK. intros (h & msg & Hok & E). by eapply write_config_saves. Qed.

(** ** Quitting *)

Definition not_saved_msg (filename : string) : string := "Configuration (" +:+ filename +:+ ") was not saved".

Lemma quit_loop_result f filename u r u' :
  session_ok (K := K) (h_session (u_host u)) → quit_loop w K fuel f filename u = Ok (r, u') →
  stays u u' ∧ (∀ msg, r = Some msg → msg = not_saved_msg filename ∨ saved_in filename (u_host u')).
Proof using HK.
  revert u. induction f as [|f IH]; intros u Hok; [done|]. cbn [quit_loop].
  unfold mbind, U_bind. rewrite obind_Ok. intros ([c u1] & H1 & H). apply quiet_key_dialog in H1.
  pose proof (same_stays u u1 Hok H1) as S1. case_bool_decide.
  - apply obind_Ok in H as ([m u2] & H2 & H).
    destruct (try_save_result _ _ _ _ _ (save_config_keeps _) (proj1 S1) H2) as [S2 W2].
    destruct m as [msg|].
    + injection H as <- <-. split; [by eapply stays_trans|]. intros msg' _. right. by apply wrote_saved, W2.
    + destruct (IH _ (proj1 S2) H) as [S3 W3]. split; [|done]. eapply stays_trans; [exact S1|]. by eapply stays_trans.
  - case_bool_decide; injection H as <- <-; (split; [done|]); [intros ? [= <-]; by left|done].
Qed.

Lemma quit_dialog_result u r u' :
  session_ok (K := K) (h_session (u_host u)) → quit_dialog w K fuel u = Ok (r, u') →
  stays u u' ∧ (∀ msg, r = Some msg →
    u_conf_changed u = false ∨ msg = not_saved_msg (u_conf_filename u') ∨ saved_in (u_conf_filename u') (u_host u')).
Proof using HK.
  intros Hok. unfold quit_dialog, mbind, U_bind, uget. cbn [obind]. destruct (u_conf_changed u) eqn:Hc.
  - intros H. destruct (quit_loop_result _ _ _ _ _ Hok H) as [S W]. split; [done|]. intros msg Hm. right.
    destruct S as (_ & _ & _ & ->). by apply W.
  - intros [= <- <-]. split; [|intros; by left]. by apply same_stays.
Qed.

(** ** Loading *)
Hypothesis Hdef : names_defined (K := K).

Lemma U_bind_Ok {A B} (m : U A) (f : A → U B) u b u' :
  (m ≫= f) u = Ok (b, u') → ∃ a u1, m u = Ok (a, u1) ∧ f a u1 = Ok (b, u').
Proof using Type. unfold mbind, U_bind. rewrite obind_Ok. intros ([a u1] & H). by exists a, u1. Qed.

Lemma open_config_files filename h h' : h_files h' = h_files h → open_config w K filename h' = open_config w K filename h.
Proof using Type. intros E. unfold open_config, open_read. by rewrite E. Qed.

Lemma load_named_loads filename msg0 h msg h' :
  session_ok (K := K) (h_session h) → load_named w K filename msg0 true h = Ok (msg, h') → loaded_from filename h'.
Proof using HK Hdef.
  intros Hok. unfold load_named. rewrite obind_Ok. intros (h2 & Hl & [= _ <-]).
  set (h0 := set_h_session (set_no_prompt_warning false (h_session h)) h) in *.
  assert (session_ok (K := K) (h_session h0)) as Hok0 by by apply no_prompt_warning_ok.
  destruct (open_config w K filename h0) as [[opened text]| |] eqn:Ho;
    [|unfold load_config_file in Hl; by rewrite Ho in Hl..].
  destruct (load_config_file_ok Hdef w filename opened text true h0 Hok0) as (h3 & H3 & _ & Hs & _ & Hf); [done|done|].
  rewrite Hl in H3. injection H3 as <-. exists opened, text, (settings_of (h_session h0)). split.
  - rewrite <- Ho. by apply open_config_files.
  - by rewrite <- Hs.
Qed.

Definition loads (u u' : ui) : Prop :=
  session_ok (K := K) (h_session (u_host u')) ∧ (same u u' ∨ loaded_from (u_conf_filename u') (u_host u')).

Lemma loads_trans u1 u2 u3 : loads u1 u2 → same u2 u3 → loads u1 u3.
Proof using Type.
  intros [Hok H] S. pose proof S as (E & Ec & Ef). split; [by rewrite E|]. destruct H as [H|H].
  - left. by eapply same_trans.
  - right. by rewrite E, Ef.
Qed.

Lemma load_loop_result f filename u r u' :
  session_ok (K := K) (h_session (u_host u)) →
  load_loop w K fuel erase_char expanduser getcwd f filename u = Ok (r, u') → loads u u'.
Proof using HK Hdef.
  revert filename u. induction f as [|f IH]; intros filename u Hok; [done|]. cbn [load_loop].
  unfold mbind at 1, U_bind at 1. rewrite obind_Ok. intros ([o u1] & H1 & H). apply quiet_input_dialog in H1 as S1.
  assert (session_ok (K := K) (h_session (u_host u1))) as Hok1 by (by destruct S1 as [-> _]).
  destruct o as [name|]; [|injection H as <- <-; split; [done|by left]]. cbv zeta in H.
  unfold mbind at 1, U_bind at 1 in H. apply obind_Ok in H as ([b u2] & H2 & H).
  unfold try_load in H2. cbn [load_config] in H2.
  destruct (load_named _ _ _ _ _ _) as [[msg h]|e|] eqn:Hl; [|destruct e; try done|done].
  - injection H2 as <- <-. pose proof (load_config_keeps w Hdef _ _ _ _ Hok1 Hl) as Hok2. cbn [snd] in Hok2.
    pose proof (load_named_loads _ _ _ _ _ Hok1 Hl) as Hload. cbv iota in H.
    apply U_bind_Ok in H as (_ & u2 & [= _ <-] & H). apply U_bind_Ok in H as (c & u3 & H3 & H).
    apply obind_Ok in H3 as (c' & _ & [= <- <-]). apply U_bind_Ok in H as (_ & u4 & [= _ <-] & H).
    match type of H with ?m ?u0 = _ =>
      assert (quiet m) as Hq by quiet; apply (loads_trans u u0 u'); [split; [exact Hok2|right; exact Hload]|apply (Hq _ _ _ H)]
    end.
  - pose proof (quiet_bind msg_dialog (λ _, mret false) quiet_msg (λ _, quiet_ret false) _ _ _ H2) as S2.
    assert (session_ok (K := K) (h_session (u_host u2))) as Hok2 by (by destruct S2 as [-> _]).
    unfold mbind, U_bind in H2. apply obind_Ok in H2 as ([[] u3] & _ & [= <- <-]).
    destruct (IH _ _ Hok2 H) as [Hok' [S|L]]; split; try done; [left|by right].
    eapply same_trans; [exact S1|]. by eapply same_trans.
Qed.

Lemma load_dialog_result u r u' :
  session_ok (K := K) (h_session (u_host u)) →
  load_dialog w K fuel erase_char expanduser getcwd u = Ok (r, u') → loads u u'.
Proof using HK Hdef.
  intros Hok. unfold load_dialog. unfold mbind at 1, U_bind at 1, uget at 1. cbn [obind].
  unfold mbind at 1, U_bind at 1. rewrite obind_Ok. intros ([go u1] & H1 & H).
  match type of H1 with ?m ?u0 = _ => assert (quiet m) as Hq by quiet end. apply Hq in H1.
  assert (session_ok (K := K) (h_session (u_host u1))) as Hok1 by (by destruct H1 as [-> _]).
  destruct go; [|injection H as <- <-; split; [done|by left]].
  destruct (load_loop_result _ _ _ _ _ Hok1 H) as [Hok' [S|L]]; split; try done; [left|by right].
  by eapply same_trans.
Qed.

(** ** One key *)

(** What a key does to the configuration. *)
Inductive effect (u u' : ui) : Prop :=
  | flags : moved u u' → effect u u'
  | saves_it : saved_in (u_conf_filename u') (u_host u') → effect u u'
  | loads_it : loaded_from (u_conf_filename u') (u_host u') → effect u u'.

Lemma stays_moved u u' : stays u u' → moved u u'.
Proof using Type. intros (_ & H1 & H2 & H3). split; [done|]. by right. Qed.

Definition key_result (r : option string) (u u' : ui) : Prop :=
  match r with
  | None => effect u u'
  | Some msg => stays u u' ∧ (u_conf_changed u = false ∨ msg = not_saved_msg (u_conf_filename u') ∨
      saved_in (u_conf_filename u') (u_host u'))
  end.

Lemma quiet_result {A} (m : U A) u r u' : quiet m → (m;; mret (None : option string)) u = Ok (r, u') → key_result r u u'.
Proof using Type.
  intros Hm H. apply U_bind_Ok in H as (a & u1 & H1 & [= <- <-]). apply flags, same_moved. by eapply Hm.
Qed.

Lemma flagged_result {A} (m : U A) u r u' : flagged m → (m;; mret (None : option string)) u = Ok (r, u') → key_result r u u'.
Proof using Type. intros Hm H. apply U_bind_Ok in H as (a & u1 & H1 & [= <- <-]). apply flags. by eapply Hm. Qed.

Lemma quit_result u r u' : session_ok (K := K) (h_session (u_host u)) →
  quit_dialog w K fuel u = Ok (r, u') → key_result r u u'.
Proof using HK.
  intros Hok H. destruct (quit_dialog_result _ _ _ Hok H) as [S W].
  destruct r as [msg|]; [split; [done|by apply W]|by apply flags, stays_moved].
Qed.

(** The key s *)
Lemma save_key_result u r u' : session_ok (K := K) (h_session (u_host u)) →
  (filename ← uget u_conf_filename;
   r ← save_dialog erase_char expanduser getcwd (save_config w K fuel) filename "configuration";
   match r with
   | Some filename =>
       if bool_decide (filename = "") then mret (None : option string)
       else
         umodify (λ u, set_u_conf_changed false (set_u_filenames filename (u_minconf_filename u) u));;
         mret None
   | None => mret None
   end) u = Ok (r, u') → key_result r u u'.
Proof using HK.
  intros Hok H. apply U_bind_Ok in H as (F & u0 & [= <- <-] & H). apply U_bind_Ok in H as (o & u1 & H1 & H).
  destruct (save_dialog_result _ _ _ _ _ _ save_config_keeps Hok H1) as [S W].
  destruct o as [filename|]; [|injection H as <- <-; by apply flags, stays_moved].
  case_bool_decide; [injection H as <- <-; by apply flags, stays_moved|].
  injection H as <- <-. apply saves_it. cbn. by apply wrote_saved, W.
Qed.

(** The key d *)
Lemma save_min_key_result u r u' : session_ok (K := K) (h_session (u_host u)) →
  (filename ← uget u_minconf_filename;
   r ← save_dialog erase_char expanduser getcwd (save_min_config w K fuel) filename "minimal configuration";
   match r with
   | Some filename =>
       if bool_decide (filename = "") then mret (None : option string)
       else umodify (λ u, set_u_filenames (u_conf_filename u) filename u);; mret None
   | None => mret None
   end) u = Ok (r, u') → key_result r u u'.
Proof using HK.
  intros Hok H. apply U_bind_Ok in H as (F & u0 & [= <- <-] & H). apply U_bind_Ok in H as (o & u1 & H1 & H).
  destruct (save_dialog_result _ _ _ _ _ _ save_min_config_keeps Hok H1) as [S _]. apply stays_moved in S.
  destruct o as [filename|]; [|injection H as <- <-; by apply flags].
  case_bool_decide; injection H as <- <-; by apply flags.
Qed.

Lemma load_key_result u r u' : session_ok (K := K) (h_session (u_host u)) →
  (load_dialog w K fuel erase_char expanduser getcwd;; mret (None : option string)) u = Ok (r, u') → key_result r u u'.
Proof using HK Hdef.
  intros Hok H. apply U_bind_Ok in H as (a & u1 & H1 & [= <- <-]).
  destruct (load_dialog_result _ _ _ Hok H1) as [_ [S|L]]; [by apply flags, same_moved|by apply loads_it].
Qed.

(** Entering a menu, or changing the node if there is none; and the other way
    around. *)
Lemma open_or_change_result {A} (m : U bool) (f : U A) u r u' : flagged m → flagged f →
  (b ← m; if (b : bool) then mret (None : option string) else f;; mret None) u = Ok (r, u') → key_result r u u'.
Proof using Type.
  intros Hm Hf H. apply U_bind_Ok in H as (b & u1 & H1 & H). apply Hm in H1. destruct b.
  - injection H as <- <-. by apply flags.
  - apply U_bind_Ok in H as (a & u2 & H2 & [= <- <-]). apply Hf in H2. apply flags. by eapply moved_trans.
Qed.

Lemma after_quiet {A} (m : U A) (f : A → U (option string)) u r u' :
  session_ok (K := K) (h_session (u_host u)) → quiet m →
  (∀ a u1, session_ok (K := K) (h_session (u_host u1)) → f a u1 = Ok (r, u') → key_result r u1 u') →
  (m ≫= f) u = Ok (r, u') → key_result r u u'.
Proof using Type.
  intros Hok Hm Hf H. apply U_bind_Ok in H as (a & u1 & H1 & H). apply Hm in H1.
  apply Hf in H; [|by destruct H1 as [-> _]]. destruct r as [msg|]; cbn in *.
  - destruct H as [S W]. destruct (same_stays _ _ Hok H1) as (V1 & V2 & V3 & V4).
    split; [by eapply stays_trans; [|exact S]|]. by rewrite <- V3.
  - destruct H as [M|Sv|L]; [|by apply saves_it|by apply loads_it].
    apply flags. eapply moved_trans; [by apply same_moved|done].
Qed.

Lemma key_effect c u r u' : session_ok (K := K) (h_session (u_host u)) →
  handle_key w K fuel erase_char expanduser getcwd re_search c u = Ok (r, u') → key_result r u u'.
Proof using HK Hdef.
  intros Hok. unfold handle_key, repeat_move.
  repeat match goal with |- (if ?b then _ else _) _ = _ → _ => destruct b end;
    lazymatch goal with
    | |- context [load_dialog] => apply load_key_result; exact Hok
    | |- context [save_config] => apply save_key_result; exact Hok
    | |- context [save_min_config] => apply save_min_key_result; exact Hok
    | |- quit_dialog _ _ _ _ = _ → _ => apply quit_result; exact Hok
    | |- (on_view _ ≫= _) _ = _ → _ => apply after_quiet; [exact Hok|quiet|intros n u1 Hok1]
    | |- (uget _ ≫= _) _ = _ → _ => apply after_quiet; [exact Hok|quiet|intros n u1 Hok1]
    | |- context [set_sel_node_tri_val] => apply flagged_result; auto with flagged
    | |- (_;; _) _ = _ → _ => apply quiet_result; quiet
    | |- mret _ _ = _ → _ => intros [= <- <-]; apply flags, same_moved, same_refl
    end.
  - apply open_or_change_result; flagged.
  - apply open_or_change_result; flagged.
  - case_match; [by apply quit_result|apply quiet_result; quiet].
  - apply quiet_result. quiet.
Qed.

(** ** Whole runs *)

(** Quitting is safe at a state whose flag is down: its values were safe at some
    moment of the run under the name of the configuration file. *)
Definition settled (u0 u : ui) : Prop :=
  ∃ um, run u0 um ∧ safe um ∧ values u = values um ∧ u_conf_filename u = u_conf_filename um.

Lemma run_settled u0 u : ui_ok (K := K) u0 → (u_conf_changed u0 = false → safe u0) → run u0 u →
  ui_ok (K := K) u ∧ (u_conf_changed u = false → settled u0 u).
Proof using HK Hdef.
  intros Hok0 H0 Hr. induction Hr as [|u c u1 u2 Hr [Hok IH] Hg Hk].
  { split; [done|]. intros Hc. exists u0. split_and!; [constructor|by apply H0|done|done]. }
  pose proof (keeps_getch u c u1 Hok Hg) as Hok1.
  pose proof (keeps_handle_key w erase_char expanduser getcwd re_search Hdef c u1 None u2 Hok1 Hk) as Hok2.
  split; [done|]. intros Hc. apply quiet_getch in Hg as Hs. destruct Hs as (E1 & E2 & E3).
  assert (run u0 u2) as Hr2 by (by eapply run_key).
  destruct (key_effect c u1 None u2 (proj1 Hok1) Hk) as [[F M]|Sv|L].
  - destruct M as [M|[M V]]; [congruence|]. destruct (IH ltac:(congruence)) as (um & R & S & Vm & Fm).
    exists um. split_and!; [done|done| |congruence]. rewrite V. unfold values in *. by rewrite E1.
  - exists u2. split_and!; [done|by left|done|done].
  - exists u2. split_and!; [done|by right|done|done].
Qed.

(** ** The start *)

Lemma load_named_files filename msg0 h msg h' :
  session_ok (K := K) (h_session h) → load_named w K filename msg0 true h = Ok (msg, h') → h_files h' = h_files h.
Proof using HK Hdef.
  intros Hok. unfold load_named. rewrite obind_Ok. intros (h2 & Hl & [= _ <-]).
  set (h0 := set_h_session (set_no_prompt_warning false (h_session h)) h) in *.
  assert (session_ok (K := K) (h_session h0)) as Hok0 by by apply no_prompt_warning_ok.
  destruct (open_config w K filename h0) as [[opened text]| |] eqn:Ho;
    [|unfold load_config_file in Hl; by rewrite Ho in Hl..].
  destruct (load_config_file_ok Hdef w filename opened text true h0 Hok0) as (h3 & H3 & _ & _ & _ & Hf); [done|done|].
  rewrite Hl in H3. by injection H3 as <-.
Qed.

Lemma first_defconfig_files l h o h' : first_defconfig w K fuel l h = Ok (o, h') → h_files h' = h_files h.
Proof using Type.
  revert h. induction l as [|[filename cond] l IH]; intros h; cbn [first_defconfig]; [by intros [= _ <-]|].
  unfold on_session. rewrite obind_Ok. intros ([v h1] & Hv & H). apply obind_Ok in Hv as ([v' σ1] & _ & [= <- <-]).
  case_match; [by apply IH in H|]. apply obind_Ok in H as ([name h2] & Hn & H). apply obind_Ok in Hn as ([n' σ2] & _ & [= <- <-]).
  destruct (open_config _ _ _ _) as [[opened text]|e|]; [by injection H as _ <-|by apply IH in H..].
Qed.

(** What [_load_config] reports as saved was loaded. *)
Lemma load_at_start_safe h h' : session_ok (K := K) (h_session h) →
  load_config_at_start w K fuel (standard_config_filename w) h = Ok (false, h') →
  loaded_from (standard_config_filename w) h'.
Proof using HK Hdef.
  intros Hok Hl.
  unfold load_config_at_start in Hl. apply obind_Ok in Hl as ([msg h1] & Hl & H).
  destruct (exists_file _ (print msg h1)) eqn:He; [|done]. apply obind_Ok in H as (c & _ & [= _ <-]).
  assert (loaded_from (standard_config_filename w) h1) as (opened & text & before & Ho & Hu).
  2:{ exists opened, text, before. split; [|done]. rewrite <- Ho. by apply open_config_files. }
  change (exists_file (standard_config_filename w) h1 = true) in He. unfold load_config in Hl. cbv zeta in Hl.
  destruct (exists_file (standard_config_filename w) h) eqn:He0; cbn [orb] in Hl; [by eapply load_named_loads|].
  destruct (exists_file (path_join _ _) h) eqn:He1; cbn [orb] in Hl; [by eapply load_named_loads|]. exfalso.
  apply obind_Ok in Hl as ([o h2] & Hd & Hl).
  assert (h_files h2 = h_files h) as Hf2.
  { unfold defconfig_filename in Hd. clear Hl. destruct (k_defconfig_list K) as [[]|];
      first [exact (first_defconfig_files _ _ _ _ Hd)|by simplify_eq]. }
  assert (h_files h1 = h_files h) as Hf1.
  { destruct o as [f|]; [|by injection Hl as _ <-]. rewrite <- Hf2. eapply load_named_files; [|exact Hl].
    by eapply defconfig_keeps in Hd. }
  unfold exists_file in *. by rewrite Hf1, He0 in He.
Qed.

Lemma start_safe screen h events u : session_ok (K := K) (h_session h) →
  start w K fuel screen h events = Ok (Some u) → u_conf_changed u = false → safe u.
Proof using HK Hdef.
  intros Hok. unfold start. rewrite obind_Ok. intros ([b h'] & Hl & H).
  apply obind_Ok in H as (nodes & _ & H). apply obind_Ok in H as ([all nodes'] & _ & H).
  destruct nodes' as [|n l]; [done|]. injection H as <-. cbn [u_conf_changed]. intros ->. right.
  exact (load_at_start_safe _ _ Hok Hl).
Qed.
End Quit.
