(* ===== verification/MenuDraw.v ===== *)
(** * What the terminal interface draws

    A curses window is a grid of cells with a cursor; the drawing functions of
    menuconfig write on windows, and the resizing functions lay them out on the
    screen.  Wrapping help texts is a parameter (the standard library's textwrap).
    Text is on one line, without control characters. *)

From S2P Require Import Prelude PyStr PyText Kconst Expr Escape Incr Objects ParseState.
From S2P Require Import Printing Values Reads Session ConfigFile ConfigWrite Repr.
From S2P Require Import EditText MenuView MenuNav MenuInfo MenuKeys MenuLoop.
From stdpp Require Import options.

(** ** Windows *)

Inductive glyph : Type := Char (c : ascii) | ACS_UARROW | ACS_DARROW | ACS_RARROW.

#[global] Instance glyph_eq_dec : EqDecision glyph.
Proof. solve_decision. Defined.

(** [win_style] is the style of the background, [win_attr] the one set by [attron].
    A cell that was never written shows a blank in the background style. *)
Record window : Type := Window {
  win_y : Z;
  win_x : Z;
  win_h : Z;
  win_w : Z;
  win_style : string;
  win_attr : option string;
  win_cells : gmap (Z * Z) (glyph * string);
  win_cursor : Z * Z
}.

Definition set_win_size (h w : Z) (W : window) : window :=
  Window (win_y W) (win_x W) h w (win_style W) (win_attr W) (win_cells W) (win_cursor W).
Definition set_win_style (style : string) (W : window) : window :=
  Window (win_y W) (win_x W) (win_h W) (win_w W) style (win_attr W) (win_cells W) (win_cursor W).
Definition set_win_attr (attr : option string) (W : window) : window :=
  Window (win_y W) (win_x W) (win_h W) (win_w W) (win_style W) attr (win_cells W) (win_cursor W).
Definition set_win_cells (cells : gmap (Z * Z) (glyph * string)) (W : window) : window :=
  Window (win_y W) (win_x W) (win_h W) (win_w W) (win_style W) (win_attr W) cells (win_cursor W).
Definition set_win_cursor (cursor : Z * Z) (W : window) : window :=
  Window (win_y W) (win_x W) (win_h W) (win_w W) (win_style W) (win_attr W) (win_cells W) cursor.

Definition cell (W : window) (y x : Z) : glyph * string := default (Char " ", win_style W) (win_cells W !! (y, x)).

Definition in_window (W : window) (y x : Z) : bool := ((0 <=? y) && (y <? win_h W) && (0 <=? x) && (x <? win_w W))%Z.

(** [win.erase()], [win.resize(h, w)], [win.mvwin(y, x)] *)
Definition erase (W : window) : window := set_win_cursor (0, 0)%Z (set_win_cells ∅ W).
Definition resize (h w : Z) (W : window) : window := set_win_size h w W.
Definition mvwin (y x : Z) (W : window) : window :=
  Window y x (win_h W) (win_w W) (win_style W) (win_attr W) (win_cells W) (win_cursor W).

(** [_height] and [_width] *)
Definition height_of (W : window) : Z := win_h W.
Definition width_of (W : window) : Z := win_w W.

Definition style_in (attr : option string) (W : window) : string :=
  match attr with Some a => a | None => default (win_style W) (win_attr W) end.

(** Writing glyphs from a position to the right. *)
Fixpoint put_row (y x : Z) (l : list glyph) (style : string) (cells : gmap (Z * Z) (glyph * string))
    : gmap (Z * Z) (glyph * string) :=
  match l with
  | [] => cells
  | g :: l => put_row y (x + 1) l style (<[(y, x) := (g, style)]> cells)
  end.

Fixpoint glyphs (s : string) : list glyph :=
  match s with EmptyString => [] | String c s => Char c :: glyphs s end.

(** [s[i:j]] for a non-negative [i] *)
Definition slice (i j : Z) (s : string) : string :=
  let j := (if j <? 0 then Z.max (zlen s + j) 0 else j)%Z in upto (j - i) (from i s).

(** The cursor after [n] glyphs written from column [x]: on the next line, if there
    is one, after the last column. *)
Definition cursor_after (W : window) (y x : Z) (n : nat) : Z * Z :=
  (if x + Z.of_nat n <? win_w W then (y, x + Z.of_nat n)
   else if y + 1 <? win_h W then (y + 1, 0) else (y, win_w W - 1))%Z.

Definition add_glyphs (y x : Z) (l : list glyph) (attr : option string) (W : window) : window :=
  if in_window W y x then
    set_win_cursor (cursor_after W y x (length l)) (set_win_cells (put_row y x l (style_in attr W) (win_cells W)) W)
  else W.

(** [_safe_addstr] at a position: the line is clipped, and a failure has no effect. *)
Definition safe_addstr (y x : Z) (s : string) (attr : option string) (W : window) : window :=
  add_glyphs y x (take (Z.to_nat (width_of W - x)) (glyphs (expandtabs s))) attr W.

(** [_safe_addstr] and [_safe_addch] at the cursor *)
Definition safe_addstr_here (s : string) (W : window) : window :=
  safe_addstr (fst (win_cursor W)) (snd (win_cursor W)) s None W.
Definition safe_addch (g : glyph) (W : window) : window :=
  add_glyphs (fst (win_cursor W)) (snd (win_cursor W)) [g] None W.

(** [_safe_hline], [_safe_vline] and [_safe_move] *)
Definition safe_hline (y x : Z) (g : glyph) (n : Z) (attr : option string) (W : window) : window :=
  if in_window W y x then
    set_win_cursor (y, x) (set_win_cells
      (put_row y x (repeat g (Z.to_nat (Z.min n (win_w W - x)))) (style_in attr W) (win_cells W)) W)
  else W.

Fixpoint put_column (y x : Z) (g : glyph) (n : nat) (style : string) (cells : gmap (Z * Z) (glyph * string))
    : gmap (Z * Z) (glyph * string) :=
  match n with
  | O => cells
  | S n => put_column (y + 1) x g n style (<[(y, x) := (g, style)]> cells)
  end.
Definition safe_vline (y x : Z) (g : glyph) (n : Z) (W : window) : window :=
  if in_window W y x then
    set_win_cursor (y, x) (set_win_cells
      (put_column y x g (Z.to_nat (Z.min n (win_h W - y))) (style_in None W) (win_cells W)) W)
  else W.

Definition safe_move (y x : Z) (W : window) : window := if in_window W y x then set_win_cursor (y, x) W else W.

(** [_styled_win] *)
Definition styled_win (style : string) : window := Window 0 0 1 1 style None ∅ (0, 0)%Z.

(** Lines one below the other. *)
Fixpoint add_lines (y x : Z) (l : list string) (W : window) : window :=
  match l with
  | [] => W
  | s :: l => add_lines (y + 1) x l (safe_addstr y x s None W)
  end.

(** [_N_SCROLL_ARROWS] arrows *)
Definition N_SCROLL_ARROWS : Z := 14.
Definition scroll_arrows (shown : bool) (y : Z) (g : glyph) (attr : option string) (W : window) : window :=
  if shown then safe_hline y 4 g N_SCROLL_ARROWS attr W else W.

(** ** Frames, input and key dialogs *)

(** [_draw_frame] *)
Definition draw_frame (title : string) (W : window) : window :=
  let W := set_win_attr (Some "frame") W in
  let blank := Char " " in
  let W := safe_hline 0 0 blank (win_w W) None W in
  let W := safe_hline (win_h W - 1) 0 blank (win_w W) None W in
  let W := safe_vline 0 0 blank (win_h W) W in
  let W := safe_vline 0 (win_w W - 1) blank (win_h W) W in
  set_win_attr None (safe_addstr 0 (Z.max ((win_w W - zlen title) / 2) 0) title None W).

(** The middle of the screen *)
Definition centred (screen : Z * Z) (h w : Z) (W : window) : window :=
  mvwin ((fst screen - h) / 2) ((snd screen - w) / 2) (resize h w W).

(** [_resize_input_dialog] *)
Definition resize_input_dialog (screen : Z * Z) (title : string) (info_lines : list string) (W : window) : window :=
  let h := match info_lines with [] => 5 | l => 5 + Z.of_nat (length l) + 1 end%Z in
  centred screen (Z.min h (fst screen)) (input_dialog_width title info_lines (snd screen)) W.

(** [_draw_input_dialog] *)
Definition draw_input_dialog (title : string) (info_lines : list string) (s : string) (i hscroll : Z) (W : window) : window :=
  let edit_width := (width_of W - 4)%Z in
  let W := erase W in
  let visible_s := slice hscroll (hscroll + edit_width) s in
  let W := safe_addstr 2 2 (visible_s +:+ spaces (Z.to_nat (edit_width - zlen visible_s))) (Some "edit") W in
  let W := add_lines 4 2 info_lines W in
  safe_move 2 (2 + i - hscroll) (draw_frame title W).

(** [_resize_key_dialog] *)
Definition resize_key_dialog (screen : Z * Z) (text : string) (W : window) : window :=
  let lines := split_on nl_c text in
  centred screen (Z.min (Z.of_nat (length lines) + 4) (fst screen))
    (Z.min (foldr (λ l m, Z.max (zlen l) m) 0 lines + 4) (snd screen))%Z W.

(** [_draw_key_dialog] *)
Definition draw_key_dialog (title text : string) (W : window) : window :=
  draw_frame title (add_lines 2 2 (split_on nl_c text) (erase W)).

(** ** The main display *)

(** The entries of [_style] used in the menu window. *)
Inductive style : Type := SELECTION | LIST | INV_SELECTION | INV_LIST.

Definition is_selection (s : style) : bool :=
  match s with SELECTION | INV_SELECTION => true | _ => false end.

(** A row of the menu window. *)
Record row : Type := Row { row_y : Z; row_style : style; row_text : string }.

Section Draw.
Variable K : kconfig.
Variable fuel : nat.
Variable σ : session.
Variable show_name : bool.
Variable v : view.

(** The row for the node at index [i] of [_shown]. *)
Definition draw_node (i : Z) : outcome row :=
  let! n := of_option IndexError (shown v !! Z.to_nat i) in
  let! vis := node_visible K fuel σ n in
  let selected := (i =? sel_node_i v)%Z in
  let st := if vis || negb (show_all v) then if selected then SELECTION else LIST
            else if selected then INV_SELECTION else INV_LIST in
  let! text := node_str K fuel (show_all v) show_name n σ in
  Ok (Row (i - menu_scroll v) st text).

Fixpoint draw_nodes (l : list Z) : outcome (list row) :=
  match l with
  | [] => Ok []
  | i :: l => let! r := draw_node i in let! rs := draw_nodes l in Ok (r :: rs)
  end.

(** The rows of the menu window. *)
Definition draw_rows : outcome (list row) :=
  draw_nodes (seqZ (menu_scroll v)
    (Z.min (menu_scroll v + menu_height v) (Z.of_nat (length (shown v))) - menu_scroll v)).

(** Whether there are arrows pointing up and down. *)
Definition arrow_up : bool := (0 <? menu_scroll v)%Z.
Definition arrow_down : bool := (menu_scroll v <? max_scroll (shown v) (menu_height v))%Z.

(** The text about the enabled modes. *)
Definition enabled_modes (show_help : bool) : string :=
  match ((if show_help then ["show-help (toggle with [F])"] else [])
         ++ (if show_name then ["show-name"] else []) ++ (if show_all v then ["show-all"] else []))%list with
  | [] => ""
  | l => sjoin " and " l +:+ " mode enabled"
  end.

(** The prompts of the menus down to the current one. *)
Fixpoint path_prompts (f n : nat) : outcome (list string) :=
  match f with
  | O => NoFuel
  | S f =>
      if decide (n = k_top_node K) then Ok ["(Top)"]
      else
        let! p := of_option AttributeError (n_parent (nod K n)) in
        let! l := path_prompts f p in
        Ok (l ++ [path_text K n])%list
  end.

(** The menu path, scrolled so that its end shows; NUL stands for the arrows. *)
Definition menu_path (width : Z) : outcome string :=
  let! l := path_prompts fuel (cur_menu v) in
  let s := sjoin (String " " (String (chr 0) " ")) l in
  Ok (if (width <? zlen s)%Z then from (zlen s - width) s else s).
End Draw.

(** ** The windows of the main display *)

Definition MAIN_HELP_LINES : list string :=
  ["[Space/Enter] Toggle/enter  [ESC] Leave menu           [S] Save";
   "[O] Load                    [?] Symbol info            [/] Jump to symbol";
   "[F] Toggle show-help mode   [C] Toggle show-name mode  [A] Toggle show-all mode";
   "[Q] Quit (prompts for save) [D] Save minimal config (advanced)"].
Definition INFO_HELP_LINES : list string := ["[ESC/q] Return to menu      [/] Jump to symbol"].
Definition JUMP_TO_HELP_LINES : list string :=
  ["Type text to narrow the search. Regexes are supported (via Python's 're'";
   "module). The up/down cursor keys step in the list. [Enter] jumps to the";
   "selected symbol. [ESC] aborts the search. Type multiple space-separated";
   "strings/regexes to find entries that match all of them. Type Ctrl-F to";
   "view the help of the selected item without leaving the dialog."].
Definition SHOW_HELP_HEIGHT : Z := 8.

(** [_path_win], [_top_sep_win], [_menu_win], [_bot_sep_win] and [_help_win] *)
Record main_windows : Type := MainWindows {
  path_win : window;
  top_sep_win : window;
  menu_win : window;
  bot_sep_win : window;
  help_win : window
}.

(** The windows [_init] creates *)
Definition new_main_windows : main_windows :=
  MainWindows (styled_win "path") (styled_win "separator") (styled_win "list") (styled_win "separator") (styled_win "help").

(** [_resize_main]: the windows; [resize_main] is its effect on the scroll. *)
Definition resize_main_windows (screen : Z * Z) (show_help : bool) (m : main_windows) : main_windows :=
  let '(screen_height, screen_width) := screen in
  let path := resize 1 screen_width (path_win m) in
  let top := resize 1 screen_width (top_sep_win m) in
  let bot := resize 1 screen_width (bot_sep_win m) in
  let help_height := if show_help then SHOW_HELP_HEIGHT else Z.of_nat (length MAIN_HELP_LINES) in
  let menu_height := (screen_height - help_height - 3)%Z in
  if (1 <=? menu_height)%Z then
    MainWindows path (mvwin 1 0 top) (mvwin 2 0 (resize menu_height screen_width (menu_win m)))
      (mvwin (2 + menu_height) 0 bot) (mvwin (2 + menu_height + 1) 0 (resize help_height screen_width (help_win m)))
  else
    MainWindows path (mvwin 0 0 top) (mvwin 0 0 (resize 1 screen_width (menu_win m))) (mvwin 0 0 bot)
      (mvwin 0 0 (resize 1 screen_width (help_win m))).

(** The styles of [_style] by name *)
Definition style_name (s : style) : string :=
  match s with SELECTION => "selection" | LIST => "list" | INV_SELECTION => "inv-selection" | INV_LIST => "inv-list" end.

Section Main.
Variable K : kconfig.
Variable fuel : nat.
(** [textwrap.wrap(text, width)] *)
Variable wrap : string → Z → list string.

(** The separator with the title, below the menu path *)
Definition draw_top_sep (term_width : Z) (title : string) (v : view) (W : window) : window :=
  let W := scroll_arrows (arrow_up v) 0 ACS_UARROW None (erase W) in
  safe_addstr 0 (Z.max ((term_width - zlen title) / 2) 0) title None W.

Fixpoint draw_row_list (l : list row) (W : window) : window :=
  match l with
  | [] => W
  | r :: l => draw_row_list l (safe_addstr (row_y r) 0 (row_text r) (Some (style_name (row_style r))) W)
  end.

(** The separator with the enabled modes *)
Definition draw_bot_sep (term_width : Z) (show_help show_name : bool) (v : view) (W : window) : window :=
  let W := scroll_arrows (arrow_down v) 0 ACS_DARROW None (erase W) in
  let s := enabled_modes show_name v show_help in
  if bool_decide (s = "") then W else safe_addstr 0 (Z.max (term_width - zlen s - 2) 0) s None W.

(** The help window: key bindings, or the help text of the selected node *)
Definition draw_help (show_help : bool) (v : view) (W : window) : outcome window :=
  let W := erase W in
  if show_help then
    let! n := of_option IndexError (shown v !! Z.to_nat (sel_node_i v)) in
    match item_of_node (n_item (nod K n)), n_help (nod K n) with
    | Some _, Some help =>
        if bool_decide (help = "") then Ok (safe_addstr 0 0 "(no help)" None W)
        else Ok (add_lines 0 0 (take (Z.to_nat (height_of W)) (wrap help (width_of W))) W)
    | _, _ => Ok (safe_addstr 0 0 "(no help)" None W)
    end
  else Ok (add_lines 0 0 MAIN_HELP_LINES W).

(** The path, with arrows for the NULs *)
Fixpoint draw_path_parts (l : list string) (W : window) : window :=
  match l with
  | [] => W
  | s :: l => draw_path_parts l (safe_addstr_here s (safe_addch ACS_RARROW W))
  end.
Definition draw_path (path : string) (W : window) : window :=
  match split_on (chr 0) path with
  | [] => erase W
  | s :: l => draw_path_parts l (safe_addstr_here s (erase W))
  end.

(** [_draw_main] *)
Definition draw_main (term_width : Z) (show_help show_name : bool) (v : view) (σ : session) (m : main_windows)
    : outcome main_windows :=
  let! title := mainmenu_text K in
  let top := draw_top_sep term_width title v (top_sep_win m) in
  let! rows := draw_rows K fuel σ show_name v in
  let menu := draw_row_list rows (erase (menu_win m)) in
  let bot := draw_bot_sep term_width show_help show_name v (bot_sep_win m) in
  let! help := draw_help show_help v (help_win m) in
  let! path := menu_path K fuel v term_width in
  Ok (MainWindows (draw_path path (path_win m)) top menu bot help).

(** ** The search and information dialogs *)

Record jump_windows : Type := JumpWindows {
  edit_box : window;
  matches_win : window;
  jump_sep_win : window;
  jump_help_win : window
}.
Definition new_jump_windows : jump_windows :=
  JumpWindows (styled_win "jump-edit") (styled_win "list") (styled_win "separator") (styled_win "help").

(** [_resize_jump_to_dialog]: the windows; [resize_matches] gives the scroll. *)
Definition resize_jump_windows (screen : Z * Z) (j : jump_windows) : jump_windows :=
  let '(screen_height, screen_width) := screen in
  let sep := resize 1 screen_width (jump_sep_win j) in
  let help_height := Z.of_nat (length JUMP_TO_HELP_LINES) in
  let matches_height := (screen_height - help_height - 4)%Z in
  if (1 <=? matches_height)%Z then
    JumpWindows (resize 3 screen_width (edit_box j)) (mvwin 3 0 (resize matches_height screen_width (matches_win j)))
      (mvwin (3 + matches_height) 0 sep) (mvwin (3 + matches_height + 1) 0 (resize help_height screen_width (jump_help_win j)))
  else
    JumpWindows (resize screen_height screen_width (edit_box j)) (mvwin 0 0 (resize 1 screen_width (matches_win j)))
      (mvwin 0 0 sep) (mvwin 0 0 (resize 1 screen_width (jump_help_win j))).

(** The text of a match *)
Definition match_str (σ : session) (n : nat) : outcome string :=
  let quoted_prompt := match prompt_text K n with Some t => Ok (dquote +:+ t +:+ dquote) | None => Raise TypeError end in
  match item_of_node (n_item (nod K n)) with
  | Some i =>
      Ok (name_and_val_str K fuel σ i +:+ match prompt_text K n with Some t => " " +:+ dquote +:+ t +:+ dquote | None => "" end)
  | None =>
      let! q := quoted_prompt in
      Ok ((if bool_decide (n_item (nod K n) = NMenu) then "menu " else "comment ") +:+ q)
  end.

Fixpoint draw_matches (σ : session) (j : search) (l : list Z) (W : window) : outcome window :=
  match l with
  | [] => Ok W
  | i :: l =>
      let! n := of_option IndexError (j_matches j !! Z.to_nat i) in
      let! s := match_str σ n in
      draw_matches σ j l
        (safe_addstr (i - j_scroll j) 0 s (Some (if (i =? j_sel j)%Z then "selection" else "list")) W)
  end.

(** [_draw_jump_to_dialog]; [bad_re] is the message of an error in the expression. *)
Definition draw_jump_to_dialog (σ : session) (bad_re : string) (j : search) (J : jump_windows) : outcome jump_windows :=
  let edit_width := (width_of (edit_box J) - 2)%Z in
  let W := erase (matches_win J) in
  let! found :=
    match j_matches j with
    | [] => Ok (safe_addstr 0 0 (if bool_decide (bad_re = "") then "No matches" else bad_re) None W)
    | l => draw_matches σ j
             (seqZ (j_scroll j) (Z.min (j_scroll j + height_of W) (Z.of_nat (length l)) - j_scroll j)) W
    end in
  let sep := scroll_arrows (j_scroll j <? max_scroll (j_matches j) (height_of (matches_win J)))%Z 0 ACS_DARROW None
               (erase (jump_sep_win J)) in
  let help := add_lines 0 0 JUMP_TO_HELP_LINES (erase (jump_help_win J)) in
  let box := draw_frame "Jump to symbol/choice/menu/comment" (erase (edit_box J)) in
  let box := scroll_arrows (0 <? j_scroll j)%Z 2 ACS_UARROW (Some "frame") box in
  let box := safe_addstr 1 1 (slice (j_hscroll j) (j_hscroll j + edit_width) (j_text j)) None box in
  let box := safe_move 1 (1 + j_i j - j_hscroll j) box in
  Ok (JumpWindows box found sep help).

Record info_windows : Type := InfoWindows {
  top_line_win : window;
  text_win : window;
  info_sep_win : window;
  info_help_win : window
}.
Definition new_info_windows : info_windows :=
  InfoWindows (styled_win "separator") (styled_win "text") (styled_win "separator") (styled_win "help").

(** [_resize_info_dialog] *)
Definition resize_info_windows (screen : Z * Z) (I : info_windows) : info_windows :=
  let '(screen_height, screen_width) := screen in
  let top := resize 1 screen_width (top_line_win I) in
  let sep := resize 1 screen_width (info_sep_win I) in
  let help_height := Z.of_nat (length INFO_HELP_LINES) in
  let text_height := (screen_height - help_height - 2)%Z in
  if (1 <=? text_height)%Z then
    InfoWindows top (mvwin 1 0 (resize text_height screen_width (text_win I))) (mvwin (1 + text_height) 0 sep)
      (mvwin (1 + text_height + 1) 0 (resize help_height screen_width (info_help_win I)))
  else
    InfoWindows top (mvwin 0 0 (resize 1 screen_width (text_win I))) (mvwin 0 0 sep)
      (mvwin 0 0 (resize 1 screen_width (info_help_win I))).

(** [_draw_info_dialog] *)
Definition info_title (n : nat) : string :=
  match n_item (nod K n) with
  | NSym _ => "Symbol" | NCho _ => "Choice" | NMenu => "Menu" | _ => "Comment"
  end +:+ " information".

Definition draw_info_dialog (n : nat) (lines : list string) (scroll : Z) (I : info_windows) : info_windows :=
  let h := height_of (text_win I) in
  let text := add_lines 0 0 (take (Z.to_nat h) (drop (Z.to_nat scroll) lines)) (erase (text_win I)) in
  let sep := scroll_arrows (scroll <? max_scroll lines h)%Z 0 ACS_DARROW None (erase (info_sep_win I)) in
  let help := add_lines 0 0 INFO_HELP_LINES (erase (info_help_win I)) in
  let top := scroll_arrows (0 <? scroll)%Z 0 ACS_UARROW None (erase (top_line_win I)) in
  let top := safe_addstr 0 (Z.max ((width_of (text_win I) - zlen (info_title n)) / 2) 0) (info_title n) None top in
  InfoWindows top text sep help.
End Main.

(** ** The selected row is drawn *)

Lemma draw_nodes_In K fuel σ show_name v l rs i :
  draw_nodes K fuel σ show_name v l = Ok rs → i ∈ l →
  ∃ r, r ∈ rs ∧ draw_node K fuel σ show_name v i = Ok r.
Proof.
  revert rs. induction l as [|j l IH]; intros rs; cbn [draw_nodes]; [by intros _ ?%elem_of_nil|].
  rewrite obind_Ok. intros (r & Hr & H). apply obind_Ok in H as (rs' & Hrs & [= <-]).
  intros [->|Hi]%elem_of_cons; [exists r; split; [by apply elem_of_cons; left|done]|].
  destruct (IH _ Hrs Hi) as (r' & Hr' & ?). exists r'. split; [by apply elem_of_cons; right|done].
Qed.

Lemma draw_selected K fuel σ show_name v rs :
  position_ok v → draw_rows K fuel σ show_name v = Ok rs →
  ∃ r, r ∈ rs ∧ is_selection (row_style r) = true ∧ row_y r = (sel_node_i v - menu_scroll v)%Z ∧
    (0 ≤ row_y r < menu_height v)%Z.
Proof.
  intros [Hh Hs Hc Hr Hp] Hd. unfold draw_rows in Hd.
  destruct (draw_nodes_In _ _ _ _ _ _ _ (sel_node_i v) Hd) as (r & Hin & Hn).
  { apply elem_of_seqZ. lia. }
  exists r. split; [done|]. unfold draw_node in Hn. apply obind_Ok in Hn as (n & _ & Hn).
  apply obind_Ok in Hn as (b & _ & Hn). apply obind_Ok in Hn as (t & _ & [= <-]). cbn.
  rewrite Z.eqb_refl. split_and!; [by case_match|done|lia|lia].
Qed.

(** ** The text field of a dialog *)

Lemma put_row_lookup y x l st cells y' x' :
  put_row y x l st cells !! (y', x') =
    if decide (y' = y ∧ x ≤ x' < x + Z.of_nat (length l))%Z
    then (λ g, (g, st)) <$> l !! Z.to_nat (x' - x) else cells !! (y', x').
Proof.
  revert x cells. induction l as [|g l IH]; intros x cells; cbn [put_row length]; [by rewrite decide_False by lia|].
  rewrite IH. destruct (decide (y' = y ∧ x' = x)) as [[-> ->]|Hne].
  - rewrite decide_False, decide_True by lia. rewrite lookup_insert_eq. by replace (Z.to_nat (x - x)) with 0 by lia.
  - destruct (decide (y' = y ∧ x + 1 ≤ x' < x + 1 + Z.of_nat (length l))%Z) as [H|H].
    + rewrite decide_True by lia. by replace (Z.to_nat (x' - x)) with (S (Z.to_nat (x' - (x + 1)))) by lia.
    + rewrite decide_False by lia. rewrite lookup_insert_ne; [done|]. intros [= -> ->]. lia.
Qed.

Lemma put_column_lookup y x g n st cells y' x' :
  x' ≠ x → put_column y x g n st cells !! (y', x') = cells !! (y', x').
Proof.
  intros Hx. revert y cells. induction n as [|n IH]; intros y cells; cbn [put_column]; [done|].
  rewrite IH. rewrite lookup_insert_ne; [done|]. by intros [= _ ->].
Qed.

(** Writing elsewhere. *)
Lemma add_glyphs_other y x l attr W y' x' : y' ≠ y → cell (add_glyphs y x l attr W) y' x' = cell W y' x'.
Proof.
  intros Hy. unfold add_glyphs. destruct (in_window W y x); [|done]. unfold cell. cbn.
  rewrite put_row_lookup, decide_False by lia. done.
Qed.

Lemma hline_other y x g n attr W y' x' : y' ≠ y → cell (safe_hline y x g n attr W) y' x' = cell W y' x'.
Proof.
  intros Hy. unfold safe_hline. destruct (in_window W y x); [|done]. unfold cell. cbn.
  rewrite put_row_lookup, decide_False by lia. done.
Qed.

Lemma vline_other y x g n W y' x' : x' ≠ x → cell (safe_vline y x g n W) y' x' = cell W y' x'.
Proof.
  intros Hx. unfold safe_vline. destruct (in_window W y x); [|done]. unfold cell. cbn. by rewrite put_column_lookup.
Qed.

(** What only writes keeps the size of the window. *)
Definition same_size (W W' : window) : Prop := win_h W' = win_h W ∧ win_w W' = win_w W ∧ win_style W' = win_style W.

Lemma add_glyphs_size y x l attr W : same_size W (add_glyphs y x l attr W).
Proof. unfold add_glyphs. by destruct (in_window W y x). Qed.
Lemma hline_size y x g n attr W : same_size W (safe_hline y x g n attr W).
Proof. unfold safe_hline. by destruct (in_window W y x). Qed.
Lemma vline_size y x g n W : same_size W (safe_vline y x g n W).
Proof. unfold safe_vline. by destruct (in_window W y x). Qed.

Lemma same_size_trans W1 W2 W3 : same_size W1 W2 → same_size W2 W3 → same_size W1 W3.
Proof. unfold same_size. intuition congruence. Qed.

Lemma add_lines_size y x l W : same_size W (add_lines y x l W).
Proof.
  revert y W. induction l as [|s l IH]; intros y W; [done|]. cbn [add_lines].
  eapply same_size_trans; [apply add_glyphs_size|apply IH].
Qed.

Lemma add_lines_above y x l W y' x' : (y' < y)%Z → cell (add_lines y x l W) y' x' = cell W y' x'.
Proof.
  revert y W. induction l as [|s l IH]; intros y W Hy; [done|]. cbn [add_lines].
  rewrite IH by lia. apply add_glyphs_other. lia.
Qed.

(** A frame covers the edges only. *)
Lemma draw_frame_spec title W : same_size W (draw_frame title W) ∧
  ∀ y x, (0 < y < win_h W - 1)%Z → (0 < x < win_w W - 1)%Z → cell (draw_frame title W) y x = cell W y x.
Proof.
  unfold draw_frame. set (W0 := set_win_attr (Some "frame") W). set (W1 := safe_hline 0 0 _ _ None W0).
  assert (same_size W W1) as S1 by apply (hline_size _ _ _ _ _ W0).
  set (W2 := safe_hline _ 0 _ _ None W1). assert (same_size W W2) as S2 by (eapply same_size_trans; [exact S1|apply hline_size]).
  set (W3 := safe_vline 0 0 _ _ W2). assert (same_size W W3) as S3 by (eapply same_size_trans; [exact S2|apply vline_size]).
  set (W4 := safe_vline 0 _ _ _ W3). assert (same_size W W4) as S4 by (eapply same_size_trans; [exact S3|apply vline_size]).
  split; [eapply same_size_trans; [exact S4|apply (add_glyphs_size _ _ _ None)]|]. intros y x Hy Hx.
  destruct S1 as (H1 & _), S3 as (_ & E3 & _).
  change (cell (safe_addstr 0 (Z.max ((win_w W4 - zlen title) / 2) 0) title None W4) y x = cell W y x).
  unfold safe_addstr. rewrite add_glyphs_other by lia. unfold W4. rewrite vline_other by lia. unfold W3.
  rewrite vline_other by lia. unfold W2. rewrite hline_other by lia. unfold W1. by rewrite hline_other by lia.
Qed.

Lemma expandtabs_none s : has_char tab_c s = false → expandtabs s = s.
Proof.
  unfold expandtabs, has_char. generalize 0. induction s as [|c s IH]; intros n; [done|]. cbn [s_any expandtabs_aux].
  intros [Hc Hs]%orb_false_iff. assert (c_eqb c tab_c = false) as ->.
  { unfold c_eqb in *. by rewrite Ascii.eqb_sym. }
  destruct (c_eqb c nl_c || _); by rewrite IH.
Qed.

Lemma glyphs_app s t : glyphs (s +:+ t) = (glyphs s ++ glyphs t)%list.
Proof. induction s as [|c s IH]; [done|]. change (Char c :: glyphs (s +:+ t) = Char c :: (glyphs s ++ glyphs t))%list. by rewrite IH. Qed.

Lemma glyphs_length s : length (glyphs s) = slen s.
Proof. induction s as [|c s IH]; [done|]. change (S (length (glyphs s)) = S (slen s)). by rewrite IH. Qed.

Lemma glyphs_spaces n k : k < n → glyphs (spaces n) !! k = Some (Char " ").
Proof. revert k. induction n as [|n IH]; intros [|k] Hk; cbn; [lia|lia|done|]. apply IH. lia. Qed.

Lemma glyphs_take n s : glyphs (stake n s) = take n (glyphs s).
Proof. revert s. induction n as [|n IH]; intros [|c s]; [done..|]. cbn. by rewrite IH. Qed.
Lemma glyphs_drop n s : glyphs (sdrop n s) = drop n (glyphs s).
Proof. revert s. induction n as [|n IH]; intros [|c s]; [done..|]. cbn. by rewrite IH. Qed.

(** The character at a position of a text, a blank after its end. *)
Definition char_at (i : Z) (s : string) : glyph := default (Char " ") (glyphs s !! Z.to_nat i).

Lemma char_in_app c s t : has_char c (s +:+ t) = has_char c s || has_char c t.
Proof. unfold has_char. induction s as [|d s IH]; [done|]. change (c_eqb c d || s_any (c_eqb c) (s +:+ t) = (c_eqb c d || s_any (c_eqb c) s) || s_any (c_eqb c) t). by rewrite IH, orb_assoc. Qed.
Lemma has_char_take c n s : has_char c s = false → has_char c (stake n s) = false.
Proof.
  intros H. rewrite <- (stake_drop n s), char_in_app in H. by apply orb_false_iff in H as [? _].
Qed.
Lemma has_char_drop c n s : has_char c s = false → has_char c (sdrop n s) = false.
Proof.
  intros H. rewrite <- (stake_drop n s), char_in_app in H. by apply orb_false_iff in H as [_ ?].
Qed.
Lemma no_tab_spaces n : has_char tab_c (spaces n) = false.
Proof. induction n; done. Qed.

(** The field shows the text from the scroll position on, and the cursor is on the
    character the text cursor is on. *)
Lemma draw_field title info s i hscroll W :
  (4 ≤ win_h W)%Z → (5 ≤ win_w W)%Z → (0 ≤ hscroll ≤ i)%Z → (i < hscroll + (win_w W - 4))%Z → has_char tab_c s = false →
  let D := draw_input_dialog title info s i hscroll W in
  (∀ k, (0 ≤ k < win_w W - 4)%Z → cell D 2 (2 + k) = (char_at (hscroll + k) s, "edit")) ∧
  win_cursor D = (2, 2 + i - hscroll)%Z.
Proof.
  intros Hh Hw Hs Hi Ht. unfold draw_input_dialog, width_of. set (n := (win_w W - 4)%Z).
  set (visible := slice hscroll (hscroll + n) s). set (text := visible +:+ spaces _).
  assert (Hvis : glyphs visible = take (Z.to_nat n) (drop (Z.to_nat hscroll) (glyphs s))).
  { unfold visible, slice. rewrite (proj2 (Z.ltb_ge _ _)) by lia. replace (hscroll + n - hscroll)%Z with n by lia.
    unfold upto, from. by rewrite glyphs_take, glyphs_drop. }
  assert (Hlen : zlen visible = Z.min n (Z.max 0 (zlen s - hscroll))).
  { unfold zlen. rewrite <- (glyphs_length visible), Hvis, length_take, length_drop, glyphs_length. lia. }
  assert (Hnt : has_char tab_c text = false).
  { unfold text. rewrite char_in_app, no_tab_spaces, orb_false_r. unfold visible, slice. case_match; by apply has_char_take, has_char_drop. }
  set (W1 := safe_addstr 2 2 text (Some "edit") (erase W)).
  assert (S1 : same_size W W1) by apply (add_glyphs_size _ _ _ _ (erase W)).
  set (W2 := add_lines 4 2 info W1). assert (S2 : same_size W W2) by (eapply same_size_trans; [exact S1|apply add_lines_size]).
  destruct (draw_frame_spec title W2) as [S3 Hin]. set (W3 := draw_frame title W2) in *.
  pose proof (same_size_trans _ _ _ S2 S3) as (Hh3 & Hw3 & _). destruct S2 as (Hh2 & Hw2 & _).
  assert (Hmove : safe_move 2 (2 + i - hscroll) W3 = set_win_cursor (2, 2 + i - hscroll)%Z W3).
  { unfold safe_move, in_window. rewrite Hh3, Hw3. destruct (_ && _) eqn:Hb; [done|].
    rewrite !andb_false_iff, !Z.leb_gt, !Z.ltb_ge in Hb. lia. }
  rewrite Hmove. split; [|done]. intros k Hk. change (cell W3 2 (2 + k) = (char_at (hscroll + k) s, "edit")).
  rewrite Hin by lia. unfold W2. rewrite add_lines_above by lia.
  unfold W1, safe_addstr, add_glyphs, in_window, width_of. cbn [win_h win_w erase set_win_cursor set_win_cells].
  rewrite !(proj2 (Z.leb_le _ _)), !(proj2 (Z.ltb_lt _ _)) by lia. cbn [andb]. unfold cell. cbn.
  rewrite expandtabs_none by done.
  assert (Htext : glyphs text !! Z.to_nat k = Some (char_at (hscroll + k) s)).
  { unfold text. rewrite glyphs_app. unfold char_at.
    destruct (decide (k < zlen visible)%Z) as [Hkv|Hkv].
    - rewrite lookup_app_l by (rewrite glyphs_length; unfold zlen in Hkv; lia).
      rewrite Hvis, lookup_take_lt by lia. rewrite lookup_drop. replace (Z.to_nat (hscroll + k)) with (Z.to_nat hscroll + Z.to_nat k) by lia.
      destruct (glyphs s !! _) eqn:Hg; [done|]. apply lookup_ge_None in Hg. rewrite glyphs_length in Hg. unfold zlen in *. lia.
    - rewrite lookup_app_r by (rewrite glyphs_length; unfold zlen in Hkv; lia).
      rewrite glyphs_spaces by (rewrite glyphs_length; unfold zlen in *; lia).
      rewrite (proj2 (lookup_ge_None _ _)); [done|]. rewrite glyphs_length. unfold zlen in *. lia. }
  rewrite put_row_lookup, length_take. apply lookup_lt_Some in Htext as Hlt.
  rewrite decide_True by lia. rewrite lookup_take_lt by lia. replace (Z.to_nat (2 + k - 2)) with (Z.to_nat k) by lia.
  by rewrite Htext.
Qed.
