(* ===== verification/MenuChange.v ===== *)
(** * Changing values in the terminal interface

    A symbol's own prompts do not depend on its value, so the node of a changed
    symbol stays in the list and under the cursor: [_update_menu] does not fail
    on a visible node. *)

From S2P Require Import Prelude PyStr PyText Kconst Expr Escape Incr Objects ParseState.
From S2P Require Import Printing Values Reads Session Meaning Effects ConfigFile ConfigWrite ConfigText.
From S2P Require Import EditText MenuView MenuShown MenuNav MenuInfo MenuKeys MenuSafe.
From stdpp Require Import options.

Section Change.
Context {K : kconfig} {fuel : nat} {HK : Loaded K fuel}.

Abbreviation evl u := (ev (K := K) (fuel := fuel) u).
Abbreviation visible u := (visible_of (K := K) (fuel := fuel) u).

(** ** The prompts of a changed symbol *)
Section Prompts.
Variables (u : ustate) (s : nat) (value : uval).
Hypothesis Hu : uok K u.
Hypothesis Hp : preset K (QTri s) = None.
Let u' := (spec_set_value K s value u).2.
Hypothesis Hu' : uok K u'.

(** Properties that look at a symbol's value, or at the selection of its choice,
    read its visibility. *)
Lemma looks_above_vis q : looks_at K q = Some (ISym s) →
  below (K := K) (fuel := fuel) q (QVis (ISym s)).
Proof using Hp.
  intros Hl. destruct q as [x|x|x|x|x]; cbn in Hl; try done.
  - destruct (BOOL_TRISTATE (s_orig_type (sym K x))) eqn:Hb; [|done]. injection Hl as ->.
    apply reads_below; [done|]. cbn. rewrite Hb. by apply elem_of_cons; left.
  - destruct (BOOL_TRISTATE_UNKNOWN (s_orig_type (sym K x))) eqn:Hb; [done|]. injection Hl as ->.
    apply reads_below; [done|]. cbn. destruct (s_orig_type (sym K s)); try done; by apply elem_of_cons; left.
Qed.

Lemma selection_above_vis c : s_choice (sym K s) = Some c →
  below (K := K) (fuel := fuel) (QSel c) (QVis (ISym s)).
Proof using Type.
  intros Hc. apply reads_below; [done|]. cbn [static_reads]. rewrite !elem_of_app. do 3 right. apply list_elem_of_fmap.
  exists s. split; [done|]. destruct (ld_wf (K := K) (fuel := fuel)) as [Hwf _]. specialize (Hwf s).
  unfold symbol_ok in Hwf. rewrite Hc in Hwf. apply andb_true_iff in Hwf as [_ Hwf]. by apply mem_true in Hwf.
Qed.

Lemma set_value_looks q i :
  below (K := K) (fuel := fuel) (QVis (ISym s)) q → looks_at K q = Some i →
  match i with
  | ISym t => user_value u !! t = user_value u' !! t ∨ vis_of (K := K) (fuel := fuel) u (ISym t) = 0%Z
  | ICho d => user_selection u !! d = user_selection u' !! d
  end.
Proof using Hp.
  intros Hq Hl. destruct i as [t|d].
  - left. destruct (decide (t = s)) as [->|Ht].
    + exfalso. pose proof (looks_above_vis q Hl) as Hb. unfold below in *. lia.
    + unfold u', spec_set_value. repeat case_match; cbn; by rewrite ?lookup_insert_ne.
  - unfold u', spec_set_value. cbv zeta. destruct (valid_for _ _); [|done].
    destruct (s_choice (sym K s)) as [c|] eqn:Hc; [|done]. case_decide; [|done]. cbn.
    rewrite lookup_insert_ne; [done|]. intros ->.
    destruct q; cbn in Hl; repeat case_match; simplify_eq.
    pose proof (selection_above_vis d Hc) as Hb. unfold below in *. lia.
Qed.

Lemma own_prompts_same e : e ∈ prompt_conds K (ISym s) → evl u' e = evl u e.
Proof using HK Hp Hu Hu'.
  intros He. symmetry.
  apply (ev_same u u' Hu Hu' (below (K := K) (fuel := fuel) (QVis (ISym s)))).
  - apply below_closed.
  - unfold u', spec_set_value. repeat case_match; done.
  - apply set_value_looks.
  - apply Forall_forall. intros q Hq. apply reads_below; [done|]. cbn [static_reads]. apply elem_of_app. left.
    apply list_elem_of_In, in_flat_map. exists e. split; by apply list_elem_of_In.
Qed.

(** A visible node of the symbol stays visible. *)
Lemma own_node_visible n : n_item (nod K n) = NSym s → n ∈ s_nodes (sym K s) → visible u' n = visible u n.
Proof using HK Hp Hu Hu'.
  intros Hi Hn. unfold visible_of. rewrite Hi. destruct (n_prompt (nod K n)) as [[text cond]|] eqn:Hprompt; [|done].
  rewrite own_prompts_same; [done|]. unfold prompt_conds. apply list_elem_of_omap. exists n. cbn.
  split; [done|]. by rewrite Hprompt.
Qed.
End Prompts.

(** ** Menu trees *)

Record tree_ok : Prop := {
  tr_lists : lists_of_symbols K;
  tr_walk n : ∃ w, walk K fuel (n_list (nod K n)) = Ok w;
  tr_item n s : n_item (nod K n) = NSym s → n ∈ s_nodes (sym K s);
  tr_own m : n_is_menuconfig (nod K m) = true → m ∈ sources K m
}.
Hypothesis Htree : tree_ok.

Lemma shown_ext v v' sa menu : (∀ n, v n = v' n) → shown_in K fuel v sa menu = shown_in K fuel v' sa menu.
Proof using Type.
  intros Hv. assert (∀ f o, shown_rec K v sa f o = shown_rec K v' sa f o) as Hrec.
  { induction f as [|f IH]; intros o; [done|]. cbn [shown_rec]. destruct o as [n|]; [|done].
    by rewrite Hv, !IH. }
  assert (∀ ms res seen, shown_choice K v sa fuel menu ms res seen = shown_choice K v' sa fuel menu ms res seen) as Hc.
  { induction ms as [|m ms IH]; intros res seen; [done|]. cbn [shown_choice]. rewrite Hrec.
    destruct (shown_rec _ _ _ _ _); [|done..]. cbn [obind]. destruct (add_unseen _ _ _ _ _). apply IH. }
  unfold shown_in. rewrite Hrec. destruct (n_item _); try done.
  destruct (shown_rec _ _ _ _ _); [|done..]. apply Hc.
Qed.

(** The list of a menu in a session. *)
Lemma shown_nodes_eq σ sa menu : session_ok (K := K) σ →
  shown_nodes K fuel sa menu σ = shown_in K fuel (λ n, Ok (visible (uvals σ) n)) sa menu.
Proof using HK. intros Hσ. apply shown_ext. intros n. by apply node_visible_eq. Qed.

Lemma shown_nodes_total σ sa menu : session_ok (K := K) σ → ∃ l, shown_nodes K fuel sa menu σ = Ok l.
Proof using HK Htree. intros Hσ. rewrite shown_nodes_eq by done. apply shown_in_total. intros m _. apply tr_walk, Htree. Qed.

(** ** The display after a change *)

(** The node under the cursor lies in the current menu. *)
Definition in_menu (v : view) (n : nat) : Prop :=
  n_is_menuconfig (nod K (cur_menu v)) = true ∧ inner K (n_list (nod K (cur_menu v))) n.

Lemma update_menu_stays σ v n :
  session_ok (K := K) σ → sel_node v = Ok n → in_menu v n → visible (uvals σ) n = true →
  ∃ v', update_menu K fuel σ v = Ok v' ∧ sel_node v' = Ok n ∧ cur_menu v' = cur_menu v ∧
    show_all v' = show_all v ∧ shown_nodes K fuel (show_all v) (cur_menu v) σ = Ok (shown v').
Proof using HK Htree.
  intros Hσ Hsel [Hm Hin] Hvis. unfold update_menu. rewrite Hsel. cbn [obind].
  destruct (shown_nodes_total σ (show_all v) (cur_menu v) Hσ) as [l Hl]. rewrite Hl. cbn [obind].
  assert (n ∈ l) as Hn.
  { rewrite shown_nodes_eq in Hl by done. eapply shown_in_own; [apply Htree|by apply Htree|exact Hl|done|].
    by apply appears_visible. }
  apply index_of_total in Hn as [i Hi]. rewrite Hi. cbn [obind]. eexists. split; [done|].
  split_and!; try done. unfold sel_node. cbn. apply index_of_spec in Hi as (_ & -> & _). done.
Qed.

(** [_set_val] on the symbol of a visible node under the cursor. *)
Lemma set_val_stays s val u n :
  session_ok (K := K) (h_session (u_host u)) → preset K (QTri s) = None →
  sel_node (u_view u) = Ok n → in_menu (u_view u) n → n_item (nod K n) = NSym s →
  visible (uvals (h_session (u_host u))) n = true →
  ∃ u', set_val K fuel (ISym s) val u = Ok ((), u') ∧ sel_node (u_view u') = Ok n ∧
    session_ok (K := K) (h_session (u_host u')) ∧ cur_menu (u_view u') = cur_menu (u_view u) ∧
    let w := uvals (h_session (u_host u)) in
    if decide (val = str_of (K := K) (fuel := fuel) w s) then u' = u
    else u_conf_changed u' = true ∧
      uvals (h_session (u_host u')) = (spec_set_value K s (UStr val) w).2 ∧
      shown_nodes K fuel (show_all (u_view u)) (cur_menu (u_view u)) (h_session (u_host u')) = Ok (shown (u_view u')).
Proof using HK Htree.
  intros Hσ Hp Hsel Hin Hi Hvis. set (σ := h_session (u_host u)) in *.
  assert (reading (item_str_now K fuel (ISym s)) u = Ok (str_of (K := K) (fuel := fuel) (uvals σ) s, u)) as Hread.
  { unfold reading, item_str_now, str_now, peek, str_value. fold σ.
    destruct (get_prop_spec σ (QStr s) Hσ) as (v & σ' & -> & Hv & _). cbn [obind].
    destruct (prop_of_total (uvals σ) (proj1 Hσ) (QStr s)) as (v' & Hv' & Hok). rewrite Hv in Hv'. injection Hv' as <-.
    unfold str_of. rewrite Hv. by destruct v. }
  unfold set_val, mbind, U_bind. rewrite Hread. cbn [obind]. case_decide as Hval.
  - rewrite bool_decide_true by done. by exists u.
  - rewrite bool_decide_false by done. unfold on_host, on_session, set_item_value. fold σ.
    destruct (set_value_session s (UStr val) σ Hσ) as (σ' & -> & Hok & Hu' & _). cbn [obind umodify].
    destruct (update_menu_stays σ' (u_view u) n Hok Hsel Hin) as (v' & Hv' & Hs' & Hc' & Ha' & Hl').
    { rewrite Hu', (own_node_visible (uvals σ) s (UStr val) (proj1 Hσ) Hp); [done| |done|by apply Htree].
      rewrite <- Hu'. apply Hok. }
    unfold on_view_, on_view. cbn [u_host set_u_conf_changed set_u_host h_session set_h_session u_view].
    rewrite Hv'. cbn [obind]. eexists. split; [done|]. by split_and!.
Qed.

(** ** Toggling a symbol *)

Lemma tri_now_eq s σ : session_ok (K := K) σ →
  tri_now K fuel (ISym s) σ = Ok (tri_of (K := K) (fuel := fuel) (uvals σ) s).
Proof using HK.
  intros Hσ. unfold tri_now, peek. destruct (run_expr σ (EItem (ISym s)) Hσ) as (σ' & Hr & _).
  unfold run_code in *. cbn [expr_value] in Hr. by rewrite Hr.
Qed.

Lemma assignable_now_eq i σ : session_ok (K := K) σ →
  assignable_now K fuel i σ = Ok (asg_of (K := K) (fuel := fuel) (uvals σ) i).
Proof using HK.
  intros Hσ. unfold assignable_now, peek. destruct (get_prop_spec σ (QAsg i) Hσ) as (v & σ' & -> & Hv & _).
  destruct (prop_of_total (uvals σ) (proj1 Hσ) (QAsg i)) as (v' & Hv' & Hok). rewrite Hv in Hv'. injection Hv' as <-.
  unfold asg_of. rewrite Hv. by destruct v.
Qed.

Lemma visible_prompt u n : visible u n = true → ∃ text cond, n_prompt (nod K n) = Some (text, cond) ∧ evl u cond ≠ 0%Z.
Proof using Type.
  unfold visible_of. destruct (n_prompt (nod K n)) as [[text cond]|]; [|done].
  intros [Hc _]%andb_true_iff. exists text, cond. split; [done|]. apply negb_true_iff in Hc. by apply Z.eqb_neq.
Qed.

(** The value that the space key assigns. *)
Definition next_value (l : list Z) (v : Z) : option Z :=
  match list_find (λ z, z = v) l with Some (k, _) => l !! (S k mod length l)%nat | None => None end.

Lemma next_value_total l v : v ∈ l → ∃ z, next_value l v = Some z ∧ z ∈ l.
Proof using Type.
  intros Hv. unfold next_value. destruct (list_find _ l) as [[k y]|] eqn:Hf.
  - assert (S k mod length l < length l)%nat as Hlt.
    { apply Nat.mod_upper_bound. destruct l; [by apply elem_of_nil in Hv|done]. }
    apply lookup_lt_is_Some in Hlt as [z Hz]. exists z. split; [done|]. by eapply list_elem_of_lookup_2.
  - apply list_find_None in Hf. rewrite Forall_forall in Hf. by destruct (Hf v Hv).
Qed.

Lemma next_assignable_eq s σ z : session_ok (K := K) σ →
  1 < length (asg_of (K := K) (fuel := fuel) (uvals σ) (ISym s)) →
  next_value (asg_of (K := K) (fuel := fuel) (uvals σ) (ISym s)) (tri_of (K := K) (fuel := fuel) (uvals σ) s) = Some z →
  next_assignable K fuel (ISym s) σ = Ok z.
Proof using HK.
  intros Hσ Hlen Hz. unfold next_assignable. rewrite assignable_now_eq by done. cbn [obind].
  unfold next_value in Hz. destruct (asg_of _ _) as [|a [|b l]] eqn:Hl; cbn in Hlen; [lia|lia|].
  rewrite tri_now_eq by done. cbn [obind]. destruct (list_find _ _) as [[k y]|]; [|done]. by rewrite Hz.
Qed.

Lemma changeable_eq s n σ : session_ok (K := K) σ → n_item (nod K n) = NSym s →
  BOOL_TRISTATE (s_orig_type (sym K s)) = true → visible (uvals σ) n = true →
  1 < length (asg_of (K := K) (fuel := fuel) (uvals σ) (ISym s)) → changeable K fuel n σ = Ok true.
Proof using HK.
  intros Hσ Hi Hb (text & cond & Hprompt & Hc)%visible_prompt Hlen. unfold changeable. rewrite Hi, Hprompt. cbn [item_of_node].
  rewrite expr_now_eq by done. cbn [obind]. rewrite (proj2 (Z.eqb_neq _ _) Hc). cbn [orig_type].
  rewrite assignable_now_eq by done. cbn [obind]. rewrite bool_decide_true by done.
  by destruct (s_orig_type (sym K s)).
Qed.
End Change.

(** ** Deciding that a menu tree is sound *)
Section Decide.
Variables (K : kconfig) (fuel : nat).

Definition node_okb (n : nat) : bool :=
  let N := nod K n in
  (bool_decide (n_list N = None) || n_is_menuconfig N || is_symbol_node (n_item N)) &&
  match walk K fuel (n_list N) with Ok _ => true | _ => false end &&
  match n_item N with NSym s => mem n (s_nodes (sym K s)) | _ => true end &&
  (negb (n_is_menuconfig N) || mem n (sources K n)).

Definition treeb : bool := bool_decide (0 < fuel) && forallb node_okb (map_to_list (k_nodes_store K)).*1.

Lemma treeb_ok : treeb = true → tree_ok (K := K) (fuel := fuel).
Proof using Type.
  unfold treeb. intros [Hf%bool_decide_eq_true Hall]%andb_true_iff. rewrite forallb_forall in Hall.
  assert (∀ n, node_okb n = true ∨ nod K n = dummy_node) as Hnode.
  { intros n. destruct (k_nodes_store K !! n) as [N|] eqn:Hn.
    - left. apply Hall, list_elem_of_In, list_elem_of_fmap. exists (n, N). split; [done|]. by apply elem_of_map_to_list.
    - right. unfold nod. by rewrite lookup_total_alt, Hn. }
  unfold node_okb in Hnode.
  split.
  - intros n [m Hm] Hc. destruct (Hnode n) as [H|H]; [|by rewrite H in Hm].
    apply andb_true_iff in H as [[[H _]%andb_true_iff _]%andb_true_iff _].
    apply orb_true_iff in H as [[H%bool_decide_eq_true|H]%orb_true_iff|H]; congruence.
  - intros n. destruct (Hnode n) as [H|H].
    + apply andb_true_iff in H as [[[_ H]%andb_true_iff _]%andb_true_iff _].
      destruct (walk K fuel _) as [w| |]; [by exists w|done..].
    + rewrite H. destruct fuel as [|f]; [lia|]. by exists [].
  - intros n s Hi. destruct (Hnode n) as [H|H]; [|by rewrite H in Hi].
    apply andb_true_iff in H as [[_ H]%andb_true_iff _]. rewrite Hi in H. by apply mem_true.
  - intros m Hm. destruct (Hnode m) as [H|H]; [|by rewrite H in Hm].
    apply andb_true_iff in H as [_ H]. rewrite Hm in H. by apply mem_true.
Qed.
End Decide.
