(* ===== verification/MenuRules.v ===== *)
(** * The terminal interface: theorems

    What menuconfig promises to its user: the cursor is always on a node and on
    the screen, the list shows what is visible, changing a value keeps the cursor
    and takes effect, entering and leaving a menu come back to the same place, and
    text fields keep their cursor. *)

From S2P Require Import Prelude PyStr PyText Kconst Expr Escape Incr Objects ParseState.
From S2P Require Import Printing Values Reads Session Meaning Effects ConfigFile ConfigSession ConfigWrite ConfigText.
From S2P Require Import EditText MenuView MenuShown MenuNav MenuInfo MenuKeys MenuLoop MenuSafe MenuQuit MenuDraw MenuChange.
From S2P Require Import Check Load Demo Rules ConfigRules.
From stdpp Require Import options.

Lemma tri_str_inj z t : is_tri z → is_tri t → tri_str z = tri_str t → z = t.
Proof. rewrite !is_tri_cases. by intros [->|[->| ->]] [->|[->| ->]]. Qed.

Section Rules.
Context {K : kconfig} {fuel : nat} {HK : Loaded K fuel}.
Implicit Types σ : session.

Abbreviation ok σ := (session_ok (K := K) σ).
Abbreviation visible u := (visible_of (K := K) (fuel := fuel) u).

(** C25 Whatever the user types, and however the terminal is resized, the main
    loop keeps the cursor on a node of the list and on a row of the menu window,
    where the next drawing shows it as selected, and keeps the session sound. *)
Theorem cursor_on_screen w erase expanduser cwd re_search screen h events u f r u' rows :
  names_defined (K := K) → ok (h_session h) →
  start w K fuel screen h events = Ok (Some u) →
  main_loop w K fuel erase expanduser cwd re_search f u = Ok (r, u') →
  draw_rows K fuel (h_session (u_host u')) (u_show_name u') (u_view u') = Ok rows →
  ok (h_session (u_host u')) ∧ (∃ n, sel_node (u_view u') = Ok n) ∧
  ∃ row, row ∈ rows ∧ is_selection (row_style row) = true ∧
    row_y row = (sel_node_i (u_view u') - menu_scroll (u_view u'))%Z ∧
    (0 ≤ row_y row < menu_height (u_view u'))%Z.
Proof using HK.
  intros Hdef Hok Hstart Hrun Hrows. apply start_ok in Hstart as Hu; [|done..].
  destruct (keeps_main_loop w erase expanduser cwd re_search Hdef f u r u' Hu Hrun) as [Hok' Hpos'].
  split; [done|]. split; [|by eapply draw_selected].
  destruct Hpos' as [_ Hsel _ _ _]. unfold sel_node.
  destruct (lookup_lt_is_Some_2 (shown (u_view u')) (Z.to_nat (sel_node_i (u_view u')))) as [n Hn]; [lia|].
  exists n. by rewrite Hn.
Qed.

(** C26 menuconfig loses no changes: whatever keys are typed, and whatever the file
    system refuses, the program ends only when the user declines to save (and says
    so), when the configuration file holds the values of the session, or with
    values that at some moment of the run were saved in, or loaded from, the file
    of that name. *)
Theorem quit_loses_nothing w erase expanduser cwd re_search screen h events u0 u c u1 msg u2 :
  names_defined (K := K) → ok (h_session h) →
  start w K fuel screen h events = Ok (Some u0) →
  run (K := K) (fuel := fuel) w erase expanduser cwd re_search u0 u → getch u = Ok (c, u1) →
  handle_key w K fuel erase expanduser cwd re_search c u1 = Ok (Some msg, u2) →
  msg = "Configuration (" +:+ u_conf_filename u2 +:+ ") was not saved" ∨
  saved_in (K := K) (fuel := fuel) (u_conf_filename u2) (u_host u2) ∨
  ∃ um, run (K := K) (fuel := fuel) w erase expanduser cwd re_search u0 um ∧
    (saved_in (K := K) (fuel := fuel) (u_conf_filename um) (u_host um)
     ∨ loaded_from (K := K) w (u_conf_filename um) (u_host um)) ∧
    uvals (h_session (u_host u2)) = uvals (h_session (u_host um)) ∧ u_conf_filename u2 = u_conf_filename um.
Proof using HK.
  intros Hdef Hok Hstart Hrun Hget Hkey.
  destruct (run_settled w erase expanduser cwd re_search Hdef u0 u) as [Hu Hsettled];
    [by eapply start_ok|intros ?; by eapply start_safe|done|].
  pose proof (keeps_getch u c u1 Hu Hget) as Hu1. apply quiet_getch in Hget as (E1 & E2 & E3).
  destruct (key_effect w erase expanduser cwd re_search Hdef c u1 (Some msg) u2 (proj1 Hu1) Hkey)
    as [(_ & V & _ & F) [Hc|[->|Hs]]]; [|by left|by right; left].
  right. right. destruct Hsettled as (um & R & S & Vm & Fm); [congruence|].
  exists um. split_and!; [done|done| |congruence]. unfold values in *. by rewrite V, E1.
Qed.

(** C27 A menu that is not a choice shows exactly the nodes that lie in it without
    another menu in between and that are visible, or are symbols with a node below
    them that appears; all of them in show-all mode. *)
Theorem shown_nodes_spec σ sa menu :
  ok σ → tree_ok (K := K) (fuel := fuel) → is_choice_menu K menu = false →
  ∃ l, shown_nodes K fuel sa menu σ = Ok l ∧
    ∀ n, n ∈ l ↔ inner K (n_list (nod K menu)) n ∧ appears K (visible (uvals σ)) sa n.
Proof using HK.
  intros Hσ Htree Hc. destruct (shown_nodes_total Htree σ sa menu Hσ) as [l Hl]. exists l. split; [done|].
  rewrite shown_nodes_eq in Hl by done. unfold shown_in, is_choice_menu in *. intros n.
  destruct (n_item (nod K menu)); try done;
    (split; [by eapply rec_sound|intros []; eapply rec_complete; [apply Htree|done..]]).
Qed.

(** Changing a value does not lose the cursor: when the node under it is a
    visible symbol of the current menu, assigning any text to the symbol succeeds,
    leaves the cursor on that node, and shows the nodes of the new configuration. *)
Theorem change_keeps_cursor s val u n :
  ok (h_session (u_host u)) → tree_ok (K := K) (fuel := fuel) → preset K (QTri s) = None →
  sel_node (u_view u) = Ok n → in_menu (K := K) (u_view u) n → n_item (nod K n) = NSym s →
  visible (uvals (h_session (u_host u))) n = true →
  ∃ u', set_val K fuel (ISym s) val u = Ok ((), u') ∧ sel_node (u_view u') = Ok n ∧
    ok (h_session (u_host u')) ∧ cur_menu (u_view u') = cur_menu (u_view u) ∧
    let w := uvals (h_session (u_host u)) in
    if decide (val = str_of (K := K) (fuel := fuel) w s) then u' = u
    else u_conf_changed u' = true ∧
      uvals (h_session (u_host u')) = (spec_set_value K s (UStr val) w).2 ∧
      shown_nodes K fuel (show_all (u_view u)) (cur_menu (u_view u)) (h_session (u_host u')) = Ok (shown (u_view u')).
Proof using HK. intros H1 Htree. by apply (set_val_stays Htree). Qed.

(** C30 The space key cycles through the assignable values of a symbol outside
    choices: after [_change_node] the symbol has the value that follows its old
    one in [assignable].  Its old value must be assignable (a default above the
    visibility is not); the exception is that of [assignable] itself. *)
Theorem change_node_cycles erase s u n z :
  let σ := h_session (u_host u) in
  let w := uvals σ in
  let l := asg_of (K := K) (fuel := fuel) w (ISym s) in
  ok σ → tree_ok (K := K) (fuel := fuel) → preset K (QTri s) = None →
  BOOL_TRISTATE (s_orig_type (sym K s)) = true → s_choice (sym K s) = None →
  sel_node (u_view u) = Ok n → in_menu (K := K) (u_view u) n → n_item (nod K n) = NSym s → visible w n = true →
  1 < length l → next_value l (tri_of (K := K) (fuel := fuel) w s) = Some z →
  ¬ (vis_of (K := K) (fuel := fuel) w (ISym s) = 1%Z ∧ ev (K := K) (fuel := fuel) w (s_rev_dep (sym K s)) = 1%Z ∧
     ev (K := K) (fuel := fuel) w (s_weak_rev_dep (sym K s)) = 2%Z) →
  ∃ u', change_node K fuel erase n u = Ok (true, u') ∧ sel_node (u_view u') = Ok n ∧
    ok (h_session (u_host u')) ∧ reads (K := K) (fuel := fuel) (h_session (u_host u')) (QTri s) (VTri z).
Proof using HK.
  intros σ w l Hσ Htree Hp Hb Hc Hsel Hin Hi Hvis Hlen Hz Hex.
  assert (z ∈ l) as Hzl.
  { unfold next_value in Hz. destruct (list_find _ l) as [[k y]|]; [|done]. by eapply list_elem_of_lookup_2. }
  pose proof (set_val_stays Htree s (tri_str z) u n Hσ Hp Hsel Hin Hi Hvis) as (u1 & Hset & Hs1 & Hok1 & _ & Hcase).
  assert (change_node K fuel erase n u = Ok (true, u1)) as Hchange.
  { unfold change_node, mbind, U_bind, reading. fold σ. rewrite (changeable_eq s) by done. cbn [obind].
    rewrite Hi. cbn [item_of_node orig_type].
    pose proof (next_assignable_eq s σ z Hσ Hlen Hz) as Hnext.
    destruct (s_orig_type (sym K s)); try done; fold σ; rewrite Hnext; cbn [obind]; rewrite Hset;
      cbn [obind is_y_mode_choice_sym]; by rewrite Hc. }
  exists u1. split_and!; [done..|].
  destruct (assignable_effect σ s l z Hσ Hp Hc) as (σ2 & Hs2 & Hok2 & Hr2); [by apply reads_asg|done|done|].
  destruct (set_value_session s (UTri z) σ Hσ) as (σ3 & Hs3 & _ & Hu3 & _). rewrite Hs2 in Hs3. simplify_eq.
  apply (reads_tri _ _ _ Hok2) in Hr2. apply (reads_tri _ _ _ Hok1).
  assert (is_tri z) as Htz.
  { rewrite Hr2. apply tri_of_tri, Hok2. }
  cbv zeta in Hcase. case_decide as Hstr.
  - subst u1. fold σ w. rewrite (str_of_eq w (proj1 Hσ)) in Hstr.
    assert (tri_str z = tri_str (tri_of (K := K) (fuel := fuel) w s)) as Heq by (by destruct (s_orig_type (sym K s))).
    fold σ w. eapply tri_str_inj, Heq; [done|apply tri_of_tri, Hσ].
  - destruct Hcase as (_ & -> & _). etrans; [exact Hr2|]. rewrite Hu3. f_equal. clear -Hb Htz.
    unfold spec_set_value, norm_value. rewrite Hb. by apply is_tri_cases in Htz as [->|[->| ->]].
Qed.

(** Entering a menu and leaving it again comes back to the same node on the
    same row, if nothing changed in between. *)
Theorem enter_leave σ v n v1 :
  position_ok v → shown_nodes K fuel (show_all v) (cur_menu v) σ = Ok (shown v) →
  index_of n (shown v) = Ok (sel_node_i v) → parent_menu K fuel n = Ok (cur_menu v) → n ≠ k_top_node K →
  enter_menu K fuel n σ v = Ok (true, v1) → leave_menu K fuel σ v1 = Ok v.
Proof using Type.
  intros [Hh Hs Hc Hr Hp] Hshown Hi Hparent Htop. unfold enter_menu.
  destruct (n_is_menuconfig _); [|done]. rewrite obind_Ok. intros (sub & _ & He). destruct sub as [|x sub]; [done|].
  apply obind_Ok in He as (v0 & Hv0 & [= ->]).
  assert (cur_menu v1 = n ∧ show_all v1 = show_all v ∧ menu_height v1 = menu_height v ∧
    parent_screen_rows v1 = (sel_node_i v - menu_scroll v)%Z :: parent_screen_rows v) as (E1 & E2 & E3 & E4).
  { destruct (is_choice_menu K n); [|by injection Hv0 as <-]. unfold select_selected_choice_sym in Hv0.
    destruct (n_item _); try done. apply obind_Ok in Hv0 as (o & _ & H). destruct o as [s|]; [|by injection H as <-].
    destruct (first_in _ _) as [m|]; [|by injection H as <-]. by apply obind_Ok in H as (i & _ & [= <-]). }
  unfold leave_menu. rewrite E1, decide_False, Hparent, E2 by done. cbn [obind]. rewrite Hshown. cbn [obind]. rewrite Hi.
  cbn [obind parent_screen_rows set_position set_menu menu_height]. rewrite E4, E3.
  unfold set_rows, set_position, set_menu. cbn. rewrite E2, E3. destruct v. cbn in *. do 2 f_equal. lia.
Qed.
End Rules.

(** C31 The text field of an input dialog keeps its cursor inside the text and on the
    screen whatever key is pressed, and a typed character is undone by the backspace
    key; the dialog that is drawn next shows the text from the scroll position on,
    with the terminal's cursor on the character the text cursor is on. *)
Theorem edit_text_cursor erase c s i hscroll title info W :
  (0 ≤ i ≤ zlen s)%Z → (0 ≤ hscroll)%Z → (4 ≤ win_h W)%Z → (10 ≤ win_w W)%Z →
  let width := (width_of W - 4)%Z in
  let '(s', i', hscroll') := edit_text erase c s i hscroll width in
  (0 ≤ i' ≤ zlen s')%Z ∧ (0 ≤ hscroll' ≤ i')%Z ∧ (i' < hscroll' + width)%Z ∧
  (∀ d, c = KChar d → plain_char erase d = true → edit_key erase KEY_BACKSPACE s' i' = (s, i)) ∧
  let D := draw_input_dialog title info s' i' hscroll' W in
  (has_char tab_c s' = false →
   (∀ k, (0 ≤ k < width)%Z → cell D 2 (2 + k) = (char_at (hscroll' + k) s', "edit")) ∧
   win_cursor D = (2, 2 + i' - hscroll')%Z ∧ cell D 2 (2 + i' - hscroll') = (char_at i' s', "edit")).
Proof.
  intros Hi Hh Hwh Hww width. unfold edit_text. pose proof (edit_key_cursor erase c s i Hi) as Hcur.
  assert (∀ d, c = KChar d → plain_char erase d = true →
    edit_key erase KEY_BACKSPACE (edit_key erase c s i).1 (edit_key erase c s i).2 = (s, i)) as Hundo.
  { intros d -> Hd. rewrite <- (upto_from i s) at 1 2. rewrite <- (zlen_upto i s Hi) at 3 6.
    rewrite insert_key by done. cbn [fst snd]. rewrite erase_key. by rewrite upto_from, zlen_upto. }
  destruct (edit_key erase c s i) as [s' i']. cbn [fst snd] in *.
  assert (6 ≤ width)%Z as Hw by (unfold width, width_of; lia).
  pose proof (edit_scroll_cursor s' i' hscroll width Hcur Hh Hw) as Hscroll. cbv zeta in Hscroll.
  unfold cursor_ok in *. split_and!; try lia; try done. intros Ht.
  destruct (draw_field title info s' i' (edit_scroll s' i' hscroll width) W) as [Hf Hc]; unfold width, width_of in *; try done; try lia.
  split; [exact Hf|]. split; [exact Hc|].
  replace (2 + i' - edit_scroll s' i' hscroll (win_w W - 4))%Z with (2 + (i' - edit_scroll s' i' hscroll (win_w W - 4)))%Z by lia.
  rewrite Hf by lia. do 2 f_equal. lia.
Qed.

(** ** The theorems at a concrete configuration *)

(** The interface on the demonstration configuration, in a terminal of 24 rows. *)
Definition demo_ui (events : list event) : ui :=
  match start (one_file "") demo demo_fuel (24, 80)%Z (demo_host [] []) events with
  | Ok (Some u) => u
  | _ => Ui (View 0 [] 0 0 [] false 0) (demo_host [] []) false false false "" "" (0, 0)%Z []
  end.

Definition run_ui (u : ui) : outcome (option string * ui) :=
  main_loop (one_file "") demo demo_fuel None id "/src" (λ _, None) (n_events u) u.

Definition ui_after (events : list event) : ui :=
  match run_ui (demo_ui events) with Ok (_, u) => u | _ => demo_ui [] end.

(** Down, and space on [A]. *)
Definition demo_events : list event := [Key KEY_DOWN; Key (KChar " ")].

Lemma demo_tree_ok : tree_ok (K := demo) (fuel := demo_fuel).
Proof. apply treeb_ok. vm_compute. reflexivity. Qed.

Lemma demo_start events : start (one_file "") demo demo_fuel (24, 80)%Z (demo_host [] []) events = Ok (Some (demo_ui events)).
Proof. vm_compute. reflexivity. Qed.

Lemma demo_ui_ok events : session_ok (K := demo) (h_session (u_host (demo_ui events))) ∧
  position_ok (u_view (demo_ui events)).
Proof. eapply start_ok; [apply demo_names_defined|apply demo_host_ok|apply demo_start]. Qed.

(** The interface after the keys, and what it draws. *)
Definition A_changed : ui := Eval vm_compute in ui_after demo_events.
Definition A_rows : list row := Eval vm_compute in
  match draw_rows demo demo_fuel (h_session (u_host A_changed)) false (u_view A_changed) with Ok l => l | _ => [] end.

Lemma cursor_on_screen_witness :
  session_ok (K := demo) (h_session (u_host A_changed)) ∧ (∃ n, sel_node (u_view A_changed) = Ok n) ∧
  ∃ row, row ∈ A_rows ∧ is_selection (row_style row) = true ∧
    row_y row = (sel_node_i (u_view A_changed) - menu_scroll (u_view A_changed))%Z ∧
    (0 ≤ row_y row < menu_height (u_view A_changed))%Z.
Proof.
  eapply (cursor_on_screen (K := demo) (fuel := demo_fuel) (one_file "") None id "/src" (λ _, None)
    (24, 80)%Z (demo_host [] []) demo_events (demo_ui demo_events) 3 None A_changed A_rows).
  - apply demo_names_defined.
  - apply demo_host_ok.
  - apply demo_start.
  - vm_compute. reflexivity.
  - vm_compute. reflexivity.
Defined.

(** Down, space on [A], then q and y. *)
Definition quit_events : list event := demo_events ++ [Key (KChar "q"); Key (KChar "y")].

Definition key_of (u : ui) : key * ui := match getch u with Ok r => r | _ => (esc, u) end.
Definition step_of (u : ui) : option string * ui :=
  match handle_key (one_file "") demo demo_fuel None id "/src" (λ _, None) (key_of u).1 (key_of u).2 with
  | Ok r => r
  | _ => (None, u)
  end.

(** The states before each key. *)
Definition quit_state (n : nat) : ui := Nat.iter n (λ u, (step_of u).2) (demo_ui quit_events).

Lemma quit_run : run (K := demo) (fuel := demo_fuel) (one_file "") None id "/src" (λ _, None) (demo_ui quit_events) (quit_state 2).
Proof.
  apply (run_key _ _ _ _ _ _ (quit_state 1) (key_of (quit_state 1)).1 (key_of (quit_state 1)).2).
  - apply (run_key _ _ _ _ _ _ (quit_state 0) (key_of (quit_state 0)).1 (key_of (quit_state 0)).2);
      [apply run_start|vm_compute; reflexivity..].
  - vm_compute. reflexivity.
  - vm_compute. reflexivity.
Qed.

Lemma quit_loses_nothing_witness :
  "Configuration saved to '.config'" = "Configuration (.config) was not saved" ∨
  saved_in (K := demo) (fuel := demo_fuel) ".config" (u_host (quit_state 3)) ∨
  ∃ um, run (K := demo) (fuel := demo_fuel) (one_file "") None id "/src" (λ _, None) (demo_ui quit_events) um ∧
    (saved_in (K := demo) (fuel := demo_fuel) (u_conf_filename um) (u_host um)
     ∨ loaded_from (K := demo) (one_file "") (u_conf_filename um) (u_host um)) ∧
    uvals (h_session (u_host (quit_state 3))) = uvals (h_session (u_host um)) ∧ ".config" = u_conf_filename um.
Proof.
  replace ".config" with (u_conf_filename (quit_state 3)) by (vm_compute; reflexivity).
  eapply (quit_loses_nothing (K := demo) (fuel := demo_fuel) (one_file "") None id "/src" (λ _, None)
    (24, 80)%Z (demo_host [] []) quit_events (demo_ui quit_events) (quit_state 2) (key_of (quit_state 2)).1
    (key_of (quit_state 2)).2 _ (quit_state 3)).
  - apply demo_names_defined.
  - apply demo_host_ok.
  - apply demo_start.
  - apply quit_run.
  - vm_compute. reflexivity.
  - vm_compute. reflexivity.
Defined.

Lemma shown_nodes_spec_witness :
  ∃ l, shown_nodes demo demo_fuel false (k_top_node demo) demo_session = Ok l ∧
    ∀ n, n ∈ l ↔ inner demo (n_list (nod demo (k_top_node demo))) n ∧
      appears demo (visible_of (K := demo) (fuel := demo_fuel) (uvals demo_session)) false n.
Proof.
  apply (shown_nodes_spec (K := demo) (fuel := demo_fuel)).
  - apply demo_session_ok.
  - apply demo_tree_ok.
  - reflexivity.
Defined.

(** The cursor on [A]. *)
Definition on_A : ui := Eval vm_compute in ui_after [Key KEY_DOWN].

Lemma on_A_ok : session_ok (K := demo) (h_session (u_host on_A)) ∧ position_ok (u_view on_A).
Proof.
  eapply (keeps_main_loop (K := demo) (fuel := demo_fuel) (one_file "") None id "/src" (λ _, None) demo_names_defined 2).
  - apply (demo_ui_ok [Key KEY_DOWN]).
  - vm_compute. reflexivity.
Qed.

Lemma A_in_menu : in_menu (K := demo) (u_view on_A) 7.
Proof. split; [reflexivity|]. cbn. apply inner_next. cbn. apply inner_here. Qed.

Lemma change_keeps_cursor_witness :
  ∃ u', set_val demo demo_fuel (ISym dA) "y" on_A = Ok ((), u') ∧ sel_node (u_view u') = Ok 7 ∧
    session_ok (K := demo) (h_session (u_host u')) ∧ cur_menu (u_view u') = k_top_node demo ∧
    let w := uvals (h_session (u_host on_A)) in
    if decide ("y" = str_of (K := demo) (fuel := demo_fuel) w dA) then u' = on_A
    else u_conf_changed u' = true ∧
      uvals (h_session (u_host u')) = (spec_set_value demo dA (UStr "y") w).2 ∧
      shown_nodes demo demo_fuel false (k_top_node demo) (h_session (u_host u')) = Ok (shown (u_view u')).
Proof.
  refine (change_keeps_cursor (K := demo) (fuel := demo_fuel) dA "y" on_A 7 _ _ _ _ _ _ _).
  - apply on_A_ok.
  - apply demo_tree_ok.
  - reflexivity.
  - vm_compute. reflexivity.
  - apply A_in_menu.
  - reflexivity.
  - vm_compute. reflexivity.
Defined.

Lemma change_node_cycles_witness :
  ∃ u', change_node demo demo_fuel None 7 on_A = Ok (true, u') ∧ sel_node (u_view u') = Ok 7 ∧
    session_ok (K := demo) (h_session (u_host u')) ∧
    reads (K := demo) (fuel := demo_fuel) (h_session (u_host u')) (QTri dA) (VTri 2).
Proof.
  refine (change_node_cycles (K := demo) (fuel := demo_fuel) None dA on_A 7 2 _ _ _ _ _ _ _ _ _ _ _ _).
  - apply on_A_ok.
  - apply demo_tree_ok.
  - reflexivity.
  - reflexivity.
  - reflexivity.
  - vm_compute. reflexivity.
  - apply A_in_menu.
  - reflexivity.
  - vm_compute. reflexivity.
  - apply (bool_decide_unpack _). vm_compute. exact I.
  - vm_compute. reflexivity.
  - intros [H _]. vm_compute in H. discriminate H.
Defined.

(** The choice is entered and left. *)
Definition on_choice : view := Eval vm_compute in u_view (ui_after [Key KEY_DOWN; Key KEY_DOWN; Key KEY_DOWN; Key KEY_DOWN]).
Definition in_choice : view := Eval vm_compute in
  match enter_menu demo demo_fuel 15 demo_session on_choice with Ok (_, v) => v | _ => on_choice end.

Lemma enter_leave_witness : leave_menu demo demo_fuel demo_session in_choice = Ok on_choice.
Proof.
  apply (enter_leave (K := demo) (fuel := demo_fuel) demo_session on_choice 15 in_choice).
  - split; try (vm_compute; split; congruence); vm_compute; try congruence. constructor.
  - vm_compute. reflexivity.
  - vm_compute. reflexivity.
  - vm_compute. reflexivity.
  - vm_compute. discriminate.
  - vm_compute. reflexivity.
Defined.

Definition demo_dialog : window := resize_input_dialog (24, 12)%Z "T" [] (styled_win "body").

Lemma edit_text_cursor_witness :
  let '(s, i, hscroll) := edit_text None (KChar "c") "abcdefgh" 8 0 8 in
  let D := draw_input_dialog "T" [] s i hscroll demo_dialog in
  s = "abcdefghc" ∧ hscroll = 2%Z ∧ edit_key None KEY_BACKSPACE s i = ("abcdefgh", 8%Z) ∧
  win_cursor D = (2, 9)%Z ∧ cell D 2 9 = (Char " ", "edit") ∧ cell D 2 8 = (Char "c", "edit").
Proof.
  pose proof (edit_text_cursor None (KChar "c") "abcdefgh" 8 0 "T" [] demo_dialog) as H.
  change (width_of demo_dialog - 4)%Z with 8%Z in H. cbv zeta in H.
  destruct (edit_text None (KChar "c") "abcdefgh" 8 0 8) as [[s i] hscroll] eqn:He.
  destruct H as (_ & _ & _ & Hundo & Hdraw); [vm_compute; split; discriminate|vm_compute; discriminate..|].
  vm_compute in He. injection He as <- <- <-. destruct Hdraw as (Hf & Hc & _); [reflexivity|].
  split_and!; [reflexivity|reflexivity|by apply (Hundo "c"%char)|exact Hc|apply (Hf 7%Z); lia|apply (Hf 6%Z); lia].
Defined.
