(* ===== verification/MenuStyle.v ===== *)
(** * Styles and colours: menuconfig

    The style strings of menuconfig.py and the colours behind them: the xterm
    palette, the allocation of palette entries and colour pairs, and the parsing of
    style templates.  The terminal is a record of what curses reports and of its
    attribute numbers; what the program asks curses to initialise is recorded.

    [_rgb_to_gray] is the only computation with floating-point numbers; it is
    evaluated in IEEE double precision with the operations of SpecFloat.  The other
    divisions are rounded where the quotient of floats and the exact quotient round
    alike: a half is reached only by exact quotients. *)

From S2P Require Import Prelude PyStr PyText.
From Stdlib Require Import Floats.SpecFloat.
From stdpp Require Import options.

(** ** Rounding *)

(** [round(n / d)] for a positive [d]: to the nearest integer, halves to even. *)
Definition round_div (n d : Z) : Z :=
  (let q := n / d in
   let r := n mod d in
   if 2 * r <? d then q else if d <? 2 * r then q + 1 else if Z.even q then q else q + 1)%Z.

(** Double precision *)
Definition float_of (z : Z) : spec_float := binary_normalize 53 1024 z 0 false.
Definition fmul : spec_float → spec_float → spec_float := SFmul 53 1024.
Definition fadd : spec_float → spec_float → spec_float := SFadd 53 1024.
Definition fsub : spec_float → spec_float → spec_float := SFsub 53 1024.
Definition fdiv : spec_float → spec_float → spec_float := SFdiv 53 1024.

(** A decimal literal [n / 1000] *)
Definition thousandths (n : Z) : spec_float := fdiv (float_of n) (float_of 1000).

(** [round(x)] for a finite [x] *)
Definition float_round (x : spec_float) : Z :=
  match x with
  | S754_finite s m e =>
      let n := (if s then - Z.pos m else Z.pos m)%Z in
      if (0 <=? e)%Z then Z.shiftl n e else round_div n (Z.shiftl 1 (- e))
  | _ => 0%Z
  end.

(** ** The xterm palette *)

Definition rgb : Type := Z * Z * Z.
Definition map3 (f : Z → Z) (x : rgb) : rgb := let '(r, g, b) := x in (f r, f g, f b).

Definition cube_index (x : Z) : Z := (if x <? 48 then 0 else round_div (Z.max 40 (x - 55)) 40)%Z.
Definition cube_level (x : Z) : Z := (if x =? 0 then 0 else 40 * x + 55)%Z.

Definition rgb_to_6cube : rgb → rgb := map3 cube_index.
Definition cube_to_rgb : rgb → rgb := map3 cube_level.

Definition rgb_to_gray (x : rgb) : Z :=
  let '(r, g, b) := x in
  let luma := fadd (fadd (fmul (thousandths 299) (float_of r)) (fmul (thousandths 587) (float_of g)))
                (fmul (thousandths 114) (float_of b)) in
  let index := float_round (fdiv (fsub luma (float_of 8)) (float_of 10)) in
  Z.max 0 (Z.min index 23).
Definition gray_to_rgb (index : Z) : rgb := (10 * index + 8, 10 * index + 8, 10 * index + 8)%Z.

Definition dist (x y : rgb) : Z :=
  let '(a, b, c) := x in let '(d, e, f) := y in ((a - d) ^ 2 + (b - e) ^ 2 + (c - f) ^ 2)%Z.

(** ** The terminal *)

Record terminal : Type := Terminal {
  t_has_colors : bool;
  t_can_change : bool;
  t_colors : Z;
  t_content : Z → rgb;
  t_color_pair : Z → Z;
  t_bold : Z;
  t_standout : Z;
  t_underline : Z
}.

(** [rgb2index], [color_attribs], [_style], the calls of [init_color] and
    [init_pair], and the warnings. *)
Record styles : Type := Styles {
  y_rgb : gmap rgb Z;
  y_pairs : gmap (Z * Z) Z;
  y_style : gmap string Z;
  y_inits : list (Z * rgb);
  y_init_pairs : list (Z * (Z * Z));
  y_warnings : list string
}.
Definition no_styles : styles := Styles ∅ ∅ ∅ [] [] [].

Definition style_warn (msg : string) (y : styles) : styles :=
  Styles (y_rgb y) (y_pairs y) (y_style y) (y_inits y) (y_init_pairs y)
    (y_warnings y ++ ["menuconfig warning: " +:+ msg]).
Definition set_style (key : string) (attr : Z) (y : styles) : styles :=
  Styles (y_rgb y) (y_pairs y) (<[key := attr]> (y_style y)) (y_inits y) (y_init_pairs y) (y_warnings y).

Definition rgb_str (x : rgb) : string :=
  let '(r, g, b) := x in "(" +:+ py_str r +:+ ", " +:+ py_str g +:+ ", " +:+ py_str b +:+ ")".

Section Style.
Variable t : terminal.

(** [_alloc_rgb] *)
Definition alloc_rgb (x : rgb) (y : styles) : Z * styles :=
  match y_rgb y !! x with
  | Some i => (i, y)
  | None =>
      let i := (16 + Z.of_nat (size (y_rgb y)))%Z in
      if (256 <=? i)%Z then
        (0%Z, style_warn ("Unable to allocate new RGB color  " +:+ rgb_str x +:+ " . Too many colors allocated.") y)
      else
        (i, Styles (<[x := i]> (y_rgb y)) (y_pairs y) (y_style y)
              (y_inits y ++ [(i, map3 (λ c, round_div (1000 * c) 255) x)]) (y_init_pairs y) (y_warnings y))
  end.

(** [_color_from_num] *)
Definition color_from_num (num : Z) (y : styles) : Z * styles :=
  if (num <? 16)%Z || (255 <? num)%Z || negb (t_can_change t) || (t_colors t <? 256)%Z then (num, y)
  else if (num <? 232)%Z then
    let n := (num - 16)%Z in alloc_rgb (cube_to_rgb ((n / 36) mod 6, (n / 6) mod 6, n mod 6)%Z) y
  else alloc_rgb (gray_to_rgb (num - 232)) y.

(** The search of [_color_from_rgb] for the closest colour *)
Definition closer (x : rgb) (best : option (Z * Z)) (color : Z) : option (Z * Z) :=
  let d := dist x (map3 (λ c, round_div (255 * c) 1000) (t_content t color)) in
  match best with
  | Some (_, min_dist) => if (d <? min_dist)%Z then Some (color, d) else best
  | None => Some (color, d)
  end.
Definition closest_color (x : rgb) : Z :=
  match foldl (closer x) None (seqZ 0 (t_colors t)) with Some (c, _) => c | None => -1 end.

(** The closest of the colours 16 to 255 *)
Definition approx_256 (x : rgb) : Z :=
  let c6 := rgb_to_6cube x in
  let gray := rgb_to_gray x in
  if (dist x (cube_to_rgb c6) <? dist x (gray_to_rgb gray))%Z then
    let '(r, g, b) := c6 in (16 + 36 * r + 6 * g + b)%Z
  else (232 + gray)%Z.

(** [_color_from_rgb] *)
Definition color_from_rgb (x : rgb) (y : styles) : Z * styles :=
  if (256 <=? t_colors t)%Z then
    if t_can_change t then alloc_rgb x y else (approx_256 x, y)
  else (closest_color x, y).

(** [_NAMED_COLORS] *)
Definition NAMED_COLORS : list (string * Z) :=
  [("black", 0); ("red", 1); ("green", 2); ("yellow", 3); ("blue", 4); ("magenta", 5); ("cyan", 6); ("white", 7);
   ("brightblack", 8); ("brightred", 9); ("brightgreen", 10); ("brightyellow", 11); ("brightblue", 12);
   ("brightmagenta", 13); ("brightcyan", 14); ("brightwhite", 15); ("purple", 5); ("brightpurple", 13)]%Z.

Definition is_hex_digit (c : ascii) : bool :=
  match digit_value c with Some d => (d <? 16)%Z | None => false end.

(** [re.match("#[A-Fa-f0-9]{6}", s)] and the three components *)
Definition html_color (s : string) : option rgb :=
  match s with
  | String "#" r =>
      if (6 <=? slen r)%nat && s_all is_hex_digit (stake 6 r) then
        let part i := default 0%Z (py_int 16 (stake 2 (sdrop i r))) in
        Some (part 0%nat, part 2%nat, part 4%nat)
      else None
  | _ => None
  end.

(** [parse_color], on the text behind the colon *)
Definition parse_color (color_def : string) (y : styles) : Z * styles :=
  match html_color color_def with
  | Some x => color_from_rgb x y
  | None =>
      let num := match dict_get color_def NAMED_COLORS with
                 | Some n => Some n
                 | None => py_int 0 color_def
                 end in
      match num with
      | None => ((-1)%Z, style_warn ("Ignoring color " +:+ color_def +:+ " that's neither predefined nor a number") y)
      | Some n =>
          let '(color_num, y) := color_from_num n y in
          if (-1 <=? color_num)%Z && (color_num <? t_colors t)%Z then (color_num, y)
          else ((-1)%Z, style_warn ("Ignoring color " +:+ color_def
                  +:+ ", which is outside the range -1..curses.COLORS-1 (-1.." +:+ py_str (t_colors t - 1) +:+ ")") y)
      end
  end.

(** [_style_attr] *)
Definition style_attr (fg bg attribs : Z) (y : styles) : Z * styles :=
  if t_has_colors t then
    match y_pairs y !! (fg, bg) with
    | Some a => (Z.lor a attribs, y)
    | None =>
        let n := (Z.of_nat (size (y_pairs y)) + 1)%Z in
        let a := t_color_pair t n in
        (Z.lor a attribs,
         Styles (y_rgb y) (<[(fg, bg) := a]> (y_pairs y)) (y_style y) (y_inits y)
           (y_init_pairs y ++ [(n, (fg, bg))]) (y_warnings y))
    end
  else (attribs, y).

(** A field of a style definition *)
Definition style_field (field : string) (s : Z * Z * Z * styles) : Z * Z * Z * styles :=
  let '(fg, bg, attrs, y) := s in
  if startswith "fg:" field then let '(c, y) := parse_color (sdrop 3 field) y in (c, bg, attrs, y)
  else if startswith "bg:" field then let '(c, y) := parse_color (sdrop 3 field) y in (fg, c, attrs, y)
  else if bool_decide (field = "bold") then (fg, bg, Z.lor attrs (t_bold t), y)
  else if bool_decide (field = "standout") then (fg, bg, Z.lor attrs (t_standout t), y)
  else if bool_decide (field = "underline") then (fg, bg, Z.lor attrs (t_underline t), y)
  else (fg, bg, attrs, style_warn ("Ignoring unknown style attribute " +:+ field) y).

(** [_style_to_curses] *)
Definition style_to_curses (style_def : string) (y : styles) : Z * styles :=
  let fields := if bool_decide (style_def = "") then [] else split_on ","%char style_def in
  let '(fg, bg, attrs, y) := foldl (λ s f, style_field f s) ((-1)%Z, (-1)%Z, 0%Z, y) fields in
  style_attr fg bg attrs y.

(** [_STYLES] *)
Definition STYLES : list (string * string) :=
  [("default", sjoin " "
     ["path=fg:black,bg:white,bold"; "separator=fg:black,bg:yellow,bold"; "list=fg:black,bg:white";
      "selection=fg:white,bg:blue,bold"; "inv-list=fg:red,bg:white"; "inv-selection=fg:red,bg:blue";
      "help=path"; "show-help=list"; "frame=fg:black,bg:yellow,bold"; "body=fg:white,bg:black";
      "edit=fg:white,bg:blue"; "jump-edit=edit"; "text=list"]);
   ("monochrome", sjoin " "
     ["path=bold"; "separator=bold,standout"; "list="; "selection=bold,standout"; "inv-list=bold";
      "inv-selection=bold,standout"; "help=bold"; "show-help="; "frame=bold,standout"; "body=";
      "edit=standout"; "jump-edit="; "text="]);
   ("aquatic", sjoin " "
     ["path=fg:white,bg:blue"; "separator=fg:white,bg:cyan"; "help=path"; "frame=fg:white,bg:cyan";
      "body=fg:white,bg:blue"; "edit=fg:black,bg:white"])].

(** An assignment [key=data] *)
Definition parse_assign (parsing_default : bool) (key data : string) (y : styles) : styles :=
  let y := if bool_decide (is_Some (y_style y !! key)) || parsing_default then y
           else style_warn ("Ignoring non-existent style " +:+ key) y in
  match y_style y !! data with
  | Some attr => set_style key attr y
  | None => let '(attr, y) := style_to_curses data y in set_style key attr y
  end.

(** [_parse_style]; templates may refer to templates. *)
Fixpoint parse_style (fuel : nat) (style_str : string) (parsing_default : bool) (y : styles) : outcome styles :=
  match fuel with
  | O => NoFuel
  | S fuel =>
      foldl (λ o sline,
        let! y := o in
        match s_find "=" sline 0 with
        | Some i => Ok (parse_assign parsing_default (stake i sline) (sdrop (S i) sline) y)
        | None =>
            match dict_get sline STYLES with
            | Some template => parse_style fuel template parsing_default y
            | None => Ok (style_warn ("Ignoring non-existent style template " +:+ sline) y)
            end
        end) (Ok y) (words style_str)
  end.

(** [_init_styles]; the recursion is at most three calls deep. *)
Definition init_styles (menuconfig_style : option string) : outcome styles :=
  if t_has_colors t then
    let! y := parse_style 3 "default" true no_styles in
    match menuconfig_style with
    | Some s => parse_style 3 s false y
    | None => Ok y
    end
  else parse_style 3 "monochrome" true no_styles.
End Style.

(** ** The locale of the terminal *)

(** [try_set_locale]: [supported] says which locales [setlocale] accepts for
    [LC_CTYPE]; the state is the current one. *)
Definition try_set_locale (supported : string → bool) (loc : string) (lc_ctype : string) : bool * string :=
  if supported loc then (true, loc) else (false, lc_ctype).

Fixpoint try_locales (supported : string → bool) (locs : list string) (lc_ctype : string) : string :=
  match locs with
  | [] => lc_ctype
  | loc :: locs =>
      let '(changed, lc_ctype) := try_set_locale supported loc lc_ctype in
      if changed then lc_ctype else try_locales supported locs lc_ctype
  end.

(** [_change_c_lc_ctype_to_utf8] *)
Definition change_c_lc_ctype_to_utf8 (is_windows : bool) (supported : string → bool) (lc_ctype : string) : string :=
  if is_windows then lc_ctype
  else if bool_decide (lc_ctype = "C") then try_locales supported ["C.UTF-8"; "C.utf8"; "UTF-8"] lc_ctype
  else lc_ctype.

(** Only the C locale is replaced, and only by a supported locale for UTF-8; it
    stays when there is none. *)
Lemma change_c_lc_ctype_spec is_windows supported lc_ctype :
  let loc := change_c_lc_ctype_to_utf8 is_windows supported lc_ctype in
  loc = lc_ctype ∨
    (lc_ctype = "C" ∧ is_windows = false ∧ loc ∈ ["C.UTF-8"; "C.utf8"; "UTF-8"] ∧ supported loc = true).
Proof.
  unfold change_c_lc_ctype_to_utf8. destruct is_windows; [by left|]. case_bool_decide as Hc; [|by left].
  cbn [try_locales]. unfold try_set_locale.
  destruct (supported "C.UTF-8") eqn:H1; [right|destruct (supported "C.utf8") eqn:H2; [right|destruct (supported "UTF-8") eqn:H3; [right|by left]]];
    (split_and!; [done|done| |done]); set_solver.
Qed.
