(* ===== verification/StyleRules.v ===== *)
(** * Styles and colours: theorems

    The approximations of colours are exact on the xterm palette and closest
    otherwise; the styles of the interface are complete and its colours and colour
    pairs are allocated once each, whatever MENUCONFIG_STYLE says. *)

From S2P Require Import Prelude PyStr PyText MenuStyle.
From stdpp Require Import options.

(** ** The palette *)

(** The colour of a number from 16 to 255 in the xterm palette. *)
Definition xterm_rgb (n : Z) : rgb :=
  if (n <? 232)%Z then let m := (n - 16)%Z in cube_to_rgb ((m / 36) mod 6, (m / 6) mod 6, m mod 6)%Z
  else gray_to_rgb (n - 232).

Lemma forallb_seqZ (P : Z → bool) a n : forallb P (seqZ a n) = true → ∀ x, (a ≤ x < a + n)%Z → P x = true.
Proof. rewrite forallb_forall. intros H x Hx. apply H, list_elem_of_In, elem_of_seqZ. lia. Qed.

Lemma cube_index_closest x j : (0 ≤ x ≤ 255)%Z → (0 ≤ j ≤ 5)%Z →
  (0 ≤ cube_index x ≤ 5)%Z ∧ (Z.abs (x - cube_level (cube_index x)) ≤ Z.abs (x - cube_level j))%Z.
Proof.
  intros Hx Hj.
  assert (forallb (λ x, forallb (λ j, (0 <=? cube_index x) && (cube_index x <=? 5) &&
    (Z.abs (x - cube_level (cube_index x)) <=? Z.abs (x - cube_level j)))%Z (seqZ 0 6)) (seqZ 0 256) = true) as H
    by (vm_compute; reflexivity).
  pose proof (forallb_seqZ _ _ _ H x ltac:(lia)) as H1. pose proof (forallb_seqZ _ _ _ H1 j ltac:(lia)) as H2.
  cbn beta in H2. rewrite !andb_true_iff, !Z.leb_le in H2. lia.
Qed.

Lemma rgb_to_gray_range x : (0 ≤ rgb_to_gray x ≤ 23)%Z.
Proof. destruct x as [[r g] b]. unfold rgb_to_gray. lia. Qed.

Lemma cube_index_range x : (0 ≤ x ≤ 255)%Z → (0 ≤ cube_index x ≤ 5)%Z.
Proof. intros Hx. by apply (cube_index_closest x 0). Qed.

Definition component (x : Z) : Prop := (0 ≤ x ≤ 255)%Z.
Definition rgb_ok (x : rgb) : Prop := let '(r, g, b) := x in component r ∧ component g ∧ component b.

(** A colour of the cube, by its number. *)
Lemma cube_number r g b : (0 ≤ r ≤ 5)%Z → (0 ≤ g ≤ 5)%Z → (0 ≤ b ≤ 5)%Z →
  let n := (16 + 36 * r + 6 * g + b)%Z in (16 ≤ n < 232)%Z ∧ xterm_rgb n = cube_to_rgb (r, g, b).
Proof.
  intros Hr Hg Hb n. split; [lia|]. unfold xterm_rgb. rewrite (proj2 (Z.ltb_lt n 232)) by lia.
  assert (forallb (λ m, forallb (λ r, forallb (λ g, forallb (λ b, negb (m =? 36 * r + 6 * g + b) ||
    (((m / 36) mod 6 =? r) && ((m / 6) mod 6 =? g) && (m mod 6 =? b))) (seqZ 0 6)) (seqZ 0 6)) (seqZ 0 6))
    (seqZ 0 216) = true)%Z as H by (vm_compute; reflexivity).
  pose proof (forallb_seqZ _ _ _ H (n - 16) ltac:(lia)) as H1. pose proof (forallb_seqZ _ _ _ H1 r ltac:(lia)) as H2.
  pose proof (forallb_seqZ _ _ _ H2 g ltac:(lia)) as H3. pose proof (forallb_seqZ _ _ _ H3 b ltac:(lia)) as H4.
  cbn beta in H4. rewrite (proj2 (Z.eqb_eq (n - 16) (36 * r + 6 * g + b))) in H4 by lia.
  cbn [negb orb] in H4. rewrite !andb_true_iff, !Z.eqb_eq in H4. destruct H4 as [[-> ->] ->]. done.
Qed.

Lemma square_le a b : (Z.abs a ≤ Z.abs b)%Z → (a ^ 2 ≤ b ^ 2)%Z.
Proof. intros H. rewrite !Z.pow_2_r, <- (Z.abs_square a), <- (Z.abs_square b). apply Z.mul_le_mono_nonneg; lia. Qed.

Lemma dist_refl x : dist x x = 0%Z.
Proof. destruct x as [[r g] b]. unfold dist. rewrite !Z.sub_diag. done. Qed.
Lemma dist_nonneg x y : (0 ≤ dist x y)%Z.
Proof. destruct x as [[r g] b], y as [[d e] f]. unfold dist. rewrite !Z.pow_2_r.
  pose proof (Z.square_nonneg (r - d)). pose proof (Z.square_nonneg (g - e)). pose proof (Z.square_nonneg (b - f)). lia.
Qed.
Lemma dist_zero x y : (dist x y ≤ 0)%Z → x = y.
Proof.
  destruct x as [[r g] b], y as [[d e] f]. unfold dist. rewrite !Z.pow_2_r. intros H.
  pose proof (Z.square_nonneg (r - d)). pose proof (Z.square_nonneg (g - e)). pose proof (Z.square_nonneg (b - f)).
  assert ((r - d) * (r - d) = 0)%Z as E1%Z.mul_eq_0 by lia. assert ((g - e) * (g - e) = 0)%Z as E2%Z.mul_eq_0 by lia.
  assert ((b - f) * (b - f) = 0)%Z as E3%Z.mul_eq_0 by lia. repeat f_equal; lia.
Qed.

Lemma cube_digits m : (0 ≤ (m / 36) mod 6 ≤ 5 ∧ 0 ≤ (m / 6) mod 6 ≤ 5 ∧ 0 ≤ m mod 6 ≤ 5)%Z.
Proof.
  pose proof (Z.mod_pos_bound (m / 36) 6). pose proof (Z.mod_pos_bound (m / 6) 6). pose proof (Z.mod_pos_bound m 6). lia.
Qed.

Lemma gray_exact i : (0 ≤ i ≤ 23)%Z → rgb_to_gray (gray_to_rgb i) = i.
Proof.
  intros Hi. assert (forallb (λ i, rgb_to_gray (gray_to_rgb i) =? i)%Z (seqZ 0 24) = true) as H by (vm_compute; reflexivity).
  apply Z.eqb_eq. apply (forallb_seqZ _ _ _ H). lia.
Qed.

(** C33 On terminals with 256 fixed colours the colour chosen for an RGB value is a
    colour of the palette, at least as close as the cube colour nearest in every
    component and as the gray colour of the same brightness; and colours of the
    palette are found exactly. *)
Theorem approx_256_closest x : rgb_ok x →
  let n := approx_256 x in
  (16 ≤ n ≤ 255)%Z ∧
  (∀ c, (let '(r, g, b) := c in 0 ≤ r ≤ 5 ∧ 0 ≤ g ≤ 5 ∧ 0 ≤ b ≤ 5)%Z →
     (dist x (xterm_rgb n) ≤ dist x (cube_to_rgb c))%Z) ∧
  (dist x (xterm_rgb n) ≤ dist x (gray_to_rgb (rgb_to_gray x)))%Z ∧
  (∀ m, (16 ≤ m ≤ 255)%Z → x = xterm_rgb m → xterm_rgb n = x).
Proof.
  intros Hx.
  destruct x as [[r g] b]. destruct Hx as (Hr & Hg & Hb). set (x := (r, g, b)).
  pose proof (cube_index_range r Hr) as Ir. pose proof (cube_index_range g Hg) as Ig. pose proof (cube_index_range b Hb) as Ib.
  pose proof (rgb_to_gray_range x) as Igr. set (gr := rgb_to_gray x) in *.
  pose proof (cube_number _ _ _ Ir Ig Ib) as [Hn Hcube]. cbv zeta in Hn, Hcube.
  assert (xterm_rgb (232 + gr) = gray_to_rgb gr) as Hgray.
  { unfold xterm_rgb. rewrite (proj2 (Z.ltb_ge (232 + gr) 232)) by lia. f_equal. lia. }
  set (c6 := rgb_to_6cube x).
  assert (∀ c, (let '(r, g, b) := c in 0 ≤ r ≤ 5 ∧ 0 ≤ g ≤ 5 ∧ 0 ≤ b ≤ 5)%Z →
    (dist x (cube_to_rgb c6) ≤ dist x (cube_to_rgb c))%Z) as Hbest.
  { intros [[i j] k] (Hi & Hj & Hk). unfold dist, x, c6, rgb_to_6cube, cube_to_rgb, map3, x.
    pose proof (cube_index_closest r i Hr Hi) as [_ H1]. pose proof (cube_index_closest g j Hg Hj) as [_ H2].
    pose proof (cube_index_closest b k Hb Hk) as [_ H3]. 
    repeat apply Z.add_le_mono; by apply square_le. }
  cbv zeta.
  assert (xterm_rgb (approx_256 x) = (if (dist x (cube_to_rgb c6) <? dist x (gray_to_rgb gr))%Z
    then cube_to_rgb c6 else gray_to_rgb gr) ∧ (16 ≤ approx_256 x ≤ 255)%Z) as [-> Hrange].
  { unfold approx_256. fold gr. change (rgb_to_6cube x) with (cube_index r, cube_index g, cube_index b).
    change c6 with (cube_index r, cube_index g, cube_index b).
    destruct (_ <? _)%Z; [split; [exact Hcube|cbn [fst snd]; lia]|split; [exact Hgray|lia]]. }
  split_and!; [lia|lia|..].
  - intros c Hc. specialize (Hbest c Hc). destruct (Z.ltb_spec (dist x (cube_to_rgb c6)) (dist x (gray_to_rgb gr))); lia.
  - destruct (Z.ltb_spec (dist x (cube_to_rgb c6)) (dist x (gray_to_rgb gr))); lia.
  - intros m Hm Hxm. symmetry. apply dist_zero. unfold xterm_rgb in Hxm. destruct (Z.ltb_spec m 232).
    + specialize (Hbest (_, _, _) (cube_digits (m - 16))). rewrite <- Hxm, dist_refl in Hbest.
      destruct (Z.ltb_spec (dist x (cube_to_rgb c6)) (dist x (gray_to_rgb gr))); [lia|].
      pose proof (dist_nonneg x (cube_to_rgb c6)). lia.
    + assert (gr = m - 232)%Z as Hgr by (unfold gr; rewrite Hxm at 1; apply gray_exact; lia).
      assert (dist x (gray_to_rgb gr) = 0)%Z as Hd by (rewrite Hgr, Hxm; apply dist_refl).
      pose proof (dist_nonneg x (cube_to_rgb c6)).
      destruct (Z.ltb_spec (dist x (cube_to_rgb c6)) (dist x (gray_to_rgb gr))); lia.
Qed.

(** ** Allocation *)

(** The elements of the interface, which the program looks up in [_style]. *)
Definition ELEMENTS : list string :=
  ["path"; "separator"; "list"; "selection"; "inv-list"; "inv-selection"; "help"; "show-help"; "frame"; "body";
   "edit"; "jump-edit"; "text"].

Section Allocation.
Variable t : terminal.

(** Palette entries and colour pairs are numbered in the order of allocation; each
    is initialised once, entries 16 to 255 for a colour each, pairs from 1. *)
Record allocated (y : styles) : Prop := {
  al_inits : fst <$> y_inits y = seqZ 16 (Z.of_nat (size (y_rgb y)));
  al_limit : (16 + Z.of_nat (size (y_rgb y)) ≤ 256)%Z;
  al_rgb x i : y_rgb y !! x = Some i → (i, map3 (λ c, round_div (1000 * c) 255) x) ∈ y_inits y;
  al_distinct x x' i : y_rgb y !! x = Some i → y_rgb y !! x' = Some i → x = x';
  al_pairs : fst <$> y_init_pairs y = seqZ 1 (Z.of_nat (size (y_pairs y)));
  al_pair p a : y_pairs y !! p = Some a → ∃ n, a = t_color_pair t n ∧ (n, p) ∈ y_init_pairs y
}.

(** [y'] is a later state: what was there stays. *)
Record later (y y' : styles) : Prop := {
  lt_ok : allocated y → allocated y';
  lt_rgb : y_rgb y ⊆ y_rgb y';
  lt_pairs : y_pairs y ⊆ y_pairs y';
  lt_keys : dom (y_style y) ⊆ dom (y_style y')
}.

Lemma later_refl y : later y y.
Proof using Type. by split. Qed.
Lemma later_trans y1 y2 y3 : later y1 y2 → later y2 y3 → later y1 y3.
Proof using Type. intros [? ? ? ?] [? ? ? ?]. split; [auto|by etrans..]. Qed.

Lemma later_warn msg y : later y (style_warn msg y).
Proof using Type. split; [|done..]. intros [? ? ? ? ? ?]. by split. Qed.

Lemma later_set key attr y : later y (set_style key attr y).
Proof using Type. split; [|done|done|]; [intros [? ? ? ? ? ?]; by split|]. cbn. rewrite dom_insert. set_solver. Qed.

Lemma size_insert_new {A B} `{Countable A} (m : gmap A B) k v : m !! k = None →
  Z.of_nat (size (<[k := v]> m)) = (Z.of_nat (size m) + 1)%Z.
Proof using Type. intros Hk. rewrite map_size_insert_None by done. lia. Qed.

Lemma seqZ_snoc a (n : nat) : seqZ a (Z.of_nat n + 1) = seqZ a (Z.of_nat n) ++ [(a + Z.of_nat n)%Z].
Proof using Type. rewrite seqZ_app by lia. done. Qed.

Lemma later_alloc_rgb x y : later y (alloc_rgb x y).2.
Proof using Type.
  unfold alloc_rgb. destruct (y_rgb y !! x) as [i|] eqn:Hx; [apply later_refl|].
  destruct (Z.leb_spec 256 (16 + Z.of_nat (size (y_rgb y)))); [apply later_warn|]. cbn [snd].
  split; cbn [y_rgb y_pairs y_style]; [|by apply insert_subseteq|done|done].
  intros [A1 A2 A3 A4 A5 A6]. split; cbn [y_rgb y_pairs y_style y_inits y_init_pairs]; [| | | |done|done].
  - by rewrite size_insert_new, seqZ_snoc, fmap_app, A1.
  - rewrite size_insert_new by done. lia.
  - intros x' i. rewrite elem_of_app. destruct (decide (x' = x)) as [->|Hne].
    + rewrite lookup_insert_eq. intros [= <-]. right. by apply list_elem_of_singleton.
    + rewrite lookup_insert_ne by done. left. by apply A3.
  - assert (∀ x' i, y_rgb y !! x' = Some i → (i < 16 + Z.of_nat (size (y_rgb y)))%Z) as Hlt.
    { intros x' i Hi%A3. apply (list_elem_of_fmap_2 fst) in Hi. rewrite A1 in Hi. apply elem_of_seqZ in Hi. cbn in Hi. lia. }
    intros x1 x2 i. destruct (decide (x1 = x)) as [->|H1], (decide (x2 = x)) as [->|H2];
      rewrite ?lookup_insert_eq, ?lookup_insert_ne by done; [done| | |apply A4].
    + intros [= <-] Hi%Hlt. lia.
    + intros Hi%Hlt [= <-]. lia.
Qed.

Lemma later_color_from_num n y : later y (color_from_num t n y).2.
Proof using Type. unfold color_from_num. repeat case_match; first [apply later_refl|apply later_alloc_rgb]. Qed.

Lemma later_color_from_rgb x y : later y (color_from_rgb t x y).2.
Proof using Type. unfold color_from_rgb. repeat case_match; first [apply later_refl|apply later_alloc_rgb]. Qed.

Lemma later_parse_color s y : later y (parse_color t s y).2.
Proof using Type.
  unfold parse_color. destruct (html_color s); [apply later_color_from_rgb|].
  destruct (match dict_get s NAMED_COLORS with Some n => Some n | None => py_int 0 s end) as [n|]; [|apply later_warn].
  pose proof (later_color_from_num n y) as H. destruct (color_from_num t n y) as [c y']. cbn [snd] in H.
  case_match; [done|]. eapply later_trans; [exact H|apply later_warn].
Qed.

Lemma later_style_attr fg bg a y : later y (style_attr t fg bg a y).2.
Proof using Type.
  unfold style_attr. destruct (t_has_colors t); [|apply later_refl].
  destruct (y_pairs y !! (fg, bg)) as [b|] eqn:Hp; [apply later_refl|]. cbn [snd].
  split; cbn [y_rgb y_pairs y_style]; [|done|by apply insert_subseteq|done].
  intros [A1 A2 A3 A4 A5 A6]. split; cbn [y_rgb y_pairs y_style y_inits y_init_pairs]; [done..| |].
  - rewrite size_insert_new, seqZ_snoc, fmap_app, A5 by done. cbn. do 2 f_equal. lia.
  - intros p b. destruct (decide (p = (fg, bg))) as [->|Hne].
    + rewrite lookup_insert_eq. intros [= <-]. eexists. split; [done|]. apply elem_of_app. right. by apply list_elem_of_singleton.
    + rewrite lookup_insert_ne by done. intros (n & -> & Hn)%A6. exists n. split; [done|]. apply elem_of_app. by left.
Qed.

Lemma later_style_field f s : later s.2 (style_field t f s).2.
Proof using Type.
  destruct s as [[[fg bg] attrs] y]. unfold style_field. cbn [snd].
  pose proof (later_parse_color (sdrop 3 f) y) as H. destruct (parse_color t (sdrop 3 f) y) as [c y']. cbn [snd] in H.
  repeat case_match; cbn [snd]; first [done|apply later_refl|apply later_warn].
Qed.

Lemma later_style_to_curses d y : later y (style_to_curses t d y).2.
Proof using Type.
  unfold style_to_curses. set (fields := if bool_decide (d = "") then [] else _).
  assert (∀ l s, later s.2 (foldl (λ s f, style_field t f s) s l).2) as Hl.
  { induction l as [|f l IH]; intros s; cbn [foldl]; [apply later_refl|]. eapply later_trans; [apply later_style_field|apply IH]. }
  specialize (Hl fields ((-1)%Z, (-1)%Z, 0%Z, y)). destruct (foldl _ _ _) as [[[fg bg] attrs] y'].
  eapply later_trans; [exact Hl|apply later_style_attr].
Qed.

Lemma later_parse_assign b key data y :
  later y (parse_assign t b key data y) ∧ is_Some (y_style (parse_assign t b key data y) !! key).
Proof using Type.
  unfold parse_assign. set (y0 := if _ || b then y else _).
  assert (later y y0) as H0 by (unfold y0; case_match; [apply later_refl|apply later_warn]).
  destruct (y_style y0 !! data) as [attr|].
  - split; [eapply later_trans; [exact H0|apply later_set]|]. cbn. by rewrite lookup_insert_eq.
  - pose proof (later_style_to_curses data y0) as H1. destruct (style_to_curses t data y0) as [attr y1]. cbn [snd] in H1.
    split; [|cbn; by rewrite lookup_insert_eq].
    eapply later_trans; [exact H0|]. eapply later_trans; [exact H1|apply later_set].
Qed.

(** ** Parsing *)

Lemma fold_words (step : string → styles → outcome styles) l y :
  (∀ w y, w ∈ l → ∃ y', step w y = Ok y' ∧ later y y') →
  ∃ y', foldl (λ o w, let! y := o in step w y) (Ok y) l = Ok y' ∧ later y y'.
Proof using Type.
  revert y. induction l as [|w l IH]; intros y Hstep; [exists y; split; [done|apply later_refl]|].
  destruct (Hstep w y) as (y1 & E1 & L1); [by apply elem_of_cons; left|]. cbn [foldl obind]. rewrite E1.
  destruct (IH y1) as (y2 & E2 & L2); [intros v z Hv; apply Hstep; by apply elem_of_cons; right|].
  exists y2. split; [done|]. by eapply later_trans.
Qed.

Definition is_assignment (w : string) : bool := bool_decide (is_Some (s_find "=" w 0)).

(** Texts with assignments only define their keys. *)
Lemma parse_assignments f text b y :
  forallb is_assignment (words text) = true → ∃ y', parse_style t (S f) text b y = Ok y' ∧ later y y'.
Proof using Type.
  intros Hall. cbn [parse_style]. apply fold_words. intros w y0 Hw.
  rewrite forallb_forall in Hall. specialize (Hall w ltac:(by apply list_elem_of_In)).
  apply bool_decide_eq_true in Hall as [i Hi]. rewrite Hi. eexists. split; [done|]. by apply later_parse_assign.
Qed.

Lemma parse_defines f text b y y' w i :
  forallb is_assignment (words text) = true → parse_style t (S f) text b y = Ok y' →
  w ∈ words text → s_find "=" w 0 = Some i → is_Some (y_style y' !! stake i w).
Proof using Type.
  cbn [parse_style]. intros Hall He Hw Hi. apply list_elem_of_split in Hw as (l1 & l2 & Hw). rewrite Hw in Hall, He.
  rewrite forallb_app in Hall. apply andb_true_iff in Hall as [H1 H2]. cbn [forallb] in H2.
  apply andb_true_iff in H2 as [_ H2]. rewrite foldl_app in He. cbn [foldl] in He.
  match type of He with foldl ?step _ _ = _ => set (st := step) in He end.
  assert (∀ l y, forallb is_assignment l = true → ∃ y', foldl st (Ok y) l = Ok y' ∧ later y y') as Hfold.
  { intros l z Hl. apply fold_words. intros v z0 Hv. rewrite forallb_forall in Hl.
    specialize (Hl v ltac:(by apply list_elem_of_In)). apply bool_decide_eq_true in Hl as [j Hj]. rewrite Hj.
    eexists. split; [done|]. by apply later_parse_assign. }
  destruct (Hfold l1 y H1) as (y1 & E1 & _). rewrite E1 in He. cbn [obind] in He. rewrite Hi in He.
  destruct (Hfold l2 (parse_assign t b (stake i w) (sdrop (S i) w) y1) H2) as (y2 & E2 & L2).
  rewrite He in E2. injection E2 as <-. apply elem_of_dom, (lt_keys _ _ L2), elem_of_dom.
  by apply later_parse_assign.
Qed.

Lemma templates_assign name text : dict_get name STYLES = Some text → forallb is_assignment (words text) = true.
Proof using Type.
  intros H%dict_get_In. assert (Forall (λ p, forallb is_assignment (words p.2) = true) STYLES) as Hall.
  { repeat constructor; vm_compute; reflexivity. }
  rewrite Forall_forall in Hall. apply (Hall _ H).
Qed.

Lemma parse_total f text b y : ∃ y', parse_style t (S (S f)) text b y = Ok y' ∧ later y y'.
Proof using Type.
  remember (S f) as g. cbn [parse_style]. apply fold_words. intros w y0 _. destruct (s_find "=" w 0) as [i|].
  { eexists. split; [done|]. by apply later_parse_assign. }
  destruct (dict_get w STYLES) as [text'|] eqn:Ht; [|eexists; split; [done|apply later_warn]].
  subst g. by apply parse_assignments, (templates_assign w).
Qed.

Lemma no_styles_allocated : allocated no_styles.
Proof using Type. split; cbn; try done; intros *; by rewrite lookup_empty. Qed.
End Allocation.

(** A base style defines every element. *)
Lemma base_style_complete t f name text y y' :
  dict_get name STYLES = Some text → name = "default" ∨ name = "monochrome" →
  parse_style t (S (S f)) name true y = Ok y' → Forall (λ e, is_Some (y_style y' !! e)) ELEMENTS.
Proof.
  intros Hd Hname Hp.
  assert (parse_style t (S f) text true y = Ok y') as Hp'.
  { rewrite <- Hp. remember (S f) as g. cbn [parse_style].
    destruct Hname as [-> | ->]; injection Hd as <-; cbn [words foldl obind]; done. }
  apply Forall_forall. intros e He.
  assert (Forall (λ e, existsb (λ w, match s_find "=" w 0 with Some i => bool_decide (stake i w = e) | None => false end)
    (words text) = true) ELEMENTS) as Hkeys.
  { destruct Hname as [-> | ->]; injection Hd as <-; repeat constructor; vm_compute; reflexivity. }
  rewrite Forall_forall in Hkeys. specialize (Hkeys e He). apply existsb_exists in Hkeys as (w & Hw & He').
  destruct (s_find "=" w 0) as [i|] eqn:Hi; [|done]. apply bool_decide_eq_true in He' as <-.
  eapply parse_defines; [by eapply templates_assign|exact Hp'|by apply list_elem_of_In|exact Hi].
Qed.

(** C32 Whatever MENUCONFIG_STYLE says and whatever the terminal can do, the styles
    are parsed in at most three nested calls, every element of the interface has a
    style, and colours and colour pairs are allocated soundly: palette entries are
    distinct, from 16 to 255 and initialised to their colours, and colour pairs are
    distinct and never pair 0. *)
Theorem styles_complete t menuconfig_style :
  ∃ y, init_styles t menuconfig_style = Ok y ∧
    Forall (λ e, is_Some (y_style y !! e)) ELEMENTS ∧ allocated t y ∧
    NoDup (fst <$> y_inits y) ∧ Forall (λ p, 16 ≤ p.1 ≤ 255)%Z (y_inits y) ∧
    NoDup (fst <$> y_init_pairs y) ∧ Forall (λ p, 1 ≤ p.1)%Z (y_init_pairs y).
Proof.
  assert (∀ y, allocated t y → NoDup (fst <$> y_inits y) ∧ Forall (λ p, 16 ≤ p.1 ≤ 255)%Z (y_inits y) ∧
    NoDup (fst <$> y_init_pairs y) ∧ Forall (λ p, 1 ≤ p.1)%Z (y_init_pairs y)) as Halloc.
  { intros y [A1 A2 A3 A4 A5 A6]. rewrite A1, A5. split_and!; [apply NoDup_seqZ| |apply NoDup_seqZ|];
      apply Forall_forall; intros p Hp%(list_elem_of_fmap_2 fst); rewrite ?A1, ?A5 in Hp; apply elem_of_seqZ in Hp; lia. }
  unfold init_styles. destruct (t_has_colors t).
  - destruct (parse_total t 1 "default" true no_styles) as (y1 & E1 & L1). rewrite E1. cbn [obind].
    assert (allocated t y1) as H1 by apply L1, no_styles_allocated.
    pose proof (base_style_complete t 1 "default" _ _ _ eq_refl (or_introl eq_refl) E1) as C1.
    destruct menuconfig_style as [s|]; [|exists y1; auto].
    destruct (parse_total t 1 s false y1) as (y2 & E2 & L2). exists y2. split; [done|].
    assert (allocated t y2) as H2 by by apply L2. split; [|split; [done|by apply Halloc]].
    eapply Forall_impl; [exact C1|]. intros e He. apply elem_of_dom, (lt_keys _ _ _ L2), elem_of_dom, He.
  - destruct (parse_total t 1 "monochrome" true no_styles) as (y1 & E1 & L1). exists y1. split; [done|].
    split; [|split; [apply L1, no_styles_allocated|apply Halloc, L1, no_styles_allocated]].
    eapply (base_style_complete t 1 "monochrome"); [done|by right|exact E1].
Qed.

Lemma approx_256_closest_witness :
  let n := approx_256 (95, 10, 200)%Z in
  (16 ≤ n ≤ 255)%Z ∧
  (∀ c, (let '(r, g, b) := c in 0 ≤ r ≤ 5 ∧ 0 ≤ g ≤ 5 ∧ 0 ≤ b ≤ 5)%Z →
     (dist (95, 10, 200) (xterm_rgb n) ≤ dist (95, 10, 200) (cube_to_rgb c))%Z) ∧
  (dist (95, 10, 200) (xterm_rgb n) ≤ dist (95, 10, 200) (gray_to_rgb (rgb_to_gray (95, 10, 200))))%Z ∧
  (∀ m, (16 ≤ m ≤ 255)%Z → (95, 10, 200)%Z = xterm_rgb m → xterm_rgb n = (95, 10, 200)%Z).
Proof. apply approx_256_closest. vm_compute. repeat split; discriminate. Defined.
