(* ===== verification/Merge.v ===== *)
(** * Merging configuration fragments: kconfig.py

    The script that a build runs: it loads the Kconfig files, merges configuration
    fragments, checks that the assignments took effect, and writes the
    configuration, the C header and the list of Kconfig files -- or exits without
    writing anything.

    [textwrap.fill(msg, 100)] and [sys.argv[0]] are parameters.  Writing to the null
    device evaluates every symbol and leaves the files alone. *)

From S2P Require Import Prelude PyStr PyText Kconst Expr Escape Incr Objects ParseState.
From S2P Require Import Values Session ConfigFile ConfigWrite Load.
From stdpp Require Import options.

(** The arguments of the command line. *)
Record args : Type := Args {
  a_handwritten : bool;
  a_forced : bool;
  a_zephyr_base : option string;
  a_kconfig_file : string;
  a_config_out : string;
  a_header_out : string;
  a_list_out : string;
  a_first_config : string;
  a_more_configs : list string
}.

(** The script is a computation that keeps what it has done when it exits. *)
Fixpoint filter_each {A} (f : A → HIO bool) (l : list A) : HIO (list A) :=
  match l with
  | [] => mret []
  | x :: l => b ← f x; r ← filter_each f l; mret (if (b : bool) then x :: r else r)
  end.

(** [print(msg, file=sys.stderr)] *)
Definition eprint (msg : string) (h : host) : host :=
  let note l := WLog (Incr.warn l) (warn_to_stderr l) (warnings l) (stderr l ++ [msg]) in
  set_h_session (set_vals (λ st, IState (cache st) (wtc st) (note (log st))) (h_session h)) h.

Section Merge.
Variable w : world.
Variable fuel : nat.
Variable fill : string → string.
Variable argv0 : string.

(** [warn] and [err] *)
Definition warn (msg : string) : HIO () := io_modify (eprint (nl +:+ fill ("warning: " +:+ msg) +:+ nl)).
Definition err {A} (msg : string) : HIO A := io_raise (SystemExit (nl +:+ fill ("error: " +:+ msg) +:+ nl)).

Section Checks.
Variable K : kconfig.

(** [SYM_INFO_HINT.format(sym)] *)
Definition sym_info_hint (s : nat) : string :=
  let name := s_name (sym K s) in
  "See http://docs.zephyrproject.org/latest/kconfig.html#CONFIG_" +:+ name +:+ " and/or" +:+ nl
  +:+ "look up " +:+ name +:+ " in the menuconfig/guiconfig interface. The Application" +:+ nl
  +:+ "Development Primer, Setting Configuration Values, and Kconfig - Tips and Best" +:+ nl
  +:+ "Practices sections of the manual might be helpful too.".

Definition promptless (s : nat) : bool :=
  negb (existsb (λ n, bool_decide (is_Some (n_prompt (nod K n)))) (s_nodes (sym K s))).

Definition user_value_of (s : nat) : HIO (option uval) := io_get (λ h, user_value (uvals (h_session h)) !! s).

Definition check_no_promptless_assign : HIO () :=
  io_each (λ s,
    v ← user_value_of s;
    if bool_decide (is_Some v) && promptless s then
      err (name_and_loc K (ISym s) +:+ " is assigned in a configuration file, but is not directly" +:+ nl
        +:+ "user-configurable (has no prompt). It gets its value indirectly from other" +:+ nl
        +:+ "symbols. " +:+ sym_info_hint s)
    else mret ()) (k_unique_defined_syms K).

Definition sym_type (s : nat) : HIO ktype := io_lift (on_session (run_code K fuel (λ u, symbol_type K u s))).
Definition value_of (e : expr) : HIO Z := io_lift (on_session (eval_expr K fuel e)).

(** [missing_deps(sym)] for a symbol with the given user value *)
Definition missing_deps (s : nat) (v : uval) : HIO (list expr) :=
  let deps := split_expr (s_direct_dep (sym K s)) OpAnd in
  t ← sym_type s;
  filter_each (λ e,
    x ← value_of e;
    if BOOL_TRISTATE t then
      match v with UTri z => mret (x <? z)%Z | UStr _ => io_raise TypeError end
    else mret (x =? 0)%Z) deps.

(** The text about an unsatisfied dependency. *)
Definition dep_text (e : expr) : HIO string :=
  x ← value_of e;
  let estr := expr_str (standard_sc_expr_str K) e in
  mret ((match e with EItem _ => estr | _ => "(" +:+ estr +:+ ")" end) +:+ " (=" +:+ tri_str x +:+ ")").

Fixpoint map_each {A B} (f : A → HIO B) (l : list A) : HIO (list B) :=
  match l with [] => mret [] | x :: l => y ← f x; r ← map_each f l; mret (y :: r) end.

(** The user value as a string. *)
Definition user_text (s : nat) (v : uval) : HIO string :=
  t ← sym_type s;
  match v with
  | UStr text => if BOOL_TRISTATE t then io_raise KeyError else mret text
  | UTri z =>
      if BOOL_TRISTATE t then
        match TRI_TO_STR z with Some text => mret text | None => io_raise KeyError end
      else io_raise TypeError
  end.

Definition deps_note (texts : list string) : string :=
  match texts with
  | [] => ""
  | _ => "Check these unsatisfied dependencies: " +:+ sjoin ", " texts +:+ ". "
  end.

Definition check_sym_value (s : nat) : HIO () :=
  if bool_decide (is_Some (s_choice (sym K s))) then mret ()
  else
    o ← user_value_of s;
    match o with
    | None => mret ()
    | Some v =>
        text ← user_text s v;
        val ← io_lift (on_session (str_value K fuel s));
        if bool_decide (text = val) then mret ()
        else
          mdeps ← missing_deps s v;
          texts ← map_each dep_text mdeps;
          let msg := name_and_loc K (ISym s) +:+ " was assigned the value '" +:+ text +:+ "'"
                     +:+ " but got the value '" +:+ val +:+ "'. " in
          warn (msg +:+ deps_note texts +:+ sym_info_hint s)
    end.
Definition check_assigned_sym_values : HIO () := io_each check_sym_value (k_unique_defined_syms K).

(** [choice.selection] *)
Definition selection_of (c : nat) : HIO (option nat) :=
  io_lift (on_session (λ σ, let! (v, σ) := get_prop K fuel (QSel c) σ in
    match v with VSel o => Ok (o, σ) | _ => Raise TypeError end)).

Definition check_choice_value (c : nat) : HIO () :=
  o ← io_get (λ h, user_selection (uvals (h_session h)) !! c);
  match o with
  | None => mret ()
  | Some s =>
      chosen ← selection_of c;
      if bool_decide (chosen = Some s) then mret ()
      else
        warn ("The choice symbol " +:+ name_and_loc K (ISym s) +:+ " was selected (set =y)," +:+ nl
          +:+ "but " +:+ match chosen with Some t => name_and_loc K (ISym t) | None => "no symbol" end
          +:+ " ended" +:+ nl +:+ "up as the choice selection. " +:+ sym_info_hint s)
  end.
Definition check_assigned_choice_values : HIO () := io_each check_choice_value (k_unique_choices K).

(** [check_deprecated], [check_experimental] and [check_not_secure]: warnings for
    the symbols that select a given one. *)
Definition selector_name (e : expr) : outcome string :=
  match split_expr e OpAnd with
  | EItem (ISym s) :: _ => Ok (s_name (sym K s))
  | EItem (ICho c) :: _ => Ok (default "None" (c_name (cho K c)))
  | _ => Raise AttributeError
  end.

Definition check_selectors (name what : string) : HIO () :=
  let n := ESym (k_sym_n K) in
  let dep_expr := match dict_get name (k_syms K) with None => n | Some s => s_rev_dep (sym K s) end in
  if bool_decide (dep_expr = n) then mret ()
  else
    selectors ← filter_each (λ e, x ← value_of e; mret (x =? 2)%Z) (split_expr dep_expr OpOr);
    io_each (λ e, name ← io_lift (λ h, let! t := selector_name e in Ok (t, h));
                   warn (what +:+ " symbol " +:+ name +:+ " is enabled.")) selectors.

Definition check_deprecated : HIO () := check_selectors "DEPRECATED" "Deprecated".
Definition check_experimental : HIO () := check_selectors "EXPERIMENTAL" "Experimental".
Definition check_not_secure : HIO () := check_selectors "NOT_SECURE" "Not secure".

(** [kconf.syms.get(name, kconf.y).tri_value == 2] *)
Definition enabled (name : string) : HIO bool :=
  v ← io_lift (on_session (tri_value K fuel (default (k_sym_y K) (dict_get name (k_syms K)))));
  mret (v =? 2)%Z.

(** [re.search(r"warning:.*set more than once.", warning)] *)
Definition one_line (s : string) : string := stake (default (slen s) (find_at (startswith nl) s 0)) s.
Definition set_more_than_once (warning : string) : bool :=
  bool_decide (is_Some (find_at (λ s,
    startswith "warning:" s &&
    bool_decide (is_Some (find_at (λ t, startswith "set more than once" t && (18 <? slen t)%nat)
                            (one_line (sdrop 8 s)) 0))) warning 0)).

(** Whether the warnings make the script fail; they are printed. *)
Fixpoint report (error_out : bool) (l : list string) : HIO bool :=
  match l with
  | [] => mret error_out
  | warning :: l => io_modify (eprint (nl +:+ warning));; report (error_out || negb (set_more_than_once warning)) l
  end.
Definition check_warnings (forced : bool) : HIO () :=
  l ← io_get (λ h, warnings (log (vals (h_session h))));
  match l with
  | [] => mret ()
  | _ =>
      error_out ← report (negb forced) l;
      if (error_out : bool) then err "Aborting due to Kconfig warnings" else mret ()
  end.

(** The settings of the warnings for a mode. *)
Definition set_warnings (a : args) : HIO () := io_modify (λ h,
  let h := if a_handwritten a then
             Host (h_session h) (h_files h) (h_missing h) true false false (h_old_vals h) (h_touched h) (h_stdout h)
           else h in
  if a_forced a then set_h_warn_dup (h_warn_override h) false h else h).

(** [print(kconf.load_config(config, replace))] *)
Definition load_fragment (replace : bool) (filename : string) : HIO () :=
  msg ← io_lift (load_config w K fuel (Some filename) replace);
  io_modify (print msg).

(** [kconf.write_config(os.devnull)] *)
Definition evaluate_all : HIO () := io_lift (on_session (config_contents K fuel None));; mret ().

(** [main], from the loaded Kconfig files to the merged configuration, the checks,
    and the decision to write. *)
Definition load_fragments (a : args) : HIO () :=
  set_warnings a;;
  load_fragment true (a_first_config a);;
  io_each (load_fragment false) (a_more_configs a).

Definition check_values (a : args) : HIO () :=
  (if a_handwritten a then
     check_no_promptless_assign;; check_assigned_sym_values;; check_assigned_choice_values
   else mret ());;
  deprecated ← enabled "WARN_DEPRECATED";
  (if (deprecated : bool) then check_deprecated else mret ());;
  experimental ← enabled "WARN_EXPERIMENTAL";
  (if (experimental : bool) then check_experimental else mret ());;
  check_not_secure;;
  evaluate_all.

(** [write_kconfig_filenames] *)
Definition kconfig_list_text (filenames : list string) : string :=
  let paths := (λ path, w_realpath w (path_join (k_srctree K) path)) <$> remove_dups filenames in
  sconcat ((λ path, path +:+ nl) <$> py_sorted (remove_dups paths)).
Definition write_kconfig_filenames (filenames : list string) (path : string) : HIO () :=
  write_file w path (kconfig_list_text filenames).

(** The outputs. *)
Definition write_outputs (a : args) (filenames : list string) : HIO () :=
  msg ← write_config w K fuel (Some (a_config_out a)) None true;
  io_modify (print msg);;
  msg ← write_autoconf w K fuel (Some (a_header_out a)) None;
  io_modify (print msg);;
  write_kconfig_filenames filenames (a_list_out a).

Definition merge (a : args) (filenames : list string) : HIO () :=
  load_fragments a;; check_values a;; check_warnings (a_forced a);; write_outputs a filenames.
End Checks.

(** [Kconfig(args.kconfig_file, warn_to_stderr=False, suppress_traceback=True)] *)
Definition parse_kconfig (filename : string) : outcome pstate :=
  let cmd := if bool_decide (argv0 = "") then "" else argv0 +:+ ": " in
  match load w fuel filename true false with
  | Raise (KconfigError msg) | Raise (OSError msg) => Raise (SystemExit (cmd +:+ strip msg))
  | r => r
  end.

(** The host of a Kconfig object just loaded. *)
Definition fresh_host (p : pstate) (files : gmap string string) : host :=
  Host (initial_session (p_k p) (p_log p)) files []
    (bool_decide (w_env w "KCONFIG_WARN_UNDEF_ASSIGN" = Some "y")) true true ∅ [] [].
End Merge.

(** [os.environ['ZEPHYR_BASE'] = args.zephyr_base] *)
Definition with_zephyr_base (base : option string) (w : world) : world :=
  match base with
  | None | Some "" => w
  | Some _ =>
      World (λ name, if decide (name = "ZEPHYR_BASE") then base else w_env w name) (w_file w) (w_errno w)
        (w_glob w) (w_shell w) (w_realpath w) (w_uname_release w) (w_functions w)
        (w_write w) (w_replace w)
  end.

(** [main]; without a host when the Kconfig files cannot be loaded *)
Definition main (w : world) (fuel : nat) (fill : string → string) (argv0 : string) (a : args)
    (files : gmap string string) : outcome () * option host :=
  let w := with_zephyr_base (a_zephyr_base a) w in
  match parse_kconfig w fuel argv0 (a_kconfig_file a) with
  | Ok p =>
      let h := print ("Parsing " +:+ a_kconfig_file a) (fresh_host w p files) in
      let (r, h) := merge w fuel fill (p_k p) a (p_filenames p) h in (r, Some h)
  | Raise e => (Raise e, None)
  | NoFuel => (NoFuel, None)
  end.
