(* ===== verification/MergeChecks.v ===== *)
(** * What the checks of the merge script say

    The computations of kconfig.py that read a session: they return what the user
    values determine, leave files and user values alone, and print a list of
    messages that the user values determine as well. *)

From S2P Require Import Prelude PyStr PyText Kconst Expr Escape Incr Objects ParseState.
From S2P Require Import Values Reads Session Meaning Effects ConfigFile ConfigSession ConfigWrite ConfigText Merge.
From stdpp Require Import options.

(** ** Evaluation prints nothing when warnings are only collected *)

Definition quiet_step (l l' : wlog) : Prop :=
  warn_to_stderr l = false → warn_to_stderr l' = false ∧ stderr l' = stderr l.

Lemma quiet_refl l : quiet_step l l.
Proof. done. Qed.
Lemma quiet_trans l1 l2 l3 : quiet_step l1 l2 → quiet_step l2 l3 → quiet_step l1 l3.
Proof. intros H1 H2 H. destruct (H1 H) as [H' E1]. destruct (H2 H') as [H'' E2]. split; [done|]. by rewrite E2. Qed.

Lemma quiet_log_warn msg loc l : quiet_step l (log_warn msg loc l).
Proof. unfold quiet_step, log_warn. intros H. case_match; [|done]. cbn. by rewrite H. Qed.

Lemma exec_quiet {A} (get : query → kstate → outcome (val * kstate)) (p : code A) st a st' :
  (∀ q st v st', get q st = Ok (v, st') → quiet_step (log st) (log st')) →
  exec get p st = Ok (a, st') → quiet_step (log st) (log st').
Proof.
  intros Hget. revert st a st'. induction p as [A b|A q k IH|A i b k IH|A m IHm k IH|A e]; intros st a st'; cbn [exec].
  - by intros [= _ <-].
  - rewrite obind_Ok. intros ([v st1] & Hv & Hk). eapply quiet_trans; [by eapply Hget|by eapply IH].
  - intros Hk. by apply IH in Hk.
  - rewrite obind_Ok. intros ([msg st1] & Hm & Hk). apply IHm in Hm. apply IH in Hk. cbn [log do_warn] in Hk.
    eapply quiet_trans; [exact Hm|]. eapply quiet_trans; [apply quiet_log_warn|exact Hk].
  - done.
Qed.

Section Quiet.
Variables (K : kconfig) (fuel : nat).

Lemma eval_quiet u f q st v st' : eval (body K) u f q st = Ok (v, st') → quiet_step (log st) (log st').
Proof using Type.
  revert q st v st'. induction f as [|f IH]; intros q st v st'; cbn [eval]; [done|].
  destruct (cache st !! q); [by intros [= _ <-]|]. rewrite obind_Ok. intros ([x st1] & Hx & [= _ <-]).
  cbn [log set_cache]. eapply exec_quiet; [|exact Hx]. apply IH.
Qed.

(** A function that prints nothing. *)
Definition quiet_session (σ σ' : session) : Prop := quiet_step (log (vals σ)) (log (vals σ')).
Abbreviation silent := (steps_by quiet_session).

Lemma quiet_session_trans σ1 σ2 σ3 : quiet_session σ1 σ2 → quiet_session σ2 σ3 → quiet_session σ1 σ3.
Proof using Type. apply quiet_trans. Qed.

Lemma silent_prop q : silent (get_prop K fuel q).
Proof using Type.
  intros σ v σ'. unfold get_prop. rewrite obind_Ok. intros ([x st] & Hx & [= _ <-]). by eapply eval_quiet.
Qed.
Lemma silent_code {A} (p : ustate → code A) : silent (run_code K fuel p).
Proof using Type.
  intros σ v σ'. unfold run_code. rewrite obind_Ok. intros ([x st] & Hx & [= _ <-]). unfold quiet_session. cbn.
  eapply exec_quiet; [|exact Hx]. intros q st1 y st2. apply eval_quiet.
Qed.
Lemma silent_ret {A} (a : A) : silent (λ σ, Ok (a, σ)).
Proof using Type. apply steps_ret. by intros σ ?. Qed.
Lemma silent_bind {A B} (f : session → outcome (A * session)) (g : A → session → outcome (B * session)) :
  silent f → (∀ a, silent (g a)) → silent (λ σ, let! (a, σ) := f σ in g a σ).
Proof using Type. apply steps_bind, quiet_session_trans. Qed.
Lemma silent_str s : silent (str_value K fuel s).
Proof using Type. apply steps_str; [by intros σ ?|apply quiet_session_trans|apply silent_prop]. Qed.
Lemma silent_tri s : silent (tri_value K fuel s).
Proof using Type. apply steps_tri; [by intros σ ?|apply quiet_session_trans|apply silent_prop]. Qed.
Lemma silent_contents header : silent (config_contents K fuel header).
Proof using Type.
  apply steps_contents; [by intros σ ?|apply quiet_session_trans|apply silent_prop|intros e; apply silent_code].
Qed.
End Quiet.

(** ** Computations with determined results and messages *)
Section Says.
Context {K : kconfig} {fuel : nat} {HK : Loaded K fuel}.
Variable u : ustate.

Abbreviation evl := (ev (K := K) (fuel := fuel) u).
Abbreviation str := (str_of (K := K) (fuel := fuel) u).

Definition logged (h : host) : wlog := log (vals (h_session h)).

(** [h'] is [h] after reading, with the messages printed in between; the warnings
    of the library are not printed, only collected. *)
Record said (h h' : host) (msgs : list string) : Prop := {
  sd_ok : session_ok (K := K) (h_session h');
  sd_u : uvals (h_session h') = u;
  sd_frame : frame h h';
  sd_err : warn_to_stderr (logged h) = false →
    warn_to_stderr (logged h') = false ∧ stderr (logged h') = stderr (logged h) ++ msgs
}.

Definition ready (h : host) : Prop := session_ok (K := K) (h_session h) ∧ uvals (h_session h) = u.

Definition says {A} (f : HIO A) (a : A) (msgs : list string) : Prop :=
  ∀ h, ready h → ∃ h', f h = (Ok a, h') ∧ said h h' msgs.

Lemma said_refl h : ready h → said h h [].
Proof using Type. intros [H1 H2]. split; [done..|apply frame_refl|]. intros H. by rewrite app_nil_r. Qed.

Lemma says_ret {A} (a : A) : says (mret a) a [].
Proof using Type. intros h Hh. exists h. split; [done|by apply said_refl]. Qed.

Lemma says_bind {A B} (f : HIO A) (g : A → HIO B) a b l1 l2 :
  says f a l1 → says (g a) b l2 → says (f ≫= g) b (l1 ++ l2).
Proof using Type.
  intros Hf Hg h Hh. destruct (Hf h Hh) as (h1 & E1 & [A1 A2 A3 A4]).
  destruct (Hg h1) as (h2 & E2 & [B1 B2 B3 B4]); [done|].
  exists h2. rewrite (io_bind_ok _ _ _ _ _ E1). split; [done|]. split; [done..|by eapply frame_trans|].
  intros H. destruct (A4 H) as [H1 E3]. destruct (B4 H1) as [H2 E4]. split; [done|]. by rewrite E4, E3, app_assoc.
Qed.

Lemma says_silent {A B} (f : HIO A) (g : A → HIO B) a b l :
  says f a [] → says (g a) b l → says (f ≫= g) b l.
Proof using Type. apply says_bind. Qed.

Lemma says_uvals {A} (f : host → A) (g : ustate → A) :
  (∀ h, f h = g (uvals (h_session h))) → says (io_get f) (g u) [].
Proof using Type.
  intros Hf h Hh. exists h. unfold io_get. rewrite Hf, (proj2 Hh). split; [done|by apply said_refl].
Qed.

Lemma says_session {A} (f : session → outcome (A * session)) a :
  gives (K := K) u f a → steps_by quiet_session f → says (io_lift (on_session f)) a [].
Proof using Type.
  intros Hf Hs h [H1 H2]. destruct (Hf (h_session h) H1 H2) as (σ' & E & Hok & Hu').
  exists (set_h_session σ' h). split; [by apply io_on_session|].
  split; [done..|apply frame_session|]. intros H. destruct (Hs _ _ _ E H) as [Hq He]. split; [done|].
  rewrite app_nil_r. exact He.
Qed.

Lemma says_warn fill msg : says (warn fill msg) () [nl +:+ fill ("warning: " +:+ msg) +:+ nl].
Proof using Type.
  intros h [H1 H2]. eexists. split; [done|]. split; [|done|apply frame_session|done].
  destruct H1 as [? [? ? ?]]. split; [done|]. by split.
Qed.

Lemma says_for_each {A} (f : A → HIO ()) (msgs : A → list string) l :
  (∀ x, x ∈ l → says (f x) () (msgs x)) → says (io_each f l) () (concat (msgs <$> l)).
Proof using Type.
  induction l as [|x l IH]; intros Hf; cbn [io_each fmap list_fmap concat]; [apply says_ret|].
  eapply says_bind; [apply Hf; by apply elem_of_cons; left|]. apply IH. intros y Hy. apply Hf. by apply elem_of_cons; right.
Qed.

Lemma says_filter_each {A} (f : A → HIO bool) (b : A → bool) l :
  (∀ x, x ∈ l → says (f x) (b x) []) → says (filter_each f l) (List.filter b l) [].
Proof using Type.
  induction l as [|x l IH]; intros Hf; cbn [filter_each List.filter]; [apply says_ret|].
  eapply says_silent; [apply Hf; by apply elem_of_cons; left|].
  eapply says_silent; [apply IH; intros y Hy; apply Hf; by apply elem_of_cons; right|].
  destruct (b x); apply says_ret.
Qed.

Lemma says_map_each {A B} (f : A → HIO B) (g : A → B) l :
  (∀ x, x ∈ l → says (f x) (g x) []) → says (map_each f l) (g <$> l) [].
Proof using Type.
  induction l as [|x l IH]; intros Hf; cbn [map_each fmap list_fmap]; [apply says_ret|].
  eapply says_silent; [apply Hf; by apply elem_of_cons; left|].
  eapply says_silent; [apply IH; intros y Hy; apply Hf; by apply elem_of_cons; right|apply says_ret].
Qed.

(** *** Reads *)
Lemma says_value e : says (value_of fuel K e) (evl e) [].
Proof using HK. apply says_session; [apply gives_expr|apply silent_code]. Qed.

Lemma says_type s : says (sym_type fuel K s) (type_of (K := K) (fuel := fuel) u s) [].
Proof using HK. apply says_session; [|apply silent_code]. intros σ Hσ <-. by apply run_type. Qed.

Lemma says_str s : says (io_lift (on_session (str_value K fuel s))) (str s) [].
Proof using HK. apply says_session; [apply gives_str|apply silent_str]. Qed.

Lemma says_tri s : says (io_lift (on_session (tri_value K fuel s))) (tri_of (K := K) (fuel := fuel) u s) [].
Proof using HK. apply says_session; [apply gives_tri_value|apply silent_tri]. Qed.

Lemma says_selection c : says (selection_of fuel K c) (sel_of (K := K) (fuel := fuel) u c) [].
Proof using HK.
  apply says_session.
  - intros σ Hσ <-. destruct (get_prop_spec σ (QSel c) Hσ) as (v & σ' & -> & Hv & Hok & Hu'). cbn [obind].
    destruct (prop_of_total (uvals σ) (proj1 Hσ) (QSel c)) as (v' & Hv' & Ha). rewrite Hv in Hv'. injection Hv' as <-.
    unfold sel_of. rewrite Hv. destruct v; try done. by exists σ'.
  - apply silent_bind; [apply silent_prop|]. intros []; first [apply silent_ret|by intros ?].
Qed.

Lemma says_uok {A} (f : HIO A) a l : (uok K u → says f a l) → says f a l.
Proof using Type. intros Hf h Hh. pose proof Hh as ([Huok _] & Hu). rewrite Hu in Huok. by apply Hf. Qed.

(** *** [check_assigned_sym_values] *)

Definition value_text (v : uval) : string := match v with UTri z => tri_str z | UStr t => t end.

(** The symbols whose assigned value did not take. *)
Definition mismatch (s : nat) : bool :=
  bool_decide (s_choice (sym K s) = None) &&
  match user_value u !! s with Some v => negb (bool_decide (value_text v = str s)) | None => false end.

Definition unsatisfied (s : nat) (v : uval) (e : expr) : bool :=
  match v with UTri z => (evl e <? z)%Z | UStr _ => (evl e =? 0)%Z end.

Definition dependency_text (e : expr) : string :=
  let estr := expr_str (standard_sc_expr_str K) e in
  (match e with EItem _ => estr | _ => "(" +:+ estr +:+ ")" end) +:+ " (=" +:+ tri_str (evl e) +:+ ")".

Definition mismatch_text (s : nat) : string :=
  let v := default (UTri 0) (user_value u !! s) in
  let deps := List.filter (unsatisfied s v) (split_expr (s_direct_dep (sym K s)) OpAnd) in
  (name_and_loc K (ISym s) +:+ " was assigned the value '" +:+ value_text v +:+ "'"
    +:+ " but got the value '" +:+ str s +:+ "'. ") +:+
  deps_note (dependency_text <$> deps) +:+ sym_info_hint K s.

Definition warning_text (fill : string → string) (msg : string) : string :=
  nl +:+ fill ("warning: " +:+ msg) +:+ nl.

(** The type of a symbol is bool or tristate exactly if its user values are. *)
Lemma type_of_user s v : uok K u → user_value u !! s = Some v →
  BOOL_TRISTATE (type_of (K := K) (fuel := fuel) u s) = match v with UTri _ => true | UStr _ => false end.
Proof using Type.
  intros Hu Hv. pose proof (uok_sym _ _ Hu s v Hv) as Ht. unfold type_of, mod_type.
  destruct (s_orig_type (sym K s)), v; cbn in *; repeat case_match; done.
Qed.

Lemma says_user_text s v : user_value u !! s = Some v → says (user_text fuel K s v) (value_text v) [].
Proof using HK.
  intros Hv. apply says_uok. intros Hu. unfold user_text. eapply says_silent; [apply says_type|].
  rewrite (type_of_user s v Hu Hv). destruct v as [z|t]; [|apply says_ret].
  pose proof (uok_sym _ _ Hu s _ Hv) as Ht. cbn in Ht.
  unfold value_text, tri_str. destruct (TRI_TO_STR z) eqn:Hz; [apply says_ret|].
  exfalso. assert (is_tri z) as [x Hx]%tri_str_ok; [|congruence].
  revert Ht. unfold is_tri. destruct (s_orig_type _); naive_solver lia.
Qed.

Lemma says_missing_deps s v : user_value u !! s = Some v →
  says (missing_deps fuel K s v) (List.filter (unsatisfied s v) (split_expr (s_direct_dep (sym K s)) OpAnd)) [].
Proof using HK.
  intros Hv. apply says_uok. intros Hu. unfold missing_deps. eapply says_silent; [apply says_type|].
  apply says_filter_each. intros e _. eapply says_silent; [apply says_value|].
  rewrite (type_of_user s v Hu Hv). unfold unsatisfied. destruct v; apply says_ret.
Qed.

Lemma says_dep_text e : says (dep_text fuel K e) (dependency_text e) [].
Proof using HK. unfold dep_text. eapply says_silent; [apply says_value|apply says_ret]. Qed.

Lemma says_sym_value fill s :
  says (check_sym_value fuel fill K s) () (if mismatch s then [warning_text fill (mismatch_text s)] else []).
Proof using HK.
  unfold check_sym_value, mismatch. destruct (s_choice (sym K s)) as [c|]; cbn [is_Some_dec].
  - rewrite bool_decide_true by eauto. rewrite bool_decide_false by done. apply says_ret.
  - rewrite bool_decide_false by (by intros [? ?]). rewrite bool_decide_true by done. cbn [andb].
    eapply says_silent; [apply (says_uvals _ (λ u, user_value u !! s)); done|].
    destruct (user_value u !! s) as [v|] eqn:Hv; [|apply says_ret].
    eapply says_silent; [by apply says_user_text|]. eapply says_silent; [apply says_str|].
    case_bool_decide as Heq; cbn [negb]; [apply says_ret|].
    eapply says_silent; [by apply says_missing_deps|].
    eapply says_silent; [apply (says_map_each _ dependency_text); intros e _; apply says_dep_text|].
    unfold mismatch_text. rewrite Hv. cbn [from_option]. unfold id. apply says_warn.
Qed.

Lemma concat_if {A B} (b : A → bool) (f : A → B) l :
  concat ((λ x, if b x then [f x] else []) <$> l) = f <$> List.filter b l.
Proof using Type. induction l as [|x l IH]; [done|]. cbn. rewrite IH. by destruct (b x). Qed.

Lemma says_assigned_sym_values fill :
  says (check_assigned_sym_values fuel fill K) ()
    ((λ s, warning_text fill (mismatch_text s)) <$> List.filter mismatch (k_unique_defined_syms K)).
Proof using HK.
  unfold check_assigned_sym_values. rewrite <- concat_if. apply says_for_each. intros s _. apply says_sym_value.
Qed.

(** *** [check_assigned_choice_values] *)

Definition lost_selection (c : nat) : bool :=
  match user_selection u !! c with
  | Some s => negb (bool_decide (sel_of (K := K) (fuel := fuel) u c = Some s))
  | None => false
  end.

Definition selection_text (c : nat) : string :=
  match user_selection u !! c with
  | Some s =>
      "The choice symbol " +:+ name_and_loc K (ISym s) +:+ " was selected (set =y)," +:+ nl
        +:+ "but " +:+ match sel_of (K := K) (fuel := fuel) u c with
                       | Some t => name_and_loc K (ISym t) | None => "no symbol" end
        +:+ " ended" +:+ nl +:+ "up as the choice selection. " +:+ sym_info_hint K s
  | None => ""
  end.

Lemma says_assigned_choice_values fill :
  says (check_assigned_choice_values fuel fill K) ()
    ((λ c, warning_text fill (selection_text c)) <$> List.filter lost_selection (k_unique_choices K)).
Proof using HK.
  unfold check_assigned_choice_values. rewrite <- concat_if. apply says_for_each. intros c _.
  unfold check_choice_value, lost_selection, selection_text.
  eapply says_silent; [apply (says_uvals _ (λ u, user_selection u !! c)); done|].
  destruct (user_selection u !! c) as [s|]; [|apply says_ret].
  eapply says_silent; [apply says_selection|].
  case_bool_decide; cbn [negb]; [apply says_ret|apply says_warn].
Qed.

(** *** [check_selectors] *)

Definition selectors (name : string) : list expr :=
  match dict_get name (k_syms K) with
  | Some s =>
      if bool_decide (s_rev_dep (sym K s) = ESym (k_sym_n K)) then []
      else List.filter (λ e, evl e =? 2)%Z (split_expr (s_rev_dep (sym K s)) OpOr)
  | None => []
  end.

(** Each selecting condition starts with the selecting symbol. *)
Definition named_selectors (name : string) : Prop :=
  Forall (λ e, ∃ t, selector_name K e = Ok t) (selectors name).

Definition selector_text (what : string) (e : expr) : string :=
  what +:+ " symbol " +:+ match selector_name K e with Ok t => t | _ => "" end +:+ " is enabled.".

Lemma says_selectors fill name what : named_selectors name →
  says (check_selectors fuel fill K name what) ()
    ((λ e, warning_text fill (selector_text what e)) <$> selectors name).
Proof using HK.
  unfold named_selectors, selectors, check_selectors. destruct (dict_get name (k_syms K)) as [s|].
  2: { intros _. rewrite bool_decide_true by done. apply says_ret. }
  case_bool_decide; intros Hnamed; [apply says_ret|].
  eapply says_silent; [apply says_filter_each; intros e _; eapply says_silent; [apply says_value|apply says_ret]|].
  rewrite Forall_forall in Hnamed. revert Hnamed. generalize (List.filter (λ e, evl e =? 2)%Z (split_expr (s_rev_dep (sym K s)) OpOr)).
  intros l Hnamed. rewrite <- (app_nil_r (_ <$> l)).
  assert (∀ l : list expr, (λ e, warning_text fill (selector_text what e)) <$> l
    = concat ((λ e, [warning_text fill (selector_text what e)]) <$> l)) as ->.
  { clear. intros l. induction l as [|x l IH]; [done|]. cbn. by rewrite IH. }
  rewrite app_nil_r. apply says_for_each. intros e He. destruct (Hnamed e He) as [t Ht].
  eapply says_silent; [|unfold selector_text; rewrite Ht; apply says_warn].
  intros h Hh. exists h. unfold io_lift. rewrite Ht. cbn [obind]. split; [done|by apply said_refl].
Qed.

Lemma says_enabled name :
  says (enabled fuel K name)
    (tri_of (K := K) (fuel := fuel) u (default (k_sym_y K) (dict_get name (k_syms K))) =? 2)%Z [].
Proof using HK. eapply says_silent; [apply says_tri|apply says_ret]. Qed.

(** *** [check_no_promptless_assign] *)

Definition assigned_promptless (s : nat) : bool := bool_decide (is_Some (user_value u !! s)) && promptless K s.

Lemma promptless_ok fill :
  existsb assigned_promptless (k_unique_defined_syms K) = false → says (check_no_promptless_assign fill K) () [].
Proof using Type.
  unfold check_no_promptless_assign. induction (k_unique_defined_syms K) as [|s l IH]; cbn [existsb io_each]; [intros _; apply says_ret|].
  intros [Hs Hl]%orb_false_iff. eapply says_silent; [|by apply IH].
  eapply says_silent; [apply (says_uvals _ (λ u, user_value u !! s)); done|].
  unfold assigned_promptless in Hs. rewrite Hs. apply says_ret.
Qed.

Lemma promptless_exits fill h :
  existsb assigned_promptless (k_unique_defined_syms K) = true → ready h →
  ∃ msg, check_no_promptless_assign fill K h = (Raise (SystemExit msg), h).
Proof using Type.
  unfold check_no_promptless_assign. intros He Hh. revert He.
  induction (k_unique_defined_syms K) as [|s l IH]; cbn [existsb io_each]; [done|].
  unfold mbind at 1, HIO_bind at 1. unfold mbind at 1, HIO_bind at 1. unfold user_value_of at 1, io_get. rewrite (proj2 Hh). unfold assigned_promptless at 1.
  destruct (_ && _) eqn:Hs; [intros _; by eexists|]. cbn [orb]. intros Hl. apply IH in Hl. exact Hl.
Qed.

(** *** All checks *)

Definition handwritten_messages (fill : string → string) : list string :=
  ((λ s, warning_text fill (mismatch_text s)) <$> List.filter mismatch (k_unique_defined_syms K)) ++
  ((λ c, warning_text fill (selection_text c)) <$> List.filter lost_selection (k_unique_choices K)).

Definition selector_messages (fill : string → string) (name what : string) : list string :=
  (λ e, warning_text fill (selector_text what e)) <$> selectors name.

(** The option [name] is y, or missing. *)
Definition option_on (name : string) : bool :=
  (tri_of (K := K) (fuel := fuel) u (default (k_sym_y K) (dict_get name (k_syms K))) =? 2)%Z.

Definition check_messages (fill : string → string) (a : args) : list string :=
  (if a_handwritten a then handwritten_messages fill else []) ++
  (if option_on "WARN_DEPRECATED" then selector_messages fill "DEPRECATED" "Deprecated" else []) ++
  (if option_on "WARN_EXPERIMENTAL" then selector_messages fill "EXPERIMENTAL" "Experimental" else []) ++
  selector_messages fill "NOT_SECURE" "Not secure".

Definition selectors_named : Prop :=
  named_selectors "DEPRECATED" ∧ named_selectors "EXPERIMENTAL" ∧ named_selectors "NOT_SECURE".

Lemma says_if (b : bool) (f : HIO ()) l : (b = true → says f () l) → says (if b then f else mret ()) () (if b then l else []).
Proof using Type. destruct b; [auto|]. intros _. apply says_ret. Qed.

Lemma says_check_values fill a text :
  (a_handwritten a = true → existsb assigned_promptless (k_unique_defined_syms K) = false) → selectors_named →
  gives (K := K) u (config_contents K fuel None) text →
  says (check_values fuel fill K a) () (check_messages fill a).
Proof using HK.
  intros Hp (H1 & H2 & H3) Hg. unfold check_values, check_messages.
  eapply says_bind.
  { apply says_if. intros Ha. eapply says_silent; [by apply promptless_ok, Hp|].
    eapply says_bind; [apply says_assigned_sym_values|apply says_assigned_choice_values]. }
  eapply says_silent; [apply says_enabled|]. eapply says_bind; [apply says_if; intros _; by apply says_selectors|].
  eapply says_silent; [apply says_enabled|]. eapply says_bind; [apply says_if; intros _; by apply says_selectors|].
  rewrite <- (app_nil_r (selector_messages fill "NOT_SECURE" "Not secure")).
  eapply says_bind; [by apply says_selectors|]. eapply says_silent; [apply says_session; [exact Hg|apply silent_contents]|apply says_ret].
Qed.
End Says.
