(* ===== verification/MergeRules.v ===== *)
(** * The merge script: theorems

    What kconfig.py promises to a build: the configuration it writes is the merge
    of the fragments, it writes only when the checks pass, and the warnings name
    exactly the assignments that did not take. *)

From S2P Require Import Prelude PyStr PyText Kconst Expr Escape Incr Objects ParseState.
From S2P Require Import Values Reads Session Meaning Effects ConfigFile ConfigSession ConfigWrite Written ConfigText.
From S2P Require Import Restore SyncDeps ConfigRules Merge MergeChecks Check Load Demo Rules SyncRules.
From stdpp Require Import options.

Section Rules.
Context {K : kconfig} {fuel : nat} {HK : Loaded K fuel}.
Implicit Types (h : host).
Variable w : world.
Variable fill : string → string.
(** The outputs can be written. *)
Hypothesis Hwrite : can_write w.

Abbreviation ok h := (session_ok (K := K) (h_session h)).
Hypothesis Hdef : names_defined (K := K).

(** ** Loading the fragments *)

Lemma marked_assignments la l : marked_ok K l → marked_ok K (spec_assignments K la l).
Proof using Type.
  revert l. induction la as [|a la IH]; intros l Hl; [done|]. cbn. by apply IH, marked_assignment.
Qed.

Lemma marked_load replace text l : (replace = false → marked_ok K l) → marked_ok K (spec_load K replace text l).
Proof using Type.
  intros Hl. unfold spec_load. destruct replace; [|by apply marked_assignments, Hl].
  assert (marked_ok K (spec_assignments K (file_assignments K text) (spec_clear K l))) as Hm.
  { apply marked_assignments. intros s. cbn. intros [_ Hs]%elem_of_difference Hd. exfalso. apply Hs.
    by apply elem_of_list_to_set. }
  intros s Hs Hd. change (st_syms (spec_unset_others K _)) with (st_syms (spec_assignments K (file_assignments K text) (spec_clear K l))) in Hs.
  destruct (spec_unset_lookup (K := K) (spec_assignments K (file_assignments K text) (spec_clear K l))) as (-> & _).
  rewrite decide_False; [by apply Hm|]. by intros [_ ?].
Qed.

(** A text that [_open_config] finds. *)
Definition opens h filename text : Prop := ∃ opened, open_config w K filename h = Ok (opened, text).

Definition loads_to h h' (l : settings) : Prop :=
  ok h' ∧ settings_of (h_session h') = l ∧ h_files h' = h_files h.

Lemma open_files h h' filename : h_files h' = h_files h → open_config w K filename h' = open_config w K filename h.
Proof using Type. intros Hf. unfold open_config, open_read. by rewrite Hf. Qed.

Lemma fragment_loads replace filename text h :
  ok h → (replace = false → marked_ok K (settings_of (h_session h))) → opens h filename text →
  ∃ h', load_fragment w fuel K replace filename h = (Ok (), h') ∧
    loads_to h h' (spec_load K replace text (settings_of (h_session h))).
Proof using HK Hdef.
  intros Hok Hm [opened Ho]. unfold load_fragment, mbind, HIO_bind, io_lift. cbn [load_config]. unfold load_named.
  destruct (load_config_file_ok Hdef w filename opened text replace
    (set_h_session (set_no_prompt_warning false (h_session h)) h)) as (h' & Hl & Hok' & Hs & _ & Hf); [|done|done|].
  { by apply no_prompt_warning_ok. }
  rewrite Hl. cbn [obind]. eexists. split; [done|]. split_and!; [|exact Hs|exact Hf].
  by apply no_prompt_warning_ok.
Qed.

Lemma fragments_load files texts h :
  ok h → marked_ok K (settings_of (h_session h)) → Forall2 (opens h) files texts →
  ∃ h', io_each (load_fragment w fuel K false) files h = (Ok (), h') ∧
    loads_to h h' (foldl (λ x t, spec_load K false t x) (settings_of (h_session h)) texts).
Proof using HK Hdef.
  intros Hok Hm Ho. revert h Hok Hm Ho. revert texts.
  induction files as [|f files IH]; intros texts h Hok Hm Ho.
  { apply Forall2_nil_inv_l in Ho as ->. by exists h. }
  apply Forall2_cons_inv_l in Ho as (t & ts & Ht & Hts & ->). cbn [io_each foldl].
  destruct (fragment_loads false f t h Hok (λ _, Hm) Ht) as (h1 & E1 & Hok1 & Hs1 & Hf1).
  destruct (IH ts h1) as (h2 & E2 & Hok2 & Hs2 & Hf2); [done| | |].
  - rewrite Hs1. by apply marked_load.
  - eapply Forall2_impl; [exact Hts|]. intros g t' [o Hg]. exists o. by rewrite (open_files h h1).
  - exists h2. rewrite (io_bind_ok _ _ _ _ _ E1). split; [done|].
    split_and!; [done|by rewrite Hs2, Hs1|by rewrite Hf2].
Qed.

(** The settings after all fragments. *)
Definition merged (first : string) (more : list string) (l : settings) : settings :=
  foldl (λ x t, spec_load K false t x) (spec_load K true first l) more.

Lemma load_fragments_ok a first more h :
  ok h → opens h (a_first_config a) first → Forall2 (opens h) (a_more_configs a) more →
  ∃ h', load_fragments w fuel K a h = (Ok (), h') ∧ loads_to h h' (merged first more (settings_of (h_session h))).
Proof using HK Hdef.
  intros Hok Ho Hmore. unfold load_fragments.
  assert (∃ h0, set_warnings a h = (Ok (), h0) ∧ h_session h0 = h_session h ∧ h_files h0 = h_files h) as (h0 & E0 & Hs0 & Hf0).
  { eexists. split; [done|]. by destruct (a_handwritten a), (a_forced a). }
  destruct (fragment_loads true (a_first_config a) first h0) as (h1 & E1 & Hok1 & Hs1 & Hf1); [by rewrite Hs0|done| |].
  { destruct Ho as [o Ho]. exists o. by rewrite (open_files h h0). }
  destruct (fragments_load (a_more_configs a) more h1) as (h2 & E2 & Hok2 & Hs2 & Hf2); [done| | |].
  - rewrite Hs1. by apply marked_load.
  - eapply Forall2_impl; [exact Hmore|]. intros g t' [o Hg]. exists o. rewrite (open_files h h1); [done|by rewrite Hf1].
  - exists h2. rewrite (io_bind_ok _ _ _ _ _ E0), (io_bind_ok _ _ _ _ _ E1). split; [done|].
    split_and!; [done| |by rewrite Hf2, Hf1]. unfold merged. by rewrite Hs2, Hs1, Hs0.
Qed.

(** ** The outputs *)

(** The C header. *)
Definition header_text (u : ustate) (header : option string) : string :=
  default (k_header_header K) header +:+
  sconcat ((λ s, if written_of (K := K) (fuel := fuel) u s
                 then autoconf_line K s (str_of (K := K) (fuel := fuel) u s) else "") <$> k_unique_defined_syms K).

Lemma gives_header u header : (∀ s, s ∈ k_unique_defined_syms K → s_orig_type (sym K s) ≠ UNKNOWN) →
  gives (K := K) u (autoconf_contents K fuel header) (header_text u header).
Proof using HK.
  intros Ht. unfold autoconf_contents, header_text. eapply gives_bind; [|apply gives_ret].
  apply gives_concat. intros s Hs σ Hσ Hu. unfold autoconf_string.
  destruct (gives_str_value u s (defined_not_preset (fuel := fuel) s Hs) (Ht s Hs) σ Hσ Hu) as (σ' & -> & Hσ' & Hu' & Hw).
  cbn [obind]. rewrite Hw. by exists σ'.
Qed.

(** The files after a text was written to a path. *)
Definition put (path text : string) (files files' : gmap string string) : Prop :=
  (universal_newlines text = text → universal_newlines <$> files' !! path = Some text) ∧
  ∀ p, p ≠ path → files' !! p = files !! p.

Lemma put_insert path text files : put path text files (<[path := text]> files).
Proof using Type.
  split; [intros Hn; rewrite lookup_insert_eq; cbn; by rewrite Hn|]. intros p Hp. by apply lookup_insert_ne.
Qed.

Lemma write_config_puts path h text :
  gives (K := K) (uvals (h_session h)) (config_contents K fuel None) text → ok h →
  ∃ msg h', write_config w K fuel (Some path) None true h = (Ok msg, h') ∧ ok h' ∧
    uvals (h_session h') = uvals (h_session h) ∧
    (universal_newlines text = text → universal_newlines <$> h_files h' !! path = Some text) ∧
    ∀ p, p ≠ path → p ≠ path +:+ ".old" → h_files h' !! p = h_files h !! p.
Proof using Hwrite.
  intros Hg Hok. destruct (write_config_gives w path None true h text Hwrite Hok Hg) as (msg & h' & E & H).
  exists msg, h'. done.
Qed.

Lemma write_autoconf_puts path h text :
  gives (K := K) (uvals (h_session h)) (autoconf_contents K fuel None) text → ok h →
  ∃ msg h', write_autoconf w K fuel (Some path) None h = (Ok msg, h') ∧ ok h' ∧
    uvals (h_session h') = uvals (h_session h) ∧ put path text (h_files h) (h_files h').
Proof using Hwrite.
  intros Hg Hok. destruct (Hg (h_session h) Hok eq_refl) as (σ' & Hc & Hok' & Hu').
  unfold write_autoconf. cbn [from_option]. unfold id. rewrite (io_bind_ok _ _ _ _ _ (io_on_session _ h _ _ Hc)).
  destruct (write_if_changed_cases w path text (set_h_session σ' h)) as [[Hr E]|[E|[Hno _]]]; [..|done];
    rewrite (io_bind_ok _ _ _ _ _ E); do 2 eexists; (split; [done|]); split_and!; try done; cbn [h_files set_h_session set_h_files].
  apply put_insert.
Qed.

(** What the script leaves in the files. *)
Record written_outputs (a : args) (filenames : list string) (u : ustate) (text : string)
    (files files' : gmap string string) : Prop := {
  wo_config : a_config_out a ≠ a_header_out a → a_config_out a ≠ a_list_out a →
    universal_newlines text = text → universal_newlines <$> files' !! a_config_out a = Some text;
  wo_header : a_header_out a ≠ a_list_out a → universal_newlines (header_text u None) = header_text u None →
    universal_newlines <$> files' !! a_header_out a = Some (header_text u None);
  wo_list : files' !! a_list_out a = Some (kconfig_list_text w K filenames);
  wo_others p : p ∉ [a_config_out a; a_config_out a +:+ ".old"; a_header_out a; a_list_out a] →
    files' !! p = files !! p
}.

Lemma outputs_written a filenames h text :
  gives (K := K) (uvals (h_session h)) (config_contents K fuel None) text →
  (∀ s, s ∈ k_unique_defined_syms K → s_orig_type (sym K s) ≠ UNKNOWN) → ok h →
  ∃ h', write_outputs w fuel K a filenames h = (Ok (), h') ∧ ok h' ∧
    uvals (h_session h') = uvals (h_session h) ∧
    written_outputs a filenames (uvals (h_session h)) text (h_files h) (h_files h').
Proof using HK Hwrite.
  intros Hg Ht Hok. unfold write_outputs, write_kconfig_filenames, io_modify, mbind, HIO_bind.
  destruct (write_config_puts (a_config_out a) h text Hg Hok) as (m1 & h1 & -> & Hok1 & Hu1 & Hc1 & Ho1).
  pose proof (gives_header (uvals (h_session h)) None Ht) as Hh. rewrite <- Hu1 in Hh.
  destruct (write_autoconf_puts (a_header_out a) (print m1 h1) _ Hh Hok1) as (m2 & h2 & -> & Hok2 & Hu2 & Hc2 & Ho2).
  rewrite (write_file_ok w _ _ _ Hwrite).
  eexists. split; [done|]. cbn [h_session h_files print set_h_stdout set_h_files] in *.
  split_and!; [done|congruence|]. split.
  - intros H1 H2 Hn. rewrite lookup_insert_ne by done. rewrite Ho2 by done. by apply Hc1.
  - intros H1 Hn. rewrite lookup_insert_ne by done. rewrite <- Hu1 in Hn |- *. by apply Hc2.
  - by rewrite lookup_insert_eq.
  - intros p Hp. rewrite !not_elem_of_cons in Hp. destruct Hp as (P1 & P2 & P3 & P4 & _).
    rewrite lookup_insert_ne by done. rewrite Ho2 by done. by apply Ho1.
Qed.

(** ** The decision *)

Definition acceptable (forced : bool) (l : list string) : bool :=
  match l with [] => true | _ => forced && forallb set_more_than_once l end.

Lemma eprint_keeps msg h : ok h → ok (eprint msg h) ∧ uvals (h_session (eprint msg h)) = uvals (h_session h) ∧
  h_files (eprint msg h) = h_files h.
Proof using Type. intros [? [? ? ?]]. by split_and!. Qed.

Lemma report_spec b l h : ok h →
  ∃ h', report b l h = (Ok (b || negb (forallb set_more_than_once l)), h') ∧ ok h' ∧
    uvals (h_session h') = uvals (h_session h) ∧ h_files h' = h_files h.
Proof using Type.
  revert b h. induction l as [|m l IH]; intros b h Hok; cbn [report forallb].
  - exists h. by rewrite orb_false_r.
  - destruct (eprint_keeps (nl +:+ m) h Hok) as (Hok1 & Hu1 & Hf1).
    destruct (IH (b || negb (set_more_than_once m)) (eprint (nl +:+ m) h) Hok1) as (h' & E & Hok' & Hu' & Hf').
    exists h'. unfold mbind, HIO_bind, io_modify. rewrite E. split_and!; [|done|congruence|congruence].
    by rewrite <- orb_assoc, negb_andb.
Qed.

(** The last message of a script that stops because of warnings. *)
Definition abort_text (fill : string → string) : string :=
  nl +:+ fill "error: Aborting due to Kconfig warnings" +:+ nl.

Lemma check_warnings_spec forced h : ok h →
  if acceptable forced (warnings (logged h))
  then ∃ h', check_warnings fill forced h = (Ok (), h') ∧ ok h' ∧ uvals (h_session h') = uvals (h_session h) ∧
    h_files h' = h_files h
  else ∃ h', check_warnings fill forced h = (Raise (SystemExit (abort_text fill)), h') ∧ h_files h' = h_files h.
Proof using Type.
  intros Hok. unfold check_warnings, acceptable, mbind, HIO_bind, io_get.
  change (log (vals (h_session h))) with (logged h). destruct (warnings (logged h)) as [|m l]; [by exists h|].
  destruct (report_spec (negb forced) (m :: l) h Hok) as (h' & -> & H1 & H2 & H3).
  destruct forced; cbn [negb orb andb]; [|by exists h'].
  destruct (forallb set_more_than_once (m :: l)); cbn [negb]; by exists h'.
Qed.

Lemma expressible_typed u header : expressible K fuel u header →
  ∀ s, s ∈ k_unique_defined_syms K → s_orig_type (sym K s) ≠ UNKNOWN.
Proof using Type.
  intros [_ _ _ Hwr _ _ (nodes & _ & Hall)] s Hs. specialize (Hall s Hs). unfold syms_of in Hall.
  apply elem_of_list_to_set, list_elem_of_omap in Hall as (n & _ & Hn).
  destruct (n_item (nod K n)) eqn:Hi; simplify_eq. by destruct (wr_sym u Hwr n s Hi) as (_ & _ & _ & ?).
Qed.

Lemma expressible_contents u : uok K u → expressible K fuel u (k_config_header K) →
  ∃ text, gives (K := K) u (config_contents K fuel None) text ∧
    saves (K := K) (fuel := fuel) u (file_assignments K text).
Proof using Type.
  intros Hu [_ _ _ Hwr Hh _ (nodes & Hit & Hall)]. by apply (contents_gives u Hu Hwr None nodes Hit Hall).
Qed.

Abbreviation promptless_assigned u := (existsb (assigned_promptless (K := K) u) (k_unique_defined_syms K)).

Lemma check_values_cases a h text :
  ok h → selectors_named (K := K) (fuel := fuel) (uvals (h_session h)) →
  gives (K := K) (uvals (h_session h)) (config_contents K fuel None) text →
  if a_handwritten a && promptless_assigned (uvals (h_session h))
  then ∃ msg, check_values fuel fill K a h = (Raise (SystemExit msg), h)
  else ∃ h', check_values fuel fill K a h = (Ok (), h') ∧
    said (K := K) (uvals (h_session h)) h h' (check_messages (K := K) (fuel := fuel) (uvals (h_session h)) fill a).
Proof using HK.
  intros Hok Hsel Hg. set (u := uvals (h_session h)) in *. destruct (a_handwritten a && _) eqn:Hp.
  - apply andb_true_iff in Hp as [Ha Hp].
    destruct (promptless_exits u fill h Hp) as [msg Hmsg]; [done|]. exists msg.
    unfold check_values. rewrite Ha. unfold mbind, HIO_bind. by rewrite Hmsg.
  - apply (says_check_values u fill a text); [|done..]. intros Ha. by rewrite Ha in Hp.
Qed.

(** C24 For handwritten fragments the script reports exactly the assignments that
    did not take: one message for each symbol outside choices whose value differs
    from its user value, with the dependencies that are too low, and one for each
    choice whose selected symbol is not its selection; and it exits if a symbol
    without a prompt has a user value.  Checking changes neither values nor files. *)
Theorem merge_messages_exact a h text :
  ok h → a_handwritten a = true → selectors_named (K := K) (fuel := fuel) (uvals (h_session h)) →
  gives (K := K) (uvals (h_session h)) (config_contents K fuel None) text →
  let u := uvals (h_session h) in
  if promptless_assigned u
  then ∃ msg, check_values fuel fill K a h = (Raise (SystemExit msg), h)
  else ∃ h', check_values fuel fill K a h = (Ok (), h') ∧ uvals (h_session h') = u ∧ h_files h' = h_files h ∧
    (warn_to_stderr (logged h) = false →
     stderr (logged h') = stderr (logged h) ++
       ((λ s, warning_text fill (mismatch_text (K := K) (fuel := fuel) u s))
          <$> List.filter (mismatch (K := K) (fuel := fuel) u) (k_unique_defined_syms K)) ++
       ((λ c, warning_text fill (selection_text (K := K) (fuel := fuel) u c))
          <$> List.filter (lost_selection (K := K) (fuel := fuel) u) (k_unique_choices K)) ++
       check_messages (K := K) (fuel := fuel) u fill
         (Args false (a_forced a) None "" "" "" "" "" [])).
Proof using HK.
  intros Hok Ha Hsel Hg. cbv zeta. pose proof (check_values_cases a h text Hok Hsel Hg) as H. rewrite Ha in H. cbn [andb] in H.
  destruct (promptless_assigned (uvals (h_session h))); [done|]. destruct H as (h' & E & [H1 H2 H3 H4]).
  exists h'. split_and!; [done|done|by apply frame_files|]. intros Hq. destruct (H4 Hq) as [_ ->].
  unfold check_messages. rewrite Ha. cbn [a_handwritten]. unfold handwritten_messages. by rewrite app_nil_l, !app_assoc.
Qed.

End Rules.

(** ** The theorems at a concrete configuration *)

Definition board_conf : string := kconfig_text ["CONFIG_B=y"; "CONFIG_N=7"; "CONFIG_SLOW=y"].
Definition prj_conf (n : string) : string := kconfig_text ["CONFIG_N=" +:+ n; "CONFIG_FAST=y"; "CONFIG_S='x'"].

Definition demo_args : args :=
  Args true false None "Kconfig" ".config" "autoconf.h" "kconfig.txt" "board.conf" ["prj.conf"].
Definition with_fragments (n : string) : host :=
  demo_host [("board.conf", board_conf); ("prj.conf", prj_conf n)] [].

(** The second fragment wins; a value outside a range stops the script after its
    warnings. *)
Example demo_merge :
  (match merge (one_file "") demo_fuel id demo demo_args ["Kconfig"] (with_fragments "9") with
   | (Ok _, h) => (h_files h !! "autoconf.h", h_files h !! "kconfig.txt", stderr (logged h))
   | _ => (None, None, [])
   end =
   (Some (kconfig_text ["#define CONFIG_MODULES 1"; "#define CONFIG_A_MODULE 1"; "#define CONFIG_B 1";
                        "#define CONFIG_C 1"; "#define CONFIG_D_MODULE 1"; "#define CONFIG_FAST 1";
                        "#define CONFIG_N 9"; "#define CONFIG_H 0x10"; "#define CONFIG_S 'x'"]),
    Some ("/src" +:+ nl), [])) ∧
  let (r, h) := merge (one_file "") demo_fuel id demo demo_args ["Kconfig"] (with_fragments "70") in
  r = Raise (SystemExit (abort_text id)) ∧ h_files h = h_files (with_fragments "70").
Proof. split; vm_compute; [|split]; reflexivity. Qed.

Lemma demo_selectors u : selectors_named (K := demo) (fuel := demo_fuel) u.
Proof. split_and!; apply Forall_nil_2. Qed.

Definition demo_merged : ustate := Eval vm_compute in
  st_u (merged (K := demo) board_conf [prj_conf "9"] (settings_of (h_session (with_fragments "9")))).


Lemma merge_messages_exact_witness :
  let h := with_fragments "9" in
  ∃ h', check_values demo_fuel id demo demo_args h = (Ok (), h') ∧ uvals (h_session h') = uvals (h_session h) ∧
    h_files h' = h_files h ∧
    (warn_to_stderr (logged h) = false →
     stderr (logged h') = stderr (logged h) ++
       ((λ s, warning_text id (mismatch_text (K := demo) (fuel := demo_fuel) (uvals (h_session h)) s))
          <$> List.filter (mismatch (K := demo) (fuel := demo_fuel) (uvals (h_session h))) (k_unique_defined_syms demo)) ++
       ((λ c, warning_text id (selection_text (K := demo) (fuel := demo_fuel) (uvals (h_session h)) c))
          <$> List.filter (lost_selection (K := demo) (fuel := demo_fuel) (uvals (h_session h))) (k_unique_choices demo)) ++
       check_messages (K := demo) (fuel := demo_fuel) (uvals (h_session h)) id
         (Args false false None "" "" "" "" "" [])).
Proof.
  intros h.
  destruct (expressible_contents (K := demo) (fuel := demo_fuel) (uvals (h_session h))) as (text & Hg & _).
  { apply (demo_host_ok [("board.conf", board_conf); ("prj.conf", prj_conf "9")] []). }
  { apply expressibleb_spec. vm_compute. reflexivity. }
  pose proof (merge_messages_exact (K := demo) (fuel := demo_fuel) id demo_args h text) as H. cbv zeta in H.
  replace (existsb (assigned_promptless (K := demo) (uvals (h_session h))) (k_unique_defined_syms demo))
    with false in H by (vm_compute; reflexivity).
  apply H.
  - apply demo_host_ok.
  - reflexivity.
  - apply demo_selectors.
  - exact Hg.
Defined.
