(* ===== verification/Arith.v ===== *)
(** * The text and arithmetic functions of Kconfig

    kconfigfunctions.py, the functions that do not look at the devicetree:
    [normalize_upper], [shields_list_contains], [substring], [arith], [inc_dec].

    [div] divides with [truediv], so its intermediate results are floats.  A float is
    a mantissa and an exponent of two, rounded to 53 bits as IEEE double precision
    is, halves to even.  The exponent has no lower bound: a subnormal result and what
    it is divided by later are below 1 and printed as 0 either way. *)

From S2P Require Import Prelude PyStr PyText MenuStyle.
From stdpp Require Import options.

(** ** Text *)

Definition to_upper (c : ascii) : ascii := if is_lower c then chr (code c - 32) else c.

Definition normalize_upper (s : string) : string :=
  smap (λ c, one (to_upper (if is_word c then c else "_"%char))) s.

(** [environ] is the variable SHIELD_AS_LIST. *)
Definition shields_list_contains (environ : option string) (shield : string) : string :=
  match environ with
  | None => "n"
  | Some l => if mem shield (split_on ";" l) then "y" else "n"
  end.

(** A slice bound: negative ones count from the end. *)
Definition slice_bound (len : nat) (i : Z) : nat :=
  (Z.to_nat (Z.max 0 (Z.min (Z.of_nat len) (if i <? 0 then Z.of_nat len + i else i))))%Z.

Definition py_int10 (s : string) : outcome Z := of_option ValueError (py_int 10 s).

Definition substring (s start : string) (stop : option string) : outcome string :=
  let n := slen s in
  let! i := py_int10 start in
  match stop with
  | Some stop =>
      let! j := py_int10 stop in
      Ok (s_slice (slice_bound n i) (slice_bound n j) s)
  | None => Ok (s_from (slice_bound n i) s)
  end.

(** ** Numbers: integers and the floats of divisions *)

Inductive num : Type :=
  | NInt (z : Z)
  | NFloat (m e : Z).

(** [n / d] as a quotient of integers, for [n] and [d] scaled by powers of two *)
Definition scale_num (n e : Z) : Z := if (0 <=? e)%Z then Z.shiftl n e else n.
Definition scale_den (d e : Z) : Z := if (0 <=? e)%Z then d else Z.shiftl d (- e).

(** The exponent of the last of the 53 bits of [a / b] *)
Definition quot_exp (a b : Z) : Z :=
  (let e := Z.log2 a - Z.log2 b - 53 in
   if scale_num a (- e) / scale_den b (- e) <? 2 ^ 53 then e else e + 1)%Z.

(** The float nearest to [n / d], for [d] other than 0 *)
Definition round_quot (n d : Z) : outcome num :=
  if (n =? 0)%Z then Ok (NFloat 0 0)
  else
    let a := Z.abs n in
    let b := Z.abs d in
    let e := quot_exp a b in
    let m := round_div (scale_num a (- e)) (scale_den b (- e)) in
    if (1024 <=? Z.log2 m + e)%Z then Raise OverflowError
    else Ok (NFloat (Z.sgn n * Z.sgn d * m) e).

(** [float(z)] *)
Definition to_float (x : num) : outcome (Z * Z) :=
  match x with
  | NFloat m e => Ok (m, e)
  | NInt z =>
      let! f := round_quot z 1 in
      match f with NFloat m e => Ok (m, e) | NInt z => Ok (z, 0%Z) end
  end.

(** [operator.truediv]: two integers are divided exactly and rounded once; a
    float is divided by the integer as a float. *)
Definition truediv (x : num) (v : Z) : outcome num :=
  match x with
  | NInt z => if (v =? 0)%Z then Raise ZeroDivisionError else round_quot z v
  | NFloat m e =>
      let! f := to_float (NInt v) in
      let '(m', e') := f in
      if (m' =? 0)%Z then Raise ZeroDivisionError
      else round_quot (scale_num m (e - e')) (scale_den m' (e - e'))
  end.

(** [int(x)] *)
Definition num_int (x : num) : Z :=
  match x with
  | NInt z => z
  | NFloat m e => Z.quot (scale_num m e) (scale_den 1 e)
  end.

(** ** [arith] and [inc_dec] *)

Inductive arith_op : Type := op_add | op_sub | op_mul | op_div | op_mod | op_max | op_min.

Definition op_apply (op : arith_op) (x : num) (v : Z) : outcome num :=
  match op, x with
  | op_div, _ => truediv x v
  | op_add, NInt z => Ok (NInt (z + v))
  | op_sub, NInt z => Ok (NInt (z - v))
  | op_mul, NInt z => Ok (NInt (z * v))
  | op_mod, NInt z => if (v =? 0)%Z then Raise ZeroDivisionError else Ok (NInt (z mod v))
  | op_max, NInt z => Ok (NInt (Z.max z v))
  | op_min, NInt z => Ok (NInt (Z.min z v))
  | _, NFloat _ _ => Raise TypeError
  end.

(** The texts of the numbers: [val for arg in args for val in arg.split(",")] *)
(** [str] or [hex], by the suffix of a function's name *)
Definition int_texts (args : list string) : list string := concat (split_on "," <$> args).

Definition int0 (s : string) : outcome Z := of_option ValueError (py_int 0 s).

(** [functools.reduce]: each number is read when its turn comes. *)
Fixpoint reduce_from (op : arith_op) (x : num) (l : list string) : outcome num :=
  match l with
  | [] => Ok x
  | s :: l =>
      let! v := int0 s in
      let! x := op_apply op x v in
      reduce_from op x l
  end.

Definition reduce (op : arith_op) (l : list string) : outcome num :=
  match l with
  | [] => Raise TypeError
  | s :: l => let! v := int0 s in reduce_from op (NInt v) l
  end.

Definition arith_names : list (string * (arith_op * bool)) :=
  [("add", (op_add, false)); ("add_hex", (op_add, true)); ("sub", (op_sub, false));
   ("sub_hex", (op_sub, true)); ("mul", (op_mul, false)); ("mul_hex", (op_mul, true));
   ("div", (op_div, false)); ("div_hex", (op_div, true)); ("mod", (op_mod, false));
   ("mod_hex", (op_mod, true)); ("max", (op_max, false)); ("max_hex", (op_max, true));
   ("min", (op_min, false)); ("min_hex", (op_min, true))].

(** [str] or [hex], by the suffix of a function's name *)
Definition int_text (is_hex : bool) (z : Z) : string := if is_hex then py_hex z else py_str z.

Definition arith (name : string) (args : list string) : outcome string :=
  match dict_get name arith_names with
  | Some (op, is_hex) =>
      let! x := reduce op (int_texts args) in Ok (int_text is_hex (num_int x))
  | None => Raise AssertionError
  end.

Definition inc_dec_names : list (string * (Z * bool)) :=
  [("inc", (1%Z, false)); ("inc_hex", (1%Z, true)); ("dec", ((-1)%Z, false));
   ("dec_hex", ((-1)%Z, true))].

Fixpoint map_ints (f : Z → string) (l : list string) : outcome (list string) :=
  match l with
  | [] => Ok []
  | s :: l =>
      let! v := int0 s in
      let! r := map_ints f l in
      Ok (f v :: r)
  end.

Definition inc_dec (name : string) (args : list string) : outcome string :=
  match dict_get name inc_dec_names with
  | Some (delta, is_hex) =>
      let! l := map_ints (λ v, int_text is_hex (v + delta)) (int_texts args) in
      Ok (sjoin "," l)
  | None => Raise AssertionError
  end.

Example arith_examples :
  arith "add" ["add"; "10"; "3"] = Raise ValueError
  ∧ arith "add" ["10"; "3"; "2"] = Ok "15" ∧ arith "sub" ["10"; "3"; "2"] = Ok "5"
  ∧ arith "mul" ["10"; "3"; "2"] = Ok "60" ∧ arith "div" ["10"; "3"] = Ok "3"
  ∧ arith "div" ["10"; "3"; "2"] = Ok "1" ∧ arith "mod" ["10"; "3"; "2"] = Ok "1"
  ∧ inc_dec "inc" ["1"; "1"] = Ok "2,2" ∧ inc_dec "inc" ["2,2"] = Ok "3,3"
  ∧ inc_dec "dec" ["0,0"] = Ok "-1,-1" ∧ arith "add" ["2,2"] = Ok "4"
  ∧ arith "div" ["0,0"] = Raise ZeroDivisionError ∧ arith "div" ["-7"; "2"] = Ok "-3"
  ∧ arith "div_hex" ["0x10000000"; "0x400"] = Ok "0x40000"
  ∧ arith "div" ["9007199254740993"; "1"] = Ok "9007199254740992"
  ∧ arith "max_hex" ["-0x10"; "-3"] = Ok "-0x3".
Proof. repeat split; vm_compute; reflexivity. Qed.
