(* ===== verification/ArithRules.v ===== *)
(** * The arithmetic of the Kconfig functions

    [arith] and [inc_dec] of kconfigfunctions.py on the texts that [str] and [hex]
    print: the numbers of an argument and those of the other arguments count alike;
    a division below 2^53 is exact although it goes through floats. *)

From S2P Require Import Prelude PyStr PyText Escape MenuStyle Arith.
From stdpp Require Import options.

(** ** Texts of numbers *)

(** The decimal or hexadecimal text of a number *)
Definition written (s : string) (z : Z) : Prop := s = py_str z ∨ s = py_hex z.

(** An argument: numbers joined by commas *)
Definition group_text (arg : string) (g : list Z) : Prop :=
  ∃ texts, texts ≠ [] ∧ arg = sjoin "," texts ∧ Forall2 written texts g.

Lemma split_on_app sep cur s t :
  split_on_aux sep cur (s +:+ String sep t) = (split_on_aux sep cur s ++ split_on sep t)%list.
Proof.
  revert cur. induction s as [|c s IH]; intros cur.
  - rewrite app_empty_l. cbn [split_on_aux]. by rewrite c_eqb_refl.
  - rewrite app_cons. cbn [split_on_aux]. destruct (c_eqb c sep); cbn; by rewrite IH.
Qed.

Lemma split_on_join sep l :
  l ≠ [] → split_on sep (sjoin (one sep) l) = concat (split_on sep <$> l).
Proof.
  induction l as [|s l IH]; [done|]. intros _. destruct l as [|t l].
  - cbn. by rewrite app_nil_r.
  - change (sjoin (one sep) (s :: t :: l)) with (s +:+ one sep +:+ sjoin (one sep) (t :: l)).
    rewrite app_one. rewrite fmap_cons. cbn [concat]. rewrite <- IH by done. apply split_on_app.
Qed.

Definition free_of (sep : ascii) : string → bool := s_all (λ c, negb (c_eqb c sep)).

Lemma split_on_free sep cur s :
  free_of sep s = true → split_on_aux sep cur s = [srev_app cur s].
Proof.
  revert cur. induction s as [|c s IH]; intros cur; cbn [split_on_aux free_of s_all]; [done|].
  intros [Hc Hs]%andb_true_iff. destruct (c_eqb c sep); [done|]. by rewrite IH.
Qed.

Lemma digits_free fuel base n r :
  (2 ≤ base ≤ 16)%Z → free_of "," r = true → free_of "," (digits fuel base n r) = true.
Proof.
  intros Hb. revert n r. induction fuel as [|fuel IH]; [done|]. intros n r Hr. cbn [digits].
  assert (Hd : free_of "," (String (digit_char (n mod base)) r) = true).
  { cbn. rewrite Hr, andb_true_r. pose proof (Z.mod_pos_bound n base).
    assert (Hall : forallb (λ d, negb (c_eqb (digit_char (Z.of_nat d)) ",")) (seq 0 16) = true) by done.
    rewrite forallb_forall in Hall. specialize (Hall (Z.to_nat (n mod base))).
    rewrite Z2Nat.id in Hall by lia. apply Hall, in_seq. lia. }
  destruct (n <? base)%Z; [done|]. by apply IH.
Qed.

Lemma written_free s z : written s z → free_of "," s = true.
Proof.
  assert (Hn : ∀ base n, (2 ≤ base ≤ 16)%Z → free_of "," (num_str base n) = true).
  { intros. by apply digits_free. }
  intros [-> | ->]; unfold py_str, py_hex; destruct (_ <? _)%Z;
    rewrite ?app_cons, ?app_empty_l; cbn [free_of s_all]; apply Hn; lia.
Qed.

(** *** Reading them back with base 0 *)

Lemma digits_head_pos fuel base n r :
  (2 ≤ base ≤ 16)%Z → (0 < n < base ^ Z.of_nat fuel)%Z →
  ∃ d t, (0 < d < base)%Z ∧ digits fuel base n r = String (digit_char d) t.
Proof.
  intros Hb. revert n r. induction fuel as [|fuel IH]; intros n r Hn; [cbn in Hn; lia|].
  cbn [digits]. destruct (Z.ltb_spec n base).
  - exists n, r. rewrite Z.mod_small by lia. split; [lia|done].
  - rewrite Nat2Z.inj_succ, Z.pow_succ_r in Hn by lia. apply IH. split.
    + apply Z.div_str_pos. lia.
    + apply Z.div_lt_upper_bound; lia.
Qed.

Lemma int_prefix_auto n :
  (0 ≤ n)%Z → int_prefix 0 (num_str 10 n) = (10%Z, (n =? 0)%Z, num_str 10 n).
Proof.
  intros Hn. destruct (Z.eqb_spec n 0) as [->|]; [done|].
  destruct (digits_head_pos (S (Z.to_nat (Z.log2 n))) 10 n "") as (d & t & Hd & Hs);
    [lia|split; [lia|by apply log2_fuel]|].
  unfold num_str. rewrite Hs. unfold int_prefix.
  assert (Hz : char_is "0" (String (digit_char d) t) = false); [|by rewrite Hz].
  assert (d = 1 ∨ d = 2 ∨ d = 3 ∨ d = 4 ∨ d = 5 ∨ d = 6 ∨ d = 7 ∨ d = 8 ∨ d = 9)%Z as Hc by lia.
  repeat (destruct Hc as [->|Hc]; [done|]). by subst.
Qed.

Lemma int_body_auto neg n :
  (0 ≤ n)%Z → int_body 0 neg (num_str 10 n) = Some (if neg then (- n)%Z else n).
Proof.
  intros Hn. unfold int_body. rewrite int_prefix_auto, num_str_no_underscore by lia.
  destruct (scan_num_str 10 n) as (k & Hk & ->); [lia..|]. destruct k; [done|].
  cbn [Nat.eqb s_all]. by destruct (n =? 0)%Z.
Qed.

Lemma int_body_auto_hex neg n :
  (0 ≤ n)%Z → int_body 0 neg ("0x" +:+ num_str 16 n) = Some (if neg then (- n)%Z else n).
Proof.
  intros Hn. unfold int_body.
  assert (Hp : int_prefix 0 ("0x" +:+ num_str 16 n) = (16%Z, false, num_str 16 n)).
  { unfold int_prefix. change (sdrop 2 ("0x" +:+ num_str 16 n)) with (num_str 16 n).
    change (char_is "0" ("0x" +:+ num_str 16 n)) with true.
    change (char_is "xX" (sdrop 1 ("0x" +:+ num_str 16 n))) with true.
    cbn -[char_is num_str]. by rewrite num_str_no_underscore by lia. }
  rewrite Hp, num_str_no_underscore by lia.
  destruct (scan_num_str 16 n) as (k & Hk & ->); [lia..|]. by destruct k.
Qed.

Lemma int0_written s z : written s z → int0 s = Ok z.
Proof.
  unfold int0. intros [-> | ->]; unfold py_str, py_hex; destruct (Z.ltb_spec z 0).
  - rewrite py_int_neg, int_body_auto by lia. cbn. f_equal. lia.
  - rewrite py_int_body.
    + by rewrite int_body_auto by lia.
    + destruct (num_str_head 10 z) as (d & t & Hd & ->); [done|done|].
      destruct (digit_char_facts d) as (_ & _ & ? & ? & ?); [lia|]. done.
  - change ("-0x" +:+ num_str 16 (- z)) with ("-" +:+ ("0x" +:+ num_str 16 (- z))).
    rewrite py_int_neg, int_body_auto_hex by lia. cbn. f_equal. lia.
  - by rewrite py_int_body, int_body_auto_hex by (done || lia).
Qed.

Lemma int_text_written is_hex z : written (int_text is_hex z) z.
Proof. destruct is_hex; [by right|by left]. Qed.

(** ** The numbers of the arguments *)

Lemma split_group texts zs :
  texts ≠ [] → Forall2 written texts zs → split_on "," (sjoin "," texts) = texts.
Proof.
  intros Hne Hw. change ("," : string) with (one ","). rewrite split_on_join by done. clear Hne.
  induction Hw as [|s z texts zs Hs _ IH]; [done|]. rewrite fmap_cons. cbn [concat].
  rewrite IH. unfold split_on. rewrite split_on_free by by eapply written_free. done.
Qed.

Lemma int_texts_groups args groups :
  Forall2 group_text args groups → Forall2 written (int_texts args) (concat groups).
Proof.
  unfold int_texts. induction 1 as [|arg g args groups (texts & Hne & -> & Hw) _ IH]; [done|].
  rewrite fmap_cons. cbn [concat]. rewrite (split_group _ _ Hne Hw). by apply Forall2_app.
Qed.

(** The integer operation of an operator; division goes through floats. *)
Definition op_fun (op : arith_op) : option (Z → Z → Z) :=
  match op with
  | op_add => Some Z.add | op_sub => Some Z.sub | op_mul => Some Z.mul
  | op_mod => Some Z.modulo | op_max => Some Z.max | op_min => Some Z.min
  | op_div => None
  end.

Lemma reduce_from_written op f x texts zs :
  op_fun op = Some f → (op = op_mod → Forall (λ z, z ≠ 0%Z) zs) →
  Forall2 written texts zs → reduce_from op (NInt x) texts = Ok (NInt (foldl f x zs)).
Proof.
  intros Hop Hmod Hw. revert x Hmod. induction Hw as [|s v texts zs Hs _ IH]; intros x Hmod; [done|].
  cbn [reduce_from]. rewrite (int0_written _ _ Hs). cbn [obind].
  assert (Ha : op_apply op (NInt x) v = Ok (NInt (f x v))).
  { destruct op; simplify_eq/=; try done. specialize (Hmod eq_refl).
    apply Forall_cons in Hmod as [Hv _]. by apply Z.eqb_neq in Hv as ->. }
  rewrite Ha. cbn [obind foldl]. apply IH. intros ->. specialize (Hmod eq_refl).
  by apply Forall_cons in Hmod as [_ ?].
Qed.

Lemma map_ints_written f texts zs :
  Forall2 written texts zs → map_ints f texts = Ok (f <$> zs).
Proof.
  induction 1 as [|s z texts zs Hs _ IH]; [done|]. cbn [map_ints].
  rewrite (int0_written _ _ Hs), IH. done.
Qed.

(** ** Division *)

Lemma round_div_bounds n d :
  (0 < d)%Z → (2 * n - d ≤ 2 * d * round_div n d ≤ 2 * n + d)%Z.
Proof.
  intros Hd. unfold round_div. pose proof (Z.div_mod n d). pose proof (Z.mod_pos_bound n d).
  repeat match goal with |- context [(?a <? ?b)%Z] => destruct (Z.ltb_spec a b) end; try nia.
  destruct (Z.even _); nia.
Qed.

(** The mantissa holds at least 52 bits of the quotient: [2 ^ 52 * b <= a * 2 ^ k]. *)
Lemma quot_exp_spec a b :
  (0 < a < 2 ^ 53)%Z → (0 < b)%Z →
  (quot_exp a b ≤ 0 ∧ 2 ^ 52 * b ≤ a * 2 ^ (- quot_exp a b))%Z.
Proof.
  intros Ha Hb. unfold quot_exp, scale_num, scale_den.
  set (e := (Z.log2 a - Z.log2 b - 53)%Z).
  pose proof (Z.log2_spec a) as Hla. pose proof (Z.log2_spec b) as Hlb.
  assert (Hlt : (Z.log2 a < 53)%Z) by (apply Z.log2_lt_pow2; lia).
  pose proof (Z.log2_nonneg b) as Hlb0. pose proof (Z.log2_nonneg a) as Hla0.
  assert (He : (e < 0)%Z) by lia.
  destruct (Z.leb_spec 0 (- e)) as [_|]; [|lia]. rewrite Z.shiftl_mul_pow2 by lia.
  assert (Hlow : (2 ^ 52 * b ≤ a * 2 ^ (- e))%Z).
  { assert (2 ^ 52 * 2 ^ Z.succ (Z.log2 b) = 2 ^ Z.log2 a * 2 ^ (- e))%Z as Heq.
    { rewrite <- !Z.pow_add_r by lia. f_equal. lia. }
    nia. }
  destruct (Z.ltb_spec (a * 2 ^ (- e) / b) (2 ^ 53)) as [_|Hbig]; [split; [lia|done]|].
  split; [lia|].
  assert (2 ^ (- e) = 2 * 2 ^ (- (e + 1)))%Z as Heq.
  { rewrite <- (Z.pow_succ_r 2) by lia. f_equal. lia. }
  pose proof (Z.mul_div_le (a * 2 ^ (- e)) b). nia.
Qed.

Lemma trunc_round a b :
  (0 < a < 2 ^ 53)%Z → (0 < b)%Z →
  (let k := - quot_exp a b in round_div (scale_num a k) (scale_den b k) / 2 ^ k = a / b)%Z.
Proof.
  intros Ha Hb. cbv zeta. destruct (quot_exp_spec a b Ha Hb) as [He Hq].
  set (k := (- quot_exp a b)%Z) in *. assert (Hk : (0 ≤ k)%Z) by lia.
  unfold scale_num, scale_den. destruct (Z.leb_spec 0 k); [|lia]. rewrite Z.shiftl_mul_pow2 by lia.
  pose proof (round_div_bounds (a * 2 ^ k) b Hb) as [Hlo Hhi].
  set (m := round_div (a * 2 ^ k) b) in *. set (p := (2 ^ k)%Z) in *.
  assert (Hp : (0 < p)%Z) by (apply Z.pow_pos_nonneg; lia).
  pose proof (Z.div_mod a b) as Hdm. pose proof (Z.mod_pos_bound a b Hb) as Hmb.
  set (q := (a / b)%Z) in *. set (r := (a mod b)%Z) in *.
  assert (Hbp : (b < 2 * p)%Z) by nia.
  symmetry. apply (Z.div_unique_pos m p q (m - p * q)); [|ring].
  assert (Ha' : (a = b * q + r)%Z) by lia. split.
  - assert (p * q * b ≤ a * p)%Z by nia. nia.
  - assert (a * p = p * q * b + r * p)%Z by nia. nia.
Qed.

Lemma quot_sign s m p : (s = 1 ∨ s = -1)%Z → (0 ≤ m)%Z → (0 < p)%Z → Z.quot (s * m) p = (s * (m / p))%Z.
Proof.
  intros [-> | ->] Hm Hp.
  - rewrite !Z.mul_1_l. by apply Z.quot_div_nonneg.
  - replace (-1 * m)%Z with (- m)%Z by lia. rewrite Z.quot_opp_l, Z.quot_div_nonneg by lia. lia.
Qed.

Lemma num_int_float m e :
  (e ≤ 0)%Z → num_int (NFloat m e) = Z.quot m (2 ^ (- e)).
Proof.
  intros He. cbn [num_int]. unfold scale_num, scale_den. destruct (Z.leb_spec 0 e).
  - replace e with 0%Z by lia. done.
  - by rewrite Z.shiftl_1_l.
Qed.

Lemma truediv_small z v :
  (Z.abs z < 2 ^ 53)%Z → v ≠ 0%Z →
  ∃ x, truediv (NInt z) v = Ok x ∧ num_int x = Z.quot z v.
Proof.
  intros Hz Hv. cbn [truediv]. apply Z.eqb_neq in Hv as Hv'. rewrite Hv'. unfold round_quot.
  destruct (Z.eqb_spec z 0) as [->|Hz0]; [by exists (NFloat 0 0)|].
  assert (Ha : (0 < Z.abs z < 2 ^ 53)%Z) by lia. assert (Hb : (0 < Z.abs v)%Z) by lia.
  pose proof (trunc_round _ _ Ha Hb) as Ht. destruct (quot_exp_spec _ _ Ha Hb) as [He _].
  cbv zeta in Ht |- *. set (e := quot_exp (Z.abs z) (Z.abs v)) in *.
  set (m := round_div _ _) in *. set (q := (Z.abs z / Z.abs v)%Z) in *.
  assert (Hp : (0 < 2 ^ (- e))%Z) by (apply Z.pow_pos_nonneg; lia).
  assert (Hq : (0 ≤ q < 2 ^ 53)%Z).
  { split; [apply Z.div_pos; lia|]. apply Z.div_lt_upper_bound; nia. }
  assert (Hm : (0 ≤ m < 2 ^ 53 * 2 ^ (- e))%Z).
  { pose proof (Z.div_mod m (2 ^ (- e))). pose proof (Z.mod_pos_bound m _ Hp). nia. }
  assert (Hlog : (Z.log2 m + e < 1024)%Z).
  { destruct (decide (m = 0%Z)) as [Hm0|]; [rewrite Hm0; cbn; lia|].
    rewrite <- Z.pow_add_r in Hm by lia. destruct Hm as [_ Hm%Z.log2_lt_pow2]; lia. }
  destruct (Z.leb_spec 1024 (Z.log2 m + e)); [lia|]. eexists. split; [done|].
  rewrite num_int_float, quot_sign by lia. rewrite Ht. symmetry. by apply Z.quot_div.
Qed.

(** ** The functions *)

(** [arith] and [inc_dec] treat the numbers of an argument, joined by commas,
    and those of the other arguments as one sequence: whatever the grouping, an
    [arith] function other than [div] prints the left fold of its integer operation
    over the sequence, and an [inc_dec] function prints the sequence with 1 added or
    subtracted, in a form that the functions read again as one argument. *)
Theorem arith_groups (args : list string) (groups : list (list Z)) (z : Z) (zs : list Z) :
  Forall2 group_text args groups → concat groups = z :: zs →
  (∀ name op is_hex f,
     dict_get name arith_names = Some (op, is_hex) → op_fun op = Some f →
     (op = op_mod → Forall (λ v, v ≠ 0%Z) zs) →
     arith name args = Ok (int_text is_hex (foldl f z zs)))
  ∧ (∀ name delta is_hex,
     dict_get name inc_dec_names = Some (delta, is_hex) →
     ∃ r, inc_dec name args = Ok r ∧ group_text r ((λ v, v + delta)%Z <$> z :: zs)).
Proof.
  intros Hg Hz. pose proof (int_texts_groups _ _ Hg) as Hw. rewrite Hz in Hw. split.
  - intros name op is_hex f Hn Hf Hmod. unfold arith. rewrite Hn.
    apply Forall2_cons_inv_r in Hw as (s & texts & Hs & Hw & ->). cbn [reduce].
    rewrite (int0_written _ _ Hs). cbn [obind].
    by rewrite (reduce_from_written _ _ _ _ _ Hf Hmod Hw).
  - intros name delta is_hex Hn. unfold inc_dec. rewrite Hn.
    rewrite (map_ints_written _ _ _ Hw). eexists. split; [done|].
    exists ((λ v, int_text is_hex (v + delta)) <$> z :: zs). split; [done|]. split; [done|].
    clear. induction (z :: zs) as [|v l IH]; constructor; [apply int_text_written|done].
Qed.

(** C37: [div] computes with floats, but the quotient of two numbers is exact when the
    dividend is below 2^53: it is the integer quotient, rounded towards zero, whatever
    the divisor. *)
Theorem div_exact a b (z v : Z) :
  written a z → written b v → (Z.abs z < 2 ^ 53)%Z → v ≠ 0%Z →
  arith "div" [a; b] = Ok (py_str (Z.quot z v)) ∧ arith "div_hex" [a; b] = Ok (py_hex (Z.quot z v)).
Proof.
  intros Ha Hb Hz Hv. destruct (truediv_small z v Hz Hv) as (x & Hx & Hq).
  assert (Hw : int_texts [a; b] = [a; b]).
  { unfold int_texts. cbn. unfold split_on. by rewrite !split_on_free by by eapply written_free. }
  assert (Hr : reduce op_div [a; b] = Ok x).
  { cbn [reduce]. rewrite (int0_written _ _ Ha). cbn [obind reduce_from].
    rewrite (int0_written _ _ Hb). cbn [obind op_apply]. by rewrite Hx. }
  assert (Hname : ∀ name h, dict_get name arith_names = Some (op_div, h) →
    arith name [a; b] = Ok (int_text h (Z.quot z v))).
  { intros name h Hn. unfold arith. rewrite Hn, Hw, Hr. cbn [obind]. by rewrite Hq. }
  split; [exact (Hname "div" false eq_refl)|exact (Hname "div_hex" true eq_refl)].
Qed.

Lemma arith_groups_witness :
  inc_dec "inc" ["1,0xf"; "-3"] = Ok "2,16,-2" ∧ arith "sub" ["1,0xf"; "-3"] = Ok "-11".
Proof.
  split; [vm_compute; reflexivity|].
  refine (proj1 (arith_groups ["1,0xf"; "-3"] [[1%Z; 15%Z]; [(-3)%Z]] 1 [15%Z; (-3)%Z] _ eq_refl)
    "sub" op_sub false Z.sub eq_refl eq_refl _); [|done].
  constructor; [|constructor; [|constructor]].
  - exists ["1"; "0xf"]. split; [done|]. split; [done|].
    constructor; [by left|]. constructor; [by right|constructor].
  - exists ["-3"]. split; [done|]. split; [done|]. constructor; [by left|constructor].
Defined.

Lemma div_exact_witness :
  arith "div" ["-9007199254740991"; "0x2"] = Ok "-4503599627370495"
  ∧ arith "div_hex" ["-9007199254740991"; "0x2"] = Ok "-0xfffffffffffff".
Proof. apply (div_exact _ _ (-9007199254740991) 2); [by left|by right|done|done]. Defined.
