(* ===== verification/DevTree.v ===== *)
(** * The devicetree functions of Kconfig: the queries

    kconfigfunctions.py, the functions that look at the devicetree.  The devicetree
    itself is an object of the Python package edtlib, which is not in the repository:
    the type of its nodes, their attributes and the tables of the tree are parameters
    of the section, as is the text of the values of the remaining property types.  A
    node and an [EDT] object are true in a condition, since their classes define
    neither [__bool__] nor [__len__].

    [the_edt] is the module's [edt], [None] without a devicetree and when
    KCONFIG_DOC_MODE is 1.  The functions that Python would return [None] from, for a
    name they do not know, raise [TypeError] here: the preprocessor concatenates what
    they return to a string. *)

From S2P Require Import Prelude PyStr PyText Arith.
From stdpp Require Import options.

(** ** Properties, registers and the tree *)

(** The values of properties: integers, arrays of them, Booleans, strings, the
    node of a phandle, the [data] of the entries of a phandle-array, and the
    text and truth of any other value. *)
Inductive prop_val (node : Type) : Type :=
  | VInt (z : Z)
  | VArray (l : list Z)
  | VBool (b : bool)
  | VString (s : string)
  | VPhandle (n : option node)
  | VPhArray (l : list (option (list (string * Z))))
  | VOther (text : string) (truth : bool).
Arguments VInt {node} _.
Arguments VArray {node} _.
Arguments VBool {node} _.
Arguments VString {node} _.
Arguments VPhandle {node} _.
Arguments VPhArray {node} _.
Arguments VOther {node} _ _.

Record dt_prop (node : Type) : Type := DtProp { pr_type : string; pr_val : prop_val node }.
Arguments DtProp {node} _ _.
Arguments pr_type {node} _.
Arguments pr_val {node} _.

Record register : Type := Register { r_addr : option Z; r_size : option Z }.

(** The attributes of a node that the functions read. *)
Record dt_node_ops (node : Type) : Type := DtNodeOps {
  dn_name : node → string;
  dn_path : node → string;
  dn_status : node → string;
  dn_compats : node → list string;
  dn_labels : node → list string;
  dn_parent : node → option node;
  dn_on_buses : node → option (list string);
  dn_gpio_hogs : node → bool;
  dn_regs : node → list register;
  dn_props : node → list (string * dt_prop node);
  dn_val_str : prop_val node → string
}.
Arguments dn_name {node} _ _.
Arguments dn_path {node} _ _.
Arguments dn_status {node} _ _.
Arguments dn_compats {node} _ _.
Arguments dn_labels {node} _ _.
Arguments dn_parent {node} _ _.
Arguments dn_on_buses {node} _ _.
Arguments dn_gpio_hogs {node} _ _.
Arguments dn_regs {node} _ _.
Arguments dn_props {node} _ _.
Arguments dn_val_str {node} _ _.

(** An [EDT] object: [chosen_node], [get_node] ([None] when it raises
    [EDTError]), [label2node], the keys of [compat2nodes], [compat2okay] with
    what a subscript gives for a missing key, and [nodes]. *)
Record edt (node : Type) : Type := Edt {
  e_chosen_node : string → option node;
  e_get_node : string → option node;
  e_label2node : string → option node;
  e_compat2nodes : string → bool;
  e_compat2okay : string → option (list node);
  e_missing_okay : outcome (list node);
  e_nodes : list node
}.
Arguments e_chosen_node {node} _ _.
Arguments e_get_node {node} _ _.
Arguments e_label2node {node} _ _.
Arguments e_compat2nodes {node} _ _.
Arguments e_compat2okay {node} _ _.
Arguments e_missing_okay {node} _.
Arguments e_nodes {node} _.

(** ** Helpers *)

Definition yes_no (b : bool) : string := if b then "y" else "n".

(** The shift of a unit; [None] for a unit that is not known. *)
Definition _dt_units_to_scale (unit : option string) : option Z :=
  match unit with
  | None => Some 0%Z
  | Some u =>
      if decide (u = "") then Some 0%Z
      else if mem u ["k"; "K"] then Some 10%Z
      else if mem u ["m"; "M"] then Some 20%Z
      else if mem u ["g"; "G"] then Some 30%Z
      else if mem u ["kb"; "Kb"] then Some 13%Z
      else if mem u ["mb"; "Mb"] then Some 23%Z
      else if mem u ["gb"; "Gb"] then Some 33%Z
      else None
  end.

(** [val >> _dt_units_to_scale(unit)] *)
Definition scaled (val : Z) (unit : option string) : outcome Z :=
  match _dt_units_to_scale unit with
  | Some k => Ok (Z.shiftr val k)
  | None => Raise TypeError
  end.

(** [int(index)]; the default index is the integer 0. *)
Definition int_index (index : option string) : outcome Z :=
  match index with
  | None => Ok 0%Z
  | Some s => of_option ValueError (py_int 10 s)
  end.

(** [l[i]] with the negative indices of Python. *)
Definition py_nth {A} (l : list A) (i : Z) : outcome A :=
  let n := Z.of_nat (length l) in
  let j := (if i <? 0 then n + i else i)%Z in
  if (j <? 0)%Z then Raise IndexError else of_option IndexError (l !! Z.to_nat j).

(** [l[int(index)]], or nothing when the index is beyond the end. *)
Definition entry_at {A} (l : list A) (index : option string) : outcome (option A) :=
  let! i := int_index index in
  if (Z.of_nat (length l) <=? i)%Z then Ok None
  else let! x := py_nth l i in Ok (Some x).

Section DevTree.
Context {node : Type} (ops : dt_node_ops node) (the_edt : option (edt node)).

Definition props (n : node) : list (string * dt_prop node) := dn_props ops n.

Definition has_prop (n : node) (prop : string) : bool := mem prop (props n).*1.

Definition is_okay (n : node) : bool := bool_decide (dn_status ops n = "okay").

(** [if doc_mode or edt is None: return dflt] *)
Definition with_edt {A} (dflt : A) (f : edt node → outcome A) : outcome A :=
  match the_edt with Some e => f e | None => Ok dflt end.

(** The truth of a value *)
Definition truthy (v : prop_val node) : bool :=
  match v with
  | VInt z => negb (z =? 0)%Z
  | VArray l => negb (bool_decide (l = []))
  | VBool b => b
  | VString s => negb (bool_decide (s = ""))
  | VPhandle n => bool_decide (is_Some n)
  | VPhArray l => negb (bool_decide (l = []))
  | VOther _ t => t
  end.

(** [str(val)] *)
Definition val_str (v : prop_val node) : string :=
  match v with
  | VInt z => py_str z
  | VString s => s
  | VBool b => if b then "True" else "False"
  | VArray l => "[" +:+ sjoin ", " (py_str <$> l) +:+ "]"
  | VPhandle None => "None"
  | VOther t _ => t
  | v => dn_val_str ops v
  end.

Definition as_int (v : prop_val node) : outcome Z :=
  match v with VInt z => Ok z | _ => Raise TypeError end.
Definition as_array (v : prop_val node) : outcome (list Z) :=
  match v with VArray l => Ok l | _ => Raise TypeError end.
Definition as_ph_array (v : prop_val node) : outcome (list (option (list (string * Z)))) :=
  match v with VPhArray l => Ok l | _ => Raise TypeError end.
Definition as_str (v : prop_val node) : outcome string :=
  match v with VString s => Ok s | _ => Raise TypeError end.

(** ** Registers and properties of a node *)

Definition _node_reg (field : register → option Z) (n : option node) (index unit : option string)
    : outcome Z :=
  match n with
  | None => Ok 0%Z
  | Some n =>
      if decide (dn_regs ops n = []) then Ok 0%Z
      else
        let! r := entry_at (dn_regs ops n) index in
        match r with
        | None => Ok 0%Z
        | Some r =>
            match field r with
            | None => Ok 0%Z
            | Some a => scaled a unit
            end
        end
  end.

Definition _node_reg_addr : option node → option string → option string → outcome Z :=
  _node_reg r_addr.
Definition _node_reg_size : option node → option string → option string → outcome Z :=
  _node_reg r_size.

Definition _node_int_prop (n : node) (prop : string) (unit : option string) : outcome Z :=
  match dict_get prop (props n) with
  | None => Ok 0%Z
  | Some p =>
      if decide (pr_type p = "int") then let! v := as_int (pr_val p) in scaled v unit
      else Ok 0%Z
  end.

Definition _node_array_prop (n : node) (prop : string) (index unit : option string) : outcome Z :=
  match dict_get prop (props n) with
  | None => Ok 0%Z
  | Some p =>
      if decide (pr_type p = "array") then
        let! l := as_array (pr_val p) in
        let! v := entry_at l index in
        match v with None => Ok 0%Z | Some v => scaled v unit end
      else Ok 0%Z
  end.

Definition _node_ph_array_prop (n : node) (prop : string) (index : option string) (cell : string)
    (unit : option string) : outcome Z :=
  match dict_get prop (props n) with
  | None => Ok 0%Z
  | Some p =>
      if decide (pr_type p = "phandle-array") then
        let! l := as_ph_array (pr_val p) in
        let! entry := entry_at l index in
        match entry with
        | None => Ok 0%Z
        | Some None => Raise AttributeError
        | Some (Some data) =>
            match dict_get cell data with None => Ok 0%Z | Some v => scaled v unit end
        end
      else Ok 0%Z
  end.

(** ** Chosen nodes *)

Definition dt_chosen_label (chosen : string) : outcome string :=
  with_edt "" (λ e,
    match e_chosen_node e chosen with
    | None => Ok ""
    | Some n =>
        match dict_get "label" (props n) with
        | None => Ok (dn_name ops n)
        | Some p => as_str (pr_val p)
        end
    end).

Definition node_okay (n : option node) : bool :=
  match n with Some n => is_okay n | None => false end.

Definition dt_chosen_enabled (chosen : string) : outcome string :=
  with_edt "n" (λ e, Ok (yes_no (node_okay (e_chosen_node e chosen)))).

Definition path_of (n : option node) : string :=
  match n with Some n => dn_path ops n | None => "" end.

Definition dt_chosen_path (chosen : string) : outcome string :=
  with_edt "n" (λ e, Ok (path_of (e_chosen_node e chosen))).

Definition compatible (n : option node) (compat : string) : bool :=
  match n with Some n => mem compat (dn_compats ops n) | None => false end.

Definition dt_chosen_has_compat (chosen compat : string) : outcome string :=
  with_edt "n" (λ e, Ok (yes_no (compatible (e_chosen_node e chosen) compat))).

(** The routing by the name of a function: the table gives, for each name, the
    value and whether it is printed in hexadecimal. *)
Definition route (name : string) (table : list (string * (outcome Z * bool))) : outcome string :=
  match dict_get name table with
  | Some (v, is_hex) => let! z := v in Ok (int_text is_hex z)
  | None => Raise TypeError
  end.

Definition _dt_chosen_reg_addr (chosen : string) (index unit : option string) : outcome Z :=
  with_edt 0%Z (λ e, _node_reg_addr (e_chosen_node e chosen) index unit).
Definition _dt_chosen_reg_size (chosen : string) (index unit : option string) : outcome Z :=
  with_edt 0%Z (λ e, _node_reg_size (e_chosen_node e chosen) index unit).

Definition dt_chosen_reg (name chosen : string) (index unit : option string) : outcome string :=
  route name
    [("dt_chosen_reg_size_int", (_dt_chosen_reg_size chosen index unit, false));
     ("dt_chosen_reg_size_hex", (_dt_chosen_reg_size chosen index unit, true));
     ("dt_chosen_reg_addr_int", (_dt_chosen_reg_addr chosen index unit, false));
     ("dt_chosen_reg_addr_hex", (_dt_chosen_reg_addr chosen index unit, true))].

Definition _dt_chosen_partition_addr (chosen : string) (index unit : option string) : outcome Z :=
  with_edt 0%Z (λ e,
    match e_chosen_node e chosen with
    | None => Ok 0%Z
    | Some n =>
        match dn_parent ops n with
        | None => Ok 0%Z
        | Some p =>
            let! a := _node_reg_addr (dn_parent ops p) index unit in
            let! b := _node_reg_addr (Some n) None unit in
            Ok (a + b)%Z
        end
    end).

Definition dt_chosen_partition_addr (name chosen : string) (index unit : option string)
    : outcome string :=
  route name
    [("dt_chosen_partition_addr_int", (_dt_chosen_partition_addr chosen index unit, false));
     ("dt_chosen_partition_addr_hex", (_dt_chosen_partition_addr chosen index unit, true))].

(** ** Nodes by path, alias or label *)

(** [dt_path_enabled] and [dt_alias_enabled] *)
Definition dt_node_enabled (name path : string) : outcome string :=
  with_edt "n" (λ e,
    if decide (name = "dt_alias_enabled") then
      if startswith "/" path then Ok "n" else Ok (yes_no (node_okay (e_get_node e path)))
    else if decide (name = "dt_path_enabled") then Ok (yes_no (node_okay (e_get_node e path)))
    else Raise AssertionError).

Definition dt_nodelabel_exists (label : string) : outcome string :=
  with_edt "n" (λ e, Ok (yes_no (bool_decide (is_Some (e_label2node e label))))).

Definition dt_nodelabel_enabled (label : string) : outcome string :=
  with_edt "n" (λ e, Ok (yes_no (node_okay (e_label2node e label)))).

Definition _dt_node_reg_addr (path : string) (index unit : option string) : outcome Z :=
  with_edt 0%Z (λ e,
    match e_get_node e path with
    | None => Ok 0%Z
    | Some n => _node_reg_addr (Some n) index unit
    end).
Definition _dt_node_reg_size (path : string) (index unit : option string) : outcome Z :=
  with_edt 0%Z (λ e,
    match e_get_node e path with
    | None => Ok 0%Z
    | Some n => _node_reg_size (Some n) index unit
    end).

Definition dt_node_reg (name path : string) (index unit : option string) : outcome string :=
  route name
    [("dt_node_reg_size_int", (_dt_node_reg_size path index unit, false));
     ("dt_node_reg_size_hex", (_dt_node_reg_size path index unit, true));
     ("dt_node_reg_addr_int", (_dt_node_reg_addr path index unit, false));
     ("dt_node_reg_addr_hex", (_dt_node_reg_addr path index unit, true))].

(** [label2node.get(label)], [None] without a devicetree *)
Definition labelled (label : string) : option node :=
  match the_edt with Some e => e_label2node e label | None => None end.

Definition dt_nodelabel_reg (name label : string) (index unit : option string) : outcome string :=
  let size := match labelled label with
              | Some n => _dt_node_reg_size (dn_path ops n) index unit | None => Ok 0%Z end in
  let addr := match labelled label with
              | Some n => _dt_node_reg_addr (dn_path ops n) index unit | None => Ok 0%Z end in
  route name
    [("dt_nodelabel_reg_size_int", (size, false)); ("dt_nodelabel_reg_size_hex", (size, true));
     ("dt_nodelabel_reg_addr_int", (addr, false)); ("dt_nodelabel_reg_addr_hex", (addr, true))].

(** ** Properties of nodes *)

Definition _dt_node_bool_prop_generic (node_search : string → option node) (search_arg prop : string)
    : string :=
  match node_search search_arg with
  | None => "n"
  | Some n =>
      match dict_get prop (props n) with
      | None => "n"
      | Some p =>
          if decide (pr_type p = "boolean") then yes_no (truthy (pr_val p)) else "n"
      end
  end.

Definition dt_node_bool_prop (path prop : string) : outcome string :=
  with_edt "n" (λ e, Ok (_dt_node_bool_prop_generic (e_get_node e) path prop)).
Definition dt_nodelabel_bool_prop (label prop : string) : outcome string :=
  with_edt "n" (λ e, Ok (_dt_node_bool_prop_generic (e_label2node e) label prop)).
Definition dt_chosen_bool_prop (chosen prop : string) : outcome string :=
  with_edt "n" (λ e, Ok (_dt_node_bool_prop_generic (e_chosen_node e) chosen prop)).

Definition dt_nodelabel_int_prop (label prop : string) : outcome string :=
  with_edt "0" (λ e,
    match e_label2node e label with
    | None => Ok "0"
    | Some n =>
        match dict_get prop (props n) with
        | None => Raise KeyError
        | Some p =>
            if decide (pr_type p = "int") then
              if truthy (pr_val p) then Ok (val_str (pr_val p)) else Ok "0"
            else Ok "0"
        end
    end).

Definition _dt_node_has_prop_generic (node_search : string → option node) (search_arg prop : string)
    : string :=
  match node_search search_arg with
  | None => "n"
  | Some n => yes_no (has_prop n prop)
  end.

Definition dt_node_has_prop (path prop : string) : outcome string :=
  with_edt "n" (λ e, Ok (_dt_node_has_prop_generic (e_get_node e) path prop)).
Definition dt_nodelabel_has_prop (label prop : string) : outcome string :=
  with_edt "n" (λ e, Ok (_dt_node_has_prop_generic (e_label2node e) label prop)).

(** The node at a path, or the default when there is none *)
Definition with_node {A} (dflt : A) (path : string) (f : node → outcome A) : outcome A :=
  with_edt dflt (λ e, match e_get_node e path with None => Ok dflt | Some n => f n end).

Definition dt_node_int_prop (name path prop : string) (unit : option string) : outcome string :=
  with_node "0" path (λ n,
    route name
      [("dt_node_int_prop_int", (_node_int_prop n prop unit, false));
       ("dt_node_int_prop_hex", (_node_int_prop n prop unit, true))]).

Definition dt_node_array_prop (name path prop index : string) (unit : option string)
    : outcome string :=
  with_node "0" path (λ n,
    route name
      [("dt_node_array_prop_int", (_node_array_prop n prop (Some index) unit, false));
       ("dt_node_array_prop_hex", (_node_array_prop n prop (Some index) unit, true))]).

Definition dt_node_ph_array_prop (name path prop index cell : string) (unit : option string)
    : outcome string :=
  with_node "0" path (λ n,
    route name
      [("dt_node_ph_array_prop_int", (_node_ph_array_prop n prop (Some index) cell unit, false));
       ("dt_node_ph_array_prop_hex", (_node_ph_array_prop n prop (Some index) cell unit, true))]).

Definition dt_node_ph_prop_path (path prop : string) : outcome string :=
  with_node "" path (λ n,
    match dict_get prop (props n) with
    | None => Ok ""
    | Some p =>
        if decide (pr_type p = "phandle") then
          match pr_val p with
          | VPhandle ph => Ok (path_of ph)
          | v => if truthy v then Raise AttributeError else Ok ""
          end
        else Ok ""
    end).

Definition dt_node_str_prop_equals (path prop val : string) : outcome string :=
  with_node "n" path (λ n,
    match dict_get prop (props n) with
    | None => Ok "n"
    | Some p =>
        if decide (pr_type p = "string") then
          match pr_val p with
          | VString s => Ok (yes_no (bool_decide (s = val)))
          | _ => Ok "n"
          end
        else Ok "n"
    end).

(** ** Compatible nodes *)

Definition dt_has_compat (compat : string) : outcome string :=
  with_edt "n" (λ e, Ok (yes_no (e_compat2nodes e compat))).

Definition dt_compat_enabled (compat : string) : outcome string :=
  with_edt "n" (λ e, Ok (yes_no (bool_decide (is_Some (e_compat2okay e compat))))).

Definition dt_compat_enabled_num (compat : string) : outcome string :=
  with_edt "0" (λ e,
    let! l := match e_compat2okay e compat with Some l => Ok l | None => e_missing_okay e end in
    Ok (py_str (Z.of_nat (length l)))).

(** The loop over the enabled nodes of a compatible *)
Definition any_okay (compat : string) (test : node → bool) : outcome string :=
  with_edt "n" (λ e,
    match e_compat2okay e compat with
    | Some l => Ok (yes_no (existsb test l))
    | None => Ok "n"
    end).

Definition dt_compat_on_bus (compat bus : string) : outcome string :=
  any_okay compat (λ n, match dn_on_buses ops n with Some l => mem bus l | None => false end).

Definition dt_compat_any_has_prop (compat prop : string) (value : option string) : outcome string :=
  any_okay compat (λ n,
    match dict_get prop (props n) with
    | None => false
    | Some p =>
        match value with
        | None => true
        | Some v => bool_decide (val_str (pr_val p) = v)
        end
    end).

Definition dt_compat_any_not_has_prop (compat prop : string) : outcome string :=
  any_okay compat (λ n, negb (has_prop n prop)).

Definition dt_nodelabel_has_compat (label compat : string) : outcome string :=
  with_edt "n" (λ e, Ok (yes_no (compatible (e_label2node e label) compat))).

Definition dt_node_has_compat (path compat : string) : outcome string :=
  with_node "n" path (λ n, Ok (yes_no (compatible (Some n) compat))).

Definition dt_nodelabel_enabled_with_compat (label compat : string) : outcome string :=
  any_okay compat (λ n, mem label (dn_labels ops n)).

Definition dt_nodelabel_array_prop_has_val (label prop val : string) : outcome string :=
  with_edt "n" (λ e,
    match e_label2node e label with
    | None => Ok "n"
    | Some n =>
        match dict_get prop (props n) with
        | None => Ok "n"
        | Some p =>
            if decide (pr_type p = "array") then
              let! v := of_option ValueError (py_int 0 val) in
              let! l := as_array (pr_val p) in
              Ok (yes_no (mem v l))
            else Ok "n"
        end
    end).

(** ** Paths and GPIO hogs *)

Definition dt_nodelabel_path (label : string) : outcome string :=
  with_edt "" (λ e, Ok (path_of (e_label2node e label))).

Definition dt_node_parent (path : string) : outcome string :=
  with_node "" path (λ n, Ok (path_of (dn_parent ops n))).

Definition dt_gpio_hogs_enabled : outcome string :=
  with_edt "n" (λ e, Ok (yes_no (existsb (λ n, dn_gpio_hogs ops n && is_okay n) (e_nodes e)))).

End DevTree.
