(* ===== verification/Functions.v ===== *)
(** * The table of the Kconfig functions

    [functions] of kconfigfunctions.py: the name of each function in Kconfig files,
    the Python function, and the least and the greatest number of arguments.  A Python
    function is kept with the numbers of arguments that its own signature accepts, so
    that the two can be compared; called with another number it raises [TypeError].
    [w_functions_of] is the table as the preprocessor of Preproc.v sees it. *)

From S2P Require Import Prelude PyStr DevTree Arith.
From stdpp Require Import options.

(** A Python function: its required and greatest number of positional arguments
    after [kconf] and the name, and its call with the name and the arguments. *)
Record pyfun : Type := PyFun {
  py_required : nat;
  py_greatest : option nat;
  py_call : string → list string → outcome string
}.

Definition fun0 (f : outcome string) : pyfun :=
  PyFun 0 (Some 0) (λ _ args, match args with [] => f | _ => Raise TypeError end).
Definition fun1 (f : string → outcome string) : pyfun :=
  PyFun 1 (Some 1) (λ _ args, match args with [a] => f a | _ => Raise TypeError end).
Definition fun1n (f : string → string → outcome string) : pyfun :=
  PyFun 1 (Some 1) (λ n args, match args with [a] => f n a | _ => Raise TypeError end).
Definition fun2 (f : string → string → outcome string) : pyfun :=
  PyFun 2 (Some 2) (λ _ args, match args with [a; b] => f a b | _ => Raise TypeError end).
Definition fun3 (f : string → string → string → outcome string) : pyfun :=
  PyFun 3 (Some 3) (λ _ args, match args with [a; b; c] => f a b c | _ => Raise TypeError end).
(** An argument with a default *)
Definition fun2_1 (f : string → string → option string → outcome string) : pyfun :=
  PyFun 2 (Some 3) (λ _ args,
    match args with
    | [a; b] => f a b None | [a; b; c] => f a b (Some c) | _ => Raise TypeError
    end).
Definition fun1n_2 (f : string → string → option string → option string → outcome string) : pyfun :=
  PyFun 1 (Some 3) (λ n args,
    match args with
    | [a] => f n a None None | [a; b] => f n a (Some b) None
    | [a; b; c] => f n a (Some b) (Some c) | _ => Raise TypeError
    end).
Definition fun2n_1 (f : string → string → string → option string → outcome string) : pyfun :=
  PyFun 2 (Some 3) (λ n args,
    match args with
    | [a; b] => f n a b None | [a; b; c] => f n a b (Some c) | _ => Raise TypeError
    end).
Definition fun3n_1 (f : string → string → string → string → option string → outcome string) : pyfun :=
  PyFun 3 (Some 4) (λ n args,
    match args with
    | [a; b; c] => f n a b c None | [a; b; c; d] => f n a b c (Some d) | _ => Raise TypeError
    end).
Definition fun4n_1
    (f : string → string → string → string → string → option string → outcome string) : pyfun :=
  PyFun 4 (Some 5) (λ n args,
    match args with
    | [a; b; c; d] => f n a b c d None | [a; b; c; d; e] => f n a b c d (Some e)
    | _ => Raise TypeError
    end).
(** [*args] *)
Definition fun_star (f : string → list string → outcome string) : pyfun := PyFun 0 None f.

Section Functions.
Context {node : Type} (ops : dt_node_ops node) (the_edt : option (edt node)).
(** The environment variable SHIELD_AS_LIST *)
Variable shield_as_list : option string.

Definition functions : list (string * (pyfun * nat * nat)) :=
  let arith := fun_star arith in
  let inc_dec := fun_star inc_dec in
  [("dt_has_compat", (fun1 (dt_has_compat the_edt), 1, 1));
   ("dt_compat_enabled", (fun1 (dt_compat_enabled the_edt), 1, 1));
   ("dt_compat_enabled_num", (fun1 (dt_compat_enabled_num the_edt), 1, 1));
   ("dt_compat_on_bus", (fun2 (dt_compat_on_bus ops the_edt), 2, 2));
   ("dt_compat_any_has_prop", (fun2_1 (dt_compat_any_has_prop ops the_edt), 2, 3));
   ("dt_compat_any_not_has_prop", (fun2 (dt_compat_any_not_has_prop ops the_edt), 2, 2));
   ("dt_chosen_label", (fun1 (dt_chosen_label ops the_edt), 1, 1));
   ("dt_chosen_enabled", (fun1 (dt_chosen_enabled ops the_edt), 1, 1));
   ("dt_chosen_path", (fun1 (dt_chosen_path ops the_edt), 1, 1));
   ("dt_chosen_has_compat", (fun2 (dt_chosen_has_compat ops the_edt), 2, 2));
   ("dt_path_enabled", (fun1n (dt_node_enabled ops the_edt), 1, 1));
   ("dt_alias_enabled", (fun1n (dt_node_enabled ops the_edt), 1, 1));
   ("dt_nodelabel_exists", (fun1 (dt_nodelabel_exists the_edt), 1, 1));
   ("dt_nodelabel_enabled", (fun1 (dt_nodelabel_enabled ops the_edt), 1, 1));
   ("dt_nodelabel_enabled_with_compat", (fun2 (dt_nodelabel_enabled_with_compat ops the_edt), 2, 2));
   ("dt_chosen_reg_addr_int", (fun1n_2 (dt_chosen_reg ops the_edt), 1, 3));
   ("dt_chosen_reg_addr_hex", (fun1n_2 (dt_chosen_reg ops the_edt), 1, 3));
   ("dt_chosen_reg_size_int", (fun1n_2 (dt_chosen_reg ops the_edt), 1, 3));
   ("dt_chosen_reg_size_hex", (fun1n_2 (dt_chosen_reg ops the_edt), 1, 3));
   ("dt_node_reg_addr_int", (fun1n_2 (dt_node_reg ops the_edt), 1, 3));
   ("dt_node_reg_addr_hex", (fun1n_2 (dt_node_reg ops the_edt), 1, 3));
   ("dt_node_reg_size_int", (fun1n_2 (dt_node_reg ops the_edt), 1, 3));
   ("dt_node_reg_size_hex", (fun1n_2 (dt_node_reg ops the_edt), 1, 3));
   ("dt_nodelabel_reg_addr_int", (fun1n_2 (dt_nodelabel_reg ops the_edt), 1, 3));
   ("dt_nodelabel_reg_addr_hex", (fun1n_2 (dt_nodelabel_reg ops the_edt), 1, 3));
   ("dt_nodelabel_reg_size_int", (fun1n_2 (dt_nodelabel_reg ops the_edt), 1, 3));
   ("dt_nodelabel_reg_size_hex", (fun1n_2 (dt_nodelabel_reg ops the_edt), 1, 3));
   ("dt_node_bool_prop", (fun2 (dt_node_bool_prop ops the_edt), 2, 2));
   ("dt_nodelabel_bool_prop", (fun2 (dt_nodelabel_bool_prop ops the_edt), 2, 2));
   ("dt_nodelabel_int_prop", (fun2 (dt_nodelabel_int_prop ops the_edt), 2, 2));
   ("dt_chosen_bool_prop", (fun2 (dt_chosen_bool_prop ops the_edt), 2, 2));
   ("dt_node_has_prop", (fun2 (dt_node_has_prop ops the_edt), 2, 2));
   ("dt_nodelabel_has_prop", (fun2 (dt_nodelabel_has_prop ops the_edt), 2, 2));
   ("dt_node_int_prop_int", (fun2n_1 (dt_node_int_prop ops the_edt), 2, 3));
   ("dt_node_int_prop_hex", (fun2n_1 (dt_node_int_prop ops the_edt), 2, 3));
   ("dt_node_array_prop_int", (fun3n_1 (dt_node_array_prop ops the_edt), 3, 4));
   ("dt_node_array_prop_hex", (fun3n_1 (dt_node_array_prop ops the_edt), 3, 4));
   ("dt_node_ph_array_prop_int", (fun4n_1 (dt_node_ph_array_prop ops the_edt), 4, 5));
   ("dt_node_ph_array_prop_hex", (fun4n_1 (dt_node_ph_array_prop ops the_edt), 4, 5));
   ("dt_node_ph_prop_path", (fun2 (dt_node_ph_prop_path ops the_edt), 2, 2));
   ("dt_node_str_prop_equals", (fun3 (dt_node_str_prop_equals ops the_edt), 3, 3));
   ("dt_nodelabel_has_compat", (fun2 (dt_nodelabel_has_compat ops the_edt), 2, 2));
   ("dt_node_has_compat", (fun2 (dt_node_has_compat ops the_edt), 2, 2));
   ("dt_nodelabel_path", (fun1 (dt_nodelabel_path ops the_edt), 1, 1));
   ("dt_node_parent", (fun1 (dt_node_parent ops the_edt), 1, 1));
   ("dt_nodelabel_array_prop_has_val", (fun3 (dt_nodelabel_array_prop_has_val ops the_edt), 3, 3));
   ("dt_gpio_hogs_enabled", (fun0 (dt_gpio_hogs_enabled ops the_edt), 0, 0));
   ("dt_chosen_partition_addr_int", (fun1n_2 (dt_chosen_partition_addr ops the_edt), 1, 3));
   ("dt_chosen_partition_addr_hex", (fun1n_2 (dt_chosen_partition_addr ops the_edt), 1, 3));
   ("normalize_upper", (fun1 (λ s, Ok (normalize_upper s)), 1, 1));
   ("shields_list_contains", (fun1 (λ s, Ok (shields_list_contains shield_as_list s)), 1, 1));
   ("substring", (fun2_1 substring, 2, 3));
   ("add", (arith, 1, 255)); ("add_hex", (arith, 1, 255));
   ("sub", (arith, 1, 255)); ("sub_hex", (arith, 1, 255));
   ("mul", (arith, 1, 255)); ("mul_hex", (arith, 1, 255));
   ("div", (arith, 1, 255)); ("div_hex", (arith, 1, 255));
   ("mod", (arith, 1, 255)); ("mod_hex", (arith, 1, 255));
   ("max", (arith, 1, 255)); ("max_hex", (arith, 1, 255));
   ("min", (arith, 1, 255)); ("min_hex", (arith, 1, 255));
   ("inc", (inc_dec, 1, 255)); ("inc_hex", (inc_dec, 1, 255));
   ("dec", (inc_dec, 1, 255)); ("dec_hex", (inc_dec, 1, 255))].

(** The table for the preprocessor, which passes the name as the first argument. *)
Definition w_functions_of (name : string)
    : option (nat * option nat * (list string → outcome string)) :=
  match dict_get name functions with
  | Some (f, least, greatest) =>
      Some (least, Some greatest,
        λ args, match args with
                | fn :: args => py_call f fn args
                | [] => Raise TypeError
                end)
  | None => None
  end.

(** A call that the preprocessor makes: the number of arguments is in the bounds. *)
Definition call (name : string) (args : list string) : option (outcome string) :=
  match dict_get name functions with
  | Some (f, least, greatest) =>
      if (least <=? length args) && (length args <=? greatest) then Some (py_call f name args)
      else None
  | None => None
  end.
End Functions.
