(* ===== verification/FunctionRules.v ===== *)
(** * What the Kconfig functions return

    The predicates of the table of kconfigfunctions.py return y or n, the numeric
    functions the text of an integer; the errors that some of them raise are named.
    A small devicetree and a Kconfig file that uses the functions are run at the end. *)

From S2P Require Import Prelude PyStr PyText Incr Objects ParseState Values Session Load Demo.
From S2P Require Import DevTree Arith Functions.
From stdpp Require Import options.

(** ** The functions that answer y or n *)

Definition yes_no_names : list string :=
  ["dt_has_compat"; "dt_compat_enabled"; "dt_compat_on_bus"; "dt_compat_any_has_prop";
   "dt_compat_any_not_has_prop"; "dt_chosen_enabled"; "dt_chosen_has_compat"; "dt_path_enabled";
   "dt_alias_enabled"; "dt_nodelabel_exists"; "dt_nodelabel_enabled";
   "dt_nodelabel_enabled_with_compat"; "dt_node_bool_prop"; "dt_nodelabel_bool_prop";
   "dt_chosen_bool_prop"; "dt_node_has_prop"; "dt_nodelabel_has_prop"; "dt_node_str_prop_equals";
   "dt_nodelabel_has_compat"; "dt_node_has_compat"; "dt_gpio_hogs_enabled";
   "dt_nodelabel_array_prop_has_val"; "shields_list_contains"].

Definition answer (b : bool) (o : outcome string) : Prop :=
  o = Ok "n" ∨ b = true ∧ o = Ok "y".

(** The numeric functions of the devicetree: the base of the result, and the positions
    of the arguments that are the index and the unit; a position that no call reaches
    stands for an argument that the function does not have. *)
Definition number_functions : list (string * (Z * nat * nat)) :=
  let entry (prefix : string) (index unit : nat) :=
    [(prefix +:+ "_int", (10%Z, index, unit)); (prefix +:+ "_hex", (16%Z, index, unit))] in
  entry "dt_chosen_reg_addr" 1 2 ++ entry "dt_chosen_reg_size" 1 2
  ++ entry "dt_node_reg_addr" 1 2 ++ entry "dt_node_reg_size" 1 2
  ++ entry "dt_nodelabel_reg_addr" 1 2 ++ entry "dt_nodelabel_reg_size" 1 2
  ++ entry "dt_chosen_partition_addr" 1 2 ++ entry "dt_node_int_prop" 5 2
  ++ entry "dt_node_array_prop" 2 3 ++ entry "dt_node_ph_array_prop" 2 4
  ++ [("dt_nodelabel_int_prop", (10%Z, 5, 5)); ("dt_compat_enabled_num", (10%Z, 5, 5))].

(** What goes wrong with an index and a unit *)
Inductive number_error (index unit : option string) : exn → Prop :=
  | index_not_integer : int_index index = Raise ValueError → number_error index unit ValueError
  | index_negative i : int_index index = Ok i → (i < 0)%Z → number_error index unit IndexError
  | unit_not_known : _dt_units_to_scale unit = None → number_error index unit TypeError.

(** A number, zero when there is no devicetree, or one of the errors when there is *)
Definition number (index unit : option string) (zero : bool) (o : outcome Z) : Prop :=
  (∃ z, o = Ok z ∧ (zero = true → z = 0%Z)) ∨
  zero = false ∧ ∃ e, o = Raise e ∧ number_error index unit e.
(** The same for the text of a number in a base *)
Definition number_text (base : Z) (index unit : option string) (zero : bool) (o : outcome string) : Prop :=
  (∃ s z, o = Ok s ∧ py_int base s = Some z ∧ (zero = true → z = 0%Z)) ∨
  zero = false ∧ ∃ e, o = Raise e ∧ number_error index unit e.

Section FunctionRules.
Context {node : Type} (ops : dt_node_ops node) (the_edt : option (edt node)).
Variable shield_as_list : option string.

(** What edtlib promises: the value of a property has the shape of its type, and the
    entries of a phandle-array are given. *)
Definition val_typed (p : dt_prop node) : Prop :=
  match pr_val p with
  | VInt _ => pr_type p = "int"
  | VArray _ => pr_type p = "array"
  | VBool _ => pr_type p = "boolean"
  | VString _ => pr_type p = "string"
  | VPhandle _ => pr_type p = "phandle"
  | VPhArray l => pr_type p = "phandle-array" ∧ Forall is_Some l
  | VOther _ _ =>
      pr_type p ∉ ["int"; "array"; "boolean"; "string"; "phandle"; "phandle-array"]
  end.
Definition typed : Prop := ∀ n k p, dict_get k (dn_props ops n) = Some p → val_typed p.

Let has_edt : bool := bool_decide (is_Some the_edt).

Lemma answer_with_edt f :
  (∀ e, answer true (f e)) → answer has_edt (with_edt the_edt "n" f).
Proof.
  intros H. unfold has_edt, with_edt. destruct the_edt as [e|]; [|by left].
  by rewrite bool_decide_true.
Qed.

Lemma answer_yes_no b : answer true (Ok (yes_no b)).
Proof. destruct b; [right|left]; done. Qed.

Lemma answer_any_okay compat test : answer has_edt (any_okay the_edt compat test).
Proof.
  apply answer_with_edt. intros e. destruct (e_compat2okay e compat); [apply answer_yes_no|by left].
Qed.

Lemma answer_with_node path f :
  (∀ n, answer true (f n)) → answer has_edt (with_node the_edt "n" path f).
Proof.
  intros H. apply answer_with_edt. intros e. destruct (e_get_node e path); [done|by left].
Qed.

Lemma answer_bool_prop search arg prop :
  answer true (Ok (_dt_node_bool_prop_generic ops search arg prop)).
Proof.
  unfold _dt_node_bool_prop_generic. destruct (search arg) as [n|]; [|by left].
  destruct (dict_get _ _); [|by left]. case_decide; [apply answer_yes_no|by left].
Qed.

Lemma answer_has_prop search arg prop :
  answer true (Ok (_dt_node_has_prop_generic ops search arg prop)).
Proof.
  unfold _dt_node_has_prop_generic. destruct (search arg); [apply answer_yes_no|by left].
Qed.

Lemma answer_node_enabled name path :
  name = "dt_alias_enabled" ∨ name = "dt_path_enabled" →
  answer has_edt (dt_node_enabled ops the_edt name path).
Proof.
  intros Hn. apply answer_with_edt. intros e. case_decide.
  - destruct (startswith _ _); [by left|apply answer_yes_no].
  - destruct Hn; [done|]. rewrite decide_True by done. apply answer_yes_no.
Qed.

Lemma answer_str_prop path prop val :
  answer has_edt (dt_node_str_prop_equals ops the_edt path prop val).
Proof.
  apply answer_with_node. intros n. destruct (dict_get _ _); [|by left].
  case_decide; [|by left]. destruct (pr_val _); try by left. apply answer_yes_no.
Qed.

(** *** Numbers *)

Lemma number_ok index unit z : number index unit false (Ok z).
Proof. left. by exists z. Qed.

Lemma number_fails index unit e : number_error index unit e → number index unit false (Raise e).
Proof. intros He. right. split; [done|]. by exists e. Qed.

Lemma number_scaled index val unit : number index unit false (scaled val unit).
Proof.
  unfold scaled. destruct (_dt_units_to_scale unit) as [k|] eqn:Hk; [apply number_ok|].
  by apply number_fails, unit_not_known.
Qed.

Lemma entry_at_In {A} (l : list A) index x : entry_at l index = Ok (Some x) → x ∈ l.
Proof.
  unfold entry_at, py_nth. intros H. inv_bind. case_all.
  all: destruct (l !! _) eqn:Hl; simplify_eq/=; by eapply list_elem_of_lookup_2.
Qed.

Lemma py_nth_cases {A} (l : list A) i :
  (∃ x, py_nth l i = Ok x) ∨ py_nth l i = Raise IndexError ∧ ((i < 0)%Z ∨ (Z.of_nat (length l) ≤ i)%Z).
Proof.
  unfold py_nth, of_option. destruct (Z.ltb_spec i 0).
  - destruct (Z.ltb_spec (Z.of_nat (length l) + i) 0); [right; auto|].
    destruct (l !! _) as [x|]; [left; by exists x|right; auto].
  - destruct (Z.ltb_spec i 0); [lia|]. destruct (l !! _) as [x|] eqn:Hx; [left; by exists x|right].
    apply lookup_ge_None_1 in Hx. split; [done|right; lia].
Qed.

Lemma int_index_cases index : (∃ i, int_index index = Ok i) ∨ int_index index = Raise ValueError.
Proof. unfold int_index, of_option. destruct index as [s|]; [destruct (py_int 10 s)|]; eauto. Qed.

(** An entry of a list: the index is beyond the end or not, or an error. *)
Lemma number_entry {A} (l : list A) index unit (f : option A → outcome Z) :
  (∀ x, entry_at l index = Ok x → number index unit false (f x)) →
  number index unit false (let! x := entry_at l index in f x).
Proof.
  unfold entry_at. destruct (int_index_cases index) as [[i Hi]|Hi]; rewrite Hi; cbn [obind]; intros Hf;
    [|by apply number_fails, index_not_integer].
  destruct (Z.leb_spec (Z.of_nat (length l)) i); [by apply Hf|].
  destruct (py_nth_cases l i) as [[x Hx]|[Hx Hneg]]; rewrite Hx in *; cbn [obind] in *; [by apply Hf|].
  apply number_fails. eapply index_negative; [done|lia].
Qed.

Lemma number_node_reg field n index unit : number index unit false (_node_reg ops field n index unit).
Proof.
  unfold _node_reg. destruct n as [n|]; [|apply number_ok].
  case_decide; [apply number_ok|]. apply number_entry. intros [r|] _; [|apply number_ok].
  destruct (field r); [apply number_scaled|apply number_ok].
Qed.

Lemma number_int_prop index n prop unit : typed → number index unit false (_node_int_prop ops n prop unit).
Proof.
  intros Ht. unfold _node_int_prop, props.
  destruct (dict_get prop _) as [p|] eqn:Hp; [|apply number_ok].
  case_decide as Hty; [|apply number_ok]. apply Ht in Hp. unfold val_typed in Hp.
  destruct (pr_val p); try (rewrite Hty in Hp; naive_solver set_solver).
  apply number_scaled.
Qed.

Lemma number_array_prop n prop index unit :
  typed → number index unit false (_node_array_prop ops n prop index unit).
Proof.
  intros Ht. unfold _node_array_prop, props.
  destruct (dict_get prop _) as [p|] eqn:Hp; [|apply number_ok].
  case_decide as Hty; [|apply number_ok]. apply Ht in Hp. unfold val_typed in Hp.
  destruct (pr_val p); try (rewrite Hty in Hp; naive_solver set_solver). cbn [as_array obind].
  apply number_entry. intros [v|] _; [apply number_scaled|apply number_ok].
Qed.

Lemma number_ph_array_prop n prop index cell unit :
  typed → number index unit false (_node_ph_array_prop ops n prop index cell unit).
Proof.
  intros Ht. unfold _node_ph_array_prop, props.
  destruct (dict_get prop _) as [p|] eqn:Hp; [|apply number_ok].
  case_decide as Hty; [|apply number_ok]. apply Ht in Hp. unfold val_typed in Hp.
  destruct (pr_val p) as [| | | | |l|]; try (rewrite Hty in Hp; naive_solver set_solver).
  cbn [as_ph_array obind]. destruct Hp as [_ Hl].
  apply number_entry. intros [v|] Hv; [|apply number_ok].
  apply entry_at_In in Hv. rewrite Forall_forall in Hl. destruct (Hl _ Hv) as [data ->].
  destruct (dict_get cell data); [apply number_scaled|apply number_ok].
Qed.

Let no_edt : bool := bool_decide (the_edt = None).

Lemma number_with_edt index unit f :
  (∀ e, number index unit false (f e)) → number index unit no_edt (with_edt the_edt 0%Z f).
Proof.
  intros H. unfold no_edt, with_edt. destruct the_edt as [e|].
  - by rewrite bool_decide_false.
  - left. by eexists.
Qed.

Lemma number_labelled index unit label f :
  (∀ n, number index unit no_edt (f n)) →
  number index unit no_edt (match labelled the_edt label with Some n => f n | None => Ok 0%Z end).
Proof. intros H. destruct (labelled _ _); [done|]. left. by eexists. Qed.

Lemma number_text_of index unit zero v (is_hex : bool) :
  number index unit zero v →
  number_text (if is_hex then 16 else 10) index unit zero (let! z := v in Ok (int_text is_hex z)).
Proof.
  intros [(z & -> & Hz)|(Hz & e & -> & He)]; [left|right; split; [done|by exists e]].
  exists (int_text is_hex z), z. split; [done|]. split; [|done].
  destruct is_hex; [apply py_int_hex|apply py_int_str].
Qed.

Lemma number_text_str base index unit z : base = 10%Z → number_text base index unit false (Ok (py_str z)).
Proof. intros ->. left. exists (py_str z), z. by rewrite py_int_str. Qed.

Lemma number_text_zero base index unit zero : base = 10%Z ∨ base = 16%Z → number_text base index unit zero (Ok "0").
Proof. intros [-> | ->]; left; by exists "0", 0%Z. Qed.

Lemma number_text_with_edt base index unit f :
  base = 10%Z ∨ base = 16%Z → (∀ e, the_edt = Some e → number_text base index unit false (f e)) →
  number_text base index unit no_edt (with_edt the_edt "0" f).
Proof.
  intros Hb H. unfold with_edt, no_edt. destruct the_edt as [e|].
  - rewrite bool_decide_false by done. by apply H.
  - by apply number_text_zero.
Qed.

Lemma number_text_node base index unit path f :
  base = 10%Z ∨ base = 16%Z → (∀ n, number_text base index unit false (f n)) →
  number_text base index unit no_edt (with_node the_edt "0" path f).
Proof.
  intros Hb H. apply number_text_with_edt; [done|]. intros e _.
  destruct (e_get_node e path); [done|by apply number_text_zero].
Qed.
End FunctionRules.

Create HintDb dt_answer discriminated.
#[export] Hint Resolve answer_with_edt answer_yes_no answer_any_okay answer_with_node
  answer_bool_prop answer_has_prop answer_node_enabled answer_str_prop : dt_answer.
#[export] Hint Extern 1 (_ ∨ _) => (by left) || (by right) : dt_answer.

(** The sum of two register values, the second at the default index *)
Lemma number_sum index unit u v :
  number index unit false u → number None unit false v →
  number index unit false (let! a := u in let! b := v in Ok (a + b)%Z).
Proof.
  intros [(a & -> & _)|(_ & e & -> & He)] [(b & -> & _)|(_ & e' & -> & He')]; cbn [obind];
    [apply number_ok|..|by apply number_fails|by apply number_fails].
  apply number_fails. destruct He' as [Hi|i Hi Hneg|Hu]; [done| |by apply unit_not_known].
  cbn in Hi. injection Hi as <-. lia.
Qed.

Section Table.
Context {node : Type} (ops : dt_node_ops node) (the_edt : option (edt node)).
Variable shield_as_list : option string.

Let functions := functions ops the_edt shield_as_list.
Let call := call ops the_edt shield_as_list.

(** A property of the calls of every function of the table *)
Lemma call_cases (P : string → list string → outcome string → Prop) :
  Forall (λ row : string * (pyfun * nat * nat),
    let '(name, (f, least, greatest)) := row in
    ∀ args, least ≤ length args ≤ greatest → P name args (py_call f name args)) functions →
  ∀ name args o, call name args = Some o → P name args o.
Proof.
  intros H name args o. unfold call, Functions.call.
  destruct (dict_get name _) as [[[f least] greatest]|] eqn:Hf; [|done].
  apply dict_get_In in Hf. rewrite Forall_forall in H. specialize (H _ Hf). cbn in H.
  destruct (Nat.leb_spec least (length args)), (Nat.leb_spec (length args) greatest);
    cbn; intros [= <-]. apply H. lia.
Qed.

Lemma number_partition chosen index unit :
  number index unit (bool_decide (the_edt = None)) (_dt_chosen_partition_addr ops the_edt chosen index unit).
Proof.
  apply number_with_edt. intros e.
  destruct (e_chosen_node e chosen); [|apply number_ok]. destruct (dn_parent ops _); [|apply number_ok].
  apply number_sum; apply number_node_reg.
Qed.

Lemma number_chosen_reg field chosen index unit :
  number index unit (bool_decide (the_edt = None))
    (with_edt the_edt 0%Z (λ e, _node_reg ops field (e_chosen_node e chosen) index unit)).
Proof. apply number_with_edt. intros e. apply number_node_reg. Qed.

Lemma number_path_reg field path index unit :
  number index unit (bool_decide (the_edt = None))
    (with_edt the_edt 0%Z (λ e, match e_get_node e path with
                                | None => Ok 0%Z
                                | Some n => _node_reg ops field (Some n) index unit
                                end)).
Proof.
  apply number_with_edt. intros e. destruct (e_get_node e path); [apply number_node_reg|apply number_ok].
Qed.

Lemma number_label_reg field label index unit :
  number index unit (bool_decide (the_edt = None))
    (match labelled the_edt label with
     | Some n => with_edt the_edt 0%Z (λ e, match e_get_node e (dn_path ops n) with
                                            | None => Ok 0%Z
                                            | Some n => _node_reg ops field (Some n) index unit
                                            end)
     | None => Ok 0%Z
     end).
Proof. apply number_labelled. intros n. apply number_path_reg. Qed.

(** The number of enabled nodes; [compat2okay] is a defaultdict. *)
Lemma number_enabled_num index unit compat :
  (∀ e, the_edt = Some e → ∃ l, e_missing_okay e = Ok l) →
  number_text 10 index unit (bool_decide (the_edt = None)) (dt_compat_enabled_num the_edt compat).
Proof.
  intros Hl. apply number_text_with_edt; [by left|]. intros e He. destruct (Hl e He) as [l Hm].
  destruct (e_compat2okay e compat) as [l'|]; [|rewrite Hm]; by apply number_text_str.
Qed.

(** The property is missing on the node with the label. *)
Definition property_missing (label prop : string) : Prop :=
  ∃ n, labelled the_edt label = Some n ∧ dict_get prop (dn_props ops n) = None.

Lemma number_nodelabel_int_prop index unit label prop : typed ops →
  number_text 10 index unit (bool_decide (the_edt = None)) (dt_nodelabel_int_prop ops the_edt label prop) ∨
  dt_nodelabel_int_prop ops the_edt label prop = Raise KeyError ∧ property_missing label prop.
Proof.
  clear functions call. intros Ht. unfold dt_nodelabel_int_prop, with_edt, property_missing, labelled, props.
  destruct the_edt as [e|] eqn:He; [|left; apply number_text_zero; by left].
  rewrite bool_decide_false by done. destruct (e_label2node e label) as [n|]; [|left; apply number_text_zero; by left].
  destruct (dict_get prop (dn_props ops n)) as [p|] eqn:Hp; [left|right; split; [done|by exists n]].
  case_decide as Hty; [|apply number_text_zero; by left]. apply Ht in Hp. unfold val_typed in Hp.
  destruct (pr_val p); try (rewrite Hty in Hp; naive_solver set_solver).
  case_match; [by apply number_text_str|apply number_text_zero; by left].
Qed.

Lemma route_at name table v (h : bool) :
  dict_get name table = Some (v, h) → route name table = (let! z := v in Ok (int_text h z)).
Proof. unfold route. by intros ->. Qed.

Ltac table_rows := repeat (apply List.Forall_cons; [|]); [..|apply List.Forall_nil].
(** Evaluate the entry of a function among the numeric ones. *)
Ltac number_entry H :=
  match type of H with
  | dict_get ?n number_functions = _ =>
      let t := eval vm_compute in (dict_get n number_functions) in
      replace (dict_get n number_functions) with t in H by (vm_compute; reflexivity)
  end; try discriminate H.

Ltac known_name H := vm_compute in H; first [discriminate H | clear H].
Ltac some_args args :=
  destruct args as [|? [|? [|? [|? [|? [|]]]]]]; intros Hlen; cbn [length] in Hlen; try lia.

(** The answers of a predicate, and the error of the one that reads a number *)
Definition yes_no_result (name : string) (args : list string) (o : outcome string) : Prop :=
  o = Ok "n" ∨
  o = Ok "y" ∧ (if decide (name = "shields_list_contains") then shield_as_list ≠ None else the_edt ≠ None) ∨
  o = Raise ValueError ∧ the_edt ≠ None ∧ name = "dt_nodelabel_array_prop_has_val" ∧
    ∃ label prop val, args = [label; prop; val] ∧ py_int 0 val = None.

Lemma yes_no_answer name args o :
  name ≠ "shields_list_contains" → answer (bool_decide (is_Some the_edt)) o → yes_no_result name args o.
Proof using Type*.
  intros Hn [->|[Hb ->]]; [by left|right; left]. rewrite decide_False by done. split; [done|].
  by apply bool_decide_eq_true in Hb as [? ->].
Qed.

Lemma yes_no_has_val label prop val : typed ops →
  yes_no_result "dt_nodelabel_array_prop_has_val" [label; prop; val]
    (dt_nodelabel_array_prop_has_val ops the_edt label prop val).
Proof.
  clear functions call. intros Ht. unfold yes_no_result, dt_nodelabel_array_prop_has_val, with_edt, props.
  destruct the_edt as [e|] eqn:He; [|by left].
  destruct (e_label2node e label) as [n|]; [|by left]. destruct (dict_get prop _) as [p|] eqn:Hp; [|by left].
  case_decide as Hty; [|by left]. apply Ht in Hp. unfold val_typed in Hp.
  destruct (py_int 0 val) as [v|] eqn:Hv; cbn [of_option obind].
  - destruct (pr_val p); try (rewrite Hty in Hp; naive_solver set_solver). cbn [as_array obind].
    destruct (mem v l); [right; left|by left]. by rewrite decide_False.
  - right. right. split_and!; [done..|]. by exists label, prop, val.
Qed.

Lemma yes_no_shields shield :
  yes_no_result "shields_list_contains" [shield] (Ok (shields_list_contains shield_as_list shield)).
Proof using Type*.
  unfold yes_no_result, shields_list_contains. rewrite decide_True by done.
  destruct shield_as_list as [l|]; [|by left]. destruct (mem _ _); [right; left|left]; done.
Qed.

(** C35 Every predicate of kconfigfunctions.py, called with as many arguments as the
    table allows, answers n, or y when there is a devicetree ([shields_list_contains]
    looks at the environment instead), which is a valid constant in a Kconfig
    condition.  The only failure is the ValueError of
    [dt_nodelabel_array_prop_has_val] for a value that is not an integer literal. *)
Theorem functions_yes_no name args o :
  mem name yes_no_names = true → call name args = Some o →
  (name = "dt_nodelabel_array_prop_has_val" → typed ops) →
  o = Ok "n" ∨
  o = Ok "y" ∧ (if decide (name = "shields_list_contains") then shield_as_list ≠ None else the_edt ≠ None) ∨
  o = Raise ValueError ∧ the_edt ≠ None ∧ name = "dt_nodelabel_array_prop_has_val" ∧
    ∃ label prop val, args = [label; prop; val] ∧ py_int 0 val = None.
Proof.
  change (mem name yes_no_names = true → call name args = Some o →
    (name = "dt_nodelabel_array_prop_has_val" → typed ops) → yes_no_result name args o).
  intros Hn Hc Ht. revert name args o Hc Hn Ht.
  refine (call_cases (λ name args o, mem name yes_no_names = true →
    (name = "dt_nodelabel_array_prop_has_val" → typed ops) → yes_no_result name args o) _).
  table_rows; intros args Hlen Hk; known_name Hk; revert Hlen; some_args args; intros Ht;
    cbn [py_call fun0 fun1 fun1n fun2 fun3 fun2_1].
  all: first [ apply yes_no_shields | apply yes_no_has_val; by apply Ht
             | apply yes_no_answer; [done|]; solve [eauto 3 with dt_answer] ].
Qed.

(** The results of a numeric function *)
Definition number_result (name : string) (args : list string) (base : Z) (i u : nat) (o : outcome string) : Prop :=
  number_text base (args !! i) (args !! u) (bool_decide (the_edt = None)) o ∨
  o = Raise KeyError ∧ name = "dt_nodelabel_int_prop" ∧ ∃ label prop, args = [label; prop] ∧ property_missing label prop.

(** C36 The numeric functions of the devicetree, with property values of the shapes of
    their types: every [_int] function, [dt_nodelabel_int_prop] and
    [dt_compat_enabled_num] return a decimal and every [_hex] function a hexadecimal
    number that Kconfig accepts, 0 without a devicetree.  They fail only with a
    devicetree, with ValueError for an index that is not an integer, IndexError for a
    negative one, TypeError for an unknown unit, and [dt_nodelabel_int_prop] with
    KeyError for a property that its node does not have. *)
Theorem functions_numbers name args o base i u :
  typed ops → (name = "dt_compat_enabled_num" → ∀ e, the_edt = Some e → ∃ l, e_missing_okay e = Ok l) →
  dict_get name number_functions = Some (base, i, u) → call name args = Some o →
  (∃ s z, o = Ok s ∧ py_int base s = Some z ∧ (the_edt = None → z = 0%Z)) ∨
  the_edt ≠ None ∧ ∃ e, o = Raise e ∧
    (number_error (args !! i) (args !! u) e ∨
     e = KeyError ∧ name = "dt_nodelabel_int_prop" ∧ ∃ label prop, args = [label; prop] ∧ property_missing label prop).
Proof.
  intros Ht Hl Hn Hc. cut (number_result name args base i u o).
  { intros [[(s & z & ? & ? & Hz)|(Hz & e & -> & He)]|(-> & Hname & label & prop & Ha & n & Hlab & Hp)].
    - left. exists s, z. split_and!; [done..|]. intros. by apply Hz, bool_decide_eq_true.
    - right. split; [by apply bool_decide_eq_false in Hz|]. exists e. auto.
    - right. split; [by intros Hno; unfold labelled in Hlab; rewrite Hno in Hlab|]. exists KeyError.
      split; [done|]. right. split_and!; [done..|]. exists label, prop. split; [done|]. by exists n. }
  revert name args o Hc base i u Hl Hn.
  refine (call_cases (λ name args o, ∀ base i u,
    (name = "dt_compat_enabled_num" → ∀ e, the_edt = Some e → ∃ l, e_missing_okay e = Ok l) →
    dict_get name number_functions = Some (base, i, u) → number_result name args base i u o) _).
  table_rows; intros args Hlen base i u Hl Hk; number_entry Hk; injection Hk as <- <- <-;
    revert Hlen; some_args args; cbn -[number_text number_result].
  all: try solve [left; apply number_enabled_num; by apply Hl].
  all: try solve [destruct (number_nodelabel_int_prop None None s s0 Ht) as [?|[??]];
    [by left|right; split_and!; [done..|by eexists _, _]]].
  all: left; unfold dt_chosen_reg, dt_node_reg, dt_nodelabel_reg, dt_node_int_prop, dt_node_array_prop,
    dt_node_ph_array_prop, dt_chosen_partition_addr.
  all: try (apply number_text_node; [auto with lia|intros ?]).
  all: erewrite route_at by reflexivity; refine (number_text_of _ _ _ _ _ _).
  all: first [apply number_chosen_reg | apply number_path_reg | apply number_label_reg
    | apply number_partition | apply number_int_prop | apply number_array_prop
    | apply number_ph_array_prop]; assumption.
Qed.
End Table.

(** ** A small devicetree *)

(** A flash controller 0 with the partition table 1 and the partition 2. *)
Definition demo_ops : dt_node_ops nat :=
  DtNodeOps nat
    (λ n, default "" (["flash@8000"; "partitions"; "partition@100"] !! n))
    (λ n, default "" (["/flash@8000"; "/flash@8000/partitions";
                       "/flash@8000/partitions/partition@100"] !! n))
    (λ n, if decide (n = 1) then "disabled" else "okay")
    (λ n, if decide (n = 0) then ["soc-nv-flash"] else [])
    (λ n, if decide (n = 2) then ["slot0"] else [])
    (λ n, if decide (n = 2) then Some 1 else if decide (n = 1) then Some 0 else None)
    (λ _, None) (λ _, false)
    (λ n, if decide (n = 0) then [Register (Some 32768%Z) (Some 4194304%Z)]
          else if decide (n = 2) then [Register (Some 256%Z) None] else [])
    (λ n, if decide (n = 0) then
            [("erase-block-size", DtProp "int" (VInt 4096)); ("sizes", DtProp "array" (VArray [1; 2]%Z));
             ("read-only", DtProp "boolean" (VBool true))]
          else [])
    (λ _, "").

Definition demo_edt : edt nat :=
  let node_at path := if decide (path = "/flash@8000") then Some 0 else None in
  Edt nat (λ c, if decide (c = "zephyr,code-partition") then Some 2 else None) node_at
    (λ l, if decide (l = "slot0") then Some 2 else if decide (l = "flash0") then Some 0 else None)
    (λ c, bool_decide (c = "soc-nv-flash"))
    (λ c, if decide (c = "soc-nv-flash") then Some [0] else None) (Ok []) [0; 1; 2].

Definition demo_call : string → list string → option (outcome string) :=
  call demo_ops (Some demo_edt) (Some "shield_a;shield_b").

Lemma demo_typed : typed demo_ops.
Proof.
  intros n k p. cbn [demo_ops dn_props]. case_decide; [|done].
  intros Hp%dict_get_In. repeat (apply elem_of_cons in Hp as [Hp|Hp]; [by simplify_eq|]).
  by apply not_elem_of_nil in Hp.
Qed.

Example demo_calls :
  demo_call "dt_chosen_partition_addr_hex" ["zephyr,code-partition"] = Some (Ok "0x8100")
  ∧ demo_call "dt_nodelabel_reg_size_int" ["flash0"; "0"; "k"] = Some (Ok "4096")
  ∧ demo_call "dt_node_array_prop_int" ["/flash@8000"; "sizes"; "-1"] = Some (Ok "2")
  ∧ demo_call "dt_node_array_prop_int" ["/flash@8000"; "sizes"; "-3"] = Some (Raise IndexError)
  ∧ demo_call "dt_chosen_reg_addr_int" ["zephyr,code-partition"; "0"; "kB"] = Some (Raise TypeError)
  ∧ demo_call "dt_nodelabel_int_prop" ["flash0"; "missing"] = Some (Raise KeyError)
  ∧ demo_call "dt_node_enabled" ["x"] = None
  ∧ demo_call "shields_list_contains" ["shield_b"] = Some (Ok "y")
  ∧ demo_call "normalize_upper" ["nordic,nrf-5a"] = Some (Ok "NORDIC_NRF_5A")
  ∧ demo_call "substring" ["abcdef"; "1"; "-1"] = Some (Ok "bcde").
Proof. repeat split; vm_compute; reflexivity. Qed.

(** Without a devicetree *)
Example no_devicetree :
  call demo_ops None None "dt_chosen_path" ["zephyr,flash"] = Some (Ok "n")
  ∧ call demo_ops None None "dt_nodelabel_path" ["flash0"] = Some (Ok "")
  ∧ call demo_ops None None "dt_node_int_prop_hex" ["/flash@8000"; "erase-block-size"] = Some (Ok "0").
Proof. repeat split; vm_compute; reflexivity. Qed.

(** The functions in a Kconfig file, through the preprocessor and the parser. *)
Definition dt_world : world :=
  let w := one_file (kconfig_text
    ["config FLASH"; "	def_bool $(dt_compat_enabled,soc-nv-flash)"; "";
     "config FLASH_SIZE"; "	int"; "	default $(dt_nodelabel_reg_size_int,flash0,0,k)"; "";
     "config LOAD_OFFSET"; "	hex"; "	default $(dt_chosen_reg_addr_hex,zephyr$(comma)code-partition)"; "";
     "comma := ,"; "";
     "config LOAD_END"; "	hex"; "	default $(add_hex,$(dt_chosen_partition_addr_hex,zephyr$(comma)code-partition),0x1000)"; ""]) in
  World (w_env w) (w_file w) (w_errno w) (w_glob w) (w_shell w) (w_realpath w) (w_uname_release w)
    (w_functions_of demo_ops (Some demo_edt) None) (w_write w) (w_replace w).

Definition dt_kconfig : kconfig := Eval vm_compute in loaded (load dt_world 400 "Kconfig" true false).

Example dt_kconfig_values :
  answers (do_ops dt_kconfig 60
    (map (λ n, Read (QStr (sym_named dt_kconfig n))) ["FLASH"; "FLASH_SIZE"; "LOAD_OFFSET"; "LOAD_END"])
    (initial_session dt_kconfig quiet))
  = Some [AVal (VStr "y"); AVal (VStr "4096"); AVal (VStr "0x0"); AVal (VStr "0x9100")].
Proof. vm_compute. reflexivity. Qed.

Lemma functions_yes_no_witness :
  let o := Raise ValueError in
  demo_call "dt_nodelabel_array_prop_has_val" ["flash0"; "sizes"; "two"] = Some o ∧
  (o = Ok "n" ∨
   o = Ok "y" ∧ (if decide ("dt_nodelabel_array_prop_has_val" = "shields_list_contains")
                 then Some "shield_a;shield_b" ≠ None else Some demo_edt ≠ None) ∨
   o = Raise ValueError ∧ Some demo_edt ≠ None ∧
     "dt_nodelabel_array_prop_has_val" = "dt_nodelabel_array_prop_has_val" ∧
     ∃ label prop val, ["flash0"; "sizes"; "two"] = [label; prop; val] ∧ py_int 0 val = None).
Proof.
  intros o. assert (H : demo_call "dt_nodelabel_array_prop_has_val" ["flash0"; "sizes"; "two"] = Some o)
    by (vm_compute; reflexivity).
  split; [exact H|]. refine (functions_yes_no _ _ _ _ _ _ _ H _); [vm_compute; reflexivity|].
  intros _. exact demo_typed.
Defined.

Lemma functions_numbers_witness :
  (∃ s z, Ok "0x4" = Ok s ∧ py_int 16 s = Some z ∧ (Some demo_edt = None → z = 0%Z)) ∨
  Some demo_edt ≠ None ∧ ∃ e, Ok "0x4" = Raise e ∧
    (number_error (["/flash@8000"; "erase-block-size"; "k"] !! 5) (["/flash@8000"; "erase-block-size"; "k"] !! 2) e ∨
     e = KeyError ∧ "dt_node_int_prop_hex" = "dt_nodelabel_int_prop" ∧
     ∃ label prop, ["/flash@8000"; "erase-block-size"; "k"] = [label; prop] ∧
       property_missing demo_ops (Some demo_edt) label prop).
Proof.
  refine (functions_numbers demo_ops (Some demo_edt) None "dt_node_int_prop_hex"
    ["/flash@8000"; "erase-block-size"; "k"] (Ok "0x4") 16 5 2 demo_typed _ _ _).
  - intros H. discriminate H.
  - vm_compute; reflexivity.
  - vm_compute; reflexivity.
Defined.
