(* ===== verification/ExprText.v ===== *)
(** * The text of an expression is read back

    [expr_str] prints an expression, [_tokenize] and [_parse_expr] read it.  The
    parser associates to the right, and the printer leaves out the parentheses of
    nested conjunctions and disjunctions: what is read is the printed expression
    with its conjunctions and disjunctions regrouped ([regroup]). *)

From S2P Require Import Prelude PyStr PyText Escape Kconst Expr Incr Objects ParseState Preproc Lexer.
From stdpp Require Import options.

(** ** Regrouping *)

(** Attach an operand at the right end of a conjunction. *)
Fixpoint glue_and (a b : expr) : expr :=
  match a with EAnd x y => EAnd x (glue_and y b) | _ => EAnd a b end.
Fixpoint glue_or (a b : expr) : expr :=
  match a with EOr x y => EOr x (glue_or y b) | _ => EOr a b end.

(** The expression with conjunctions and disjunctions grouped to the right. *)
Fixpoint regroup (e : expr) : expr :=
  match e with
  | EAnd a b => glue_and (regroup a) (regroup b)
  | EOr a b => glue_or (regroup a) (regroup b)
  | ENot e => ENot (regroup e)
  | e => e
  end.

Lemma glue_and_assoc a b c : glue_and (glue_and a b) c = glue_and a (glue_and b c).
Proof. induction a; cbn; congruence. Qed.
Lemma glue_or_assoc a b c : glue_or (glue_or a b) c = glue_or a (glue_or b c).
Proof. induction a; cbn; congruence. Qed.

Section Value.
Variables (τ : item → Z) (ρ : rel → nat → nat → bool).

Lemma glue_and_value a b : value τ ρ (glue_and a b) = Z.min (value τ ρ a) (value τ ρ b).
Proof. induction a; cbn; try done. rewrite IHa2. lia. Qed.
Lemma glue_or_value a b : value τ ρ (glue_or a b) = Z.max (value τ ρ a) (value τ ρ b).
Proof. induction a; cbn; try done. rewrite IHa2. lia. Qed.

(** Regrouping keeps the value. *)
Lemma regroup_value e : value τ ρ (regroup e) = value τ ρ e.
Proof.
  induction e; cbn; rewrite ?glue_and_value, ?glue_or_value; congruence.
Qed.
End Value.

(** What the parser builds: the left operand of an operator is no operation of the
    same kind. *)
Fixpoint parser_shaped (e : expr) : bool :=
  match e with
  | EAnd a b => negb (is_op a OpAnd) && parser_shaped a && parser_shaped b
  | EOr a b => negb (is_op a OpOr) && parser_shaped a && parser_shaped b
  | ENot e => parser_shaped e
  | _ => true
  end.

Lemma regroup_shaped e : parser_shaped e = true → regroup e = e.
Proof.
  induction e as [i|a IHa b IHb|a IHa b IHb|e IH|r s1 s2]; cbn; try done.
  - rewrite !andb_true_iff, negb_true_iff. intros [[Ha ?] ?]. rewrite IHa, IHb by done.
    by destruct a.
  - rewrite !andb_true_iff, negb_true_iff. intros [[Ha ?] ?]. rewrite IHa, IHb by done.
    by destruct a.
  - intros. by rewrite IH.
Qed.

(** ** The tokens of the text *)

Definition item_token (i : item) : token :=
  match i with ISym s => TSymbol s | ICho _ => TNone end.

Definition parens (l : list token) : list token :=
  TKw T_OPEN_PAREN :: l ++ [TKw T_CLOSE_PAREN].

Fixpoint toks (e : expr) : list token :=
  let operand (e : expr) (op : bop) := if is_op e op then parens (toks e) else toks e in
  match e with
  | EItem i => [item_token i]
  | EAnd a b => operand a OpOr ++ TKw T_AND :: operand b OpOr
  | EOr a b => operand a OpAnd ++ TKw T_OR :: operand b OpAnd
  | ENot (EItem i) => [TKw T_NOT; item_token i]
  | ENot e => TKw T_NOT :: parens (toks e)
  | ERel r s1 s2 => [TSymbol s1; TKw (token_of_rel r); TSymbol s2]
  end.

(** Only symbols occur. *)
Fixpoint symbols_only (e : expr) : bool :=
  match e with
  | EItem (ISym _) | ERel _ _ _ => true
  | EItem (ICho _) => false
  | EAnd a b | EOr a b => symbols_only a && symbols_only b
  | ENot e => symbols_only e
  end.

(** ** Parsing the tokens *)

Definition at_tokens (p : pstate) (l : list token) : Prop := drop (p_tokens_i p) (p_tokens p) = l.
Definition adv (k : nat) (p : pstate) : pstate := set_p_tokens_i (p_tokens_i p + k) p.

Lemma at_adv p k l : at_tokens p l → at_tokens (adv k p) (drop k l).
Proof. unfold at_tokens. intros <-. rewrite drop_drop. done. Qed.

Lemma at_next p t l : at_tokens p (t :: l) → at_tokens (adv 1 p) l.
Proof. apply at_adv. Qed.

Lemma at_app p l r : at_tokens p (l ++ r) → at_tokens (adv (length l) p) r.
Proof. intros H%(at_adv _ (length l)). by rewrite drop_app_length in H. Qed.

Lemma adv_adv p j k : adv k (adv j p) = adv (j + k) p.
Proof. unfold adv. cbn. by rewrite Nat.add_assoc. Qed.

Lemma adv_0 p : adv 0 p = p.
Proof. unfold adv. rewrite Nat.add_0_r. by destruct p. Qed.

Lemma peek_at p t l : at_tokens p (t :: l) → peek p = Ok (t, p).
Proof.
  unfold at_tokens, peek, token_at. intros H.
  assert (Hn : ∀ (ts : list token) i, drop i ts = t :: l → nth_error ts i = Some t).
  { induction ts as [|u ts IH]; intros [|i]; cbn; [done..|congruence|apply IH]. }
  by rewrite (Hn _ _ H).
Qed.

Lemma advance_adv p : advance p = Ok ((), adv 1 p).
Proof. unfold advance, modify, adv. by rewrite Nat.add_1_r. Qed.

Lemma next_at p t l : at_tokens p (t :: l) → next_token p = Ok (t, adv 1 p).
Proof.
  intros H. unfold next_token, mbind, M_bind. rewrite (peek_at _ _ _ H). cbn [obind].
  by rewrite advance_adv.
Qed.

Lemma check_token_at p t l k :
  at_tokens p (t :: l) →
  check_token k p = if decide (t = TKw k) then Ok (true, adv 1 p) else Ok (false, p).
Proof.
  intros H. unfold check_token, mbind, M_bind. rewrite (peek_at _ _ _ H). cbn [obind].
  case_decide; [|done]. by rewrite advance_adv.
Qed.

Lemma expect_sym_at p s l : at_tokens p (TSymbol s :: l) → expect_sym p = Ok (s, adv 1 p).
Proof.
  intros H. unfold expect_sym, mbind, M_bind. by rewrite (next_at _ _ _ H).
Qed.

(** [f] with enough fuel reads [l] and returns [e], whatever follows. *)
Definition reads_as (f : nat → bool → M expr) (fuel : nat) (l rest : list token) (e : expr) : Prop :=
  ∀ n p, fuel ≤ n → at_tokens p (l ++ rest) → f n false p = Ok (e, adv (length l) p).

(** The first token is none of these. *)
Definition head_not (P : kw → Prop) (l : list token) : Prop :=
  ∃ t r, l = t :: r ∧ ∀ k, t = TKw k → ¬ P k.

Definition is_rel (k : kw) : Prop := is_Some (rel_of_token k).

Lemma head_not_weaken (P Q : kw → Prop) l : head_not P l → (∀ k, Q k → P k) → head_not Q l.
Proof. intros (t & r & -> & H) HQ. exists t, r. split; [done|]. intros k ? ?%HQ. by eapply H. Qed.

Lemma head_not_kw (P : kw → Prop) k l : ¬ P k → head_not P (TKw k :: l).
Proof. intros H. exists (TKw k), l. split; [done|]. by intros ? [= <-]. Qed.

Lemma plain_symbol_at s p : plain_symbol s false p = Ok (ESym s, p).
Proof. done. Qed.

(** *** Factors *)

Lemma factor_symbol s rest :
  head_not is_rel rest → reads_as parse_factor 1 [TSymbol s] rest (ESym s).
Proof.
  intros (t & r & -> & Ht) [|n] p Hn Hp; [lia|]. cbn [parse_factor app] in *.
  unfold mbind, M_bind. rewrite (next_at _ _ _ Hp). cbn [obind].
  apply at_next in Hp as Hp1. rewrite (peek_at _ _ _ Hp1). cbn [obind].
  destruct t as [k|s2| |]; try done. destruct (rel_of_token k) eqn:Hk; [|done].
  destruct (Ht k); [done|]. by eexists.
Qed.

Lemma factor_rel r s1 s2 rest :
  reads_as parse_factor 1 [TSymbol s1; TKw (token_of_rel r); TSymbol s2] rest (ERel r s1 s2).
Proof.
  intros [|n] p Hn Hp; [lia|]. cbn [parse_factor app] in *.
  unfold mbind, M_bind. rewrite (next_at _ _ _ Hp). cbn [obind].
  apply at_next in Hp as Hp1. rewrite (peek_at _ _ _ Hp1). cbn [obind].
  rewrite rel_of_token_of_rel, advance_adv. cbn [obind].
  apply at_next in Hp1 as Hp2. rewrite (expect_sym_at _ _ _ Hp2). cbn [obind].
  by rewrite !adv_adv.
Qed.

Lemma factor_not l rest fuel e :
  reads_as parse_factor fuel l rest e →
  reads_as parse_factor (S fuel) (TKw T_NOT :: l) rest (ENot e).
Proof.
  intros Hl [|n] p Hn Hp; [lia|]. cbn [parse_factor app] in *.
  unfold mbind, M_bind. rewrite (next_at _ _ _ Hp). cbn [obind].
  apply at_next in Hp as Hp1. rewrite (Hl n _ ltac:(lia) Hp1). cbn [obind].
  by rewrite adv_adv.
Qed.

Lemma factor_parens l rest fuel e :
  reads_as parse_expr fuel l (TKw T_CLOSE_PAREN :: rest) e →
  reads_as parse_factor (S fuel) (parens l) rest e.
Proof.
  intros Hl [|n] p Hn Hp; [lia|]. cbn [parse_factor]. unfold parens in Hp.
  rewrite <- app_comm_cons, <- app_assoc in Hp. cbn [app] in Hp.
  unfold mbind, M_bind. rewrite (next_at _ _ _ Hp). cbn [obind].
  apply at_next in Hp as Hp1.
  rewrite (Hl n _ ltac:(lia) Hp1). cbn [obind]. rewrite adv_adv.
  apply at_app in Hp1. rewrite adv_adv in Hp1.
  rewrite (check_token_at _ _ _ _ Hp1). rewrite decide_True by done. cbn [obind].
  rewrite adv_adv. unfold parens. cbn [length]. rewrite length_app. cbn [length].
  by rewrite <- Nat.add_assoc.
Qed.

(** *** Conjunctions and disjunctions: an operand at the end or before an operator *)

(** [f] reads [l] and combines what it read with what it reads after [op]. *)
Definition reads_before (f : nat → bool → M expr) (op : kw) (glue : expr → expr → expr)
    (fuel : nat) (l : list token) (e : expr) : Prop :=
  ∀ m l2 rest e2, reads_as f m l2 rest e2 →
    reads_as f (fuel + m) (l ++ TKw op :: l2) rest (glue e e2).

Lemma and_last fuel l rest e :
  head_not (λ k, k = T_AND) rest → reads_as parse_factor fuel l rest e →
  reads_as parse_and_expr (S fuel) l rest e.
Proof.
  intros (t & r & -> & Ht) Hl [|n] p Hn Hp; [lia|]. cbn [parse_and_expr].
  unfold mbind, M_bind. rewrite (Hl n _ ltac:(lia) Hp). cbn [obind].
  apply at_app in Hp.
  rewrite (check_token_at _ _ _ _ Hp), decide_False by (intros ->; by eapply Ht). done.
Qed.

Lemma or_last fuel l rest e :
  head_not (λ k, k = T_OR) rest → reads_as parse_and_expr fuel l rest e →
  reads_as parse_expr (S fuel) l rest e.
Proof.
  intros (t & r & -> & Ht) Hl [|n] p Hn Hp; [lia|]. cbn [parse_expr].
  unfold mbind, M_bind. rewrite (Hl n _ ltac:(lia) Hp). cbn [obind].
  apply at_app in Hp.
  rewrite (check_token_at _ _ _ _ Hp), decide_False by (intros ->; by eapply Ht). done.
Qed.

Lemma and_before fuel l e :
  is_op e OpAnd = false →
  (∀ rest, head_not is_rel rest → reads_as parse_factor fuel l rest e) →
  reads_before parse_and_expr T_AND glue_and (S fuel) l e.
Proof.
  intros He Hl m l2 rest e2 H2 [|n] p Hn Hp; [lia|]. cbn [parse_and_expr].
  rewrite <- app_assoc in Hp. cbn [app] in Hp.
  unfold mbind, M_bind. rewrite (Hl (TKw T_AND :: l2 ++ rest) ltac:(apply head_not_kw; by intros [? ?]) n _ ltac:(lia) Hp).
  cbn [obind]. apply at_app in Hp.
  rewrite (check_token_at _ _ _ _ Hp), decide_True by done. cbn [obind].
  apply at_next in Hp. rewrite adv_adv in Hp |- *.
  rewrite (H2 n _ ltac:(lia) Hp). cbn [obind]. rewrite adv_adv, length_app. cbn [length].
  replace (length l + 1 + length l2) with (length l + S (length l2)) by lia.
  by destruct e.
Qed.

Lemma or_before fuel l e :
  is_op e OpOr = false →
  (∀ rest, head_not (λ k, is_rel k ∨ k = T_AND) rest → reads_as parse_and_expr fuel l rest e) →
  reads_before parse_expr T_OR glue_or (S fuel) l e.
Proof.
  intros He Hl m l2 rest e2 H2 [|n] p Hn Hp; [lia|]. cbn [parse_expr].
  rewrite <- app_assoc in Hp. cbn [app] in Hp.
  unfold mbind, M_bind. rewrite (Hl (TKw T_OR :: l2 ++ rest) ltac:(apply head_not_kw; by intros [[? ?]|?]) n _ ltac:(lia) Hp).
  cbn [obind]. apply at_app in Hp.
  rewrite (check_token_at _ _ _ _ Hp), decide_True by done. cbn [obind].
  apply at_next in Hp. rewrite adv_adv in Hp |- *.
  rewrite (H2 n _ ltac:(lia) Hp). cbn [obind]. rewrite adv_adv, length_app. cbn [length].
  replace (length l + 1 + length l2) with (length l + S (length l2)) by lia.
  by destruct e.
Qed.

(** *** Expressions *)

Lemma reads_as_mono f fuel fuel' l rest e :
  fuel ≤ fuel' → reads_as f fuel l rest e → reads_as f fuel' l rest e.
Proof. intros Hle H n p Hn. apply H. lia. Qed.

Lemma is_op_regroup e op : is_op (regroup e) op = is_op e op.
Proof.
  destruct e as [i|a b|a b|e|r s1 s2]; cbn; try done;
    [destruct (regroup a)|destruct (regroup a)]; by destruct op.
Qed.

Definition after_and (k : kw) : Prop := is_rel k ∨ k = T_AND.
Definition after_expr (k : kw) : Prop := after_and k ∨ k = T_OR.

(** What holds of the tokens of a factor, an operand of [&&], an operand of [||],
    and of any expression. *)
Definition factor_ok (l : list token) (e : expr) : Prop :=
  ∀ rest, head_not is_rel rest → reads_as parse_factor (3 * length l) l rest e.
Record and_ok (l : list token) (e : expr) : Prop := {
  and_end rest : head_not after_and rest → reads_as parse_and_expr (3 * length l + 1) l rest e;
  and_mid : reads_before parse_and_expr T_AND glue_and (3 * length l + 2) l e
}.
Record or_ok (l : list token) (e : expr) : Prop := {
  or_end rest : head_not after_expr rest → reads_as parse_expr (3 * length l + 2) l rest e;
  or_mid : reads_before parse_expr T_OR glue_or (3 * length l + 3) l e
}.

(** The tokens of an operand of [||] at its end *)
Definition and_end_ok (l : list token) (e : expr) : Prop :=
  ∀ rest, head_not after_and rest → reads_as parse_and_expr (3 * length l + 1) l rest e.

Lemma factor_and_end l e : factor_ok l e → and_end_ok l e.
Proof.
  intros Hl rest Hr. eapply reads_as_mono; [|apply and_last; [|apply Hl]]; [lia|..];
    apply (head_not_weaken _ _ _ Hr); unfold after_and; auto.
Qed.

Lemma factor_and l e : is_op e OpAnd = false → factor_ok l e → and_ok l e.
Proof.
  intros He Hl. split; [by apply factor_and_end|].
  intros m l2 rest e2 H2. eapply reads_as_mono; [|by apply (and_before _ _ _ He Hl _ _ _ _ H2)]. lia.
Qed.

Lemma and_expr_end l e rest :
  and_end_ok l e → head_not after_expr rest → reads_as parse_expr (3 * length l + 2) l rest e.
Proof.
  intros He Hr. eapply reads_as_mono; [|apply or_last; [|apply He]]; [lia|..];
    apply (head_not_weaken _ _ _ Hr); unfold after_expr; auto.
Qed.

Lemma and_or l e : is_op e OpOr = false → and_end_ok l e → or_ok l e.
Proof.
  intros Ho Hl. split; [intros rest; by apply and_expr_end|].
  intros m l2 rest e2 H2. eapply reads_as_mono;
    [|apply (or_before (3 * length l + 1) _ _ Ho Hl _ _ _ _ H2)]. lia.
Qed.

Lemma parens_factor l e :
  (∀ rest, head_not after_expr rest → reads_as parse_expr (3 * length l + 2) l rest e) →
  factor_ok (parens l) e.
Proof.
  intros Hl rest _. eapply reads_as_mono; [|apply factor_parens, Hl, head_not_kw].
  - unfold parens. cbn [length]. rewrite length_app. cbn [length]. lia.
  - intros [[[? ?]|?]|?]; done.
Qed.

Lemma and_join l1 e1 l2 e2 :
  and_ok l1 e1 → and_ok l2 e2 → and_ok (l1 ++ TKw T_AND :: l2) (glue_and e1 e2).
Proof.
  intros [H1 B1] [H2 B2]. split.
  - intros rest Hr. eapply reads_as_mono; [|apply (B1 _ _ _ _ (H2 rest Hr))].
    rewrite length_app. cbn [length]. lia.
  - intros m l rest e H. rewrite <- app_assoc, <- app_comm_cons, glue_and_assoc.
    eapply reads_as_mono; [|apply (B1 _ _ _ _ (B2 _ _ _ _ H))].
    rewrite length_app. cbn [length]. lia.
Qed.

Lemma or_join l1 e1 l2 e2 :
  or_ok l1 e1 → or_ok l2 e2 → or_ok (l1 ++ TKw T_OR :: l2) (glue_or e1 e2).
Proof.
  intros [H1 B1] [H2 B2]. split.
  - intros rest Hr. eapply reads_as_mono; [|apply (B1 _ _ _ _ (H2 rest Hr))].
    rewrite length_app. cbn [length]. lia.
  - intros m l rest e H. rewrite <- app_assoc, <- app_comm_cons, glue_or_assoc.
    eapply reads_as_mono; [|apply (B1 _ _ _ _ (B2 _ _ _ _ H))].
    rewrite length_app. cbn [length]. lia.
Qed.

(** What the induction shows of an expression: the strongest that its form allows. *)
Definition toks_ok (e : expr) : Prop :=
  let l := toks e in let e' := regroup e in
  if is_op e OpOr then or_ok l e' else if is_op e OpAnd then and_ok l e' else factor_ok l e'.

Lemma toks_ok_end e rest :
  toks_ok e → head_not after_expr rest →
  reads_as parse_expr (3 * length (toks e) + 2) (toks e) rest (regroup e).
Proof.
  unfold toks_ok. destruct (is_op e OpOr) eqn:Ho; [intros H; apply H|].
  destruct (is_op e OpAnd) eqn:Ha; intros H; apply and_expr_end; [exact (and_end _ _ H)|by apply factor_and_end].
Qed.

Lemma toks_ok_parens e : toks_ok e → factor_ok (parens (toks e)) (regroup e).
Proof. intros H. apply parens_factor. intros. by apply toks_ok_end. Qed.

Lemma operand_and e :
  toks_ok e → and_ok (if is_op e OpOr then parens (toks e) else toks e) (regroup e).
Proof.
  intros H. destruct (is_op e OpOr) eqn:Ho.
  - apply factor_and; [rewrite is_op_regroup; by destruct e|by apply toks_ok_parens].
  - unfold toks_ok in H. rewrite Ho in H. destruct (is_op e OpAnd) eqn:Ha; [done|].
    apply factor_and; [by rewrite is_op_regroup|done].
Qed.

Lemma operand_or e :
  toks_ok e → or_ok (if is_op e OpAnd then parens (toks e) else toks e) (regroup e).
Proof.
  intros H. destruct (is_op e OpAnd) eqn:Ha.
  - apply and_or; [rewrite is_op_regroup; by destruct e|]. by apply factor_and_end, toks_ok_parens.
  - unfold toks_ok in H. rewrite Ha in H. destruct (is_op e OpOr) eqn:Ho; [done|].
    apply and_or; [by rewrite is_op_regroup|by apply factor_and_end].
Qed.

Lemma factor_ok_weaken fuel l e :
  fuel ≤ 3 * length l → (∀ rest, head_not is_rel rest → reads_as parse_factor fuel l rest e) →
  factor_ok l e.
Proof. intros Hle H rest Hr. eapply reads_as_mono, H; done. Qed.

Lemma factor_not_ok l e : factor_ok l e → factor_ok (TKw T_NOT :: l) (ENot e).
Proof.
  intros H. eapply factor_ok_weaken; [|intros rest Hr; apply factor_not, H, Hr]. cbn [length]. lia.
Qed.

Lemma toks_not e :
  toks (ENot e) = TKw T_NOT :: match e with EItem _ => toks e | _ => parens (toks e) end.
Proof. by destruct e. Qed.

(** The tokens of an expression are parsed to the regrouped expression. *)
Lemma toks_parsed e : symbols_only e = true → toks_ok e.
Proof.
  induction e as [i|a IHa b IHb|a IHa b IHb|e IH|r s1 s2]; cbn [symbols_only].
  - destruct i as [s|]; [|done]. intros _.
    refine (factor_ok_weaken 1 _ _ _ (factor_symbol s)). cbn. lia.
  - rewrite andb_true_iff. intros [??]. apply and_join; apply operand_and; auto.
  - rewrite andb_true_iff. intros [??]. apply or_join; apply operand_or; auto.
  - intros Hs. specialize (IH Hs). pose proof (toks_ok_parens _ IH) as Hp.
    change (factor_ok (toks (ENot e)) (ENot (regroup e))). rewrite toks_not. apply factor_not_ok.
    by destruct e.
  - intros _. refine (factor_ok_weaken 1 _ _ _ (λ rest _, factor_rel r s1 s2 rest)). cbn. lia.
Qed.
