(* ===== verification/LexText.v ===== *)
(** * The text of an expression is tokenised back

    [_tokenize] on the text that [expr_str] prints, character by character: names,
    quoted strings with escapes, operators and the spaces around them. *)

From S2P Require Import Prelude PyStr PyText Escape Kconst Expr Incr Objects ParseState Preproc Lexer.
From S2P Require Import ExprText.
From stdpp Require Import options.

(** ** Positions in a string [pre +:+ t] *)

Lemma s_from_pre pre t : s_from (slen pre) (pre +:+ t) = t.
Proof. apply sdrop_app. Qed.

Lemma s_upto_pre pre t : s_upto (slen pre) (pre +:+ t) = pre.
Proof. apply stake_app. Qed.

Lemma s_from_add pre k t : s_from (slen pre + k) (pre +:+ t) = sdrop k t.
Proof. unfold s_from. by rewrite <- sdrop_sdrop, sdrop_app. Qed.

Lemma s_slice_pre pre a t : s_slice (slen pre) (slen pre + slen a) (pre +:+ a +:+ t) = a.
Proof. unfold s_slice. rewrite sdrop_app. replace (_ + _ - _) with (slen a) by lia. apply stake_app. Qed.

Lemma s_at_pre pre c t : s_at (slen pre) (pre +:+ String c t) = Some c.
Proof. unfold s_at. by rewrite sdrop_app. Qed.

Lemma slen_snoc pre c : slen (pre +:+ one c) = S (slen pre).
Proof. rewrite slen_app. cbn. lia. Qed.

Lemma pre_snoc pre c t : pre +:+ String c t = (pre +:+ one c) +:+ t.
Proof. by rewrite app_assoc_s, app_one. Qed.

(** The first character of a string is not in a class. *)
Definition starts_not (P : ascii → bool) (s : string) : Prop :=
  match s with String c _ => P c = false | EmptyString => True end.

Lemma span_len_app P a b :
  s_all P a = true → span_len P (a +:+ b) = slen a + span_len P b.
Proof.
  induction a as [|c a IH]; [done|]. cbn [s_all]. rewrite andb_true_iff. intros [Hc Ha].
  rewrite app_cons, slen_cons. cbn [span_len]. by rewrite Hc, IH.
Qed.

Lemma span_len_0 P s : starts_not P s → span_len P s = 0.
Proof. destruct s; cbn; [done|]. by intros ->. Qed.

Lemma span_len_stop P a b :
  s_all P a = true → starts_not P b → span_len P (a +:+ b) = slen a.
Proof. intros Ha Hb. rewrite span_len_app, span_len_0 by done. lia. Qed.

Lemma span_split P s : ∃ a, s = a +:+ lstrip_by P s ∧ slen a = span_len P s ∧ s_all P a = true.
Proof.
  induction s as [|c s (a & Hs & Hl & Ha)]; [by exists ""|]. cbn [lstrip_by span_len].
  destruct (P c) eqn:Hc; [|by exists ""]. exists (String c a).
  split; [by rewrite app_cons, <- Hs|]. split; [by rewrite slen_cons, Hl|]. cbn. by rewrite Hc.
Qed.

Lemma lstrip_by_id P s : starts_not P s → lstrip_by P s = s.
Proof. destruct s; cbn; [done|]. by intros ->. Qed.

Lemma lstrip_by_idem P s : lstrip_by P (lstrip_by P s) = lstrip_by P s.
Proof. induction s as [|c s IH]; [done|]. cbn. destruct (P c) eqn:Hc; [done|]. cbn. by rewrite Hc. Qed.

(** ** Text without dollar signs is not expanded *)

Definition plain (s : string) : Prop := has_char "$" s = false.

Lemma plain_cons c s : plain (String c s) ↔ c_eqb "$" c = false ∧ plain s.
Proof. unfold plain, has_char. cbn [s_any]. by rewrite orb_false_iff. Qed.

Lemma s_replace_plain p r s : plain s → s_replace (String "$" p) r s = s.
Proof.
  unfold s_replace. induction s as [|c s IH]; [done|]. rewrite plain_cons. intros [Hc Hs].
  cbn [replace_aux startswith]. rewrite Hc. cbn [andb]. by rewrite IH.
Qed.

Lemma expandvars_plain env s : plain s → expandvars env s = s.
Proof.
  unfold expandvars. induction s as [|c s IH]; [done|]. rewrite plain_cons. intros [Hc Hs].
  assert (Hr : var_reference (String c s) = None).
  { unfold var_reference. unfold c_eqb in *. rewrite Ascii.eqb_sym, Hc. done. }
  cbn [expandvars_aux]. by rewrite Hr, IH.
Qed.

(** ** Quoted strings *)

Lemma find_from_char c i a b :
  s_all (λ d, negb (c_eqb c d)) a = true →
  find_from (startswith (one c)) i (a +:+ String c b) = Some (i + slen a).
Proof.
  revert i. induction a as [|d a IH]; intros i.
  - intros _. rewrite app_empty_l. cbn [find_from startswith one]. rewrite c_eqb_refl. cbn. f_equal. lia.
  - cbn [s_all]. rewrite andb_true_iff, negb_true_iff. intros [Hd Ha].
    rewrite app_cons, slen_cons. cbn [find_from startswith one]. rewrite Hd.
    cbn [andb]. rewrite IH by done. f_equal. lia.
Qed.

Section Strings.
Variable w : world.

Lemma loop_skip m q pre c t p :
  string_special (String c t) = false →
  let s := pre +:+ String c t in
  expand_str_loop w (S m) q s (slen pre) p = expand_str_loop w (S m) q s (S (slen pre)) p
  ∨ expand_str_loop w (S m) q s (slen pre) p = expand_str_loop w m q s (S (slen pre)) p.
Proof.
  intros Hc. cbv zeta. set (s := pre +:+ String c t).
  assert (Hf : find_at string_special s (slen pre) = find_at string_special s (S (slen pre))).
  { unfold find_at, s. rewrite sdrop_app. cbn [find_from]. rewrite Hc.
    replace (S (slen pre)) with (slen pre + 1) by lia. rewrite <- sdrop_sdrop, sdrop_app. done. }
  cbn [expand_str_loop]. rewrite Hf. clear Hf. destruct (find_at _ _ _) as [j|]; [|left; reflexivity].
  destruct (s_at j s) as [d|]; [|left; reflexivity].
  destruct (c_eqb d q); [left; reflexivity|]. destruct (c_eqb d bs_c); [left; reflexivity|].
  destruct (c_eqb d "$"); [left; reflexivity|right; reflexivity].
Qed.

Lemma find_special pre c t :
  string_special (String c t) = true →
  find_at string_special (pre +:+ String c t) (slen pre) = Some (slen pre).
Proof. intros Hc. unfold find_at. rewrite sdrop_app. cbn [find_from]. by rewrite Hc. Qed.

(** The loop removes the backslashes of an escaped text up to the closing quote. *)
Lemma expand_escaped name pre n r p :
  plain name → 2 * slen name < n →
  expand_str_loop w n dq_c (pre +:+ escape name +:+ String dq_c r) (slen pre) p
  = Ok ((pre +:+ name +:+ String dq_c r, S (slen pre + slen name)), p).
Proof.
  revert pre n. induction name as [|c name IH]; intros pre n Hp Hn.
  - destruct n as [|n]; [cbn in Hn; lia|]. change (escape "") with "". rewrite !app_empty_l.
    cbn [expand_str_loop]. rewrite find_special, s_at_pre by done.
    rewrite c_eqb_refl. unfold mret, M_ret. do 3 f_equal. cbn. lia.
  - apply plain_cons in Hp as [Hc Hp]. rewrite slen_cons in Hn |- *.
    destruct n as [|n]; [lia|]. rewrite escape_cons, app_assoc_s.
    assert (Hgoal : ∀ m, 2 * slen name < m →
      expand_str_loop w m dq_c (pre +:+ one c +:+ escape name +:+ String dq_c r) (S (slen pre)) p
      = Ok ((pre +:+ String c name +:+ String dq_c r, S (slen pre + S (slen name))), p)).
    { intros m Hm. rewrite <- (app_assoc_s pre (one c)), <- slen_snoc with (c := c), IH by done.
      do 3 f_equal; [by rewrite app_assoc_s, app_one, app_cons|]. rewrite slen_snoc. lia. }
    destruct (c_eqb c bs_c) eqn:Hb; [|destruct (c_eqb c dq_c) eqn:Hq].
    + apply c_eqb_eq in Hb as ->. rewrite app_cons, app_one in *.
      cbn [expand_str_loop]. rewrite find_special, s_at_pre by done.
      change (c_eqb bs_c dq_c) with false. rewrite c_eqb_refl, s_upto_pre. cbv iota.
      replace (S (slen pre)) with (slen pre + 1) by lia. rewrite s_from_add. cbn [sdrop].
      replace (slen pre + 1) with (S (slen pre)) by lia. apply Hgoal. lia.
    + apply c_eqb_eq in Hq as ->. rewrite app_cons, app_one in *.
      cbn [expand_str_loop]. rewrite find_special, s_at_pre by done.
      change (c_eqb bs_c dq_c) with false. rewrite c_eqb_refl, s_upto_pre. cbv iota.
      replace (S (slen pre)) with (slen pre + 1) by lia. rewrite s_from_add. cbn [sdrop].
      replace (slen pre + 1) with (S (slen pre)) by lia. apply Hgoal. lia.
    + rewrite app_one in *. destruct (c_eqb c sq_c) eqn:Hs.
      * apply c_eqb_eq in Hs as ->. cbn [expand_str_loop]. rewrite find_special, s_at_pre by done.
        change (c_eqb sq_c dq_c) with false. change (c_eqb sq_c bs_c) with false.
        change (c_eqb sq_c "$") with false. cbv iota. apply Hgoal. lia.
      * destruct (loop_skip n dq_c pre c (escape name +:+ String dq_c r) p) as [-> | ->];
          [|apply Hgoal; lia..].
        cbn [string_special]. rewrite Hq, Hs, Hb. cbn [orb startswith].
        by rewrite Hc.
Qed.
End Strings.

(** ** The tokens of expressions *)

(** The text of an operator with the spaces that [expr_str] puts around it *)
Definition op_text (k : kw) : string :=
  match k with
  | T_AND => " && " | T_OR => " || " | T_NOT => "!" | T_OPEN_PAREN => "(" | T_CLOSE_PAREN => ")"
  | k => match rel_of_token k with Some r => " " +:+ REL_TO_STR r +:+ " " | None => "" end
  end.

Definition is_operator (k : kw) : Prop :=
  k ∈ [T_AND; T_OR; T_NOT; T_OPEN_PAREN; T_CLOSE_PAREN; T_EQUAL; T_UNEQUAL; T_LESS; T_LESS_EQUAL;
       T_GREATER; T_GREATER_EQUAL].

Section Tokens.
Variables (w : world) (p : pstate).
Let K := p_k p.

(** A symbol that the text of an expression refers to by its name: a constant
    without dollar signs, or a symbol whose name is no keyword. *)
Definition named (s : nat) : Prop :=
  let name := s_name (sym K s) in
  if s_is_constant (sym K s) then plain name ∧ dict_get name (k_const_syms K) = Some s
  else name ≠ "" ∧ plain name ∧ s_all is_name_char name = true ∧ get_keyword name = None
       ∧ STR_TO_TRI name = None ∧ dict_get name (k_syms K) = Some s.

Definition tok_text (t : token) : string :=
  match t with
  | TSymbol s => standard_sc_expr_str K (ISym s)
  | TKw k => op_text k
  | _ => ""
  end.
Definition text (l : list token) : string := sconcat (tok_text <$> l).

Definition tok_ok (t : token) : Prop :=
  match t with TSymbol s => named s | TKw k => is_operator k | _ => False end.

(** No two symbols are adjacent. *)
Fixpoint separated (l : list token) : bool :=
  match l with
  | TSymbol _ :: (TSymbol _ :: _) => false
  | _ :: l => separated l
  | [] => true
  end.

Lemma lookup_sym_at name s p' :
  p_k p' = K → dict_get name (k_syms K) = Some s → lookup_sym name p' = Ok (s, p').
Proof. intros Hk Hs. unfold lookup_sym, gets, mbind, M_bind. cbn [obind]. by rewrite Hk, Hs. Qed.

Lemma lookup_const_sym_at name s p' :
  p_k p' = K → dict_get name (k_const_syms K) = Some s → lookup_const_sym name p' = Ok (s, p').
Proof. intros Hk Hs. unfold lookup_const_sym, gets, mbind, M_bind. cbn [obind]. by rewrite Hk, Hs. Qed.

Lemma const_sym_of_at name s p' :
  p_k p' = K → dict_get name (k_const_syms K) = Some s → const_sym_of name p' = Ok (s, p').
Proof. intros Hk Hs. unfold const_sym_of, gets, mbind, M_bind. cbn [obind]. by rewrite Hk, Hs. Qed.

Lemma id_keyword_match_name pre name r :
  name ≠ "" → s_all is_name_char name = true → starts_not is_name_char r →
  id_keyword_match (pre +:+ name +:+ r) (slen pre)
  = Some (name, slen pre + slen name + span_len is_cspace r).
Proof.
  intros Hne Ha Hr. unfold id_keyword_match. rewrite s_from_pre, (span_len_stop _ _ _ Ha Hr).
  destruct name as [|c name]; [done|]. rewrite slen_cons. rewrite <- (slen_cons c name).
  rewrite s_slice_pre, s_from_add, sdrop_app. done.
Qed.

Lemma id_keyword_match_none pre r :
  starts_not is_name_char r → id_keyword_match (pre +:+ r) (slen pre) = None.
Proof. intros Hr. unfold id_keyword_match. by rewrite s_from_pre, span_len_0. Qed.

(** After a token, the position moves over the white space that follows. *)
Lemma skip_space P pre r :
  ∃ pre', pre +:+ r = pre' +:+ lstrip_by P r ∧ slen pre + span_len P r = slen pre'.
Proof.
  destruct (span_split P r) as (a & Hr & Hl & _). exists (pre +:+ a).
  rewrite app_assoc_s, <- Hr, slen_app, Hl. done.
Qed.

(** One step of the loop: the token [t] at the start of [r]. *)
Definition steps (need : nat) (t : token) (r r' : string) : Prop :=
  ∀ n pre prev acc p', p_k p' = K → need < n → in_string_lex prev = false →
  ∃ pre', tokenize_loop w (S n) false (pre +:+ r) (slen pre) prev acc p'
          = tokenize_loop w n false (pre' +:+ r') (slen pre') t (t :: acc) p'.

Lemma step_name name s r :
  name ≠ "" → plain name → s_all is_name_char name = true → get_keyword name = None →
  (if bool_decide (is_Some (STR_TO_TRI name)) then dict_get name (k_const_syms K)
   else dict_get name (k_syms K)) = Some s →
  starts_not is_name_char r →
  steps 0 (TSymbol s) (name +:+ r) (lstrip_by is_cspace r).
Proof.
  intros Hne Hp Ha Hk Hs Hr n pre prev acc p' HK _ Hprev.
  destruct (skip_space is_cspace (pre +:+ name) r) as (pre' & Hpre & Hlen). exists pre'.
  assert (Hlt : (slen (pre +:+ name +:+ r) <=? slen pre) = false).
  { apply Nat.leb_gt. rewrite !slen_app. destruct name; [done|]. rewrite slen_cons. lia. }
  cbn [tokenize_loop]. rewrite Hlt, id_keyword_match_name, Hk by done.
  unfold name_token. rewrite Hprev. cbn [negb]. unfold plain in Hp. rewrite Hp.
  unfold mbind, M_bind, mret, M_ret. cbn [obind].
  assert (Hl : (if bool_decide (is_Some (STR_TO_TRI name)) then const_sym_of name else lookup_sym name) p'
               = Ok (s, p')).
  { destruct (bool_decide _); [by apply const_sym_of_at|by apply lookup_sym_at]. }
  rewrite Hl. cbn [obind]. rewrite <- Hlen, slen_app, <- Hpre, app_assoc_s. done.
Qed.

Lemma has_char_app c a b : has_char c (a +:+ b) = has_char c a || has_char c b.
Proof.
  unfold has_char. induction a as [|d a IH]; [done|]. rewrite app_cons. cbn [s_any].
  by rewrite IH, orb_assoc.
Qed.

(** Text without backslashes needs no escape. *)
Lemma escape_plain name :
  has_char bs_c (escape name) = false →
  escape name = name ∧ s_all (λ d, negb (c_eqb dq_c d)) name = true.
Proof.
  induction name as [|c name IH]; [done|]. rewrite escape_cons.
  destruct (c_eqb c bs_c) eqn:Hb; [done|]. destruct (c_eqb c dq_c) eqn:Hq; [done|].
  rewrite app_one. unfold has_char. cbn [s_any]. rewrite orb_false_iff. intros [_ Hn].
  destruct (IH Hn) as [-> Ha]. split; [done|]. cbn [s_all]. rewrite Ha, andb_true_r.
  unfold c_eqb in *. by rewrite Ascii.eqb_sym, Hq.
Qed.

Lemma slen_escape name : slen name ≤ slen (escape name).
Proof.
  induction name as [|c name IH]; [done|]. rewrite escape_cons, slen_app, slen_cons.
  destruct (c_eqb c bs_c), (c_eqb c dq_c); cbn; lia.
Qed.

Lemma string_token_escaped n pre name r p' :
  plain name → 2 * slen name < n →
  ∃ pre', string_token w n (pre +:+ String dq_c (escape name +:+ String dq_c r)) (slen pre) dq_c p'
          = Ok ((name, pre' +:+ r, slen pre'), p').
Proof.
  intros Hp Hn. unfold string_token. set (s := pre +:+ _).
  assert (Hs : ∀ t, (pre +:+ one dq_c) +:+ t +:+ String dq_c r
    = ((pre +:+ one dq_c) +:+ t +:+ one dq_c) +:+ r).
  { intros. by rewrite !app_assoc_s, app_one. }
  assert (Hl : ∀ t, S (S (slen pre) + slen t) = slen ((pre +:+ one dq_c) +:+ t +:+ one dq_c)).
  { intros. rewrite !slen_app. cbn. lia. }
  destruct (negb (has_char "$" s) && negb (has_char bs_c s)) eqn:Hesc.
  - apply andb_true_iff in Hesc as [_ Hb%negb_true_iff].
    unfold s in Hb. rewrite pre_snoc, !has_char_app, !orb_false_iff in Hb. destruct Hb as (_ & Hb & _).
    apply escape_plain in Hb as [He Ha]. unfold s. rewrite pre_snoc, He.
    unfold s_find, find_at. rewrite <- (slen_snoc pre dq_c), sdrop_app, find_from_char by done.
    rewrite s_slice_pre. rewrite Hs. eexists. unfold mret, M_ret. do 3 f_equal. rewrite slen_snoc. apply Hl.
  - unfold mbind, M_bind, expand_str, s. rewrite s_at_pre, pre_snoc, <- (slen_snoc pre dq_c).
    rewrite expand_escaped by done. cbn [obind].
    rewrite Hs, Nat.sub_succ, Nat.sub_0_r, <- Hs, s_slice_pre, s_replace_plain, expandvars_plain by done.
    rewrite Hs. eexists. unfold mret, M_ret. do 3 f_equal. rewrite slen_snoc. apply Hl.
Qed.

Lemma step_string name s r :
  plain name → dict_get name (k_const_syms K) = Some s →
  steps (2 * slen name) (TSymbol s) (dquote +:+ escape name +:+ dquote +:+ r)
    (lstrip_by is_pyspace r).
Proof.
  intros Hp Hs n pre prev acc p' HK Hn Hprev. unfold dquote.
  rewrite !app_cons, !app_empty_l.
  destruct (string_token_escaped n pre name r p' Hp Hn) as (pre1 & Ht).
  destruct (skip_space is_pyspace pre1 r) as (pre' & Hpre & Hlen). exists pre'.
  assert (Hlt : (slen (pre +:+ String dq_c (escape name +:+ String dq_c r)) <=? slen pre) = false).
  { apply Nat.leb_gt. rewrite slen_app, slen_cons. lia. }
  cbn [tokenize_loop]. rewrite Hlt, id_keyword_match_none by done.
  unfold other_token. rewrite s_at_pre, c_eqb_refl. cbn [orb].
  unfold mbind, M_bind. rewrite Ht. cbn [obind]. rewrite Hprev. cbn [orb].
  rewrite (lookup_const_sym_at _ _ _ HK Hs). unfold mret, M_ret. cbn [obind].
  rewrite s_from_pre, Hlen, Hpre. done.
Qed.

(** The operators without the leading space *)
Definition op_core (k : kw) : string :=
  match k with
  | T_AND => "&&" | T_OR => "||" | T_NOT => "!" | T_OPEN_PAREN => "(" | T_CLOSE_PAREN => ")"
  | k => match rel_of_token k with Some r => REL_TO_STR r | None => "" end
  end.

Definition eq_char (c : ascii) : bool := c_eqb "=" c.

Lemma step_op k r :
  is_operator k → starts_not eq_char r →
  steps 0 (TKw k) (op_core k +:+ r) (lstrip_by is_pyspace r).
Proof.
  intros Hk Hr n pre prev acc p' _ _ _.
  destruct (skip_space is_pyspace (pre +:+ op_core k) r) as (pre' & Hpre & Hlen). exists pre'.
  assert (Hc : ∃ c u, op_core k = String c u ∧ is_name_char c = false ∧ c_eqb c dq_c = false
    ∧ c_eqb c sq_c = false ∧ c_eqb c "#" = false).
  { unfold is_operator in Hk. repeat (apply elem_of_cons in Hk as [->|Hk]; [by eexists _, _|]).
    by apply not_elem_of_nil in Hk. }
  destruct Hc as (c & u & Hu & Hn & Hd & Hs & Hh).
  assert (Hop : (if operator_at (pre +:+ op_core k +:+ r) (slen pre) is Some x then Some x
                 else rare_operator_at (pre +:+ op_core k +:+ r) (slen pre))
                = Some (k, slen (op_core k))).
  { unfold operator_at, rare_operator_at. rewrite s_from_pre.
    assert (He : startswith "=" r = false) by (destruct r; cbn in *; [done|by rewrite Hr]).
    unfold is_operator in Hk. repeat (apply elem_of_cons in Hk as [->|Hk];
      [cbn -[startswith]; rewrite !app_cons, ?app_empty_l; cbn; cbn in He; by rewrite ?He|]).
    by apply not_elem_of_nil in Hk. }
  assert (Hlt : (slen (pre +:+ op_core k +:+ r) <=? slen pre) = false).
  { apply Nat.leb_gt. rewrite Hu, slen_app, app_cons, slen_cons. lia. }
  set (t := op_core k +:+ r) in *. set (s := pre +:+ t) in *.
  assert (Ht : t = String c (u +:+ r)) by (unfold t; by rewrite Hu, app_cons).
  assert (Hid : id_keyword_match s (slen pre) = None).
  { unfold s. rewrite Ht. by apply id_keyword_match_none. }
  assert (Hat : s_at (slen pre) s = Some c) by (unfold s; rewrite Ht; apply s_at_pre).
  assert (Hskip : slen pre + slen (op_core k) + span_len is_pyspace (s_from (slen pre + slen (op_core k)) s)
                  = slen pre').
  { unfold s, t. rewrite s_from_add, sdrop_app, <- Hlen, slen_app. done. }
  assert (Hend : s = pre' +:+ lstrip_by is_pyspace r) by (unfold s, t; by rewrite <- app_assoc_s).
  cbn [tokenize_loop]. rewrite Hlt, Hid. unfold other_token. rewrite Hat, Hd, Hs. cbn [orb].
  unfold mbind, M_bind, mret, M_ret.
  destruct (operator_at s (slen pre)) as [x|]; simplify_eq.
  - cbn [obind]. by rewrite Hskip, <- Hend.
  - rewrite Hh, Hop. cbn [obind]. by rewrite Hskip, <- Hend.
Qed.

(** *** Sequences of tokens *)

(** The text of a token: a space or nothing, its characters, a space or nothing. *)
Definition shape (t : token) (lead core trail : string) (c : ascii) : Prop :=
  tok_text t = lead +:+ core +:+ trail ∧ (lead = "" ∨ lead = " ") ∧ (trail = "" ∨ trail = " ")
  ∧ (∃ u, core = String c u) ∧ is_pyspace c = false
  ∧ (lead = "" → eq_char c = false ∧ (∀ k, t = TKw k → is_name_char c = false)).

Lemma name_char_plain c : is_name_char c = true → is_pyspace c = false ∧ eq_char c = false.
Proof.
  intros Hc.
  assert (Hall : forallb (λ n, let c := Ascii.ascii_of_nat n in
    negb (is_name_char c) || negb (is_pyspace c) && negb (eq_char c)) (seq 0 256) = true) by done.
  rewrite forallb_forall in Hall. specialize (Hall (Ascii.nat_of_ascii c)).
  cbv beta zeta in Hall. rewrite Ascii.ascii_nat_embedding, Hc in Hall. cbn [negb] in Hall.
  rewrite orb_false_l, andb_true_iff, !negb_true_iff in Hall.
  apply Hall, in_seq. pose proof (Ascii.nat_ascii_bounded c). lia.
Qed.

Ltac op_shape_with sp :=
  eexists sp, sp, _; split; [reflexivity|]; split; [by auto|]; split; [by auto|];
  split; [by eexists|]; split; [reflexivity|]; intros; (split; [done|by intros ? [= <-]]) || done.

Lemma op_shape k : is_operator k → ∃ lead trail c, shape (TKw k) lead (op_core k) trail c.
Proof.
  unfold is_operator. intros Hk.
  repeat (apply elem_of_cons in Hk as [->|Hk]; [solve [op_shape_with " " | op_shape_with ""]|]).
  by apply not_elem_of_nil in Hk.
Qed.

Lemma sym_shape s : named s → ∃ c, shape (TSymbol s) "" (tok_text (TSymbol s)) "" c.
Proof.
  assert (Hmk : ∀ c u, tok_text (TSymbol s) = String c u → is_pyspace c = false → eq_char c = false →
    ∃ c, shape (TSymbol s) "" (tok_text (TSymbol s)) "" c).
  { intros c u Hu ? ?. exists c. split; [by rewrite app_empty_l, app_empty_r|].
    do 2 (split; [by left|]). split; [by exists u|]. split; [done|]. intros _. split; [done|]. done. }
  unfold named. cbn [tok_text standard_sc_expr_str] in *. intros Hs.
  destruct (s_is_constant (sym K s)) eqn:Hc; cbn [andb] in *.
  - destruct (STR_TO_TRI (s_name (sym K s))) as [z|] eqn:Ht.
    + rewrite bool_decide_true in * by done. cbn [negb] in *. unfold STR_TO_TRI in Ht.
      repeat (case_decide as Hn; [eapply Hmk; [exact Hn|done|done]|clear Hn]). done.
    + rewrite bool_decide_false in * by (intros [? ?]; done). by eapply (Hmk dq_c).
  - destruct Hs as (Hne & _ & Ha & _). destruct (s_name (sym K s)) as [|c u]; [done|].
    cbn [s_all] in Ha. apply andb_true_iff in Ha as [Ha _]. apply name_char_plain in Ha as [? ?].
    by eapply Hmk.
Qed.

Lemma tok_shape t : tok_ok t → ∃ lead core trail c, shape t lead core trail c.
Proof.
  destruct t as [k|s| |]; cbn [tok_ok]; try done.
  - intros (lead & trail & c & H)%op_shape. eauto.
  - intros (c & H)%sym_shape. eauto.
Qed.

(** What follows the expression: nothing, or the end of the line. *)
Variable eol : string.
Hypothesis Heol : eol = "" ∨ eol = nl.

Definition rest (l : list token) : string := text l +:+ eol.
Definition core (l : list token) : string := lstrip_by is_cspace (rest l).

Lemma rest_cons t l : rest (t :: l) = tok_text t +:+ rest l.
Proof. unfold rest, text. rewrite fmap_cons. cbn [sconcat]. by rewrite app_assoc_s. Qed.

Lemma pyspace_cspace c : is_pyspace c = false → is_cspace c = false.
Proof. unfold is_pyspace. by intros [? ?]%orb_false_iff. Qed.

Lemma strip_lead P lead c u :
  P " "%char = true → P c = false → lead = "" ∨ lead = " " →
  lstrip_by P (lead +:+ String c u) = String c u.
Proof.
  intros Hs Hc [-> | ->]; rewrite ?app_cons, ?app_empty_l; cbn [lstrip_by]; rewrite ?Hs; by rewrite ?Hc.
Qed.

Lemma core_cons t l lead co trail c :
  shape t lead co trail c → core (t :: l) = co +:+ trail +:+ rest l.
Proof.
  intros (Ht & Hl & _ & (u & ->) & Hc & _). unfold core. rewrite rest_cons, Ht, !app_assoc_s, app_cons.
  apply strip_lead; [done|by apply pyspace_cspace|done].
Qed.

(** Both kinds of white space are skipped to the same place. *)
Lemma strip_rest l : Forall tok_ok l → lstrip_by is_pyspace (rest l) = core l.
Proof using Heol K eol p.
  intros Hl. destruct l as [|t l]; [by unfold core, rest; destruct Heol as [-> | ->]|]. apply Forall_cons in Hl as [Ht _].
  destruct (tok_shape t Ht) as (lead & co & trail & c & Hs). rewrite (core_cons _ _ _ _ _ _ Hs).
  destruct Hs as (Ht' & Hl & _ & (u & ->) & Hc & _). rewrite rest_cons, Ht', !app_assoc_s, app_cons.
  by apply strip_lead.
Qed.

Lemma rest_head l :
  Forall tok_ok l → starts_not eq_char (rest l)
  ∧ (head l ≠ None → (∀ s, head l ≠ Some (TSymbol s)) → starts_not is_name_char (rest l)).
Proof using Heol K eol p.
  intros Hl. destruct l as [|t l]; [by unfold rest; destruct Heol as [-> | ->]|]. apply Forall_cons in Hl as [Ht _].
  destruct (tok_shape t Ht) as (lead & co & trail & c & Ht' & [-> | ->] & _ & (u & ->) & _ & Hc);
    rewrite rest_cons, Ht', !app_assoc_s, !app_cons, ?app_empty_l; [|done]. cbn [starts_not].
  destruct (Hc eq_refl) as [? Hn]. split; [done|]. intros _ Hh.
  destruct t as [k|s| |]; [by eapply Hn|by destruct (Hh s)|done..].
Qed.

Lemma step_token t l :
  tok_ok t → Forall tok_ok l → separated (t :: l) = true →
  steps (2 * slen (tok_text t)) t (core (t :: l)) (core l).
Proof using Heol K eol p w.
  intros Ht Hl Hsep. destruct (rest_head l Hl) as [Heq Hname].
  destruct t as [k|s| |]; cbn [tok_ok] in Ht; try done.
  - destruct (op_shape k Ht) as (lead & trail & c & Hs). rewrite (core_cons _ _ _ _ _ _ Hs).
    destruct Hs as (_ & _ & Htr & _).
    assert (Hstep : steps 0 (TKw k) (op_core k +:+ trail +:+ rest l) (core l)).
    { rewrite <- strip_rest by done.
      replace (lstrip_by is_pyspace (rest l)) with (lstrip_by is_pyspace (trail +:+ rest l))
        by by destruct Htr as [-> | ->].
      apply step_op; [done|]. by destruct Htr as [-> | ->]. }
    intros n pre prev acc p' HK Hn Hp. apply Hstep; [done|lia|done].
  - destruct (sym_shape s Ht) as (c & Hs). rewrite (core_cons _ _ _ _ _ _ Hs), app_empty_l.
    clear Hs c. unfold named in Ht. cbn [tok_text standard_sc_expr_str].
    assert (Hnc : starts_not is_name_char (rest l)).
    { destruct l as [|t l]; [by unfold rest; destruct Heol as [-> | ->]|]. apply Hname; [done|]. cbn [head]. intros s2 [= ->]. done. }
    destruct (s_is_constant (sym K s)) eqn:Hc; cbn [andb].
    + destruct Ht as [Hp Hd]. destruct (STR_TO_TRI (s_name (sym K s))) as [z|] eqn:Htri.
      * rewrite bool_decide_true by done. cbn [negb]. intros n pre prev acc p' HK Hn Hpr.
        assert (Hd' : (if bool_decide (is_Some (STR_TO_TRI (s_name (sym K s))))
                       then dict_get (s_name (sym K s)) (k_const_syms K)
                       else dict_get (s_name (sym K s)) (k_syms K)) = Some s)
          by by rewrite bool_decide_true by (by rewrite Htri).
        apply step_name; try done; try lia; unfold STR_TO_TRI in Htri;
          repeat (case_decide as H; [by rewrite H|clear H]); done.
      * rewrite bool_decide_false by (intros [? ?]; done). cbn [negb]. rewrite <- strip_rest by done.
        rewrite !app_assoc_s. intros n pre prev acc p' HK Hn Hpr.
        apply step_string; try done. pose proof (slen_escape (s_name (sym K s))).
        rewrite !slen_app in Hn. lia.
    + destruct Ht as (Hne & Hp & Ha & Hk & Htri & Hd). intros n pre prev acc p' HK Hn Hpr.
      apply step_name; try done; [|lia]. rewrite bool_decide_false; [done|]. by rewrite Htri; intros [? ?].
Qed.

Lemma in_string_lex_ok t : tok_ok t → in_string_lex t = false.
Proof.
  destruct t as [k|s| |]; cbn [tok_ok in_string_lex]; try done. unfold is_operator. intros Hk.
  repeat (apply elem_of_cons in Hk as [->|Hk]; [done|]). by apply not_elem_of_nil in Hk.
Qed.

Lemma text_cons t l : text (t :: l) = tok_text t +:+ text l.
Proof. done. Qed.

(** The loop over the text of a list of tokens *)
Lemma tokenize_text l : ∀ n pre prev acc p',
  Forall tok_ok l → separated l = true → p_k p' = K → in_string_lex prev = false →
  2 * slen (text l) + length l + 1 < n →
  tokenize_loop w n false (pre +:+ core l) (slen pre) prev acc p'
  = Ok (rev acc ++ l ++ [TNone], p').
Proof using Heol K eol p w.
  induction l as [|t l IH]; intros n pre prev acc p' Hl Hsep HK Hpr Hn.
  - destruct n as [|n]; [lia|]. assert (core [] = "") as -> by (unfold core, rest; by destruct Heol as [-> | ->]). rewrite app_empty_r.
    cbn [tokenize_loop]. rewrite Nat.leb_refl. done.
  - destruct n as [|n]; [lia|]. apply Forall_cons in Hl as [Ht Hl].
    rewrite text_cons, slen_app in Hn. cbn [length] in Hn.
    destruct (step_token t l Ht Hl Hsep n pre prev acc p' HK) as (pre' & ->); [lia|done|].
    rewrite IH; [|done|by destruct t; cbn in Hsep; case_all|done|by apply in_string_lex_ok|lia].
    cbn [rev]. by rewrite <- app_assoc.
Qed.
End Tokens.
