(* ===== verification/ParseRules.v ===== *)
(** * What the parser promises

    Expressions survive printing and reading; the expression parser needs no more
    fuel than it is given.  A parsed m stands for m && MODULES ([with_modules]). *)

From S2P Require Import Prelude PyStr PyText Escape Kconst Expr Incr Objects ParseState Preproc Lexer.
From S2P Require Import Parser ExprText LexText Values Session Meaning Effects ConfigFile Load Demo Repr.
From stdpp Require Import options.

(** ** The tokens of an expression *)

Section Toks.
Variable p : pstate.

Lemma text_app l1 l2 : text p (l1 ++ l2) = text p l1 +:+ text p l2.
Proof.
  induction l1 as [|t l1 IH]; [by rewrite app_empty_l|].
  cbn [app]. by rewrite !text_cons, IH, app_assoc_s.
Qed.

Lemma text_parens l : text p (parens l) = "(" +:+ text p l +:+ ")".
Proof. unfold parens. rewrite text_cons, text_app. done. Qed.

Lemma text_operand e (op : bop) :
  text p (if is_op e op then parens (toks e) else toks e)
  = if is_op e op then "(" +:+ text p (toks e) +:+ ")" else text p (toks e).
Proof. destruct (is_op e op); [apply text_parens|done]. Qed.

Lemma expr_str_text e :
  symbols_only e = true → expr_str (standard_sc_expr_str (p_k p)) e = text p (toks e).
Proof.
  induction e as [i|a IHa b IHb|a IHa b IHb|e IH|r s1 s2]; cbn [symbols_only].
  - destruct i; [|done]. intros _. cbn [toks item_token]. by rewrite text_cons, app_empty_r.
  - rewrite andb_true_iff. intros [??]. cbn [expr_str toks].
    rewrite IHa, IHb, text_app, text_cons, !text_operand by done. done.
  - rewrite andb_true_iff. intros [??]. cbn [expr_str toks].
    rewrite IHa, IHb, text_app, text_cons, !text_operand by done. done.
  - intros He. specialize (IH He). rewrite toks_not, text_cons.
    destruct e as [[s|]| | | |]; try done; cbn [expr_str] in IH |- *; rewrite ?text_parens, <- IH; done.
  - intros _. cbn [expr_str toks]. rewrite !text_cons, app_empty_r.
    by destruct r.
Qed.

Lemma tok_ok_toks e :
  symbols_only e = true → (∀ s, ISym s ∈ expr_items e → named p s) → Forall (tok_ok p) (toks e).
Proof.
  assert (Hpar : ∀ e op, Forall (tok_ok p) (toks e) →
    Forall (tok_ok p) (if is_op e op then parens (toks e) else toks e)).
  { intros e' op H. destruct (is_op e' op); [|done]. unfold parens.
    constructor; [by repeat (left || right)|]. apply Forall_app. split; [done|].
    constructor; [|done]. by repeat (left || right). }
  induction e as [i|a IHa b IHb|a IHa b IHb|e IH|r s1 s2]; cbn [symbols_only expr_items].
  - destruct i; [|done]. intros _ Hn. constructor; [|done]. by apply Hn, elem_of_singleton.
  - rewrite andb_true_iff. intros [??] Hn. cbn [toks]. apply Forall_app. split; [|constructor];
      [apply Hpar, IHa; [done|intros s Hs; apply Hn; by apply elem_of_union_l]| |apply Hpar, IHb; [done|intros s Hs; apply Hn; by apply elem_of_union_r]]. by left.
  - rewrite andb_true_iff. intros [??] Hn. cbn [toks]. apply Forall_app. split; [|constructor];
      [apply Hpar, IHa; [done|intros s Hs; apply Hn; by apply elem_of_union_l]| |apply Hpar, IHb; [done|intros s Hs; apply Hn; by apply elem_of_union_r]]. by right; left.
  - intros He Hn. specialize (IH He Hn). rewrite toks_not. constructor; [by do 2 right; left|].
    destruct e; [done|..]; unfold parens; (constructor; [by do 3 right; left|]);
      apply Forall_app; (split; [done|]); constructor; try done; by do 4 right; left.
  - intros _ Hn. constructor; [|constructor; [|constructor; [|done]]].
    + by apply Hn, elem_of_union_l, elem_of_singleton.
    + unfold tok_ok, is_operator. destruct r; apply (bool_decide_unpack _); reflexivity.
    + by apply Hn, elem_of_union_r, elem_of_singleton.
Qed.
End Toks.

Lemma separated_kw l1 k l2 :
  separated l1 = true → separated l2 = true → separated (l1 ++ TKw k :: l2) = true.
Proof.
  intros H1 H2. induction l1 as [|t l1 IH]; [done|].
  destruct t as [k'|s| |]; cbn in *; try by apply IH.
  destruct l1 as [|[k''|s2| |] l1]; cbn in *; try done; by apply IH.
Qed.

Lemma separated_toks e : separated (toks e) = true.
Proof.
  assert (Hpar : ∀ l, separated l = true → separated (parens l) = true).
  { intros l Hl. unfold parens. by apply (separated_kw l). }
  assert (Hop : ∀ e op, separated (toks e) = true →
    separated (if is_op e op then parens (toks e) else toks e) = true).
  { intros e' op H. destruct (is_op e' op); auto. }
  induction e as [i|a IHa b IHb|a IHa b IHb|e IH|r s1 s2].
  - by destruct i.
  - apply separated_kw; auto.
  - apply separated_kw; auto.
  - rewrite toks_not. change (separated match e with EItem _ => toks e | _ => parens (toks e) end = true).
    destruct e; auto.
  - by destruct r.
Qed.

(** ** m means m && MODULES *)

Section Modules.
Variable K : kconfig.

Definition plain_expr (s : nat) : expr :=
  if Nat.eqb s (k_sym_m K) then EAnd (ESym s) (ESym (k_modules K)) else ESym s.

Fixpoint with_modules (e : expr) : expr :=
  match e with
  | EItem (ISym s) => plain_expr s
  | EAnd a b => EAnd (with_modules a) (with_modules b)
  | EOr a b => EOr (with_modules a) (with_modules b)
  | ENot e => ENot (with_modules e)
  | e => e
  end.

Definition modules_value (τ : item → Z) (i : item) : Z :=
  if decide (i = ISym (k_sym_m K)) then Z.min (τ i) (τ (ISym (k_modules K))) else τ i.

Lemma with_modules_value τ ρ e : value τ ρ (with_modules e) = value (modules_value τ) ρ e.
Proof.
  induction e as [i|a IHa b IHb|a IHa b IHb|e IH|r s1 s2]; cbn; try congruence.
  unfold modules_value. destruct i as [s|c]; [|done]. unfold plain_expr.
  destruct (Nat.eqb_spec s (k_sym_m K)) as [->|].
  - by rewrite decide_True.
  - by rewrite decide_False by congruence.
Qed.

Lemma with_modules_id e : ISym (k_sym_m K) ∉ expr_items e → with_modules e = e.
Proof.
  induction e as [i|a IHa b IHb|a IHa b IHb|e IH|r s1 s2]; cbn; try done.
  - destruct i as [s|]; [|done]. intros Hs. unfold plain_expr. destruct (Nat.eqb_spec s (k_sym_m K)) as [->|]; [|done].
    by destruct Hs; apply elem_of_singleton.
  - rewrite not_elem_of_union. intros [??]. by rewrite IHa, IHb.
  - rewrite not_elem_of_union. intros [??]. by rewrite IHa, IHb.
  - intros. by rewrite IH.
Qed.
End Modules.

Lemma value_ext τ τ' ρ e : (∀ i, τ i = τ' i) → value τ ρ e = value τ' ρ e.
Proof. intros H. induction e; cbn; congruence. Qed.

(** Parsing with [transform_m] rewrites the parsed expression, and leaves the
    configuration alone. *)
Definition transformed (K : kconfig) (o : outcome (expr * pstate)) : outcome (expr * pstate) :=
  let! (e, p) := o in Ok (with_modules K e, p).

Definition same_k {A} (p : pstate) (o : outcome (A * pstate)) : Prop :=
  match o with Ok (_, p') => p_k p' = p_k p | _ => True end.

Lemma same_k_peek p : same_k p (peek p).
Proof. unfold peek, token_at. by destruct (nth_error _ _). Qed.

Lemma same_k_bind {A B} (m : M A) (f : A → M B) p :
  same_k p (m p) → (∀ a p', m p = Ok (a, p') → same_k p' (f a p')) → same_k p ((m ≫= f) p).
Proof.
  intros Hm Hf. unfold mbind, M_bind. destruct (m p) as [[a p']| |]; [|done..]. cbn [obind] in *.
  specialize (Hf a p' eq_refl). unfold same_k in *. destruct (f a p') as [[b p'']| |]; congruence.
Qed.

Lemma same_k_next p : same_k p (next_token p).
Proof.
  apply same_k_bind; [apply same_k_peek|]. intros t p' _. done.
Qed.

Lemma same_k_check k p : same_k p (check_token k p).
Proof.
  apply same_k_bind; [apply same_k_peek|]. intros t p' _. by case_decide.
Qed.

Lemma same_k_expect p : same_k p (expect_sym p).
Proof.
  apply same_k_bind; [apply same_k_next|]. by intros [] p' _.
Qed.

(** Two computations that go on alike: the second rewrites what the first gives. *)
Lemma transformed_bind {A} K (m : M A) (f g : A → M expr) p :
  (∀ a p', m p = Ok (a, p') → g a p' = transformed K (f a p')) →
  (m ≫= g) p = transformed K ((m ≫= f) p).
Proof.
  intros H. unfold mbind, M_bind. destruct (m p) as [[a p']| |] eqn:Hm; [|done..]. by apply H.
Qed.

Lemma transformed_sub K (m m' : M expr) (f g : expr → M expr) p :
  m' p = transformed K (m p) →
  (∀ e p', m p = Ok (e, p') → g (with_modules K e) p' = transformed K (f e p')) →
  (m' ≫= g) p = transformed K ((m ≫= f) p).
Proof.
  intros Hm H. unfold mbind, M_bind. rewrite Hm.
  destruct (m p) as [[e p']| |] eqn:He; [|done..]. by apply H.
Qed.

Definition transforms (f : nat → bool → M expr) (n : nat) : Prop :=
  ∀ p, f n true p = transformed (p_k p) (f n false p) ∧ same_k p (f n false p).

Lemma parse_transforms n :
  transforms parse_expr n ∧ transforms parse_and_expr n ∧ transforms parse_factor n.
Proof.
  induction n as [|n (He & Ha & Hf)]; [done|]. split_and!; intros p.
  - cbn [parse_expr]. destruct (Ha p) as [Ht Hk]. split.
    + apply transformed_sub; [done|]. intros e p' Hp. rewrite Hp in Hk.
      apply transformed_bind. intros b p2 Hc. pose proof (same_k_check T_OR p') as Hk2. rewrite Hc in Hk2.
      destruct b; [|done]. cbn in Hk, Hk2. rewrite <- Hk, <- Hk2.
      apply transformed_sub; [apply He|done].
    + apply same_k_bind; [done|]. intros e p' _. apply same_k_bind; [apply same_k_check|].
      intros [] p2 _; [|done]. apply same_k_bind; [apply He|done].
  - cbn [parse_and_expr]. destruct (Hf p) as [Ht Hk]. split.
    + apply transformed_sub; [done|]. intros e p' Hp. rewrite Hp in Hk.
      apply transformed_bind. intros b p2 Hc. pose proof (same_k_check T_AND p') as Hk2. rewrite Hc in Hk2.
      destruct b; [|done]. cbn in Hk, Hk2. rewrite <- Hk, <- Hk2.
      apply transformed_sub; [apply Ha|done].
    + apply same_k_bind; [done|]. intros e p' _. apply same_k_bind; [apply same_k_check|].
      intros [] p2 _; [|done]. apply same_k_bind; [apply Ha|done].
  - cbn [parse_factor]. split.
    + apply transformed_bind. intros t p' Hn. pose proof (same_k_next p) as Hk. rewrite Hn in Hk.
      cbn in Hk. rewrite <- Hk. destruct t as [k|s| |]; try done.
      * destruct k; try done; apply transformed_sub; try apply He; try apply Hf; try done.
        intros e p2 _. apply transformed_bind. by intros [] p3 _.
      * apply transformed_bind. intros t p2 Hp. pose proof (same_k_peek p') as Hk2. rewrite Hp in Hk2.
        cbn in Hk2. rewrite <- Hk2. destruct t as [k| | |]; try done.
        destruct (rel_of_token k); [|done]. apply transformed_bind. intros [] p3 _.
        by apply transformed_bind.
    + apply same_k_bind; [apply same_k_next|]. intros t p' _. destruct t as [k|s| |]; try done.
      * destruct k; try done; (apply same_k_bind; [first [apply He|apply Hf]|]); try done.
        intros e p2 _. apply same_k_bind; [apply same_k_check|]. by intros [] p3 _.
      * apply same_k_bind; [apply same_k_peek|]. intros t p2 _. destruct t as [k| | |]; try done.
        destruct (rel_of_token k); [|done]. apply same_k_bind; [done|]. intros [] p3 _.
        apply same_k_bind; [apply same_k_expect|done].
Qed.

(** ** A line with an expression *)

Lemma toks_head e :
  symbols_only e = true →
  ∃ t l, toks e = t :: l ∧ ((∃ s, t = TSymbol s) ∨ t = TKw T_NOT ∨ t = TKw T_OPEN_PAREN).
Proof.
  assert (Hop : ∀ e op r, (∃ t l, toks e = t :: l ∧ ((∃ s, t = TSymbol s) ∨ t = TKw T_NOT ∨ t = TKw T_OPEN_PAREN)) →
    ∃ t l, (if is_op e op then parens (toks e) else toks e) ++ r = t :: l
           ∧ ((∃ s, t = TSymbol s) ∨ t = TKw T_NOT ∨ t = TKw T_OPEN_PAREN)).
  { intros e' op r (t & l & Hl & Ht). destruct (is_op e' op).
    - unfold parens. rewrite <- app_comm_cons. eauto 6.
    - rewrite Hl, <- app_comm_cons. eauto. }
  induction e as [i|a IHa b IHb|a IHa b IHb|e IH|r s1 s2]; cbn [symbols_only].
  - destruct i; [|done]. intros _. cbn. eauto 6.
  - rewrite andb_true_iff. intros [??]. cbn [toks]. auto.
  - rewrite andb_true_iff. intros [??]. cbn [toks]. auto.
  - intros _. rewrite toks_not. eauto 6.
  - intros _. cbn. eauto 6.
Qed.

Lemma core_toks p eol e :
  symbols_only e = true → Forall (tok_ok p) (toks e) → core p eol (toks e) = rest p eol (toks e).
Proof.
  intros He Hok. destruct (toks_head e He) as (t & l & Ht & Hh). rewrite Ht in Hok |- *.
  apply Forall_cons in Hok as [Hok _]. destruct Hh as [[s ->]|[-> | ->]].
  - destruct (sym_shape p s Hok) as (c & Hs). rewrite (core_cons _ _ _ _ _ _ _ _ Hs), rest_cons.
    by rewrite app_empty_l.
  - done.
  - done.
Qed.

(** The line that asks for an expression, and its tokens *)
Definition depends_line (K : kconfig) (e : expr) : string :=
  tab +:+ "depends on " +:+ expr_str (standard_sc_expr_str K) e +:+ nl.
Definition depends_tokens (e : expr) : list token :=
  TKw T_DEPENDS :: TKw T_ON :: toks e ++ [TNone].

(** The text of an expression does not start with a blank. *)
Lemma core_starts p eol l : starts_not is_cspace (core p eol l).
Proof.
  unfold core. generalize (rest p eol l). intros s.
  induction s as [|c s IH]; [done|]. cbn [lstrip_by]. by destruct (is_cspace c) eqn:Hc.
Qed.

Lemma tokenize_depends w fuel p e :
  symbols_only e = true → (∀ s, ISym s ∈ expr_items e → named p s) →
  3 * slen (depends_line (p_k p) e) + length (toks e) < fuel →
  tokenize w fuel (depends_line (p_k p) e) p
  = Ok (depends_tokens e, set_p_line (depends_line (p_k p) e) p).
Proof.
  intros He Hn Hfuel. pose proof (tok_ok_toks p e He Hn) as Hok.
  assert (Hline : depends_line (p_k p) e = (tab +:+ "depends on ") +:+ core p nl (toks e)).
  { unfold depends_line. rewrite core_toks by done. unfold rest. by rewrite <- expr_str_text. }
  pose proof (core_starts p nl (toks e)) as Hns.
  assert (Hlen : slen (text p (toks e)) + 2 ≤ slen (depends_line (p_k p) e)).
  { unfold depends_line. rewrite expr_str_text, !slen_app by done. cbn. lia. }
  unfold tokenize, mbind, M_bind, modify. cbn [obind]. set (p' := set_p_line _ p).
  rewrite Hline. set (t := core p nl (toks e)) in *.
  assert (Hc : command_match ((tab +:+ "depends on ") +:+ t) = Some ("depends", 9)) by reflexivity.
  assert (Hi : id_keyword_match ((tab +:+ "depends on ") +:+ t) 9 = Some ("on", 12)).
  { change ((tab +:+ "depends on ") +:+ t) with ((tab +:+ "depends ") +:+ "on" +:+ String " " t).
    change 9 with (slen (tab +:+ "depends ")). rewrite id_keyword_match_name by done.
    cbn [span_len is_cspace]. change (is_cspace " ") with true. cbv iota. by rewrite span_len_0. }
  rewrite Hc. change (get_keyword "depends") with (Some T_DEPENDS). cbv iota.
  rewrite bool_decide_false by done. destruct fuel as [|fuel]; [lia|]. cbn [tokenize_loop].
  rewrite Hi. change (get_keyword "on") with (Some T_ON). cbv iota.
  assert (Hlt : (slen ((tab +:+ "depends on ") +:+ t) <=? 9) = false).
  { apply Nat.leb_gt. rewrite slen_app. change (slen (tab +:+ "depends on ")) with 12. lia. }
  rewrite Hlt. change 12 with (slen (tab +:+ "depends on ")).
  unfold t. rewrite (tokenize_text w p nl); [done|by right|done|apply separated_toks|done|done|lia].
Qed.

(** [eval_string] puts [if] before the text. *)
Lemma tokenize_if w fuel p e :
  symbols_only e = true → (∀ s, ISym s ∈ expr_items e → named p s) →
  let t := expr_str (standard_sc_expr_str (p_k p)) e in
  3 * slen t + length (toks e) + 8 < fuel →
  tokenize w fuel ("if " +:+ t) p = Ok (TKw T_IF :: toks e ++ [TNone], set_p_line ("if " +:+ t) p).
Proof.
  intros He Hn t Hfuel. pose proof (tok_ok_toks p e He Hn) as Hok.
  assert (Ht : t = core p "" (toks e)).
  { rewrite core_toks by done. unfold rest. unfold t. by rewrite <- expr_str_text, app_empty_r. }
  assert (Hlen : slen (text p (toks e)) = slen t) by by rewrite <- expr_str_text.
  pose proof (core_starts p "" (toks e)) as Hns. rewrite <- Ht in Hns.
  unfold tokenize, mbind, M_bind, modify. cbn [obind]. set (p' := set_p_line _ p).
  assert (Hc : command_match ("if " +:+ t) = Some ("if", 3)).
  { assert (Hs : span_len is_cspace (String " " t) = 1).
    { cbn [span_len]. change (is_cspace " ") with true. cbv iota. by rewrite span_len_0. }
    unfold command_match. change (span_len is_cspace ("if " +:+ t)) with 0.
    change (span_len is_command_char (s_from 0 ("if " +:+ t))) with 2. cbv beta iota zeta.
    change (s_from (0 + 2) ("if " +:+ t)) with (String " " t). by rewrite Hs. }
  rewrite Hc. change (get_keyword "if") with (Some T_IF). cbv iota. rewrite bool_decide_false by done.
  rewrite Ht. change 3 with (slen "if "). rewrite (tokenize_text w p ""); [done|by left|done|apply separated_toks|done|done|lia].
Qed.

(** The tokens of a printed expression are parsed to the end of the line. *)
Lemma read_expr e p : symbols_only e = true → at_tokens p (toks e ++ [TNone]) →
  length (toks e) < length (p_tokens p) →
  expect_expr_and_eol p = Ok (with_modules (p_k p) (regroup e), adv (length (toks e)) p).
Proof.
  intros He Hat Hlen. assert (Hlast : head_not after_expr [TNone]) by by exists TNone, [].
  pose proof (toks_ok_end e _ (toks_parsed e He) Hlast) as Hparse.
  unfold expect_expr_and_eol, parse_line_expr, mbind, M_bind.
  destruct (proj1 (parse_transforms (3 * length (p_tokens p) + 3)) p) as [-> _].
  rewrite (Hparse (3 * length (p_tokens p) + 3) p); [|lia|done]. cbn [transformed obind].
  assert (H3 : at_tokens (adv (length (toks e)) p) [TNone]) by by apply at_app.
  unfold expect_eol, mbind, M_bind. rewrite (peek_at _ _ _ H3). cbn [obind]. by rewrite decide_True.
Qed.

(** m && MODULES once more makes no difference. *)
Lemma reread_value K e0 τ ρ : k_modules K ≠ k_sym_m K →
  value τ ρ (with_modules K (regroup (with_modules K e0))) = value τ ρ (with_modules K e0).
Proof.
  intros Hm. rewrite with_modules_value, regroup_value, !with_modules_value.
  apply value_ext. intros i. unfold modules_value. destruct (decide (i = ISym (k_sym_m K))) as [->|]; [|done].
  rewrite (decide_False (P := ISym (k_modules K) = _)) by congruence. lia.
Qed.

(** C38: an expression that the loader stores for an expression [e] of a Kconfig file, m
    in it standing for m && MODULES, is printed by [expr_str] as text that
    [_tokenize] and [_parse_expr] read back in a [depends on] line, to the end of
    the line: to the same value under every assignment of values to symbols, and
    to the same expression when it has the shape the parser builds and m does not
    occur. *)
Theorem expression_roundtrip w fuel p e0 :
  let K := p_k p in
  let e := with_modules K e0 in
  symbols_only e = true → (∀ s, ISym s ∈ expr_items e → named p s) →
  3 * slen (depends_line K e) + length (toks e) < fuel →
  k_modules K ≠ k_sym_m K →
  ∃ e2 p2 p3,
    tokenize w fuel (depends_line K e) p = Ok (depends_tokens e, p2)
    ∧ p_k p2 = K
    ∧ expect_expr_and_eol (set_p_tokens_i 2 (set_p_tokens (depends_tokens e) p2)) = Ok (e2, p3)
    ∧ p_k p3 = K
    ∧ (∀ τ ρ, value τ ρ e2 = value τ ρ e)
    ∧ (parser_shaped e = true → ISym (k_sym_m K) ∉ expr_items e → e2 = e).
Proof.
  intros K e He Hn Hfuel Hm.
  set (p2 := set_p_line (depends_line K e) p).
  set (p2' := set_p_tokens_i 2 (set_p_tokens (depends_tokens e) p2)).
  exists (with_modules K (regroup e)), p2, (adv (length (toks e)) p2').
  split_and!; [by apply tokenize_depends|done| |done|intros; by apply reread_value|].
  - apply (read_expr e p2'); [done|done|]. cbn. rewrite length_app. lia.
  - intros Hs Hni. by rewrite regroup_shaped, with_modules_id.
Qed.

(** [eval_string] on the text of an expression of the configuration gives the
    value of the expression under the current values of the symbols: what
    [expr_value] gives for the expression itself, with m standing for m && MODULES.
    Neither the configuration nor the user values change. *)
Theorem eval_string_value w fuel K vfuel `{!Loaded K vfuel} p σ e0 :
  let e := with_modules K e0 in
  let text := expr_str (standard_sc_expr_str K) e in
  p_k p = K → session_ok (K := K) σ → k_modules K ≠ k_sym_m K →
  symbols_only e = true → (∀ s, ISym s ∈ expr_items e → named p s) →
  3 * slen text + length (toks e) + 8 < fuel →
  ∃ p' σ', eval_string w fuel vfuel text p σ
      = Ok (value (item_of (K := K) (fuel := vfuel) (uvals σ)) (rel_of (K := K) (fuel := vfuel) (uvals σ)) e, p', σ')
    ∧ p_k p' = K ∧ session_ok (K := K) σ' ∧ uvals σ' = uvals σ.
Proof.
  intros e text Hp Hσ Hm He Hn Hfuel. subst K. unfold eval_string.
  set (p1 := set_p_filename None (set_p_log (log (vals σ)) p)).
  rewrite (tokenize_if w fuel p1 e He Hn Hfuel : tokenize w fuel ("if " +:+ text) p1 = _). cbn [obind].
  set (p2 := set_p_tokens_i 1 _).
  rewrite (read_expr e p2 He ltac:(done)) by (cbn; rewrite length_app; cbn; lia). cbn [obind].
  change (p_k (adv (length (toks e)) p2)) with (p_k p). change (p_k p2) with (p_k p).
  change (p_log (adv (length (toks e)) p2)) with (log (vals σ)).
  replace (set_vals _ σ) with σ by by destruct σ as [? [] ? ? ?].
  destruct (run_expr (fuel := vfuel) σ (with_modules (p_k p) (regroup e)) Hσ) as (σ' & -> & Hσ' & Hu). cbn [obind].
  exists (adv (length (toks e)) p2), σ'. split; [|done]. unfold ev. unfold e at 1. by rewrite reread_value.
Qed.

(** ** The parser of expressions never fails but with a syntax error *)

Section Safe.
(** The tokens of the line before the terminating [None] *)
Variable l : list token.

Definition in_line (p : pstate) : Prop := p_tokens p = l ++ [TNone] ∧ p_tokens_i p ≤ length l.
Definition tokens_left (p : pstate) : nat := length l - p_tokens_i p.

(** A result further along the line ([k] tokens at least), or a Kconfig error *)
Definition along {A} (k : nat) (p : pstate) (o : outcome (A * pstate)) : Prop :=
  match o with
  | Ok (_, p') => in_line p' ∧ p_tokens_i p + k ≤ p_tokens_i p'
  | Raise (KconfigError _) => True
  | _ => False
  end.

Lemma along_error {A} k p p' msg : along (A := A) k p (parse_error msg p').
Proof. done. Qed.

Lemma along_ret {A} (a : A) p : in_line p → along 0 p ((mret a : M A) p).
Proof. intros H. split; [done|]. lia. Qed.

Lemma along_bind {A B} j k (m : M A) (f : A → M B) p :
  along j p (m p) → (∀ a p', m p = Ok (a, p') → in_line p' → p_tokens_i p + j ≤ p_tokens_i p' →
    along (k - j) p' (f a p')) → along k p ((m ≫= f) p).
Proof.
  unfold mbind, M_bind. intros Hm Hf. destruct (m p) as [[a p']|e|]; [|done..]. cbn in Hm |- *.
  destruct Hm as [Hl Hi]. specialize (Hf a p' eq_refl Hl Hi). destruct (f a p') as [[b p'']|[]|]; try done.
  destruct Hf as [? ?]. split; [done|]. lia.
Qed.

(** The token at the position: [None] exactly at the end of the line. *)
Lemma peek_in_line p :
  in_line p → ∃ t, peek p = Ok (t, p) ∧ (t = TNone ∨ p_tokens_i p < length l).
Proof.
  intros [Hl Hi]. destruct (decide (p_tokens_i p = length l)) as [He|].
  - exists TNone. split; [|by left]. apply (peek_at _ _ []). unfold at_tokens.
    by rewrite Hl, He, drop_app_length.
  - destruct (lookup_lt_is_Some_2 l (p_tokens_i p)) as [t Ht]; [lia|]. exists t.
    split; [|right; lia]. apply (peek_at _ _ (drop (S (p_tokens_i p)) (l ++ [TNone]))).
    unfold at_tokens. rewrite Hl. apply drop_S. by rewrite lookup_app_l by lia.
Qed.

Lemma in_line_adv p : in_line p → p_tokens_i p < length l → in_line (adv 1 p).
Proof. intros [Hl Hi] Hlt. split; [done|]. cbn. lia. Qed.

Lemma check_along k p : in_line p → along 0 p (check_token k p).
Proof.
  intros Hp. destruct (peek_in_line p Hp) as (t & Hpk & Ht).
  unfold check_token, mbind, M_bind. rewrite Hpk. cbn [obind]. case_decide as Hk; [|by apply along_ret].
  rewrite advance_adv. split; [|cbn; lia]. apply in_line_adv; [done|]. destruct Ht; [congruence|done].
Qed.

Lemma expect_along p : in_line p → along 1 p (expect_sym p).
Proof.
  intros Hp. destruct (peek_in_line p Hp) as (t & Hpk & Ht).
  unfold expect_sym, next_token, mbind, M_bind. rewrite Hpk. cbn [obind]. rewrite advance_adv.
  destruct t; try apply along_error. split; [|cbn; lia].
  apply in_line_adv; [done|]. by destruct Ht.
Qed.

Definition safe (f : nat → bool → M expr) (c n : nat) : Prop :=
  ∀ b p, in_line p → 3 * tokens_left p + c ≤ n → along 1 p (f n b p).

Lemma parse_safe n :
  safe parse_expr 3 n ∧ safe parse_and_expr 2 n ∧ safe parse_factor 1 n.
Proof.
  induction n as [|n (He & Ha & Hf)].
  { split_and!; intros b p _ Hn; lia. }
  unfold safe, tokens_left in *. split_and!; intros tm p Hp Hn.
  - cbn [parse_expr]. apply along_bind with 1; [apply Ha; [done|lia]|]. intros e p1 _ H1 Hi1.
    apply along_bind with 0; [by apply check_along|]. intros [] p2 _ H2 Hi2; [|by apply along_ret].
    destruct H2 as [? ?]. apply along_bind with 1; [apply He; [done|lia]|]. intros. by apply along_ret.
  - cbn [parse_and_expr]. apply along_bind with 1; [apply Hf; [done|lia]|]. intros e p1 _ H1 Hi1.
    apply along_bind with 0; [by apply check_along|]. intros [] p2 _ H2 Hi2; [|by apply along_ret].
    destruct H2 as [? ?]. apply along_bind with 1; [apply Ha; [done|lia]|]. intros. by apply along_ret.
  - cbn [parse_factor]. destruct (peek_in_line p Hp) as (t & Hpk & Ht).
    assert (Hnext : ∀ f : token → M expr, (next_token ≫= f) p = f t (adv 1 p)).
    { intros f. unfold next_token, mbind, M_bind. rewrite Hpk. cbn [obind]. by rewrite advance_adv. }
    rewrite Hnext.
    assert (Hshift : ∀ o : outcome (expr * pstate), along 0 (adv 1 p) o → along 1 p o).
    { intros [[e p']|[]|]; try done. intros [? Hi]. cbn in Hi. split; [done|]. lia. }
    destruct t as [k|s| |]; try apply along_error; (destruct Ht as [|Ht]; [done|]);
      pose proof (in_line_adv p Hp Ht) as H1; apply Hshift.
    + assert (Hleft : p_tokens_i (adv 1 p) = p_tokens_i p + 1) by done.
      destruct k; try apply along_error.
      all: apply along_bind with 1; [first [apply He|apply Hf]; [done|lia]|]; intros e p2 _ H2 Hi2;
        try by apply along_ret.
      apply along_bind with 0; [by apply check_along|]. intros [] p3 _ H3 _; [by apply along_ret|done].
    + destruct (peek_in_line _ H1) as (t & Hpk1 & Ht1).
      apply along_bind with 0; [rewrite Hpk1; by apply along_ret|]. intros t' p2 Hpk2 H2 _.
      rewrite Hpk1 in Hpk2. injection Hpk2 as <- <-. destruct t as [k| | |]; try by apply along_ret.
      destruct (rel_of_token k); [|by apply along_ret]. destruct Ht1 as [|Ht1]; [done|].
      apply along_bind with 1; [rewrite advance_adv; split; [by apply in_line_adv|cbn; lia]|].
      intros [] p3 _ H3 _. apply along_bind with 1; [by apply expect_along|].
      intros. by apply along_ret.
Qed.
End Safe.

(** C39: on the tokens of a line, which end with [None], the parser of expressions
    always returns, with an expression and a position further along the line, or
    with a KconfigError: it neither loops nor reads past the end of the tokens. *)
Theorem parse_expr_safe l transform_m p :
  p_tokens p = l ++ [TNone] → p_tokens_i p ≤ length l →
  (∃ e p', parse_line_expr transform_m p = Ok (e, p')
     ∧ p_tokens p' = l ++ [TNone] ∧ p_tokens_i p < p_tokens_i p' ≤ length l)
  ∨ ∃ msg, parse_line_expr transform_m p = Raise (KconfigError msg).
Proof.
  intros Hl Hi. unfold parse_line_expr.
  destruct (parse_safe l (3 * length (p_tokens p) + 3)) as [He _].
  specialize (He transform_m p (conj Hl Hi)). unfold tokens_left in He. rewrite Hl, length_app in He.
  rewrite Hl, length_app. cbn [length] in *. specialize (He ltac:(lia)).
  destruct (parse_expr _ _ p) as [[e p']|[]|]; try done; [|by right; eexists].
  destruct He as [[? ?] ?]. left. exists e, p'. split_and!; [done..|lia|done].
Qed.

(** ** At a concrete configuration *)

Definition namedb (p : pstate) (s : nat) : bool :=
  let K := p_k p in
  let name := s_name (sym K s) in
  if s_is_constant (sym K s) then
    negb (has_char "$" name) && bool_decide (dict_get name (k_const_syms K) = Some s)
  else negb (bool_decide (name = "")) && negb (has_char "$" name) && s_all is_name_char name
       && bool_decide (get_keyword name = None) && bool_decide (STR_TO_TRI name = None)
       && bool_decide (dict_get name (k_syms K) = Some s).

Lemma namedb_named p s : namedb p s = true → named p s.
Proof.
  unfold namedb, named, plain. destruct (s_is_constant _);
    rewrite !andb_true_iff, !negb_true_iff, ?bool_decide_eq_true, ?bool_decide_eq_false; tauto.
Qed.

Definition demo_pstate : pstate :=
  Eval vm_compute in
    match demo_state with Ok p => p | _ => initial_pstate (one_file "") "" [] quiet end.

Definition const_named (K : kconfig) (name : string) : nat :=
  default 0 (dict_get name (k_const_syms K)).

(** (A || !B && C) && (m && S != 'a b') *)
Definition demo_expr : expr :=
  EAnd (EOr (ESym dA) (EAnd (ENot (ESym dB)) (ESym dC)))
    (EAnd (ESym (k_sym_m demo)) (ERel UNEQUAL dS (const_named demo "a b"))).

Example demo_expr_text :
  expr_str (standard_sc_expr_str demo) (with_modules demo demo_expr)
  = replace_char sq_c dquote "(A || (!B && C)) && m && MODULES && S != 'a b'".
Proof. vm_compute. reflexivity. Qed.

Lemma demo_expr_named s : ISym s ∈ expr_items (with_modules demo demo_expr) → named demo_pstate s.
Proof.
  intros Hs. apply namedb_named.
  assert (Hall : forallb (λ i, match i with ISym s => namedb demo_pstate s | ICho _ => true end)
                   (elements (expr_items (with_modules demo demo_expr))) = true)
    by (vm_compute; reflexivity).
  rewrite forallb_forall in Hall. apply (Hall (ISym s)), list_elem_of_In, elem_of_elements, Hs.
Qed.

Lemma expression_roundtrip_witness :
  ∃ e2 p2 p3,
    let e := with_modules demo demo_expr in
    tokenize (one_file "") 1000 (depends_line demo e) demo_pstate = Ok (depends_tokens e, p2)
    ∧ p_k p2 = demo
    ∧ expect_expr_and_eol (set_p_tokens_i 2 (set_p_tokens (depends_tokens e) p2)) = Ok (e2, p3)
    ∧ p_k p3 = demo
    ∧ (∀ τ ρ, value τ ρ e2 = value τ ρ e)
    ∧ (parser_shaped e = true → ISym (k_sym_m demo) ∉ expr_items e → e2 = e).
Proof.
  apply (expression_roundtrip (one_file "") 1000 demo_pstate demo_expr).
  - vm_compute. reflexivity.
  - exact demo_expr_named.
  - apply Nat.ltb_lt. vm_compute. reflexivity.
  - vm_compute. lia.
Defined.

Lemma parse_expr_safe_witness :
  let l := [TSymbol dA; TKw T_AND; TKw T_OPEN_PAREN; TSymbol dB] in
  let p := set_p_tokens (l ++ [TNone]) (set_p_tokens_i 0 demo_pstate) in
  (∃ e p', parse_line_expr true p = Ok (e, p') ∧ p_tokens p' = l ++ [TNone] ∧ 0 < p_tokens_i p' ≤ 4)
  ∨ ∃ msg, parse_line_expr true p = Raise (KconfigError msg).
Proof.
  intros l p. apply (parse_expr_safe l true p); [reflexivity|cbn; lia].
Defined.

(** B is set to y. *)
Definition eval_session : session := Demo.after [SetValue dB (UStr "y")].

Lemma eval_string_value_witness :
  let e := with_modules demo demo_expr in
  let text := expr_str (standard_sc_expr_str demo) e in
  ∃ p' σ', eval_string (one_file "") 1000 demo_fuel text demo_pstate eval_session = Ok (0%Z, p', σ')
    ∧ p_k p' = demo ∧ session_ok (K := demo) σ' ∧ uvals σ' = uvals eval_session.
Proof.
  intros e text.
  assert (value (item_of (K := demo) (fuel := demo_fuel) (uvals eval_session))
            (rel_of (K := demo) (fuel := demo_fuel) (uvals eval_session)) e = 0%Z) as <- by (vm_compute; reflexivity).
  apply (eval_string_value (one_file "") 1000 demo demo_fuel demo_pstate eval_session demo_expr).
  - vm_compute. reflexivity.
  - apply after_ok.
  - vm_compute. lia.
  - vm_compute. reflexivity.
  - exact demo_expr_named.
  - apply Nat.ltb_lt. vm_compute. reflexivity.
Defined.

(** Values of texts on the demo configuration, and the warning about an unknown name. *)
Example eval_string_demo :
  let run s := match eval_string (one_file "") 100 demo_fuel s demo_pstate eval_session with
               | Ok (v, _, σ) => Some (v, warnings (log (vals σ))) | _ => None end in
  run "A && B" = Some (1%Z, []) ∧ run "m" = Some (1%Z, []) ∧ run "!B || D" = Some (1%Z, []) ∧
  run "A > UNKNOWN" = Some (2%Z, ["warning: no symbol UNKNOWN in configuration"]) ∧ run "A &&" = None.
Proof. cbv zeta. split_and!; vm_compute; reflexivity. Qed.
