(* ===== verification/LoopRules.v ===== *)
(** * What dependency loop detection promises

    The search of DepLoop.v: what it reports is a loop, what it accepts has none
    along the dependencies of symbols, and its depth is bounded. *)

From S2P Require Import Prelude PyStr PyText Kconst Expr Incr Objects Printing DepLoop Check Deps Demo.
From stdpp Require Import options.

Section Loops.
Variable K : kconfig.

(** ** Loops *)

(** The edges that the search follows: from a symbol to its dependents and its
    choice, from a choice to its symbols. *)
Inductive edge : item → item → Prop :=
  | edge_dep s d : d ∈ dependents K (ISym s) → edge (ISym s) d
  | edge_choice s c : s_choice (sym K s) = Some c → edge (ISym s) (ICho c)
  | edge_sym c s : s ∈ c_syms (cho K c) → edge (ICho c) (ISym s).

(** Each item of the list has an edge to the one before it. *)
Fixpoint back_path (i : item) (l : list item) : Prop :=
  match l with [] => True | j :: l => edge j i ∧ back_path j l end.

Definition last_item (i : item) (l : list item) : item := default i (last l).

(** A closed loop: a path back from its first item that the first item closes. *)
Definition closed_loop (loop : list item) : Prop :=
  match loop with
  | [] => False
  | i :: l => back_path i l ∧ edge i (last_item i l)
  end.

Lemma last_item_cons i k l : last_item i (k :: l) = last_item k l.
Proof. unfold last_item. rewrite last_cons. by destruct (last l). Qed.

Lemma back_path_snoc i l j : back_path i l → edge j (last_item i l) → back_path i (l ++ [j]).
Proof.
  revert i. induction l as [|k l IH]; intros i; cbn; [done|]. intros [? Hl] Hj. split; [done|].
  apply IH; [done|]. by rewrite last_item_cons in Hj.
Qed.

Lemma last_item_snoc i l j : last_item i (l ++ [j]) = j.
Proof. unfold last_item. by rewrite last_snoc. Qed.

(** ** The marks *)

Abbreviation marks := (gmap item nat).

Definition on_stack (V : marks) (i : item) : Prop := mark_of V i = 1.
Definition done_with (V : marks) (i : item) : Prop := 2 ≤ mark_of V i.

Lemma mark_insert V i j m : mark_of (<[i := m]> V) j = if decide (i = j) then m else mark_of V j.
Proof. unfold mark_of. rewrite lookup_insert. by case_decide. Qed.

(** Finished items can be ranked so that the dependents of a symbol, and all symbols
    of a choice but the one that the search came from, are ranked lower. *)
Definition ranked (visited : item → Prop) (rank : item → nat) : Prop :=
  (∀ s d, visited (ISym s) → d ∈ dependents K (ISym s) → visited d ∧ rank d < rank (ISym s))
  ∧ (∀ c, visited (ICho c) → ∃ skip, ∀ s, s ∈ c_syms (cho K c) → Some s ≠ skip →
      visited (ISym s) ∧ rank (ISym s) < rank (ICho c)).

Definition ordered (V : marks) : Prop :=
  ∃ rank n, (∀ i, done_with V i → rank i < n) ∧ ranked (done_with V) rank.

(** What a search that finds no loop does to the marks. *)
Record extends (V V' : marks) : Prop := {
  ext_stack i : on_stack V' i ↔ on_stack V i;
  ext_done i : done_with V i → done_with V' i;
  ext_ordered : ordered V → ordered V'
}.

Lemma extends_refl V : extends V V.
Proof. split; naive_solver. Qed.

Lemma extends_trans V1 V2 V3 : extends V1 V2 → extends V2 V3 → extends V1 V3.
Proof. intros [S1 D1 O1] [S2 D2 O2]. split; [intros i; by rewrite S2, S1|auto..]. Qed.

(** Putting an item on the stack *)
Lemma push_stack V i j : on_stack (<[i := 1]> V) j ↔ i = j ∨ on_stack V j.
Proof. unfold on_stack. rewrite mark_insert. case_decide; naive_solver. Qed.

Lemma push_done V i j : mark_of V i = 0 → done_with (<[i := 1]> V) j ↔ done_with V j.
Proof. intros H0. unfold done_with. rewrite mark_insert. case_decide; [subst; lia|done]. Qed.

Lemma ordered_ext V V' : (∀ i, done_with V i ↔ done_with V' i) → ordered V → ordered V'.
Proof.
  intros H (rank & n & Hn & Hs & Hc). exists rank, n. split; [|split].
  - intros i ?%H. auto.
  - intros s d ?%H ?. rewrite <- H. auto.
  - intros c ?%H. destruct (Hc c) as [skip Hskip]; [done|]. exists skip. intros s. rewrite <- H. auto.
Qed.

(** Finishing an item whose successors are finished *)
Lemma finish V V1 i :
  mark_of V i = 0 → extends (<[i := 1]> V) V1 →
  match i with
  | ISym s => ∀ d, d ∈ dependents K i → done_with V1 d
  | ICho c => ∃ skip, ∀ s, s ∈ c_syms (cho K c) → Some s ≠ skip → done_with V1 (ISym s)
  end →
  extends V (<[i := 2]> V1) ∧ done_with (<[i := 2]> V1) i.
Proof.
  intros H0 [Hs Hd Ho] Hsucc.
  assert (H1 : on_stack V1 i) by (apply Hs, push_stack; by left).
  assert (Hdone : ∀ j, done_with (<[i := 2]> V1) j ↔ i = j ∨ done_with V1 j).
  { intros j. unfold done_with. rewrite mark_insert. case_decide; [subst|]; naive_solver lia. }
  assert (Hni : ¬ done_with V1 i) by (unfold done_with, on_stack in *; lia).
  split; [|by apply Hdone; left]. split.
  - intros j. unfold on_stack at 1. rewrite mark_insert. case_decide as Hj.
    + subst. unfold on_stack. lia.
    + change (on_stack V1 j ↔ on_stack V j). rewrite Hs, push_stack. naive_solver.
  - intros j Hj. apply Hdone. right. apply Hd. by apply push_done.
  - intros Hord. destruct Ho as (rank & n & Hn & Hrs & Hrc).
    { eapply ordered_ext, Hord. intros j. by rewrite push_done. }
    assert (Hne : ∀ j, done_with V1 j → i ≠ j) by (intros j Hj ->; done).
    exists (λ j, if decide (i = j) then n else rank j), (S n). split; [|split].
    + intros j [->|Hj]%Hdone; [rewrite decide_True; [lia|done]|].
      rewrite decide_False by auto. specialize (Hn j Hj). lia.
    + intros s d [Hi|Hj]%Hdone Hdep.
      * subst i. specialize (Hsucc d Hdep). split; [by apply Hdone; right|].
        rewrite decide_False, decide_True by auto. auto.
      * destruct (Hrs s d Hj Hdep) as [Hd' ?]. split; [by apply Hdone; right|].
        by rewrite !decide_False by auto.
    + intros c [Hi|Hj]%Hdone.
      * subst i. destruct Hsucc as [skip Hsk]. exists skip. intros s Hin Hne'.
        specialize (Hsk s Hin Hne'). split; [by apply Hdone; right|].
        rewrite decide_False, decide_True by auto. auto.
      * destruct (Hrc c Hj) as [skip Hsk]. exists skip. intros s Hin Hne'.
        destruct (Hsk s Hin Hne') as [Hd' ?]. split; [by apply Hdone; right|].
        by rewrite !decide_False by auto.
Qed.

(** ** The search *)

(** The outcome of a search: no loop and the marks extended, with [Q] of them; a path
    back from an item of the stack to an item with [P]; or the report of a loop. *)
Definition searched (V : marks) (P : item → Prop) (Q : marks → Prop)
    (o : outcome (option (list item) * marks)) : Prop :=
  match o with
  | Ok (None, V') => extends V V' ∧ Q V'
  | Ok (Some [], _) => False
  | Ok (Some (f :: l), _) => on_stack V f ∧ back_path f l ∧ P (last_item f l)
  | Raise e => ∃ f l, e = KconfigError (dep_loop_message K (f :: l) f) ∧ closed_loop (f :: l)
  | NoFuel => True
  end.

(** Going back to an item that was put on the stack *)
Lemma back_up V i f l V' Q :
  on_stack (<[i := 1]> V) f → back_path f l → edge i (last_item f l) →
  searched V (eq i) Q (let! loop := found_dep_loop K (f :: l) i in Ok (Some loop, V')).
Proof.
  intros Hf Hb Hl. unfold found_dep_loop. case_decide as Hi; cbn.
  - subst f. by exists i, l.
  - apply push_stack in Hf as [?|Hf]; [congruence|]. split; [done|].
    split; [by apply back_path_snoc|]. by rewrite last_item_snoc.
Qed.

Definition sym_searched (n : nat) : Prop := ∀ s ign V,
  searched V (eq (ISym s)) (λ V', done_with V' (ISym s)) (check_dep_loop_sym K n s ign V).
Definition deps_searched (n : nat) : Prop := ∀ deps V,
  searched V (λ i, i ∈ deps) (λ V', ∀ d, d ∈ deps → done_with V' d) (check_dependents K n deps V).
Definition choice_searched (n : nat) : Prop := ∀ c skip V,
  searched V (eq (ICho c)) (λ V', done_with V' (ICho c)) (check_dep_loop_choice K n c skip V).
Definition syms_searched (n : nat) : Prop := ∀ skip syms V,
  searched V (λ i, ∃ s, s ∈ syms ∧ i = ISym s)
    (λ V', ∀ s, s ∈ syms → Some s ≠ skip → done_with V' (ISym s))
    (check_choice_syms K n skip syms V).

Lemma searched_marked V i (o : outcome (option (list item) * marks)) :
  (mark_of V i = 0 → searched V (eq i) (λ V', done_with V' i) o) →
  searched V (eq i) (λ V', done_with V' i)
    (match mark_of V i with 0 => o | 1 => Ok (Some [i], V) | _ => Ok (None, V) end).
Proof.
  intros H. destruct (mark_of V i) as [|[|m]] eqn:Hm; [by apply H|by split|].
  split; [apply extends_refl|]. unfold done_with. lia.
Qed.

Lemma sym_step n : deps_searched n → choice_searched n → sym_searched (S n).
Proof.
  intros Hd Hc s ign V. cbn [check_dep_loop_sym]. apply searched_marked. intros H0.
  pose proof (Hd (dependents K (ISym s)) (<[ISym s := 1]> V)) as H.
  destruct (check_dependents _ _ _ _) as [[[[|f l]|] V1]|e|]; cbn [obind]; try done.
  { destruct H as (Hf & Hb & Hl). apply back_up; [done..|]. by apply edge_dep. }
  destruct H as [Hext Hdone].
  destruct (s_choice (sym K s)) as [c|] eqn:Hch; [destruct ign|]; cbn [obind]; [by apply finish| |by apply finish].
  pose proof (Hc c (Some s) V1) as H. destruct (check_dep_loop_choice _ _ _ _ _) as [[[[|f l]|] V2]|e|];
    cbn [obind]; try done.
  - destruct H as (Hf & Hb & Hl). apply back_up; [by apply Hext|done|]. rewrite <- Hl. by apply edge_choice.
  - destruct H as [Hext' _]. apply finish; [done|by eapply extends_trans|]. intros d Hin.
    by apply Hext', Hdone.
Qed.

Lemma deps_step n : deps_searched n → sym_searched n → choice_searched n → deps_searched (S n).
Proof.
  intros Hd Hs Hc deps V. cbn [check_dependents]. destruct deps as [|d deps].
  { split; [apply extends_refl|]. intros d Hin. by apply not_elem_of_nil in Hin. }
  assert (H : searched V (eq d) (λ V', done_with V' d)
    (match d with ICho c => check_dep_loop_choice K n c None V | ISym s => check_dep_loop_sym K n s false V end))
    by (destruct d; auto).
  destruct (match d with ICho _ => _ | ISym _ => _ end) as [[[[|f l]|] V1]|e|]; cbn [obind]; try done.
  - destruct H as (Hf & Hb & Hl). split; [done|]. split; [done|]. rewrite <- Hl. by left.
  - destruct H as [Hext Hdone]. pose proof (Hd deps V1) as H.
    destruct (check_dependents _ _ _ _) as [[[[|f l]|] V2]|e|]; try done.
    + destruct H as (Hf & Hb & Hl). split; [by apply Hext|]. split; [done|]. by right.
    + destruct H as [Hext' Hdone']. split; [by eapply extends_trans|].
      intros d' [->|Hin]%elem_of_cons; [by apply Hext'|auto].
Qed.

Lemma choice_step n : syms_searched n → choice_searched (S n).
Proof.
  intros Hs c skip V. cbn [check_dep_loop_choice]. apply searched_marked. intros H0.
  pose proof (Hs skip (c_syms (cho K c)) (<[ICho c := 1]> V)) as H.
  destruct (check_choice_syms _ _ _ _ _) as [[[[|f l]|] V1]|e|]; cbn [obind]; try done.
  - destruct H as (Hf & Hb & s & Hin & Hl). apply back_up; [done..|]. rewrite Hl. by apply edge_sym.
  - destruct H as [Hext Hdone]. apply finish; [done..|]. by exists skip.
Qed.

Lemma syms_step n : syms_searched n → sym_searched n → syms_searched (S n).
Proof.
  intros Hss Hs skip syms V. cbn [check_choice_syms]. destruct syms as [|s syms].
  { split; [apply extends_refl|]. intros s Hin. by apply not_elem_of_nil in Hin. }
  assert (Hrest : ∀ V1, extends V V1 → (Some s ≠ skip → done_with V1 (ISym s)) →
    searched V (λ i, ∃ s', s' ∈ s :: syms ∧ i = ISym s')
      (λ V', ∀ s', s' ∈ s :: syms → Some s' ≠ skip → done_with V' (ISym s'))
      (check_choice_syms K n skip syms V1)).
  { intros V1 Hext Hdone. pose proof (Hss skip syms V1) as H.
    destruct (check_choice_syms _ _ _ _ _) as [[[[|f l]|] V2]|e|]; try done.
    - destruct H as (Hf & Hb & s' & Hin & Hl). split; [by apply Hext|]. split; [done|].
      exists s'. split; [by right|done].
    - destruct H as [Hext' Hdone']. split; [by eapply extends_trans|].
      intros s' [->|Hin]%elem_of_cons; [|auto]. intros. by apply Hext', Hdone. }
  case_decide as Hsk; [apply Hrest; [apply extends_refl|done]|].
  pose proof (Hs s true V) as H.
  destruct (check_dep_loop_sym _ _ _ _ _) as [[[[|f l]|] V1]|e|]; cbn [obind]; try done.
  - destruct H as (Hf & Hb & Hl). split; [done|]. split; [done|]. exists s. split; [by left|done].
  - destruct H as [Hext Hdone]. by apply Hrest.
Qed.

Lemma all_searched n :
  sym_searched n ∧ deps_searched n ∧ choice_searched n ∧ syms_searched n.
Proof.
  induction n as [|n (? & ? & ? & ?)]; [done|].
  split_and!; [by apply sym_step|by apply deps_step|by apply choice_step|by apply syms_step].
Qed.

Lemma loops_searched n syms V :
  (∀ i, ¬ on_stack V i) →
  match check_dep_loops K n syms V with
  | Ok V' => extends V V' ∧ ∀ s, s ∈ syms → done_with V' (ISym s)
  | Raise e => ∃ f l, e = KconfigError (dep_loop_message K (f :: l) f) ∧ closed_loop (f :: l)
  | NoFuel => True
  end.
Proof.
  revert V. induction syms as [|s syms IH]; intros V HV.
  { split; [apply extends_refl|]. intros s Hin. by apply not_elem_of_nil in Hin. }
  cbn [check_dep_loops]. pose proof (proj1 (all_searched n) s false V) as H.
  destruct (check_dep_loop_sym _ _ _ _ _) as [[[[|f l]|] V1]|e|]; cbn [obind]; try done.
  - destruct H as (Hf & _). by destruct (HV f).
  - destruct H as [Hext Hdone]. specialize (IH V1).
    destruct (check_dep_loops K n syms V1) as [V2|e|]; try (apply IH; intros i ?%Hext; by eapply HV).
    destruct IH as [Hext' Hdone']; [intros i ?%Hext; by eapply HV|].
    split; [by eapply extends_trans|]. intros s' [->|Hin]%elem_of_cons; [by apply Hext'|auto].
Qed.

(** ** Its depth *)

Section Depth.
(** A finite set of items that the edges do not leave, and the length of the
    longest list of successors *)
Variables (U : gset item) (L : nat).
Hypothesis U_closed : ∀ i j, i ∈ U → edge i j → j ∈ U.
Hypothesis L_deps : ∀ i, length (dependents K i) ≤ L.
Hypothesis L_syms : ∀ c, length (c_syms (cho K c)) ≤ L.

Definition unmarked (V : marks) : nat := size (filter (λ i, mark_of V i = 0) U).
Definition need (V : marks) : nat := (unmarked V + 1) * (L + 3).

Lemma unmarked_ext V V' : extends V V' → unmarked V' ≤ unmarked V.
Proof.
  intros [Hs Hd _]. unfold unmarked. apply subseteq_size. intros i. rewrite !elem_of_filter. intros [H0 Hi].
  split; [|done]. specialize (Hs i). specialize (Hd i). unfold on_stack, done_with in *.
  destruct (mark_of V i) as [|[|m]] eqn:Hm; [done| |lia]. destruct Hs as [_ Hs]. specialize (Hs eq_refl). lia.
Qed.

Lemma unmarked_push V i : i ∈ U → mark_of V i = 0 → unmarked (<[i := 1]> V) < unmarked V.
Proof.
  intros Hi H0. unfold unmarked. apply subset_size. split.
  - intros j. rewrite !elem_of_filter, mark_insert. case_decide; [|done]. by intros [? _].
  - intros Hsub. specialize (Hsub i). rewrite !elem_of_filter, mark_insert, decide_True in Hsub by done.
    by destruct Hsub.
Qed.

Lemma need_ext V V' : extends V V' → need V' ≤ need V.
Proof. intros H%unmarked_ext. unfold need. nia. Qed.

Lemma need_push V i : i ∈ U → mark_of V i = 0 → need (<[i := 1]> V) + (L + 3) ≤ need V.
Proof. intros Hi H0. pose proof (unmarked_push V i Hi H0). unfold need. nia. Qed.

Definition returns {A} (o : outcome A) : Prop := o ≠ NoFuel.

Lemma depth n :
  (∀ s ign V, ISym s ∈ U → need V ≤ n → returns (check_dep_loop_sym K n s ign V))
  ∧ (∀ deps V, (∀ d, d ∈ deps → d ∈ U) → need V + 1 + length deps ≤ n →
       returns (check_dependents K n deps V))
  ∧ (∀ c skip V, ICho c ∈ U → need V ≤ n → returns (check_dep_loop_choice K n c skip V))
  ∧ (∀ skip syms V, (∀ s, s ∈ syms → ISym s ∈ U) → need V + 1 + length syms ≤ n →
       returns (check_choice_syms K n skip syms V)).
Proof using All.
  assert (Hpos : ∀ V, 0 < need V) by (intros V; unfold need; lia).
  induction n as [|n (IHs & IHd & IHc & IHy)].
  { split_and!; intros; specialize (Hpos V); lia. }
  destruct (all_searched n) as (Ss & Sd & Sc & Sy). split_and!.
  - intros s ign V Hs Hn. cbn [check_dep_loop_sym].
    destruct (mark_of V (ISym s)) as [|[|m]] eqn:H0; try done.
    pose proof (need_push V _ Hs H0) as Hp. pose proof (L_deps (ISym s)).
    assert (Hdeps : ∀ d, d ∈ dependents K (ISym s) → d ∈ U) by (intros d ?; by eapply U_closed, edge_dep).
    pose proof (Sd (dependents K (ISym s)) (<[ISym s := 1]> V)) as Hd.
    pose proof (IHd (dependents K (ISym s)) (<[ISym s := 1]> V) Hdeps ltac:(lia)) as Hr.
    destruct (check_dependents _ _ _ _) as [[[[|f l]|] V1]|e|]; cbn [obind]; try done.
    { by destruct (found_dep_loop _ _ _) eqn:Hf; [..|unfold found_dep_loop in Hf; case_all]. }
    destruct Hd as [Hext _]. pose proof (need_ext _ _ Hext).
    destruct (s_choice (sym K s)) as [c|] eqn:Hch; [destruct ign|]; cbn [obind]; [done| |done].
    assert (Hc : ICho c ∈ U) by by eapply U_closed, edge_choice.
    pose proof (IHc c (Some s) V1 Hc ltac:(lia)) as Hr2.
    destruct (check_dep_loop_choice _ _ _ _ _) as [[[l|] V2]|e|]; cbn [obind]; try done.
    by destruct (found_dep_loop _ _ _) eqn:Hf; [..|unfold found_dep_loop in Hf; case_all].
  - intros deps V Hdeps Hn. cbn [check_dependents]. destruct deps as [|d deps]; [done|].
    cbn [length] in Hn.
    assert (Hd : returns match d with ICho c => check_dep_loop_choice K n c None V
                         | ISym s => check_dep_loop_sym K n s false V end).
    { assert (d ∈ U) by (apply Hdeps; by left). destruct d; [apply IHs|apply IHc]; try done; lia. }
    assert (Se : searched V (eq d) (λ V', done_with V' d)
      (match d with ICho c => check_dep_loop_choice K n c None V | ISym s => check_dep_loop_sym K n s false V end))
      by (destruct d; auto).
    destruct (match d with ICho _ => _ | ISym _ => _ end) as [[[l|] V1]|e|]; cbn [obind]; try done.
    destruct Se as [Hext _]. pose proof (need_ext _ _ Hext). apply IHd; [|lia].
    intros d' ?. apply Hdeps. by right.
  - intros c skip V Hc Hn. cbn [check_dep_loop_choice].
    destruct (mark_of V (ICho c)) as [|[|m]] eqn:H0; try done.
    pose proof (need_push V _ Hc H0) as Hp. pose proof (L_syms c).
    assert (Hsyms : ∀ s, s ∈ c_syms (cho K c) → ISym s ∈ U) by (intros s ?; by eapply U_closed, edge_sym).
    pose proof (IHy skip (c_syms (cho K c)) (<[ICho c := 1]> V) Hsyms ltac:(lia)) as Hr.
    destruct (check_choice_syms _ _ _ _ _) as [[[l|] V1]|e|]; cbn [obind]; try done.
    by destruct (found_dep_loop _ _ _) eqn:Hf; [..|unfold found_dep_loop in Hf; case_all].
  - intros skip syms V Hsyms Hn. cbn [check_choice_syms]. destruct syms as [|s syms]; [done|].
    cbn [length] in Hn.
    assert (Hrest : ∀ V1, need V1 ≤ need V → returns (check_choice_syms K n skip syms V1)).
    { intros V1 H1. apply IHy; [|lia]. intros s' ?. apply Hsyms. by right. }
    case_decide; [by apply Hrest|]. pose proof (Ss s true V) as Se.
    pose proof (IHs s true V ltac:(apply Hsyms; by left) ltac:(lia)) as Hr.
    destruct (check_dep_loop_sym _ _ _ _ _) as [[[l|] V1]|e|]; cbn [obind]; try done.
    destruct Se as [Hext _]. by apply Hrest, need_ext.
Qed.

Lemma loops_return n syms V :
  (∀ i, ¬ on_stack V i) → (∀ s, s ∈ syms → ISym s ∈ U) → need V ≤ n →
  returns (check_dep_loops K n syms V).
Proof using All.
  revert V. induction syms as [|s syms IH]; intros V HV Hs Hn; [done|]. cbn [check_dep_loops].
  pose proof (proj1 (all_searched n) s false V) as Se.
  pose proof (proj1 (depth n) s false V ltac:(apply Hs; by left) Hn) as Hr.
  destruct (check_dep_loop_sym _ _ _ _ _) as [[[[|f l]|] V1]|e|]; cbn [obind]; try done.
  - destruct Se as (Hf & _). by destruct (HV f).
  - destruct Se as [Hext _]. pose proof (need_ext _ _ Hext).
    apply IH; [intros i ?%Hext; by eapply HV| |lia]. intros s' ?. apply Hs. by right.
Qed.

Lemma need_empty : need ∅ = (size U + 1) * (L + 3).
Proof.
  unfold need, unmarked. do 3 f_equal. apply leibniz_equiv. intros i. rewrite elem_of_filter.
  split; [by intros [_ ?]|]. by split.
Qed.
End Depth.
End Loops.

(** C40: the loop check of the loader, on the dependents that [_build_dep] and
    [_add_choice_deps] have computed.  A KconfigError shows a list of items that is a
    loop: each depends on the one before it, and the first on the last.  If there is
    no error, every symbol was visited, and no loop runs along the dependencies
    of symbols: the visited items have ranks that decrease from a symbol to all its
    dependents, and from a choice to all its symbols but the one it was reached from.
    The recursion is at most as deep as the number of items times the longest list
    of dependents, so that the check returns. *)
Theorem loop_check_spec K (U : gset item) L fuel syms :
  (∀ i j, i ∈ U → edge K i j → j ∈ U) →
  (∀ i, length (dependents K i) ≤ L) → (∀ c, length (c_syms (cho K c)) ≤ L) →
  (∀ s, s ∈ syms → ISym s ∈ U) →
  match check_dep_loops K fuel syms ∅ with
  | Ok V => (∀ s, s ∈ syms → done_with V (ISym s)) ∧ ∃ rank, ranked K (done_with V) rank
  | Raise e => ∃ f l, e = KconfigError (dep_loop_message K (f :: l) f) ∧ closed_loop K (f :: l)
  | NoFuel => fuel < (size U + 1) * (L + 3)
  end.
Proof.
  intros HU Hd Hc Hs.
  assert (H0 : ∀ i, mark_of ∅ i = 0) by (intros i; unfold mark_of; by rewrite lookup_empty).
  assert (HV : ∀ i, ¬ on_stack ∅ i) by (intros i; unfold on_stack; by rewrite H0).
  pose proof (loops_searched K fuel syms ∅ HV) as H.
  destruct (check_dep_loops K fuel syms ∅) as [V|e|] eqn:Hr; [|done|].
  - destruct H as [[_ _ Hord] Hdone]. split; [done|].
    destruct Hord as (rank & n & _ & Hrank); [|by exists rank].
    exists (λ _, 0), 1. unfold done_with. split; [|split]; intros; rewrite H0 in *; lia.
  - destruct (decide (fuel < (size U + 1) * (L + 3))) as [|Hge]; [done|].
    destruct (loops_return K U L HU Hd Hc fuel syms ∅ HV Hs); [rewrite need_empty; lia|done].
Qed.

(** ** At a concrete configuration *)

Definition demo_items : gset item := Eval vm_compute in list_to_set (stored_items demo).

Definition successors (K : kconfig) (i : item) : list item :=
  match i with
  | ISym s => dependents K i ++ match s_choice (sym K s) with Some c => [ICho c] | None => [] end
  | ICho c => ISym <$> c_syms (cho K c)
  end.

Lemma edge_successors K i j : edge K i j → j ∈ successors K i.
Proof.
  intros [s d Hd|s c Hc|c s Hs]; cbn [successors].
  - apply elem_of_app. by left.
  - apply elem_of_app. right. rewrite Hc. by left.
  - by apply list_elem_of_fmap_2.
Qed.

Lemma items_checked (P : item → bool) :
  forallb P (stored_items demo) = true → ∀ i, stored demo i = true → P i = true.
Proof. intros H i Hi%stored_items_spec. rewrite forallb_forall in H. by apply H, list_elem_of_In. Qed.

Definition demo_longest : nat := 20.

Lemma demo_lists i : length (successors demo i) ≤ demo_longest.
Proof.
  destruct (stored demo i) eqn:Hs.
  - assert (H : forallb (λ i, length (successors demo i) <=? demo_longest) (stored_items demo) = true)
      by (vm_compute; reflexivity).
    apply Nat.leb_le. by apply (items_checked _ H).
  - destruct i as [s|c]; cbn [successors]; [apply not_stored_sym in Hs|apply not_stored_cho in Hs];
      unfold dependents; rewrite Hs; cbn; unfold demo_longest; lia.
Qed.

Lemma demo_closed i j : i ∈ demo_items → edge demo i j → j ∈ demo_items.
Proof.
  intros Hi Hj%edge_successors.
  assert (H : forallb (λ i, forallb (λ j, bool_decide (j ∈ demo_items)) (successors demo i))
                (elements demo_items) = true) by (vm_compute; reflexivity).
  rewrite forallb_forall in H. specialize (H i). rewrite forallb_forall in H.
  apply (bool_decide_eq_true_1 _ (H (proj1 (list_elem_of_In _ _) (proj2 (elem_of_elements _ _) Hi)) j
    (proj1 (list_elem_of_In _ _) Hj))).
Qed.

Lemma loop_check_spec_witness :
  match check_dep_loops demo 2000 (k_unique_defined_syms demo) ∅ with
  | Ok V => (∀ s, s ∈ k_unique_defined_syms demo → done_with V (ISym s)) ∧ ∃ rank, ranked demo (done_with V) rank
  | Raise e => ∃ f l, e = KconfigError (dep_loop_message demo (f :: l) f) ∧ closed_loop demo (f :: l)
  | NoFuel => 2000 < (size demo_items + 1) * (demo_longest + 3)
  end.
Proof.
  apply (loop_check_spec demo demo_items demo_longest 2000 (k_unique_defined_syms demo)).
  - apply demo_closed.
  - intros [s|c].
    + pose proof (demo_lists (ISym s)) as H. cbn [successors] in H. rewrite length_app in H. lia.
    + destruct (stored demo (ICho c)) eqn:Hs.
      * assert (H : forallb (λ i, length (dependents demo i) <=? demo_longest) (stored_items demo) = true)
          by (vm_compute; reflexivity).
        apply Nat.leb_le. exact (items_checked _ H _ Hs).
      * destruct (not_stored_nodes _ _ Hs) as [_ Hd]. rewrite Hd. cbn. lia.
  - intros c. pose proof (demo_lists (ICho c)) as H. cbn [successors] in H. by rewrite length_fmap in H.
  - intros s Hs.
    assert (H : forallb (λ s, bool_decide (ISym s ∈ demo_items)) (k_unique_defined_syms demo) = true)
      by (vm_compute; reflexivity).
    rewrite forallb_forall in H.
    apply (bool_decide_eq_true_1 _ (H s (proj1 (list_elem_of_In _ _) Hs))).
Defined.
