(* ===== verification/GuiTree.v ===== *)
(** * The Treeview of the graphical interface: guiconfig

    What guiconfig.py uses of ttk's Treeview: the tree of items with its commands
    ([move], [detach], [set_children], [children], [parent], [next], [prev]), the
    options of an item, selection and focus, and the class bindings of the widget
    that open, close and walk items.

    An item is the node it stands for (the code uses [id(node)]); [None] is the
    empty string, the root of the tree and the answer of a query without result.
    Where things are on the screen is a parameter, [display]. *)

From S2P Require Import Prelude PyStr PyText.
From stdpp Require Import options.

(** An item is attached if it has an entry in [t_parent].  [t_first] is the row at
    the top; [t_event] tells that a [<<TreeviewSelect>>] event is in the queue. *)
Record treeview : Type := Tree {
  t_parent : gmap nat (option nat);
  t_children : gmap (option nat) (list nat);
  t_open : gset nat;
  t_text : gmap nat string;
  t_tags : gmap nat (list string);
  t_selected : gset nat;
  t_focus : option nat;
  t_first : Z;
  t_event : bool
}.

Definition empty_tree : treeview := Tree ∅ ∅ ∅ ∅ ∅ ∅ None 0 false.

Definition set_t_links (parent : gmap nat (option nat)) (children : gmap (option nat) (list nat)) (t : treeview) : treeview :=
  Tree parent children (t_open t) (t_text t) (t_tags t) (t_selected t) (t_focus t) (t_first t) (t_event t).
Definition set_t_open (x : gset nat) (t : treeview) : treeview :=
  Tree (t_parent t) (t_children t) x (t_text t) (t_tags t) (t_selected t) (t_focus t) (t_first t) (t_event t).
Definition set_t_item (text : gmap nat string) (tags : gmap nat (list string)) (t : treeview) : treeview :=
  Tree (t_parent t) (t_children t) (t_open t) text tags (t_selected t) (t_focus t) (t_first t) (t_event t).
Definition set_t_selected (x : gset nat) (t : treeview) : treeview :=
  Tree (t_parent t) (t_children t) (t_open t) (t_text t) (t_tags t) x (t_focus t) (t_first t) true.
Definition set_t_focus (x : option nat) (t : treeview) : treeview :=
  Tree (t_parent t) (t_children t) (t_open t) (t_text t) (t_tags t) (t_selected t) x (t_first t) (t_event t).
Definition set_t_first (x : Z) (t : treeview) : treeview :=
  Tree (t_parent t) (t_children t) (t_open t) (t_text t) (t_tags t) (t_selected t) (t_focus t) x (t_event t).
Definition set_t_event (x : bool) (t : treeview) : treeview :=
  Tree (t_parent t) (t_children t) (t_open t) (t_text t) (t_tags t) (t_selected t) (t_focus t) (t_first t) x.

(** ** The links between items *)

Definition children (p : option nat) (t : treeview) : list nat := default [] (t_children t !! p).
(** [parent], which is empty for a detached item too *)
Definition parent (n : nat) (t : treeview) : option nat := default None (t_parent t !! n).
Definition attached (n : nat) (t : treeview) : Prop := is_Some (t_parent t !! n).

(** The element of a list before and after another one. *)
Fixpoint after (n : nat) (l : list nat) : option nat :=
  match l with
  | [] => None
  | x :: l => if decide (x = n) then head l else after n l
  end.
Definition before (n : nat) (l : list nat) : option nat := after n (reverse l).

Definition next (n : nat) (t : treeview) : option nat :=
  match t_parent t !! n with Some p => after n (children p t) | None => None end.
Definition prev (n : nat) (t : treeview) : option nat :=
  match t_parent t !! n with Some p => before n (children p t) | None => None end.

Definition unlink (n : nat) (t : treeview) : treeview :=
  match t_parent t !! n with
  | Some p =>
      set_t_links (delete n (t_parent t)) (<[p := filter (λ m, m ≠ n) (children p t)]> (t_children t)) t
  | None => t
  end.

(** [detach]: the items keep their children. *)
Definition detach (l : list nat) (t : treeview) : treeview := foldl (λ t n, unlink n t) t l.

Definition link_last (n : nat) (p : option nat) (t : treeview) : treeview :=
  set_t_links (<[n := p]> (t_parent t)) (<[p := children p t ++ [n]]> (t_children t)) t.

(** Whether [n] is [p] or an ancestor of it. *)
Fixpoint is_ancestor (f : nat) (n : nat) (p : option nat) (t : treeview) : bool :=
  match f, p with
  | S f, Some p => Nat.eqb p n || is_ancestor f n (parent p t) t
  | _, _ => false
  end.
Definition n_links (t : treeview) : nat := S (size (t_parent t)).

(** [move(n, p, "end")] *)
Definition move (n : nat) (p : option nat) (t : treeview) : outcome treeview :=
  if is_ancestor (n_links t) n p t then Raise TclError else Ok (link_last n p (unlink n t)).

(** [set_children("", *l)] *)
Definition set_children (l : list nat) (t : treeview) : treeview :=
  let t := detach l (detach (children None t) t) in
  foldl (λ t n, if decide (is_Some (t_parent t !! n)) then t else link_last n None t) t l.

(** The attached items, with parents before their children. *)
Fixpoint preorder (f : nat) (t : treeview) (p : option nat) : list nat :=
  match f with
  | O => []
  | S f => flat_map (λ n, n :: preorder f t (Some n)) (children p t)
  end.
Definition all_items (t : treeview) : list nat := preorder (n_links t) t None.

(** The rows: the items whose ancestors are all open. *)
Fixpoint open_items (f : nat) (t : treeview) (p : option nat) : list nat :=
  match f with
  | O => []
  | S f =>
      flat_map (λ n, n :: (if decide (n ∈ t_open t) then open_items f t (Some n) else [])) (children p t)
  end.
Definition rows (t : treeview) : list nat := open_items (n_links t) t None.

(** ** Items *)

Definition is_open (n : nat) (t : treeview) : bool := bool_decide (n ∈ t_open t).
Definition open_item (n : nat) (t : treeview) : treeview := set_t_open ({[n]} ∪ t_open t) t.
Definition close_item (n : nat) (t : treeview) : treeview := set_t_open (t_open t ∖ {[n]}) t.

(** [item(n, text=text, tags=tags)]; the tags are the words of the text. *)
Definition set_item (n : nat) (text tags : string) (t : treeview) : treeview :=
  set_t_item (<[n := text]> (t_text t)) (<[n := words tags]> (t_tags t)) t.
Definition text_of (n : nat) (t : treeview) : string := default "" (t_text t !! n).
Definition tag_has (tag : string) (n : nat) (t : treeview) : bool := mem tag (default [] (t_tags t !! n)).

(** [selection()]: the selected items that are attached. *)
Definition selection (t : treeview) : list nat := filter (λ n, n ∈ t_selected t) (all_items t).
(** [selection_set(l)]: a detached item stays selected. *)
Definition selection_set (l : list nat) (t : treeview) : treeview :=
  set_t_selected ((t_selected t ∖ list_to_set (all_items t)) ∪ list_to_set l) t.

(** ** The screen *)

(** [bbox(n)] is not empty; [identify_row(y)]; [winfo_height()] and
    [winfo_width()]; the height of a row; the row at the top after [yview(row)] and
    after [see(n)]. *)
Record display : Type := Display {
  d_bbox : treeview → nat → bool;
  d_row : treeview → Z → option nat;
  d_height : Z;
  d_width : Z;
  d_row_height : Z;
  d_yview : treeview → Z → Z;
  d_see : treeview → nat → Z
}.

Section Screen.
Variable d : display.

Definition yview (row : Z) (t : treeview) : treeview := set_t_first (d_yview d t row) t.
(** [yview_scroll(rows, "units")] *)
Definition yview_scroll (rows : Z) (t : treeview) : treeview := yview (t_first t + rows) t.

Fixpoint open_ancestors (f : nat) (p : option nat) (t : treeview) : treeview :=
  match f, p with
  | S f, Some p => open_ancestors f (parent p t) (open_item p t)
  | _, _ => t
  end.
(** [see(n)] opens the ancestors of the item. *)
Definition see (n : nat) (t : treeview) : treeview :=
  let t := open_ancestors (n_links t) (parent n t) t in set_t_first (d_see d t n) t.

(** [_select] *)
Definition select (n : nat) (t : treeview) : treeview := see n (set_t_focus (Some n) (selection_set [n] t)).
End Screen.

(** ** Walking the rows, as the class bindings do *)

(** The last row of an item's open subtree. *)
Fixpoint last_row (f n : nat) (t : treeview) : nat :=
  match f with
  | O => n
  | S f =>
      match last (children (Some n) t) with
      | Some m => if is_open n t then last_row f m t else n
      | None => n
      end
  end.

Definition row_up (n : nat) (t : treeview) : option nat :=
  match prev n t with
  | Some m => Some (last_row (n_links t) m t)
  | None => parent n t
  end.

(** The next sibling of the item or of its closest ancestor that has one. *)
Fixpoint climb_next (f n : nat) (t : treeview) : option nat :=
  match f with
  | O => None
  | S f =>
      match next n t with
      | Some m => Some m
      | None => match parent n t with Some p => climb_next f p t | None => None end
      end
  end.

Definition row_down (n : nat) (t : treeview) : option nat :=
  match children (Some n) t with
  | m :: _ => if is_open n t then Some m else climb_next (n_links t) n t
  | [] => climb_next (n_links t) n t
  end.
