(* ===== verification/GuiView.v ===== *)
(** * What the graphical interface shows: guiconfig

    Which nodes a menu shows in the two tree modes, the text and the image of an
    item, the checks of entered values and the information about a node.  The
    functions guiconfig.py has in common with menuconfig.py, word for word, are the
    definitions of the terminal interface. *)

From S2P Require Import Prelude PyStr PyText Kconst Expr Escape Incr Objects ParseState.
From S2P Require Import Printing Values Reads Session ConfigFile ConfigWrite.
From S2P Require Import MenuView MenuInfo MenuKeys MenuLoop.
From stdpp Require Import options.

Section View.
Variable K : kconfig.
Variable fuel : nat.

(** ** Functions in common with menuconfig *)

(** [_visible] *)
Definition gui_visible (σ : session) (n : nat) : outcome bool := node_visible K fuel σ n.
(** [_parent_menu] *)
Definition gui_parent_menu (n : nat) : outcome nat := parent_menu K fuel n.
(** [_is_y_mode_choice_sym] *)
Definition gui_is_y_mode_choice_sym (i : item) (σ : session) : outcome bool := is_y_mode_choice_sym K fuel i σ.
(** [_needs_save] *)
Definition gui_needs_save (h : host) : outcome bool := needs_save K fuel h.
(** [_load_config] *)
Definition gui_load_config (w : world) (conf_filename : string) (h : host) : outcome (bool * host) :=
  load_config_at_start w K fuel conf_filename h.
(** [_sorted_sc_nodes] and [_sorted_menu_comment_nodes] *)
Definition gui_sorted_sc_nodes : list nat := sorted_sc_nodes K.
Definition gui_sorted_menu_comment_nodes : list nat := sorted_menu_comment_nodes K.

(** ** The nodes of a menu *)

(** [rec] of [_shown_full_nodes] *)
Fixpoint shown_full_rec (visible : nat → outcome bool) (show_all : bool) (f : nat) (o : option nat)
    : outcome (list nat) :=
  match f with
  | O => NoFuel
  | S f =>
      match o with
      | None => Ok []
      | Some n =>
          let N := nod K n in
          let implicit := bool_decide (is_Some (n_list N)) && is_symbol_node (n_item N) in
          let! v := visible n in
          let! here :=
            (if v || show_all then
               if implicit then let! sub := shown_full_rec visible show_all f (n_list N) in Ok (n :: sub)
               else Ok [n]
             else if implicit then
               let! sub := shown_full_rec visible show_all f (n_list N) in
               Ok (match sub with [] => [] | _ => n :: sub end)
             else Ok []) in
          let! rest := shown_full_rec visible show_all f (n_next N) in
          Ok (here ++ rest)
      end
  end.

(** [_shown_full_nodes] *)
Definition shown_full_nodes (show_all : bool) (menu : nat) (σ : session) : outcome (list nat) :=
  shown_full_rec (gui_visible σ) show_all fuel (n_list (nod K menu)).

(** [_shown_menu_nodes]: the walk is that of menuconfig's [_shown_nodes]. *)
Definition shown_menu_nodes (show_all : bool) (menu : nat) (σ : session) : outcome (list nat) :=
  shown_rec K (gui_visible σ) show_all fuel (n_list (nod K menu)).

(** ** The text and the image of an item *)

(** The prompt of the node, or what stands in for it. *)
Definition node_title (n : nat) (σ : session) : outcome string :=
  match n_item (nod K n), prompt_text K n with
  | NComment, Some text => Ok ("*** " +:+ text +:+ " ***")
  | NSym s, Some text => let! new := new_part K fuel s σ in Ok (text +:+ new)
  | _, Some text => Ok text
  | NSym s, None => Ok ("<" +:+ s_name (sym K s) +:+ ">")
  | NCho c, None => Ok (standard_sc_expr_str K (ICho c))
  | _, None => Raise AttributeError
  end.

(** The title with the value of a string or number, or with the prompt of the
    selected symbol ([selection_part] is that of menuconfig). *)
Definition title_and_value (n : nat) (s : string) (σ : session) : outcome string :=
  match n_item (nod K n) with
  | NSym y =>
      match s_orig_type (sym K y) with
      | STRING => let! v := str_now K fuel y σ in Ok (s +:+ ": " +:+ v)
      | INT | HEX => let! v := str_now K fuel y σ in Ok ("(" +:+ v +:+ ") " +:+ s)
      | _ => Ok s
      end
  | _ => let! sel := selection_part K fuel n σ in Ok (s +:+ sel)
  end.

(** [_node_str] *)
Definition gui_node_str (show_all single_menu : bool) (n : nat) (σ : session) : outcome string :=
  let! s := node_title n σ in
  let! s := title_and_value n s σ in
  if single_menu && n_is_menuconfig (nod K n) then
    let! sub := shown_menu_nodes show_all n σ in
    Ok (s +:+ match sub with [] => "  ----" | _ => "  --->" end)
  else Ok s.

(** [_img_tag] *)
Definition img_tag (n : nat) (σ : session) : outcome string :=
  match item_of_node (n_item (nod K n)) with
  | None => Ok ""
  | Some i =>
      match orig_type K i with
      | UNKNOWN => Ok ""
      | STRING | INT | HEX => Ok "edit"
      | _ =>
          let! y_mode := gui_is_y_mode_choice_sym i σ in
          match i, y_mode with
          | ISym s, true =>
              let! chosen := selection_now K fuel (default 0 (s_choice (sym K s))) σ in
              Ok (if bool_decide (chosen = Some s) then "selected" else "not-selected")
          | _, _ =>
              let! assignable := assignable_now K fuel i σ in
              if bool_decide (length assignable ≤ 1) then
                match i with
                | ICho _ => Ok ""
                | ISym _ => let! v := item_str_now K fuel i σ in Ok (v +:+ "-locked")
                end
              else
                let! t := type_now K fuel i σ in
                let! v := item_str_now K fuel i σ in
                Ok (v +:+ (if decide (t = BOOL) then "-bool"
                           else if bool_decide (assignable = [1; 2]%Z) then "-my" else "-tri"))
          end
      end
  end.

(** ** Changing values *)

(** [_changeable] *)
Definition gui_changeable (n : nat) (σ : session) : outcome bool := changeable K fuel n σ.

(** [_range_info] and [_check_valid] look at the type instead of the original type
    of a symbol; the two differ for tristate symbols only.  The message of
    [_check_valid] is that of the error box.  A choice has no ranges. *)
Definition item_ranges (i : item) : outcome (list (nat * nat * expr)) :=
  match i with ISym s => Ok (s_ranges (sym K s)) | ICho _ => Raise AttributeError end.

Definition gui_range_info (i : item) (σ : session) : outcome (option string) :=
  let! t := type_now K fuel i σ in
  if INT_HEX t then
    let! ranges := item_ranges i in
    let! r := active_bounds K fuel ranges σ in
    Ok ((λ '(low, high), "Range: " +:+ low +:+ "-" +:+ high) <$> r)
  else Ok None.

Definition gui_check_valid (i : item) (text : string) (σ : session) : outcome (option string) :=
  let! t := type_now K fuel i σ in
  if INT_HEX t then
    let base := if decide (t = INT) then 10%Z else 16%Z in
    match py_int base text with
    | None => Ok (Some ("'" +:+ text +:+ "' is a malformed " +:+ TYPE_TO_STR t +:+ " value"))
    | Some v =>
        let! ranges := item_ranges i in
        let! r := active_bounds K fuel ranges σ in
        match r with
        | None => Ok None
        | Some (low, high) =>
            let message := text +:+ " is outside the range " +:+ low +:+ "-" +:+ high in
            let! l := of_option ValueError (py_int base low) in
            if (l <=? v)%Z then
              let! h := of_option ValueError (py_int base high) in
              Ok (if (v <=? h)%Z then None else Some message)
            else Ok (Some message)
        end
    end
  else Ok None.

(** What the text of the entry becomes: [ok] of [_set_val_dialog]. *)
Definition entered_value (i : item) (text : string) (σ : session) : outcome string :=
  let! t := type_now K fuel i σ in
  Ok (if decide (t = HEX) then if startswith "0x" text || startswith "0X" text then text else "0x" +:+ text
      else text).

(** ** The information about a node *)
Section Info.
Variable σ : session.

(** [_name_info] *)
Definition gui_name_info (i : item) : string :=
  let name := match i with ISym s => s_name (sym K s) | ICho c => default "" (c_name (cho K c)) end in
  (if bool_decide (name = "") then standard_sc_expr_str K i else name) +:+ nl +:+ nl.

(** [_help_info] *)
Definition gui_help_info (i : item) : string :=
  sconcat ((λ text, text +:+ nl +:+ nl) <$> omap (λ n, n_help (nod K n)) (nodes K i)).

(** The functions that guiconfig has in common with menuconfig, word for word. *)
Definition gui_is_num (name : string) : bool := is_num name.
(** [_name_and_val_str] and [_expr_str] *)
Definition gui_name_and_val_str (i : item) : string := name_and_val_str K fuel σ i.
Definition gui_expr_str (e : expr) : string := info_expr_str K fuel σ e.
(** [_value_info], which the program never calls. *)
Definition gui_value_info (s : nat) : outcome string := value_info K fuel σ s.
(** [_choice_syms_info], [_direct_dep_info], [_defaults_info] *)
Definition gui_choice_syms_info (c : nat) : outcome string := choice_syms_info K fuel σ c.
Definition gui_direct_dep_info (i : item) : outcome string := direct_dep_info K fuel σ i.
Definition gui_defaults_info (i : item) : outcome string := defaults_info K fuel σ i.
(** [_split_expr_info] and [_select_imply_info] *)
Definition gui_split_expr_info (e : expr) (indent : nat) : outcome string := split_expr_info K fuel σ e indent.
Definition gui_select_imply_info (s : nat) : outcome string := select_imply_info K fuel σ s.
(** [_include_path_info] and [_menu_path_info] *)
Definition gui_include_path_info (n : nat) : string := include_path_info K n.
Definition gui_menu_path_info (n : nat) : outcome string := menu_path_info K fuel n.

(** A definition, as [_kconfig_def_info] shows it: in menuconfig it is indented. *)
Definition gui_node_def_info (n : nat) : outcome string :=
  let N := nod K n in
  let! path := gui_menu_path_info n in
  Ok (nl +:+ nl +:+ "At " +:+ n_filename N +:+ ":" +:+ py_str (n_linenr N) +:+ nl
      +:+ gui_include_path_info n +:+ "Menu path: " +:+ path +:+ nl +:+ nl
      +:+ node_custom_str K gui_name_and_val_str N).

(** [_kconfig_def_info] *)
Definition gui_kconfig_def_info (ns : list nat) : outcome string :=
  let title := "Kconfig definition" +:+ (if bool_decide (1 < length ns) then "s" else "")
                 +:+ ", with parent deps. propagated to 'depends on'" +:+ nl in
  let! s := concat_out gui_node_def_info ns in
  Ok (title +:+ repeat_str (slen title - 1) "=" +:+ s).

(** [_info_str] *)
Definition gui_info_str (n : nat) : outcome string :=
  match n_item (nod K n) with
  | NSym s =>
      let i := ISym s in
      let! dep := gui_direct_dep_info i in
      let! defaults := gui_defaults_info i in
      let! selects := gui_select_imply_info s in
      let! def := gui_kconfig_def_info (nodes K i) in
      Ok (gui_name_info i +:+ gui_help_info i +:+ dep +:+ defaults +:+ selects +:+ def)
  | NCho c =>
      let i := ICho c in
      let! mode := item_str_now K fuel i σ in
      let! syms := gui_choice_syms_info c in
      let! dep := gui_direct_dep_info i in
      let! defaults := gui_defaults_info i in
      let! def := gui_kconfig_def_info (nodes K i) in
      Ok (gui_name_info i +:+ gui_help_info i +:+ "Mode: " +:+ mode +:+ nl +:+ nl
          +:+ syms +:+ dep +:+ defaults +:+ def)
  | _ => gui_kconfig_def_info [n]
  end.
End Info.
End View.

(** ** Where a dialog goes *)

(** One coordinate of [_center_on_root]: the dialog is centred on the window, and
    moved so that it is not outside the screen. *)
Definition centered (root root_size dialog screen : Z) : Z :=
  let x := (root + (root_size - dialog) / 2)%Z in
  if (screen <? x + dialog)%Z then (screen - dialog)%Z else if (x <? 0)%Z then 0%Z else x.

(** [_center_on_root]: positions and sizes are pairs of [x] and [y]. *)
Definition center_on_root (root root_size dialog screen : Z * Z) : string :=
  let x := centered root.1 root_size.1 dialog.1 screen.1 in
  let y := centered root.2 root_size.2 dialog.2 screen.2 in
  "+" +:+ py_str x +:+ "+" +:+ py_str y.

(** A dialog that fits the screen is on it, wherever the window is. *)
Lemma centered_on_screen root root_size dialog screen :
  (dialog ≤ screen)%Z →
  (0 ≤ centered root root_size dialog screen ∧ centered root root_size dialog screen + dialog ≤ screen)%Z.
Proof.
  intros Hfit. unfold centered. generalize (root + (root_size - dialog) / 2)%Z. intros x.
  destruct (Z.ltb_spec screen (x + dialog)), (Z.ltb_spec x 0); lia.
Qed.

(** A dialog larger than the screen is moved out of it on one side: its left edge
    is negative, not 0. *)
Example centered_too_large : centered 0 100 120 100 = (-20)%Z.
Proof. reflexivity. Qed.
