(* ===== verification/GuiState.v ===== *)
(** * The state of the graphical interface: guiconfig

    The global variables of guiconfig.py as a record, the actions of the user as
    events, and the computations on them: a callback that raises keeps what it did
    before, because Tk reports the exception and goes on.  A computation that waits
    for an answer takes the next events; it is [NoFuel] when none is left. *)

From S2P Require Import Prelude PyStr PyText Kconst Expr Escape Incr Objects ParseState.
From S2P Require Import Printing Values Reads Session ConfigFile ConfigWrite GuiTree.
From stdpp Require Import options.

(** Where a mouse button is pressed in a Treeview. *)
Inductive element : Type := Image | Indicator | Other_element | Heading.

Inductive command : Type :=
  | Save | Save_as | Save_minimal | Open | Jump_to | Show_name | Show_all | Single_menu | Back | Quit.

Inductive gevent : Type :=
  (* in the Treeview of the window that has the input, at a height [y] *)
  | Press (e : element) (y : Z)
  | Double_press (e : element) (y : Z)
  | Enter_key | Space_key | Left_key | Right_key | Up_key | Down_key
  | Tri_key (v : Z)
  (* a button, check box or shortcut of the main window *)
  | Command (c : command)
  (* the answers to dialogs *)
  | Entry_ok (s : string) | Entry_cancel
  | File_chosen (filename : string)
  | Ask_ok (ok : bool)
  | Ask_ync (answer : option bool)
  (* the search dialog *)
  | Search_for (s : string) | Jump_button | Close_dialog.

(** [g_tree] is [_tree], [g_jump_tree] is [_jump_to_tree]; [g_back] is the state of
    the button [_backbutton], which is shown in single-menu mode; [g_desc] and
    [g_menupath] are the description and the path of the selected node;
    [g_columns] are the widths of the columns.  [g_boxes] are the messages the user
    was shown, [g_errors] the exceptions reported by Tk. *)
Record gui : Type := Gui {
  g_host : host;
  g_tree : treeview;
  g_jump_tree : option treeview;
  g_jump_matches : list nat;
  g_jump_msg : string;
  g_cur_menu : nat;
  g_show_all : bool;
  g_show_name : bool;
  g_single_menu : bool;
  g_conf_filename : string;
  g_minconf_filename : string;
  g_conf_changed : bool;
  g_status : string;
  g_back : bool;
  g_desc : string;
  g_menupath : string;
  g_columns : Z * option Z;
  g_boxes : list string;
  g_errors : list exn;
  g_quit : bool;
  g_events : list gevent
}.

Definition set_g_host (x : host) (g : gui) : gui :=
  Gui x (g_tree g) (g_jump_tree g) (g_jump_matches g) (g_jump_msg g) (g_cur_menu g) (g_show_all g) (g_show_name g)
    (g_single_menu g) (g_conf_filename g) (g_minconf_filename g) (g_conf_changed g) (g_status g) (g_back g) (g_desc g)
    (g_menupath g) (g_columns g) (g_boxes g) (g_errors g) (g_quit g) (g_events g).
Definition set_g_tree (x : treeview) (g : gui) : gui :=
  Gui (g_host g) x (g_jump_tree g) (g_jump_matches g) (g_jump_msg g) (g_cur_menu g) (g_show_all g) (g_show_name g)
    (g_single_menu g) (g_conf_filename g) (g_minconf_filename g) (g_conf_changed g) (g_status g) (g_back g) (g_desc g)
    (g_menupath g) (g_columns g) (g_boxes g) (g_errors g) (g_quit g) (g_events g).
Definition set_g_jump (tree : option treeview) (matches : list nat) (msg : string) (g : gui) : gui :=
  Gui (g_host g) (g_tree g) tree matches msg (g_cur_menu g) (g_show_all g) (g_show_name g)
    (g_single_menu g) (g_conf_filename g) (g_minconf_filename g) (g_conf_changed g) (g_status g) (g_back g) (g_desc g)
    (g_menupath g) (g_columns g) (g_boxes g) (g_errors g) (g_quit g) (g_events g).
Definition set_g_menu (x : nat) (g : gui) : gui :=
  Gui (g_host g) (g_tree g) (g_jump_tree g) (g_jump_matches g) (g_jump_msg g) x (g_show_all g) (g_show_name g)
    (g_single_menu g) (g_conf_filename g) (g_minconf_filename g) (g_conf_changed g) (g_status g) (g_back g) (g_desc g)
    (g_menupath g) (g_columns g) (g_boxes g) (g_errors g) (g_quit g) (g_events g).
Definition set_g_modes (show_all show_name single_menu : bool) (g : gui) : gui :=
  Gui (g_host g) (g_tree g) (g_jump_tree g) (g_jump_matches g) (g_jump_msg g) (g_cur_menu g) show_all show_name
    single_menu (g_conf_filename g) (g_minconf_filename g) (g_conf_changed g) (g_status g) (g_back g) (g_desc g)
    (g_menupath g) (g_columns g) (g_boxes g) (g_errors g) (g_quit g) (g_events g).
Definition set_g_filenames (conf minconf : string) (g : gui) : gui :=
  Gui (g_host g) (g_tree g) (g_jump_tree g) (g_jump_matches g) (g_jump_msg g) (g_cur_menu g) (g_show_all g) (g_show_name g)
    (g_single_menu g) conf minconf (g_conf_changed g) (g_status g) (g_back g) (g_desc g)
    (g_menupath g) (g_columns g) (g_boxes g) (g_errors g) (g_quit g) (g_events g).
Definition set_g_status (changed : bool) (status : string) (g : gui) : gui :=
  Gui (g_host g) (g_tree g) (g_jump_tree g) (g_jump_matches g) (g_jump_msg g) (g_cur_menu g) (g_show_all g) (g_show_name g)
    (g_single_menu g) (g_conf_filename g) (g_minconf_filename g) changed status (g_back g) (g_desc g)
    (g_menupath g) (g_columns g) (g_boxes g) (g_errors g) (g_quit g) (g_events g).
Definition set_g_widgets (back : bool) (desc menupath : string) (columns : Z * option Z) (g : gui) : gui :=
  Gui (g_host g) (g_tree g) (g_jump_tree g) (g_jump_matches g) (g_jump_msg g) (g_cur_menu g) (g_show_all g) (g_show_name g)
    (g_single_menu g) (g_conf_filename g) (g_minconf_filename g) (g_conf_changed g) (g_status g) back desc
    menupath columns (g_boxes g) (g_errors g) (g_quit g) (g_events g).
Definition set_g_reports (boxes : list string) (errors : list exn) (quit : bool) (g : gui) : gui :=
  Gui (g_host g) (g_tree g) (g_jump_tree g) (g_jump_matches g) (g_jump_msg g) (g_cur_menu g) (g_show_all g) (g_show_name g)
    (g_single_menu g) (g_conf_filename g) (g_minconf_filename g) (g_conf_changed g) (g_status g) (g_back g) (g_desc g)
    (g_menupath g) (g_columns g) boxes errors quit (g_events g).
Definition set_g_events (x : list gevent) (g : gui) : gui :=
  Gui (g_host g) (g_tree g) (g_jump_tree g) (g_jump_matches g) (g_jump_msg g) (g_cur_menu g) (g_show_all g) (g_show_name g)
    (g_single_menu g) (g_conf_filename g) (g_minconf_filename g) (g_conf_changed g) (g_status g) (g_back g) (g_desc g)
    (g_menupath g) (g_columns g) (g_boxes g) (g_errors g) (g_quit g) x.

Definition g_session (g : gui) : session := h_session (g_host g).

(** ** Computations *)

Definition G (A : Type) : Type := gui → outcome A * gui.

#[global] Instance G_ret : MRet G := λ A a g, (Ok a, g).
#[global] Instance G_bind : MBind G := λ A B f m g,
  match m g with
  | (Ok a, g) => f a g
  | (Raise e, g) => (Raise e, g)
  | (NoFuel, g) => (NoFuel, g)
  end.

Definition gget {A} (f : gui → A) : G A := λ g, (Ok (f g), g).
Definition gmodify (f : gui → gui) : G () := λ g, (Ok (), f g).
Definition gwait {A} : G A := λ g, (NoFuel, g).
Definition glift {A} (o : outcome A) : G A := λ g, (o, g).
Definition gwhen (b : bool) (m : G ()) : G () := if b then m else mret ().
(** What the session says. *)
Definition gread {A} (f : session → outcome A) : G A := λ g, (f (g_session g), g).
(** Calls of the library. *)
Definition ghost {A} (f : host → outcome (A * host)) : G A := λ g,
  match f (g_host g) with
  | Ok (a, h) => (Ok a, set_g_host h g)
  | Raise e => (Raise e, g)
  | NoFuel => (NoFuel, g)
  end.
Definition on_tree (f : treeview → treeview) : G () := gmodify (λ g, set_g_tree (f (g_tree g)) g).
Definition try_tree (f : treeview → outcome treeview) : G () := λ g,
  match f (g_tree g) with
  | Ok t => (Ok (), set_g_tree t g)
  | Raise e => (Raise e, g)
  | NoFuel => (NoFuel, g)
  end.

(** A callback: Tk reports its exception. *)
Definition callback (m : G ()) : G () := λ g,
  match m g with
  | (Raise e, g) => (Ok (), set_g_reports (g_boxes g) (g_errors g ++ [e]) (g_quit g) g)
  | r => r
  end.

(** The next event that is an answer; a dialog grabs the input, so that nothing
    else gets through. *)
Fixpoint wait_in {A} (answer : gevent → option A) (l : list gevent) : option (A * list gevent) :=
  match l with
  | [] => None
  | e :: l => match answer e with Some a => Some (a, l) | None => wait_in answer l end
  end.
Definition wait_for {A} (answer : gevent → option A) : G A := λ g,
  match wait_in answer (g_events g) with
  | Some (a, l) => (Ok a, set_g_events l g)
  | None => (NoFuel, set_g_events [] g)
  end.
Definition n_answers (g : gui) : nat := S (length (g_events g)).

(** [messagebox.showerror] *)
Definition show_box (msg : string) : G () := gmodify (λ g, set_g_reports (g_boxes g ++ [msg]) (g_errors g) (g_quit g) g).

(** [_set_status] *)
Definition set_status (s : string) : G () := gmodify (λ g, set_g_status (g_conf_changed g) s g).

(** [_set_conf_changed] *)
Definition set_conf_changed (changed : bool) : G () :=
  gmodify (λ g, set_g_status changed (g_status g) g);;
  gwhen changed (set_status "Modified").
