(* ===== verification/GuiBuild.v ===== *)
(** * Filling the Treeview and moving in it: guiconfig

    [_update_tree] with its helpers for the two tree modes, the items that keep
    their place on the screen, entering and leaving menus, and jumping to a node.
    In full-tree mode only the open menus are filled. *)

From S2P Require Import Prelude PyStr PyText Kconst Expr Escape Incr Objects ParseState.
From S2P Require Import Printing MenuTree Values Reads Session ConfigFile ConfigWrite.
From S2P Require Import MenuView MenuInfo MenuKeys MenuLoop GuiTree GuiView GuiState.
From stdpp Require Import options.

(** [for x in l: f(x)] *)
Definition gfor {A} (f : A → G ()) : list A → G () :=
  fix go l := match l with [] => mret () | x :: l => f x;; go l end.

(** What the main Treeview says. *)
Definition gtree {A} (f : treeview → outcome A) : G A := λ g, (f (g_tree g), g).

(** [_id_to_node[item]] *)
Definition id_to_node (item : option nat) : outcome nat := of_option KeyError item.

(** ** Rows *)

(** [_n_rows] *)
Fixpoint n_rows (f n : nat) (t : treeview) : outcome Z :=
  match f with
  | O => NoFuel
  | S f =>
      if is_open n t then
        (fix go (l : list nat) (rows : Z) : outcome Z :=
           match l with
           | [] => Ok rows
           | m :: l => let! k := n_rows f m t in go l (rows + k)%Z
           end) (children (Some n) t) 1%Z
      else Ok 1%Z
  end.

Fixpoint item_row_from (f n : nat) (row : Z) (t : treeview) : outcome Z :=
  match f with
  | O => NoFuel
  | S f =>
      match prev n t with
      | Some m => let! k := n_rows (n_links t) m t in item_row_from f m (row + k)%Z t
      | None =>
          match parent n t with
          | None => Ok row
          | Some p => item_row_from f p (row + 1)%Z t
          end
      end
  end.

(** [_item_row]; the empty string stands for the root, which has no siblings. *)
Definition item_row (item : option nat) (t : treeview) : outcome Z :=
  match item with Some n => item_row_from (n_links t) n 0 t | None => Ok 0%Z end.

(** [_attached] *)
Definition seems_attached (n : nat) (t : treeview) : bool :=
  bool_decide (is_Some (next n t)) || bool_decide (is_Some (prev n t)) || bool_decide (is_Some (parent n t)).

Section Build.
Variable d : display.
Variable K : kconfig.
Variable fuel : nat.

(** ** Reference items for the scroll *)

(** [_loc_ref_item] *)
Definition loc_ref_item (t : treeview) : outcome nat :=
  let other :=
    match d_row d t (d_height d / 2) with
    | Some n => Ok n
    | None => of_option IndexError (head (children None t))
    end in
  match selection t with
  | n :: _ => if d_bbox d t n then Ok n else other
  | [] => other
  end.

(** [_vis_before] *)
Fixpoint vis_before (f : nat) (item : option nat) (t : treeview) : outcome (option nat) :=
  match item with
  | None => Ok None
  | Some n =>
      if tag_has "invisible" n t then
        match f with
        | O => NoFuel
        | S f => vis_before f (match prev n t with Some m => Some m | None => parent n t end) t
        end
      else Ok (Some n)
  end.

(** [_vis_after] *)
Fixpoint vis_after (f : nat) (item : option nat) (t : treeview) : outcome (option nat) :=
  match item with
  | None => Ok None
  | Some n =>
      if tag_has "invisible" n t then
        match f with
        | O => NoFuel
        | S f =>
            match next n t, parent n t with
            | Some m, _ => vis_after f (Some m) t
            | None, None => Ok None
            | None, Some p => vis_after f (next p t) t
            end
        end
      else Ok (Some n)
  end.

(** [_vis_loc_ref_item] *)
Definition vis_loc_ref_item (t : treeview) : outcome (option nat) :=
  let! n := loc_ref_item t in
  let! b := vis_before (n_links t) (Some n) t in
  match b with
  | Some m =>
      if d_bbox d t m then Ok b
      else
        let! a := vis_after (n_links t) (Some n) t in
        match a with Some k => if d_bbox d t k then Ok a else Ok b | None => Ok b end
  | None => vis_after (n_links t) (Some n) t
  end.

(** ** Filling the tree *)

(** The nodes with an item: the keys of [_id_to_node], by [_create_id_to_node]. *)
Definition items : outcome (list nat) := node_iter fuel false K.

(** The items of [_create_kconfig_tree] before anything is detached. *)
Definition create_kconfig_tree : outcome treeview :=
  let! l := items in Ok (foldl (λ t n, link_last n None t) empty_tree l).

(** [_add_to_tree] *)
Definition add_to_tree (n top : nat) : G () :=
  match n_parent (nod K n) with
  | None => glift (Raise TclError)
  | Some p =>
      try_tree (move n (if decide (p = top) then None else Some p));;
      all ← gget g_show_all;
      single ← gget g_single_menu;
      text ← gread (gui_node_str K fuel all single n);
      visible ← gread (λ σ, gui_visible K fuel σ n);
      tag ← gread (img_tag K fuel n);
      on_tree (set_item n text (if visible || negb all then tag else tag +:+ " invisible"))
  end.

(** The first shown node of a closed menu, which makes the toggle appear. *)
Definition add_dummy (menu : nat) : G () :=
  all ← gget g_show_all;
  shown ← gread (shown_menu_nodes K fuel all menu);
  match shown with
  | [] => mret ()
  | m :: _ =>
      match n_parent (nod K m) with
      | Some p => try_tree (move m (Some p))
      | None => glift (Raise TclError)
      end
  end.

(** A menu or choice with nodes in it. *)
Definition is_real_menu (n : nat) : bool :=
  bool_decide (is_Some (n_list (nod K n))) && negb (is_symbol_node (n_item (nod K n))).

(** [_build_full_tree] *)
Fixpoint build_full_tree (f menu : nat) : G () :=
  match f with
  | O => gwait
  | S f =>
      all ← gget g_show_all;
      nodes ← gread (shown_full_nodes K fuel all menu);
      gfor (λ n,
        add_to_tree n (k_top_node K);;
        if is_real_menu n then
          opened ← gget (λ g, is_open n (g_tree g));
          if (opened : bool) then build_full_tree f n else add_dummy n
        else mret ()) nodes
  end.

(** [_build_menu_tree] *)
Definition build_menu_tree : G () :=
  menu ← gget g_cur_menu;
  all ← gget g_show_all;
  nodes ← gread (shown_menu_nodes K fuel all menu);
  gfor (λ n, add_to_tree n menu) nodes.

(** [_update_tree] *)
Definition update_tree : G () :=
  old_selection ← gget (λ g, selection (g_tree g));
  old_focus ← gget (λ g, t_focus (g_tree g));
  l ← glift items;
  on_tree (detach l);;
  single ← gget g_single_menu;
  (if (single : bool) then build_menu_tree else build_full_tree fuel (k_top_node K));;
  on_tree (λ t, set_t_focus old_focus (selection_set old_selection t)).

(** ** Menus and jumps *)

(** [_enter_menu] *)
Definition gui_enter_menu (menu : nat) : G () :=
  gmodify (set_g_menu menu);;
  update_tree;;
  gmodify (λ g, set_g_widgets (negb (bool_decide (menu = k_top_node K))) (g_desc g) (g_menupath g) (g_columns g) g).

(** [_select(_tree, _tree.get_children()[0])] *)
Definition select_first : G () :=
  n ← gtree (λ t, of_option IndexError (head (children None t)));
  on_tree (select d n).

(** [_enter_menu_and_select_first] *)
Definition enter_menu_and_select_first (menu : nat) : G () := gui_enter_menu menu;; select_first.

(** [_leave_menu] *)
Definition gui_leave_menu : G () :=
  old_menu ← gget g_cur_menu;
  if decide (old_menu = k_top_node K) then mret ()
  else
    menu ← glift (gui_parent_menu K fuel old_menu);
    gmodify (set_g_menu menu);;
    update_tree;;
    on_tree (select d old_menu);;
    gwhen (bool_decide (menu = k_top_node K))
      (gmodify (λ g, set_g_widgets false (g_desc g) (g_menupath g) (g_columns g) g)).

(** The parents of a node below the top node, the topmost first. *)
Fixpoint parents_from (f : nat) (o : option nat) (l : list nat) : outcome (list nat) :=
  match f, o with
  | O, _ => NoFuel
  | S _, None => Raise AttributeError
  | S f, Some p => if decide (p = k_top_node K) then Ok l else parents_from f (n_parent (nod K p)) (p :: l)
  end.

Fixpoint fill_closed (l : list nat) : G () :=
  match l with
  | [] => mret ()
  | p :: rest =>
      opened ← gget (λ g, is_open p (g_tree g));
      if (opened : bool) then fill_closed rest
      else
        gfor (λ p, if is_symbol_node (n_item (nod K p)) then mret () else build_full_tree fuel p) (p :: rest)
  end.

(** [_load_parents] *)
Definition load_parents (n : nat) : G () :=
  l ← glift (parents_from fuel (n_parent (nod K n)) []);
  fill_closed l.

(** [_jump_to] *)
Definition gui_jump_to (n : nat) : G () :=
  single ← gget g_single_menu;
  (if (single : bool) then
     menu ← glift (gui_parent_menu K fuel n);
     gui_enter_menu menu
   else load_parents n);;
  on_tree (select d n).

(** ** The modes *)

(** [_nothing_shown] *)
Definition nothing_shown : G bool :=
  single ← gget g_single_menu;
  menu ← gget g_cur_menu;
  all ← gget g_show_all;
  shown ← gread (shown_menu_nodes K fuel all (if (single : bool) then menu else k_top_node K));
  mret (bool_decide (shown = [])).

Definition set_show_all_var (b : bool) : G () :=
  gmodify (λ g, set_g_modes b (g_show_name g) (g_single_menu g) g).

(** [_do_showall] *)
Definition do_showall : G () :=
  nothing ← nothing_shown;
  if (nothing : bool) then set_show_all_var true
  else
    stayput ← gtree (vis_loc_ref_item);
    stayput ← glift (of_option TclError stayput);
    row ← gtree (item_row (Some stayput));
    top ← gtree (λ t, item_row (d_row d t (d_row_height d / 2)) t);
    update_tree;;
    row' ← gtree (item_row (Some stayput));
    on_tree (yview d (row' - (row - top))).

(** [_do_tree_mode] *)
Definition do_tree_mode : G () :=
  n ← gtree loc_ref_item;
  single ← gget g_single_menu;
  gwhen (negb single) update_tree;;
  gui_jump_to n.

(** [_do_showname]: the widths of the columns *)
Definition do_showname : G () := gmodify (λ g,
  let tree_width := d_width d in
  let name_width := (tree_width / 3)%Z in
  set_g_widgets (g_back g) (g_desc g) (g_menupath g)
    (if g_show_name g then (Z.max (tree_width - name_width) 1, Some name_width) else (tree_width, None)) g).
End Build.
