(* ===== verification/GuiKeys.v ===== *)
(** * The callbacks of the graphical interface: guiconfig

    What a click, a key or a button does: changing values, opening menus, loading
    and saving, searching.  [_try_load] and [_try_save] report files that cannot be
    opened or written. *)

From S2P Require Import Prelude PyStr PyText Kconst Expr Escape Incr Objects ParseState.
From S2P Require Import Printing Values Reads Session ConfigFile ConfigWrite.
From S2P Require Import MenuView MenuInfo MenuKeys MenuLoop GuiTree GuiView GuiState GuiBuild.
From stdpp Require Import options.

Section Callbacks.
Variable w : world.
Variable d : display.
Variable K : kconfig.
Variable fuel : nat.
(** [re.compile(r).search], which is [None] on an error in the expression *)
Variable re_search : string → option (string → bool).

(** ** The Treeview of an event: that of the search dialog or the main one *)

Definition tree_of (jump : bool) (g : gui) : treeview :=
  if jump then default empty_tree (g_jump_tree g) else g_tree g.
Definition on_tree_of (jump : bool) (f : treeview → treeview) : G () := gmodify (λ g,
  if jump then set_g_jump (f <$> g_jump_tree g) (g_jump_matches g) (g_jump_msg g) g
  else set_g_tree (f (g_tree g)) g).

(** [tree_select] of [_create_kconfig_tree_and_desc] and [_update_menu_path], when
    a [<<TreeviewSelect>>] event of the main Treeview is in the queue. *)
Definition tree_select : G () :=
  sel ← gget (λ g, head (selection (g_tree g)));
  desc ← (match sel with Some n => gread (λ σ, gui_info_str K fuel σ n) | None => mret "" end);
  gmodify (λ g, set_g_widgets (g_back g) desc (g_menupath g) (g_columns g) g).
Definition update_menu_path : G () :=
  sel ← gget (λ g, head (selection (g_tree g)));
  path ← glift (match sel with Some n => menu_path_info K fuel n | None => Ok "" end);
  gmodify (λ g, set_g_widgets (g_back g) (g_desc g) path (g_columns g) g).
Definition select_events : G () :=
  pending ← gget (λ g, t_event (g_tree g));
  gwhen pending (on_tree (set_t_event false);; callback tree_select;; callback update_menu_path).

(** ** The search dialog's list *)

(** [_update_jump_to_display] *)
Definition update_jump_to_display : G () :=
  matches ← gget g_jump_matches;
  gfor (λ n,
    all ← gget g_show_all;
    single ← gget g_single_menu;
    text ← gread (gui_node_str K fuel all single n);
    visible ← gread (λ σ, gui_visible K fuel σ n);
    tag ← gread (img_tag K fuel n);
    on_tree_of true (set_item n text (if (visible : bool) then tag else tag +:+ " invisible"))) matches;;
  on_tree_of true (set_children matches).

(** The matches of a search; [node_matches] is that of menuconfig. *)
Definition jump_matches (searches : list (string → bool)) : list nat :=
  filter (λ n, node_matches K searches n = true) (gui_sorted_sc_nodes K ++ gui_sorted_menu_comment_nodes K).

(** [_update_jump_to_matches] *)
Definition update_jump_to_matches (search_string : string) : G () :=
  on_tree_of true (selection_set []);;
  match all_compiled re_search (words (lower search_string)) with
  | None =>
      gmodify (λ g, set_g_jump (g_jump_tree g) (g_jump_matches g) "Bad regular expression" g);;
      on_tree_of true (set_children [])
  | Some searches =>
      let matches := jump_matches searches in
      gmodify (λ g, set_g_jump (g_jump_tree g) matches (match matches with [] => "No matches" | _ => "" end) g);;
      update_jump_to_display;;
      match matches with
      | [] => mret ()
      | n :: _ => on_tree_of true (λ t, set_t_focus (Some n) (selection_set [n] t))
      end
  end.

(** ** Changing values *)

(** [_set_val]; the value is a string, as [TRI_TO_STR] makes it. *)
Definition gui_set_val (i : item) (val : string) : G () :=
  old ← gread (item_str_now K fuel i);
  if bool_decide (val = old) then mret ()
  else
    ghost (on_session (set_item_value K i val));;
    set_conf_changed true;;
    stayput ← gtree (loc_ref_item d);
    old_row ← gtree (item_row (Some stayput));
    update_tree K fuel;;
    still ← gget (λ g, seems_attached stayput (g_tree g));
    (if (still : bool) then
       row ← gtree (item_row (Some stayput));
       on_tree (yview_scroll d (row - old_row))
     else mret ());;
    jump ← gget g_jump_tree;
    gwhen (bool_decide (is_Some jump)) update_jump_to_display.

(** [ok] of [_set_val_dialog]: the value, unless a box reports an error. *)
Definition accept_entry (i : item) (text : string) : G (option string) :=
  s ← gread (entered_value K fuel i text);
  error ← gread (gui_check_valid K fuel i s);
  match error with
  | None => mret (Some s)
  | Some msg => show_box msg;; mret None
  end.

(** A callback that may end its dialog. *)
Definition callback_opt {A} (m : G (option A)) : G (option A) := λ g,
  match m g with
  | (Raise e, g) => (Ok None, set_g_reports (g_boxes g) (g_errors g ++ [e]) (g_quit g) g)
  | r => r
  end.

Fixpoint entry_loop (f : nat) (i : item) : G (option string) :=
  match f with
  | O => gwait
  | S f =>
      select_events;;
      answer ← wait_for (λ e, match e with Entry_ok s => Some (Some s) | Entry_cancel => Some None | _ => None end);
      match answer with
      | None => mret None
      | Some text =>
          r ← callback_opt (accept_entry i text);
          match r with Some s => mret (Some s) | None => entry_loop f i end
      end
  end.

(** [_set_val_dialog] *)
Definition set_val_dialog (i : item) : G (option string) :=
  gread (item_str_now K fuel i);;
  gread (gui_range_info K fuel i);;
  f ← gget n_answers;
  entry_loop f i.

(** [_change_node] *)
Definition gui_change_node (n : nat) : G () :=
  ok ← gread (gui_changeable K fuel n);
  match ok, item_of_node (n_item (nod K n)) with
  | true, Some i =>
      t ← gread (type_now K fuel i);
      match t with
      | INT | HEX | STRING =>
          r ← set_val_dialog i;
          match r with Some s => gui_set_val i s | None => mret () end
      | _ =>
          v ← gread (next_assignable K fuel i);
          gui_set_val i (tri_str v)
      end
  | _, _ => mret ()
  end.

(** ** Keys and clicks *)

(** [_single_menu_mode_menu] *)
Definition single_menu_mode_menu (n : nat) (jump : bool) : G bool :=
  single ← gget g_single_menu;
  all ← gget g_show_all;
  if single && negb jump && n_is_menuconfig (nod K n) then
    shown ← gread (shown_menu_nodes K fuel all n);
    mret (negb (bool_decide (shown = [])))
  else mret false.

(** [_tree_toggle_open] *)
Definition tree_toggle_open (n : nat) : G () :=
  opened ← gget (λ g, is_open n (g_tree g));
  if (opened : bool) then on_tree (close_item n)
  else
    (if is_symbol_node (n_item (nod K n)) then mret () else build_full_tree K fuel fuel n);;
    on_tree (open_item n).

(** [_tree_enter] *)
Definition tree_enter (jump : bool) : G () :=
  sel ← gget (λ g, t_focus (tree_of jump g));
  match sel with
  | None => mret ()
  | Some n =>
      kids ← gget (λ g, children (Some n) (tree_of jump g));
      match kids with
      | _ :: _ => tree_toggle_open n
      | [] =>
          menu ← single_menu_mode_menu n jump;
          if (menu : bool) then enter_menu_and_select_first d K fuel n else gui_change_node n
      end
  end.

(** [_tree_toggle] *)
Definition tree_toggle (jump : bool) : G () :=
  sel ← gget (λ g, t_focus (tree_of jump g));
  match sel with
  | None => mret ()
  | Some n =>
      changes ← gread (gui_changeable K fuel n);
      if (changes : bool) then gui_change_node n
      else
        menu ← single_menu_mode_menu n jump;
        if (menu : bool) then enter_menu_and_select_first d K fuel n
        else
          kids ← gget (λ g, children (Some n) (tree_of jump g));
          match kids with _ :: _ => tree_toggle_open n | [] => mret () end
  end.

(** [_tree_set_val] *)
Definition tree_set_val (v : Z) (jump : bool) : G () :=
  sel ← gget (λ g, t_focus (tree_of jump g));
  match sel with
  | None => mret ()
  | Some n =>
      match item_of_node (n_item (nod K n)) with
      | None => mret ()
      | Some i =>
          l ← gread (assignable_now K fuel i);
          gwhen (mem v l) (gui_set_val i (tri_str v))
      end
  end.

(** [_tree_open] *)
Definition tree_open : G () :=
  single ← gget g_single_menu;
  if (single : bool) then mret ()
  else
    sel ← gget (λ g, t_focus (g_tree g));
    n ← glift (id_to_node sel);
    if is_symbol_node (n_item (nod K n)) then mret () else build_full_tree K fuel fuel n.

(** The class bindings [ttk::treeview::OpenItem] and [CloseItem], which generate
    the event behind [_tree_open] in the main Treeview, and [BrowseTo]. *)
Definition class_open (jump : bool) (n : nat) : G () :=
  on_tree_of jump (set_t_focus (Some n));;
  gwhen (negb jump) (callback tree_open);;
  on_tree_of jump (open_item n).
Definition class_close (jump : bool) (n : nat) : G () :=
  on_tree_of jump (λ t, set_t_focus (Some n) (close_item n t)).
Definition browse_to (jump : bool) (o : option nat) : G () :=
  match o with Some n => on_tree_of jump (λ t, selection_set [n] (set_t_focus (Some n) (see d n t))) | None => mret () end.

Definition class_toggle (jump : bool) (n : nat) : G () :=
  opened ← gget (λ g, is_open n (tree_of jump g));
  if (opened : bool) then class_close jump n else class_open jump n.

(** The class binding of a mouse button. *)
Definition class_press (jump : bool) (e : element) (item : option nat) : G () :=
  match e, item with
  | Heading, _ | _, None => mret ()
  | _, Some n =>
      browse_to jump (Some n);;
      match e with Indicator => class_toggle jump n | _ => mret () end
  end.

(** The class bindings of the arrow keys. *)
Definition class_key (jump : bool) (e : gevent) : G () :=
  t ← gget (tree_of jump);
  match t_focus t with
  | None => mret ()
  | Some n =>
      match e with
      | Up_key => browse_to jump (row_up n t)
      | Down_key => browse_to jump (row_down n t)
      | Left_key =>
          if is_open n t && negb (bool_decide (children (Some n) t = []))
          then class_close jump n;; browse_to jump (Some n)
          else browse_to jump (parent n t)
      | Right_key => class_open jump n;; browse_to jump (Some n)
      | _ => mret ()
      end
  end.

(** [_tree_click], and the class binding if it does not return [break] *)
Definition tree_click (jump : bool) (e : element) (y : Z) : G () :=
  item ← gget (λ g, d_row d (tree_of jump g) y);
  match e with
  | Image =>
      n ← glift (id_to_node item);
      on_tree_of jump (select d n);;
      gui_change_node n
  | _ => class_press jump e item
  end.

(** [_tree_double_click], and the class binding if there is no focus *)
Definition tree_double_click (e : element) (y : Z) : G () :=
  item ← gget (λ g, d_row d (g_tree g) y);
  match e with
  | Heading => mret ()
  | _ =>
      sel ← gget (λ g, t_focus (g_tree g));
      match sel, item with
      | Some _, _ => tree_enter false
      | None, Some n => class_toggle false n
      | None, None => mret ()
      end
  end.

(** [_tree_left_key] and [_tree_right_key], with the default actions *)
Definition tree_left_key : G () :=
  single ← gget g_single_menu;
  if (single : bool) then gui_leave_menu d K fuel else class_key false Left_key.
Definition tree_right_key : G () :=
  sel ← gget (λ g, t_focus (g_tree g));
  menu ← (match sel with Some n => single_menu_mode_menu n false | None => mret false end);
  match sel, menu with
  | Some n, true => enter_menu_and_select_first d K fuel n
  | _, _ => class_key false Right_key
  end.

(** ** Files *)

(** The text and the code of an error, from "code: text". *)
Definition error_text (errno : string) : string :=
  let (code, text) := span (not_c ":") errno in sdrop 2 text +:+ " (errno: " +:+ code +:+ ")".

(** [_try_save] *)
Definition gui_try_save (save_fn : string → HIO string) (filename description : string) : G bool := λ g,
  match save_fn filename (g_host g) with
  | (Ok msg, h) => (set_status msg;; gmodify (λ g, set_g_host (print msg (g_host g)) g);; mret true) (set_g_host h g)
  | (Raise (OSError e), h) =>
      (show_box ("Error saving " +:+ description +:+ " to '" +:+ filename +:+ "': " +:+ error_text e);; mret false)
        (set_g_host h g)
  | (Raise e, h) => (Raise e, set_g_host h g)
  | (NoFuel, h) => (NoFuel, set_g_host h g)
  end.
Definition write_config_to (filename : string) : HIO string := write_config w K fuel (Some filename) None true.
Definition write_min_config_to (filename : string) : HIO string := write_min_config w K fuel filename None.

(** [_try_load]: the error is that of the file below [$srctree]. *)
Definition gui_try_load (filename : string) : G bool := λ g,
  match load_config w K fuel (Some filename) true (g_host g) with
  | Ok (msg, h) => (set_status msg;; gmodify (λ g, set_g_host (print msg h) g);; mret true) g
  | Raise (OSError _) =>
      (show_box ("Error loading '" +:+ filename +:+ "': " +:+ error_text (w_errno w (path_join (k_srctree K) filename)));;
       mret false) g
  | Raise e => (Raise e, g)
  | NoFuel => (NoFuel, g)
  end.

Definition ask_filename : G string := wait_for (λ e, match e with File_chosen f => Some f | _ => None end).

(** [_save] *)
Definition gui_save : G () :=
  filename ← gget g_conf_filename;
  saved ← gui_try_save write_config_to filename "configuration";
  gwhen saved (set_conf_changed false).

(** The loops of [_save_as] and [_save_minimal]: the dialog comes back until the file
    is saved, and [chosen] remembers its name, or the dialog is cancelled. *)
Fixpoint save_as_loop (f : nat) (save_fn : string → HIO string) (description : string) (chosen : string → G ()) : G () :=
  match f with
  | O => gwait
  | S f =>
      filename ← ask_filename;
      if bool_decide (filename = "") then mret ()
      else
        saved ← gui_try_save save_fn filename description;
        if (saved : bool) then chosen filename else save_as_loop f save_fn description chosen
  end.

(** [_save_as] *)
Definition save_as : G () :=
  f ← gget n_answers;
  save_as_loop f write_config_to "configuration"
    (λ filename, gmodify (λ g, set_g_filenames filename (g_minconf_filename g) g)).

(** [_save_minimal] *)
Definition save_minimal : G () :=
  f ← gget n_answers;
  save_as_loop f write_min_config_to "minimal configuration"
    (λ filename, gmodify (λ g, set_g_filenames (g_conf_filename g) filename g)).

Fixpoint open_loop (f : nat) : G () :=
  match f with
  | O => gwait
  | S f =>
      filename ← ask_filename;
      if bool_decide (filename = "") then mret ()
      else
        loaded ← gui_try_load filename;
        if (loaded : bool) then
          gmodify (λ g, set_g_filenames filename (g_minconf_filename g) g);;
          changed ← (λ g, (gui_needs_save K fuel (g_host g), g));
          set_conf_changed changed;;
          single ← gget g_single_menu;
          all ← gget g_show_all;
          menu ← gget g_cur_menu;
          (if (single : bool) then
             shown ← gread (shown_menu_nodes K fuel all menu);
             gwhen (bool_decide (shown = [])) (set_show_all_var true)
           else mret ());;
          update_tree K fuel
        else open_loop f
  end.

(** [_open] *)
Definition gui_open : G () :=
  changed ← gget g_conf_changed;
  go ← (if (changed : bool) then wait_for (λ e, match e with Ask_ok b => Some b | _ => None end) else mret true);
  if (go : bool) then f ← gget n_answers; open_loop f else mret ().

(** [_quit] *)
Definition gui_quit (msg : option string) : G () := gmodify (λ g,
  let h := match msg with Some m => print m (g_host g) | None => g_host g end in
  set_g_reports (g_boxes g) (g_errors g) true (set_g_host h g)).

(** The question of [_on_quit], asked again when the file could not be saved *)
Fixpoint on_quit_loop (f : nat) (filename : string) : G () :=
  match f with
  | O => gwait
  | S f =>
      answer ← wait_for (λ e, match e with Ask_ync a => Some a | _ => None end);
      match answer with
      | None => mret ()
      | Some false => gui_quit (Some ("Configuration (" +:+ filename +:+ ") was not saved"))
      | Some true =>
          saved ← gui_try_save write_config_to filename "configuration";
          if (saved : bool) then gui_quit None else on_quit_loop f filename
      end
  end.

(** [_on_quit] *)
Definition on_quit : G () :=
  changed ← gget g_conf_changed;
  filename ← gget g_conf_filename;
  if (changed : bool) then f ← gget n_answers; on_quit_loop f filename
  else gui_quit (Some ("No changes to save (for '" +:+ filename +:+ "')")).
End Callbacks.
