(* ===== verification/GuiLoop.v ===== *)
(** * The main loop of the graphical interface: guiconfig

    The search dialog, the dispatch of the events of the main window, and
    [menuconfig], which sets up the state and runs the loop until the user quits or
    no event is left. *)

From S2P Require Import Prelude PyStr PyText Kconst Expr Escape Incr Objects ParseState.
From S2P Require Import Printing Values Reads Session ConfigFile ConfigWrite.
From S2P Require Import MenuView MenuInfo MenuKeys MenuLoop GuiTree GuiView GuiState GuiBuild GuiKeys.
From stdpp Require Import options.

Section Loop.
Variable w : world.
Variable d : display.
Variable K : kconfig.
Variable fuel : nat.
Variable re_search : string → option (string → bool).

(** ** The search dialog *)

(** [jump_to_selected], after a key or button or a double click on an element:
    whether the dialog was closed. *)
Definition jump_to_selected (e : option element) : G (option ()) :=
  match e with
  | Some (Image | Heading) => mret None
  | _ =>
      sel ← gget (λ g, selection (tree_of true g));
      match sel with
      | [] => mret None
      | n :: _ =>
          menu ← glift (gui_parent_menu K fuel n);
          all ← gget g_show_all;
          shown ← gread (shown_menu_nodes K fuel all menu);
          (if mem n shown then mret ()
           else
             set_show_all_var true;;
             single ← gget g_single_menu;
             gwhen (negb single) (update_tree K fuel));;
          gui_jump_to d K fuel n;;
          mret (Some ())
      end
  end.

(** What an event does in the dialog; [Some ()] closes it. *)
Definition jump_event (e : gevent) : G (option ()) :=
  let stay (m : G ()) : G (option ()) := m;; mret None in
  match e with
  | Search_for s => stay (update_jump_to_matches K fuel re_search s)
  | Press e y => stay (tree_click d K fuel true e y)
  | Double_press e _ => jump_to_selected (Some e)
  | Enter_key => jump_to_selected None
  | Jump_button => jump_to_selected None
  | Space_key => stay (tree_toggle d K fuel true)
  | Tri_key v => stay (tree_set_val d K fuel v true)
  | Up_key | Down_key | Left_key | Right_key => stay (class_key d K fuel true e)
  | Close_dialog => mret (Some ())
  | _ => mret None
  end.

Fixpoint jump_loop (f : nat) : G () :=
  match f with
  | O => gwait
  | S f =>
      select_events K fuel;;
      e ← wait_for Some;
      closed ← callback_opt (jump_event e);
      match closed with Some _ => mret () | None => jump_loop f end
  end.

(** [_jump_to_dialog] *)
Definition gui_jump_to_dialog : G () :=
  t ← glift (create_kconfig_tree K fuel);
  gmodify (λ g, set_g_jump (Some (set_children [] t)) (g_jump_matches g) "" g);;
  f ← gget n_answers;
  jump_loop f;;
  gmodify (λ g, set_g_jump None (g_jump_matches g) "" g).

(** ** The main window *)

(** [_toggle_showname] *)
Definition toggle_showname : G () :=
  gmodify (λ g, set_g_modes (g_show_all g) (negb (g_show_name g)) (g_single_menu g) g);; do_showname d.

(** [_toggle_showall] *)
Definition toggle_showall : G () := all ← gget g_show_all; set_show_all_var (negb all);; do_showall d K fuel.

(** [_toggle_tree_mode]; [tree_mode_updated] copies the variable to [_single_menu]. *)
Definition toggle_tree_mode : G () :=
  gmodify (λ g, set_g_modes (g_show_all g) (g_show_name g) (negb (g_single_menu g)) g);; do_tree_mode d K fuel.

(** The buttons, check boxes and shortcuts *)
Definition run_command (c : command) : G () :=
  match c with
  | Save => gui_save w K fuel
  | Save_as => save_as w K fuel
  | Save_minimal => save_minimal w K fuel
  | Open => gui_open w K fuel
  | Jump_to => gui_jump_to_dialog
  | Show_name => toggle_showname
  | Show_all => toggle_showall
  | Single_menu => toggle_tree_mode
  | Back =>
      enabled ← gget (λ g, g_single_menu g && g_back g);
      gwhen enabled (gui_leave_menu d K fuel)
  | Quit => on_quit w K fuel
  end.

(** The bindings of the main Treeview and of the main window. *)
Definition handle_event (e : gevent) : G () :=
  match e with
  | Press e y => tree_click d K fuel false e y
  | Double_press e y => tree_double_click d K fuel e y
  | Enter_key => tree_enter d K fuel false
  | Space_key => tree_toggle d K fuel false
  | Left_key => tree_left_key d K fuel
  | Right_key => tree_right_key d K fuel
  | Up_key | Down_key => class_key d K fuel false e
  | Tri_key v => tree_set_val d K fuel v false
  | Command c => run_command c
  | _ => mret ()
  end.

(** [_root.mainloop()] *)
Fixpoint gui_loop (f : nat) : G () := λ g,
  match f, g_events g, g_quit g with
  | S f, e :: l, false =>
      (gmodify (set_g_events l);; callback (handle_event e);; select_events K fuel;; gui_loop f) g
  | _, _, _ => (Ok (), g)
  end.

(** ** The start *)

Definition initial_gui (h : host) (t : treeview) (events : list gevent) : gui :=
  Gui h t None [] "" (k_top_node K) false false false "" "" false "" false "" "" (d_width d, None) [] [] false events.

Definition empty_message : string :=
  "Empty configuration -- nothing to configure." +:+ nl +:+ nl +:+ "Check that environment variables are set properly.".

(** [menuconfig] up to the main loop *)
Definition gui_start : G () :=
  gmodify (λ g, set_g_filenames (standard_config_filename w) (g_minconf_filename g) g);;
  filename ← gget g_conf_filename;
  changed ← ghost (gui_load_config K fuel w filename);
  set_conf_changed changed;;
  gmodify (λ g, set_g_filenames (g_conf_filename g) "defconfig" g);;
  nothing ← nothing_shown K fuel;
  gwhen nothing (set_show_all_var true);;
  nothing ← nothing_shown K fuel;
  if (nothing : bool) then show_box empty_message;; gui_quit None
  else update_tree K fuel;; select_first d.

(** [menuconfig] *)
Definition guiconfig (h : host) (events : list gevent) : outcome () * gui :=
  match create_kconfig_tree K fuel with
  | Ok t => (gui_start;; select_events K fuel;; gui_loop (S (length events))) (initial_gui h t events)
  | Raise e => (Raise e, initial_gui h empty_tree events)
  | NoFuel => (NoFuel, initial_gui h empty_tree events)
  end.
End Loop.
