(* ===== verification/MenuDivergences.v ===== *)
(** * Where the interfaces fail

    Closed runs of menuconfig, from the keys typed to the exception that ends the
    program, and of guiconfig, from the actions of the user to the exceptions that
    Tk reports. *)

From S2P Require Import Prelude PyStr PyText Kconst Expr Escape Incr Objects ParseState Preproc Lexer.
From S2P Require Import Parser MenuTree Printing DepLoop Sanity Values Reads Session Check.
From S2P Require Import Deps Load ConfigFile ConfigWrite Demo Divergences EditText MenuView MenuNav MenuInfo.
From S2P Require Import MenuKeys MenuLoop MenuDraw GuiTree GuiView GuiState GuiBuild GuiKeys GuiLoop.
From stdpp Require Import options.

(** Regular expressions without special characters. *)
Definition literal_search (r : string) : option (string → bool) := Some (contains r).

Definition typed (s : string) : list event := Key ∘ KChar <$> String.list_ascii_of_string s.

(** The rows on the screen after the keys, in a terminal of 24 rows. *)
Definition screen_after (K : kconfig) (events : list event) : outcome (list string) :=
  let! o := start (one_file "") K 60 (24, 80)%Z (host_after K [] []) events in
  match o with
  | None => Ok []
  | Some u =>
      let! (_, u) := main_loop (one_file "") K 60 None id "/src" literal_search (n_events u) u in
      let! rows := draw_rows K 60 (h_session (u_host u)) (u_show_name u) (u_view u) in
      Ok ((λ r, (if is_selection (row_style r) then ">" else " ") +:+ row_text r) <$> rows)
  end.

(** The space key on a symbol whose default is above its visibility: the value is
    not in [assignable], and [assignable.index] raises. *)
Theorem toggle_strong_default_crashes :
  screen_after strong_default (typed "jj")
    = Ok [" [*] Modules (NEW)"; " <M> V (NEW)"; ">" +:+ "<*>     X (NEW)"] ∧
  screen_after strong_default (typed "jj ") = Raise ValueError.
Proof. split; vm_compute; reflexivity. Qed.

Definition two_prompts : kconfig := Eval vm_compute in configuration
  ["config COND"; " bool 'C'"; "config S"; " bool 'First' if COND"; " default y";
   "config T"; " bool 'T'"; " depends on S"; "comment 'end'"; "config S"; " bool 'Second'"].

(** The n key on a symbol that is shown only because a child is visible: the
    symbol disappears, and [_update_menu] does not find it. *)
Theorem disable_parent_crashes :
  screen_after two_prompts (typed "j")
    = Ok [" [ ] C (NEW)"; ">[*]     First (NEW)"; " [ ]         T (NEW)"; "     *** end ***"; " [*] Second (NEW)"] ∧
  screen_after two_prompts (typed "jn") = Raise ValueError.
Proof. split; vm_compute; reflexivity. Qed.

Definition two_locations : kconfig := Eval vm_compute in configuration
  ["config X"; " bool 'X'"; "choice CH"; " prompt 'Mode' if X"; "config FAST"; " bool 'Fast'";
   "config SLOW"; " bool 'Slow'"; "endchoice"; "comment 'end'"; "choice CH"; " prompt 'Mode 2'"; "endchoice"].

(** Searching for a symbol of a choice and leaving the choice again, at a location
    where the prompt of the choice is invisible. *)
Theorem leave_found_choice_crashes :
  screen_after two_locations (typed "/fast" ++ [Key enter]) = Ok [">(X) Fast"; " ( ) Slow"] ∧
  screen_after two_locations (typed "/fast" ++ [Key enter; Key KEY_LEFT]) = Raise ValueError.
Proof. split; vm_compute; reflexivity. Qed.

Definition open_range : kconfig := Eval vm_compute in configuration
  ["config LOW"; " int"; "config N"; " int 'N'"; " range LOW 10"; " default 3"].

(** Entering a number for a symbol with a range whose bound has no value: the
    library takes such a bound as 0, the interface applies [int] to it. *)
Theorem range_without_value_crashes :
  let n := sym_named open_range "N" in
  answers_of open_range [SetValue n (UStr "34"); Read (QStr n); SetValue n (UStr "4"); Read (QStr n)]
    = Some [ABool true; AVal (VStr "3"); ABool true; AVal (VStr "4")] ∧
  screen_after open_range [] = Ok [">(3) N (NEW)"] ∧
  screen_after open_range (typed " 4" ++ [Key enter]) = Raise ValueError.
Proof. split_and!; vm_compute; reflexivity. Qed.

(** A window of 20 rows of 20 pixels that shows every row from the top. *)
Definition plain_display : display :=
  Display (λ t n, mem n (rows t)) (λ t y, rows t !! Z.to_nat (y / 20)) 400 300 20 (λ _ r, Z.max 0 r) (λ t _, t_first t).

(** A row: [>] if selected, the tags and the text. *)
Definition show_row (t : treeview) (n : nat) : string :=
  (if mem n (selection t) then ">" else " ") +:+ sjoin "," (default [] (t_tags t !! n)) +:+ "|" +:+ text_of n t.
Definition shown_rows (t : treeview) : list string := show_row t <$> rows t.

Definition run_gui (K : kconfig) (events : list gevent) : outcome () * gui :=
  guiconfig (one_file "") plain_display K 60 literal_search (host_after K [] []) events.

(** The rows of the main tree and the exceptions reported. *)
Definition gui_after (K : kconfig) (events : list gevent) : list string * list exn :=
  let g := snd (run_gui K events) in (shown_rows (g_tree g), g_errors g).

Definition tri_value_in (g : gui) (K : kconfig) (name : string) : outcome Z :=
  tri_now K 60 (ISym (sym_named K name)) (g_session g).

Definition hidden_parent : kconfig := Eval vm_compute in configuration
  ["config A"; " bool 'A' if n"; " default y"; "config B"; " bool 'B'"; " depends on A"].

(** Turning show-all mode off when the items on the top level are all red: the
    search for an item that stays does not look below red items and finds none,
    and the tree is left as it was although the mode has changed. *)
Theorem show_all_off_crashes :
  gui_after hidden_parent [] = ([">y-locked|A (NEW)"], []) ∧
  gui_after hidden_parent [Command Show_all] = ([">y-locked,invisible|A (NEW)"], []) ∧
  gui_after hidden_parent [Command Show_all; Command Show_all] = ([">y-locked,invisible|A (NEW)"], [TclError]) ∧
  g_show_all (snd (run_gui hidden_parent [Command Show_all; Command Show_all])) = false.
Proof. split_and!; vm_compute; reflexivity. Qed.

Definition one_menuconfig : kconfig := Eval vm_compute in configuration
  ["config BAR"; " bool 'Bar'"; "menuconfig FOO"; " bool 'Foo'"; "if FOO"; "config X"; " bool 'X'"; "endif"].

(** Entering a menu in single-menu mode. *)
Definition in_foo : list gevent := [Down_key; Tri_key 2; Command Single_menu; Right_key].

(** Disabling the symbol of the current menu from the search dialog leaves an empty
    tree.  The next change of a value takes effect, but raises before anything that
    shows it is updated. *)
Theorem emptied_menu_crashes :
  let empty := in_foo ++ [Command Jump_to; Search_for "foo"; Tri_key 0] in
  let set_bar := empty ++ [Search_for "bar"; Tri_key 2] in
  let g := snd (run_gui one_menuconfig set_bar) in
  gui_after one_menuconfig in_foo = ([">n-bool|X (NEW)"], []) ∧
  gui_after one_menuconfig empty = ([], []) ∧
  gui_after one_menuconfig set_bar = ([], [IndexError]) ∧
  tri_value_in g one_menuconfig "BAR" = Ok 2%Z ∧
  shown_rows <$> g_jump_tree g = Some [">n-bool|Bar (NEW)"].
Proof. cbv zeta. split_and!; vm_compute; reflexivity. Qed.

(** "Save as" leaves the configuration marked as changed: quitting asks whether to
    save it.  After "Save" it does not. *)
Theorem save_as_stays_changed :
  let g1 := snd (run_gui one_menuconfig [Tri_key 2; Command Save; Command Quit]) in
  let r2 := run_gui one_menuconfig [Tri_key 2; Command Save_as; File_chosen "out"; Command Quit] in
  g_quit g1 = true ∧ g_conf_changed g1 = false ∧
  h_files (g_host (snd r2)) !! "out" = h_files (g_host g1) !! ".config" ∧
  g_conf_filename (snd r2) = "out" ∧ g_conf_changed (snd r2) = true ∧
  fst r2 = NoFuel ∧ g_quit (snd r2) = false.
Proof. cbv zeta. split_and!; vm_compute; reflexivity. Qed.
