(* ===== verification/Lint.v ===== *)
(** * lint.py: checks of Kconfig files

    The checks of the linter and what they print.  Running a program is a
    parameter ([popen]): its output and error streams and exit status, or the error
    that prevents it from starting.  The regular expressions of the script are
    deterministic, and are written as functions on strings. *)

From S2P Require Import Prelude PyStr PyText Kconst Expr Escape Incr Objects ParseState Preproc.
From S2P Require Import Lexer Parser Printing MenuTree Values Reads Session Meaning Effects Check Deps Load ConfigFile.
From S2P Require Import Repr MenuView Demo Divergences.
From stdpp Require Import options.

(** ** Computations: the output and the errors written *)

Record process : Type := Process { pr_stdout : string; pr_stderr : string; pr_status : Z }.

Record streams : Type := Streams { st_out : string; st_err : string }.

Definition L (A : Type) : Type := streams → outcome A * streams.
#[global] Instance L_ret : MRet L := λ A a s, (Ok a, s).
#[global] Instance L_bind : MBind L := λ A B f m s,
  match m s with
  | (Ok a, s) => f a s
  | (Raise e, s) => (Raise e, s)
  | (NoFuel, s) => (NoFuel, s)
  end.
Definition llift {A} (o : outcome A) : L A := λ s, (o, s).
(** [print(s, end="")] *)
Definition write (text : string) : L () := λ s, (Ok (), Streams (st_out s +:+ text) (st_err s)).
Definition print_line (text : string) : L () := write (text +:+ nl).
Definition write_err (text : string) : L () := λ s, (Ok (), Streams (st_out s) (st_err s +:+ text)).

Fixpoint lfor {A} (f : A → L ()) (l : list A) : L () :=
  match l with
  | [] => mret ()
  | x :: l => f x;; lfor f l
  end.

Fixpoint lmap {A B} (f : A → L B) (l : list A) : L (list B) :=
  match l with
  | [] => mret []
  | x :: l => y ← f x; ys ← lmap f l; mret (y :: ys)
  end.

(** ** Regular expressions *)

(** [re.findall] for an expression that matches no empty text: [m] gets the
    character before the position and the text from there, and answers with the
    group, the last character matched and the rest. *)
Fixpoint findall_aux (m : option ascii → string → option (string * ascii * string)) (f : nat) (prev : option ascii)
    (s : string) : list string :=
  match f, s with
  | S f, String c s' =>
      match m prev s with
      | Some (g, last, rest) => g :: findall_aux m f (Some last) rest
      | None => findall_aux m f (Some c) s'
      end
  | _, _ => []
  end.
Definition findall (m : option ascii → string → option (string * ascii * string)) (s : string) : list string :=
  findall_aux m (slen s) None s.

(** [[A-Z0-9_]] *)
Definition is_macro_char (c : ascii) : bool := is_upper c || is_digit c || c_eqb c "_".
Definition not_word (o : option ascii) : bool := match o with Some c => negb (is_word c) | None => true end.
Definition last_char (s : string) : ascii := default "_"%char (s_at (slen s - 1) s).

(** [[A-Z0-9_]+\b]: the longest match, since a shorter one ends inside a word *)
Definition macro_name (s : string) : option (string * string) :=
  let (name, rest) := span is_macro_char s in
  if bool_decide (name = "") || negb (not_word (s_at 0 rest)) then None else Some (name, rest).

(** [#\s*define\s+([A-Z0-9_]+)\b] *)
Definition define_match (prev : option ascii) (s : string) : option (string * ascii * string) :=
  if startswith "#" s then
    let s := lstrip (sdrop 1 s) in
    if startswith "define" s then
      let s := sdrop 6 s in
      if bool_decide (lstrip s = s) then None
      else '(name, rest) ← macro_name (lstrip s); Some (name, last_char name, rest)
    else None
  else None.

(** [\bCONFIG_[A-Z0-9_]+\b] *)
Definition config_match (prev : option ascii) (s : string) : option (string * ascii * string) :=
  if not_word prev && startswith "CONFIG_" s then
    '(name, rest) ← macro_name (sdrop 7 s); Some ("CONFIG_" +:+ name, last_char name, rest)
  else None.

(** [[\s#]*CONFIG_[A-Z0-9_]+=.*] at the start of a line *)
Definition assigns (line : string) : bool :=
  let s := lstrip_by (λ c, is_pyspace c || c_eqb c "#") line in
  startswith "CONFIG_" s &&
    (let (name, rest) := span is_macro_char (sdrop 7 s) in negb (bool_decide (name = "")) && startswith "=" rest).

(** [shlex.quote] *)
Definition safe_char (c : ascii) : bool := is_word c || has_char c "@%+=:,./-".
Definition shlex_quote (s : string) : string :=
  if bool_decide (s = "") then "''"
  else if s_all safe_char s then s
  else "'" +:+ replace_char sq_c ("'" +:+ dquote +:+ "'" +:+ dquote +:+ "'") s +:+ "'".

Section Lint.
Variable argv0 : string.
Variable TOP_DIR : string.
Variable popen : list string → string → process + string.
Variable K : kconfig.
Variable fuel : nat.

(** ** Helpers *)

Definition executable : string := if bool_decide (argv0 = "") then "" else argv0 +:+ ": ".

(** [err] and [warn] *)
Definition err {A} (msg : string) : L A := llift (Raise (SystemExit (executable +:+ "error: " +:+ msg))).
Definition lint_warn (msg : string) : L () := write_err (executable +:+ "warning: " +:+ msg +:+ nl).

(** [run] *)
Definition run_cmd (cmd : list string) (cwd : string) (check : bool) : L string :=
  let cmd_s := sjoin " " (shlex_quote <$> cmd) in
  match popen cmd cwd with
  | inr e => err ("Failed to run '" +:+ cmd_s +:+ "': " +:+ e)
  | inl p =>
      (if check && negb (pr_status p =? 0)%Z then
         err ("'" +:+ cmd_s +:+ "' exited with status " +:+ py_str (pr_status p) +:+ "." +:+ nl +:+ nl
           +:+ "===stdout===" +:+ nl +:+ pr_stdout p +:+ nl +:+ "===stderr===" +:+ nl +:+ pr_stderr p)
       else mret ());;
      (if bool_decide (pr_stderr p = "") then mret ()
       else lint_warn ("'" +:+ cmd_s +:+ "' wrote to stderr:" +:+ nl +:+ pr_stderr p));;
      mret (pr_stdout p)
  end.

Definition print_header (s : string) : L () := print_line (s +:+ nl +:+ sconcat (repeat "=" (slen s))).

Definition file_and_line (n : nat) : string := n_filename (nod K n) +:+ ":" +:+ py_str (n_linenr (nod K n)).

(** [name_and_locs] *)
Definition name_and_locs (s : nat) : string :=
  ljust (s_name (sym K s)) 40 +:+ " " +:+ sjoin ", " (file_and_line <$> s_nodes (sym K s)).

Definition sym_has_prompt (s : nat) : bool := existsb (λ n, bool_decide (is_Some (n_prompt (nod K n)))) (s_nodes (sym K s)).
Definition is_selected_or_implied (s : nat) : bool :=
  negb (bool_decide (s_rev_dep (sym K s) = ESym (k_sym_n K))) || negb (bool_decide (s_weak_rev_dep (sym K s) = ESym (k_sym_n K))).
Definition has_defaults (s : nat) : bool := negb (bool_decide (s_defaults (sym K s) = [])).
Definition is_selecting_or_implying (s : nat) : bool :=
  negb (bool_decide (s_selects (sym K s) = [])) || negb (bool_decide (s_implies (sym K s) = [])).

(** [split_list] *)
Fixpoint split_list_aux {A} (f : nat) (l : list A) (batch_size : nat) : list (list A) :=
  match f, l with
  | S f, _ :: _ => take batch_size l :: split_list_aux f (drop batch_size l) batch_size
  | _, _ => []
  end.
Definition split_list {A} (l : list A) (batch_size : nat) : list (list A) := split_list_aux (length l) l batch_size.

Definition module_paths : L (list string) :=
  out ← run_cmd ["west"; "list"; "-f{abspath}"] TOP_DIR true; mret (splitlines out).

(** ** References to symbols *)

(** [referenced_in_kconfig] *)
Definition referenced_in_kconfig : L (gset string) :=
  l ← llift (node_iter fuel false K);
  mret (list_to_set (l ≫= λ n, elements (referenced (nod K n)) ≫= λ i,
    match i with ISym s => [s_name (sym K s)] | ICho _ => [] end)).

(** The names in one line that is not an assignment *)
Definition line_references (line : string) : list string :=
  if assigns line then [] else sdrop 7 <$> findall config_match line.

(** [referenced_outside_kconfig] *)
Definition referenced_outside_kconfig : L (gset string) :=
  mods ← module_paths;
  outs ← lmap (λ m, run_cmd ["git"; "grep"; "-h"; "-I"; "--extended-regexp"; "\bCONFIG_[A-Z0-9_]+\b"] m true) mods;
  mret (list_to_set ((outs ≫= splitlines) ≫= line_references)).

(** [referenced_sym_names] *)
Definition referenced_sym_names : L (gset string) :=
  a ← referenced_in_kconfig; b ← referenced_outside_kconfig; mret (a ∪ b).

(** ** The checks *)

Definition print_syms (p : nat → bool) : L () :=
  lfor (λ s, if p s then print_line (name_and_locs s) else mret ()) (k_unique_defined_syms K).

Definition always_n (s : nat) : bool := negb (sym_has_prompt s) && negb (is_selected_or_implied s) && negb (has_defaults s).

Definition check_always_n : L () :=
  print_header "Symbols that can't be anything but n/empty";; print_syms always_n.

Definition check_unused : L () :=
  print_header "Symbols that look unused";;
  names ← referenced_sym_names;
  print_syms (λ s, negb (is_selecting_or_implying s) && bool_decide (s_choice (sym K s) = None)
    && negb (bool_decide (s_name (sym K s) ∈ names))).

Definition check_pointless_menuconfigs : L () :=
  print_header "menuconfig symbols with empty menus";;
  l ← llift (node_iter fuel false K);
  lfor (λ n,
    match n_item (nod K n) with
    | NSym s =>
        if n_is_menuconfig (nod K n) && bool_decide (n_list (nod K n) = None)
        then print_line (ljust (s_name (sym K s)) 40 +:+ " " +:+ file_and_line n) else mret ()
    | _ => mret ()
    end) l.

Definition check_defconfig_only_definition : L () :=
  print_header "Symbols only defined in Kconfig.defconfig files";;
  print_syms (λ s, forallb (λ n, contains "defconfig" (n_filename (nod K n))) (s_nodes (sym K s))).

(** The expression for one batch of symbols *)
Definition missing_prefix_regex (batch : list nat) : string :=
  "(?:#\s*if(?:n?def)\s+|\bdefined\s*\(\s*|IS_ENABLED\(\s*)(?:" +:+
    sjoin "|" ((λ s, s_name (sym K s)) <$> batch) +:+ ")\b".

Definition check_missing_config_prefix : L () :=
  print_header "Symbol references that might be missing a CONFIG_ prefix";;
  mods ← module_paths;
  outs ← lmap (λ m, run_cmd ["git"; "grep"; "--extended-regexp"; "#\s*define\s+([A-Z0-9_]+)\b"] m false) mods;
  let defined : gset string := list_to_set (outs ≫= findall define_match) in
  let syms := filter (λ s, s_name (sym K s) ∉ defined) (k_unique_defined_syms K) in
  lfor (λ batch,
    lfor (λ m,
      out ← run_cmd ["git"; "grep"; "--line-number"; "-I"; "--perl-regexp"; missing_prefix_regex batch] m false;
      write out) mods) (split_list syms 200).

(** ** The program *)

Inductive lint_check : Type := Always_n | Unused | Pointless_menuconfigs | Defconfig_only | Missing_prefix.

Definition run_check (c : lint_check) : L () :=
  match c with
  | Always_n => check_always_n
  | Unused => check_unused
  | Pointless_menuconfigs => check_pointless_menuconfigs
  | Defconfig_only => check_defconfig_only_definition
  | Missing_prefix => check_missing_config_prefix
  end.

Definition all_checks : list lint_check := [Always_n; Unused; Pointless_menuconfigs; Defconfig_only; Missing_prefix].

Fixpoint run_checks (first : bool) (l : list lint_check) : L () :=
  match l with
  | [] => mret ()
  | c :: l => (if first then mret () else print_line "");; run_check c;; run_checks false l
  end.
End Lint.

Section Main.
Variable argv0 : string.
Variable TOP_DIR : string.
Variable popen : list string → string → process + string.
Variable w : world.
Variable fuel : nat.

(** [modules_file_dir]; [tmpdir] is the directory [mkdtemp] creates. *)
Definition modules_file_dir (tmpdir : string) : L string :=
  run_cmd argv0 popen [path_join "scripts" "zephyr_module.py"; "--kconfig-out"; path_join tmpdir "Kconfig.modules"] TOP_DIR true;;
  mret tmpdir.

(** [os.environ.update] *)
Definition lint_world (modules_dir : string) : world :=
  let env := [("srctree", TOP_DIR); ("CMAKE_BINARY_DIR", modules_dir); ("KCONFIG_DOC_MODE", "1"); ("ZEPHYR_BASE", TOP_DIR);
              ("SOC_DIR", "soc"); ("ARCH_DIR", "arch"); ("KCONFIG_BOARD_DIR", "boards/*/*"); ("ARCH", "*")] in
  World (λ name, match dict_get name env with Some v => Some v | None => w_env w name end)
    (w_file w) (w_errno w) (w_glob w) (w_shell w) (w_realpath w) (w_uname_release w) (w_functions w)
    (w_write w) (w_replace w).

(** [init_kconfig] *)
Definition init_kconfig (tmpdir : string) : L kconfig :=
  dir ← modules_file_dir tmpdir;
  p ← llift (kconfig_init (lint_world dir) argv0 fuel "Kconfig" true true true);
  write (sconcat (p_stdout p));;
  write_err (sconcat (stderr (p_log p)));;
  mret (p_k p).

(** [main]; [checks] is [args.checks], empty if none are given. *)
Definition lint_main (tmpdir : string) (checks : list lint_check) : L () :=
  K ← init_kconfig tmpdir;
  run_checks argv0 TOP_DIR popen K fuel true (match checks with [] => all_checks | _ => checks end).
End Main.

(** ** The meaning of a check *)
Section Sound.
Context {K : kconfig} {fuel : nat} {HK : Loaded K fuel}.

Abbreviation vis_of := (vis_of (K := K) (fuel := fuel)).
Abbreviation tri_of := (tri_of (K := K) (fuel := fuel)).

Lemma no_prompt_invisible u s : uok K u → sym_has_prompt K s = false → vis_of u (ISym s) = 0%Z.
Proof using HK.
  intros Hu Hp. destruct (prop_of_total (fuel := fuel) u Hu (QVis (ISym s))) as (v & Hv & Hok).
  unfold Meaning.vis_of. rewrite Hv. destruct v; try done. apply Hok. unfold prompt_conds. cbn [nodes].
  unfold sym_has_prompt in Hp. induction (s_nodes (sym K s)) as [|n l IH]; [done|]. cbn [existsb omap list_omap] in *.
  apply orb_false_iff in Hp as [Hn Hl]. apply bool_decide_eq_false in Hn. cbn.
  destruct (n_prompt (nod K n)); [by destruct Hn|]. by apply IH.
Qed.

Lemma n_is_n u : ev (K := K) (fuel := fuel) u (ESym (k_sym_n K)) = 0%Z.
Proof using HK K fuel.
  unfold ev. cbn [value item_of]. unfold Meaning.tri_of, prop_of. destruct fuel; [done|]. cbn. by rewrite decide_True.
Qed.

Lemma defined_not_constant s : s ∈ k_unique_defined_syms K → preset K (QTri s) = None.
Proof using HK.
  intros Hs. destruct (preset K (QTri s)) as [v|] eqn:Hv; [|done]. exfalso.
  apply (ld_const (fuel := fuel)) in Hv. apply Hv. unfold all_items. apply elem_of_app. left. apply list_elem_of_fmap. by exists s.
Qed.

(** A bool or tristate symbol that the check lists. *)
Lemma always_n_tri u s : uok K u → preset K (QTri s) = None → always_n K s = true → tri_of u s = 0%Z.
Proof using HK.
  intros Hu Hc [[Hp%negb_true_iff Hr%negb_true_iff]%andb_true_iff Hd%negb_true_iff]%andb_true_iff.
  pose proof (no_prompt_invisible u s Hu Hp) as Hv. apply orb_false_iff in Hr as [Hr Hw].
  apply negb_false_iff, bool_decide_eq_true in Hr, Hw, Hd.
  destruct (BOOL_TRISTATE (s_orig_type (sym K s))) eqn:Hb; [|by apply tri_of_other].
  rewrite (tri_of_eq u Hu s Hc Hb). destruct (s_choice (sym K s)) as [c|].
  { unfold choice_symbol_of. by rewrite Hv. }
  assert (implied_of (K := K) (fuel := fuel) u s = 0%Z) as Hi.
  { unfold implied_of, default_of. rewrite Hd, Hw, n_is_n. by destruct (_ =? _)%Z. }
  assert (own_of (K := K) (fuel := fuel) u s = 0%Z) as Ho.
  { unfold own_of. rewrite Hv. by destruct (user_value u !! s) as [[]|]. }
  unfold raise_of. by rewrite Ho, Hr, n_is_n.
Qed.

(** C34: What [check_always_n] lists can be nothing else: whatever the user values,
    a listed symbol has the tristate value n, and its value is n if it is bool or
    tristate and empty if it is a string, int or hex symbol without a range. *)
Theorem always_n_sound σ s :
  session_ok (K := K) σ → s ∈ k_unique_defined_syms K → always_n K s = true →
  reads (K := K) (fuel := fuel) σ (QTri s) (VTri 0) ∧
  (s_orig_type (sym K s) ≠ UNKNOWN → s_ranges (sym K s) = [] →
   reads (K := K) (fuel := fuel) σ (QStr s) (VStr (if BOOL_TRISTATE (s_orig_type (sym K s)) then "n" else ""))).
Proof using HK.
  intros Hσ Hs Ha. pose proof Hσ as [Hu _]. pose proof (always_n_tri _ s Hu (defined_not_constant s Hs) Ha) as Ht.
  split; [by apply reads_tri|]. intros Hk Hr. apply reads_str; [done|]. rewrite (str_of_eq _ Hu s), Ht.
  unfold always_n in Ha. apply andb_true_iff in Ha as [[Hp%negb_true_iff _]%andb_true_iff Hd%negb_true_iff%negb_false_iff%bool_decide_eq_true].
  pose proof (no_prompt_invisible _ s Hu Hp) as Hv.
  assert (string_default_of (K := K) (fuel := fuel) (uvals σ) s = "") as Hdef by by unfold string_default_of; rewrite Hd.
  assert (∀ base, num_value_of (K := K) (fuel := fuel) (uvals σ) base s = "") as Hnum.
  { intros base. assert (range_of (K := K) (fuel := fuel) (uvals σ) base s = None) as Hrange by by unfold range_of; rewrite Hr.
    unfold num_value_of, num_default_of. rewrite Hrange, Hv, Hdef. by destruct (user_value (uvals σ) !! s) as [[]|]. }
  destruct (s_orig_type (sym K s)); try done; cbn; [|by rewrite Hnum..].
  unfold string_value_of. rewrite Hv, Hdef. by destruct (user_value (uvals σ) !! s) as [[]|].
Qed.
End Sound.

(** ** Concrete runs *)

Definition linted : kconfig := Eval vm_compute in configuration
  ["config U"; " bool"; "config N"; " int"; " range 1 10"; "config V"; " bool 'V'"; "menuconfig M"; " bool 'M'"; " select V"].

#[export] Instance linted_Loaded : Loaded linted 60 := checked_Loaded linted 60 ltac:(vm_compute; reflexivity).

Definition linted_session : session := initial_session linted quiet.

Lemma always_n_sound_witness :
  reads (K := linted) (fuel := 60) linted_session (QTri (sym_named linted "U")) (VTri 0) ∧
  reads (K := linted) (fuel := 60) linted_session (QStr (sym_named linted "U")) (VStr "n").
Proof.
  destruct (always_n_sound (K := linted) (fuel := 60) linted_session (sym_named linted "U")) as [H1 H2].
  - apply (initial_session_ok (fuel := 60)).
  - vm_compute. left.
  - vm_compute. reflexivity.
  - split; [exact H1|]. apply H2; vm_compute; [discriminate|reflexivity].
Defined.

(** A listed symbol with a range has the lower bound as its value. *)
Example listed_with_range :
  always_n linted (sym_named linted "N") = true ∧ str_now linted 60 (sym_named linted "N") linted_session = Ok "1".
Proof. split; vm_compute; reflexivity. Qed.

(** One module, with two lines that mention symbols. *)
Definition no_programs (cmd : list string) (cwd : string) : process + string :=
  match cmd with
  | "west" :: _ => inl (Process ("/mod" +:+ nl) "" 0)
  | "git" :: "grep" :: "-h" :: _ => inl (Process ("#ifdef CONFIG_V /* XCONFIG_U */" +:+ nl +:+ "# CONFIG_U=y" +:+ nl) "" 0)
  | _ => inl (Process ("#  define N" +:+ nl +:+ "#define V_ 1" +:+ nl) "odd" 1)
  end.

Definition lint_run (c : lint_check) : outcome () * streams :=
  run_check "lint" "/top" no_programs linted 60 c (Streams "" "").

Example lint_outputs :
  splitlines (st_out (snd (lint_run Always_n))) =
    ["Symbols that can't be anything but n/empty"; "==========================================";
     ljust "U" 40 +:+ " Kconfig:1"; ljust "N" 40 +:+ " Kconfig:3"] ∧
  splitlines (st_out (snd (lint_run Unused))) =
    ["Symbols that look unused"; "========================"; ljust "U" 40 +:+ " Kconfig:1"; ljust "N" 40 +:+ " Kconfig:3"] ∧
  splitlines (st_out (snd (lint_run Pointless_menuconfigs))) =
    ["menuconfig symbols with empty menus"; "==================================="; ljust "M" 40 +:+ " Kconfig:8"] ∧
  st_err (snd (lint_run Missing_prefix)) <> "".
Proof. split_and!; vm_compute; [reflexivity..|discriminate]. Qed.

Example regular_expressions :
  findall config_match "CONFIG_A1 xCONFIG_B CONFIG_c (CONFIG_D_)CONFIG_E" = ["CONFIG_A1"; "CONFIG_D_"; "CONFIG_E"] ∧
  findall define_match ("# define  A 1" +:+ nl +:+ "#define Bx" +:+ nl +:+ "#define C") = ["A"; "C"] ∧
  assigns " # CONFIG_A=y" = true ∧ assigns "x CONFIG_A=y" = false ∧
  shlex_quote "a b" = "'a b'" ∧ shlex_quote "-f{x}" = "'-f{x}'" ∧ shlex_quote "a-b" = "a-b".
Proof. split_and!; vm_compute; reflexivity. Qed.
