(* ===== verification/Tools.v ===== *)
(** * The small programs

    hardenconfig.py, which compares a configuration with a table of recommended
    values; diffconfig, which compares two .config files; and the scripts that
    compare versions and render templates.  The packages they call are parameters:
    the reader of CSV and JSON files, version numbers, templates. *)

From S2P Require Import Prelude PyStr PyText Kconst Expr Escape Incr Objects ParseState Preproc.
From S2P Require Import Lexer Parser Printing MenuTree Values Session Check Deps Load ConfigFile ConfigWrite MenuView.
From S2P Require Import Demo Divergences.
From stdpp Require Import options.

(** ** hardenconfig.py *)

Definition EXPERIMENTAL : string := "EXPERIMENTAL".
Definition DEPRECATED : string := "DEPRECATED".
Definition NOT_SECURE : string := "NOT_SECURE".

(** class Option *)
Record hoption : Type := HOption {
  o_name : string;
  o_recommended : string;
  o_current : option string;
  o_symbol : option nat;
  o_result : string
}.

Definition new_option (name recommended : string) (current : option string) (symbol : option nat) : hoption :=
  HOption name recommended current symbol
    (match current with
     | None => "NA"
     | Some c => if bool_decide (recommended = c) then "PASS" else "FAIL"
     end).

(** [{:^n}]: centred, with the odd blank on the right *)
Definition center (n : nat) (s : string) : string :=
  let pad := n - slen s in spaces (pad / 2) +:+ s +:+ spaces (pad - pad / 2).

Section Harden.
Variable w : world.
Variable K : kconfig.
Variable fuel : nat.

(** The rows of [hardened.csv]. *)
Fixpoint options_of_rows (rows : list (list string)) (σ : session) : outcome (list hoption * session) :=
  match rows with
  | [] => Ok ([], σ)
  | (name :: recommended :: _) :: rows =>
      match dict_get name (k_syms K) with
      | Some s =>
          let! (current, σ) := str_value K fuel s σ in
          let! (l, σ) := options_of_rows rows σ in
          Ok (new_option name recommended (Some current) (Some s) :: l, σ)
      | None =>
          let! (l, σ) := options_of_rows rows σ in
          Ok (new_option name recommended None None :: l, σ)
      end
  | _ :: rows => options_of_rows rows σ
  end.

(** [kconf.syms[name] in select] *)
Definition in_select (name : string) (select : nat * expr) : outcome bool :=
  match dict_get name (k_syms K) with
  | Some s => Ok (bool_decide (s = select.1) || bool_decide (select.2 = ESym s))
  | None => Raise KeyError
  end.

Definition discouraged (select : nat * expr) : outcome bool :=
  let! a := in_select EXPERIMENTAL select in
  if a then Ok true
  else
    let! b := in_select DEPRECATED select in
    if b then Ok true else in_select NOT_SECURE select.

Fixpoint options_of_selects (i : nitem) (l : list (nat * expr)) (σ : session) : outcome (list hoption * session) :=
  match l with
  | [] => Ok ([], σ)
  | select :: l =>
      let! b := discouraged select in
      if b then
        match i with
        | NSym s =>
            let! (current, σ) := str_value K fuel s σ in
            let! (os, σ) := options_of_selects i l σ in
            Ok (new_option (s_name (sym K s)) "n" (Some current) (Some s) :: os, σ)
        | _ => Raise AttributeError
        end
      else options_of_selects i l σ
  end.

Fixpoint options_of_nodes (l : list nat) (σ : session) : outcome (list hoption * session) :=
  match l with
  | [] => Ok ([], σ)
  | n :: l =>
      let! (a, σ) := options_of_selects (n_item (nod K n)) (n_selects (nod K n)) σ in
      let! (b, σ) := options_of_nodes l σ in
      Ok (a ++ b, σ)
  end.

(** [compare_with_hardened_conf]; [csv] gives the rows of a file, if it can be opened. *)
Definition compare_with_hardened_conf (csv : string → option (list (list string))) (filename : string) (σ : session)
    : outcome (list hoption * session) :=
  match csv filename with
  | None => Raise (OSError (w_errno w filename))
  | Some rows =>
      let! (a, σ) := options_of_rows rows σ in
      let! l := node_iter fuel false K in
      let! (b, σ) := options_of_nodes l σ in
      Ok (a ++ b, σ)
  end.

(** [display_results]: the text printed *)
Definition results_header : string :=
  center 50 "name" +:+ "|" +:+ center 13 "current" +:+ "|" +:+ center 20 "recommended"
    +:+ "||" +:+ center 28 "check result" +:+ nl +:+ sconcat (repeat "=" 116) +:+ nl.

Definition option_line (o : hoption) : string :=
  "CONFIG_" +:+ ljust (o_name o) 43 +:+ "|" +:+ center 13 (default "None" (o_current o)) +:+ "|"
    +:+ center 20 (o_recommended o) +:+ "||" +:+ center 28 (o_result o) +:+ nl.

Fixpoint result_lines (l : list hoption) (σ : session) : outcome (string * session) :=
  match l with
  | [] => Ok ("", σ)
  | o :: l =>
      let! (shown, σ) :=
        if bool_decide (o_result o = "FAIL") then
          match o_symbol o with
          | None => Raise AttributeError
          | Some s => let! (v, σ) := visibility_of K fuel (ISym s) σ in Ok (negb (v =? 0)%Z, σ)
          end
        else Ok (false, σ) in
      let! (rest, σ) := result_lines l σ in
      Ok ((if (shown : bool) then option_line o else "") +:+ rest, σ)
  end.

Definition display_results (l : list hoption) (σ : session) : outcome (string * session) :=
  let! (lines, σ) := result_lines l σ in
  Ok (results_header +:+ lines +:+ nl, σ).

(** [hardenconfig]: the text printed and the session *)
Definition hardenconfig (csv : string → option (list (list string))) (h : host) : outcome (string * session) :=
  let! (_, h) := load_config w K fuel None true h in
  match w_env w "ZEPHYR_BASE" with
  | None => Raise KeyError
  | Some base =>
      let filename := path_join (path_join (path_join base "scripts") "kconfig") "hardened.csv" in
      let! (l, σ) := compare_with_hardened_conf csv filename (h_session h) in
      display_results l σ
  end.
End Harden.

(** ** diffconfig *)

(** The entries of a file: a dict, the latest value at the position of the first. *)
Definition readconfig_line (d : list (string * string)) (line : string) : outcome (list (string * string)) :=
  let line := stake (slen line - 1) line in
  let! d :=
    if startswith "CONFIG_" line then
      let (name, rest) := span (λ c, negb (c_eqb c "=")) (sdrop 7 line) in
      if startswith "=" rest then Ok (dict_set name (sdrop 1 rest) d) else Raise ValueError
    else Ok d in
  Ok (if endswith " is not set" line then dict_set (s_slice 9 (slen line - 11) line) "n" d else d).

Fixpoint readconfig (d : list (string * string)) (lines : list string) : outcome (list (string * string)) :=
  match lines with
  | [] => Ok d
  | line :: lines => let! d := readconfig_line d line in readconfig d lines
  end.

(** [print_config] *)
Definition print_config (merge_style : bool) (op config : string) (value new_value : option string) : string :=
  let text o := default "None" o in
  if merge_style then
    match new_value with
    | None | Some "" => ""
    | Some v => if bool_decide (v = "n") then "# CONFIG_" +:+ config +:+ " is not set" +:+ nl
                else "CONFIG_" +:+ config +:+ "=" +:+ v +:+ nl
    end
  else if bool_decide (op = "-") then "-" +:+ config +:+ " " +:+ text value +:+ nl
  else if bool_decide (op = "+") then "+" +:+ config +:+ " " +:+ text new_value +:+ nl
  else " " +:+ config +:+ " " +:+ text value +:+ " -> " +:+ text new_value +:+ nl.

(** The items removed, changed and added, each in the order of their names *)
Definition diff_configs (merge_style : bool) (a b : list (string * string)) : string :=
  let old := py_sorted (filter (λ c, dict_get c b = None) (fst <$> a)) in
  let common := filter (λ c, dict_get c b ≠ None) (fst <$> a) in
  let changed := py_sorted (filter (λ c, dict_get c a ≠ dict_get c b) common) in
  let new := py_sorted (filter (λ c, dict_get c a = None) (fst <$> b)) in
  sconcat ((λ c, print_config merge_style "-" c (dict_get c a) None) <$> old)
    +:+ sconcat ((λ c, print_config merge_style "->" c (dict_get c a) (dict_get c b)) <$> changed)
    +:+ sconcat ((λ c, print_config merge_style "+" c None (dict_get c b)) <$> new).

(** [usage] *)
Definition diff_usage : string := sconcat ((λ line, line +:+ nl) <$>
  ["Usage: diffconfig [-h] [-m] [<config1> <config2>]";
   "";
   "Diffconfig is a simple utility for comparing two .config files.";
   "Using standard diff to compare .config files often includes extraneous and";
   "distracting information.  This utility produces sorted output with only the";
   "changes in configuration values between the two files.";
   "";
   "Added and removed items are shown with a leading plus or minus, respectively.";
   "Changed items show the old and new values on a single line.";
   "";
   "If -m is specified, then output will be in " +:+ dquote +:+ "merge" +:+ dquote +:+ " style, which has the";
   "changed and new values in kernel config option format.";
   "";
   "If no config files are specified, .config and .config.old are used.";
   "";
   "Example usage:";
   " $ diffconfig .config config-with-some-changes";
   "-EXT2_FS_XATTR  n";
   "-EXT2_FS_XIP  n";
   " CRAMFS  n -> y";
   " EXT2_FS  y -> n";
   " LOG_BUF_SHIFT  14 -> 16";
   " PRINTK_TIME  n -> y";
   ""]).

(** [list.remove]: without the first occurrence *)
Fixpoint list_remove (x : string) (l : list string) : list string :=
  match l with
  | [] => []
  | y :: l => if bool_decide (y = x) then l else y :: list_remove x l
  end.

Section Diffconfig.
(** [os.environ], and what [open] gives: a text, or the number and text of an error *)
Variable environ : string → option string.
Variable open_text : string → Z * string + string.

(** The files to compare, [None] if their number is wrong. *)
Definition diff_filenames (argv : list string) : option (string * string) :=
  match argv with
  | [_] =>
      let build_dir := match environ "KBUILD_OUTPUT" with Some dir => dir +:+ "/" | None => "" end in
      Some (build_dir +:+ ".config.old", build_dir +:+ ".config")
  | [_; configa; configb] => Some (configa, configb)
  | _ => None
  end.

(** [main]: the text printed, after which the exit status is 0 *)
Definition diffconfig (argv : list string) : outcome string :=
  if bool_decide ("-h" ∈ argv) || bool_decide ("--help" ∈ argv) then Ok diff_usage
  else
    let merge_style := bool_decide ("-m" ∈ argv) in
    match diff_filenames (if merge_style then list_remove "-m" argv else argv) with
    | None => Ok ("Error: incorrect number of arguments or unrecognized option" +:+ nl +:+ diff_usage)
    | Some (configa, configb) =>
        let io_error := λ e : Z * string,
          "I/O error[" +:+ py_str e.1 +:+ "]: " +:+ e.2 +:+ nl +:+ nl +:+ diff_usage in
        match open_text configa with
        | inl e => Ok (io_error e)
        | inr texta =>
            let! a := readconfig [] (file_lines texta) in
            match open_text configb with
            | inl e => Ok (io_error e)
            | inr textb =>
                let! b := readconfig [] (file_lines textb) in
                Ok (diff_configs merge_style a b)
            end
        end
    end.
End Diffconfig.

(** ** version-parse.py *)
Section Versions.
(** [packaging.version.Version] with its total order; a malformed version raises. *)
Context {version : Type}.
Variable parse : string → outcome version.
Variables eqb ltb : version → version → bool.

(** The text printed and the argument of [sys.exit], if it is called. *)
Definition version_parse (argv : list string) : outcome (string * option Z) :=
  match argv with
  | [_; x; y] =>
      let! a := parse x in
      let! b := parse y in
      if eqb a b then Ok ("eq", Some 0%Z)
      else if ltb a b then Ok ("lt", Some (-1)%Z)
      else if ltb b a then Ok ("gt", Some 1%Z) else Ok ("", None)
  | [_; op; x; y] =>
      let! a := parse x in
      let! b := parse y in
      if bool_decide (op = "--gteq") then
        if ltb b a || eqb a b then Ok ("y", Some 0%Z) else Ok ("n", Some 1%Z)
      else Ok ("", None)
  | _ => Ok ("", None)
  end.
End Versions.

(** ** query.py and generate.py *)
Section Templates.
Context {json : Type}.
(** [json.load] of a file, [eval] of a query where [config] is the data, and the
    rendering of a template. *)
Variable load_json : string → outcome json.
Variable eval_query : json → string → outcome string.
Variable render : string → json → outcome string.
(** [os.walk]: directories with their files, as paths relative to the root *)
Variable walk : string → list (list string).

(** query.py: the text printed *)
Definition query (argv : list string) : outcome string :=
  match argv with
  | _ :: config :: command :: query :: _ =>
      let! data := load_json config in
      if bool_decide (command = "json") then let! s := eval_query data query in Ok (s +:+ nl) else Ok ""
  | _ => Raise IndexError
  end.

Fixpoint generate_files (destdir : string) (data : json) (l : list string) (files : gmap string string) (out : string)
    : outcome (gmap string string * string) :=
  match l with
  | [] => Ok (files, out)
  | file :: l =>
      let! output := render file data in
      let path := path_join destdir file in
      generate_files destdir data l (<[path := output]> files) (out +:+ path +:+ nl)
  end.

(** generate.py: the files and the text printed; directories are implicit. *)
Definition generate (argv : list string) (files : gmap string string) : outcome (gmap string string * string) :=
  match argv with
  | _ :: root :: destdir :: config :: _ =>
      let! data := load_json config in
      generate_files destdir data (concat (walk root)) files (root +:+ " " +:+ destdir +:+ nl)
  | _ => Raise IndexError
  end.
End Templates.

(** ** Concrete runs *)

Definition zephyr : world := let w := one_file "" in
  World (λ name, if decide (name = "ZEPHYR_BASE") then Some "/z" else None) (w_file w) (w_errno w) (w_glob w) (w_shell w)
    (w_realpath w) (w_uname_release w) (w_functions w) (w_write w) (w_replace w).

(** A configuration with a select, in which the symbols that mark discouraged
    options are undefined, and the same with these symbols. *)
Definition no_marks : kconfig := Eval vm_compute in configuration
  ["config A"; " bool 'A'"; " default y"; " select B"; "config B"; " bool 'B'"].
Definition with_marks : kconfig := Eval vm_compute in configuration
  ["config A"; " bool 'A'"; " default y"; " select EXPERIMENTAL"; "config EXPERIMENTAL"; " bool";
   "config B"; " bool 'B'"; "config C"; " bool 'C' if n"].

Definition hardened_csv (filename : string) : option (list (list string)) :=
  if decide (filename = "/z/scripts/kconfig/hardened.csv")
  then Some [["B"; "y"; "why"]; ["A"; "y"]; ["C"; "y"]; ["GONE"; "n"]; ["bad row"]] else None.

Definition harden_output (K : kconfig) : outcome string :=
  match hardenconfig zephyr K 60 hardened_csv (host_after K [] []) with
  | Ok (text, _) => Ok text
  | Raise e => Raise e
  | NoFuel => NoFuel
  end.

(** The program ends with a KeyError as soon as anything is selected and one of
    the three symbols is undefined. *)
Example hardenconfig_undefined_marks : harden_output no_marks = Raise KeyError.
Proof. vm_compute. reflexivity. Qed.

Example hardenconfig_results :
  harden_output with_marks = Ok (results_header
    +:+ option_line (new_option "B" "y" (Some "n") None) +:+ option_line (new_option "A" "n" (Some "y") None) +:+ nl).
Proof. vm_compute. reflexivity. Qed.

Example diff_demo :
  let a := readconfig [] (file_lines (kconfig_text ["CONFIG_A=y"; "CONFIG_B='x'"; "# CONFIG_C is not set"; "CONFIG_D=1"])) in
  let b := readconfig [] (file_lines (kconfig_text ["# CONFIG_A is not set"; "CONFIG_C=m"; "CONFIG_D=1"; "CONFIG_E=7"])) in
  match a, b with
  | Ok a, Ok b => splitlines (diff_configs false a b) = ["-B " +:+ dquote +:+ "x" +:+ dquote; " A y -> n"; " C n -> m"; "+E 7"]
      ∧ splitlines (diff_configs true a b) = ["# CONFIG_A is not set"; "CONFIG_C=m"; "CONFIG_E=7"]
  | _, _ => False
  end.
Proof. vm_compute. split; reflexivity. Qed.

(** The default files, one of them missing; the -m option; a wrong number of files. *)
Example diffconfig_demo :
  let files := λ f, if bool_decide (f = "out/.config") then inr (kconfig_text ["CONFIG_A=y"])
                    else if bool_decide (f = "new") then inr (kconfig_text ["CONFIG_A=m"; "CONFIG_B=n"])
                    else inl (2%Z, "No such file or directory") in
  let run := λ args, diffconfig (λ v, if bool_decide (v = "KBUILD_OUTPUT") then Some "out" else None) files ("diffconfig" :: args) in
  run [] = Ok ("I/O error[2]: No such file or directory" +:+ nl +:+ nl +:+ diff_usage)
  ∧ run ["out/.config"; "new"] = Ok (sconcat ((λ l, l +:+ nl) <$> [" A y -> m"; "+B n"]))
  ∧ run ["-m"; "out/.config"; "new"] = Ok (sconcat ((λ l, l +:+ nl) <$> ["CONFIG_A=m"; "# CONFIG_B is not set"]))
  ∧ run ["new"; "-h"] = Ok diff_usage
  ∧ run ["new"] = Ok ("Error: incorrect number of arguments or unrecognized option" +:+ nl +:+ diff_usage).
Proof. vm_compute. split_and!; reflexivity. Qed.

(** The last line loses a character if it does not end in a newline. *)
Example readconfig_last_line : readconfig [] ["CONFIG_D=10"] = Ok [("D", "1")].
Proof. vm_compute. reflexivity. Qed.
