(* ===== verification/GuiShown.v ===== *)
(** * The rows of the tree and the nodes of a menu, in the graphical interface

    Well-formed links between the items of a Treeview, what moving and detaching does
    to them, and its rows.  The menu tree as the Treeview needs it, and the lists of
    [_shown_full_nodes] and [_shown_menu_nodes]: the nodes that appear, each followed
    by the shown nodes of the implicit menu below it.  Everything the interface asks
    a sound session for has an answer: the shown nodes, the text and the image of a
    node. *)

From S2P Require Import Prelude PyStr PyText Kconst Expr Escape Incr Objects ParseState MenuTree.
From S2P Require Import Printing Values Reads Session Meaning Effects ConfigFile ConfigWrite ConfigText.
From S2P Require Import MenuView MenuShown MenuInfo MenuKeys MenuLoop MenuChange GuiTree GuiView GuiState.
From S2P Require Import GuiBuild.
From stdpp Require Import options.

Record wf (t : treeview) : Prop := {
  wf_link n k : t_parent t !! n = Some k ↔ n ∈ children k t;
  wf_nodup k : NoDup (children k t)
}.

Definition put (n : nat) (k : option nat) (t : treeview) : treeview := link_last n k (unlink n t).

(** The parts of a tree that moving items leaves alone. *)
Definition same_items (t t' : treeview) : Prop :=
  t_open t' = t_open t ∧ t_text t' = t_text t ∧ t_tags t' = t_tags t ∧ t_selected t' = t_selected t ∧
  t_focus t' = t_focus t ∧ t_first t' = t_first t ∧ t_event t' = t_event t.

Lemma same_items_refl t : same_items t t.
Proof. by repeat split. Qed.
Lemma same_items_trans t1 t2 t3 : same_items t1 t2 → same_items t2 t3 → same_items t1 t3.
Proof. unfold same_items. intuition congruence. Qed.
#[export] Hint Resolve same_items_refl : core.

(** ** One item *)

(** Well-formedness is about the links only. *)
Lemma wf_links t t' : t_parent t' = t_parent t → t_children t' = t_children t → wf t → wf t'.
Proof.
  intros Hp Hc [H1 H2]. assert (∀ k, children k t' = children k t) as H by (intros k; unfold children; by rewrite Hc).
  split; intros; rewrite ?Hp, H; auto.
Qed.

Lemma unlink_items n t : same_items t (unlink n t).
Proof. unfold unlink. destruct (t_parent t !! n); by repeat split. Qed.
Lemma link_items n k t : same_items t (link_last n k t).
Proof. by repeat split. Qed.
Lemma put_items n k t : same_items t (put n k t).
Proof. eapply same_items_trans; [apply unlink_items|apply link_items]. Qed.

Lemma unlink_parent n m t : t_parent (unlink n t) !! m = if decide (m = n) then None else t_parent t !! m.
Proof.
  unfold unlink. destruct (t_parent t !! n) as [k|] eqn:Hn; cbn.
  - case_decide as Hm; [by rewrite Hm, lookup_delete_eq|by rewrite lookup_delete_ne].
  - case_decide as Hm; [by rewrite Hm|done].
Qed.

Lemma unlink_children n k t : wf t → children k (unlink n t) = filter (λ m, m ≠ n) (children k t).
Proof.
  intros Hwf. assert (t_parent t !! n ≠ Some k → filter (λ m, m ≠ n) (children k t) = children k t) as Hno.
  { intros Hn. rewrite (wf_link t Hwf) in Hn. induction (children k t) as [|x l IH]; [done|].
    rewrite filter_cons_True by (intros ->; apply Hn; by left). f_equal. apply IH. set_solver. }
  unfold unlink. destruct (t_parent t !! n) as [k'|] eqn:Hn; cbn.
  - unfold children at 1. cbn. destruct (decide (k = k')) as [->|Hk].
    + by rewrite lookup_insert_eq.
    + rewrite lookup_insert_ne by done. rewrite Hno; [done|]. congruence.
  - by rewrite Hno.
Qed.

Lemma unlink_wf n t : wf t → wf (unlink n t).
Proof.
  intros Hwf. split.
  - intros m k. rewrite unlink_parent, unlink_children, list_elem_of_filter by done. case_decide as Hm.
    + split; [done|]. by intros [? _].
    + rewrite (wf_link t Hwf). naive_solver.
  - intros k. rewrite unlink_children by done. apply NoDup_filter, Hwf.
Qed.

Lemma unlink_detached n t : t_parent (unlink n t) !! n = None.
Proof. rewrite unlink_parent. by rewrite decide_True. Qed.

Lemma link_parent n k m t : t_parent (link_last n k t) !! m = if decide (m = n) then Some k else t_parent t !! m.
Proof. cbn. case_decide as Hm; [by rewrite Hm, lookup_insert_eq|by rewrite lookup_insert_ne]. Qed.

Lemma link_children n k k' t : children k' (link_last n k t) = if decide (k' = k) then children k t ++ [n] else children k' t.
Proof.
  unfold children at 1. cbn. case_decide as Hk; [by rewrite Hk, lookup_insert_eq|by rewrite lookup_insert_ne].
Qed.

Lemma link_wf n k t : wf t → t_parent t !! n = None → wf (link_last n k t).
Proof.
  intros Hwf Hn. assert (∀ k, n ∉ children k t) as Hout.
  { intros k' H. apply (wf_link t Hwf) in H. congruence. }
  split.
  - intros m k'. rewrite link_parent, link_children. case_decide as Hm; case_decide as Hk; subst.
    + split; [intros _|done]. apply elem_of_app. right. by apply list_elem_of_singleton.
    + split; [congruence|]. by intros []%Hout.
    + rewrite elem_of_app, list_elem_of_singleton, (wf_link t Hwf). naive_solver.
    + apply (wf_link t Hwf).
  - intros k'. rewrite link_children. case_decide as Hk; subst; [|apply Hwf].
    apply NoDup_app. split; [apply Hwf|]. split; [|apply NoDup_singleton].
    intros x Hx ->%list_elem_of_singleton. by eapply Hout.
Qed.

Lemma put_wf n k t : wf t → wf (put n k t).
Proof. intros Hwf. apply link_wf; [by apply unlink_wf|apply unlink_detached]. Qed.

Lemma put_parent n k m t : t_parent (put n k t) !! m = if decide (m = n) then Some k else t_parent t !! m.
Proof. unfold put. rewrite link_parent, unlink_parent. by repeat case_decide. Qed.

Lemma put_children n k k' t : wf t →
  children k' (put n k t) = filter (λ m, m ≠ n) (children k' t) ++ (if decide (k' = k) then [n] else []).
Proof.
  intros Hwf. unfold put. rewrite link_children. case_decide as Hk; subst; rewrite unlink_children by done; [done|].
  by rewrite app_nil_r.
Qed.

(** An item that is not below the new parent can be moved there. *)
Lemma ancestor_rank (rank : nat → nat) t f n k :
  (∀ m p, t_parent t !! m = Some (Some p) → rank p < rank m) →
  (∀ p, k = Some p → rank p < rank n) → is_ancestor f n k t = false.
Proof.
  intros Ht. revert k. induction f as [|f IH]; intros k Hk; [done|]. cbn [is_ancestor]. destruct k as [p|]; [|done].
  specialize (Hk p eq_refl). destruct (Nat.eqb_spec p n) as [->|Hp]; [lia|]. cbn. apply IH.
  unfold parent. intros q Hq. destruct (t_parent t !! p) as [[q'|]|] eqn:E; cbn in Hq; try done.
  injection Hq as ->. pose proof (Ht _ _ E). lia.
Qed.

(** ** Detaching *)

Lemma detach_wf l t : wf t → wf (detach l t).
Proof. unfold detach. revert t. induction l as [|n l IH]; intros t Hwf; cbn; [done|]. by apply IH, unlink_wf. Qed.

Lemma detach_items l t : same_items t (detach l t).
Proof.
  unfold detach. revert t. induction l as [|n l IH]; intros t; cbn; [done|].
  eapply same_items_trans; [apply unlink_items|apply IH].
Qed.

Lemma detach_parent l t m : t_parent (detach l t) !! m = if decide (m ∈ l) then None else t_parent t !! m.
Proof.
  unfold detach. revert t. induction l as [|n l IH]; intros t; cbn [foldl].
  - by rewrite decide_False by apply not_elem_of_nil.
  - rewrite IH, unlink_parent. repeat case_decide; set_solver.
Qed.

Lemma no_links_children t k : wf t → (∀ n, t_parent t !! n = None) → children k t = [].
Proof.
  intros Hwf Hn. destruct (children k t) as [|n l] eqn:Hc; [done|].
  assert (t_parent t !! n = Some k) as H by (apply (wf_link t Hwf); rewrite Hc; by left). by rewrite Hn in H.
Qed.

(** ** Rows *)

Lemma open_items_step f t k n : n ∈ open_items (S f) t k ↔
  ∃ m, m ∈ children k t ∧ (n = m ∨ m ∈ t_open t ∧ n ∈ open_items f t (Some m)).
Proof.
  cbn [open_items]. rewrite list_elem_of_In, in_flat_map. setoid_rewrite <- list_elem_of_In.
  split; intros (m & Hm & Hn); exists m; (split; [done|]).
  - apply elem_of_cons in Hn as [->|Hn]; [by left|]. case_decide; [by right|by apply elem_of_nil in Hn].
  - apply elem_of_cons. destruct Hn as [->|[Ho Hn]]; [by left|right]. by rewrite decide_True.
Qed.

Lemma open_items_mono f f' t k n : f ≤ f' → n ∈ open_items f t k → n ∈ open_items f' t k.
Proof.
  revert f' k. induction f as [|f IH]; intros f' k Hf Hn; [by apply elem_of_nil in Hn|].
  destruct f' as [|f']; [lia|]. apply open_items_step in Hn as (m & Hm & Hn). apply open_items_step. exists m.
  split; [done|]. destruct Hn as [?|[? Hn]]; [by left|right]. split; [done|]. apply IH; [lia|done].
Qed.

(** The children of an open row are rows. *)
Lemma open_items_child f t k m n : m ∈ open_items f t k → m ∈ t_open t → n ∈ children (Some m) t →
  n ∈ open_items (S f) t k.
Proof.
  revert k. induction f as [|f IH]; intros k Hm Ho Hn; [by apply elem_of_nil in Hm|].
  apply open_items_step in Hm as (x & Hx & Hm). apply open_items_step. exists x. split; [done|]. right.
  destruct Hm as [->|[Hox Hm]]; (split; [done|]).
  - apply open_items_step. exists n. auto.
  - by apply IH.
Qed.

(** ** Menu trees *)
Section Trees.
Variable K : kconfig.

(** The nodes of a list, along [next]. *)
Inductive chain : option nat → list nat → Prop :=
  | chain_nil : chain None []
  | chain_cons n l : chain (n_next (nod K n)) l → chain (Some n) (n :: l).

(** A node in the list of another one. *)
Definition in_list (p n : nat) : Prop := ∃ c, chain (n_list (nod K p)) c ∧ n ∈ c.

Lemma chain_unique o c c' : chain o c → chain o c' → c = c'.
Proof. intros H. revert c'. induction H as [|n l _ IH]; inversion 1; [done|]. f_equal. by apply IH. Qed.

Lemma chain_suffix o c c1 c2 : chain o c → c = c1 ++ c2 → chain (head c2) c2.
Proof.
  intros H. revert c1 c2. induction H as [|n l H IH]; intros c1 c2 Hc.
  - destruct c1; [|done]. cbn in Hc. subst. constructor.
  - destruct c1 as [|x c1]; cbn in Hc; [subst; by constructor|]. injection Hc as -> Hc. by apply (IH c1).
Qed.

Lemma walk_step f n w : walk K f (Some n) = Ok w → ∃ f' sub rest, f = S f' ∧
  walk K f' (n_list (nod K n)) = Ok sub ∧ walk K f' (n_next (nod K n)) = Ok rest ∧ w = n :: sub ++ rest.
Proof.
  destruct f as [|f]; [done|]. cbn [walk]. rewrite obind_Ok. intros (sub & Hs & H).
  apply obind_Ok in H as (rest & Hr & [= <-]). by exists f, sub, rest.
Qed.

Lemma walk_mono f o w : walk K f o = Ok w → walk K (S f) o = Ok w.
Proof.
  revert o w. induction f as [|f IH]; intros o w H; [done|]. destruct o as [n|]; [|exact H].
  apply walk_step in H as (f' & sub & rest & [= <-] & Hs & Hr & ->).
  apply IH in Hs, Hr. remember (S f) as g. cbn [walk]. by rewrite Hs, Hr.
Qed.

Lemma walk_mono_le f f' o w : f ≤ f' → walk K f o = Ok w → walk K f' o = Ok w.
Proof. induction 1; [done|]. intros H'. apply walk_mono; auto. Qed.

Lemma walk_chain f o w : walk K f o = Ok w → ∃ c, chain o c ∧ c `sublist_of` w.
Proof.
  revert o w. induction f as [|f IH]; intros o w H; [done|]. destruct o as [n|].
  - apply walk_step in H as (f' & sub & rest & [= <-] & Hs & Hr & ->). destruct (IH _ _ Hr) as (c & Hc & Hsub).
    exists (n :: c). split; [by constructor|]. apply sublist_skip. by apply sublist_inserts_l.
  - injection H as <-. exists []. split; [constructor|done].
Qed.

(** What is below a node of a walk is in the walk. *)
Lemma walk_below f o w n : walk K f o = Ok w → n ∈ w →
  ∃ f' sub, f = S f' ∧ walk K f' (n_list (nod K n)) = Ok sub ∧ sub `sublist_of` w ∧ (NoDup w → n ∉ sub).
Proof.
  revert o w. induction f as [|f IH]; intros o w H Hn; [done|]. destruct o as [m|]; [|by injection H as <-; apply elem_of_nil in Hn].
  apply walk_step in H as (f' & sub & rest & [= <-] & Hs & Hr & ->).
  apply elem_of_cons in Hn as [->|Hn].
  - exists f, sub. split_and!; [done..| |].
    + apply sublist_cons. by apply sublist_inserts_r.
    + intros [Hm _]%NoDup_cons ?. apply Hm, elem_of_app. by left.
  - apply elem_of_app in Hn as [Hn|Hn].
    + destruct (IH _ _ Hs Hn) as (f' & s' & -> & Hw & Hsub & Hd). exists (S f'), s'.
      split_and!; [done|by apply walk_mono| |].
      * apply sublist_cons. by apply sublist_inserts_r.
      * intros [_ [? _]%NoDup_app]%NoDup_cons. by apply Hd.
    + destruct (IH _ _ Hr Hn) as (f' & s' & -> & Hw & Hsub & Hd). exists (S f'), s'.
      split_and!; [done|by apply walk_mono| |].
      * apply sublist_cons. by apply sublist_inserts_l.
      * intros [_ [_ [_ ?]]%NoDup_app]%NoDup_cons. by apply Hd.
Qed.
End Trees.

(** What a loaded menu tree looks like: every node of a list has the right parent,
    no node is above itself, every node has an item, and menus and comments have a
    prompt. *)
Record gui_tree_ok (K : kconfig) (fuel : nat) : Prop := {
  gt_tree : tree_ok (K := K) (fuel := fuel);
  gt_parent p n : in_list K p n → n_parent (nod K n) = Some p;
  gt_rank : ∃ rank : nat → nat, ∀ p n, in_list K p n → rank p < rank n;
  gt_items : ∃ l, items K fuel = Ok l ∧ NoDup l ∧ ∀ p n, in_list K p n → n ∈ l;
  gt_nodup n w : walk K fuel (n_list (nod K n)) = Ok w → NoDup w ∧ n ∉ w;
  gt_titles p n : in_list K p n → item_of_node (n_item (nod K n)) = None → is_Some (prompt_text K n)
}.

(** ** The lists of shown nodes *)
Section Lists.
Variable K : kconfig.
Variable visible : nat → bool.
Variable show_all : bool.
Hypothesis Hls : lists_of_symbols K.

Abbreviation appears := (appears K visible show_all).

(** Appearing, one level at a time. *)
Lemma appears_list p c n : chain K (n_list (nod K p)) c → n ∈ c → is_symbol_node (n_item (nod K p)) = true →
  appears n → appears p.
Proof using Type.
  intros Hc Hn Hs Ha. apply (appears_child K visible show_all p n); [done| |done].
  clear Hs Ha. revert Hn. induction Hc as [|m l H IH]; intros Hn; [by apply elem_of_nil in Hn|].
  apply elem_of_cons in Hn as [->|Hn]; [apply inner_here|]. by apply inner_next, IH.
Qed.

Lemma inner_list_appears o n : inner K o n → appears n → ∃ m, (∀ c, chain K o c → m ∈ c) ∧ appears m.
Proof using Hls.
  induction 1 as [n|n m H IH|n m Hm H IH]; intros Ha.
  - exists n. split; [|done]. inversion 1. by left.
  - destruct (IH Ha) as (x & Hx & Hax). exists x. split; [|done]. inversion 1 as [|? l Hl]; subst. right. by apply Hx.
  - exists n. split; [inversion 1; by left|]. apply (appears_child K visible show_all n m); [|done..].
    apply Hls; [|done]. destruct (n_list (nod K n)); [done|by apply inner_None in H].
Qed.

Lemma appears_inv n : appears n → visible n || show_all = true ∨
  is_symbol_node (n_item (nod K n)) = true ∧
  ∃ m, (∀ c, chain K (n_list (nod K n)) c → m ∈ c) ∧ appears m.
Proof using Hls.
  intros [m Hm|m Hm|m x Hs Hx Ha].
  - left. rewrite Hm. apply orb_true_r.
  - left. by rewrite Hm.
  - right. split; [done|]. by apply (inner_list_appears _ x).
Qed.

(** The nodes of a list that appear; those with [into] are followed by what is
    below them. *)
Variable into : nat → bool.

Inductive lists : option nat → list nat → Prop :=
  | lists_nil : lists None []
  | lists_shown n sub rest :
      appears n → (into n = true → lists (n_list (nod K n)) sub) → (into n = false → sub = []) →
      lists (n_next (nod K n)) rest → lists (Some n) (n :: sub ++ rest)
  | lists_hidden n rest : ¬ appears n → lists (n_next (nod K n)) rest → lists (Some n) rest.

Lemma lists_appears o l c n : lists o l → chain K o c → n ∈ c → appears n → n ∈ l.
Proof using Type.
  intros H. revert c. induction H as [|m sub rest Ha _ _ _ _ IH|m rest Ha _ IH]; intros c Hc Hn Hap.
  - inversion Hc; subst. by apply elem_of_nil in Hn.
  - inversion Hc as [|? l Hl]; subst. apply elem_of_cons in Hn as [->|Hn]; [by left|].
    right. apply elem_of_app. right. by apply (IH l).
  - inversion Hc as [|? l Hl]; subst. apply elem_of_cons in Hn as [->|Hn]; [done|]. by apply (IH l).
Qed.

Lemma lists_head o n l c : lists o (n :: l) → chain K o c → n ∈ c ∧ appears n.
Proof using Type.
  intros H. remember (n :: l) as l' eqn:El. revert c n l El.
  induction H as [|m sub rest Ha _ _ _ _ _|m rest Ha Hr IH]; intros c n l El Hc; [done|..];
    inversion Hc as [|? c' Hc']; subst.
  - injection El as <- _. split; [by left|done].
  - destruct (IH c' n l eq_refl Hc'). split; [by right|done].
Qed.

Lemma lists_some o l c : lists o l → l ≠ [] → chain K o c → ∃ n, n ∈ c ∧ appears n.
Proof using Type.
  intros H. revert c. induction H as [|m sub rest Ha _ _ _ _ IH|m rest Ha _ IH]; intros c Hl Hc; [done|..];
    inversion Hc as [|? l Hc']; subst.
  - exists m. split; [by left|done].
  - destruct (IH l Hl Hc') as (n & ? & ?). exists n. split; [by right|done].
Qed.

(** A node without shown nodes below it does not appear on their account. *)
Lemma hidden_without f n w : visible n || show_all = false → walk K f (n_list (nod K n)) = Ok w →
  (is_symbol_node (n_item (nod K n)) = true → lists (n_list (nod K n)) []) → ¬ appears n.
Proof using Hls.
  intros Hv Hw Hl [H|(Hs & m & Hm & Ham)]%appears_inv; [congruence|].
  destruct (walk_chain K _ _ _ Hw) as (c & Hc & _).
  pose proof (lists_appears _ _ _ m (Hl Hs) Hc (Hm c Hc) Ham) as H. by apply elem_of_nil in H.
Qed.
End Lists.

Section Recs.
Variable K : kconfig.
Variable visible : nat → bool.
Variable show_all : bool.
Hypothesis Hls : lists_of_symbols K.

Definition into_full (n : nat) : bool := is_symbol_node (n_item (nod K n)).
Definition into_menu (n : nat) : bool := is_symbol_node (n_item (nod K n)) && negb (n_is_menuconfig (nod K n)).

Lemma chain_None_lists into o l : o = None → l = [] → lists K visible show_all into o l.
Proof using Type. intros -> ->. constructor. Qed.

(** The result of one step of either walk, from the lists below and after a node. *)
Lemma step_lists into f n w ls lr :
  (into n = true → is_symbol_node (n_item (nod K n)) = true) →
  walk K f (n_list (nod K n)) = Ok w →
  lists K visible show_all into (n_list (nod K n)) ls → lists K visible show_all into (n_next (nod K n)) lr →
  lists K visible show_all into (Some n)
    ((if visible n || show_all then n :: (if bool_decide (is_Some (n_list (nod K n))) && into n then ls else [])
      else if bool_decide (is_Some (n_list (nod K n))) && is_symbol_node (n_item (nod K n)) then
        match ls with [] => [] | _ => n :: (if into n then ls else []) end
      else []) ++ lr).
Proof using Hls.
  intros Hinto Hw Hs Hr.
  assert (¬ is_Some (n_list (nod K n)) → ls = []) as Hnone.
  { intros Hn. destruct (n_list (nod K n)); [by destruct Hn|]. by inversion Hs. }
  destruct (visible n || show_all) eqn:Hv.
  - assert (appears K visible show_all n) as Ha.
    { apply orb_true_iff in Hv as [?|?]; [by apply appears_visible|by apply appears_all]. }
    rewrite <- app_comm_cons. apply lists_shown; [done|intros Hi|intros Hi|done].
    + rewrite Hi, andb_true_r. case_bool_decide; [done|]. by rewrite Hnone in Hs.
    + by rewrite Hi, andb_false_r.
  - destruct (bool_decide _ && is_symbol_node _) eqn:Hb.
    + apply andb_true_iff in Hb as [_ Hsym]. destruct (decide (ls = [])) as [->|Hne].
      * apply lists_hidden; [|done]. by eapply hidden_without.
      * replace (match ls with [] => [] | _ => n :: (if into n then ls else []) end)
          with (n :: (if into n then ls else [])) by (by destruct ls).
        rewrite <- app_comm_cons. apply lists_shown; [|by intros ->|by intros ->|done].
        destruct (walk_chain K _ _ _ Hw) as (c & Hc & _).
        destruct (lists_some K visible show_all into _ _ _ Hs Hne Hc) as (m & Hm & Ha).
        by eapply appears_list.
    + apply lists_hidden; [|done]. eapply hidden_without; [done..|]. intros Hsym.
      rewrite Hsym, andb_true_r in Hb. apply bool_decide_eq_false in Hb. by rewrite <- Hnone.
Qed.

Lemma full_rec_lists f o w : walk K f o = Ok w →
  ∃ l, shown_full_rec K (λ n, Ok (visible n)) show_all f o = Ok l ∧ lists K visible show_all into_full o l.
Proof using Hls.
  revert o w. induction f as [|f IH]; intros o w Hw; [done|]. destruct o as [n|]; [|exists []; split; [reflexivity|constructor]].
  apply walk_step in Hw as (f' & sub & rest & [= <-] & Hs & Hr & ->).
  destruct (IH _ _ Hs) as (ls & Els & Hlsub). destruct (IH _ _ Hr) as (lr & Elr & Hlr).
  eexists. split; [|eapply (step_lists into_full f n sub ls lr); done].
  cbn [shown_full_rec obind]. rewrite Els, Elr. unfold into_full.
  destruct (visible n || show_all), (bool_decide _), (is_symbol_node _); cbn [andb obind]; by destruct ls.
Qed.

Lemma menu_rec_lists f o w : walk K f o = Ok w →
  ∃ l, shown_rec K (λ n, Ok (visible n)) show_all f o = Ok l ∧ lists K visible show_all into_menu o l.
Proof using Hls.
  revert o w. induction f as [|f IH]; intros o w Hw; [done|]. destruct o as [n|]; [|exists []; split; [reflexivity|constructor]].
  apply walk_step in Hw as (f' & sub & rest & [= <-] & Hs & Hr & ->).
  destruct (IH _ _ Hs) as (ls & Els & Hlsub). destruct (IH _ _ Hr) as (lr & Elr & Hlr).
  eexists. split; [|eapply (step_lists into_menu f n sub ls lr); [|done..]].
  - cbn [shown_rec obind]. rewrite Els, Elr. unfold into_menu. pose proof (Hls n) as Hn.
    destruct (visible n || show_all), (n_is_menuconfig (nod K n)), (is_symbol_node _);
      case_bool_decide as Hl; cbn [andb negb obind]; rewrite ?andb_false_r; try done; try (by destruct ls).
    by discriminate (Hn Hl eq_refl).
  - unfold into_menu. by intros [? _]%andb_true_iff.
Qed.
End Recs.

(** ** Answers

    Two sound sessions with the same user values give the same answer. *)
Section Answers.
Context {K : kconfig} {fuel : nat} {HK : Loaded K fuel}.
Variables σ σ' : session.
Hypothesis Hσ : session_ok (K := K) σ.
Hypothesis Hσ' : session_ok (K := K) σ'.
Hypothesis Hu : uvals σ' = uvals σ.

Definition agree {A} (o o' : outcome A) : Prop := ∃ a, o = Ok a ∧ o' = Ok a.

Lemma agree_Ok {A} (a : A) : agree (Ok a) (Ok a).
Proof using Type. by exists a. Qed.

Lemma agree_bind {A B} (m m' : outcome A) (f f' : A → outcome B) :
  agree m m' → (∀ a, agree (f a) (f' a)) → agree (obind m f) (obind m' f').
Proof using Type. intros (a & -> & ->) Hf. apply Hf. Qed.

Lemma agree_gives {A} (f : session → outcome (A * session)) a :
  gives (K := K) (uvals σ) f a → agree (peek f σ) (peek f σ').
Proof using Hσ Hσ' Hu. intros Hf. exists a. split; eapply peek_gives; done. Qed.

Lemma agree_prop {A} q (f : val → outcome A) : (∀ v, answer_ok K q v → ∃ a, f v = Ok a) →
  agree (peek (λ σ, let! (v, σ) := get_prop K fuel q σ in let! a := f v in Ok (a, σ)) σ)
    (peek (λ σ, let! (v, σ) := get_prop K fuel q σ in let! a := f v in Ok (a, σ)) σ').
Proof using HK Hσ Hσ' Hu.
  intros Hf. destruct (prop_of_total (uvals σ) (proj1 Hσ) q) as (v & Hv & Hok). destruct (Hf v Hok) as [a Ha].
  apply (agree_gives _ a). intros τ Hτ Huτ. destruct (get_prop_spec τ q Hτ) as (v' & τ' & -> & Hv' & Hτ' & Huτ').
  rewrite Huτ, Hv in Hv'. injection Hv' as <-. exists τ'. cbn. rewrite Ha. split_and!; [done..|congruence].
Qed.

Lemma agree_expr e : agree (expr_now K fuel e σ) (expr_now K fuel e σ').
Proof using HK Hσ Hσ' Hu. eapply agree_gives, gives_expr. Qed.

Lemma agree_tri i : agree (tri_now K fuel i σ) (tri_now K fuel i σ').
Proof using HK Hσ Hσ' Hu. exact (agree_expr (EItem i)). Qed.

Lemma agree_str s : agree (str_now K fuel s σ) (str_now K fuel s σ').
Proof using HK Hσ Hσ' Hu. eapply agree_gives, gives_str. Qed.

Lemma agree_item_str i : agree (item_str_now K fuel i σ) (item_str_now K fuel i σ').
Proof using HK Hσ Hσ' Hu.
  destruct i as [s|c]; [apply agree_str|]. apply agree_bind; [apply agree_tri|intros; apply agree_Ok].
Qed.

Lemma peek_ext {A} (f f' : session → outcome (A * session)) τ : (∀ τ, f τ = f' τ) → peek f τ = peek f' τ.
Proof using Type. intros H. unfold peek. by rewrite H. Qed.

Lemma agree_vis i : agree (vis_now K fuel i σ) (vis_now K fuel i σ').
Proof using HK Hσ Hσ' Hu.
  destruct (agree_prop (QVis i) (λ v, match v with VTri z => Ok z | _ => Raise AttributeError end)) as (z & H1 & H2).
  { intros [] ?; try done; eauto. }
  exists z. unfold vis_now, visibility_of.
  split; [rewrite <- H1|rewrite <- H2]; apply peek_ext; intros τ; destruct (get_prop _ _ _ τ) as [[[] ?]| |]; done.
Qed.

Lemma agree_selection c : agree (selection_now K fuel c σ) (selection_now K fuel c σ').
Proof using HK Hσ Hσ' Hu.
  destruct (agree_prop (QSel c) (λ v, match v with VSel o => Ok o | _ => Raise AttributeError end)) as (z & H1 & H2).
  { intros [] ?; try done; eauto. }
  exists z. unfold selection_now.
  split; [rewrite <- H1|rewrite <- H2]; apply peek_ext; intros τ; destruct (get_prop _ _ _ τ) as [[[] ?]| |]; done.
Qed.

Lemma agree_assignable i : agree (assignable_now K fuel i σ) (assignable_now K fuel i σ').
Proof using HK Hσ Hσ' Hu. rewrite !assignable_now_eq, Hu by done. apply agree_Ok. Qed.

Lemma gives_type u i : uok K u → ∃ t, gives (K := K) u (run_code K fuel (λ u, item_type K u i)) t.
Proof using HK.
  intros Hok. destruct i as [s|c]; cbn [item_type].
  { exists (type_of (K := K) (fuel := fuel) u s). intros τ Hτ <-. by apply run_type. }
  exists (mod_type (K := K) (fuel := fuel) u (c_orig_type (cho K c))). intros τ Hτ <-.
  apply (run_code_spec (K := K) (fuel := fuel) (λ u, choice_type K c) _ (λ _, True) τ Hτ).
  - apply safe_choice_type, rank_all.
  - apply writes_choice_type.
  - apply computes_choice_type, Hτ.
Qed.

Lemma agree_type i : agree (type_now K fuel i σ) (type_now K fuel i σ').
Proof using HK Hσ Hσ' Hu. destruct (gives_type (uvals σ) i (proj1 Hσ)) as [t Ht]. by apply (agree_gives _ t). Qed.

(** ** The shown nodes *)
Hypothesis Htree : gui_tree_ok K fuel.

Abbreviation visible := (visible_of (K := K) (fuel := fuel) (uvals σ)).

Lemma full_rec_ext v v' sa f o : (∀ n, v n = v' n) → shown_full_rec K v sa f o = shown_full_rec K v' sa f o.
Proof using Type.
  intros Hv. revert o. induction f as [|f IH]; intros o; [done|]. cbn [shown_full_rec]. destruct o as [n|]; [|done].
  by rewrite Hv, !IH.
Qed.

Lemma menu_rec_ext v v' sa f o : (∀ n, v n = v' n) → shown_rec K v sa f o = shown_rec K v' sa f o.
Proof using Type.
  intros Hv. revert o. induction f as [|f IH]; intros o; [done|]. cbn [shown_rec]. destruct o as [n|]; [|done].
  by rewrite Hv, !IH.
Qed.

Lemma shown_full_lists sa menu : ∃ l, shown_full_nodes K fuel sa menu σ = Ok l ∧
  lists K visible sa (into_full K) (n_list (nod K menu)) l.
Proof using HK Hσ Htree.
  unfold shown_full_nodes. destruct (tr_walk (gt_tree _ _ Htree) menu) as [w Hw].
  destruct (full_rec_lists K visible sa (tr_lists (gt_tree _ _ Htree)) _ _ _ Hw) as (l & Hl & Hlists).
  exists l. split; [|done]. rewrite <- Hl. apply full_rec_ext. intros n. by apply node_visible_eq.
Qed.

Lemma shown_menu_lists sa menu : ∃ l, shown_menu_nodes K fuel sa menu σ = Ok l ∧
  lists K visible sa (into_menu K) (n_list (nod K menu)) l.
Proof using HK Hσ Htree.
  unfold shown_menu_nodes. destruct (tr_walk (gt_tree _ _ Htree) menu) as [w Hw].
  destruct (menu_rec_lists K visible sa (tr_lists (gt_tree _ _ Htree)) _ _ _ Hw) as (l & Hl & Hlists).
  exists l. split; [|done]. rewrite <- Hl. apply menu_rec_ext. intros n. by apply node_visible_eq.
Qed.

Lemma agree_shown sa menu : agree (shown_menu_nodes K fuel sa menu σ) (shown_menu_nodes K fuel sa menu σ').
Proof using HK Hσ Hσ' Hu Htree.
  destruct (shown_menu_lists sa menu) as (l & Hl & _). exists l. split; [done|]. rewrite <- Hl.
  apply menu_rec_ext. intros n. unfold gui_visible. by rewrite !node_visible_eq, Hu.
Qed.

(** ** Texts and images *)

Ltac agree :=
  repeat first
    [ apply agree_Ok | apply agree_expr | apply agree_tri | apply agree_str | apply agree_item_str
    | apply agree_vis | apply agree_selection | apply agree_assignable | apply agree_type
    | apply agree_shown | apply agree_bind; [|intros ?]
    | match goal with |- agree (match ?x with _ => _ end) _ => destruct x end ].

Lemma agree_visible n : agree (gui_visible K fuel σ n) (gui_visible K fuel σ' n).
Proof using HK Hσ Hσ' Hu. unfold gui_visible. rewrite !node_visible_eq, Hu by done. apply agree_Ok. Qed.

Lemma agree_y_mode i : agree (gui_is_y_mode_choice_sym K fuel i σ) (gui_is_y_mode_choice_sym K fuel i σ').
Proof using HK Hσ Hσ' Hu. unfold gui_is_y_mode_choice_sym, is_y_mode_choice_sym. agree. Qed.

Lemma agree_img n : agree (img_tag K fuel n σ) (img_tag K fuel n σ').
Proof using HK Hσ Hσ' Hu. unfold img_tag. agree; try apply agree_y_mode; agree. Qed.

Lemma agree_node_str sa single n : (item_of_node (n_item (nod K n)) = None → is_Some (prompt_text K n)) →
  agree (gui_node_str K fuel sa single n σ) (gui_node_str K fuel sa single n σ').
Proof using HK Hσ Hσ' Hu Htree.
  intros Ht. unfold gui_node_str. apply agree_bind.
  - unfold node_title, new_part. rewrite Hu. destruct (prompt_text K n); [agree|]. destruct (n_item (nod K n)); agree;
      by destruct (Ht eq_refl).
  - intros s. apply agree_bind; [|intros s'; agree]. unfold title_and_value, selection_part. agree.
Qed.
End Answers.

(** Every question about one session has an answer. *)
Section Answered.
Context {K : kconfig} {fuel : nat} {HK : Loaded K fuel}.
Variable σ : session.
Hypothesis Hσ : session_ok (K := K) σ.

Definition answered {A} (o : outcome A) : Prop := ∃ a, o = Ok a.

Lemma agree_answered {A} (o : outcome A) : agree o o → answered o.
Proof using Type. intros (a & H & _). by exists a. Qed.

Lemma answered_visible n : answered (gui_visible K fuel σ n).
Proof using HK Hσ. by apply agree_answered, agree_visible. Qed.

Lemma answered_img n : answered (img_tag K fuel n σ).
Proof using HK Hσ. by apply agree_answered, agree_img. Qed.

Lemma answered_node_str (Htree : gui_tree_ok K fuel) sa single n :
  (item_of_node (n_item (nod K n)) = None → is_Some (prompt_text K n)) → answered (gui_node_str K fuel sa single n σ).
Proof using HK Hσ. intros Ht. by apply agree_answered, agree_node_str. Qed.
End Answered.
