(* ===== verification/GuiFill.v ===== *)
(** * Filling the Treeview

    What [_build_menu_tree] and [_build_full_tree] leave in the tree: below the top
    menu, and below every item that can be open, the items of exactly the nodes that
    appear there, in order, each with its text and image. *)

From S2P Require Import Prelude PyStr PyText Kconst Expr Escape Incr Objects ParseState.
From S2P Require Import Printing MenuTree Values Reads Session Meaning Effects ConfigFile ConfigWrite ConfigText.
From S2P Require Import MenuView MenuShown MenuInfo MenuKeys MenuLoop MenuChange GuiTree GuiView GuiState GuiBuild.
From S2P Require Import GuiShown.
From stdpp Require Import options.

(** ** Nodes below a node *)
Section Under.
Context {K : kconfig} {fuel : nat}.
Hypothesis Htree : gui_tree_ok K fuel.

Definition under (n x : nat) : Prop := x = n ∨ ∃ w, walk K fuel (n_list (nod K n)) = Ok w ∧ x ∈ w.

Lemma walk_fuel f o w w' : walk K f o = Ok w → walk K fuel o = Ok w' → w = w'.
Proof using Type.
  intros H H'. destruct (Nat.le_ge_cases f fuel) as [Hf|Hf];
    [apply (walk_mono_le K _ _ _ _ Hf) in H|apply (walk_mono_le K _ _ _ _ Hf) in H']; congruence.
Qed.

Lemma list_chain p : ∃ c w, chain K (n_list (nod K p)) c ∧ walk K fuel (n_list (nod K p)) = Ok w ∧
  c `sublist_of` w ∧ NoDup c.
Proof using Htree.
  destruct (tr_walk (gt_tree _ _ Htree) p) as [w Hw]. destruct (walk_chain K _ _ _ Hw) as (c & Hc & Hs).
  exists c, w. split_and!; [done..|]. eapply sublist_NoDup; [|exact Hs]. by eapply gt_nodup.
Qed.

Lemma in_list_iff p n c : chain K (n_list (nod K p)) c → in_list K p n ↔ n ∈ c.
Proof using Type.
  intros Hc. split; [|by exists c]. intros (c' & Hc' & Hn). by rewrite (chain_unique K _ _ _ Hc Hc').
Qed.

Lemma under_list p n x : in_list K p n → under n x → ∃ w, walk K fuel (n_list (nod K p)) = Ok w ∧ x ∈ w.
Proof using Htree.
  intros (c & Hc & Hn) Hx. destruct (list_chain p) as (c' & w & Hc' & Hw & Hs & _).
  rewrite (chain_unique K _ _ _ Hc Hc') in Hn. assert (n ∈ w) as Hnw by (by eapply elem_of_sublist).
  exists w. split; [done|]. destruct Hx as [->|(w' & Hw' & Hx)]; [done|].
  destruct (walk_below K _ _ _ _ Hw Hnw) as (f & sub & _ & Hsub & Hss & _).
  rewrite <- (walk_fuel _ _ _ _ Hsub Hw') in Hx. by eapply elem_of_sublist.
Qed.

Lemma under_child p n x : in_list K p n → under n x → under p x.
Proof using Htree. intros H1 H2. right. by eapply under_list. Qed.

(** Below a node there is never the node itself. *)
Lemma under_strict b q n : under b q → in_list K q n → under b n ∧ n ≠ b.
Proof using Htree.
  intros Hq Hn. assert (∃ w, walk K fuel (n_list (nod K b)) = Ok w ∧ n ∈ w) as (w & Hw & Hin).
  { destruct (under_list q n n Hn) as (w' & Hw' & Hin); [by left|]. destruct Hq as [->|(w & Hw & Hq)]; [by exists w'|].
    exists w. split; [done|]. destruct (walk_below K _ _ _ _ Hw Hq) as (f & sub & _ & Hsub & Hs & _).
    rewrite <- (walk_fuel _ _ _ _ Hsub Hw') in Hin. by eapply elem_of_sublist. }
  split; [right; by exists w|]. intros ->. by apply (gt_nodup _ _ Htree b w).
Qed.

Lemma not_under p n : in_list K p n → ¬ under n p.
Proof using Htree. intros H1 H2. destruct (under_list _ _ _ H1 H2) as (w & Hw & Hp). by apply (gt_nodup _ _ Htree p w). Qed.

Lemma walk_suffix f o w c1 c2 : walk K f o = Ok w → chain K o (c1 ++ c2) →
  ∃ f' w', walk K f' (head c2) = Ok w' ∧ w' `sublist_of` w.
Proof using Type.
  revert f o w. induction c1 as [|m c1 IH]; intros f o w Hw Hc; cbn in Hc.
  - exists f, w. split; [|done]. destruct Hc; [done|]. exact Hw.
  - inversion Hc as [|? l Hc']; subst. apply walk_step in Hw as (f' & sub & rest & -> & _ & Hr & ->).
    destruct (IH _ _ _ Hr Hc') as (f'' & w' & Hw' & Hs). exists f'', w'. split; [done|].
    apply sublist_cons, sublist_inserts_l, Hs.
Qed.

(** Nodes of the same list have nothing below them in common. *)
Lemma under_disjoint p c1 n c2 m x : chain K (n_list (nod K p)) (c1 ++ n :: c2) → m ∈ c2 →
  under n x → under m x → False.
Proof using Htree.
  intros Hc Hm Hn Hx. destruct (list_chain p) as (_ & w & _ & Hw & _ & _).
  destruct (gt_nodup _ _ Htree _ _ Hw) as [Hnd _].
  destruct (walk_suffix _ _ _ _ _ Hw Hc) as (f & w1 & Hw1 & Hs1). cbn in Hw1.
  pose proof (sublist_NoDup _ _ Hnd Hs1) as Hnd1. apply walk_step in Hw1 as (f' & sub & rest & -> & Hsub & Hrest & ->).
  apply NoDup_cons in Hnd1 as [Hn1 (_ & Hdis & _)%NoDup_app].
  pose proof (chain_suffix K _ _ _ _ Hc eq_refl) as Hc2. cbn in Hc2. inversion Hc2 as [|? l Hc3]; subst.
  assert (x ∈ rest) as Hxr.
  { destruct (walk_chain K _ _ _ Hrest) as (c & Hcc & Hs). rewrite (chain_unique K _ _ _ Hcc Hc3) in Hs.
    assert (m ∈ rest) as Hmr by (by eapply elem_of_sublist). destruct Hx as [->|(w' & Hw' & Hx)]; [done|].
    destruct (walk_below K _ _ _ _ Hrest Hmr) as (f1 & sub1 & _ & Hsub1 & Hss & _).
    rewrite <- (walk_fuel _ _ _ _ Hsub1 Hw') in Hx. by eapply elem_of_sublist. }
  destruct Hn as [->|(w' & Hw' & Hx')].
  - apply Hn1, elem_of_app. by right.
  - rewrite <- (walk_fuel _ _ _ _ Hsub Hw') in Hx'. by eapply Hdis.
Qed.
End Under.

(** ** What the tree should show, given the session and the modes *)
Section Spec.
Variable K : kconfig.
Variable fuel : nat.
Variable g : gui.

Abbreviation σ := (g_session g).
Abbreviation appears := (appears K (visible_of (K := K) (fuel := fuel) (uvals σ)) (g_show_all g)).

(** The menu at the top of the tree. *)
Definition base : nat := if g_single_menu g then g_cur_menu g else k_top_node K.

(** The menus whose nodes can be in the tree. *)
Definition reach (p : nat) : Prop := g_single_menu g = false ∨ p = base ∨ into_menu K p = true.

(** The nodes that belong below an item. *)
Definition kid (p n : nat) : Prop := reach p ∧ in_list K p n ∧ appears n.
Definition kids (p : nat) (l : list nat) : Prop :=
  (∀ c, chain K (n_list (nod K p)) c → l `sublist_of` c) ∧ ∀ n, n ∈ l ↔ kid p n.

(** The item of a menu. *)
Definition key (p : nat) : option nat := if decide (p = base) then None else Some p.

Definition sub_ok (t : treeview) : Prop := ∀ n k, t_parent t !! n = Some k → ∃ p, k = key p ∧ kid p n.

(** The text and the image of an item are those of its node. *)
Definition labelled (t : treeview) (n : nat) : Prop := ∃ text tag v,
  gui_node_str K fuel (g_show_all g) (g_single_menu g) n σ = Ok text ∧
  gui_visible K fuel σ n = Ok v ∧ img_tag K fuel n σ = Ok tag ∧
  t_text t !! n = Some text ∧
  t_tags t !! n = Some (words (if v || negb (g_show_all g) then tag else tag +:+ " invisible")).

(** The items that must have their children: in full-tree mode those that are open
    and those of symbols, which can be opened at once. *)
Definition need (t : treeview) (n : nat) : Prop :=
  g_single_menu g = true ∨ is_symbol_node (n_item (nod K n)) = true ∨ is_open n t = true.

Inductive shown_ok (t : treeview) : nat → Prop :=
  | shown_ok_intro n : labelled t n →
      (need t n → kids n (children (key n) t)) →
      (∀ m, need t n → m ∈ children (key n) t → shown_ok t m) → shown_ok t n.

(** [t'] has the children of [t] outside [X], the same open items, and labels that
    were right still are. *)
Record ext (X : nat → Prop) (t t' : treeview) : Prop := {
  ext_open : t_open t' = t_open t;
  ext_rest : t_selected t' = t_selected t ∧ t_focus t' = t_focus t ∧ t_first t' = t_first t ∧ t_event t' = t_event t;
  ext_label n : labelled t n → labelled t' n;
  ext_kids x : ¬ X x → children (key x) t' = children (key x) t
}.

Lemma gext_refl X t : ext X t t.
Proof using Type. by split. Qed.

Lemma gext_trans X t1 t2 t3 : ext X t1 t2 → ext X t2 t3 → ext X t1 t3.
Proof using Type.
  intros [O1 R1 L1 C1] [O2 R2 L2 C2]. split.
  - congruence.
  - intuition congruence.
  - auto.
  - intros x Hx. by rewrite C2, C1.
Qed.

Lemma ext_mono (X Y : nat → Prop) t1 t2 : (∀ x, X x → Y x) → ext X t1 t2 → ext Y t1 t2.
Proof using Type. intros HXY [O1 R1 L1 C1]. split; [done..|]. intros x Hx. apply C1. auto. Qed.

Lemma key_inj p q : key p = key q → p = q.
Proof using Type. unfold key. repeat case_decide; congruence. Qed.

Lemma gneed_ext X t t' n : ext X t t' → need t' n → need t n.
Proof using Type. intros [O _ _ _]. unfold need, is_open. by rewrite O. Qed.

Hypothesis Htree : gui_tree_ok K fuel.

Lemma shown_ok_ext X t t' n : shown_ok t n → ext X t t' → (∀ x, under (K := K) (fuel := fuel) n x → ¬ X x) → shown_ok t' n.
Proof using Htree.
  intros H He. induction H as [n Hl Hk Hc IH]. intros Hout.
  assert (children (key n) t' = children (key n) t) as Hsame by (apply (ext_kids X _ _ He), Hout; by left).
  constructor.
  - by apply (ext_label X _ _ He).
  - intros Hn. rewrite Hsame. apply Hk. by eapply gneed_ext.
  - intros m Hn Hm. rewrite Hsame in Hm. assert (need t n) as Hn' by (by eapply gneed_ext). apply IH; [done..|].
    intros x Hx. apply Hout. eapply under_child; [done| |exact Hx]. by apply (proj2 (Hk Hn')).
Qed.

(** The children of a node without nodes below it. *)
Lemma sub_none t p : wf t → sub_ok t → (∀ n, ¬ kid p n) → children (key p) t = [].
Proof using Type.
  intros Hwf Hs Hno. destruct (children (key p) t) as [|n l] eqn:Hc; [done|].
  assert (t_parent t !! n = Some (key p)) as Hn by (apply (wf_link t Hwf); rewrite Hc; by left).
  destruct (Hs _ _ Hn) as (q & Hq & Hk). apply key_inj in Hq as ->. by destruct (Hno n).
Qed.

Lemma sub_kid t p n : wf t → sub_ok t → n ∈ children (key p) t → kid p n.
Proof using Type.
  intros Hwf Hs Hn. apply (wf_link t Hwf) in Hn. destruct (Hs _ _ Hn) as (q & Hq & Hk). by apply key_inj in Hq as ->.
Qed.

(** ** Moving an item to its place *)

Lemma kid_parent p n : kid p n → n_parent (nod K n) = Some p.
Proof using Htree. intros (_ & H & _). by apply Htree. Qed.

Lemma put_sub n p t : wf t → sub_ok t → kid p n → sub_ok (put n (key p) t).
Proof using Type.
  intros Hwf Hs Hk m k. rewrite put_parent. case_decide as Hm; [|apply Hs]. intros [= <-]. subst. eauto.
Qed.

Lemma put_other n p q t : wf t → sub_ok t → kid p n → q ≠ p → children (key q) (put n (key p) t) = children (key q) t.
Proof using Htree.
  intros Hwf Hs Hk Hq. rewrite put_children by done. rewrite decide_False by (by intros ?%key_inj). rewrite app_nil_r.
  assert (n ∉ children (key q) t) as Hn.
  { intros H. pose proof (sub_kid _ _ _ Hwf Hs H) as Hkq. apply kid_parent in Hk, Hkq. congruence. }
  clear -Hn. induction (children (key q) t) as [|x l IH]; [done|].
  rewrite filter_cons_True by set_solver. f_equal. apply IH. set_solver.
Qed.

Lemma put_own n p t : wf t → children (key p) (put n (key p) t) = filter (λ m, m ≠ n) (children (key p) t) ++ [n].
Proof using Type. intros Hwf. rewrite put_children by done. by rewrite decide_True. Qed.

Lemma put_ext n p t : wf t → sub_ok t → kid p n → ext (λ x, x = p) t (put n (key p) t).
Proof using Htree.
  intros Hwf Hs Hk. destruct (put_items n (key p) t) as (O & T & G & R). split; [done|intuition| |].
  - intros m (text & tag & v & ? & ? & ? & ? & ?). exists text, tag, v. by rewrite T, G.
  - intros x Hx. by apply put_other.
Qed.

Lemma move_put n p t : wf t → sub_ok t → kid p n → move n (key p) t = Ok (put n (key p) t).
Proof using Htree.
  intros Hwf Hs Hk. unfold move. destruct (gt_rank _ _ Htree) as [rank Hr].
  erewrite (ancestor_rank rank); [done| |].
  - intros m q Hm. destruct (Hs _ _ Hm) as (q' & Hq & Hkq). unfold key in Hq. case_decide; [done|]. injection Hq as ->.
    apply Hr, Hkq.
  - unfold key. case_decide; [done|]. intros q [= <-]. apply Hr, Hk.
Qed.
End Spec.

(** ** Filling a list *)
Section Fill.
Context {K : kconfig} {fuel : nat} {HK : Loaded K fuel}.
Variable g : gui.
Hypothesis Hσ : session_ok (K := K) (g_session g).
Hypothesis Htree : gui_tree_ok K fuel.

Abbreviation kid := (kid K fuel g).
Abbreviation kids := (kids K fuel g).
Abbreviation key := (key K g).
Abbreviation base := (base K g).
Abbreviation sub_ok := (sub_ok K fuel g).
Abbreviation shown_ok := (shown_ok K fuel g).
Abbreviation labelled := (labelled K fuel g).
Abbreviation ext := (ext K fuel g).
Abbreviation under := (under (K := K) (fuel := fuel)).
Abbreviation appears := (appears K (visible_of (K := K) (fuel := fuel) (uvals (g_session g))) (g_show_all g)).

(** A computation that succeeds and changes only the tree. *)
Definition steps (m : G ()) (t : treeview) (Q : treeview → Prop) : Prop :=
  ∃ t', m (set_g_tree t g) = (Ok (), set_g_tree t' g) ∧ Q t'.

Lemma gsteps_ret t (Q : treeview → Prop) : Q t → steps (mret ()) t Q.
Proof using Type. intros HQ. by exists t. Qed.

Lemma gsteps_bind m m' t (Q R : treeview → Prop) : steps m t Q → (∀ t', Q t' → steps m' t' R) → steps (m;; m') t R.
Proof using Type.
  intros (t1 & H1 & HQ) H. destruct (H t1 HQ) as (t2 & H2 & HR). exists t2. split; [|done].
  unfold mbind, G_bind. by rewrite H1.
Qed.

Lemma steps_mono m t (Q R : treeview → Prop) : steps m t Q → (∀ t', Q t' → R t') → steps m t R.
Proof using Type. intros (t1 & H1 & HQ) H. exists t1. auto. Qed.

Lemma gfor_app {A} (f : A → G ()) l1 l2 x : gfor f (l1 ++ l2) x = (gfor f l1;; gfor f l2) x.
Proof using Type.
  revert x. induction l1 as [|y l1 IH]; intros x; [done|]. cbn [app gfor]. unfold mbind, G_bind.
  destruct (f y x) as [[[]|e|] x']; [|done..]. apply IH.
Qed.

Lemma steps_app {A} (f : A → G ()) l1 l2 t (Q R : treeview → Prop) :
  steps (gfor f l1) t Q → (∀ t', Q t' → steps (gfor f l2) t' R) → steps (gfor f (l1 ++ l2)) t R.
Proof using Type. intros H1 H2. unfold steps. rewrite gfor_app. by eapply gsteps_bind. Qed.

Lemma gfor_ext {A} (f f' : A → G ()) l x : (∀ y x, f y x = f' y x) → gfor f l x = gfor f' l x.
Proof using Type.
  intros Hf. revert x. induction l as [|y l IH]; intros x; [done|]. cbn [gfor]. unfold mbind, G_bind. rewrite Hf.
  by destruct (f' y x) as [[[]|e|] x'].
Qed.

Lemma filter_ne (n : nat) (l : list nat) : n ∉ l → filter (λ m, m ≠ n) l = l.
Proof using Type.
  intros Hn. induction l as [|x l IH]; [done|]. apply not_elem_of_cons in Hn as [? ?].
  rewrite filter_cons_True by congruence. f_equal. auto.
Qed.

(** ** One node *)

Lemma kid_title p n : kid p n → item_of_node (n_item (nod K n)) = None → is_Some (prompt_text K n).
Proof using Htree. intros (_ & H & _). by apply (gt_titles _ _ Htree p). Qed.

Lemma steps_add p n t : kid p n → wf t → sub_ok t →
  steps (add_to_tree K fuel n base) t (λ t', wf t' ∧ sub_ok t' ∧ ext (λ x, x = p) t t' ∧ labelled t' n ∧
    children (key p) t' = filter (λ m, m ≠ n) (children (key p) t) ++ [n]).
Proof using HK Hσ Htree.
  intros Hk Hwf Hs.
  destruct (answered_node_str (g_session g) Hσ Htree (g_show_all g) (g_single_menu g) n (kid_title _ _ Hk)) as [text Ht].
  destruct (answered_visible (g_session g) Hσ n) as [v Hv]. destruct (answered_img (g_session g) Hσ n) as [tag Hi].
  set (tags := if v || negb (g_show_all g) then tag else tag +:+ " invisible").
  exists (set_item n text tags (put n (key p) t)). split.
  - unfold add_to_tree. rewrite (kid_parent K fuel g Htree p n Hk). fold (key p).
    unfold mbind, G_bind, try_tree. cbn [g_tree set_g_tree]. fold (key p).
    change (if decide (p = base) then None else Some p) with (key p).
    rewrite (move_put K fuel g Htree) by done. unfold gget, gread, g_session. cbn [g_host g_show_all g_single_menu set_g_tree].
    unfold g_session in Ht, Hv, Hi. rewrite Ht, Hv, Hi. reflexivity.
  - assert (labelled (set_item n text tags (put n (key p) t)) n) as Hl.
    { exists text, tag, v. cbn. by rewrite !lookup_insert_eq. }
    pose proof (put_ext K fuel g Htree n p t Hwf Hs Hk) as [O R L C].
    split_and!; [eapply wf_links; [..|by apply (put_wf n (key p))]; reflexivity|exact (put_sub K fuel g n p t Hwf Hs Hk)| |done|exact (put_own K g n p t Hwf)].
    split; [done|done| |done].
    intros m Hm. apply L in Hm. destruct (decide (m = n)) as [->|Hmn]; [done|].
    destruct Hm as (x & y & z & ? & ? & ? & ? & ?). exists x, y, z. cbn. by rewrite !lookup_insert_ne.
Qed.

(** ** The nodes of a list *)

Definition into : nat → bool := if g_single_menu g then into_menu K else into_full K.

(** What is done after a node was added. *)
Variable f : nat.
Variable extra : nat → G ().
Hypothesis Hextra : ∀ n, if into n then extra n = mret () else
  ∀ p t, kid p n → under base p → (∃ w, walk K f (n_list (nod K n)) = Ok w) → wf t → sub_ok t → labelled t n →
    steps (extra n) t (λ t', wf t' ∧ sub_ok t' ∧ ext (under n) t t' ∧ shown_ok t' n).

Lemma into_reach n : into n = true → reach K g n.
Proof using Type. unfold into, reach. destruct (g_single_menu g); auto. Qed.

(** Adding a node and what follows at once. *)
Lemma add_node p n t : kid p n → under base p → (∃ w, walk K f (n_list (nod K n)) = Ok w) → wf t → sub_ok t →
  steps (add_to_tree K fuel n base;; extra n) t (λ t', wf t' ∧ sub_ok t' ∧
    ext (λ x, x = p ∨ under n x) t t' ∧ labelled t' n ∧
    children (key p) t' = filter (λ m, m ≠ n) (children (key p) t) ++ [n] ∧ (into n = false → shown_ok t' n)).
Proof using HK Hσ Htree Hextra.
  intros Hk Hb Hw Hwf Hs. eapply gsteps_bind; [by apply (steps_add p n t)|].
  intros t1 (Hwf1 & Hs1 & He1 & Hl1 & Hc1). specialize (Hextra n). destruct (into n).
  - rewrite Hextra. apply gsteps_ret. split_and!; [assumption..| |assumption|assumption|discriminate].
    eapply ext_mono; [|exact He1]. auto.
  - eapply steps_mono; [by apply (Hextra p t1)|]. intros t2 (Hwf2 & Hs2 & He2 & Hok).
    split_and!; [assumption..| | | |auto].
    + eapply gext_trans; (eapply ext_mono; [|eassumption]); auto.
    + by apply (ext_label _ _ _ _ _ _ He2).
    + rewrite <- Hc1. apply (ext_kids _ _ _ _ _ _ He2). by apply not_under; [|apply Hk].
Qed.

(** The nodes of the list of a node, one after the other: [old] are those already
    in place, [stale] the items that were there before. *)
Definition fills (o : option nat) (L : list nat) : Prop := ∀ p c1 c2 t stale old,
  chain K (n_list (nod K p)) (c1 ++ c2) → chain K o c2 → reach K g p → under base p →
  (∃ w, walk K (S f) o = Ok w) → wf t → sub_ok t →
  children (key p) t = stale ++ old → (∀ n, n ∈ stale → n ∈ c2) →
  old `sublist_of` c1 → (∀ n, n ∈ old ↔ n ∈ c1 ∧ appears n) →
  steps (gfor (λ n, add_to_tree K fuel n base;; extra n) L) t (λ t', wf t' ∧ sub_ok t' ∧
    ext (λ x, x = p ∨ ∃ n, n ∈ c2 ∧ under n x) t t' ∧ children (key p) t' `sublist_of` (c1 ++ c2) ∧
    (∀ n, n ∈ children (key p) t' ↔ n ∈ c1 ++ c2 ∧ appears n) ∧
    ∀ n, n ∈ c2 → appears n → shown_ok t' n).

Lemma under_self_list n c x : chain K (n_list (nod K n)) c → (∃ m, m ∈ c ∧ under m x) → under n x.
Proof using Htree. intros Hc (m & Hm & Hx). eapply under_child; [done| |exact Hx]. by exists c. Qed.

(** A node together with the list below it. *)
Lemma add_node_sub p n sub t : kid p n → under base p → (∃ w, walk K f (n_list (nod K n)) = Ok w) → wf t → sub_ok t →
  (into n = true → fills (n_list (nod K n)) sub) → (into n = false → sub = []) →
  steps (gfor (λ n, add_to_tree K fuel n base;; extra n) (n :: sub)) t (λ t', wf t' ∧ sub_ok t' ∧
    ext (λ x, x = p ∨ under n x) t t' ∧
    children (key p) t' = filter (λ m, m ≠ n) (children (key p) t) ++ [n] ∧ shown_ok t' n).
Proof using HK Hσ Htree Hextra.
  intros Hk Hb Hw Hwf Hs Hsub Hno. cbn [gfor]. eapply gsteps_bind; [by apply (add_node p n t)|].
  intros t1 (Hwf1 & Hs1 & He1 & Hl1 & Hc1 & Hok1). destruct (into n) eqn:Hi; [clear Hno Hok1|].
  - destruct (list_chain Htree n) as (c & wn & Hc & _). destruct Hw as [w Hw].
    eapply steps_mono; [eapply (Hsub eq_refl n [] c t1 (children (key n) t1) [])|].
    + exact Hc.
    + exact Hc.
    + by apply into_reach.
    + eapply under_strict; [exact Htree|exact Hb|apply Hk].
    + exists w. by apply walk_mono.
    + exact Hwf1.
    + exact Hs1.
    + by rewrite app_nil_r.
    + intros m Hm. apply (sub_kid K fuel g _ _ _ Hwf1 Hs1) in Hm as (_ & Hm & _). by apply (in_list_iff (K := K) n m c Hc).
    + done.
    + intros m. split; [by intros ?%elem_of_nil|by intros [?%elem_of_nil _]].
    + intros t2 (Hwf2 & Hs2 & He2 & Hsl & Hel & Hok). cbn [app] in Hsl, Hel.
      assert (ext (under n) t1 t2) as He2'.
      { eapply ext_mono; [|exact He2]. intros x [->|Hx]; [by left|by eapply under_self_list]. }
      assert (∀ m, m ∈ children (key n) t2 ↔ kid n m) as Hkids.
      { intros m. rewrite Hel, <- (in_list_iff (K := K) n m c Hc). unfold GuiFill.kid.
        pose proof (into_reach n Hi). split; [intros [? ?]; split_and!; assumption|intros (_ & ? & ?); split; assumption]. }
      split_and!; [assumption..| | |].
      * eapply gext_trans; [exact He1|]. eapply ext_mono; [|exact He2']. auto.
      * rewrite <- Hc1. apply (ext_kids _ _ _ _ _ _ He2'). by apply not_under; [|apply Hk].
      * constructor.
        -- by apply (ext_label _ _ _ _ _ _ He2').
        -- intros _. split; [|exact Hkids]. intros c' Hc'. by rewrite (chain_unique K _ _ _ Hc' Hc).
        -- intros m _ Hm. apply Hkids in Hm as (_ & Hm & Ham). apply Hok; [|exact Ham]. by apply (in_list_iff (K := K) n m c Hc).
  - rewrite (Hno eq_refl). cbn [gfor]. apply gsteps_ret. split_and!; auto.
Qed.

Lemma stale_kid p t stale old n : wf t → sub_ok t → children (key p) t = stale ++ old → n ∈ stale → kid p n.
Proof using Type.
  intros Hwf Hs Hch Hn. apply (sub_kid K fuel g t p n Hwf Hs). rewrite Hch. apply elem_of_app. by left.
Qed.

Lemma fill_list o L :
  lists K (visible_of (K := K) (fuel := fuel) (uvals (g_session g))) (g_show_all g) into o L → fills o L.
Proof using HK Hσ Htree Hextra.
  induction 1 as [|n sub rest Ha _ IHsub Hno Hrest IHrest|n rest Ha Hrest IHrest];
    intros p c1 c2 t stale old Hc Hc2 Hreach Hb [w Hw] Hwf Hs Hch Hst Hd1 Hd2.
  - assert (c2 = []) as -> by (by inversion Hc2). apply gsteps_ret.
    assert (stale = []) as -> by (destruct stale as [|x stale]; [reflexivity|destruct (not_elem_of_nil x); apply Hst; by left]).
    rewrite Hch. cbn [app]. rewrite app_nil_r. split_and!; [exact Hwf|exact Hs|apply gext_refl|exact Hd1|exact Hd2|intros n Hn; by apply elem_of_nil in Hn].
  - inversion Hc2 as [|? c2' Hc2']; subst.
    apply walk_step in Hw as (f' & wsub & wrest & [= <-] & Hwsub & Hwrest & _).
    assert (NoDup (c1 ++ n :: c2')) as (_ & Hn1 & Hn2)%NoDup_app.
    { destruct (list_chain Htree p) as (c & _ & Hc' & _ & _ & Hnd). by rewrite (chain_unique K _ _ _ Hc Hc'). }
    apply NoDup_cons in Hn2 as [Hn2 _].
    assert (n ∉ old) as Hold by (intros [H _]%Hd2; eapply Hn1; [exact H|by left]).
    assert (kid p n) as Hk.
    { split_and!; [exact Hreach| |exact Ha]. exists (c1 ++ n :: c2'). split; [exact Hc|]. apply elem_of_app. right. by left. }
    change (n :: sub ++ rest) with ((n :: sub) ++ rest).
    eapply steps_app; [by apply (add_node_sub p n sub t); [..|exact IHsub|exact Hno]; eauto|].
    intros t1 (Hwf1 & Hs1 & He1 & Hch1 & Hok1). rewrite Hch, filter_app, (filter_ne n old Hold), <- app_assoc in Hch1.
    eapply steps_mono; [eapply (IHrest p (c1 ++ [n]) c2' t1 _ _)|].
    + rewrite <- app_assoc. exact Hc.
    + exact Hc2'.
    + exact Hreach.
    + exact Hb.
    + exists wrest. by apply walk_mono.
    + exact Hwf1.
    + exact Hs1.
    + exact Hch1.
    + intros m [Hm Hst']%list_elem_of_filter. apply Hst in Hst'. apply elem_of_cons in Hst' as [->|?]; [contradiction|assumption].
    + apply sublist_app; [exact Hd1|reflexivity].
    + intros m. rewrite !elem_of_app, list_elem_of_singleton, Hd2.
      split; [intros [[? ?]| ->]; split; auto|intros [[?| ->] ?]; auto].
    + rewrite <- app_assoc. cbn [app]. intros t2 (Hwf2 & Hs2 & He2 & Hsl & Hel & Hok2).
      split_and!; [assumption..| |assumption|assumption|].
      * eapply gext_trans; (eapply ext_mono; [|eassumption]).
        -- intros x [?|Hx]; [by left|right; exists n; split; [by left|exact Hx]].
        -- intros x [?|(m & ? & ?)]; [by left|right; exists m; split; [by right|assumption]].
      * intros m Hm Ham. apply elem_of_cons in Hm as [->|Hm]; [|exact (Hok2 m Hm Ham)].
        eapply (shown_ok_ext K fuel g Htree); [exact Hok1|exact He2|]. intros x Hx [->|(m & Hm & Hx')].
        -- revert Hx. apply not_under; [exact Htree|apply Hk].
        -- by eapply (under_disjoint Htree p c1 n c2' m x).
  - inversion Hc2 as [|? c2' Hc2']; subst.
    eapply steps_mono; [eapply (IHrest p (c1 ++ [n]) c2' t stale old)|].
    + rewrite <- app_assoc. exact Hc.
    + exact Hc2'.
    + exact Hreach.
    + exact Hb.
    + apply walk_step in Hw as (f' & ? & r & [= <-] & _ & Hr & _). exists r. by apply walk_mono.
    + exact Hwf.
    + exact Hs.
    + exact Hch.
    + intros m Hm. destruct (stale_kid _ _ _ _ _ Hwf Hs Hch Hm) as (_ & _ & Hap).
      specialize (Hst m Hm). apply elem_of_cons in Hst as [->|Hst]; [contradiction|exact Hst].
    + by apply sublist_inserts_r.
    + intros m. rewrite Hd2, elem_of_app, list_elem_of_singleton.
      split; [intros [? ?]; split; [left|]; assumption|intros [[?| ->] ?]; [split; assumption|contradiction]].
    + cbn. rewrite <- app_assoc. cbn. intros t' (? & ? & He & ? & ? & Hok). split_and!; [assumption..| |assumption|assumption|].
      * eapply ext_mono; [|exact He]. intros x [?|(m & ? & ?)]; [by left|right; exists m; split; [by right|assumption]].
      * intros m Hm Ham. apply elem_of_cons in Hm as [->|Hm]; [contradiction|exact (Hok m Hm Ham)].
Qed.
End Fill.
