(* ===== verification/GuiUpdate.v ===== *)
(** * Updating the Treeview

    [_update_tree] and the opening of a menu leave a tree that shows the
    configuration; what its rows are. *)

From S2P Require Import Prelude PyStr PyText Kconst Expr Escape Incr Objects ParseState.
From S2P Require Import Printing MenuTree Values Reads Session Meaning Effects ConfigFile ConfigWrite ConfigText.
From S2P Require Import MenuView MenuShown MenuInfo MenuKeys MenuLoop MenuChange GuiTree GuiView GuiState GuiBuild GuiKeys.
From S2P Require Import GuiShown GuiFill.
From stdpp Require Import options.

Section Build.
Context {K : kconfig} {fuel : nat} {HK : Loaded K fuel}.
Variable g : gui.
Hypothesis Hσ : session_ok (K := K) (g_session g).
Hypothesis Htree : gui_tree_ok K fuel.

Abbreviation kid := (kid K fuel g).
Abbreviation kids := (kids K fuel g).
Abbreviation key := (key K g).
Abbreviation base := (base K g).
Abbreviation sub_ok := (sub_ok K fuel g).
Abbreviation shown_ok := (shown_ok K fuel g).
Abbreviation labelled := (labelled K fuel g).
Abbreviation ext := (ext K fuel g).
Abbreviation steps := (steps g).
Abbreviation under := (under (K := K) (fuel := fuel)).
Abbreviation appears := (appears K (visible_of (K := K) (fuel := fuel) (uvals (g_session g))) (g_show_all g)).

(** A node without children of its own in the tree is as it should be. *)
Lemma childless_ok t n : wf t → sub_ok t → labelled t n → (∀ m, ¬ kid n m) → shown_ok t n.
Proof using Type.
  intros Hwf Hs Hl Hno. pose proof (sub_none K fuel g t n Hwf Hs Hno) as Hc. constructor.
  - exact Hl.
  - intros _. rewrite Hc. split; [intros c _; apply sublist_nil_l|]. intros m. split; [by intros ?%elem_of_nil|by intros ?%Hno].
  - intros m _ Hm. rewrite Hc in Hm. by apply elem_of_nil in Hm.
Qed.

(** Filling the whole list of a menu. *)
Lemma fill_menu f extra p L t :
  (∀ n, if into (K := K) g n then extra n = mret () else
    ∀ q t, kid q n → under base q → (∃ w, walk K f (n_list (nod K n)) = Ok w) → wf t → sub_ok t → labelled t n →
      steps (extra n) t (λ t', wf t' ∧ sub_ok t' ∧ ext (under n) t t' ∧ shown_ok t' n)) →
  lists K (visible_of (K := K) (fuel := fuel) (uvals (g_session g))) (g_show_all g) (into (K := K) g) (n_list (nod K p)) L →
  reach K g p → under base p → (∃ w, walk K (S f) (n_list (nod K p)) = Ok w) → wf t → sub_ok t →
  steps (gfor (λ n, add_to_tree K fuel n base;; extra n) L) t (λ t', wf t' ∧ sub_ok t' ∧ ext (under p) t t' ∧
    kids p (children (key p) t') ∧ ∀ n, n ∈ children (key p) t' → shown_ok t' n).
Proof using HK Hσ Htree.
  intros Hextra HL Hreach Hb Hw Hwf Hs. destruct (list_chain Htree p) as (c & w' & Hc & _).
  eapply steps_mono; [eapply (fill_list g Hσ Htree f extra Hextra _ L HL p [] c t (children (key p) t) [])|].
  - exact Hc.
  - exact Hc.
  - exact Hreach.
  - exact Hb.
  - exact Hw.
  - exact Hwf.
  - exact Hs.
  - by rewrite app_nil_r.
  - intros m Hm. apply (sub_kid K fuel g _ _ _ Hwf Hs) in Hm as (_ & Hm & _). by apply (in_list_iff (K := K) p m c Hc).
  - done.
  - intros m. split; [by intros ?%elem_of_nil|by intros [?%elem_of_nil _]].
  - cbn [app]. intros t' (Hwf' & Hs' & He & Hsl & Hel & Hok).
    assert (∀ m, m ∈ children (key p) t' ↔ kid p m) as Hkids.
    { intros m. rewrite Hel, <- (in_list_iff (K := K) p m c Hc). unfold GuiFill.kid.
      split; [intros [? ?]; split_and!; assumption|intros (_ & ? & ?); split; assumption]. }
    split_and!; [assumption..| | |].
    + eapply ext_mono; [|exact He]. intros x [->|Hx]; [by left|by eapply (under_self_list (K := K) (fuel := fuel) Htree)].
    + split; [|exact Hkids]. intros c' Hc'. by rewrite (chain_unique K _ _ _ Hc' Hc).
    + intros m Hm. apply Hok; [by apply Hel in Hm as [? _]|by apply Hel in Hm as [_ ?]].
Qed.

(** ** Single-menu mode *)

Lemma build_menu t : g_single_menu g = true → wf t → sub_ok t →
  steps (build_menu_tree K fuel) t (λ t', wf t' ∧ sub_ok t' ∧ ext (under base) t t' ∧
    kids base (children None t') ∧ ∀ n, n ∈ children None t' → shown_ok t' n).
Proof using HK Hσ Htree.
  intros Hsingle Hwf Hs. assert (base = g_cur_menu g) as Hb by (unfold GuiFill.base; by rewrite Hsingle).
  assert (key base = None) as Hkey by (unfold GuiFill.key; by rewrite decide_True).
  destruct (shown_menu_lists (g_session g) Hσ Htree (g_show_all g) base) as (L & HL & Hlists).
  destruct (tr_walk (gt_tree _ _ Htree) base) as [w Hw].
  assert (into (K := K) g = into_menu K) as Hinto by (unfold into; by rewrite Hsingle).
  destruct (fill_menu fuel (λ _, mret ()) base L t) as (t' & Ht' & Hrest).
  - intros n. case_match eqn:Hi; [done|]. intros q t1 Hk Hq _ Hwf1 Hs1 Hl. apply gsteps_ret.
    split_and!; [done..|apply gext_refl|]. apply childless_ok; [done..|]. intros m ([Hr|[Hr|Hr]] & _); [congruence| |].
    + destruct (under_strict Htree _ _ _ Hq (proj1 (proj2 Hk))) as [_ Hne]. done.
    + rewrite Hinto in Hi. congruence.
  - by rewrite Hinto.
  - right. by left.
  - by left.
  - exists w. by apply walk_mono.
  - done.
  - done.
  - rewrite Hkey in Hrest. exists t'. split; [|exact Hrest].
    unfold build_menu_tree, mbind, G_bind, gget, gread. cbn [g_cur_menu g_show_all set_g_tree]. rewrite <- Hb.
    change (g_session (set_g_tree t g)) with (g_session g). rewrite HL. rewrite <- Ht'. apply gfor_ext. intros y x.
    unfold mbind, G_bind. by destruct (add_to_tree K fuel y base x) as [[[]|e|] x'].
Qed.
(** ** Full-tree mode *)

Hypothesis Hfull : g_single_menu g = false.

Lemma reach_full p : reach K g p.
Proof using Hfull. by left. Qed.

Lemma full_base : base = k_top_node K.
Proof using Hfull. unfold GuiFill.base. by rewrite Hfull. Qed.

Lemma steps_dummy q n t : kid q n → under base q → is_open n t = false → is_symbol_node (n_item (nod K n)) = false →
  wf t → sub_ok t → labelled t n →
  steps (add_dummy K fuel n) t (λ t', wf t' ∧ sub_ok t' ∧ ext (under n) t t' ∧ shown_ok t' n).
Proof using HK Hσ Htree Hfull.
  intros Hk Hq Hopen Hsym Hwf Hs Hl.
  assert (∀ t', ext (under n) t t' → shown_ok t' n) as Hok.
  { intros t' He. assert (¬ need K g t' n) as Hneed.
    { intros Hn%(gneed_ext K fuel g _ _ _ _ He). destruct Hn as [?|[?|?]]; congruence. }
    constructor; [by apply (ext_label _ _ _ _ _ _ He)|by intros|by intros]. }
  destruct (shown_menu_lists (g_session g) Hσ Htree (g_show_all g) n) as (L & HL & Hlists).
  unfold steps. unfold add_dummy, mbind, G_bind, gget, gread. cbn [g_show_all set_g_tree].
  change (g_session (set_g_tree t g)) with (g_session g). rewrite HL. destruct L as [|m L].
  - exists t. split; [done|]. split_and!; [done..|apply gext_refl|]. apply Hok, gext_refl.
  - destruct (list_chain Htree n) as (c & _ & Hc & _). destruct (lists_head K _ _ _ _ _ _ _ Hlists Hc) as [Hm Ham].
    assert (kid n m) as Hkm by (split_and!; [apply reach_full|by exists c|done]).
    rewrite (kid_parent K fuel g Htree n m Hkm).
    assert (Some n = key n) as ->.
    { unfold GuiFill.key. destruct (under_strict Htree _ _ _ Hq (proj1 (proj2 Hk))) as [_ Hne]. by rewrite decide_False. }
    unfold try_tree. cbn [g_tree set_g_tree]. rewrite (move_put K fuel g Htree) by done. eexists. split; [reflexivity|].
    assert (ext (under n) t (put m (key n) t)) as He.
    { eapply ext_mono; [|by apply (put_ext K fuel g Htree)]. intros x ->. by left. }
    split_and!; [by apply put_wf|by apply (put_sub K fuel g)|done|by apply Hok].
Qed.

Lemma build_full f : ∀ p t, under base p → (∃ w, walk K f (n_list (nod K p)) = Ok w) → wf t → sub_ok t →
  steps (build_full_tree K fuel f p) t (λ t', wf t' ∧ sub_ok t' ∧ ext (under p) t t' ∧
    kids p (children (key p) t') ∧ ∀ n, n ∈ children (key p) t' → shown_ok t' n).
Proof using HK Hσ Htree Hfull.
  assert (into (K := K) g = into_full K) as Hinto by (unfold into; by rewrite Hfull).
  induction f as [|f IH]; intros p t Hp [w Hw] Hwf Hs; [done|].
  destruct (shown_full_lists (g_session g) Hσ Htree (g_show_all g) p) as (L & HL & Hlists).
  destruct (fill_menu f (λ n, if is_real_menu K n then
      opened ← gget (λ g, is_open n (g_tree g)); if (opened : bool) then build_full_tree K fuel f n else add_dummy K fuel n
    else mret ()) p L t) as (t' & Ht' & Hrest).
  - intros n. rewrite Hinto. unfold into_full, is_real_menu. destruct (is_symbol_node (n_item (nod K n))) eqn:Hsym.
    { by rewrite andb_false_r. }
    intros q t1 Hk Hq Hwn Hwf1 Hs1 Hl1. rewrite andb_true_r. case_bool_decide as Hlist.
    + unfold mbind, G_bind, gget, steps. cbn [g_tree set_g_tree]. destruct (is_open n t1) eqn:Hopen.
      * destruct (under_strict Htree _ _ _ Hq (proj1 (proj2 Hk))) as [Hun _].
        destruct (IH n t1 Hun Hwn Hwf1 Hs1) as (t2 & Ht2 & Hwf2 & Hs2 & He2 & Hk2 & Hok2). exists t2.
        split; [exact Ht2|]. split_and!; [done..|]. constructor; [by apply (ext_label _ _ _ _ _ _ He2)|done|].
        intros m _. apply Hok2.
      * by apply (steps_dummy q).
    + apply gsteps_ret. split_and!; [done..|apply gext_refl|]. apply childless_ok; [done..|].
      intros m (_ & (c & Hc & Hm) & _). destruct (n_list (nod K n)); [by destruct Hlist|]. inversion Hc; subst.
      by apply elem_of_nil in Hm.
  - by rewrite Hinto.
  - apply reach_full.
  - exact Hp.
  - exists w. exact Hw.
  - exact Hwf.
  - exact Hs.
  - exists t'. split; [|exact Hrest]. rewrite <- Ht'. rewrite full_base.
    cbn [build_full_tree]. unfold mbind at 1, G_bind at 1, gget at 1. cbn [g_show_all set_g_tree].
    unfold mbind at 1, G_bind at 1, gread at 1. change (g_session (set_g_tree t g)) with (g_session g). by rewrite HL.
Qed.
End Build.

(** ** The tree after an update *)

(** The tree shows the configuration in the mode of the interface. *)
Record tree_shown (K : kconfig) (fuel : nat) (g : gui) : Prop := {
  ts_wf : wf (g_tree g);
  ts_sub : sub_ok K fuel g (g_tree g);
  ts_kids : kids K fuel g (base K g) (children None (g_tree g));
  ts_ok n : n ∈ children None (g_tree g) → shown_ok K fuel g (g_tree g) n
}.

(** A tree whose attached items are known. *)
Definition known_tree (K : kconfig) (fuel : nat) (t : treeview) : Prop :=
  wf t ∧ ∀ l n, items K fuel = Ok l → attached n t → n ∈ l.

Section Update.
Context {K : kconfig} {fuel : nat} {HK : Loaded K fuel}.
Hypothesis Htree : gui_tree_ok K fuel.
Implicit Types g : gui.

Lemma shown_known g : tree_shown K fuel g → known_tree K fuel (g_tree g).
Proof using Htree.
  intros [Hwf Hs _ _]. split; [done|]. intros l n Hl [k Hk]. destruct (Hs _ _ Hk) as (p & _ & _ & Hp & _).
  destruct (gt_items _ _ Htree) as (l' & Hl' & _ & Hin). rewrite Hl in Hl'. injection Hl' as <-. by apply (Hin p).
Qed.

Lemma key_base g : key K g (base K g) = None.
Proof using Type. unfold key. by rewrite decide_True. Qed.

(** What a tree should show depends on the session and the modes alone. *)
Definition same_view (g g' : gui) : Prop :=
  g_session g' = g_session g ∧ g_show_all g' = g_show_all g ∧ g_single_menu g' = g_single_menu g ∧ g_cur_menu g' = g_cur_menu g.

Lemma view_base g g' : same_view g g' → base K g' = base K g.
Proof using Type. intros (_ & _ & Hm & Hc). unfold base. by rewrite Hm, Hc. Qed.

Lemma view_key g g' p : same_view g g' → key K g' p = key K g p.
Proof using Type. intros Hv. unfold key. by rewrite (view_base _ _ Hv). Qed.

Lemma view_kid g g' p n : same_view g g' → kid K fuel g' p n ↔ kid K fuel g p n.
Proof using Type. intros Hv. unfold kid, reach. rewrite (view_base _ _ Hv). by destruct Hv as (-> & -> & -> & _). Qed.

Lemma view_kids g g' p l : same_view g g' → kids K fuel g' p l ↔ kids K fuel g p l.
Proof using Type. intros Hv. unfold kids. by setoid_rewrite (view_kid _ _ p _ Hv). Qed.

Lemma view_shown_ok g g' t n : same_view g g' → shown_ok K fuel g t n → shown_ok K fuel g' t n.
Proof using Type.
  intros Hv H. induction H as [n Hl Hk _ IH].
  assert (∀ m, need K g' t m → need K g t m) as Hneed by (intros m; unfold need; by destruct Hv as (_ & _ & -> & _)).
  constructor.
  - destruct Hl as (text & tag & v & Hl). exists text, tag, v. destruct Hv as (-> & -> & -> & _). exact Hl.
  - intros Hn. rewrite (view_key _ _ _ Hv). apply (view_kids _ _ _ _ Hv). auto.
  - intros m Hn. rewrite (view_key _ _ _ Hv). auto.
Qed.

Lemma view_sub g g' t : same_view g g' → sub_ok K fuel g t → sub_ok K fuel g' t.
Proof using Type.
  intros Hv Hs n k Hn. destruct (Hs n k Hn) as (p & -> & Hk). exists p. rewrite (view_key _ _ _ Hv).
  split; [done|]. by apply (view_kid _ _ _ _ Hv).
Qed.

Lemma shown_ok_links g t t' n : t_parent t' = t_parent t → t_children t' = t_children t → t_open t' = t_open t →
  t_text t' = t_text t → t_tags t' = t_tags t → shown_ok K fuel g t n → shown_ok K fuel g t' n.
Proof using Type.
  intros Hp Hc Ho Ht Hg H. induction H as [n Hl Hk _ IH].
  assert (∀ m, need K g t' m → need K g t m) as Hneed by (intros m; unfold need, is_open; by rewrite Ho).
  assert (∀ k, children k t' = children k t) as Hch by (intros k; unfold children; by rewrite Hc).
  constructor.
  - destruct Hl as (text & tag & v & ? & ? & ? & ? & ?). exists text, tag, v. by rewrite Ht, Hg.
  - intros Hn. rewrite Hch. auto.
  - intros m Hn Hm. rewrite Hch in Hm. auto.
Qed.

(** The same view with the links, the open items and the labels of the tree. *)
Record same_tree (t t' : treeview) : Prop := {
  st_parent : t_parent t' = t_parent t;
  st_children : t_children t' = t_children t;
  st_open : t_open t' = t_open t;
  st_text : t_text t' = t_text t;
  st_tags : t_tags t' = t_tags t
}.

Lemma tree_shown_view g g' : same_view g g' → same_tree (g_tree g) (g_tree g') →
  tree_shown K fuel g → tree_shown K fuel g'.
Proof using Type.
  intros Hv [Hp Hc Ho Ht Hg] [Hwf Hs Hk Hok].
  assert (children None (g_tree g') = children None (g_tree g)) as Hch by (unfold children; by rewrite Hc).
  split.
  - by eapply wf_links.
  - apply (view_sub g g' _ Hv). intros n k. rewrite Hp. apply Hs.
  - rewrite Hch, (view_base _ _ Hv). by apply (view_kids _ _ _ _ Hv).
  - intros n. rewrite Hch. intros Hn. apply (view_shown_ok g g' _ _ Hv). by apply (shown_ok_links g (g_tree g)); [..|apply Hok].
Qed.

(** [_update_tree] succeeds and leaves a tree that shows the configuration; it keeps
    the open items and the focus. *)
Lemma update_shows g : session_ok (K := K) (g_session g) → known_tree K fuel (g_tree g) →
  ∃ t, update_tree K fuel g = (Ok (), set_g_tree t g) ∧ tree_shown K fuel (set_g_tree t g) ∧
    t_open t = t_open (g_tree g) ∧ t_focus t = t_focus (g_tree g).
Proof using HK Htree.
  intros Hσ [Hwf Hknown]. destruct (gt_items _ _ Htree) as (l & Hl & _ & Hin).
  set (t0 := detach l (g_tree g)).
  assert (wf t0) as Hwf0 by by apply detach_wf.
  assert (∀ n, t_parent t0 !! n = None) as Hno.
  { intros n. unfold t0. rewrite detach_parent. case_decide as Hn; [done|].
    destruct (t_parent (g_tree g) !! n) as [k|] eqn:Hk; [|done]. exfalso. apply Hn, (Hknown l n Hl). by exists k. }
  assert (sub_ok K fuel g t0) as Hs0 by (intros n k; by rewrite Hno).
  assert (steps g (if g_single_menu g then build_menu_tree K fuel else build_full_tree K fuel fuel (k_top_node K)) t0
    (λ t', wf t' ∧ sub_ok K fuel g t' ∧ ext K fuel g (under (K := K) (fuel := fuel) (base K g)) t0 t' ∧
    kids K fuel g (base K g) (children None t') ∧ ∀ n, n ∈ children None t' → shown_ok K fuel g t' n)) as (t1 & Ht1 & Hwf1 & Hs1 & He1 & Hk1 & Hok1).
  { destruct (g_single_menu g) eqn:Hm; [by apply (build_menu g Hσ Htree)|].
    destruct (tr_walk (gt_tree _ _ Htree) (base K g)) as [w Hw].
    pose proof (build_full g Hσ Htree Hm fuel (base K g) t0 ltac:(by left) ltac:(by exists w) Hwf0 Hs0) as H.
    rewrite key_base in H. by rewrite (full_base (K := K) g Hm) in H at 1. }
  set (t2 := set_t_focus (t_focus (g_tree g)) (selection_set (selection (g_tree g)) t1)).
  exists t2. split_and!.
  - unfold update_tree, mbind, G_bind, gget, glift, on_tree, gmodify. rewrite Hl. cbn [g_tree set_g_tree g_single_menu].
    fold t0. change (g_single_menu (set_g_tree t0 g)) with (g_single_menu g). by rewrite Ht1.
  - assert (tree_shown K fuel (set_g_tree t1 g)) as H1.
    { split; [exact Hwf1|exact Hs1|exact Hk1|]. intros n Hn. by apply (view_shown_ok g); [|apply Hok1]. }
    by apply (tree_shown_view (set_g_tree t1 g)).
  - cbn. rewrite (ext_open _ _ _ _ _ _ He1). unfold t0. apply detach_items.
  - done.
Qed.
End Update.

(** ** The rows of the tree *)

(** A node is displayed below the top menu or below a displayed node that is open. *)
Inductive displayed (K : kconfig) (fuel : nat) (g : gui) : nat → Prop :=
  | displayed_top n : kid K fuel g (base K g) n → displayed K fuel g n
  | displayed_below p n : displayed K fuel g p → is_open p (g_tree g) = true → kid K fuel g p n → displayed K fuel g n.

Section Rows.
Context {K : kconfig} {fuel : nat}.
Hypothesis Htree : gui_tree_ok K fuel.
Variable g : gui.
Hypothesis Hshown : tree_shown K fuel g.

Abbreviation kid := (kid K fuel g).
Abbreviation key := (key K g).
Abbreviation t := (g_tree g).
Abbreviation displayed := (displayed K fuel g).

Lemma displayed_under n : displayed n → under (K := K) (fuel := fuel) (base K g) n ∧ n ≠ base K g.
Proof using Htree.
  induction 1 as [n (_ & Hn & _)|p n _ [IH _] _ (_ & Hn & _)]; (eapply under_strict; [exact Htree| |exact Hn]);
    [by left|exact IH].
Qed.

Lemma displayed_key n : displayed n → key n = Some n.
Proof using Htree. intros [_ Hn]%displayed_under. unfold GuiFill.key. by rewrite decide_False. Qed.

Lemma displayed_ok n : displayed n → shown_ok K fuel g t n.
Proof using Htree Hshown.
  induction 1 as [n Hk|p n Hp IH Ho Hk].
  - apply (ts_ok _ _ _ Hshown). by apply (ts_kids _ _ _ Hshown).
  - inversion IH as [? _ Hkids Hc]; subst. assert (need K g t p) as Hn by (right; by right).
    apply Hc; [done|]. by apply (Hkids Hn).
Qed.

(** The children of a displayed node that must have them. *)
Lemma displayed_kids p : displayed p → need K g t p → kids K fuel g p (children (Some p) t).
Proof using Htree Hshown.
  intros Hp Hn. pose proof (displayed_ok _ Hp) as Hok. inversion Hok as [? _ Hk _]; subst.
  rewrite <- (displayed_key _ Hp). auto.
Qed.

Lemma open_need p : p ∈ t_open t → need K g t p.
Proof using Type. intros Hp. right. right. by apply bool_decide_eq_true. Qed.

Lemma rows_sound f k n : n ∈ open_items f t k →
  k = None ∨ (∃ p, k = Some p ∧ displayed p ∧ p ∈ t_open t) → displayed n.
Proof using Htree Hshown.
  revert k. induction f as [|f IH]; intros k Hn Hk; [by apply elem_of_nil in Hn|].
  apply open_items_step in Hn as (m & Hm & Hn).
  assert (displayed m) as Hd.
  { destruct Hk as [->|(p & -> & Hp & Ho)].
    - apply displayed_top. by apply (ts_kids _ _ _ Hshown).
    - eapply displayed_below; [exact Hp|by apply bool_decide_eq_true|]. by apply (displayed_kids p Hp (open_need p Ho)). }
  destruct Hn as [->|[Ho Hn]]; [done|]. eapply IH; [exact Hn|]. right. by exists m.
Qed.

Lemma rows_complete n : displayed n → ∃ l, NoDup l ∧ n ∈ open_items (length l) t None ∧
  ∀ rank : nat → nat, (∀ p m, in_list K p m → rank p < rank m) → Forall (λ m, attached m t ∧ rank m ≤ rank n) l.
Proof using Htree Hshown.
  induction 1 as [n Hk|p n Hp IH Ho Hk].
  - apply (ts_kids _ _ _ Hshown) in Hk as Hc. exists [n]. split; [apply NoDup_singleton|]. split.
    + apply open_items_step. exists n. auto.
    + intros rank _. apply Forall_singleton. split; [|lia]. exists None. by apply (wf_link _ (ts_wf _ _ _ Hshown)).
  - destruct IH as (l & Hnd & Hin & Hall). apply bool_decide_eq_true in Ho.
    pose proof (proj2 (proj2 (displayed_kids p Hp (open_need p Ho)) n) Hk) as Hc.
    destruct (gt_rank _ _ Htree) as [rank Hrank]. exists (n :: l). split.
    + constructor; [|exact Hnd]. intros Hn. specialize (Hall rank Hrank). rewrite Forall_forall in Hall.
      pose proof (proj2 (Hall n Hn)). pose proof (Hrank _ _ (proj1 (proj2 Hk))). lia.
    + split; [by eapply open_items_child|]. intros rank' Hrank'. constructor.
      * split; [|lia]. exists (Some p). by apply (wf_link _ (ts_wf _ _ _ Hshown)).
      * eapply Forall_impl; [by apply Hall|]. intros m [? ?]. pose proof (Hrank' _ _ (proj1 (proj2 Hk))). split; [done|lia].
Qed.

Lemma attached_length l : NoDup l → Forall (λ m, attached m t) l → length l ≤ size (t_parent t).
Proof using Type.
  intros Hnd Hl. rewrite <- (size_list_to_set (C := gset nat)) by done. rewrite <- (size_dom (t_parent t)).
  apply subseteq_size. intros m. rewrite elem_of_list_to_set, elem_of_dom. rewrite Forall_forall in Hl. apply Hl.
Qed.

(** The rows are the displayed nodes. *)
Lemma rows_displayed n : n ∈ rows t ↔ displayed n.
Proof using Htree Hshown.
  split.
  - intros Hn. eapply rows_sound; [exact Hn|by left].
  - intros (l & Hnd & Hin & Hall)%rows_complete. eapply open_items_mono; [|exact Hin]. unfold n_links.
    destruct (gt_rank _ _ Htree) as [rank Hrank]. specialize (Hall rank Hrank).
    pose proof (attached_length l Hnd ltac:(eapply Forall_impl; [exact Hall|by intros ? [? _]])). lia.
Qed.

(** Replacing some nodes of a list by parts of what the walk visits there. *)
Lemma walk_parts (h : nat → list nat) f o w c l : walk K f o = Ok w → chain K o c → l `sublist_of` c →
  (∀ n f' wn, n ∈ l → walk K f' (n_list (nod K n)) = Ok wn → h n `sublist_of` wn) →
  flat_map (λ n, n :: h n) l `sublist_of` w.
Proof using Type.
  intros Hw Hc. revert f w l Hw. induction Hc as [|n c Hc IH]; intros f w l Hw Hl Hh.
  - apply sublist_nil_r in Hl as ->. apply sublist_nil_l.
  - apply walk_step in Hw as (f' & sub & rest & -> & Hs & Hr & ->).
    inversion Hl as [|? l' ? Hl'|? l' ? Hl']; subst; cbn [flat_map].
    + rewrite <- app_comm_cons. apply sublist_skip, sublist_app; [eapply Hh; [by left|exact Hs]|].
      apply (IH f' rest l'); [done..|]. intros m ? ? Hm. apply Hh. by right.
    + apply sublist_cons, sublist_inserts_l. by apply (IH f' rest l).
Qed.

Lemma open_items_order f k p : k = None ∧ p = base K g ∨ k = Some p ∧ displayed p ∧ p ∈ t_open t →
  ∀ fw w, walk K fw (n_list (nod K p)) = Ok w → open_items f t k `sublist_of` w.
Proof using Htree Hshown.
  revert k p. induction f as [|f IH]; intros k p Hk fw w Hw; [apply sublist_nil_l|]. cbn [open_items].
  assert (kids K fuel g p (children k t)) as [Hsl Hel].
  { destruct Hk as [[-> ->]|(-> & Hp & Ho)]; [apply (ts_kids _ _ _ Hshown)|]. by apply displayed_kids, open_need. }
  destruct (walk_chain K _ _ _ Hw) as (c & Hc & _).
  eapply (walk_parts (λ n, if decide (n ∈ t_open t) then open_items f t (Some n) else [])); [exact Hw|exact Hc|by apply Hsl|].
  intros n f' wn Hn Hwn. case_decide as Ho; [|apply sublist_nil_l]. apply (IH (Some n) n) with f'; [|exact Hwn].
  right. split_and!; [done| |done]. destruct Hk as [[-> ->]|(-> & Hp & Hop)].
  - apply displayed_top. by apply Hel.
  - eapply displayed_below; [exact Hp|by apply bool_decide_eq_true|by apply Hel].
Qed.

(** The rows come in the order of the Kconfig files. *)
Lemma rows_order w : walk K fuel (n_list (nod K (base K g))) = Ok w → rows t `sublist_of` w.
Proof using Htree Hshown. intros Hw. eapply open_items_order; [by left|exact Hw]. Qed.

Lemma rows_labelled n : n ∈ rows t → labelled K fuel g t n.
Proof using Htree Hshown. intros Hn%rows_displayed%displayed_ok. by inversion Hn. Qed.
End Rows.
