(* ===== verification/GuiQuit.v ===== *)
(** * Leaving the graphical interface without losing changes

    What MenuQuit.v shows of the terminal interface, for guiconfig: callbacks that
    fail halfway included, the user values change only with [_conf_changed] set, by
    saving or by loading, so that the window closes only with values that were
    saved or loaded or that the user chose not to save; and the session stays sound
    whatever happens. *)

From S2P Require Import Prelude PyStr PyText Kconst Expr Escape Incr Objects ParseState.
From S2P Require Import Printing Values Reads Session Meaning Effects ConfigFile ConfigSession ConfigWrite ConfigText.
From S2P Require Import MenuView MenuInfo MenuKeys MenuLoop MenuSafe MenuQuit GuiTree GuiView GuiState GuiBuild GuiKeys GuiLoop.
From stdpp Require Import options.

Section Quit.
Context {K : kconfig} {fuel : nat} {HK : Loaded K fuel}.
Variable w : world.
Variable d : display.
Variable re_search : string → option (string → bool).

Abbreviation gvalues g := (uvals (g_session g)).

Definition gui_safe (g : gui) : Prop :=
  saved_in (K := K) (fuel := fuel) (g_conf_filename g) (g_host g) ∨ loaded_from (K := K) w (g_conf_filename g) (g_host g).

(** The states between the events of the main window. *)
Inductive gui_run (g0 : gui) : gui → Prop :=
  | gui_run_start : gui_run g0 g0
  | gui_run_event g e l g' : gui_run g0 g → g_quit g = false → g_events g = e :: l →
      (callback (handle_event w d K fuel re_search e);; select_events K fuel) (set_g_events l g) = (Ok (), g') →
      gui_run g0 g'.

(** ** What leaves the configuration alone *)

Definition gsame (g g' : gui) : Prop :=
  g_host g' = g_host g ∧ g_conf_changed g' = g_conf_changed g ∧ g_conf_filename g' = g_conf_filename g ∧ g_quit g' = g_quit g.
Definition gquiet {A} (m : G A) : Prop := ∀ g, gsame g (m g).2.

Lemma gsame_trans g1 g2 g3 : gsame g1 g2 → gsame g2 g3 → gsame g1 g3.
Proof using Type. intros (? & ? & ? & ?) (? & ? & ? & ?). split_and!; congruence. Qed.

Lemma gquiet_ret {A} (a : A) : gquiet (mret a).
Proof using Type. by intros g. Qed.
Lemma gquiet_bind {A B} (m : G A) (f : A → G B) : gquiet m → (∀ a, gquiet (f a)) → gquiet (m ≫= f).
Proof using Type.
  intros Hm Hf g. specialize (Hm g). unfold mbind, G_bind. destruct (m g) as [[a|e|] g1]; [|done..].
  eapply gsame_trans; [exact Hm|apply Hf].
Qed.
Lemma gquiet_get {A} (f : gui → A) : gquiet (gget f).
Proof using Type. by intros g. Qed.
Lemma gquiet_wait {A} : gquiet (gwait (A := A)).
Proof using Type. by intros g. Qed.
Lemma gquiet_lift {A} (o : outcome A) : gquiet (glift o).
Proof using Type. by intros g. Qed.
Lemma gquiet_read {A} (f : session → outcome A) : gquiet (gread f).
Proof using Type. by intros g. Qed.
Lemma gquiet_gtree {A} (f : treeview → outcome A) : gquiet (gtree f).
Proof using Type. by intros g. Qed.
Lemma gquiet_modify (f : gui → gui) : (∀ g, gsame g (f g)) → gquiet (gmodify f).
Proof using Type. by intros Hf g. Qed.
Lemma gquiet_on_tree f : gquiet (on_tree f).
Proof using Type. by intros g. Qed.
Lemma gquiet_try_tree f : gquiet (try_tree f).
Proof using Type. intros g. unfold try_tree. by destruct (f (g_tree g)). Qed.
Lemma gquiet_wait_for {A} (answer : gevent → option A) : gquiet (wait_for answer).
Proof using Type. intros g. unfold wait_for. by destruct (wait_in _ _) as [[]|]. Qed.
Lemma gquiet_box msg : gquiet (show_box msg).
Proof using Type. by intros g. Qed.
Lemma gquiet_status s : gquiet (set_status s).
Proof using Type. by intros g. Qed.
Lemma gquiet_on_tree_of jump f : gquiet (on_tree_of jump f).
Proof using Type. intros g. by destruct jump. Qed.
Lemma gquiet_callback (m : G ()) : gquiet m → gquiet (callback m).
Proof using Type. intros Hm g. specialize (Hm g). unfold callback. by destruct (m g) as [[]]. Qed.
Lemma gquiet_callback_opt {A} (m : G (option A)) : gquiet m → gquiet (callback_opt m).
Proof using Type. intros Hm g. specialize (Hm g). unfold callback_opt. by destruct (m g) as [[]]. Qed.
Lemma gquiet_for {A} (f : A → G ()) l : (∀ a, gquiet (f a)) → gquiet (gfor f l).
Proof using Type. intros Hf. induction l as [|a l IH]; [by intros g|]. apply gquiet_bind; [apply Hf|done]. Qed.
Lemma gquiet_when b m : gquiet m → gquiet (gwhen b m).
Proof using Type. by destruct b; [|intros _ g]. Qed.

Create HintDb gquiet discriminated.
#[local] Hint Resolve gquiet_ret gquiet_get gquiet_wait gquiet_lift gquiet_read gquiet_gtree gquiet_on_tree
  gquiet_try_tree gquiet_wait_for gquiet_box gquiet_status gquiet_on_tree_of : gquiet.

Ltac gquiet :=
  repeat first
    [ solve [auto with gquiet]
    | match goal with
      | H : ∀ _, gquiet _ |- gquiet _ => apply H
      | H : ∀ _ _, gquiet _ |- gquiet _ => apply H
      | H : gquiet _ |- gquiet _ => apply H
      end
    | lazymatch goal with
      | |- gquiet (_ ≫= _) => apply gquiet_bind; [|intros ?]
      | |- gquiet (gwhen _ _) => apply gquiet_when
      | |- gquiet (gfor _ _) => apply gquiet_for; intros ?
      | |- gquiet (callback _) => apply gquiet_callback
      | |- gquiet (callback_opt _) => apply gquiet_callback_opt
      | |- gquiet (gmodify _) => apply gquiet_modify; by intros ?
      | |- gquiet (match ?x with _ => _ end) => destruct x
      end ].

Lemma gquiet_add_to_tree n top : gquiet (add_to_tree K fuel n top).
Proof using Type. unfold add_to_tree. gquiet. Qed.
#[local] Hint Resolve gquiet_add_to_tree : gquiet.
Lemma gquiet_add_dummy n : gquiet (add_dummy K fuel n).
Proof using Type. unfold add_dummy. gquiet. Qed.
#[local] Hint Resolve gquiet_add_dummy : gquiet.
Lemma gquiet_build_full_tree f menu : gquiet (build_full_tree K fuel f menu).
Proof using Type. revert menu. induction f as [|f IH]; intros menu; cbn [build_full_tree]; gquiet. Qed.
#[local] Hint Resolve gquiet_build_full_tree : gquiet.
Lemma gquiet_update_tree : gquiet (update_tree K fuel).
Proof using Type. unfold update_tree, build_menu_tree. gquiet. Qed.
#[local] Hint Resolve gquiet_update_tree : gquiet.
Lemma gquiet_enter_menu menu : gquiet (gui_enter_menu K fuel menu).
Proof using Type. unfold gui_enter_menu. gquiet. Qed.
#[local] Hint Resolve gquiet_enter_menu : gquiet.
Lemma gquiet_select_first : gquiet (select_first d).
Proof using Type. unfold select_first. gquiet. Qed.
#[local] Hint Resolve gquiet_select_first : gquiet.
Lemma gquiet_enter_and_select menu : gquiet (enter_menu_and_select_first d K fuel menu).
Proof using Type. unfold enter_menu_and_select_first. gquiet. Qed.
#[local] Hint Resolve gquiet_enter_and_select : gquiet.
Lemma gquiet_leave_menu : gquiet (gui_leave_menu d K fuel).
Proof using Type. unfold gui_leave_menu. gquiet. Qed.
#[local] Hint Resolve gquiet_leave_menu : gquiet.
Lemma gquiet_fill_closed l : gquiet (fill_closed K fuel l).
Proof using Type. induction l as [|p l IH]; cbn [fill_closed]; gquiet. Qed.
#[local] Hint Resolve gquiet_fill_closed : gquiet.
Lemma gquiet_jump_to n : gquiet (gui_jump_to d K fuel n).
Proof using Type. unfold gui_jump_to, load_parents. gquiet. Qed.
#[local] Hint Resolve gquiet_jump_to : gquiet.
Lemma gquiet_nothing_shown : gquiet (nothing_shown K fuel).
Proof using Type. unfold nothing_shown. gquiet. Qed.
#[local] Hint Resolve gquiet_nothing_shown : gquiet.
Lemma gquiet_set_show_all b : gquiet (set_show_all_var b).
Proof using Type. unfold set_show_all_var. gquiet. Qed.
#[local] Hint Resolve gquiet_set_show_all : gquiet.
Lemma gquiet_do_showall : gquiet (do_showall d K fuel).
Proof using Type. unfold do_showall. gquiet. Qed.
#[local] Hint Resolve gquiet_do_showall : gquiet.
Lemma gquiet_do_tree_mode : gquiet (do_tree_mode d K fuel).
Proof using Type. unfold do_tree_mode. gquiet. Qed.
#[local] Hint Resolve gquiet_do_tree_mode : gquiet.
Lemma gquiet_do_showname : gquiet (do_showname d).
Proof using Type. unfold do_showname. gquiet. Qed.
#[local] Hint Resolve gquiet_do_showname : gquiet.
Lemma gquiet_select_events : gquiet (select_events K fuel).
Proof using d. unfold select_events, tree_select, update_menu_path. gquiet. Qed.
#[local] Hint Resolve gquiet_select_events : gquiet.
Lemma gquiet_jump_display : gquiet (update_jump_to_display K fuel).
Proof using d. unfold update_jump_to_display. gquiet. Qed.
#[local] Hint Resolve gquiet_jump_display : gquiet.
Lemma gquiet_jump_matches s : gquiet (update_jump_to_matches K fuel re_search s).
Proof using K d fuel re_search. unfold update_jump_to_matches. cbv zeta. gquiet. Qed.
#[local] Hint Resolve gquiet_jump_matches : gquiet.

(** ** What flags its changes *)

Definition gmoved (g g' : gui) : Prop :=
  session_ok (K := K) (g_session g') ∧ g_quit g' = g_quit g ∧ g_conf_filename g' = g_conf_filename g ∧
  (g_conf_changed g' = true ∨ g_conf_changed g' = g_conf_changed g ∧ gvalues g' = gvalues g).
Definition gflagged {A} (m : G A) : Prop := ∀ g, session_ok (K := K) (g_session g) → gmoved g (m g).2.

Lemma gmoved_trans g1 g2 g3 : gmoved g1 g2 → gmoved g2 g3 → gmoved g1 g3.
Proof using Type.
  intros (_ & Q1 & E1 & H1) (Hok & Q2 & E2 & H2). split_and!; [done|congruence|congruence|].
  destruct H2 as [H2|[H2 V2]]; [by left|].
  destruct H1 as [H1|[H1 V1]]; [left; congruence|right; split; congruence].
Qed.
Lemma gsame_moved g g' : session_ok (K := K) (g_session g) → gsame g g' → gmoved g g'.
Proof using Type.
  intros Hok (H1 & H2 & H3 & H4). unfold gmoved, g_session. rewrite H1. split_and!; [done..|]. by right.
Qed.

Lemma gflagged_quiet {A} (m : G A) : gquiet m → gflagged m.
Proof using Type. intros Hm g Hok. by apply gsame_moved. Qed.
Lemma gflagged_bind {A B} (m : G A) (f : A → G B) : gflagged m → (∀ a, gflagged (f a)) → gflagged (m ≫= f).
Proof using Type.
  intros Hm Hf g Hok. specialize (Hm g Hok). unfold mbind, G_bind. destruct (m g) as [[a|e|] g1]; [|done..].
  eapply gmoved_trans; [exact Hm|apply Hf, Hm].
Qed.
Lemma gflagged_when b m : gflagged m → gflagged (gwhen b m).
Proof using Type. destruct b; [done|]. intros _. apply gflagged_quiet, gquiet_ret. Qed.
Lemma gflagged_callback (m : G ()) : gflagged m → gflagged (callback m).
Proof using Type. intros Hm g Hok. specialize (Hm g Hok). unfold callback. by destruct (m g) as [[]]. Qed.
Lemma gflagged_callback_opt {A} (m : G (option A)) : gflagged m → gflagged (callback_opt m).
Proof using Type. intros Hm g Hok. specialize (Hm g Hok). unfold callback_opt. by destruct (m g) as [[]]. Qed.

Create HintDb gflagged discriminated.
Ltac gflagged :=
  repeat first
    [ solve [auto with gflagged]
    | apply gflagged_quiet; solve [gquiet]
    | match goal with
      | H : ∀ _, gflagged _ |- gflagged _ => apply H
      | H : gflagged _ |- gflagged _ => apply H
      end
    | lazymatch goal with
      | |- gflagged (_ ≫= _) => apply gflagged_bind; [|intros ?]
      | |- gflagged (gwhen _ _) => apply gflagged_when
      | |- gflagged (callback _) => apply gflagged_callback
      | |- gflagged (callback_opt _) => apply gflagged_callback_opt
      | |- gflagged (match ?x with _ => _ end) => destruct x
      end ].

Lemma set_item_value_ok i val σ b σ' : session_ok (K := K) σ → set_item_value K i val σ = Ok (b, σ') → session_ok (K := K) σ'.
Proof using HK.
  intros Hok Hset. destruct i as [s|c]; cbn in Hset.
  - destruct (set_value_session s (UStr val) σ Hok) as (σ1 & Hs & Hok1 & _). rewrite Hs in Hset. by simplify_eq.
  - destruct (choice_set_value_session c (UStr val) σ Hok) as (σ1 & Hs & Hok1 & _). rewrite Hs in Hset. by simplify_eq.
Qed.

(** A change of a value, and [_set_conf_changed(True)] right after it *)
Lemma gflagged_change i val : gflagged (ghost (on_session (set_item_value K i val));; set_conf_changed true).
Proof using HK.
  intros g Hok. unfold mbind, G_bind, ghost, on_session.
  destruct (set_item_value K i val (h_session (g_host g))) as [[b σ']|e|] eqn:E; cbn [obind].
  - split_and!; [|done|done|by left]. cbn. by eapply set_item_value_ok.
  - by apply gsame_moved.
  - by apply gsame_moved.
Qed.

Lemma gflagged_set_val i val : gflagged (gui_set_val d K fuel i val).
Proof using HK d.
  unfold gui_set_val. apply gflagged_bind; [gflagged|]. intros old. case_bool_decide; [gflagged|].
  intros g Hok.
  match goal with |- gmoved _ ((?a ≫= λ _, ?b ≫= ?c) g).2 =>
    replace ((a ≫= λ _, b ≫= c) g) with (((a ≫= λ _, b) ≫= c) g)
      by (unfold mbind, G_bind; by destruct (a g) as [[]])
  end.
  revert g Hok. apply gflagged_bind; [apply gflagged_change|]. intros []. gflagged.
Qed.
#[local] Hint Resolve gflagged_set_val : gflagged.
Lemma gquiet_accept i text : gquiet (accept_entry K fuel i text).
Proof using K d fuel. unfold accept_entry. gquiet. Qed.
#[local] Hint Resolve gquiet_accept : gquiet.
Lemma gquiet_entry_loop f i : gquiet (entry_loop K fuel f i).
Proof using K d fuel. induction f as [|f IH]; cbn [entry_loop]; gquiet. Qed.
#[local] Hint Resolve gquiet_entry_loop : gquiet.
Lemma gquiet_val_dialog i : gquiet (set_val_dialog K fuel i).
Proof using K d fuel. unfold set_val_dialog. gquiet. Qed.
#[local] Hint Resolve gquiet_val_dialog : gquiet.
Lemma gflagged_change_node n : gflagged (gui_change_node d K fuel n).
Proof using HK d. unfold gui_change_node. gflagged. Qed.
#[local] Hint Resolve gflagged_change_node : gflagged.

(** ** Keys and clicks *)

Lemma gquiet_single_menu n jump : gquiet (single_menu_mode_menu K fuel n jump).
Proof using K d fuel. unfold single_menu_mode_menu. gquiet. Qed.
#[local] Hint Resolve gquiet_single_menu : gquiet.
Lemma gquiet_toggle_open n : gquiet (tree_toggle_open K fuel n).
Proof using K d fuel. unfold tree_toggle_open. gquiet. Qed.
#[local] Hint Resolve gquiet_toggle_open : gquiet.
Lemma gflagged_tree_enter jump : gflagged (tree_enter d K fuel jump).
Proof using HK d. unfold tree_enter. gflagged. Qed.
Lemma gflagged_tree_toggle jump : gflagged (tree_toggle d K fuel jump).
Proof using HK d. unfold tree_toggle. gflagged. Qed.
Lemma gflagged_tree_set_val v jump : gflagged (tree_set_val d K fuel v jump).
Proof using HK d. unfold tree_set_val. gflagged. Qed.
#[local] Hint Resolve gflagged_tree_enter gflagged_tree_toggle gflagged_tree_set_val : gflagged.
Lemma gquiet_tree_open : gquiet (tree_open K fuel).
Proof using K d fuel. unfold tree_open. gquiet. Qed.
#[local] Hint Resolve gquiet_tree_open : gquiet.
Lemma gquiet_class_open jump n : gquiet (class_open K fuel jump n).
Proof using K d fuel. unfold class_open. gquiet. Qed.
Lemma gquiet_class_close jump n : gquiet (class_close jump n).
Proof using Type. unfold class_close. gquiet. Qed.
Lemma gquiet_browse jump o : gquiet (browse_to d jump o).
Proof using Type. unfold browse_to. gquiet. Qed.
#[local] Hint Resolve gquiet_class_open gquiet_class_close gquiet_browse : gquiet.
Lemma gquiet_class_toggle jump n : gquiet (class_toggle K fuel jump n).
Proof using K d fuel. unfold class_toggle. gquiet. Qed.
#[local] Hint Resolve gquiet_class_toggle : gquiet.
Lemma gquiet_class_press jump e item : gquiet (class_press d K fuel jump e item).
Proof using Type. unfold class_press. gquiet. Qed.
#[local] Hint Resolve gquiet_class_press : gquiet.
Lemma gquiet_class_key jump e : gquiet (class_key d K fuel jump e).
Proof using Type. unfold class_key. gquiet. Qed.
#[local] Hint Resolve gquiet_class_key : gquiet.
Lemma gflagged_tree_click jump e y : gflagged (tree_click d K fuel jump e y).
Proof using HK d. unfold tree_click. gflagged. Qed.
Lemma gflagged_double_click e y : gflagged (tree_double_click d K fuel e y).
Proof using HK d. unfold tree_double_click. gflagged. Qed.
#[local] Hint Resolve gflagged_tree_click gflagged_double_click : gflagged.
Lemma gquiet_left_key : gquiet (tree_left_key d K fuel).
Proof using Type. unfold tree_left_key. gquiet. Qed.
Lemma gquiet_right_key : gquiet (tree_right_key d K fuel).
Proof using Type. unfold tree_right_key. gquiet. Qed.
#[local] Hint Resolve gquiet_left_key gquiet_right_key : gquiet.

(** ** The search dialog *)

Lemma gquiet_jump_selected e : gquiet (jump_to_selected d K fuel e).
Proof using Type. unfold jump_to_selected. gquiet. Qed.
#[local] Hint Resolve gquiet_jump_selected : gquiet.
Lemma gflagged_jump_event e : gflagged (jump_event d K fuel re_search e).
Proof using HK d. unfold jump_event. gflagged. Qed.
#[local] Hint Resolve gflagged_jump_event : gflagged.
Lemma gflagged_jump_loop f : gflagged (jump_loop d K fuel re_search f).
Proof using HK d. induction f as [|f IH]; cbn [jump_loop]; gflagged. Qed.
#[local] Hint Resolve gflagged_jump_loop : gflagged.
Lemma gflagged_jump_dialog : gflagged (gui_jump_to_dialog d K fuel re_search).
Proof using HK d. unfold gui_jump_to_dialog. gflagged. Qed.
#[local] Hint Resolve gflagged_jump_dialog : gflagged.

(** ** Saving, loading and quitting *)

Definition gui_not_saved (filename : string) : string := "Configuration (" +:+ filename +:+ ") was not saved".

Lemma gquiet_ask : gquiet ask_filename.
Proof using Type. apply gquiet_wait_for. Qed.
#[local] Hint Resolve gquiet_ask : gquiet.

(** What an event does to the configuration: it flags its changes, saves, loads, or
    quits. *)
Inductive gui_effect (g g' : gui) : Prop :=
  | gui_flags : gmoved g g' → gui_effect g g'
  | gui_saves : g_quit g' = g_quit g → saved_in (K := K) (fuel := fuel) (g_conf_filename g') (g_host g') → gui_effect g g'
  | gui_loads : g_quit g' = g_quit g → loaded_from (K := K) w (g_conf_filename g') (g_host g') → gui_effect g g'
  | gui_quits : g_quit g' = true →
      gvalues g' = gvalues g → g_conf_filename g' = g_conf_filename g →
      (g_conf_changed g = false ∨
       last (h_stdout (g_host g')) = Some (gui_not_saved (g_conf_filename g')) ∨
       saved_in (K := K) (fuel := fuel) (g_conf_filename g') (g_host g')) → gui_effect g g'.

Definition gui_step (g g' : gui) : Prop := session_ok (K := K) (g_session g') ∧ gui_effect g g'.
Definition gsteps {A} (m : G A) : Prop := ∀ g, session_ok (K := K) (g_session g) → gui_step g (m g).2.

Lemma gmoved_step g g' : gmoved g g' → gui_step g g'.
Proof using Type. intros H. split; [apply H|by apply gui_flags]. Qed.
Lemma gsteps_flagged {A} (m : G A) : gflagged m → gsteps m.
Proof using Type. intros Hm g Hok. by apply gmoved_step, Hm. Qed.

(** Steps before and after which nothing happens. *)
Lemma gstep_after g g1 g' : gui_step g g1 → gsame g1 g' → gui_step g g'.
Proof using Type.
  intros [Hok He] (H1 & H2 & H3 & H4). split; [unfold g_session; by rewrite H1|].
  destruct He as [(_ & Q & F & M)|Q Sv|Q L|Q V F M].
  - apply gui_flags. unfold gmoved, g_session in *. rewrite H1. split_and!; [done|congruence|congruence|].
    destruct M as [M|[M V]]; [left|right; split]; congruence.
  - apply gui_saves; [congruence|by rewrite H1, H3].
  - apply gui_loads; [congruence|by rewrite H1, H3].
  - apply gui_quits; unfold g_session in *; rewrite ?H1, ?H3, ?H4; done.
Qed.
Definition gstays (g g' : gui) : Prop :=
  gvalues g' = gvalues g ∧ g_conf_changed g' = g_conf_changed g ∧ g_conf_filename g' = g_conf_filename g ∧ g_quit g' = g_quit g.
Lemma gsame_stays g g' : gsame g g' → gstays g g'.
Proof using Type. intros (H1 & H2 & H3 & H4). unfold gstays, g_session. by rewrite H1. Qed.
Lemma gstays_step g g' : session_ok (K := K) (g_session g') → gstays g g' → gui_step g g'.
Proof using Type. intros Hok (? & ? & ? & ?). apply gmoved_step. split_and!; [done..|]. by right. Qed.

Lemma gstays_before g g1 g' : gstays g g1 → gui_step g1 g' → gui_step g g'.
Proof using Type.
  intros (H1 & H2 & H3 & H4) [Hok He]. split; [done|].
  destruct He as [(_ & Q & F & M)|Q Sv|Q L|Q V F M].
  - apply gui_flags. split_and!; [done|congruence|congruence|].
    destruct M as [M|[M V]]; [left|right; split]; congruence.
  - apply gui_saves; [congruence|done].
  - apply gui_loads; [congruence|done].
  - apply gui_quits; [congruence..|]. by rewrite <- H2.
Qed.
Lemma gstep_before g g1 g' : gsame g g1 → gui_step g1 g' → gui_step g g'.
Proof using Type. intros H. by apply gstays_before, gsame_stays. Qed.

Lemma gsteps_before {A B} (m : G A) (f : A → G B) : gquiet m → (∀ a, gsteps (f a)) → gsteps (m ≫= f).
Proof using Type.
  intros Hm Hf g Hok. specialize (Hm g). unfold mbind, G_bind.
  assert (session_ok (K := K) (g_session (m g).2)) as Hok1 by (unfold g_session; by destruct Hm as [-> _]).
  destruct (m g) as [[a|e|] g1]; [|by apply gmoved_step, gsame_moved..].
  eapply gstep_before; [exact Hm|by apply Hf].
Qed.
Lemma gsteps_after {A B} (m : G A) (f : A → G B) : gsteps m → (∀ a, gquiet (f a)) → gsteps (m ≫= f).
Proof using Type.
  intros Hm Hf g Hok. specialize (Hm g Hok). unfold mbind, G_bind. destruct (m g) as [[a|e|] g1]; [|done..].
  eapply gstep_after; [exact Hm|apply Hf].
Qed.
Lemma gsteps_callback (m : G ()) : gsteps m → gsteps (callback m).
Proof using Type.
  intros Hm g Hok. specialize (Hm g Hok). unfold callback. destruct (m g) as [[a|e|] g1]; [done| |done].
  by eapply gstep_after.
Qed.

(** ** Saving *)

Lemma gui_try_save_result save_fn filename description g :
  io_keeps (K := K) (save_fn filename) → session_ok (K := K) (g_session g) →
  let '(r, g') := gui_try_save save_fn filename description g in
  session_ok (K := K) (g_session g') ∧ gstays g g' ∧
  (r = Ok true → ∃ h msg, session_ok (K := K) (h_session h) ∧ ∃ h', save_fn filename h = (Ok msg, h') ∧ g_host g' = print msg h').
Proof using Type.
  intros Hs Hok. unfold gui_try_save. destruct (Hs (g_host g) Hok) as [Hok' Hu'].
  destruct (save_fn filename (g_host g)) as [[msg|e|] h'] eqn:E; cbn [snd] in *.
  - split_and!; try done. intros _. exists (g_host g), msg. split; [done|]. by exists h'.
  - destruct e; by split_and!.
  - by split_and!.
Qed.

(** Saving, and what follows in the two cases *)
Lemma try_save_step save_fn filename description (f : bool → G ()) g :
  io_keeps (K := K) (save_fn filename) → session_ok (K := K) (g_session g) →
  (∀ g1, gstays g g1 → session_ok (K := K) (g_session g1) → gui_step g1 (f false g1).2) →
  (∀ g1 h msg h', gstays g g1 → session_ok (K := K) (g_session g1) → session_ok (K := K) (h_session h) →
     save_fn filename h = (Ok msg, h') → g_host g1 = print msg h' → gui_step g (f true g1).2) →
  gui_step g ((gui_try_save save_fn filename description ≫= f) g).2.
Proof using Type.
  intros Hs Hok Hf Ht. unfold mbind, G_bind.
  pose proof (gui_try_save_result save_fn filename description g Hs Hok) as H.
  destruct (gui_try_save _ _ _ g) as [[saved|e|] g1]; destruct H as (H1 & H2 & H3); [|by apply gstays_step..].
  destruct saved; [|by eapply gstays_before; [|apply Hf]].
  destruct (H3 eq_refl) as (h & msg & Hh & h' & E & Eg). by eapply Ht.
Qed.

Lemma save_to_keeps filename : io_keeps (K := K) (write_config_to w K fuel filename).
Proof using HK. apply write_config_keeps. Qed.
Lemma save_min_to_keeps filename : io_keeps (K := K) (write_min_config_to w K fuel filename).
Proof using HK. apply write_min_config_keeps. Qed.

Lemma printed_saved filename h msg h' : session_ok (K := K) (h_session h) →
  write_config_to w K fuel filename h = (Ok msg, h') → saved_in (K := K) (fuel := fuel) filename (print msg h').
Proof using HK. intros Hok E. by apply (write_config_saves w _ _ _ _ Hok) in E. Qed.

Lemma gsteps_save : gsteps (gui_save w K fuel).
Proof using HK.
  intros g Hok. unfold gui_save. unfold mbind at 1, G_bind at 1, gget. apply try_save_step; [apply save_to_keeps|done| |].
  - intros g1 _ Hok1. by apply gmoved_step, gsame_moved.
  - intros g1 h msg h' (_ & _ & F & Q) Hok1 Hh E Eg. split; [done|]. apply gui_saves; [done|].
    cbn [snd]. change (saved_in (K := K) (fuel := fuel) (g_conf_filename g1) (g_host g1)).
    rewrite F, Eg. by eapply printed_saved.
Qed.

Lemma gsteps_save_as_loop f save_fn description chosen :
  (∀ filename, io_keeps (K := K) (save_fn filename)) →
  (∀ filename g0 g h msg h', gstays g0 g → session_ok (K := K) (g_session g) → session_ok (K := K) (h_session h) →
     save_fn filename h = (Ok msg, h') → g_host g = print msg h' → gui_step g0 (chosen filename g).2) →
  gsteps (save_as_loop f save_fn description chosen).
Proof using d.
  intros Hs Hc. induction f as [|f IH]; cbn [save_as_loop]; [by apply gsteps_flagged, gflagged_quiet, gquiet_wait|].
  apply gsteps_before; [gquiet|]. intros filename.
  case_bool_decide as Hname; [by apply gsteps_flagged, gflagged_quiet, gquiet_ret|].
  intros g Hok. apply try_save_step; [done|done| |].
  - intros g1 _. apply IH.
  - intros g1 h msg h'. apply Hc.
Qed.

Lemma gsteps_save_as : gsteps (save_as w K fuel).
Proof using HK d.
  unfold save_as. apply gsteps_before; [gquiet|]. intros f. apply gsteps_save_as_loop; [apply save_to_keeps|].
  intros filename g0 g h msg h' (_ & _ & _ & Q) Hok Hh E Eg. split; [done|]. apply gui_saves; [done|].
  cbn. rewrite Eg. by eapply printed_saved.
Qed.

Lemma gsteps_save_minimal : gsteps (save_minimal w K fuel).
Proof using HK d.
  unfold save_minimal. apply gsteps_before; [gquiet|]. intros f. apply gsteps_save_as_loop; [apply save_min_to_keeps|].
  intros filename g0 g h msg h' Hst Hok _ _ _. by apply gstays_step.
Qed.

Lemma on_quit_loop_step f g : session_ok (K := K) (g_session g) →
  gui_step g (on_quit_loop w K fuel f (g_conf_filename g) g).2.
Proof using HK.
  revert g. induction f as [|f IH]; intros g Hok; cbn [on_quit_loop]; [by apply gmoved_step, gsame_moved|].
  unfold mbind at 1, G_bind at 1.
  pose proof (gquiet_wait_for (λ e, match e with Ask_ync a => Some a | _ => None end) g) as Hw.
  destruct (wait_for _ g) as [[answer|e|] g1]; [|by apply gmoved_step, gsame_moved..]. cbn [snd] in Hw.
  eapply gstep_before; [exact Hw|]. destruct Hw as (W1 & W2 & W3 & W4).
  assert (session_ok (K := K) (g_session g1)) as Hok1 by (unfold g_session; by rewrite W1).
  rewrite <- W3. destruct answer as [[]|]; [| |by apply gmoved_step, gsame_moved].
  - apply try_save_step; [apply save_to_keeps|done| |].
    + intros g2 (_ & _ & <- & _). apply IH.
    + intros g2 h msg h' (V & C & F & Q) Hok2 Hh E Eg. split; [done|]. apply gui_quits; [done|exact V|exact F|].
      right. right. cbn. rewrite F, Eg. by eapply printed_saved.
  - split; [done|]. apply gui_quits; [done|done|done|]. right. left. cbn. by rewrite last_snoc.
Qed.

Lemma gsteps_on_quit : gsteps (on_quit w K fuel).
Proof using HK.
  intros g Hok. unfold on_quit, mbind, G_bind, gget. destruct (g_conf_changed g) eqn:Hc.
  - by apply on_quit_loop_step.
  - split; [done|]. apply gui_quits; [done|done|done|]. by left.
Qed.

(** ** Loading *)
Hypothesis Hdef : names_defined (K := K).

(** Leaving everything but the flag alone *)
Definition gkeep (g g' : gui) : Prop :=
  g_host g' = g_host g ∧ g_conf_filename g' = g_conf_filename g ∧ g_quit g' = g_quit g.
Definition gkeeping {A} (m : G A) : Prop := ∀ g, gkeep g (m g).2.

Lemma gkeeping_quiet {A} (m : G A) : gquiet m → gkeeping m.
Proof using Type. intros Hm g. destruct (Hm g) as (? & ? & ? & ?). by split_and!. Qed.
Lemma gkeeping_bind {A B} (m : G A) (f : A → G B) : gkeeping m → (∀ a, gkeeping (f a)) → gkeeping (m ≫= f).
Proof using Type.
  intros Hm Hf g. destruct (Hm g) as (E1 & E2 & E3). unfold mbind, G_bind. destruct (m g) as [[a|e|] g1]; cbn [snd] in *; [|done..].
  destruct (Hf a g1) as (? & ? & ?). split_and!; congruence.
Qed.
Lemma gkeeping_set_conf_changed b : gkeeping (set_conf_changed b).
Proof using Type. intros g. by destruct b. Qed.

Lemma gui_try_load_result filename g : session_ok (K := K) (g_session g) →
  let '(r, g') := gui_try_load w K fuel filename g in
  match r with
  | Ok true => session_ok (K := K) (g_session g') ∧ g_quit g' = g_quit g ∧ loaded_from (K := K) w filename (g_host g')
  | _ => gsame g g'
  end.
Proof using HK Hdef.
  intros Hok. unfold gui_try_load. cbn [load_config].
  destruct (load_named _ _ _ _ _ _) as [[msg h]|e|] eqn:Hl; [|by destruct e|done].
  pose proof (load_config_keeps w Hdef _ _ _ _ Hok Hl) as Hok1. cbn [snd] in Hok1.
  by pose proof (load_named_loads w Hdef _ _ _ _ _ Hok Hl) as Hload.
Qed.

(** What follows a successful load *)
Lemma loaded_steps {A} filename (m : G A) g0 g : session_ok (K := K) (g_session g) → g_quit g = g_quit g0 →
  loaded_from (K := K) w filename (g_host g) →
  gkeeping m → gui_step g0 ((gmodify (λ g, set_g_filenames filename (g_minconf_filename g) g);; m) g).2.
Proof using Type.
  intros Hok Hq Hl Hm. unfold mbind, G_bind, gmodify. destruct (Hm (set_g_filenames filename (g_minconf_filename g) g)) as (E1 & E2 & E3).
  split; [unfold g_session; by rewrite E1|]. apply gui_loads; [by rewrite E3|]. by rewrite E1, E2.
Qed.

Lemma gsteps_open_loop f : gsteps (open_loop w K fuel f).
Proof using HK Hdef d.
  induction f as [|f IH]; cbn [open_loop]; [by apply gsteps_flagged, gflagged_quiet, gquiet_wait|].
  apply gsteps_before; [gquiet|]. intros filename.
  case_bool_decide as Hname; [by apply gsteps_flagged, gflagged_quiet, gquiet_ret|].
  intros g Hok. pose proof (gui_try_load_result filename g Hok) as H. unfold mbind at 1, G_bind at 1.
  destruct (gui_try_load w K fuel filename g) as [[[]|e|] g1]; [| |by apply gmoved_step, gsame_moved..].
  - destruct H as (H1 & H2 & H3).
    apply loaded_steps; [done..|].
    apply gkeeping_bind; [by intros g2|]. intros changed. apply gkeeping_bind; [apply gkeeping_set_conf_changed|].
    intros _. apply gkeeping_quiet. gquiet.
  - eapply gstep_before; [exact H|]. apply IH. unfold g_session. by destruct H as [-> _].
Qed.

Lemma gsteps_open : gsteps (gui_open w K fuel).
Proof using HK Hdef d.
  unfold gui_open. apply gsteps_before; [gquiet|]. intros changed. apply gsteps_before; [gquiet|]. intros [].
  - apply gsteps_before; [gquiet|]. intros f. apply gsteps_open_loop.
  - apply gsteps_flagged, gflagged_quiet, gquiet_ret.
Qed.

(** ** The events of the main window *)

Lemma gsteps_event e : gsteps (handle_event w d K fuel re_search e).
Proof using HK Hdef.
  destruct e; cbn [handle_event]; try solve [apply gsteps_flagged; gflagged].
  match goal with c : command |- _ => destruct c end; cbn [run_command]; unfold toggle_showname, toggle_showall, toggle_tree_mode; try solve [apply gsteps_flagged; gflagged];
    first [apply gsteps_save|apply gsteps_save_as|apply gsteps_save_minimal|apply gsteps_open|apply gsteps_on_quit].
Qed.

Definition gui_settled (g0 g : gui) : Prop :=
  ∃ gm, gui_run g0 gm ∧ gui_safe gm ∧ gvalues g = gvalues gm ∧ g_conf_filename g = g_conf_filename gm.

Lemma event_step e l g r g' : session_ok (K := K) (g_session g) →
  (callback (handle_event w d K fuel re_search e);; select_events K fuel) (set_g_events l g) = (r, g') → gui_step g g'.
Proof using HK Hdef.
  intros Hok E. assert (gui_step (set_g_events l g) g') as Hs.
  { replace g' with ((callback (handle_event w d K fuel re_search e);; select_events K fuel) (set_g_events l g)).2 by (by rewrite E).
    apply (gsteps_after _ (λ _, select_events K fuel)); [apply gsteps_callback, gsteps_event|intros _; gquiet|done]. }
  by eapply gstep_before; [|exact Hs].
Qed.

Lemma gui_run_settled g0 g : session_ok (K := K) (g_session g0) → (g_conf_changed g0 = false → gui_safe g0) →
  g_quit g0 = false → gui_run g0 g →
  session_ok (K := K) (g_session g) ∧ (g_quit g = false → g_conf_changed g = false → gui_settled g0 g).
Proof using HK Hdef.
  intros Hok0 H0 Hq0 Hr. induction Hr as [|g e l g' Hr [Hok IH] Hq He Hk].
  { split; [done|]. intros _ Hc. exists g0. split_and!; [constructor|by apply H0|done|done]. }
  destruct (event_step e l g _ g' Hok Hk) as [Hok' Heff]. split; [done|]. intros Hq' Hc.
  assert (gui_run g0 g') as Hr' by (by eapply gui_run_event).
  destruct Heff as [(_ & Q & F & M)|Q Sv|Q L|Q V F M].
  - destruct M as [M|[M V]]; [congruence|]. destruct (IH Hq ltac:(congruence)) as (gm & R & S & Vm & Fm).
    exists gm. split_and!; [done|done|congruence|congruence].
  - exists g'. split_and!; [done|by left|done|done].
  - exists g'. split_and!; [done|by right|done|done].
  - congruence.
Qed.

(** The end of a run *)
Lemma gui_run_end g0 g : session_ok (K := K) (g_session g0) → (g_conf_changed g0 = false → gui_safe g0) →
  g_quit g0 = false → gui_run g0 g → g_quit g = true →
  last (h_stdout (g_host g)) = Some (gui_not_saved (g_conf_filename g)) ∨
  saved_in (K := K) (fuel := fuel) (g_conf_filename g) (g_host g) ∨ gui_settled g0 g.
Proof using HK Hdef.
  intros Hok0 H0 Hq0 Hr Hq. destruct Hr as [|g1 e l g Hr Hq1 He Hk]; [congruence|].
  destruct (gui_run_settled g0 g1 Hok0 H0 Hq0 Hr) as [Hok1 IH].
  destruct (event_step e l g1 _ g Hok1 Hk) as [_ Heff].
  destruct Heff as [(_ & Q & _)|Q _|Q _|_ V F M]; [congruence..|].
  destruct M as [Hc|[Hs|Hs]]; [|by left|by right; left]. right. right.
  destruct (IH Hq1 Hc) as (gm & R & S & Vm & Fm). exists gm. split_and!; [done|done|congruence|congruence].
Qed.

(** ** The start and the loop *)

Lemma gui_loop_run g0 f g g' : gui_run g0 g → gui_loop w d K fuel re_search f g = (Ok (), g') → gui_run g0 g'.
Proof using Type.
  revert g. induction f as [|f IH]; intros g Hr; cbn [gui_loop]; [by intros [= <-]|].
  destruct (g_events g) as [|e l] eqn:He; [by intros [= <-]|]. destruct (g_quit g) eqn:Hq; [by intros [= <-]|].
  intros E. assert (∃ g1, (callback (handle_event w d K fuel re_search e);; select_events K fuel) (set_g_events l g) = (Ok (), g1)
    ∧ gui_loop w d K fuel re_search f g1 = (Ok (), g')) as (g1 & E1 & E2).
  { unfold mbind, G_bind, gmodify in *. destruct (callback _ _) as [[[]|e1|] g1]; [|done..].
    destruct (select_events K fuel g1) as [[[]|e1|] g2]; [|done..]. by exists g2. }
  by eapply IH; [eapply gui_run_event|].
Qed.

(** What the loop starts from. *)
Definition started (h : host) (t : treeview) (events : list gevent) : outcome () * gui :=
  (gui_start w d K fuel;; select_events K fuel) (initial_gui d K h t events).

(** Everything but the end of the program *)
Definition gwindow {A} (m : G A) : Prop := ∀ g,
  g_host (m g).2 = g_host g ∧ g_conf_changed (m g).2 = g_conf_changed g ∧ g_conf_filename (m g).2 = g_conf_filename g.

Lemma gwindow_quiet {A} (m : G A) : gquiet m → gwindow m.
Proof using Type. intros Hm g. destruct (Hm g) as (? & ? & ? & ?). by split_and!. Qed.
Lemma gwindow_bind {A B} (m : G A) (f : A → G B) : gwindow m → (∀ a, gwindow (f a)) → gwindow (m ≫= f).
Proof using Type.
  intros Hm Hf g. destruct (Hm g) as (E1 & E2 & E3). unfold mbind, G_bind. destruct (m g) as [[a|e|] g1]; cbn [snd] in *; [|done..].
  destruct (Hf a g1) as (? & ? & ?). split_and!; congruence.
Qed.

(** The window as it first appears *)
Definition first_view : G () :=
  gmodify (λ g, set_g_filenames (g_conf_filename g) "defconfig" g);;
  nothing ← nothing_shown K fuel;
  gwhen nothing (set_show_all_var true);;
  nothing ← nothing_shown K fuel;
  if (nothing : bool) then show_box empty_message;; gui_quit None
  else update_tree K fuel;; select_first d.

Lemma gwindow_first_view : gwindow first_view.
Proof using d.
  unfold first_view. apply gwindow_bind; [by intros g|]. intros _. apply gwindow_bind; [apply gwindow_quiet; gquiet|].
  intros nothing. apply gwindow_bind; [apply gwindow_quiet; gquiet|]. intros _.
  apply gwindow_bind; [apply gwindow_quiet; gquiet|]. intros []; [|apply gwindow_quiet; gquiet].
  apply gwindow_bind; [apply gwindow_quiet; gquiet|]. by intros _ g.
Qed.

Lemma started_safe h t events g0 : session_ok (K := K) (h_session h) → started h t events = (Ok (), g0) →
  session_ok (K := K) (g_session g0) ∧ (g_conf_changed g0 = false → gui_safe g0).
Proof using HK Hdef d.
  intros Hok. unfold started, gui_start. unfold mbind at 1, G_bind at 1.
  match goal with |- context [(?m ≫= ?f) (initial_gui d K h t events)] => set (rest := (m ≫= f) (initial_gui d K h t events)) end.
  assert (∀ g1, rest = (Ok (), g1) → session_ok (K := K) (g_session g1) ∧ (g_conf_changed g1 = false → gui_safe g1)) as Hrest.
  { intros g1. unfold rest. unfold mbind at 1 2 3, G_bind at 1 2 3, gmodify at 1, gget at 1, ghost.
    destruct (gui_load_config K fuel w _ _) as [[changed h']|e|] eqn:Hl; [|done..].
    unfold mbind at 1, G_bind at 1. destruct (set_conf_changed changed _) as [[[]|e|] g2] eqn:E2; [|by destruct changed..].
    change (first_view g2 = (Ok (), g1) → session_ok (K := K) (g_session g1) ∧ (g_conf_changed g1 = false → gui_safe g1)).
    intros E1. destruct (gwindow_first_view g2) as (W1 & W2 & W3). rewrite E1 in W1, W2, W3. cbn [snd] in *.
    assert (g_host g2 = h' ∧ g_conf_changed g2 = changed ∧ g_conf_filename g2 = standard_config_filename w) as (V1 & V2 & V3)
      by (destruct changed; by injection E2 as <-).
    unfold g_session, gui_safe. rewrite W1, W2, W3, V1, V2, V3. split.
    - by apply (load_at_start_ok w Hdef _ _ _ _ Hok Hl).
    - intros ->. right. by apply (load_at_start_safe w Hdef h). }
  destruct rest as [[[]|e|] g1]; [|done..]. intros E. destruct (Hrest g1 eq_refl) as [H1 H2].
  pose proof (gquiet_select_events g1) as (S1 & S2 & S3 & _). rewrite E in S1, S2, S3. cbn [snd] in *.
  unfold g_session, gui_safe. by rewrite S1, S2, S3.
Qed.
End Quit.
