(* ===== verification/GuiRules.v ===== *)
(** * What the graphical interface shows

    The tree the interface starts with, the toggle of a row, and the rows of the
    Treeview after any sequence of updates and of rows opened and closed; and what
    is saved when the window closes. *)

From S2P Require Import Prelude PyStr PyText Kconst Expr Escape Incr Objects ParseState Lexer.
From S2P Require Import Parser MenuTree Printing DepLoop Sanity Values Reads Session Meaning Effects Check.
From S2P Require Import Deps Load ConfigFile ConfigSession ConfigWrite ConfigText Demo Divergences ConfigRules SyncRules MenuView MenuShown.
From S2P Require Import MenuInfo MenuKeys MenuLoop MenuChange MenuDivergences GuiTree GuiView GuiState.
From S2P Require Import GuiBuild GuiKeys GuiLoop GuiShown GuiFill GuiUpdate MenuQuit GuiQuit.
From stdpp Require Import options.

(** ** The first tree *)

Lemma empty_wf : wf empty_tree.
Proof. split; [|intros k; apply NoDup_nil_2]. intros n k. split; [done|]. by intros ?%elem_of_nil. Qed.

Lemma linked_wf l : ∀ t, wf t → NoDup l → (∀ n, n ∈ l → t_parent t !! n = None) →
  let t' := foldl (λ t n, link_last n None t) t l in
  wf t' ∧ ∀ n, attached n t' → n ∈ l ∨ attached n t.
Proof.
  induction l as [|x l IH]; intros t Hwf Hl Hno; [by cbn; auto|]. apply NoDup_cons in Hl as [Hx Hl]. cbn [foldl].
  destruct (IH (link_last x None t)) as [Hwf' Hin].
  - apply link_wf; [done|]. apply Hno. by left.
  - done.
  - intros n Hn. rewrite link_parent, decide_False by (by intros ->). apply Hno. by right.
  - split; [exact Hwf'|]. intros n Hn. apply Hin in Hn as [Hn|[k Hn]]; [left; by right|].
    rewrite link_parent in Hn. case_decide as Hnx; [left; rewrite Hnx; by left|right; by exists k].
Qed.

Lemma created_known (K : kconfig) fuel t : gui_tree_ok K fuel → create_kconfig_tree K fuel = Ok t → known_tree K fuel t.
Proof.
  intros Htree. destruct (gt_items _ _ Htree) as (l & Hl & Hnd & _). unfold create_kconfig_tree. rewrite Hl. intros [= <-].
  destruct (linked_wf l empty_tree empty_wf Hnd ltac:(done)) as [Hwf Hin]. split; [exact Hwf|].
  intros l' n Hl' Hn. rewrite Hl in Hl'. injection Hl' as <-. apply Hin in Hn as [Hn|[k Hn]]; done.
Qed.

(** ** Toggling a row *)
Section Toggle.
Context {K : kconfig} {fuel : nat} {HK : Loaded K fuel}.
Hypothesis Htree : gui_tree_ok K fuel.
Variable g : gui.

Abbreviation need := (need K g).
Abbreviation shown_ok := (shown_ok K fuel g).
Abbreviation labelled := (labelled K fuel g).
Abbreviation key := (key K g).
Abbreviation under := (under (K := K) (fuel := fuel)).

(** Fewer items to fill. *)
Lemma shown_ok_need t t' n : t_children t' = t_children t → t_text t' = t_text t → t_tags t' = t_tags t →
  (∀ m, need t' m → need t m) → shown_ok t n → shown_ok t' n.
Proof using Type.
  intros Hc Ht Hg Hneed H. assert (∀ k, children k t' = children k t) as Hch by (intros k; unfold children; by rewrite Hc).
  induction H as [n Hl Hk _ IH]. constructor.
  - destruct Hl as (text & tag & v & ? & ? & ? & ? & ?). exists text, tag, v. by rewrite Ht, Hg.
  - intros Hn. rewrite Hch. auto.
  - intros m Hn Hm. rewrite Hch in Hm. auto.
Qed.

Lemma need_open t n m : m ≠ n → need (open_item n t) m → need t m.
Proof using Type.
  intros Hm. unfold GuiFill.need, is_open. cbn. intros [?|[?|Ho]]; [by left|right; by left|].
  apply bool_decide_eq_true, elem_of_union in Ho as [->%elem_of_singleton|Ho]; [done|]. right. right. by apply bool_decide_eq_true.
Qed.

Lemma need_close t n m : need (close_item n t) m → need t m.
Proof using Type.
  unfold GuiFill.need, is_open. cbn. intros [?|[?|Ho]]; [by left|right; by left|].
  apply bool_decide_eq_true, elem_of_difference in Ho as [Ho _]. right. right. by apply bool_decide_eq_true.
Qed.

(** The list of a node of a walk. *)
Lemma walk_list f : ∀ q o w x, walk K f o = Ok w → (∀ c m, chain K o c → m ∈ c → in_list K q m) → x ∈ w →
  ∃ p, under q p ∧ in_list K p x.
Proof using Htree.
  induction f as [|f IH]; intros q o w x Hw Hq Hx; [done|]. destruct o as [n|]; [|injection Hw as <-; by apply elem_of_nil in Hx].
  destruct (walk_chain K _ _ _ Hw) as (c & Hc & _). inversion Hc as [|? l Hl]; subst.
  pose proof (Hq _ n Hc ltac:(by left)) as Hn. apply walk_step in Hw as (f' & sub & rest & [= <-] & Hs & Hr & ->).
  apply elem_of_cons in Hx as [->|[Hx|Hx]%elem_of_app].
  - exists q. split; [by left|exact Hn].
  - destruct (IH n _ _ x Hs) as (p & Hp & Hpx); [by intros c' m ? ?; exists c'|exact Hx|].
    exists p. split; [by eapply under_child|exact Hpx].
  - apply (IH q _ _ x Hr); [|exact Hx]. intros c' m Hc' Hm. rewrite (chain_unique K _ _ _ Hc' Hl) in Hm.
    apply (Hq _ m Hc). by right.
Qed.

(** Below an item, opening it changes nothing. *)
Lemma below_open t n m : (∃ w, walk K fuel (n_list (nod K n)) = Ok w ∧ m ∈ w) → shown_ok t m → shown_ok (open_item n t) m.
Proof using Htree.
  intros (w & Hw & Hm) H. induction H as [m Hl Hk _ IH].
  assert (m ≠ n) as Hmn by (intros ->; by apply (gt_nodup _ _ Htree n w Hw)).
  constructor; [exact Hl|intros Hn; by apply Hk, (need_open t n)|].
  intros c Hn Hc. pose proof (need_open t n m Hmn Hn) as Hn'. apply IH; [exact Hn'|exact Hc|].
  destruct (under_strict Htree n m c) as [[->|(w2 & Hw2 & Hin)] Hcn]; [right; by exists w|by apply (Hk Hn')|done|].
  rewrite Hw in Hw2. by injection Hw2 as <-.
Qed.

(** A closed menu whose nodes are now below it can be opened. *)
Lemma filled_open t t' n : ext K fuel g (under n) t t' → shown_ok (open_item n t') n →
  ∀ m, shown_ok t m → (under n m → m = n) → shown_ok (open_item n t') m.
Proof using Htree.
  intros He Hok m H. induction H as [m Hl Hk _ IH]. intros Hm.
  destruct (decide (m = n)) as [->|Hmn]; [exact Hok|].
  assert (children (key m) (open_item n t') = children (key m) t) as Hc.
  { apply (ext_kids _ _ _ _ _ _ He). intros Hu. by apply Hmn, Hm. }
  constructor.
  - by apply (ext_label _ _ _ _ _ _ He) in Hl.
  - intros Hn%need_open; [|done]. rewrite Hc. apply Hk. by eapply gneed_ext.
  - intros c Hn%need_open Hcm; [|done]. rewrite Hc in Hcm. pose proof (gneed_ext _ _ _ _ _ _ _ He Hn) as Hn'.
    apply IH; [done..|]. intros Hu. destruct Hu as [->|(w & Hw & Hcw)]; [done|]. exfalso.
    apply Hmn, Hm. assert (in_list K m c) as Hin by by apply (Hk Hn').
    destruct (walk_list fuel n _ w c Hw) as (p & Hp & Hpc); [by intros c' x ? ?; exists c'|exact Hcw|].
    pose proof (gt_parent _ _ Htree _ _ Hin) as Hpm. rewrite (gt_parent _ _ Htree _ _ Hpc) in Hpm. by injection Hpm as ->.
Qed.
End Toggle.

Section Shows.
Context {K : kconfig} {fuel : nat} {HK : Loaded K fuel}.
Hypothesis Htree : gui_tree_ok K fuel.
Implicit Types g : gui.

Lemma close_shows g n : tree_shown K fuel g → tree_shown K fuel (set_g_tree (close_item n (g_tree g)) g).
Proof using Type.
  intros [Hwf Hs Hk Hok]. split; [by apply (wf_links (g_tree g))|exact Hs|exact Hk|]. intros m Hm.
  apply (view_shown_ok g); [done|]. apply (shown_ok_need g (g_tree g)); [done..| |by apply Hok]. intros x. apply need_close.
Qed.

Lemma open_symbol_shows g n : is_symbol_node (n_item (nod K n)) = true → tree_shown K fuel g →
  tree_shown K fuel (set_g_tree (open_item n (g_tree g)) g).
Proof using Type.
  intros Hn [Hwf Hs Hk Hok]. split; [by apply (wf_links (g_tree g))|exact Hs|exact Hk|]. intros m Hm.
  apply (view_shown_ok g); [done|]. apply (shown_ok_need g (g_tree g)); [done..| |by apply Hok].
  intros x Hx. destruct (decide (x = n)) as [->|Hxn]; [right; by left|]. by apply (need_open g (g_tree g) n x).
Qed.

Lemma base_outside g n : displayed K fuel g n → ¬ under (K := K) (fuel := fuel) n (base K g).
Proof using Htree.
  intros Hn [Hb|(w & Hw & Hb)]; destruct (displayed_under Htree g n Hn) as [[Hnb|(wb & Hwb & Hin)] Hne]; [congruence..|].
  destruct (walk_below K _ _ _ _ Hwb Hin) as (f & sub & _ & Hsub & Hss & _).
  rewrite <- (walk_fuel _ _ _ _ Hsub Hw) in Hb. apply (gt_nodup _ _ Htree (base K g) wb Hwb). by eapply elem_of_sublist.
Qed.

(** Filling a displayed menu and opening it. *)
Lemma open_menu_shows g n : session_ok (K := K) (g_session g) → g_single_menu g = false → tree_shown K fuel g →
  displayed K fuel g n →
  ∃ t, build_full_tree K fuel fuel n g = (Ok (), set_g_tree t g) ∧
    tree_shown K fuel (set_g_tree (open_item n t) g) ∧ t_open t = t_open (g_tree g) ∧ t_focus t = t_focus (g_tree g).
Proof using HK Htree.
  intros Hσ Hm Hshown Hn. destruct Hshown as [Hwf Hs Hk Hok] eqn:Hsh. clear Hsh.
  destruct (displayed_under Htree g n Hn) as [Hu Hne].
  destruct (build_full g Hσ Htree Hm fuel n (g_tree g) Hu (tr_walk (gt_tree _ _ Htree) n) Hwf Hs)
    as (t & Ht & Hwf' & Hs' & He & Hk' & Hok').
  exists t. replace (set_g_tree (g_tree g) g) with g in Ht by by destruct g. split_and!; [exact Ht| | |].
  - assert (key K g n = Some n) as Hkey by exact (displayed_key Htree g n Hn).
    assert (in_list K n n → False) as Hself by (intros Hin; by apply (not_under Htree n n Hin); left).
    assert (shown_ok K fuel g (open_item n t) n) as Hopen.
    { constructor; [|by intros _|].
      - assert (labelled K fuel g t n) as Hl; [|exact Hl]. apply (ext_label _ _ _ _ _ _ He).
        pose proof (displayed_ok Htree g Hshown n Hn) as H. by inversion H.
      - intros m _ Hmc. apply (below_open Htree); [|by apply Hok'].
        destruct (under_list Htree n m m) as (w & Hw & Hin); [by apply Hk'|by left|]. by exists w. }
    assert (children None t = children None (g_tree g)) as Hc.
    { rewrite <- (key_base (K := K) g). apply (ext_kids _ _ _ _ _ _ He). by apply base_outside. }
    split; [by apply (wf_links t)|exact Hs'| |].
    + change (kids K fuel g (base K g) (children None t)). rewrite Hc. exact Hk.
    + change (∀ m, m ∈ children None t → GuiFill.shown_ok K fuel (set_g_tree (open_item n t) g) (open_item n t) m).
      rewrite Hc. intros m Hmc. apply (view_shown_ok g); [done|]. apply (filled_open Htree g (g_tree g)); [done..|by apply Hok|].
      intros [->|(w & Hw & Hin)]; [done|]. exfalso. apply Hk in Hmc as (_ & Hmc & _).
      destruct (walk_list Htree fuel n _ w m Hw) as (p & Hp & Hpm); [by intros c x ? ?; exists c|exact Hin|].
      pose proof (gt_parent _ _ Htree _ _ Hmc) as Hpar. rewrite (gt_parent _ _ Htree _ _ Hpm) in Hpar. injection Hpar as ->.
      by apply (base_outside g n).
  - apply (ext_open _ _ _ _ _ _ He).
  - apply (ext_rest _ _ _ _ _ _ He).
Qed.
(** A row with children can be toggled. *)
Lemma toggle_shows g n : session_ok (K := K) (g_session g) → tree_shown K fuel g →
  n ∈ rows (g_tree g) → children (Some n) (g_tree g) ≠ [] →
  ∃ t, tree_toggle_open K fuel n g = (Ok (), set_g_tree t g) ∧ tree_shown K fuel (set_g_tree t g) ∧
    t_open t = (if is_open n (g_tree g) then t_open (g_tree g) ∖ {[n]} else {[n]} ∪ t_open (g_tree g)) ∧
    t_focus t = t_focus (g_tree g).
Proof using HK Htree.
  intros Hσ Hshown Hn%(rows_displayed Htree g Hshown) Hc. unfold tree_toggle_open, mbind, G_bind, gget.
  destruct (is_open n (g_tree g)) eqn:Ho; [exists (close_item n (g_tree g)); by split_and!; [|apply close_shows|..]|].
  destruct (is_symbol_node (n_item (nod K n))) eqn:Hsym.
  { exists (open_item n (g_tree g)). by split_and!; [|apply open_symbol_shows|..]. }
  assert (g_single_menu g = false) as Hm.
  { rewrite <- (displayed_key Htree g n Hn) in Hc. destruct (children (key K g n) (g_tree g)) as [|m l] eqn:Hm; [done|].
    assert (kid K fuel g n m) as ([?|[->|Hinto]] & _).
    { apply (sub_kid K fuel g (g_tree g)); [apply Hshown|apply Hshown|]. rewrite Hm. by left. }
    - done.
    - by destruct (displayed_under Htree g _ Hn) as [_ []].
    - unfold into_menu in Hinto. by rewrite Hsym in Hinto. }
  destruct (open_menu_shows g n Hσ Hm Hshown Hn) as (t & Ht & Hs & Ho' & Hf). exists (open_item n t).
  rewrite Ht. split; [done|]. split; [exact Hs|]. split; [|exact Hf]. cbn. by rewrite Ho'.
Qed.
End Shows.

(** ** Menu trees that are well formed, decided *)
Section Decide.
Variable K : kconfig.
Variable fuel : nat.

Fixpoint chain_of (f : nat) (o : option nat) : option (list nat) :=
  match f, o with
  | _, None => Some []
  | O, Some _ => None
  | S f, Some n => cons n <$> chain_of f (n_next (nod K n))
  end.

Lemma chain_of_chain f o c : chain_of f o = Some c → chain K o c.
Proof using Type.
  revert o c. induction f as [|f IH]; intros [n|] c; cbn; [done|intros [= <-]; constructor| |intros [= <-]; constructor].
  destruct (chain_of f _) as [l|] eqn:Hl; cbn; [|done]. intros [= <-]. constructor. auto.
Qed.

Definition gui_node_okb (l : list nat) (p : nat) : bool :=
  match chain_of fuel (n_list (nod K p)), walk K fuel (n_list (nod K p)) with
  | Some c, Ok w =>
      forallb (λ n, bool_decide (n_parent (nod K n) = Some p) && bool_decide (p < n) && bool_decide (n ∈ l) &&
        (bool_decide (is_Some (item_of_node (n_item (nod K n)))) || bool_decide (is_Some (prompt_text K n)))) c &&
      bool_decide (NoDup w) && bool_decide (p ∉ w)
  | _, _ => false
  end.

Definition gui_treeb : bool :=
  treeb K fuel &&
  match items K fuel with
  | Ok l => bool_decide (NoDup l) && forallb (gui_node_okb l) (map_to_list (k_nodes_store K)).*1
  | _ => false
  end.

Lemma gui_node_empty p : k_nodes_store K !! p = None → n_list (nod K p) = None.
Proof using Type. unfold nod. rewrite lookup_total_alt. by intros ->. Qed.

Lemma gui_treeb_ok : gui_treeb = true → gui_tree_ok K fuel.
Proof using Type.
  unfold gui_treeb. intros [Ht%treeb_ok H]%andb_true_iff. destruct (items K fuel) as [l| |] eqn:Hl; [|done..].
  apply andb_true_iff in H as [Hnd%bool_decide_eq_true Hall]. rewrite forallb_forall in Hall.
  assert (∀ p, is_Some (k_nodes_store K !! p) → gui_node_okb l p = true) as Hok.
  { intros p [x Hx]. apply Hall, list_elem_of_In, list_elem_of_fmap. exists (p, x). split; [done|]. by apply elem_of_map_to_list. }
  assert (∀ p n, in_list K p n → n_parent (nod K n) = Some p ∧ p < n ∧ n ∈ l ∧
    (is_Some (item_of_node (n_item (nod K n))) ∨ is_Some (prompt_text K n))) as Hin.
  { intros p n (c & Hc & Hn). destruct (k_nodes_store K !! p) as [x|] eqn:Hx.
    - pose proof (Hok p ltac:(by exists x)) as H. unfold gui_node_okb in H.
      destruct (chain_of fuel _) as [c'|] eqn:Hc'; [|done]. destruct (walk _ _ _); [|done..].
      apply chain_of_chain in Hc'. rewrite (chain_unique K _ _ _ Hc Hc') in Hn.
      apply andb_true_iff in H as [[H _]%andb_true_iff _]. rewrite forallb_forall in H.
      apply list_elem_of_In, H in Hn. rewrite !andb_true_iff, orb_true_iff, !bool_decide_eq_true in Hn. tauto.
    - rewrite (gui_node_empty p Hx) in Hc. inversion Hc; subst. by apply elem_of_nil in Hn. }
  split; [exact Ht|intros p n H; apply (Hin p n H)|exists id; intros p n H; apply (Hin p n H)| | |].
  - exists l. split; [done|]. split; [done|]. intros p n H. apply (Hin p n H).
  - intros n w Hw. destruct (k_nodes_store K !! n) as [x|] eqn:Hx.
    + pose proof (Hok n ltac:(by exists x)) as H. unfold gui_node_okb in H. rewrite Hw in H.
      destruct (chain_of fuel _) as [c|]; [|done]. rewrite !andb_true_iff, !bool_decide_eq_true in H. tauto.
    + rewrite (gui_node_empty n Hx) in Hw. destruct fuel; [done|]. injection Hw as <-.
      split; [apply NoDup_nil_2|by intros ?%elem_of_nil].
  - intros p n H Hno. destruct (Hin p n H) as (_ & _ & _ & [Hi|?]); [|done]. rewrite Hno in Hi. by destruct Hi.
Qed.
End Decide.

(** ** The rows *)

(** The rows are the displayed nodes, in the order of the Kconfig files, with their
    current texts and images. *)
Record rows_exact (K : kconfig) (fuel : nat) (g : gui) : Prop := {
  re_rows n : n ∈ rows (g_tree g) ↔ displayed K fuel g n;
  re_order w : walk K fuel (n_list (nod K (base K g))) = Ok w → rows (g_tree g) `sublist_of` w;
  re_nodup : NoDup (rows (g_tree g));
  re_labels n : n ∈ rows (g_tree g) → labelled K fuel g (g_tree g) n
}.

(** What changes the tree in front of the user: an update after anything but the
    tree has changed, the toggle of a row, and changes of the selection, the focus
    and the scroll. *)
Inductive view_step (K : kconfig) (fuel : nat) : gui → gui → Prop :=
  | step_update g h g' : g_tree h = g_tree g → session_ok (K := K) (g_session h) →
      update_tree K fuel h = (Ok (), g') → view_step K fuel g g'
  | step_toggle n g g' : n ∈ rows (g_tree g) → children (Some n) (g_tree g) ≠ [] →
      tree_toggle_open K fuel n g = (Ok (), g') → view_step K fuel g g'
  | step_look t g : same_tree (g_tree g) t → view_step K fuel g (set_g_tree t g).

Section Rules.
Context {K : kconfig} {fuel : nat} {HK : Loaded K fuel}.
Hypothesis Htree : gui_tree_ok K fuel.
Implicit Types g : gui.

Definition viewing (g : gui) : Prop := session_ok (K := K) (g_session g) ∧ tree_shown K fuel g.

Lemma shown_exact g : tree_shown K fuel g → rows_exact K fuel g.
Proof using Htree.
  intros Hs. split.
  - by apply rows_displayed.
  - exact (rows_order Htree g Hs).
  - destruct (tr_walk (gt_tree _ _ Htree) (base K g)) as [w Hw].
    eapply sublist_NoDup; [|by apply (rows_order Htree g Hs)]. by eapply gt_nodup.
  - by apply rows_labelled.
Qed.

Lemma viewing_update g h : viewing g → g_tree h = g_tree g → session_ok (K := K) (g_session h) →
  ∃ t, update_tree K fuel h = (Ok (), set_g_tree t h) ∧ viewing (set_g_tree t h).
Proof using HK Htree.
  intros [_ Hs] Ht Hσ. destruct (update_shows Htree h Hσ) as (t & Hu & Hts & _).
  - rewrite Ht. by apply shown_known.
  - exists t. done.
Qed.

Lemma viewing_toggle g n : viewing g → n ∈ rows (g_tree g) → children (Some n) (g_tree g) ≠ [] →
  ∃ t, tree_toggle_open K fuel n g = (Ok (), set_g_tree t g) ∧ viewing (set_g_tree t g).
Proof using HK Htree.
  intros [Hσ Hs] Hn Hc. destruct (toggle_shows Htree g n Hσ Hs Hn Hc) as (t & Ht & Hts & _). by exists t.
Qed.

Lemma viewing_step g g' : viewing g → view_step K fuel g g' → viewing g'.
Proof using HK Htree.
  intros Hg Hstep. destruct Hstep as [g1 h g2 Ht Hσ Hu|n g1 g2 Hn Hc Ht|t g1 Hst].
  - destruct (viewing_update _ _ Hg Ht Hσ) as (t & Hu' & Hv). rewrite Hu in Hu'. by injection Hu' as ->.
  - destruct (viewing_toggle _ _ Hg Hn Hc) as (t & Ht' & Hv). rewrite Ht in Ht'. by injection Ht' as ->.
  - destruct Hg as [Hσ Hs]. split; [done|]. by apply (tree_shown_view g1).
Qed.

Lemma viewing_steps g g' : viewing g → rtc (view_step K fuel) g g' → viewing g'.
Proof using HK Htree. intros Hg. induction 1; [done|]. eauto using viewing_step. Qed.
End Rules.

(** C28: The Treeview of guiconfig always shows the configuration.  From the tree the
    interface creates, [_update_tree] succeeds, and after any sequence of changes
    of the values and modes each followed by an update, of rows opened and closed,
    and of selections: the rows are exactly the nodes that appear below the top
    menu or below an open row, without repetition and in the order of the Kconfig
    files, and every row has the text and the image of its node in the current
    configuration; the next update succeeds too, and so does the toggle of every row
    that has children. *)
Theorem gui_rows_exact K fuel `{!Loaded K fuel} g0 :
  gui_tree_ok K fuel → create_kconfig_tree K fuel = Ok (g_tree g0) → session_ok (K := K) (g_session g0) →
  ∃ g1, update_tree K fuel g0 = (Ok (), g1) ∧ ∀ g, rtc (view_step K fuel) g1 g →
    rows_exact K fuel g ∧
    (∀ h, g_tree h = g_tree g → session_ok (K := K) (g_session h) → ∃ g', update_tree K fuel h = (Ok (), g')) ∧
    (∀ n, n ∈ rows (g_tree g) → children (Some n) (g_tree g) ≠ [] → ∃ g', tree_toggle_open K fuel n g = (Ok (), g')).
Proof.
  intros Htree Hc Hσ. destruct (update_shows Htree g0 Hσ (created_known K fuel _ Htree Hc)) as (t & Hu & Hs & _).
  exists (set_g_tree t g0). split; [exact Hu|]. intros g Hg.
  assert (viewing (K := K) (fuel := fuel) g) as Hv by exact (viewing_steps Htree (set_g_tree t g0) g (conj Hσ Hs) Hg).
  split; [by apply shown_exact, Hv|]. split.
  - intros h Ht Hh. destruct (viewing_update Htree g h Hv Ht Hh) as (t' & -> & _). by exists (set_g_tree t' h).
  - intros n Hn Hch. destruct (viewing_toggle Htree g n Hv Hn Hch) as (t' & -> & _). by exists (set_g_tree t' g).
Qed.

(** C29 guiconfig loses no changes: whatever the user does and whatever the file system
    refuses, with callbacks that fail halfway included, the session stays sound, and
    the window closes only when nothing could be configured, when the user declines
    to save (and the program says so), when the configuration file holds the values
    of the session, or with values that at some moment of the run were saved in, or
    loaded from, the file of that name. *)
Theorem gui_loses_nothing K fuel `{!Loaded K fuel} w d re_search h events g :
  names_defined (K := K) → session_ok (K := K) (h_session h) →
  guiconfig w d K fuel re_search h events = (Ok (), g) →
  session_ok (K := K) (g_session g) ∧
  (g_quit g = true → ∃ t g0,
    create_kconfig_tree K fuel = Ok t ∧ started (K := K) (fuel := fuel) w d h t events = (Ok (), g0) ∧
    (g_quit g0 = true ∨
     last (h_stdout (g_host g)) = Some ("Configuration (" +:+ g_conf_filename g +:+ ") was not saved") ∨
     saved_in (K := K) (fuel := fuel) (g_conf_filename g) (g_host g) ∨
     ∃ gm, gui_run (K := K) (fuel := fuel) w d re_search g0 gm ∧
       (saved_in (K := K) (fuel := fuel) (g_conf_filename gm) (g_host gm)
        ∨ loaded_from (K := K) w (g_conf_filename gm) (g_host gm)) ∧
       uvals (g_session g) = uvals (g_session gm) ∧ g_conf_filename g = g_conf_filename gm)).
Proof.
  intros Hdef Hok. unfold guiconfig. destruct (create_kconfig_tree K fuel) as [t|e|]; [|done..]. intros E.
  destruct (started (K := K) (fuel := fuel) w d h t events) as [r g0] eqn:Es.
  assert (r = Ok () ∧ gui_loop w d K fuel re_search (S (length events)) g0 = (Ok (), g)) as [-> El].
  { unfold started, mbind, G_bind in *. destruct (gui_start _ _ _ _ _) as [[[]|e|] g1]; [|done..].
    destruct (select_events K fuel g1) as [[[]|e|] g2]; [|done..]. by injection Es as <- <-. }
  destruct (started_safe w d Hdef h t events g0 Hok Es) as [Hok0 Hsafe].
  destruct (g_quit g0) eqn:Hq0.
  { assert (g = g0) as -> by (cbn in El; destruct (g_events g0); [|rewrite Hq0 in El]; by injection El).
    split; [done|]. intros _. exists t, g0. by split_and!; [| |left]. }
  pose proof (gui_loop_run w d re_search g0 _ g0 g (gui_run_start _ _ _ _) El) as Hrun.
  split; [by apply (gui_run_settled w d re_search Hdef g0 g)|]. intros Hq. exists t, g0. split_and!; [done..|]. right.
  destruct (gui_run_end w d re_search Hdef g0 g Hok0 Hsafe Hq0 Hrun Hq) as [?|[?|?]]; auto.
Qed.

(** On the demo configuration: the user opens a menu and the rows below A, then A is
    set to y, which hides the menu. *)
Lemma demo_gui_tree_ok : gui_tree_ok demo demo_fuel.
Proof. apply gui_treeb_ok. vm_compute. reflexivity. Qed.

Definition demo_gui : gui :=
  initial_gui plain_display demo (host_after demo [] [])
    (match create_kconfig_tree demo demo_fuel with Ok t => t | _ => empty_tree end) [].
Definition demo_first : gui := snd (update_tree demo demo_fuel demo_gui).
Definition demo_menu : nat := Eval vm_compute in nth 4 (rows (g_tree demo_first)) 0.
Definition demo_row : nat := Eval vm_compute in nth 1 (rows (g_tree demo_first)) 0.
Definition toggled (n : nat) (g : gui) : gui := snd (tree_toggle_open demo demo_fuel n g).
Definition demo_open : gui := toggled demo_row (toggled demo_menu demo_first).
Definition with_session (σ : session) (g : gui) : gui := set_g_host (set_h_session σ (g_host g)) g.
Definition demo_last : gui :=
  snd (update_tree demo demo_fuel (with_session (Demo.after [SetValue dA (UStr "y")]) demo_open)).

Lemma step_session K fuel σ g g' : session_ok (K := K) σ →
  update_tree K fuel (with_session σ g) = (Ok (), g') → view_step K fuel g g'.
Proof. intros Hσ Hu. by apply (step_update _ _ _ (with_session σ g)). Qed.

Lemma demo_gui_session : g_session demo_gui = demo_session.
Proof. vm_compute. reflexivity. Qed.

Lemma ran_ok (m : G ()) g : fst (m g) = Ok () → m g = (Ok (), snd (m g)).
Proof. destruct (m g) as [o g']. cbn. by intros ->. Qed.

Lemma ran_state (m : G ()) g g' : m g = (Ok (), g') → g' = snd (m g).
Proof. by intros ->. Qed.

Lemma demo_steps : rtc (view_step demo demo_fuel) demo_first demo_last.
Proof.
  apply rtc_l with (toggled demo_menu demo_first).
  { apply (step_toggle _ _ demo_menu); [apply list_elem_of_In; vm_compute; tauto|vm_compute; discriminate|].
    apply ran_ok. vm_compute. reflexivity. }
  apply rtc_l with demo_open.
  { apply (step_toggle _ _ demo_row); [apply list_elem_of_In; vm_compute; tauto|vm_compute; discriminate|].
    apply ran_ok. vm_compute. reflexivity. }
  apply rtc_once, (step_session _ _ _ _ _ (after_ok [SetValue dA (UStr "y")])), ran_ok. vm_compute. reflexivity.
Qed.

Lemma gui_rows_exact_witness :
  shown_rows (g_tree demo_open) =
    [" y-bool|Modules (NEW)"; " m-tri|A (NEW)"; " n-bool|B (NEW)"; " n-tri|D (NEW)"; " |Mode (Slow)"; " |Numbers";
     " edit|(10) N (NEW)"; " edit|S (NEW): a b"] ∧
  shown_rows (g_tree demo_last) =
    [" y-bool|Modules (NEW)"; " y-tri|A"; " n-bool|B (NEW)"; " n-tri|D (NEW)"; " |Mode (Slow)"; " edit|S (NEW): a b"] ∧
  rows_exact demo demo_fuel demo_last.
Proof.
  split; [vm_compute; reflexivity|]. split; [vm_compute; reflexivity|].
  destruct (gui_rows_exact demo demo_fuel demo_gui demo_gui_tree_ok) as (g1 & Hu & H).
  - vm_compute. reflexivity.
  - rewrite demo_gui_session. exact demo_session_ok.
  - assert (g1 = demo_first) as -> by (unfold demo_first; exact (ran_state _ _ _ Hu)).
    exact (proj1 (H _ demo_steps)).
Defined.

(** The user sets A to y, quits, and agrees to save. *)
Definition quit_gui : gui :=
  snd (guiconfig (one_file "") plain_display demo demo_fuel literal_search (demo_host [] [])
    [Down_key; Tri_key 2; Command Quit; Ask_ync (Some true)]).

Lemma gui_loses_nothing_witness :
  session_ok (K := demo) (g_session quit_gui) ∧
  (true = true → ∃ t g0,
    create_kconfig_tree demo demo_fuel = Ok t ∧
    started (K := demo) (fuel := demo_fuel) (one_file "") plain_display (demo_host [] []) t
      [Down_key; Tri_key 2; Command Quit; Ask_ync (Some true)] = (Ok (), g0) ∧
    (g_quit g0 = true ∨
     last (h_stdout (g_host quit_gui)) = Some ("Configuration (" +:+ g_conf_filename quit_gui +:+ ") was not saved") ∨
     saved_in (K := demo) (fuel := demo_fuel) (g_conf_filename quit_gui) (g_host quit_gui) ∨
     ∃ gm, gui_run (K := demo) (fuel := demo_fuel) (one_file "") plain_display literal_search g0 gm ∧
       (saved_in (K := demo) (fuel := demo_fuel) (g_conf_filename gm) (g_host gm)
        ∨ loaded_from (K := demo) (one_file "") (g_conf_filename gm) (g_host gm)) ∧
       uvals (g_session quit_gui) = uvals (g_session gm) ∧ g_conf_filename quit_gui = g_conf_filename gm)).
Proof.
  assert (g_quit quit_gui = true) as Hq by (vm_compute; reflexivity). rewrite <- Hq at 1.
  apply (gui_loses_nothing demo demo_fuel (one_file "") plain_display literal_search (demo_host [] [])
    [Down_key; Tri_key 2; Command Quit; Ask_ync (Some true)] quit_gui).
  - apply demo_names_defined.
  - apply demo_host_ok.
  - unfold quit_gui. apply ran_ok. vm_compute. reflexivity.
Defined.

(** That run saves the new value. *)
Example quit_gui_saved :
  g_quit quit_gui = true ∧ g_boxes quit_gui = [] ∧ g_errors quit_gui = [] ∧
  tri_value_in quit_gui demo "A" = Ok 2%Z ∧ last (h_stdout (g_host quit_gui)) = Some "Configuration saved to '.config'".
Proof. vm_compute. repeat split. Qed.

Definition quit_refused (answers : list (option bool)) : gui :=
  snd (guiconfig (refusing ".config") plain_display demo demo_fuel literal_search (demo_host [] [])
    ([Down_key; Tri_key 2; Command Quit] ++ (Ask_ync <$> answers))).

(** If the file cannot be written the question is asked again. *)
Example quit_refused_asks_again :
  let cancelled := quit_refused [Some true; None] in
  let declined := quit_refused [Some true; Some true; Some false] in
  let box := "Error saving configuration to '.config': denied (errno: EACCES)" in
  g_quit cancelled = false ∧ g_conf_changed cancelled = true ∧ g_boxes cancelled = [box] ∧
  g_quit declined = true ∧ g_boxes declined = [box; box] ∧
  last (h_stdout (g_host declined)) = Some "Configuration (.config) was not saved".
Proof. vm_compute. repeat split. Qed.
